(* ===== verification/_CoqProject ===== *)
-Q . S2P
Prelude.v
ArithUint256.v
Serialize.v
Sha256.v
Hash160.v
NetAddress.v
Script.v
Primitives.v
Interpreter.v
Standard.v
InterpreterFacts.v
ScriptRules.v
AssetNames.v
Base58.v
BoolEE.v
AssetTypes.v
Merkle.v
Params.v
Coins.v
MNList.v
Chain.v
VersionBits.v
ProviderTx.v
Pow.v
EvoDB.v
PoSe.v
MNManager.v
Rewards.v
TxVerify.v
AssetTx.v
AssetRules.v
AssetCache.v
ConnectBlock.v
AssetBlock.v
Node.v
