(* ===== verification/Prelude.v ===== *)
(** * Mynta Core: blocks, scripts, unspent outputs, assets and masternodes

    A verification library for the consensus core of the Mynta node (C++, under
    src/src; paths below are relative to it).  The node keeps a tree of block
    headers and an active chain, and a cache of unspent outputs over a database.
    It connects a block by checking every transaction against the unspent
    outputs, running the scripts of its inputs and updating the outputs.
    Outputs can carry assets; a cache of assets over databases of its own follows
    the outputs, and the asset rules of a transaction are asked on it.  Beside them it keeps a deterministic list of masternodes that every node
    computes from the blocks: special transactions register and update
    masternodes, quorum behaviour penalises them, and each block pays one of
    them.  The list of each block, the penalties and their undo data are kept in
    the evolution database.

    ** Parts and files

    - [Prelude] (this file): byte strings, machine integers with their
      wrap-around, the [result] monad for fallible code, ordered traversal of
      maps, and the tactics and hint databases the other files share.
    - [ArithUint256]: [base_uint<256>] of arith_uint256.h and
      arith_uint256.cpp, as loops over eight 32-bit limbs, and the compact
      target format.
    - [Serialize]: serialize.h and streams.h.  A [Codec] pairs an encoder with a
      decoder; the classes [CodecOk] and [CodecExact] state that decoding
      inverts encoding and that only canonical encodings are read.  Every record
      that is hashed, sent or stored gets its codec and these laws.
    - [Sha256], [Hash160]: crypto/sha256.cpp, crypto/ripemd160.cpp,
      crypto/sha1.cpp and hash.h.  The unrolled rounds are transcribed with their
      register arguments; the streaming objects compute the one-shot hashes.  The
      class [Hash256] is the interface the clients are proved against.
    - [NetAddress], [Script], [Primitives], [Params]: netaddress.cpp,
      script/script.cpp, primitives/transaction.cpp, and the consensus
      parameters of chainparams.cpp.
    - [Interpreter]: script/interpreter.cpp: every opcode, the evaluation loop,
      witness programs, the signature hashes and the checker of a transaction.
      [InterpreterFacts] has the lemmas about the machine, [ScriptRules] the
      theorems about scripts.
    - [Standard]: script/standard.cpp, the standard scripts and destinations.
    - [Merkle]: consensus/merkle.cpp.
    - [Coins]: coins.cpp and the part of ConnectBlock and DisconnectBlock in
      validation.cpp that changes the unspent outputs.  What happens to assets on
      the way is an interface, the record [asset_ops] of operations on a state:
      spend a coin, add the outputs of a transaction, undo them, undo a spend,
      each of which can fail as in the source.
    - [Chain], [Pow], [VersionBits]: chain.cpp, pow.cpp and versionbits.cpp.
    - [MNList]: the list, its index of unique properties and the payee
      selection (first half of evo/deterministicmns.cpp).
    - [ProviderTx]: evo/providertx.cpp and evo/specialtx.h: payloads, signature
      hashes, every check with its reject reason, and the checks of a block.
    - [EvoDB], [PoSe]: evo/evodb.cpp over dbwrapper.h, and evo/pose.cpp.
    - [MNManager]: CDeterministicMNManager and the entry points
      ProcessSpecialTxsInBlock and UndoSpecialTxsInBlock: processing, undoing,
      caching, storing and rebuilding lists.
    - [Rewards]: the subsidy, the development allocation
      (consensus/devalloc.cpp), the coinbase rules of validation.cpp and the
      coinbase of miner.cpp.
    - [TxVerify], [ConnectBlock]: lock times, signature operations and values of
      consensus/tx_verify.cpp, CheckInputs, and the loop of ConnectBlock over the
      transactions of a block (validation.cpp), which composes the parts above over
      the record [asset_rules]: the operations [asset_ops] and the check of a
      transaction.
    - [AssetNames], [Base58], [BoolEE], [AssetTypes]: the names of assets
      (assets/assets.cpp), addresses (base58.cpp), verifier strings
      (LibBoolEE.cpp), and the asset objects with the scripts that carry them
      (assets/assettypes.h, assets/assets.cpp).
    - [AssetTx], [AssetRules]: CheckTransaction and CheckTxAssets of
      consensus/tx_verify.cpp with the checks of assets/assets.cpp they call.  The
      rules are stated against [asset_view], the questions they ask.
    - [AssetCache]: CAssetsCache (assets/assets.h, assets/assets.cpp) over the
      asset databases: what blocks add and undo, [Flush] and the dump.
    - [AssetBlock]: the asset cache as an implementation of [asset_view] and of
      [asset_rules], with the laws that [ConnectBlock] needs; [ConnectBlockAssets]
      and [DisconnectBlockAssets] are the calls of ConnectTip and DisconnectTip.
    - [Node]: a step relation of a node that connects and disconnects blocks,
      flushes and looks up coins and dumps its asset cache, and the theorems about
      every state it reaches.

    ** How code becomes definitions

    A 32- or 64-bit value is a [Z] with [wrapu] or [wraps] where it can leave its
    range; a [uint256] is the number its bytes spell; a byte string is a list
    of [Z].  A class is a record of its fields, [std::map] and [std::set] are
    [gmap] and [gset] traversed in the order of the source (keys by memcmp).  A
    method that changes an object returns the new one; the managers and the
    database they share are threaded through every operation, and so is the
    coins cache, which lookups fill.  Exceptions and failed assertions are
    [None] or an error of [result]; a rejected block or transaction carries the
    DoS level, code and reason of the source.  Locks and logging are dropped, as
    each operation runs under the lock of its object.

    Loops that are not structural carry fuel: the height for walks along the
    chain, the size of the map for evictions, the length of a script for its
    instructions, the length of the text for verifier strings, the 32 bits of the
    leaf count for merkle trees, the number of
    blocks below for the rebuild of a list.  In each case a lemma or theorem
    shows that the fuel is enough.

    ** What the theorems show

    - Money: whatever blocks a node connects and disconnects, its unspent outputs
      never add up to more than the supply limit, provided no reissue carries coins
      before the values of asset outputs are enforced ([Node.money_supply]; without
      the proviso it fails, [Node.Ledger.unenforced_values_create_money]).  A connected
      block does what its transactions say; disconnecting it restores the outputs, and
      fails or is unclean only as the asset cache decides
      ([Node.connect_block_exact]); no assertion fails in connecting
      ([Node.connect_block_no_assert]).  These theorems take blocks that CheckBlock
      has passed, with transaction identifiers that are new: ConnectBlock has no check
      of this.  The miner's coinbase meets the rules of the validator exactly when the
      payee has no operator payment ([Rewards.template_checked]).
    - Ownership: a payment to a key hash is only spent by an input whose own script
      pushes the key and a signature that it verifies
      ([Node.spend_needs_signature], [ScriptRules.p2pkh_spend]); what
      a signature covers ([ScriptRules.sighash_all_exact]); standard scripts
      are recognised ([Standard.standard_scripts_recognised]); what the
      mempool's script rules accept, a block's rules accept
      ([ScriptRules.standard_accepted_in_block]).
    - Assets: the units of every asset change by what is issued, reissued and made
      unspendable, modulo 2^64 ([AssetBlock.asset_supply]; the modulus matters,
      [AssetRules.Market.asset_totals_wrap]); issues and reissues are authorised and
      paid for, and frozen coins stay ([AssetBlock.block_assets_authorised],
      [AssetRules.creation_authorised]); restricted assets go where their verifier
      strings allow ([AssetRules.restrictions_respected], [BoolEE.resolve_meaning]);
      blocks turn over freezes and tags and give them back when disconnected
      ([AssetCache.blocks_change_status]), and a dump keeps the answers
      ([AssetCache.dump_keeps_answers]).  Names are those of a grammar
      ([AssetNames.asset_names_exact]), asset outputs are read back as written
      ([AssetTypes.asset_outputs_read_back]), addresses are faithful
      ([Base58.addresses_faithful]), and the form of a transaction is what
      CheckTransaction asks ([AssetTx.transactions_checked]).
    - Scripts: every state of the interpreter respects its limits
      ([ScriptRules.machine_typed]) and every script ends
      ([ScriptRules.eval_terminates]).
    - Masternodes: removals and updates keep collaterals, addresses and keys unique
      and the index exact, and an addition does exactly when its properties are free
      ([MNList.unique_properties_kept]); a block that is accepted leaves such a list,
      unless a registration and an update of the block ask for one address or key
      ([MNManager.accepted_block_keeps_unique]); the payee is the least score of
      the eligible ones; updates take effect or change nothing.
    - Special transactions: what is accepted is signed by those it concerns, is
      canonically encoded and cannot be replayed ([ProviderTx.accepted_is_authorised],
      [ProviderTx.payload_canonical], [ProviderTx.payload_not_replayable]).
    - Reorganisations: undoing a processed block restores the list
      ([MNManager.process_undo_restores]) and undoing a session restores the
      penalties ([PoSe.session_undo_restores]).
    - Persistence: a restart loads the penalties that were in memory, unless a reset
      has cleared the mark of unsaved changes ([PoSe.restart_restores]); database transactions are atomic
      ([EvoDB.evodb_transaction_atomic]); rebuilding a list terminates
      ([MNManager.rebuild_terminates]).
    - Refinement: the coins cache behaves as a plain map of outputs
      ([Coins.coins_cache_refines], [Coins.flush_commits]), the limb loops as
      arithmetic modulo 2^256, the skip list as a walk to the parent
      ([Chain.GetAncestor_exact]), the merkle computation as the tree
      ([Merkle.merkle_root_exact]), the cached deployment states as the recursion
      over all periods ([VersionBits.GetStateFor_exact]), the retargeting rules
      as integer formulas.

    Examples beside the theorems record behaviour that comments of the source
    rule out: a rebuilt list that is evicted before it is returned
    ([MNManager.Run.rebuilt_list_evicted]), two masternodes with one address
    after a block ([MNManager.Run.one_address_two_masternodes]), a ban lifted by
    an update that changes no key ([MNManager.unchanged_key_lifts_ban]), unsaved
    penalties lost by a reset ([PoSe.reset_loses_unsaved_penalty]), and a
    template that its own node rejects
    ([Rewards.MainNet.operator_payment_blocks_template]); of assets, a channel
    issued without the parent's owner ([AssetRules.Market.channel_without_owner]), a
    block rule that reads the mempool ([AssetRules.Market.block_rule_reads_mempool]),
    a tag that survives the block that gave it
    ([AssetCache.Registry.subtag_survives_undo]) and a name issued twice after a
    reorganisation ([AssetCache.Registry.issued_twice_after_undo]).

    ** Parameters

    Signature verification by libsecp256k1 is the class [Ecdsa] of
    [Interpreter]; the curve operations of blst, the key recovery of
    libsecp256k1 and HASH160 of a key are the class [Crypto] of [ProviderTx].
    The hashes are the classes [Hash256] and [ScriptHash], with the program's
    hashes as their instances; samples that run many hashes use a cheap
    polynomial instead.  Hash collisions are excluded by hypotheses on the
    finitely many values at hand, never globally.  The block files, the view
    behind the coins cache and the contents of the asset databases are arguments; so
    are the values of variables that the source reads before it has written them
    ([junk] and [junkType]).

    ** Not modelled

    The mempool and fee policy, the network, the quorum protocols of llmq, the
    messages, rewards, snapshots and swaps of assets, the wallet and signing, the RPC and graphical interfaces,
    start-up and disk access, and the proof-of-work hashes.  They are
    concurrent, depend on clocks and peers, or are third-party code;
    the parts above use them only through the parameters just named.  Of
    validation.cpp only the parts named here are modelled: what surrounds the
    loop of ConnectBlock (CheckBlock, the choice to skip scripts under an assumed
    valid block, script check threads), the address indexes, and the
    writing of undo files are not.  A write that throws is not modelled either. *)

From stdpp Require Export base tactics numbers list gmap strings sorting fin_maps.
From Stdlib Require Export ZifyBool ZifyNat.

Open Scope Z_scope.

Declare Scope mynta_scope.
Delimit Scope mynta_scope with mynta.

(** ** Byte strings and machine integers *)

Abbreviation byte := Z (only parsing).
Abbreviation bytes := (list Z) (only parsing).
(** [uint256] and [uint160] (base_blob) as the number their little-endian bytes spell. *)
Abbreviation uint256 := Z (only parsing).
Abbreviation uint160 := Z (only parsing).

(** The [w]-bit unsigned range, and the wrap-around of the C conversions to
    [uintw_t] and [intw_t]. *)
Definition in_u (w x : Z) : bool := (0 <=? x) && (x <? 2 ^ w).
Definition in_s (w x : Z) : bool := (- 2 ^ (w - 1) <=? x) && (x <? 2 ^ (w - 1)).
Definition wrapu (w x : Z) : Z := x mod 2 ^ w.
Definition wraps (w x : Z) : Z := (x + 2 ^ (w - 1)) mod 2 ^ w - 2 ^ (w - 1).

(** [n] little-endian bytes of [x]; a negative [x] gives its two's complement. *)
Fixpoint le_bytes (n : nat) (x : Z) : bytes :=
  match n with
  | O => []
  | S n' => x mod 256 :: le_bytes n' (x / 256)
  end.

Definition le_val (bs : bytes) : Z := foldr (fun b acc => b + 256 * acc) 0 bs.

Definition is_byte (b : byte) : bool := in_u 8 b.
Definition all_bytes (bs : bytes) : bool := forallb is_byte bs.

(** ** Errors as values *)

Inductive result (E A : Type) : Type :=
| Ok (a : A)
| Err (e : E).
Arguments Ok {E A} a.
Arguments Err {E A} e.

#[export] Instance result_ret E : MRet (result E) := fun A a => Ok a.
#[export] Instance result_bind E : MBind (result E) :=
  fun A B f r => match r with Ok a => f a | Err e => Err e end.
#[export] Instance result_fmap E : FMap (result E) :=
  fun A B f r => match r with Ok a => Ok (f a) | Err e => Err e end.

(** An early [return] of the error [e] unless [b] holds. *)
Definition require {E} (b : bool) (e : E) : result E unit := if b then Ok tt else Err e.

Definition is_ok {E A} (r : result E A) : bool :=
  match r with Ok _ => true | Err _ => false end.

(** A C++ [for] loop whose body may return early. *)
Fixpoint foldM {E A S} (f : S -> A -> result E S) (s : S) (l : list A) : result E S :=
  match l with
  | [] => Ok s
  | x :: l' => s' ← f s x; foldM f s' l'
  end.

(** ** Text *)

(** A character and the bytes of a [std::string] literal. *)
Definition ch (a : Ascii.ascii) : Z := Z.of_N (Ascii.N_of_ascii a).
Fixpoint str (s : string) : bytes :=
  match s with EmptyString => [] | String a s' => ch a :: str s' end.

(** ** [std::map] iteration *)

(** [memcmp] order of the bytes: the order of [base_blob::operator<], hence
    of every [std::map<uint256, _>]. *)
Fixpoint bytes_le (a b : bytes) : bool :=
  match a, b with
  | [], _ => true
  | _ :: _, [] => false
  | x :: a', y :: b' => (x <? y) || ((x =? y) && bytes_le a' b')
  end.

(** [memcmp(a, b, n) == 0] on arrays, and equality of [std::vector]s. *)
Fixpoint bytes_eq (a b : bytes) : bool :=
  match a, b with
  | [], [] => true
  | x :: a', y :: b' => (x =? y) && bytes_eq a' b'
  | _, _ => false
  end.

Definition blob_le (w : nat) (a b : Z) : Prop := bytes_le (le_bytes w a) (le_bytes w b) = true.
#[export] Instance blob_le_dec w a b : Decision (blob_le w a b) := bool_eq_dec _ _.

(** [for (const auto& pair : m)] over a map keyed by [uint256]: key order. *)
Definition map_entries {V} (m : gmap uint256 V) : list (uint256 * V) :=
  merge_sort (fun p q => blob_le 32 p.1 q.1) (map_to_list m).

(** ** Tactics *)


(** Split boolean tests in hypotheses and goal into the propositions they decide. *)
Ltac bool_to_prop :=
  repeat match goal with
  | H : context [_ && _ = true] |- _ => rewrite andb_true_iff in H
  | H : context [_ || _ = false] |- _ => rewrite orb_false_iff in H
  | H : _ /\ _ |- _ => destruct H
  | H : negb _ = true |- _ => apply negb_true_iff in H
  | H : negb _ = false |- _ => apply negb_false_iff in H
  | |- _ && _ = true => apply andb_true_iff; split
  | |- _ || _ = false => apply orb_false_iff; split
  | |- negb _ = true => apply negb_true_iff
  end.

(** Invert [require _ _ ;; k = Ok _] chains. *)
Ltac inv_ok :=
  repeat match goal with
  | H : Ok _ = Ok _ |- _ => inv H
  | H : Err _ = Ok _ |- _ => discriminate H
  | H : Ok _ = Err _ |- _ => discriminate H
  | H : (_ ≫= _) = Ok _ |- _ => unfold mbind, result_bind in H
  | H : context [match require ?b _ with _ => _ end] |- _ =>
      let E := fresh "Hreq" in
      unfold require in H at 1; destruct b eqn:E; [|discriminate H]
  end.

(** ** Shared lemmas *)

Create HintDb mynta discriminated.

Lemma in_u_spec w x : in_u w x = true <-> 0 <= x < 2 ^ w.
Proof. unfold in_u. lia. Qed.

Lemma is_byte_spec b : is_byte b = true <-> 0 <= b < 256.
Proof. unfold is_byte, in_u. lia. Qed.

(** A decidable property of bytes is checked on the 256 values. *)
Lemma byte_cases (P : Z -> bool) : forallb P (seqZ 0 256) = true ->
  forall b, is_byte b = true -> P b = true.
Proof.
  intros H b Hb%is_byte_spec. rewrite forallb_forall in H. apply H.
  apply list_elem_of_In, elem_of_seqZ. lia.
Qed.

Lemma wrapu_id w x : 0 <= x < 2 ^ w -> wrapu w x = x.
Proof. intros. unfold wrapu. by apply Z.mod_small. Qed.

(** Testing one bit with a mask. *)
Lemma land_pow2_testbit x k : 0 <= k -> negb (Z.land x (2 ^ k) =? 0) = Z.testbit x k.
Proof.
  intros Hk. destruct (Z.testbit x k) eqn:E.
  - apply negb_true_iff, Z.eqb_neq. intros E0. apply (f_equal (fun y => Z.testbit y k)) in E0.
    by rewrite Z.land_spec, E, Z.pow2_bits_true, Z.bits_0 in E0.
  - apply negb_false_iff, Z.eqb_eq, Z.bits_inj'. intros m Hm. rewrite Z.land_spec, Z.bits_0.
    destruct (Z.eqb_spec k m) as [<-|]; [by rewrite E|]. by rewrite Z.pow2_bits_false, andb_false_r by lia.
Qed.

Lemma wraps_id w x : 0 < w -> - 2 ^ (w - 1) <= x < 2 ^ (w - 1) -> wraps w x = x.
Proof.
  intros Hw Hx. unfold wraps.
  assert (2 ^ w = 2 * 2 ^ (w - 1)) as E.
  { rewrite <- Z.pow_succ_r by lia. f_equal. lia. }
  rewrite Z.mod_small; lia.
Qed.

Lemma length_le_bytes n x : length (le_bytes n x) = n.
Proof. revert x. induction n; intros; simpl; auto. Qed.

Lemma le_bytes_all_bytes n x : all_bytes (le_bytes n x) = true.
Proof.
  revert x. induction n; intros; simpl; auto.
  unfold all_bytes in IHn. rewrite IHn. unfold is_byte, in_u.
  pose proof (Z.mod_pos_bound x 256). lia.
Qed.

Lemma le_val_bound bs : all_bytes bs = true -> 0 <= le_val bs < 256 ^ Z.of_nat (length bs).
Proof.
  induction bs as [|b bs IH]; simpl; [lia|].
  intros H. bool_to_prop. specialize (IH H0). apply is_byte_spec in H.
  rewrite Nat2Z.inj_succ, Z.pow_succ_r by lia. lia.
Qed.

Lemma bind_Ok {E A B} (m : result E A) (f : A -> result E B) b :
  m ≫= f = Ok b <-> exists a, m = Ok a /\ f a = Ok b.
Proof. destruct m as [a|e]; cbn; split; [by exists a|by intros (?&[= ->]&?)|done|by intros (?&?&_)]. Qed.

Lemma require_Ok {E} b (e : E) u : require b e = Ok u <-> b = true.
Proof. destruct b, u; done. Qed.

Lemma foldM_inv {E A S} (f : S -> A -> result E S) (P : S -> Prop) l : forall s s', P s ->
  (forall s a s', a ∈ l -> P s -> f s a = Ok s' -> P s') -> foldM f s l = Ok s' -> P s'.
Proof.
  induction l as [|a l IH]; intros s s' Hs Hf; cbn [foldM]; [by intros [= <-]|].
  rewrite bind_Ok. intros (s1 & H1 & H2). eapply (IH s1); [|intros; eapply Hf; [by right|done|done]|done].
  eapply Hf; [by left|done|done].
Qed.

Lemma foldM_app {E A S} (f : S -> A -> result E S) l l' : forall s, foldM f s (l ++ l') = s' ← foldM f s l; foldM f s' l'.
Proof. induction l as [|a l IH]; intros s; [done|]. cbn [app foldM]. destruct (f s a); [apply IH|done]. Qed.

Lemma seq_Ok {E} (m k : result E unit) : (m;; k) = Ok tt <-> m = Ok tt /\ k = Ok tt.
Proof. rewrite bind_Ok. split; [by intros ([] & ? & ?)|intros [? ?]; by exists tt]. Qed.

Lemma forallb_ext {A} (f g : A -> bool) l : (forall x, f x = g x) -> forallb f l = forallb g l.
Proof. intros H. induction l as [|x l IH]; cbn; [done|]. by rewrite H, IH. Qed.

Lemma fmap_Ok {E A B} (f : A -> B) (m : result E A) b : f <$> m = Ok b <-> exists a, m = Ok a /\ b = f a.
Proof. destruct m as [a|e]; cbn; split; [intros [= <-]; by exists a|by intros (?&[= ->]&->)|done|by intros (?&?&_)]. Qed.

(** Little-endian decoding inverts encoding, modulo the width. *)
Lemma le_val_le_bytes n x : le_val (le_bytes n x) = x mod 256 ^ Z.of_nat n.
Proof.
  revert x. induction n as [|n IH]; intros x; simpl le_bytes; simpl le_val.
  - by rewrite Z.mod_1_r.
  - rewrite IH, Nat2Z.inj_succ, Z.pow_succ_r by lia.
    rewrite Z.rem_mul_r; lia.
Qed.

(** Or-ing disjoint bit ranges is addition. *)
Lemma lor_disjoint lo hi r : 0 <= r -> 0 <= hi < 2 ^ r -> lo mod 2 ^ r = 0 ->
  Z.lor lo hi = lo + hi.
Proof.
  intros Hr Hhi Hlo. rewrite <- Z.lxor_lor, <- Z.add_nocarry_lxor; [done| |].
  all: apply Z.bits_inj'; intros n Hn; rewrite Z.land_spec, Z.bits_0;
    destruct (Z.lt_ge_cases n r).
  all: try (apply andb_false_intro1;
    rewrite <- (Z.mod_pow2_bits_low lo r n), Hlo by lia; by rewrite Z.bits_0).
  all: apply andb_false_intro2; rewrite <- (Z.mod_small hi (2 ^ r)) by lia;
    by apply Z.mod_pow2_bits_high.
Qed.

Lemma bytes_eq_spec a b : bytes_eq a b = true <-> a = b.
Proof.
  revert b. induction a as [|x a IH]; intros [|y b]; cbn; try done.
  rewrite andb_true_iff, IH, Z.eqb_eq. split; [by intros [-> ->]|by intros [= -> ->]].
Qed.

(** ** Map iteration and bulk updates *)

Lemma elem_of_map_entries {V} (m : gmap uint256 V) k v : (k, v) ∈ map_entries m <-> m !! k = Some v.
Proof.
  unfold map_entries. rewrite merge_sort_Permutation. apply elem_of_map_to_list.
Qed.

Lemma NoDup_map_entries {V} (m : gmap uint256 V) : NoDup (fst <$> map_entries m).
Proof.
  unfold map_entries. rewrite merge_sort_Permutation. apply NoDup_fst_map_to_list.
Qed.

(** A loop of [map[f(a)] = g(a)]. *)
Lemma foldl_insert_out `{Countable K} {A V} (f : A -> K) (g : A -> V) L (m : gmap K V) k :
  (forall a, a ∈ L -> f a <> k) -> foldl (fun m a => <[f a := g a]> m) m L !! k = m !! k.
Proof.
  revert m. induction L as [|y L IH]; intros m Hk; [done|]. cbn [foldl].
  rewrite IH by (intros; apply Hk; by apply list_elem_of_further).
  apply lookup_insert_ne, Hk, list_elem_of_here.
Qed.

Lemma foldl_insert_in `{Countable K} {A V} (f : A -> K) (g : A -> V) L (m : gmap K V) k :
  (exists a, a ∈ L /\ f a = k) ->
  exists a, a ∈ L /\ f a = k /\ foldl (fun m a => <[f a := g a]> m) m L !! k = Some (g a).
Proof.
  revert m. induction L as [|x L IH]; intros m (a & Ha & Hk); [by apply elem_of_nil in Ha|].
  cbn [foldl]. destruct (decide (Exists (fun a => f a = k) L)) as [E|E].
  - apply Exists_exists in E as (b & Hb & Hfb).
    destruct (IH (<[f x := g x]> m)) as (c & Hc & Hfc & Hl); [by exists b|].
    exists c. split; [by apply list_elem_of_further|]. done.
  - apply not_Exists_Forall in E; [|apply _]. rewrite Forall_forall in E.
    apply elem_of_cons in Ha as [->|Ha]; [|by destruct (E a Ha)].
    exists x. split; [apply list_elem_of_here|]. split; [done|]. clear IH.
    rewrite foldl_insert_out by exact E. by rewrite <- Hk, lookup_insert_eq.
Qed.

Lemma foldl_delete_lookup {A V} (f : A -> Z) L (m : gmap Z V) k :
  foldl (fun m a => delete (f a) m) m L !! k
  = if decide (k ∈ f <$> L) then None else m !! k.
Proof.
  revert m. induction L as [|y L IH]; intros m; [done|]. cbn [foldl fmap list_fmap]. rewrite IH.
  destruct (decide (k ∈ f <$> L)).
  - rewrite decide_True; [done|]. by apply list_elem_of_further.
  - destruct (decide (k = f y)) as [->|Hne].
    + rewrite decide_True by apply list_elem_of_here. apply lookup_delete_eq.
    + rewrite decide_False; [by apply lookup_delete_ne|]. rewrite elem_of_cons. tauto.
Qed.
