(* ===== verification/ArithUint256.v ===== *)
(** * 256-bit arithmetic (src/arith_uint256.h, src/arith_uint256.cpp)

    [base_uint<256>] as the code stores it: eight 32-bit limbs [pn], least
    significant first, with every operation a loop over the limbs and every
    intermediate [uint64_t] kept at its width.  The theorems refine each
    operation to arithmetic on [Z] modulo 2^256. *)

From S2P Require Import Prelude.

Module ArithUint256.

(** ** The representation *)

(** [enum { WIDTH=BITS/32 }] *)
Definition WIDTH : nat := 8.
Definition B32 : Z := 2 ^ 32.

(** [uint32_t pn[WIDTH]] *)
Abbreviation limbs := (list Z) (only parsing).

(** [base_uint()] *)
Definition zero : limbs := replicate WIDTH 0.

(** [base_uint(uint64_t b)] and [operator=(uint64_t)] *)
Definition of_uint64 (b : Z) : limbs :=
  wrapu 32 b :: wrapu 32 (Z.shiftr b 32) :: replicate (WIDTH - 2) 0.

(** [UintToArith256]: limb [x] is [ReadLE32] of the four bytes at [4*x]. *)
Definition UintToArith256 (a : uint256) : limbs :=
  (fun x : nat => wrapu 32 (Z.shiftr a (32 * Z.of_nat x))) <$> seq 0 WIDTH.

(** [ArithToUint256]: the blob whose bytes are the limbs written with [WriteLE32]. *)
Definition ArithToUint256 (a : limbs) : uint256 := le_val (a ≫= le_bytes 4).

(** ** Operators *)

(** [operator!] *)
Definition is_zero (a : limbs) : bool := forallb (Z.eqb 0) a.

(** [operator~] *)
Definition not_ (a : limbs) : limbs := (fun x => wrapu 32 (Z.lnot x)) <$> a.

(** [operator++]: [while (i < WIDTH && ++pn[i] == 0) i++]. *)
Fixpoint incr (a : limbs) : limbs :=
  match a with
  | [] => []
  | x :: a' => let x' := wrapu 32 (x + 1) in
               if x' =? 0 then x' :: incr a' else x' :: a'
  end.

(** Unary [operator-]. *)
Definition neg (a : limbs) : limbs := incr (not_ a).

(** [operator+=]: the carry loop. *)
Fixpoint add_loop (carry : Z) (a b : limbs) : limbs :=
  match a, b with
  | x :: a', y :: b' =>
      let n := wrapu 64 (carry + x + y) in
      Z.land n 0xffffffff :: add_loop (Z.shiftr n 32) a' b'
  | _, _ => a
  end.
Definition add (a b : limbs) : limbs := add_loop 0 a b.

(** [operator-=] *)
Definition sub (a b : limbs) : limbs := add a (neg b).

(** One iteration of the loop of [operator<<=]: [i] indexes the copy [a]. *)
Definition shl_step (a : limbs) (k : nat) (shift : Z) (pn : limbs) (i : nat) : limbs :=
  let pn := if (i + k + 1 <? WIDTH)%nat && negb (shift =? 0)
            then alter (fun p => Z.lor p (Z.shiftr (a !!! i) (32 - shift))) (i + k + 1)%nat pn
            else pn in
  if (i + k <? WIDTH)%nat
  then alter (fun p => Z.lor p (wrapu 32 (Z.shiftl (a !!! i) shift))) (i + k)%nat pn
  else pn.

(** [operator<<=] *)
Definition shl (a : limbs) (shift : Z) : limbs :=
  foldl (shl_step a (Z.to_nat (shift / 32)) (shift mod 32)) zero (seq 0 WIDTH).

(** One iteration of the loop of [operator>>=]. *)
Definition shr_step (a : limbs) (k : nat) (shift : Z) (pn : limbs) (i : nat) : limbs :=
  let pn := if (k + 1 <=? i)%nat && negb (shift =? 0)
            then alter (fun p => Z.lor p (wrapu 32 (Z.shiftl (a !!! i) (32 - shift)))) (i - k - 1)%nat pn
            else pn in
  if (k <=? i)%nat
  then alter (fun p => Z.lor p (Z.shiftr (a !!! i) shift)) (i - k)%nat pn
  else pn.

(** [operator>>=] *)
Definition shr (a : limbs) (shift : Z) : limbs :=
  foldl (shr_step a (Z.to_nat (shift / 32)) (shift mod 32)) zero (seq 0 WIDTH).

(** [operator*=(uint32_t)] *)
Fixpoint mul32_loop (carry b32 : Z) (a : limbs) : limbs :=
  match a with
  | [] => []
  | x :: a' => let n := wrapu 64 (carry + b32 * x) in
               Z.land n 0xffffffff :: mul32_loop (Z.shiftr n 32) b32 a'
  end.
Definition mul32 (a : limbs) (b32 : Z) : limbs := mul32_loop 0 b32 a.

(** Inner loop of [operator*=(const base_uint&)], over [pn[j..]] and [b]. *)
Fixpoint mul_inner (carry aj : Z) (pn b : limbs) : limbs :=
  match pn, b with
  | p :: pn', q :: b' =>
      let n := wrapu 64 (carry + p + aj * q) in
      Z.land n 0xffffffff :: mul_inner (Z.shiftr n 32) aj pn' b'
  | _, _ => pn
  end.

(** [operator*=(const base_uint&)] *)
Definition mul (a b : limbs) : limbs :=
  foldl (fun pn j => take j pn ++ mul_inner 0 (a !!! j) (drop j pn) b) zero (seq 0 WIDTH).

(** [CompareTo]: from the most significant limb down. *)
Fixpoint compare_loop (a b : limbs) : Z :=
  match a, b with
  | x :: a', y :: b' => if x <? y then -1 else if y <? x then 1 else compare_loop a' b'
  | _, _ => 0
  end.
Definition CompareTo (a b : limbs) : Z := compare_loop (reverse a) (reverse b).

(** [EqualTo(uint64_t)] *)
Definition EqualTo (a : limbs) (b : Z) : bool :=
  forallb (Z.eqb 0) (drop 2 a) &&
  ((a !!! 1%nat) =? Z.shiftr b 32) && ((a !!! 0%nat) =? Z.land b 0xffffffff).

(** The inner loop of [bits]: the highest set bit of a nonzero limb, from
    [nbits] down. *)
Fixpoint limb_bits (nbits : nat) (x : Z) : Z :=
  match nbits with
  | O => 1
  | S n => if negb (Z.land x (Z.shiftl 1 (Z.of_nat nbits)) =? 0)
           then Z.of_nat nbits + 1 else limb_bits n x
  end.

(** [bits]: the position of the highest set bit plus one, or zero. *)
Fixpoint bits_loop (pos : nat) (rev_pn : limbs) : Z :=
  match rev_pn with
  | [] => 0
  | x :: rest => if negb (x =? 0) then 32 * Z.of_nat (pos - 1) + limb_bits 31 x
                 else bits_loop (pos - 1) rest
  end.
Definition bits (a : limbs) : Z := bits_loop WIDTH (reverse a).

(** [GetLow64] *)
Definition GetLow64 (a : limbs) : Z := Z.lor (a !!! 0%nat) (Z.shiftl (a !!! 1%nat) 32).

(** The [while (shift >= 0)] loop of [operator/=]; [fuel] counts [shift + 1]. *)
Fixpoint div_loop (fuel : nat) (num div quot : limbs) : limbs :=
  match fuel with
  | O => quot
  | S shift =>
      let '(num, quot) :=
        if 0 <=? CompareTo num div
        then (sub num div,
              alter (fun p => Z.lor p (wrapu 32 (Z.shiftl 1 (Z.of_nat (shift mod 32)))))
                    (shift / 32)%nat quot)
        else (num, quot) in
      div_loop shift num (shr div 1) quot
  end.

(** [operator/=]; [None] is [throw uint_error("Division by zero")]. *)
Definition div (a b : limbs) : option limbs :=
  let num_bits := bits a in
  let div_bits := bits b in
  if div_bits =? 0 then None
  else if num_bits <? div_bits then Some zero
  else let shift := num_bits - div_bits in
       Some (div_loop (Z.to_nat (shift + 1)) a (shl b shift) zero).

(** ** The compact format *)

(** [SetCompact]: the target with the [pfNegative] and [pfOverflow] outputs. *)
Definition SetCompact (nCompact : Z) : limbs * bool * bool :=
  let nSize := Z.shiftr nCompact 24 in
  let nWord0 := Z.land nCompact 0x007fffff in
  let nWord := if nSize <=? 3 then Z.shiftr nWord0 (8 * (3 - nSize)) else nWord0 in
  let v := if nSize <=? 3 then of_uint64 nWord else shl (of_uint64 nWord) (8 * (nSize - 3)) in
  let fNegative := negb (nWord =? 0) && negb (Z.land nCompact 0x00800000 =? 0) in
  let fOverflow := negb (nWord =? 0) &&
    ((34 <? nSize) || ((0xff <? nWord) && (33 <? nSize)) || ((0xffff <? nWord) && (32 <? nSize))) in
  (v, fNegative, fOverflow).

(** [GetCompact]; [None] is a failed [assert]. *)
Definition GetCompact (a : limbs) (fNegative : bool) : option Z :=
  let nSize := (bits a + 7) / 8 in
  let nCompact :=
    if nSize <=? 3 then wrapu 32 (wrapu 64 (Z.shiftl (GetLow64 a) (8 * (3 - nSize))))
    else wrapu 32 (GetLow64 (shr a (8 * (nSize - 3)))) in
  let '(nCompact, nSize) :=
    if negb (Z.land nCompact 0x00800000 =? 0) then (Z.shiftr nCompact 8, nSize + 1)
    else (nCompact, nSize) in
  if negb (Z.land nCompact (wrapu 32 (Z.lnot 0x007fffff)) =? 0) then None
  else if 256 <=? nSize then None
  else
    let nCompact := Z.lor nCompact (Z.shiftl nSize 24) in
    Some (Z.lor nCompact
            (if fNegative && negb (Z.land nCompact 0x007fffff =? 0) then 0x00800000 else 0)).

(** ** Well-formedness and the value of a representation *)

Definition limb_ok (x : Z) : Prop := 0 <= x < 2 ^ 32.
Definition wf (a : limbs) : Prop := length a = WIDTH /\ Forall limb_ok a.

(** The number the limbs denote. *)
Definition lval (a : limbs) : Z := foldr (fun x acc => x + 2 ^ 32 * acc) 0 a.

(** The limbs of [a] shifted left by [r] bits, with the limb that overflows;
    [prev] holds the bits carried from the limb below. *)
Fixpoint shl_bits (r prev : Z) (a : limbs) : limbs :=
  match a with
  | [] => [prev]
  | x :: a' => Z.lor prev (wrapu 32 (Z.shiftl x r))
               :: shl_bits r (if r =? 0 then 0 else Z.shiftr x (32 - r)) a'
  end.

(** ** Limb-level lemmas *)

Lemma land_low32 n : Z.land n 0xffffffff = n mod 2 ^ 32.
Proof. change 0xffffffff with (Z.ones 32). by rewrite Z.land_ones. Qed.

Lemma land_low32_ok n : limb_ok (Z.land n 0xffffffff).
Proof. rewrite land_low32. unfold limb_ok. apply Z.mod_pos_bound. lia. Qed.

Lemma wrapu32_ok n : limb_ok (wrapu 32 n).
Proof. apply Z.mod_pos_bound. lia. Qed.

Lemma split32 n : Z.land n 0xffffffff + 2 ^ 32 * Z.shiftr n 32 = n.
Proof.
  rewrite land_low32, Z.shiftr_div_pow2 by lia.
  pose proof (Z.div_mod n (2 ^ 32)). lia.
Qed.

Lemma lval_bound a : Forall limb_ok a -> 0 <= lval a < 2 ^ (32 * Z.of_nat (length a)).
Proof.
  induction 1 as [|x a Hx Ha IH]; cbn [lval foldr length]; [lia|].
  fold (lval a) in *. unfold limb_ok in Hx.
  replace (32 * Z.of_nat (S (length a))) with (32 + 32 * Z.of_nat (length a)) by lia.
  rewrite Z.pow_add_r by lia. lia.
Qed.

Lemma wf_bound a : wf a -> 0 <= lval a < 2 ^ 256.
Proof. intros [Hl Ha]. apply lval_bound in Ha. by rewrite Hl in Ha. Qed.

Lemma lval_cons x a : lval (x :: a) = x + 2 ^ 32 * lval a.
Proof. done. Qed.

Lemma lval_app a b : lval (a ++ b) = lval a + 2 ^ (32 * Z.of_nat (length a)) * lval b.
Proof.
  induction a as [|x a IH]; [by cbn [app length]; rewrite Z.mul_1_l|].
  cbn [app length]. rewrite !lval_cons, IH.
  replace (32 * Z.of_nat (S (length a))) with (32 + 32 * Z.of_nat (length a)) by lia.
  rewrite Z.pow_add_r by lia. lia.
Qed.

Lemma lval_replicate_0 n : lval (replicate n 0) = 0.
Proof. induction n; cbn [replicate]; [done|]. rewrite lval_cons, IHn. lia. Qed.

(** A well-formed representation is determined by its value. *)
Lemma lval_inj a b :
  length a = length b -> Forall limb_ok a -> Forall limb_ok b -> lval a = lval b -> a = b.
Proof.
  revert b. induction a as [|x a IH]; intros [|y b]; cbn [length]; try done.
  intros Hl Ha Hb. inv Ha. inv Hb. rewrite !lval_cons. intros HE.
  unfold limb_ok in *. assert (x = y /\ lval a = lval b) as [-> HE'] by lia.
  f_equal. apply IH; auto.
Qed.

Lemma wf_inj a b : wf a -> wf b -> lval a = lval b -> a = b.
Proof. intros [Hl Ha] [Hl' Hb]. apply lval_inj; congruence. Qed.

Lemma zero_wf : wf zero.
Proof. split; [done|]. apply Forall_replicate. unfold limb_ok. lia. Qed.

Lemma lval_zero : lval zero = 0.
Proof. apply lval_replicate_0. Qed.

Lemma of_uint64_wf b : wf (of_uint64 b).
Proof.
  split; [done|]. unfold of_uint64. repeat constructor; try apply wrapu32_ok;
  unfold limb_ok; lia.
Qed.

Lemma lval_of_uint64 b : 0 <= b < 2 ^ 64 -> lval (of_uint64 b) = b.
Proof.
  intros Hb. unfold of_uint64. rewrite !lval_cons, lval_replicate_0.
  unfold wrapu. rewrite Z.shiftr_div_pow2 by lia.
  rewrite (Z.mod_small (b / 2 ^ 32)) by
    (split; [apply Z.div_pos|apply Z.div_lt_upper_bound]; lia).
  pose proof (Z.div_mod b (2 ^ 32)). lia.
Qed.

#[export] Hint Resolve zero_wf of_uint64_wf wrapu32_ok land_low32_ok : mynta.

(** ** Addition, subtraction *)

Lemma add_loop_length c a b : length (add_loop c a b) = length a.
Proof. revert c b. induction a; intros c [|y b]; cbn; auto. Qed.

Lemma add_loop_ok c a b :
  length a = length b -> Forall limb_ok (add_loop c a b).
Proof.
  revert c b. induction a; intros c [|y b]; cbn [length add_loop]; try done.
  intros. constructor; auto with mynta.
Qed.

Lemma add_loop_val c a b :
  length a = length b -> Forall limb_ok a -> Forall limb_ok b -> 0 <= c <= 1 ->
  exists c', 0 <= c' <= 1 /\
    lval (add_loop c a b) + 2 ^ (32 * Z.of_nat (length a)) * c' = c + lval a + lval b.
Proof.
  revert c b. induction a as [|x a IH]; intros c [|y b]; cbn [length add_loop]; try done.
  { exists c. cbn. lia. }
  intros Hl Ha Hb Hc. inv Ha. inv Hb. unfold limb_ok in *.
  rewrite wrapu_id by lia.
  pose proof (split32 (c + x + y)) as Hs.
  assert (0 <= Z.shiftr (c + x + y) 32 <= 1) as Hc2.
  { rewrite Z.shiftr_div_pow2 by lia. split; [apply Z.div_pos; lia|].
    apply Z.lt_succ_r, Z.div_lt_upper_bound; lia. }
  destruct (IH (Z.shiftr (c + x + y) 32) b) as (c' & Hc' & HE); auto with lia.
  exists c'. split; [done|]. rewrite !lval_cons.
  replace (32 * Z.of_nat (S (length a))) with (32 + 32 * Z.of_nat (length a)) by lia.
  rewrite Z.pow_add_r by lia. lia.
Qed.

Lemma mod_eq_of a m r q : 0 <= r < m -> r + m * q = a -> a mod m = r.
Proof. intros Hr <-. rewrite Z.mul_comm, Z.mod_add, Z.mod_small; lia. Qed.

Lemma add_wf a b : wf a -> wf b -> wf (add a b).
Proof.
  intros [Hl Ha] [Hl' Hb]. split; unfold add.
  - by rewrite add_loop_length.
  - apply add_loop_ok. congruence.
Qed.

Lemma lval_add a b : wf a -> wf b -> lval (add a b) = (lval a + lval b) mod 2 ^ 256.
Proof.
  intros Ha Hb. pose proof (wf_bound _ (add_wf _ _ Ha Hb)) as HB.
  destruct Ha as [Hl Ha], Hb as [Hl' Hb].
  destruct (add_loop_val 0 a b) as (c & ? & HE); [congruence|auto|auto|lia|].
  rewrite Hl in HE. symmetry. apply (mod_eq_of _ _ _ c); [done|].
  unfold add. change (32 * Z.of_nat WIDTH) with 256 in HE. lia.
Qed.

Lemma not_val a : Forall limb_ok a ->
  Forall limb_ok (not_ a) /\ lval (not_ a) = 2 ^ (32 * Z.of_nat (length a)) - 1 - lval a.
Proof.
  induction 1 as [|x a Hx Ha [IH1 IH2]]; [by cbn|].
  cbn [not_ fmap list_fmap length]. unfold not_ in *. rewrite !lval_cons, IH2.
  replace (32 * Z.of_nat (S (length a))) with (32 + 32 * Z.of_nat (length a)) by lia.
  rewrite Z.pow_add_r by lia. unfold limb_ok, wrapu, Z.lnot in *.
  assert (Z.pred (- x) mod 2 ^ 32 = 2 ^ 32 - 1 - x) as E.
  { apply (mod_eq_of _ _ _ (-1)); lia. }
  rewrite E. split; [constructor; auto; lia | lia].
Qed.

Lemma incr_length a : length (incr a) = length a.
Proof. induction a; cbn; auto. case_match; cbn; congruence. Qed.

Lemma incr_val a : Forall limb_ok a ->
  Forall limb_ok (incr a) /\
  exists c, lval (incr a) + 2 ^ (32 * Z.of_nat (length a)) * c = lval a + 1.
Proof.
  induction 1 as [|x a Hx Ha [IH1 [c IH2]]]; [split; [done|by exists 1]|].
  cbn [incr length]. unfold limb_ok, wrapu in *.
  replace (32 * Z.of_nat (S (length a))) with (32 + 32 * Z.of_nat (length a)) by lia.
  rewrite Z.pow_add_r by lia.
  destruct (Z.eq_dec x (2 ^ 32 - 1)) as [->|Hne].
  - rewrite (mod_eq_of _ _ 0 1) by lia. cbn [Z.eqb].
    split; [constructor; auto; lia|]. exists c. rewrite !lval_cons. lia.
  - rewrite Z.mod_small by lia. destruct (Z.eqb_spec (x + 1) 0); [lia|].
    split; [constructor; auto; lia|]. exists 0. rewrite !lval_cons. lia.
Qed.

Lemma neg_wf a : wf a -> wf (neg a).
Proof.
  intros [Hl Ha]. destruct (not_val a Ha) as [H1 _]. split; unfold neg.
  - rewrite incr_length. unfold not_. by rewrite length_fmap.
  - by apply incr_val.
Qed.

Lemma lval_neg a : wf a -> lval (neg a) = (- lval a) mod 2 ^ 256.
Proof.
  intros Hwf. pose proof (wf_bound _ (neg_wf _ Hwf)) as HB. destruct Hwf as [Hl Ha].
  destruct (not_val a Ha) as [H1 H2]. destruct (incr_val _ H1) as [_ [c Hc]].
  unfold not_ in Hc at 2. rewrite length_fmap, Hl in Hc. rewrite H2, Hl in Hc.
  symmetry. apply (mod_eq_of _ _ _ (c - 1)); [done|].
  unfold neg. change (32 * Z.of_nat WIDTH) with 256 in *. lia.
Qed.

Lemma sub_wf a b : wf a -> wf b -> wf (sub a b).
Proof. intros. apply add_wf; [|apply neg_wf]; auto. Qed.

Lemma lval_sub a b : wf a -> wf b -> lval (sub a b) = (lval a - lval b) mod 2 ^ 256.
Proof.
  intros Ha Hb. unfold sub. rewrite lval_add, lval_neg by auto using neg_wf.
  by rewrite Zplus_mod_idemp_r.
Qed.

#[export] Hint Resolve add_wf neg_wf sub_wf : mynta.

(** ** Multiplication *)

Lemma limb_mul_bound x y : limb_ok x -> limb_ok y -> 0 <= x * y <= (2 ^ 32 - 1) * (2 ^ 32 - 1).
Proof.
  unfold limb_ok. intros. split; [apply Z.mul_nonneg_nonneg; lia|].
  apply Z.mul_le_mono_nonneg; lia.
Qed.

Lemma mul32_loop_val c b a :
  Forall limb_ok a -> limb_ok b -> limb_ok c ->
  Forall limb_ok (mul32_loop c b a) /\ length (mul32_loop c b a) = length a /\
  exists c', limb_ok c' /\
    lval (mul32_loop c b a) + 2 ^ (32 * Z.of_nat (length a)) * c' = c + b * lval a.
Proof.
  intros Ha Hb. revert c. induction Ha as [|x a Hx Ha IH]; intros c Hc.
  { split; [done|split; [done|]]. exists c. split; [done|].
    cbn [mul32_loop length lval foldr]. change (2 ^ (32 * Z.of_nat 0)) with 1. lia. }
  cbn [mul32_loop length]. pose proof (limb_mul_bound _ _ Hb Hx). unfold limb_ok in *.
  rewrite wrapu_id by lia.
  pose proof (split32 (c + b * x)) as Hs.
  assert (0 <= Z.shiftr (c + b * x) 32 < 2 ^ 32) as Hc2.
  { rewrite Z.shiftr_div_pow2 by lia.
    split; [apply Z.div_pos | apply Z.div_lt_upper_bound]; lia. }
  destruct (IH _ Hc2) as (H1 & H2 & c' & Hc' & HE).
  split; [constructor; [apply land_low32_ok|auto]|]. split; [by rewrite <- H2|].
  exists c'. split; [done|]. rewrite !lval_cons.
  replace (32 * Z.of_nat (S (length a))) with (32 + 32 * Z.of_nat (length a)) by lia.
  rewrite Z.pow_add_r by lia. lia.
Qed.

Lemma mul32_wf a b : wf a -> limb_ok b -> wf (mul32 a b).
Proof.
  intros [Hl Ha] Hb. destruct (mul32_loop_val 0 b a Ha Hb) as (H1 & H2 & _).
  { unfold limb_ok. lia. } split; [by rewrite <- Hl|done].
Qed.

Lemma lval_mul32 a b : wf a -> limb_ok b -> lval (mul32 a b) = (lval a * b) mod 2 ^ 256.
Proof.
  intros Hwf Hb. pose proof (wf_bound _ (mul32_wf _ _ Hwf Hb)) as HB.
  destruct Hwf as [Hl Ha].
  destruct (mul32_loop_val 0 b a Ha Hb) as (_ & _ & c' & _ & HE). { unfold limb_ok. lia. }
  rewrite Hl in HE. change (32 * Z.of_nat WIDTH) with 256 in HE.
  symmetry. apply (mod_eq_of _ _ _ c'); [done|]. unfold mul32. lia.
Qed.

Lemma mul_inner_val c aj pn b :
  (length pn <= length b)%nat -> Forall limb_ok pn -> Forall limb_ok b ->
  limb_ok aj -> limb_ok c ->
  Forall limb_ok (mul_inner c aj pn b) /\ length (mul_inner c aj pn b) = length pn /\
  exists q, lval (mul_inner c aj pn b) + 2 ^ (32 * Z.of_nat (length pn)) * q
            = c + lval pn + aj * lval b.
Proof.
  intros Hl Hpn. revert c b Hl. induction Hpn as [|p pn Hp Hpn IH]; intros c b Hl Hb Haj Hc.
  { split; [by destruct b|split; [by destruct b|]].
    exists (c + aj * lval b). destruct b; cbn [mul_inner length lval foldr]; lia. }
  destruct Hb as [|q b Hq Hb]; [cbn in Hl; lia|].
  cbn [mul_inner length]. pose proof (limb_mul_bound _ _ Haj Hq). unfold limb_ok in *.
  rewrite wrapu_id by lia.
  pose proof (split32 (c + p + aj * q)) as Hs.
  assert (0 <= Z.shiftr (c + p + aj * q) 32 < 2 ^ 32) as Hc2.
  { rewrite Z.shiftr_div_pow2 by lia.
    split; [apply Z.div_pos | apply Z.div_lt_upper_bound]; lia. }
  destruct (IH (Z.shiftr (c + p + aj * q) 32) b) as (H1 & H2 & r & HE); auto.
  { cbn in Hl. lia. }
  split; [constructor; [apply land_low32_ok|auto]|]. split; [by rewrite <- H2|].
  exists r. rewrite !lval_cons.
  replace (32 * Z.of_nat (S (length pn))) with (32 + 32 * Z.of_nat (length pn)) by lia.
  rewrite Z.pow_add_r by lia. lia.
Qed.

(** The partial product after [n] iterations of the outer loop. *)
Lemma mul_outer_val a b n :
  wf a -> wf b -> (n <= WIDTH)%nat ->
  let pn := foldl (fun pn j => take j pn ++ mul_inner 0 (a !!! j) (drop j pn) b) zero (seq 0 n) in
  wf pn /\ exists q, lval pn + 2 ^ 256 * q = lval (take n a) * lval b.
Proof.
  intros [Hla Ha] [Hlb Hb]. induction n as [|n IH]; intros Hn.
  { split; [apply zero_wf|]. exists 0. done. }
  rewrite seq_S, foldl_app, Nat.add_0_l. cbn [foldl]. set (pn := foldl _ zero (seq 0 n)) in *.
  destruct IH as [[Hl Hp] [q HE]]; [lia|]. clearbody pn.
  assert (Hn' : (n < length a)%nat) by lia.
  assert (limb_ok (a !!! n)) as Han.
  { rewrite Forall_forall in Ha. apply Ha, list_elem_of_lookup_total_2. done. }
  destruct (mul_inner_val 0 (a !!! n) (drop n pn) b) as (H1 & H2 & r & HE').
  { rewrite length_drop. lia. }
  { by apply Forall_drop. } { done. } { done. } { unfold limb_ok. lia. }
  assert (Hlt : length (take n pn) = n) by (rewrite length_take; lia).
  split.
  { split; [rewrite length_app, H2, length_drop; lia|].
    apply Forall_app. split; [by apply Forall_take|done]. }
  rewrite length_drop, Hl in HE'.
  exists (q + r). rewrite lval_app, Hlt.
  rewrite (take_S_r _ _ (a !!! n)) by (by apply list_lookup_lookup_total_lt).
  rewrite lval_app, length_take, Nat.min_l by lia. rewrite lval_cons.
  pose proof (lval_app (take n pn) (drop n pn)) as Hs.
  rewrite take_drop, Hlt in Hs.
  replace (2 ^ 256) with (2 ^ (32 * Z.of_nat n) * 2 ^ (32 * Z.of_nat (WIDTH - n))) in *
    by (rewrite <- Z.pow_add_r by lia; f_equal; unfold WIDTH in *; lia).
  change (lval []) with 0.
  set (P := 2 ^ (32 * Z.of_nat n)) in *. set (Q := 2 ^ (32 * Z.of_nat (WIDTH - n))) in *.
  nia.
Qed.

Lemma mul_wf a b : wf a -> wf b -> wf (mul a b).
Proof. intros Ha Hb. apply (mul_outer_val a b WIDTH); auto. Qed.

Lemma lval_mul a b : wf a -> wf b -> lval (mul a b) = (lval a * lval b) mod 2 ^ 256.
Proof.
  intros Ha Hb. destruct (mul_outer_val a b WIDTH) as [Hwf [q HE]]; auto.
  rewrite take_ge in HE by (destruct Ha; lia).
  symmetry. apply (mod_eq_of _ _ _ q); [by apply wf_bound, mul_wf|done].
Qed.

(** ** Comparison *)

Lemma compare_loop_spec a b :
  length a = length b -> Forall limb_ok a -> Forall limb_ok b ->
  compare_loop (reverse a) (reverse b) =
  match lval a ?= lval b with Lt => -1 | Eq => 0 | Gt => 1 end.
Proof.
  revert b. induction a as [|x a IH] using rev_ind; intros b Hl Ha Hb.
  { destruct b; [done|discriminate]. }
  destruct b as [|y b _] using rev_ind; [rewrite length_app in Hl; cbn in Hl; lia|].
  rewrite !length_app in Hl. cbn in Hl.
  apply Forall_app in Ha as [Ha Hx], Hb as [Hb Hy]. inv Hx. inv Hy.
  rewrite !reverse_snoc, !lval_app. cbn [compare_loop].
  rewrite IH by (auto; lia).
  apply lval_bound in Ha as Ba, Hb as Bb. unfold limb_ok in *.
  replace (length b) with (length a) in * by lia. rewrite !lval_cons.
  change (lval []) with 0. rewrite Z.mul_0_r, !Z.add_0_r.
  set (P := 2 ^ (32 * Z.of_nat (length a))) in *.
  destruct (Z.ltb_spec x y), (Z.ltb_spec y x); try lia.
  - destruct (Z.compare_spec (lval a + P * x) (lval b + P * y)); nia.
  - destruct (Z.compare_spec (lval a + P * x) (lval b + P * y)); nia.
  - assert (x = y) as -> by lia.
    destruct (Z.compare_spec (lval a + P * y) (lval b + P * y)),
      (Z.compare_spec (lval a) (lval b)); lia.
Qed.

Lemma CompareTo_spec a b : wf a -> wf b ->
  CompareTo a b = match lval a ?= lval b with Lt => -1 | Eq => 0 | Gt => 1 end.
Proof. intros [Hl Ha] [Hl' Hb]. apply compare_loop_spec; congruence. Qed.

(** ** Conversions with the opaque blob *)

Lemma UintToArith256_wf a : wf (UintToArith256 a).
Proof.
  split; [done|]. unfold UintToArith256. apply Forall_fmap, Forall_forall. intros n _. cbn.
  apply wrapu32_ok.
Qed.

Lemma lval_UintToArith256 a : 0 <= a < 2 ^ 256 -> lval (UintToArith256 a) = a.
Proof.
  intros Ha. unfold UintToArith256, WIDTH. cbn [seq fmap list_fmap].
  rewrite !lval_cons. change (lval []) with 0. unfold wrapu.
  repeat match goal with |- context [32 * Z.of_nat ?n] =>
    let v := eval vm_compute in (32 * Z.of_nat n) in change (32 * Z.of_nat n) with v end.
  rewrite !Z.shiftr_div_pow2 by lia.
  Z.div_mod_to_equations. lia.
Qed.

(** ** Shifts *)

(** The two halves a limb is cut into by a shift of [r] bits. *)
Lemma limb_split x r : limb_ok x -> 0 < r < 32 ->
  let lo := wrapu 32 (Z.shiftl x r) in let hi := Z.shiftr x (32 - r) in
  x * 2 ^ r = lo + 2 ^ 32 * hi /\ 0 <= lo <= 2 ^ 32 - 2 ^ r /\ 0 <= hi < 2 ^ r /\ lo mod 2 ^ r = 0.
Proof.
  intros Hx Hr. cbn zeta. unfold wrapu, limb_ok in *.
  rewrite Z.shiftl_mul_pow2, Z.shiftr_div_pow2 by lia.
  assert (E : 2 ^ 32 = 2 ^ (32 - r) * 2 ^ r) by (rewrite <- Z.pow_add_r by lia; f_equal; lia).
  assert (0 < 2 ^ r) by (apply Z.pow_pos_nonneg; lia).
  assert (0 < 2 ^ (32 - r)) by (apply Z.pow_pos_nonneg; lia).
  rewrite E, Z.mul_mod_distr_r by lia.
  pose proof (Z.div_mod x (2 ^ (32 - r))). pose proof (Z.mod_pos_bound x (2 ^ (32 - r))).
  split; [nia|]. split; [nia|]. split.
  - split; [apply Z.div_pos; lia|]. apply Z.div_lt_upper_bound; lia.
  - apply Z.mod_mul. lia.
Qed.

(** Bits that do not overlap: [|] is [+]. *)
Lemma wf_destruct a : wf a -> exists a0 a1 a2 a3 a4 a5 a6 a7,
  a = [a0; a1; a2; a3; a4; a5; a6; a7] /\ limb_ok a0 /\ limb_ok a1 /\ limb_ok a2 /\
  limb_ok a3 /\ limb_ok a4 /\ limb_ok a5 /\ limb_ok a6 /\ limb_ok a7.
Proof.
  intros [Hl Ha]. unfold WIDTH in Hl.
  do 8 (destruct a as [|? a]; [discriminate|]). destruct a; [|discriminate].
  repeat match goal with H : Forall _ _ |- _ => inv H end.
  repeat eexists; eauto; by match goal with H : limb_ok _ |- _ => apply H end.
Qed.

(** The loop of [operator<<=] places the shifted limbs [k] places up and drops
    what falls off the top. *)
Lemma shl_loop_limbs a k r : wf a -> (k < WIDTH)%nat ->
  foldl (shl_step a k r) zero (seq 0 WIDTH) = take WIDTH (replicate k 0 ++ shl_bits r 0 a).
Proof.
  intros Hwf Hk. apply wf_destruct in Hwf
    as (a0 & a1 & a2 & a3 & a4 & a5 & a6 & a7 & -> & _).
  unfold WIDTH in *. destruct k as [|[|[|[|[|[|[|[|k]]]]]]]]; try lia;
    unfold shl_step, shl_bits; destruct (r =? 0); reflexivity.
Qed.

Lemma shl_bits_val a r p : Forall limb_ok a -> 0 <= r < 32 -> 0 <= p < 2 ^ r ->
  Forall limb_ok (shl_bits r p a) /\ length (shl_bits r p a) = S (length a) /\
  lval (shl_bits r p a) = p + 2 ^ r * lval a.
Proof.
  intros Ha Hr.
  assert (2 ^ r <= 2 ^ 32) by (apply Z.pow_le_mono_r; lia).
  revert p. induction Ha as [|x a Hx Ha IH]; intros p Hp; cbn [shl_bits].
  { split; [|split; [done|]].
    - constructor; [unfold limb_ok; lia|done].
    - rewrite lval_cons. change (lval []) with 0. lia. }
  destruct (Z.eqb_spec r 0) as [->|Hr0].
  - change (2 ^ 0) with 1 in *. assert (p = 0) as -> by lia.
    destruct (IH 0) as (H1 & H2 & H3); [done|].
    rewrite Z.lor_0_l, Z.shiftl_0_r, wrapu_id by done.
    split; [by constructor|]. split; [cbn [length]; lia|]. rewrite !lval_cons, H3. lia.
  - destruct (limb_split x r Hx ltac:(lia)) as (E & Hlo & Hhi & Hm). cbn zeta in *.
    destruct (IH (Z.shiftr x (32 - r))) as (H1 & H2 & H3); [lia|].
    rewrite Z.lor_comm, (lor_disjoint _ _ r) by (auto; lia).
    split; [constructor; auto; unfold limb_ok; lia|]. split; [cbn [length]; lia|].
    rewrite !lval_cons, H3. lia.
Qed.

Lemma lval_take n l : Forall limb_ok l -> (n <= length l)%nat ->
  lval (take n l) = lval l mod 2 ^ (32 * Z.of_nat n).
Proof.
  intros Hl Hn. symmetry. apply (mod_eq_of _ _ _ (lval (drop n l))).
  - assert (length (take n l) = n) as E by (rewrite length_take; lia).
    pose proof (lval_bound (take n l) (Forall_take _ _ _ Hl)) as HB. by rewrite E in HB.
  - rewrite <- (take_drop n l) at 3. rewrite lval_app, length_take, Nat.min_l; lia.
Qed.

Lemma shl_loop_out a k r : (WIDTH <= k)%nat ->
  foldl (shl_step a k r) zero (seq 0 WIDTH) = zero.
Proof.
  intros Hk. assert (forall i pn, shl_step a k r pn i = pn) as E.
  { intros i pn. unfold shl_step.
    destruct (Nat.ltb_spec (i + k + 1) WIDTH); [lia|].
    destruct (Nat.ltb_spec (i + k) WIDTH); [lia|]. done. }
  generalize zero as z. induction (seq 0 WIDTH) as [|i l IH]; intros z; [done|].
  cbn [foldl]. by rewrite E.
Qed.

Lemma shl_spec a s : wf a -> 0 <= s ->
  wf (shl a s) /\ lval (shl a s) = (lval a * 2 ^ s) mod 2 ^ 256.
Proof.
  intros Hwf Hs. unfold shl.
  assert (0 <= s / 32) by (apply Z.div_pos; lia).
  pose proof (Z.mod_pos_bound s 32 ltac:(lia)) as Hmod.
  pose proof (Z.div_mod s 32 ltac:(lia)) as Hdm.
  destruct (Z.lt_ge_cases (s / 32) 8) as [Hlt|Hge].
  - rewrite shl_loop_limbs by (auto; unfold WIDTH; lia).
    destruct Hwf as [Hl Ha].
    destruct (shl_bits_val a (s mod 32) 0 Ha) as (HS1 & HS2 & HS3);
      [lia|split; [lia|apply Z.pow_pos_nonneg; lia]|].
    assert (Forall limb_ok (replicate (Z.to_nat (s / 32)) 0 ++ shl_bits (s mod 32) 0 a)) as HF.
    { apply Forall_app. split; [|done]. apply Forall_replicate. unfold limb_ok. lia. }
    assert (WIDTH <= length (replicate (Z.to_nat (s / 32)) 0%Z ++ shl_bits (s mod 32) 0 a))%nat as HL.
    { rewrite length_app, HS2. lia. }
    split; [split; [rewrite length_take; lia|by apply Forall_take]|].
    rewrite lval_take by done. change (32 * Z.of_nat WIDTH) with 256. f_equal.
    rewrite lval_app, lval_replicate_0, length_replicate, HS3, Z2Nat.id by lia.
    rewrite Hdm at 3. rewrite Z.pow_add_r by lia. lia.
  - rewrite shl_loop_out by (unfold WIDTH; lia). split; [apply zero_wf|].
    rewrite lval_zero. replace s with (256 + (s - 256)) by lia.
    rewrite Z.pow_add_r, Z.mul_comm by lia.
    by rewrite <- Z.mul_assoc, Z.mul_comm, Z.mod_mul by lia.
Qed.

(** A right shift by [r] bits is a left shift by [32 - r] that drops one more limb. *)
Lemma shr_loop_limbs a k r : wf a -> (k < WIDTH)%nat -> r <> 0 -> r <> 32 ->
  foldl (shr_step a k r) zero (seq 0 WIDTH)
  = drop (S k) (shl_bits (32 - r) 0 a) ++ replicate k 0.
Proof.
  intros Hwf Hk Hr Hr'. apply wf_destruct in Hwf
    as (a0 & a1 & a2 & a3 & a4 & a5 & a6 & a7 & -> & _).
  unfold shr_step. replace (r =? 0) with false by lia. cbn [shl_bits].
  replace (32 - r =? 0) with false by lia. replace (32 - (32 - r)) with r by lia.
  unfold WIDTH in *. destruct k as [|[|[|[|[|[|[|[|k]]]]]]]]; try lia; reflexivity.
Qed.

Lemma shr_loop_limbs0 a k : wf a -> (k < WIDTH)%nat ->
  foldl (shr_step a k 0) zero (seq 0 WIDTH) = drop k a ++ replicate k 0.
Proof.
  intros Hwf Hk. apply wf_destruct in Hwf
    as (a0 & a1 & a2 & a3 & a4 & a5 & a6 & a7 & -> & _).
  unfold WIDTH in *. destruct k as [|[|[|[|[|[|[|[|k]]]]]]]]; try lia;
    unfold shr_step; rewrite ?Z.shiftr_0_r; reflexivity.
Qed.

Lemma shr_loop_out a k r : (WIDTH <= k)%nat ->
  foldl (shr_step a k r) zero (seq 0 WIDTH) = zero.
Proof.
  intros Hk. assert (forall i pn, (i < WIDTH)%nat -> shr_step a k r pn i = pn) as Hid.
  { intros i pn Hi. unfold shr_step.
    destruct (Nat.leb_spec (k + 1) i); [lia|]. destruct (Nat.leb_spec k i); [lia|]. done. }
  unfold WIDTH in *. cbn [seq foldl]. rewrite !Hid by lia. done.
Qed.

Lemma lval_drop n l : Forall limb_ok l -> (n <= length l)%nat ->
  lval (drop n l) = lval l / 2 ^ (32 * Z.of_nat n).
Proof.
  intros Hl Hn. apply (Z.div_unique_pos _ _ _ (lval (take n l))).
  - assert (length (take n l) = n) as E by (rewrite length_take; lia).
    pose proof (lval_bound (take n l) (Forall_take _ _ _ Hl)) as HB. by rewrite E in HB.
  - rewrite <- (take_drop n l) at 1. rewrite lval_app, length_take, Nat.min_l; lia.
Qed.

Lemma shr_spec a s : wf a -> 0 <= s -> wf (shr a s) /\ lval (shr a s) = lval a / 2 ^ s.
Proof.
  intros Hwf Hs. unfold shr. pose proof (wf_bound _ Hwf) as HB.
  assert (0 <= s / 32) by (apply Z.div_pos; lia).
  pose proof (Z.mod_pos_bound s 32 ltac:(lia)) as Hmod.
  pose proof (Z.div_mod s 32 ltac:(lia)) as Hdm.
  assert (forall k, Forall limb_ok (replicate k 0)) as HR.
  { intros k. apply Forall_replicate. unfold limb_ok. lia. }
  destruct (Z.lt_ge_cases (s / 32) 8) as [Hlt|Hge].
  2:{ rewrite shr_loop_out by (unfold WIDTH; lia). split; [apply zero_wf|].
      rewrite lval_zero, Z.div_small; [done|]. split; [lia|].
      eapply Z.lt_le_trans; [apply HB|]. apply Z.pow_le_mono_r; lia. }
  set (k := Z.to_nat (s / 32)). assert (Hk : (k < WIDTH)%nat) by (unfold WIDTH; lia).
  assert (Hs' : s = 32 * Z.of_nat k + s mod 32) by lia.
  destruct (Z.eq_dec (s mod 32) 0) as [E|E].
  - rewrite E, shr_loop_limbs0 by done. destruct Hwf as [Hl Ha]. split; [split|].
    + rewrite length_app, length_drop, length_replicate. lia.
    + apply Forall_app. split; [by apply Forall_drop|done].
    + rewrite lval_app, lval_replicate_0, lval_drop by (auto; lia). rewrite Hs', E.
      rewrite Z.add_0_r. lia.
  - rewrite shr_loop_limbs by (auto; lia). destruct Hwf as [Hl Ha].
    destruct (shl_bits_val a (32 - s mod 32) 0 Ha) as (HS1 & HS2 & HS3);
      [lia|split; [lia|apply Z.pow_pos_nonneg; lia]|]. split; [split|].
    + rewrite length_app, length_drop, length_replicate, HS2. lia.
    + apply Forall_app. split; [by apply Forall_drop|done].
    + rewrite lval_app, lval_replicate_0, lval_drop, HS3 by (auto; lia).
      rewrite Z.mul_0_r, Z.add_0_r, Z.add_0_l.
      replace (32 * Z.of_nat (S k)) with ((32 - s mod 32) + s) by lia.
      rewrite Z.pow_add_r, Z.div_mul_cancel_l by (try apply Z.pow_nonzero; lia). done.
Qed.

(** ** Bit length *)

Lemma limb_bits_spec n x : 0 < x < 2 ^ (Z.of_nat n + 1) -> limb_bits n x = Z.log2 x + 1.
Proof.
  induction n as [|n IH]; intros Hx; cbn [limb_bits].
  { assert (x = 1) as -> by lia. done. }
  rewrite Z.shiftl_mul_pow2, Z.mul_1_l by lia.
  destruct (Z.lt_ge_cases x (2 ^ Z.of_nat (S n))) as [Hlt|Hge].
  - rewrite Z.land_comm, Z.land_comm.
    assert (Z.land x (2 ^ Z.of_nat (S n)) = 0) as E.
    { apply Z.bits_inj'. intros m Hm. rewrite Z.land_spec, Z.bits_0.
      destruct (Z.eq_dec m (Z.of_nat (S n))) as [->|Hne].
      - rewrite <- (Z.mod_small x (2 ^ Z.of_nat (S n))) by lia.
        by rewrite Z.mod_pow2_bits_high by lia.
      - rewrite Z.pow2_bits_false by lia. apply andb_false_r. }
    rewrite E. cbn [Z.eqb negb]. apply IH.
    replace (Z.of_nat n + 1) with (Z.of_nat (S n)) by lia. lia.
  - assert (Z.log2 x = Z.of_nat (S n)) as E by (apply Z.log2_unique; lia).
    assert (Z.land x (2 ^ Z.of_nat (S n)) <> 0) as E2.
    { intros H. apply (f_equal (fun z => Z.testbit z (Z.of_nat (S n)))) in H.
      rewrite Z.land_spec, Z.pow2_bits_true, Z.bits_0, andb_true_r in H by lia.
      rewrite <- E, Z.bit_log2 in H by lia. done. }
    destruct (Z.eqb_spec (Z.land x (2 ^ Z.of_nat (S n))) 0); [done|]. cbn [negb]. lia.
Qed.

Lemma bits_loop_spec a : Forall limb_ok a ->
  bits_loop (length a) (reverse a) = if lval a =? 0 then 0 else Z.log2 (lval a) + 1.
Proof.
  induction a as [|x a IH] using rev_ind; intros Ha; [done|].
  apply Forall_app in Ha as [Ha Hx]. inv Hx. rewrite reverse_snoc, length_app, lval_app.
  cbn [length bits_loop]. rewrite Nat.add_sub, IH by done. rewrite lval_cons.
  change (lval []) with 0. rewrite Z.mul_0_r, Z.add_0_r.
  pose proof (lval_bound _ Ha) as HB. set (P := 2 ^ (32 * Z.of_nat (length a))) in *.
  unfold limb_ok in *. destruct (Z.eqb_spec x 0) as [->|Hx]; cbn [negb].
  { by rewrite Z.mul_0_r, Z.add_0_r. }
  destruct (Z.eqb_spec (lval a + P * x) 0); [nia|].
  rewrite limb_bits_spec by lia.
  assert (Z.log2 (lval a + P * x) = 32 * Z.of_nat (length a) + Z.log2 x) as ->; [|lia].
  pose proof (Z.log2_spec x ltac:(lia)) as [L1 L2]. pose proof (Z.log2_nonneg x).
  apply Z.log2_unique; [lia|].
  replace (Z.succ (32 * Z.of_nat (length a) + Z.log2 x))
    with (32 * Z.of_nat (length a) + Z.succ (Z.log2 x)) by lia.
  rewrite !Z.pow_add_r by lia. fold P. nia.
Qed.

Lemma bits_spec a : wf a -> bits a = if lval a =? 0 then 0 else Z.log2 (lval a) + 1.
Proof. intros [Hl Ha]. unfold bits. rewrite <- Hl. by apply bits_loop_spec. Qed.

Lemma bits_range a : wf a -> lval a <> 0 ->
  1 <= bits a <= 256 /\ 2 ^ (bits a - 1) <= lval a < 2 ^ bits a.
Proof.
  intros Hwf Hne. pose proof (wf_bound _ Hwf). rewrite bits_spec by done.
  destruct (Z.eqb_spec (lval a) 0); [lia|].
  pose proof (Z.log2_spec (lval a) ltac:(lia)). pose proof (Z.log2_nonneg (lval a)).
  assert (Z.log2 (lval a) < 256) by (apply Z.log2_lt_pow2; lia).
  rewrite Z.add_simpl_r, Z.add_1_r. lia.
Qed.

(** ** Division *)

Lemma lval_alter f i l : (i < length l)%nat ->
  lval (alter f i l) = lval l + 2 ^ (32 * Z.of_nat i) * (f (l !!! i) - l !!! i).
Proof.
  revert i. induction l as [|x l IH]; intros i Hi; cbn [length] in Hi; [lia|].
  destruct i as [|i].
  - cbn [alter list_alter lookup_total list_lookup_total]. rewrite !lval_cons.
    change (2 ^ (32 * Z.of_nat 0)) with 1. lia.
  - change (alter f (S i) (x :: l)) with (x :: alter f i l).
    change ((x :: l) !!! S i) with (l !!! i). rewrite !lval_cons, IH by lia.
    replace (32 * Z.of_nat (S i)) with (32 + 32 * Z.of_nat i) by lia.
    rewrite Z.pow_add_r by lia. lia.
Qed.

(** A limb inherits the low zero bits of the whole. *)
Lemma limb_low_zero l i e : Forall limb_ok l -> (i < length l)%nat -> 0 <= e <= 32 ->
  lval l mod 2 ^ (32 * Z.of_nat i + e) = 0 -> (l !!! i) mod 2 ^ e = 0.
Proof.
  intros Hl Hi He H. pose proof (lval_drop i l Hl ltac:(lia)) as HD.
  rewrite (drop_S _ (l !!! i)) in HD by (by apply list_lookup_lookup_total_lt).
  rewrite lval_cons in HD.
  apply Z.mod_divide in H as [c Hc]; [|apply Z.pow_nonzero; lia].
  rewrite Hc, Z.pow_add_r, (Z.mul_comm (2 ^ _) (2 ^ e)), Z.mul_assoc, Z.div_mul in HD
    by (try apply Z.pow_nonzero; lia).
  assert (l !!! i = 2 ^ e * (c - 2 ^ (32 - e) * lval (drop (S i) l))) as ->.
  { assert (2 ^ 32 = 2 ^ e * 2 ^ (32 - e)) as E.
    { rewrite <- Z.pow_add_r by lia. f_equal. lia. }
    rewrite E in HD. lia. }
  rewrite Z.mul_comm. apply Z.mod_mul, Z.pow_nonzero; lia.
Qed.

(** Setting bit [shift] of a quotient whose bits up to [shift] are clear. *)
Lemma set_bit_spec q shift : wf q -> (shift < 256)%nat ->
  lval q mod 2 ^ (Z.of_nat shift + 1) = 0 ->
  let q' := alter (fun p => Z.lor p (wrapu 32 (Z.shiftl 1 (Z.of_nat (shift mod 32)))))
                  (shift / 32)%nat q in
  wf q' /\ lval q' = lval q + 2 ^ Z.of_nat shift.
Proof.
  intros [Hl Hq] Hs Hm. cbn zeta. set (i := (shift / 32)%nat). set (j := Z.of_nat (shift mod 32)).
  assert (Hi : (i < length q)%nat).
  { rewrite Hl. apply Nat.Div0.div_lt_upper_bound. unfold WIDTH. lia. }
  assert (Hj : 0 <= j < 32) by (pose proof (Nat.mod_upper_bound shift 32); lia).
  assert (Hsh : Z.of_nat shift = 32 * Z.of_nat i + j).
  { pose proof (Nat.div_mod_eq shift 32). lia. }
  assert (Hp : 2 ^ (j + 1) <= 2 ^ 32) by (apply Z.pow_le_mono_r; lia).
  assert (Hj2 : 2 ^ (j + 1) = 2 * 2 ^ j) by (rewrite Z.pow_add_r by lia; lia).
  assert (0 < 2 ^ j) by (apply Z.pow_pos_nonneg; lia).
  rewrite Z.shiftl_mul_pow2, Z.mul_1_l, wrapu_id by lia.
  assert (Hlow : (q !!! i) mod 2 ^ (j + 1) = 0).
  { apply limb_low_zero; auto; [lia|]. by rewrite Z.add_assoc, <- Hsh. }
  assert (Hqi : limb_ok (q !!! i)).
  { rewrite Forall_forall in Hq. by apply Hq, list_elem_of_lookup_total_2. }
  rewrite lval_alter, (lor_disjoint _ _ (j + 1)) by (auto; lia).
  split; [split|].
  - by rewrite length_alter.
  - apply Forall_alter; [done|]. intros p Hlk Hp'. rewrite (list_lookup_total_correct _ _ _ Hlk) in *.
    rewrite (lor_disjoint _ _ (j + 1)) by (auto; lia). unfold limb_ok in *.
    apply Z.mod_divide in Hlow as [c Hc]; [|lia].
    assert (2 ^ 32 = 2 ^ (31 - j) * 2 ^ (j + 1)) as E32.
    { rewrite <- Z.pow_add_r by lia. f_equal. lia. }
    assert (c < 2 ^ (31 - j)) by nia. nia.
  - rewrite Hsh, Z.pow_add_r by lia. lia.
Qed.

(** The loop of [operator/=]: with [n] iterations left, [div] is the divisor
    shifted by [n - 1], the remainder is below it doubled, and the low [n] bits
    of the quotient are clear. *)
Lemma div_loop_spec n num dv quot b q0 :
  wf num -> wf dv -> wf quot -> (n <= 256)%nat -> 0 < b ->
  (n = 0%nat \/ lval dv = b * 2 ^ (Z.of_nat n - 1)) ->
  lval num < b * 2 ^ Z.of_nat n ->
  lval quot mod 2 ^ Z.of_nat n = 0 ->
  q0 = lval quot * b + lval num ->
  let r := div_loop n num dv quot in
  wf r /\ lval r = q0 / b.
Proof.
  revert num dv quot. induction n as [|n IH]; intros num dv quot Hn Hd Hq Hle Hb Hdv Hlt Hm ->.
  { split; [done|]. pose proof (wf_bound _ Hn). change (2 ^ Z.of_nat 0) with 1 in Hlt.
    cbn [div_loop]. rewrite Z.div_add_l, Z.div_small by lia. lia. }
  destruct Hdv as [|Hdv]; [done|]. cbn [div_loop].
  pose proof (wf_bound _ Hn) as Bn. pose proof (wf_bound _ Hd) as Bd.
  pose proof (wf_bound _ Hq) as Bq.
  replace (Z.of_nat (S n) - 1) with (Z.of_nat n) in Hdv by lia.
  assert (Hpow : 2 ^ Z.of_nat (S n) = 2 * 2 ^ Z.of_nat n).
  { rewrite Nat2Z.inj_succ, Z.pow_succ_r by lia. done. }
  assert (0 < 2 ^ Z.of_nat n) by (apply Z.pow_pos_nonneg; lia).
  destruct (shr_spec dv 1 Hd) as [Hd' Ed]; [lia|].
  assert (Hm' : lval quot mod 2 ^ Z.of_nat n = 0).
  { apply Z.mod_divide in Hm as [c Hc]; [|lia]. rewrite Hc, Hpow, Z.mul_assoc.
    apply Z.mod_mul. lia. }
  assert (Hdv' : n = 0%nat \/ lval (shr dv 1) = b * 2 ^ (Z.of_nat n - 1)).
  { destruct n as [|n]; [by left|right]. rewrite Ed, Hdv, Nat2Z.inj_succ.
    rewrite Z.pow_succ_r by lia. replace (Z.succ (Z.of_nat n) - 1) with (Z.of_nat n) by lia.
    change (2 ^ 1) with 2. rewrite (Z.mul_comm 2), Z.mul_assoc, Z.div_mul by lia. done. }
  rewrite CompareTo_spec by done.
  destruct (Z.compare_spec (lval num) (lval dv)) as [E|Hl|Hg]; cbn [Z.leb Z.compare].
  all: try (destruct (set_bit_spec quot n Hq) as [Hq' Eq']; [lia|by rewrite Z.add_1_r, <- Nat2Z.inj_succ|];
    pose proof (sub_wf _ _ Hn Hd) as Hs; pose proof (lval_sub _ _ Hn Hd) as Es;
    rewrite Z.mod_small in Es by lia).
  - apply IH; auto; try lia.
    rewrite Eq', <- (Z.mul_1_l (2 ^ Z.of_nat n)) at 1. rewrite Z.mod_add by lia. done.
  - apply IH; auto; try lia.
  - apply IH; auto; try lia.
    rewrite Eq', <- (Z.mul_1_l (2 ^ Z.of_nat n)) at 1. rewrite Z.mod_add by lia. done.
Qed.

Lemma div_spec a b : wf a -> wf b -> lval b <> 0 ->
  exists q, div a b = Some q /\ wf q /\ lval q = lval a / lval b.
Proof.
  intros Ha Hb Hne. pose proof (wf_bound _ Ha) as Ba. pose proof (wf_bound _ Hb) as Bb.
  destruct (bits_range b Hb Hne) as [Rb Rb']. unfold div.
  destruct (Z.eqb_spec (bits b) 0); [lia|].
  destruct (Z.eq_dec (lval a) 0) as [Ea|Ea].
  { assert (bits a = 0) as E. { rewrite bits_spec, Ea by done. done. }
    rewrite E. destruct (Z.ltb_spec 0 (bits b)); [|lia].
    exists zero. split; [done|]. split; [apply zero_wf|]. by rewrite lval_zero, Ea. }
  destruct (bits_range a Ha Ea) as [Ra Ra'].
  destruct (Z.ltb_spec (bits a) (bits b)) as [Hlt|Hge].
  { exists zero. split; [done|]. split; [apply zero_wf|]. rewrite lval_zero, Z.div_small; [done|].
    assert (2 ^ bits a <= 2 ^ (bits b - 1)) by (apply Z.pow_le_mono_r; lia). lia. }
  eexists. split; [done|].
  destruct (shl_spec b (bits a - bits b) Hb) as [Hs Es]; [lia|].
  assert (2 ^ bits b * 2 ^ (bits a - bits b) = 2 ^ bits a) as E1
    by (rewrite <- Z.pow_add_r by lia; f_equal; lia).
  assert (2 ^ (bits b - 1) * 2 ^ (bits a - bits b + 1) = 2 ^ bits a) as E2
    by (rewrite <- Z.pow_add_r by lia; f_equal; lia).
  assert (2 ^ bits a <= 2 ^ 256) by (apply Z.pow_le_mono_r; lia).
  assert (0 < 2 ^ (bits a - bits b)) by (apply Z.pow_pos_nonneg; lia).
  assert (0 < 2 ^ (bits a - bits b + 1)) by (apply Z.pow_pos_nonneg; lia).
  rewrite Z.mod_small in Es by nia.
  apply div_loop_spec with (b := lval b); auto using zero_wf; try lia.
  - right. rewrite Es, Z2Nat.id by lia. do 2 f_equal. lia.
  - rewrite Z2Nat.id by lia. nia.
Qed.

Lemma div_by_zero a b : wf b -> lval b = 0 -> div a b = None.
Proof. intros Hb E. unfold div. by rewrite bits_spec, E by done. Qed.

(** ** The compact format *)

Lemma testbit_small x n : 0 <= x < 2 ^ n -> 0 <= n -> forall m, n <= m -> Z.testbit x m = false.
Proof.
  intros Hx Hn m Hm. rewrite <- (Z.mod_small x (2 ^ n)) by lia. by apply Z.mod_pow2_bits_high.
Qed.

(** Masking off everything a small number has gives zero. *)
Lemma land_high_zero x c n : 0 <= n -> 0 <= x < 2 ^ n -> Z.land x (Z.shiftl c n) = 0.
Proof.
  intros Hn Hx. apply Z.bits_inj'. intros m Hm. rewrite Z.land_spec, Z.bits_0.
  destruct (Z.lt_ge_cases m n).
  - rewrite Z.shiftl_spec_low by lia. apply andb_false_r.
  - by rewrite (testbit_small x n).
Qed.

Lemma sign_bit_spec m : 0 <= m < 2 ^ 24 -> (Z.land m 0x00800000 =? 0) = (m <? 2 ^ 23).
Proof.
  intros Hm. destruct (Z.ltb_spec m (2 ^ 23)) as [Hlt|Hge].
  - change 0x00800000 with (Z.shiftl 1 23). by rewrite land_high_zero by lia.
  - apply Z.eqb_neq. intros H. apply (f_equal (fun z => Z.testbit z 23)) in H.
    assert (Z.log2 m = 23) as E by (apply Z.log2_unique; lia).
    rewrite Z.land_spec, Z.bits_0 in H. rewrite <- E in H at 1. rewrite Z.bit_log2 in H by lia.
    discriminate H.
Qed.

Lemma GetLow64_spec a : wf a -> GetLow64 a = lval a mod 2 ^ 64.
Proof.
  intros Hwf. apply wf_destruct in Hwf
    as (a0 & a1 & a2 & a3 & a4 & a5 & a6 & a7 & -> & ? & ? & _). unfold GetLow64.
  cbn [lookup_total list_lookup_total]. unfold limb_ok in *.
  rewrite Z.lor_comm, Z.shiftl_mul_pow2 by lia.
  rewrite (lor_disjoint _ _ 32) by (try apply Z.mod_mul; lia).
  symmetry. apply (mod_eq_of _ _ _ (lval [a2; a3; a4; a5; a6; a7])); [lia|].
  rewrite !lval_cons. lia.
Qed.

(** The value a compact encoding denotes, without the width limit. *)
Definition compact_value (nCompact : Z) : Z :=
  let nSize := nCompact / 2 ^ 24 in
  let nWord := nCompact mod 2 ^ 23 in
  if nSize <=? 3 then nWord / 256 ^ (3 - nSize) else nWord * 256 ^ (nSize - 3).

Lemma pow256 n : 0 <= n -> 2 ^ (8 * n) = 256 ^ n.
Proof. intros. by rewrite Z.pow_mul_r by lia. Qed.

Lemma SetCompact_val c : 0 <= c < 2 ^ 32 ->
  wf (SetCompact c).1.1 /\ lval (SetCompact c).1.1 = compact_value c mod 2 ^ 256.
Proof.
  intros Hc. unfold SetCompact, compact_value. cbn zeta. cbn [fst].
  change 0x007fffff with (Z.ones 23). rewrite Z.land_ones by lia.
  rewrite (Z.shiftr_div_pow2 c 24) by lia.
  pose proof (Z.mod_pos_bound c (2 ^ 23) ltac:(lia)) as Hw.
  assert (0 <= c / 2 ^ 24 < 256) as Hs
    by (split; [apply Z.div_pos|apply Z.div_lt_upper_bound]; lia).
  set (w := c mod 2 ^ 23) in *. set (z := c / 2 ^ 24) in *. clearbody w z.
  destruct (Z.leb_spec z 3).
  - rewrite Z.shiftr_div_pow2, pow256 by lia. split; [apply of_uint64_wf|].
    assert (0 < 256 ^ (3 - z)) by (apply Z.pow_pos_nonneg; lia).
    assert (0 <= w / 256 ^ (3 - z) <= w).
    { split; [apply Z.div_pos; lia|]. apply Z.div_le_upper_bound; nia. }
    rewrite lval_of_uint64, Z.mod_small by lia. done.
  - destruct (shl_spec (of_uint64 w) (8 * (z - 3))) as [H1 H2]; [apply of_uint64_wf|lia|].
    split; [done|]. by rewrite H2, lval_of_uint64, pow256 by lia.
Qed.

(** The overflow flag is exact: it is raised when the denoted value needs more
    than 256 bits. *)
Lemma SetCompact_overflow c : 0 <= c < 2 ^ 32 ->
  (SetCompact c).2 = (2 ^ 256 <=? compact_value c).
Proof.
  intros Hc. unfold SetCompact, compact_value. cbn zeta. cbn [snd].
  change 0x007fffff with (Z.ones 23). rewrite Z.land_ones by lia.
  rewrite (Z.shiftr_div_pow2 c 24) by lia.
  pose proof (Z.mod_pos_bound c (2 ^ 23) ltac:(lia)) as Hw.
  assert (0 <= c / 2 ^ 24 < 256) as Hs
    by (split; [apply Z.div_pos|apply Z.div_lt_upper_bound]; lia).
  set (w := c mod 2 ^ 23) in *. set (z := c / 2 ^ 24) in *. clearbody w z.
  destruct (Z.leb_spec z 3).
  - rewrite Z.shiftr_div_pow2, pow256 by lia.
    assert (0 < 256 ^ (3 - z)) by (apply Z.pow_pos_nonneg; lia).
    assert (w / 256 ^ (3 - z) <= w) by (apply Z.div_le_upper_bound; nia).
    destruct (Z.leb_spec (2 ^ 256) (w / 256 ^ (3 - z))); lia.
  - destruct (Z.eqb_spec w 0) as [->|Hw0]; [done|]. cbn [negb andb].
    destruct (Z.ltb_spec 34 z); cbn [orb].
    { symmetry. apply Z.leb_le. change (2 ^ 256) with (256 ^ 32).
      assert (256 ^ 32 <= 256 ^ (z - 3)) by (apply Z.pow_le_mono_r; lia). nia. }
    destruct (Z.eq_dec z 34) as [->|]; [change (256 ^ (34 - 3)) with (2 ^ 248); lia|].
    destruct (Z.eq_dec z 33) as [->|]; [change (256 ^ (33 - 3)) with (2 ^ 240); lia|].
    assert (256 ^ (z - 3) <= 256 ^ 29) by (apply Z.pow_le_mono_r; lia).
    assert (w * 256 ^ (z - 3) < 2 ^ 256) by (change (256 ^ 29) with (2 ^ 232) in *; nia).
    lia.
Qed.

(** The number of bytes of the value, as [GetCompact] computes it. *)
Lemma nSize_spec a : wf a -> lval a <> 0 ->
  let z := (bits a + 7) / 8 in 1 <= z <= 32 /\ 256 ^ (z - 1) <= lval a < 256 ^ z.
Proof.
  intros Hwf Hne. destruct (bits_range a Hwf Hne) as [Rb [R1 R2]]. cbn zeta.
  pose proof (Z.div_mod (bits a + 7) 8 ltac:(lia)) as Hd.
  pose proof (Z.mod_pos_bound (bits a + 7) 8 ltac:(lia)) as Hm.
  set (z := (bits a + 7) / 8) in *. split; [lia|].
  rewrite <- !pow256 by lia.
  assert (2 ^ (8 * (z - 1)) <= 2 ^ (bits a - 1)) by (apply Z.pow_le_mono_r; lia).
  assert (2 ^ bits a <= 2 ^ (8 * z)) by (apply Z.pow_le_mono_r; lia). lia.
Qed.

(** [GetCompact] before the sign-bit adjustment: the top three bytes. *)
Definition top_bytes (v z : Z) : Z := if z <=? 3 then v * 256 ^ (3 - z) else v / 256 ^ (z - 3).

Lemma top_bytes_range v z : 1 <= z -> 256 ^ (z - 1) <= v < 256 ^ z ->
  2 ^ 16 <= top_bytes v z < 2 ^ 24.
Proof.
  intros Hz Hv. unfold top_bytes. destruct (Z.leb_spec z 3).
  - assert (256 ^ (z - 1) * 256 ^ (3 - z) = 2 ^ 16) as E1.
    { rewrite <- Z.pow_add_r by lia. replace (z - 1 + (3 - z)) with 2 by lia. done. }
    assert (256 ^ z * 256 ^ (3 - z) = 2 ^ 24) as E2.
    { rewrite <- Z.pow_add_r by lia. replace (z + (3 - z)) with 3 by lia. done. }
    assert (0 < 256 ^ (3 - z)) by (apply Z.pow_pos_nonneg; lia). nia.
  - assert (256 ^ (z - 1) = 2 ^ 16 * 256 ^ (z - 3)) as E1.
    { change (2 ^ 16) with (256 ^ 2). rewrite <- Z.pow_add_r by lia. f_equal. lia. }
    assert (256 ^ z = 256 ^ (z - 3) * 2 ^ 24) as E2.
    { change (2 ^ 24) with (256 ^ 3). rewrite <- Z.pow_add_r by lia. f_equal. lia. }
    assert (0 < 256 ^ (z - 3)) by (apply Z.pow_pos_nonneg; lia).
    split; [apply Z.div_le_lower_bound; lia | apply Z.div_lt_upper_bound; lia].
Qed.

Lemma GetCompact_nonzero a : wf a -> lval a <> 0 ->
  let z := (bits a + 7) / 8 in let m := top_bytes (lval a) z in
  GetCompact a false
  = Some (if m <? 2 ^ 23 then m + z * 2 ^ 24 else m / 256 + (z + 1) * 2 ^ 24).
Proof.
  intros Hwf Hne. destruct (nSize_spec a Hwf Hne) as [Hz Hv]. cbn zeta in *.
  unfold GetCompact. set (z := (bits a + 7) / 8) in *. cbn zeta.
  pose proof (top_bytes_range (lval a) z ltac:(lia) Hv) as Hm.
  assert ((if z <=? 3 then wrapu 32 (wrapu 64 (Z.shiftl (GetLow64 a) (8 * (3 - z))))
           else wrapu 32 (GetLow64 (shr a (8 * (z - 3))))) = top_bytes (lval a) z) as ->.
  { unfold top_bytes in *. destruct (Z.leb_spec z 3).
    - assert (256 ^ z <= 256 ^ 3) by (apply Z.pow_le_mono_r; lia).
      rewrite GetLow64_spec, Z.mod_small by (auto; lia).
      rewrite Z.shiftl_mul_pow2, pow256, (wrapu_id 64), (wrapu_id 32) by lia. done.
    - destruct (shr_spec a (8 * (z - 3)) Hwf) as [Hw' Ev]; [lia|].
      rewrite pow256 in Ev by lia. rewrite GetLow64_spec, Ev, Z.mod_small, wrapu_id by (auto; lia). done. }
  set (m := top_bytes (lval a) z) in *. clearbody m.
  rewrite sign_bit_spec by lia. change (wrapu 32 (Z.lnot 0x007fffff)) with (Z.shiftl 511 23).
  assert (forall w y, 0 <= w < 2 ^ 23 -> 0 <= y -> Z.lor w (Z.shiftl y 24) = w + y * 2 ^ 24) as HL.
  { intros w y Hw Hy. rewrite Z.lor_comm, Z.shiftl_mul_pow2 by lia.
    rewrite (lor_disjoint _ _ 24) by (try apply Z.mod_mul; lia). lia. }
  destruct (Z.ltb_spec m (2 ^ 23)) as [Hlt|Hge]; cbn [negb].
  - rewrite land_high_zero, Z.eqb_refl by lia. cbn [negb].
    destruct (Z.leb_spec 256 z); [lia|]. cbn [andb]. by rewrite Z.lor_0_r, HL by lia.
  - rewrite Z.shiftr_div_pow2 by lia. change (2 ^ 8) with 256.
    assert (0 <= m / 256 < 2 ^ 23)
      by (split; [apply Z.div_pos|apply Z.div_lt_upper_bound]; lia).
    rewrite land_high_zero, Z.eqb_refl by lia. cbn [negb].
    destruct (Z.leb_spec 256 (z + 1)); [lia|]. cbn [andb]. by rewrite Z.lor_0_r, HL by lia.
Qed.

Lemma GetCompact_zero a : wf a -> lval a = 0 -> GetCompact a false = Some 0.
Proof.
  intros Hwf E. assert (a = zero) as ->; [|done].
  apply wf_inj; auto using zero_wf.
Qed.

(** The fields of an encoding [w + y * 2^24] whose sign bit is clear. *)
Lemma compact_fields w y : 0 <= w < 2 ^ 23 -> 0 <= y < 256 ->
  0 <= w + y * 2 ^ 24 < 2 ^ 32 /\ (w + y * 2 ^ 24) / 2 ^ 24 = y /\
  (w + y * 2 ^ 24) mod 2 ^ 23 = w /\ Z.land (w + y * 2 ^ 24) 0x00800000 = 0.
Proof.
  intros Hw Hy. split; [lia|]. split.
  { rewrite Z.div_add, Z.div_small; lia. }
  split.
  { apply (mod_eq_of _ _ _ (2 * y)); lia. }
  rewrite <- (Z.lor_0_r 0), Z.add_comm.
  rewrite <- (lor_disjoint (y * 2 ^ 24) w 24) by (try apply Z.mod_mul; lia).
  rewrite Z.land_lor_distr_l. f_equal.
  - rewrite <- Z.shiftl_mul_pow2, Z.land_comm by lia.
    apply land_high_zero; lia.
  - change 0x00800000 with (Z.shiftl 1 23). apply land_high_zero; lia.
Qed.

(** The value of what [GetCompact] returns: the top bytes, rounded down. *)
Lemma GetCompact_value a c : wf a -> GetCompact a false = Some c ->
  0 <= c < 2 ^ 32 /\ Z.land c 0x00800000 = 0 /\ compact_value c < 2 ^ 256 /\
  compact_value c <= lval a /\ (lval a - compact_value c) * 2 ^ 15 <= compact_value c.
Proof.
  intros Hwf HG. destruct (Z.eq_dec (lval a) 0) as [E|Hne].
  { rewrite GetCompact_zero in HG by done. inv HG. rewrite E. by vm_compute. }
  rewrite GetCompact_nonzero in HG by done. cbn zeta in HG.
  destruct (nSize_spec a Hwf Hne) as [Hz Hv]. cbn zeta in *.
  pose proof (wf_bound _ Hwf) as HB.
  set (z := (bits a + 7) / 8) in *. clearbody z.
  pose proof (top_bytes_range (lval a) z ltac:(lia) Hv) as Hm.
  set (v := lval a) in *. clearbody v. clear Hwf a.
  assert (forall k, 0 <= k -> 0 < 256 ^ k) as Hpos by (intros; apply Z.pow_pos_nonneg; lia).
  (* the discarded low part *)
  assert (forall k, 0 <= k -> v / 256 ^ k * 256 ^ k <= v < v / 256 ^ k * 256 ^ k + 256 ^ k) as Hcut.
  { intros k Hk. pose proof (Z.div_mod v (256 ^ k)). pose proof (Z.mod_pos_bound v (256 ^ k)).
    specialize (Hpos k Hk). lia. }
  destruct (Z.ltb_spec (top_bytes v z) (2 ^ 23)) as [Hlt|Hge]; inv HG.
  - destruct (compact_fields (top_bytes v z) z) as (F1 & F2 & F3 & F4); [lia|lia|].
    split; [done|]. split; [done|]. unfold compact_value. rewrite F2, F3.
    unfold top_bytes in *. destruct (Z.leb_spec z 3).
    + rewrite Z.div_mul by (specialize (Hpos (3 - z)); lia). lia.
    + specialize (Hcut (z - 3) ltac:(lia)). specialize (Hpos (z - 3) ltac:(lia)).
      split; [lia|]. nia.
  - assert (2 ^ 15 <= top_bytes v z / 256 < 2 ^ 16) as Hq
      by (split; [apply Z.div_le_lower_bound|apply Z.div_lt_upper_bound]; lia).
    destruct (compact_fields (top_bytes v z / 256) (z + 1)) as (F1 & F2 & F3 & F4); [lia|lia|].
    split; [done|]. split; [done|]. unfold compact_value. rewrite F2, F3.
    unfold top_bytes in *. destruct (Z.leb_spec z 3).
    + destruct (Z.leb_spec (z + 1) 3).
      * assert (v * 256 ^ (3 - z) / 256 = v * 256 ^ (3 - (z + 1))) as E.
        { replace (3 - z) with (Z.succ (3 - (z + 1))) by lia. rewrite Z.pow_succ_r by lia.
          rewrite (Z.mul_comm 256), Z.mul_assoc, Z.div_mul by lia. done. }
        rewrite E, Z.div_mul by (specialize (Hpos (3 - (z + 1))); lia). lia.
      * assert (z = 3) as -> by lia. specialize (Hcut 1 ltac:(lia)).
        change (256 ^ (3 + 1 - 3)) with 256. change (256 ^ (3 - 3)) with 1 in *.
        change (256 ^ 1) with 256 in Hcut. rewrite Z.mul_1_r in *. lia.
    + destruct (Z.leb_spec (z + 1) 3); [lia|].
      rewrite Z.div_div in * by (specialize (Hpos (z - 3)); lia).
      replace (256 ^ (z - 3) * 256) with (256 ^ (z + 1 - 3)) in *
        by (replace (z + 1 - 3) with (Z.succ (z - 3)) by lia; rewrite Z.pow_succ_r by lia; lia).
      specialize (Hcut (z + 1 - 3) ltac:(lia)). specialize (Hpos (z + 1 - 3) ltac:(lia)).
      split; [lia|]. nia.
Qed.

Lemma GetCompact_total a : wf a -> exists c, GetCompact a false = Some c.
Proof.
  intros Hwf. destruct (Z.eq_dec (lval a) 0).
  - exists 0. by apply GetCompact_zero.
  - eexists. by apply GetCompact_nonzero.
Qed.

(** A canonical encoding has a positive mantissa of at least two bytes. *)
Definition canonical_compact (c : Z) : bool :=
  (4 <=? c / 2 ^ 24) && (c / 2 ^ 24 <=? 32) &&
  (2 ^ 15 <=? c mod 2 ^ 24) && (c mod 2 ^ 24 <? 2 ^ 23).

Lemma canonical_bytes w y : 4 <= y <= 32 -> 2 ^ 15 <= w < 2 ^ 23 ->
  let v := w * 256 ^ (y - 3) in
  let z := if w <? 2 ^ 16 then y - 1 else y in
  256 ^ (z - 1) <= v < 256 ^ z /\
  top_bytes v z = (if w <? 2 ^ 16 then w * 256 else w) /\ 0 < v < 2 ^ 256.
Proof.
  intros Hy Hw. cbn zeta.
  assert (0 < 256 ^ (y - 3)) by (apply Z.pow_pos_nonneg; lia).
  assert (256 ^ (y - 3) <= 256 ^ 29) by (apply Z.pow_le_mono_r; lia).
  assert (256 ^ (y - 1) = 2 ^ 16 * 256 ^ (y - 3)) as E1
    by (change (2 ^ 16) with (256 ^ 2); rewrite <- Z.pow_add_r by lia; f_equal; lia).
  assert (256 ^ y = 2 ^ 24 * 256 ^ (y - 3)) as E2
    by (change (2 ^ 24) with (256 ^ 3); rewrite <- Z.pow_add_r by lia; f_equal; lia).
  assert (256 ^ (y - 1 - 1) = 256 * 256 ^ (y - 3)) as E3
    by (rewrite <- Z.pow_succ_r by lia; f_equal; lia).
  change (256 ^ 29) with (2 ^ 232) in *.
  destruct (Z.ltb_spec w (2 ^ 16)); (split; [nia|]); (split; [|nia]); unfold top_bytes.
  - destruct (Z.leb_spec (y - 1) 3).
    + assert (y = 4) as -> by lia. change (256 ^ (4 - 3)) with 256.
      change (256 ^ (3 - (4 - 1))) with 1. lia.
    + replace (256 ^ (y - 3)) with (256 * 256 ^ (y - 1 - 3))
        by (rewrite <- Z.pow_succ_r by lia; f_equal; lia).
      rewrite Z.mul_assoc, Z.div_mul by (apply Z.pow_nonzero; lia). done.
  - destruct (Z.leb_spec y 3); [lia|]. rewrite Z.div_mul by lia. done.
Qed.

(** ** The refinement theorems *)

(** C40. The limb loops of [base_uint<256>] implement arithmetic modulo 2^256:
    on well-formed representations every operator returns a well-formed
    representation whose value is the sum, difference, product, shift or
    comparison of the values, wrapped to 256 bits. *)
Theorem arith_ops_refine (a b : limbs) (b32 s : Z) :
  wf a -> wf b -> limb_ok b32 -> 0 <= s ->
  (wf (add a b) /\ lval (add a b) = (lval a + lval b) mod 2 ^ 256) /\
  (wf (sub a b) /\ lval (sub a b) = (lval a - lval b) mod 2 ^ 256) /\
  (wf (mul a b) /\ lval (mul a b) = (lval a * lval b) mod 2 ^ 256) /\
  (wf (mul32 a b32) /\ lval (mul32 a b32) = (lval a * b32) mod 2 ^ 256) /\
  (wf (shl a s) /\ lval (shl a s) = (lval a * 2 ^ s) mod 2 ^ 256) /\
  (wf (shr a s) /\ lval (shr a s) = lval a / 2 ^ s) /\
  CompareTo a b = match lval a ?= lval b with Lt => -1 | Eq => 0 | Gt => 1 end.
Proof.
  intros Ha Hb H32 Hs. split_and!;
    auto using add_wf, lval_add, sub_wf, lval_sub, mul_wf, lval_mul, mul32_wf, lval_mul32,
      CompareTo_spec.
  all: apply shl_spec || apply shr_spec; done.
Qed.

Lemma arith_ops_refine_witness :
  lval (mul (UintToArith256 (2 ^ 255)) (UintToArith256 3)) = 2 ^ 255.
Proof.
  destruct (arith_ops_refine (UintToArith256 (2 ^ 255)) (UintToArith256 3) 7 5)
    as (_ & _ & [_ H] & _); try apply UintToArith256_wf; try (unfold limb_ok; lia).
  rewrite H. reflexivity.
Defined.

(** Long division ([operator/=]) terminates with the floor quotient for every
    nonzero divisor, and throws exactly on a zero divisor. *)
Theorem div_refines (a b : limbs) :
  wf a -> wf b ->
  match div a b with
  | Some q => lval b <> 0 /\ wf q /\ lval q = lval a / lval b
  | None => lval b = 0
  end.
Proof.
  intros Ha Hb. destruct (Z.eq_dec (lval b) 0) as [E|E].
  - by rewrite div_by_zero.
  - destruct (div_spec a b Ha Hb E) as (q & -> & ? & ?). done.
Qed.

Lemma div_refines_witness :
  match div (UintToArith256 (2 ^ 200)) (of_uint64 10) with
  | Some q => lval (of_uint64 10) <> 0 /\ wf q
              /\ lval q = lval (UintToArith256 (2 ^ 200)) / lval (of_uint64 10)
  | None => lval (of_uint64 10) = 0
  end.
Proof. apply div_refines; [apply UintToArith256_wf | apply of_uint64_wf]. Defined.

(** [SetCompact] decodes every 32-bit compact target to the number it
    denotes reduced to 256 bits, and its overflow output is raised exactly when
    that number does not fit 256 bits. *)
Theorem SetCompact_exact (c : Z) :
  0 <= c < 2 ^ 32 ->
  let '(v, _, fOverflow) := SetCompact c in
  wf v /\ lval v = compact_value c mod 2 ^ 256 /\
  fOverflow = (2 ^ 256 <=? compact_value c).
Proof.
  intros Hc. pose proof (SetCompact_val c Hc) as [H1 H2].
  pose proof (SetCompact_overflow c Hc) as H3.
  destruct (SetCompact c) as [[v n] o]. done.
Qed.

Lemma SetCompact_exact_witness :
  let '(v, _, fOverflow) := SetCompact 0x1d00ffff in
  wf v /\ lval v = compact_value 0x1d00ffff mod 2 ^ 256 /\
  fOverflow = (2 ^ 256 <=? compact_value 0x1d00ffff).
Proof. apply SetCompact_exact. lia. Defined.

(** [GetCompact] never fails its assertions, and decoding its result gives a
    non-negative, non-overflowing target that is at most the original and
    within one part in 2^15 of it: a target is never made easier by encoding. *)
Theorem GetCompact_rounds_down (a : limbs) :
  wf a ->
  exists c, GetCompact a false = Some c /\
    let '(v, fNegative, fOverflow) := SetCompact c in
    fNegative = false /\ fOverflow = false /\
    lval v <= lval a /\ (lval a - lval v) * 2 ^ 15 <= lval v.
Proof.
  intros Hwf. destruct (GetCompact_total a Hwf) as [c Hc]. exists c. split; [done|].
  destruct (GetCompact_value a c Hwf Hc) as (Hr & Hs & Hlt & Hle & Hp).
  pose proof (SetCompact_val c Hr) as [_ H2]. pose proof (SetCompact_overflow c Hr) as H3.
  assert (0 <= compact_value c) as Hnn.
  { pose proof (wf_bound _ Hwf). lia. }
  rewrite Z.mod_small in H2 by lia.
  assert ((SetCompact c).1.2 = false) as HN.
  { unfold SetCompact. cbn zeta. cbn [fst snd]. rewrite Hs, Z.eqb_refl. apply andb_false_r. }
  destruct (SetCompact c) as [[v n] o]. cbn [fst snd] in *. subst.
  repeat split; auto; lia.
Qed.

Lemma GetCompact_rounds_down_witness :
  exists c, GetCompact (UintToArith256 (2 ^ 224 - 1)) false = Some c /\
    let '(v, fNegative, fOverflow) := SetCompact c in
    fNegative = false /\ fOverflow = false /\
    lval v <= lval (UintToArith256 (2 ^ 224 - 1)) /\
    (lval (UintToArith256 (2 ^ 224 - 1)) - lval v) * 2 ^ 15 <= lval v.
Proof. apply GetCompact_rounds_down. apply UintToArith256_wf. Defined.

(** Compact encodings with a mantissa of two or three significant bytes
    round-trip: [GetCompact] of the decoded target is the encoding. *)
Theorem compact_roundtrip (c : Z) :
  canonical_compact c = true -> GetCompact (SetCompact c).1.1 false = Some c.
Proof.
  unfold canonical_compact. intros H. bool_to_prop.
  pose proof (Z.div_mod c (2 ^ 24) ltac:(lia)) as Hd.
  set (y := c / 2 ^ 24) in *. set (w := c mod 2 ^ 24) in *.
  assert (Hy : 4 <= y <= 32) by lia. assert (Hw : 2 ^ 15 <= w < 2 ^ 23) by lia.
  destruct (compact_fields w y) as (F1 & F2 & F3 & _); [lia|lia|].
  replace (w + y * 2 ^ 24) with c in * by lia. clearbody w y.
  destruct (SetCompact_val c F1) as [Hwf Hv]. set (a := (SetCompact c).1.1) in *. clearbody a.
  destruct (canonical_bytes w y Hy Hw) as (Hb & Ht & Hp). cbn zeta in *.
  assert (lval a = w * 256 ^ (y - 3)) as Ea.
  { rewrite Hv. unfold compact_value. rewrite F2, F3. destruct (Z.leb_spec y 3); [lia|].
    apply Z.mod_small. lia. }
  destruct (nSize_spec a Hwf ltac:(lia)) as [Hz Hzb]. rewrite Ea in Hzb. cbn zeta in *.
  rewrite GetCompact_nonzero by (auto; lia). cbn zeta. rewrite Ea.
  set (z := (bits a + 7) / 8) in *. clearbody z.
  assert (z = if w <? 2 ^ 16 then y - 1 else y) as ->.
  { set (z' := if w <? 2 ^ 16 then y - 1 else y) in *.
    assert (256 ^ (z - 1) < 256 ^ z') as L1 by lia.
    assert (256 ^ (z' - 1) < 256 ^ z) as L2 by lia.
    apply Z.pow_lt_mono_r_iff in L1, L2; try lia; subst z'; destruct (w <? 2 ^ 16); lia. }
  rewrite Ht. destruct (Z.ltb_spec w (2 ^ 16)).
  - destruct (Z.ltb_spec (w * 256) (2 ^ 23)); [lia|]. rewrite Z.div_mul by lia. f_equal. lia.
  - destruct (Z.ltb_spec w (2 ^ 23)); [|lia]. f_equal. lia.
Qed.

Lemma compact_roundtrip_witness : GetCompact (SetCompact 0x1e0fffff).1.1 false = Some 0x1e0fffff.
Proof. apply compact_roundtrip. reflexivity. Defined.

End ArithUint256.
