(* ===== verification/Serialize.v ===== *)
(** Serialization (serialize.h, streams.h): the byte stream, fixed width
    integers, compact sizes, variable length integers, byte vectors and vectors,
    as encoder/decoder pairs behind the interface [Codec], with the laws
    [CodecOk] (decoding inverts encoding) and [CodecExact] (a decoder accepts
    nothing but the encoding) that the transaction and payload formats are
    proved against. *)

From S2P Require Import Prelude.

(** ** The stream *)

(** [std::ios_base::failure] by the message it is thrown with. *)
Inductive ser_error :=
| EndOfData
| NonCanonicalCompactSize
| CompactSizeTooLarge
| VarIntTooLarge
| UnknownOptionalData
| OutOfFuel.

(** Reading from [CDataStream]: the unread bytes are threaded through. *)
Definition reader (A : Type) : Type := bytes -> result ser_error (A * bytes).

#[export] Instance reader_ret : MRet reader := fun A a s => Ok (a, s).
#[export] Instance reader_bind : MBind reader :=
  fun A B f m s => match m s with Ok (a, s') => f a s' | Err e => Err e end.

Definition throw {A} (e : ser_error) : reader A := fun _ => Err e.
Definition check (b : bool) (e : ser_error) : reader unit := if b then mret tt else throw e.

(** [CDataStream::read] of [n] bytes. *)
Definition read (n : Z) : reader bytes := fun s =>
  if Z.of_nat (length s) <? n then Err EndOfData
  else Ok (take (Z.to_nat n) s, drop (Z.to_nat n) s).

(** A serializable C++ type: its [Serialize] and [Unserialize]. *)
Record Codec (A : Type) := MkCodec {
  ser : A -> bytes;
  de : reader A;
}.
Arguments MkCodec {A} _ _.
Arguments ser {A} _ _.
Arguments de {A} _.

(** ** Fixed-width integers *)

Definition ser_writedata8 (x : Z) : bytes := le_bytes 1 x.
Definition ser_writedata16 (x : Z) : bytes := le_bytes 2 x.
Definition ser_writedata32 (x : Z) : bytes := le_bytes 4 x.
Definition ser_writedata64 (x : Z) : bytes := le_bytes 8 x.

Definition ser_readdata (n : Z) : reader Z := bs ← read n; mret (le_val bs).
Definition ser_readdata8 : reader Z := ser_readdata 1.
Definition ser_readdata16 : reader Z := ser_readdata 2.
Definition ser_readdata32 : reader Z := ser_readdata 4.
Definition ser_readdata64 : reader Z := ser_readdata 8.

(** [Unserialize] into a signed variable reinterprets the unsigned value read. *)
Definition ser_readdata_signed (n : Z) : reader Z := x ← ser_readdata n; mret (wraps (8 * n) x).

(** [htobe16]-style fields ([CService::port]): the bytes in reverse. *)
Definition ser_writedata_be (n : nat) (x : Z) : bytes := rev (le_bytes n x).
Definition ser_readdata_be (n : Z) : reader Z := bs ← read n; mret (le_val (rev bs)).

(** ** Compact sizes *)

Definition MAX_SIZE : Z := 0x02000000.

Definition GetSizeOfCompactSize (nSize : Z) : Z :=
  if nSize <? 253 then 1
  else if nSize <=? 0xffff then 1 + 2
  else if nSize <=? 0xffffffff then 1 + 4
  else 1 + 8.

Definition WriteCompactSize (nSize : Z) : bytes :=
  if nSize <? 253 then ser_writedata8 nSize
  else if nSize <=? 0xffff then ser_writedata8 253 ++ ser_writedata16 nSize
  else if nSize <=? 0xffffffff then ser_writedata8 254 ++ ser_writedata32 nSize
  else ser_writedata8 255 ++ ser_writedata64 nSize.

Definition ReadCompactSize : reader Z :=
  chSize ← ser_readdata8;
  nSizeRet ←
    (if chSize <? 253 then mret chSize
     else if chSize =? 253 then
       n ← ser_readdata16; _ ← check (negb (n <? 253)) NonCanonicalCompactSize; mret n
     else if chSize =? 254 then
       n ← ser_readdata32; _ ← check (negb (n <? 0x10000)) NonCanonicalCompactSize; mret n
     else
       n ← ser_readdata64; _ ← check (negb (n <? 0x100000000)) NonCanonicalCompactSize; mret n);
  _ ← check (negb (MAX_SIZE <? nSizeRet)) CompactSizeTooLarge;
  mret nSizeRet.

(** ** Variable-length integers, over the unsigned type of [w] bits *)

(** The digits in the order of [tmp]; [fuel] is the size of that array. *)
Fixpoint varint_tmp (fuel : nat) (first : bool) (n : Z) : option bytes :=
  match fuel with
  | O => None
  | S fuel' =>
    let d := Z.lor (Z.land n 0x7F) (if first then 0x00 else 0x80) in
    if n <=? 0x7F then Some [d]
    else tmp ← varint_tmp fuel' false (Z.shiftr n 7 - 1); Some (d :: tmp)
  end.

(** [None] is a write past the end of [tmp]. *)
Definition WriteVarInt (w n : Z) : option bytes :=
  tmp ← varint_tmp (Z.to_nat ((w + 6) / 7)) true n; Some (rev tmp).

Fixpoint GetSizeOfVarInt (fuel : nat) (n : Z) : option Z :=
  match fuel with
  | O => None
  | S fuel' =>
    if n <=? 0x7F then Some 1
    else r ← GetSizeOfVarInt fuel' (Z.shiftr n 7 - 1); Some (1 + r)
  end.

(** [ReadVarInt] consumes one byte per iteration. *)
Fixpoint ReadVarInt_loop (w n : Z) (s : bytes) : result ser_error (Z * bytes) :=
  match s with
  | [] => Err EndOfData
  | chData :: s' =>
    if Z.shiftr (2 ^ w - 1) 7 <? n then Err VarIntTooLarge
    else
      let n' := Z.lor (Z.shiftl n 7) (Z.land chData 0x7F) in
      if negb (Z.land chData 0x80 =? 0) then
        if n' =? 2 ^ w - 1 then Err VarIntTooLarge
        else ReadVarInt_loop w (n' + 1) s'
      else Ok (n', s')
  end.
Definition ReadVarInt (w : Z) : reader Z := ReadVarInt_loop w 0.

(** ** Byte vectors, strings and vectors *)

(** [Serialize_impl] for [vector<unsigned char>], [prevector] and [string]. *)
Definition Serialize_bytes (v : bytes) : bytes := WriteCompactSize (Z.of_nat (length v)) ++ v.

(** The blockwise read of [Unserialize_impl]: at most 5000000 bytes at a time.
    Sizes are bounded by [MAX_SIZE], so [BLOCK_FUEL] iterations are enough. *)
Definition BLOCK : Z := 1 + 4999999.
Definition BLOCK_FUEL : nat := 8.
Fixpoint read_blocks (fuel : nat) (nSize i : Z) (v : bytes) : reader bytes :=
  if i <? nSize then
    match fuel with
    | O => throw OutOfFuel
    | S fuel' =>
      let blk := Z.min (nSize - i) BLOCK in
      bs ← read blk; read_blocks fuel' nSize (i + blk) (v ++ bs)
    end
  else mret v.

Definition Unserialize_bytes : reader bytes :=
  nSize ← ReadCompactSize; read_blocks BLOCK_FUEL nSize 0 [].

(** Vectors of other types: element after element. *)
Fixpoint read_elems {A} (d : reader A) (n : nat) : reader (list A) :=
  match n with
  | O => mret []
  | S n' => x ← d; l ← read_elems d n'; mret (x :: l)
  end.

Definition Serialize_vector {A} (C : Codec A) (v : list A) : bytes :=
  WriteCompactSize (Z.of_nat (length v)) ++ mjoin (ser C <$> v).
Definition Unserialize_vector {A} (C : Codec A) : reader (list A) :=
  nSize ← ReadCompactSize; read_elems (de C) (Z.to_nat nSize).

Definition Serialize_bool (b : bool) : bytes := ser_writedata8 (if b then 1 else 0).
Definition Unserialize_bool : reader bool := f ← ser_readdata8; mret (negb (f =? 0)).

(** The codecs of the wire types, named by type since several share [Z]. *)
Definition u8 : Codec Z := {| ser := ser_writedata8; de := ser_readdata8 |}.
Definition u16 : Codec Z := {| ser := ser_writedata16; de := ser_readdata16 |}.
Definition u32 : Codec Z := {| ser := ser_writedata32; de := ser_readdata32 |}.
Definition u64 : Codec Z := {| ser := ser_writedata64; de := ser_readdata64 |}.
(** [int32_t] is [signed 4] and [int64_t] is [signed 8]. *)
Definition signed (n : nat) : Codec Z :=
  {| ser := le_bytes n; de := ser_readdata_signed (Z.of_nat n) |}.
Definition i32 : Codec Z := {| ser := ser_writedata32; de := ser_readdata_signed 4 |}.
Definition i64 : Codec Z := {| ser := ser_writedata64; de := ser_readdata_signed 8 |}.
Definition u16be : Codec Z := {| ser := ser_writedata_be 2; de := ser_readdata_be 2 |}.
Definition blob (n : nat) : Codec Z := {| ser := le_bytes n; de := ser_readdata (Z.of_nat n) |}.
Definition bytevec : Codec bytes := {| ser := Serialize_bytes; de := Unserialize_bytes |}.
Definition boolean : Codec bool := {| ser := Serialize_bool; de := Unserialize_bool |}.
Definition vec {A} (C : Codec A) : Codec (list A) :=
  {| ser := Serialize_vector C; de := Unserialize_vector C |}.
(** Fixed-size arrays ([FLATDATA], [std::array<uint8_t, N>]). *)
Definition flat (n : nat) : Codec bytes := {| ser := fun b => b; de := read (Z.of_nat n) |}.

(** [READWRITE(a); READWRITE(b)]. *)
Definition pairc {A B} (CA : Codec A) (CB : Codec B) : Codec (A * B) :=
  {| ser := fun p => ser CA p.1 ++ ser CB p.2; de := a ← de CA; b ← de CB; mret (a, b) |}.

(** A struct serialized as the tuple of its fields. *)
Definition isoc {A B} (C : Codec A) (f : A -> B) (g : B -> A) : Codec B :=
  {| ser := fun b => ser C (g b); de := a ← de C; mret (f a) |}.

(** ** The interface *)

(** Decoding inverts encoding on the values [valid] describes. *)
Class CodecOk {A} (C : Codec A) (valid : A -> bool) : Prop :=
  de_ser : forall a rest, valid a = true -> de C (ser C a ++ rest) = Ok (a, rest).

(** The decoder accepts nothing but encodings of valid values. *)
Class CodecExact {A} (C : Codec A) (valid : A -> bool) : Prop :=
  ser_de : forall s a rest, all_bytes s = true -> de C s = Ok (a, rest) ->
    s = ser C a ++ rest /\ valid a = true.

Definition valid_bytes (v : bytes) : bool := (Z.of_nat (length v) <=? MAX_SIZE) && all_bytes v.
Definition valid_vec {A} (valid : A -> bool) (v : list A) : bool :=
  (Z.of_nat (length v) <=? MAX_SIZE) && forallb valid v.
Definition valid_flat (n : nat) (v : bytes) : bool := (length v =? n)%nat && all_bytes v.
Definition valid_pair {A B} (va : A -> bool) (vb : B -> bool) (p : A * B) : bool :=
  va p.1 && vb p.2.

(** ** Lemmas: the stream *)

Lemma all_bytes_app a b : all_bytes (a ++ b) = all_bytes a && all_bytes b.
Proof. apply forallb_app. Qed.

Lemma read_app n a rest : Z.of_nat (length a) = n -> read n (a ++ rest) = Ok (a, rest).
Proof.
  intros <-. unfold read. rewrite length_app, Nat2Z.inj_add.
  destruct (Z.ltb_spec (Z.of_nat (length a) + Z.of_nat (length rest)) (Z.of_nat (length a))); [lia|].
  by rewrite Nat2Z.id, take_app_length, drop_app_length.
Qed.

Lemma read_inv n s a rest : 0 <= n -> read n s = Ok (a, rest) ->
  s = a ++ rest /\ Z.of_nat (length a) = n.
Proof.
  unfold read. destruct (Z.ltb_spec (Z.of_nat (length s)) n) as [|Hn]; [done|]. intros ? [= <- <-].
  rewrite take_drop, length_take. split; [done|]. lia.
Qed.

(** Reading after a prefix that decodes. *)
Lemma bind_ok {A B} (m : reader A) (f : A -> reader B) s a s' :
  m s = Ok (a, s') -> (m ≫= f) s = f a s'.
Proof. intros H. unfold mbind, reader_bind. by rewrite H. Qed.

Lemma bind_inv {A B} (m : reader A) (f : A -> reader B) s b s'' :
  (m ≫= f) s = Ok (b, s'') -> exists a s', m s = Ok (a, s') /\ f a s' = Ok (b, s'').
Proof. unfold mbind, reader_bind. destruct (m s) as [[a s']|]; [|done]. eauto. Qed.

Lemma check_ok b e s : b = true -> check b e s = Ok (tt, s).
Proof. by intros ->. Qed.

Lemma check_inv b e s u s' : check b e s = Ok (u, s') -> b = true /\ s' = s.
Proof. unfold check. destruct b; [|done]. by intros [= _ ->]. Qed.

Lemma mret_inv {A} (a : A) s b s' : (mret a : reader A) s = Ok (b, s') -> a = b /\ s = s'.
Proof. by intros [= -> ->]. Qed.

(** Invert a decoder that succeeded. *)
Ltac inv_reader :=
  repeat match goal with
  | H : (_ ≫= _) _ = Ok _ |- _ =>
      let H1 := fresh H in let H2 := fresh H in
      apply bind_inv in H as (? & ? & H1 & H2)
  | H : check _ _ _ = Ok _ |- _ => apply check_inv in H as [? ->]
  | H : mret _ _ = Ok _ |- _ => apply mret_inv in H as [<- <-]
  end.

(** ** Integers *)

Lemma le_bytes_le_val bs n : length bs = n -> all_bytes bs = true -> le_bytes n (le_val bs) = bs.
Proof.
  intros <-. induction bs as [|b bs IH]; [done|]. cbn [all_bytes forallb]. intros H. bool_to_prop.
  apply is_byte_spec in H. cbn [length le_bytes le_val foldr].
  fold (le_val bs). rewrite (Z.mul_comm 256), Z.mod_add, Z.mod_small, Z.div_add, Z.div_small by lia.
  by rewrite Z.add_0_l, IH.
Qed.

Lemma readdata_app (n : nat) x rest : 0 <= x < 256 ^ Z.of_nat n ->
  ser_readdata (Z.of_nat n) (le_bytes n x ++ rest) = Ok (x, rest).
Proof.
  intros H. unfold ser_readdata. erewrite bind_ok by (apply read_app; by rewrite length_le_bytes).
  rewrite le_val_le_bytes, Z.mod_small by done. done.
Qed.

Lemma readdata_inv (n : nat) s x rest :
  all_bytes s = true -> ser_readdata (Z.of_nat n) s = Ok (x, rest) ->
  s = le_bytes n x ++ rest /\ 0 <= x < 256 ^ Z.of_nat n.
Proof.
  unfold ser_readdata. intros Hs H. inv_reader. apply read_inv in H0 as [-> Hl]; [|lia].
  rewrite all_bytes_app in Hs. bool_to_prop.
  rewrite le_bytes_le_val by (auto; lia). split; [done|]. rewrite <- Hl. by apply le_val_bound.
Qed.

Lemma blob_ok n : CodecOk (blob n) (in_u (8 * Z.of_nat n)).
Proof.
  intros a rest H. apply in_u_spec in H. apply readdata_app.
  by rewrite <- (Z.pow_mul_r 2 8) by lia.
Qed.

Lemma blob_exact n : CodecExact (blob n) (in_u (8 * Z.of_nat n)).
Proof.
  intros s a rest Hs H. apply readdata_inv in H as [-> H]; [|done]. split; [done|].
  apply in_u_spec. by rewrite (Z.pow_mul_r 2 8) by lia.
Qed.

#[export] Instance u8_ok : CodecOk u8 (in_u 8) := blob_ok 1.
#[export] Instance u16_ok : CodecOk u16 (in_u 16) := blob_ok 2.
#[export] Instance u32_ok : CodecOk u32 (in_u 32) := blob_ok 4.
#[export] Instance u64_ok : CodecOk u64 (in_u 64) := blob_ok 8.
#[export] Instance uint160_ok : CodecOk (blob 20) (in_u 160) := blob_ok 20.
#[export] Instance uint256_ok : CodecOk (blob 32) (in_u 256) := blob_ok 32.
#[export] Instance u8_exact : CodecExact u8 (in_u 8) := blob_exact 1.
#[export] Instance u16_exact : CodecExact u16 (in_u 16) := blob_exact 2.
#[export] Instance u32_exact : CodecExact u32 (in_u 32) := blob_exact 4.
#[export] Instance u64_exact : CodecExact u64 (in_u 64) := blob_exact 8.
#[export] Instance uint160_exact : CodecExact (blob 20) (in_u 160) := blob_exact 20.
#[export] Instance uint256_exact : CodecExact (blob 32) (in_u 256) := blob_exact 32.

Lemma le_bytes_mod n x : le_bytes n (x mod 256 ^ Z.of_nat n) = le_bytes n x.
Proof.
  rewrite <- (le_val_le_bytes n x). apply le_bytes_le_val; auto using length_le_bytes, le_bytes_all_bytes.
Qed.

Lemma wraps_mod w x : 0 < w -> wraps w x mod 2 ^ w = x mod 2 ^ w.
Proof.
  intros Hw. unfold wraps. rewrite <- Zminus_mod_idemp_l, Z.mod_mod, Zminus_mod_idemp_l by lia.
  f_equal. lia.
Qed.

Lemma wraps_range w x : 0 < w -> in_s w (wraps w x) = true.
Proof.
  intros Hw. unfold in_s, wraps.
  assert (2 ^ w = 2 * 2 ^ (w - 1)) as E. { rewrite <- Z.pow_succ_r by lia. f_equal. lia. }
  pose proof (Z.mod_pos_bound (x + 2 ^ (w - 1)) (2 ^ w) ltac:(lia)). lia.
Qed.

Lemma wraps_idem w x y : 0 < w -> in_s w x = true -> y = x mod 2 ^ w -> wraps w y = x.
Proof.
  intros Hw Hx ->. unfold wraps. rewrite Zplus_mod_idemp_l. fold (wraps w x). apply wraps_id; [done|].
  unfold in_s in Hx. lia.
Qed.

Lemma signed_ok n : (0 < n)%nat -> CodecOk (signed n) (in_s (8 * Z.of_nat n)).
Proof.
  intros Hn a rest H. cbn [de ser signed]. unfold ser_readdata_signed.
  rewrite <- le_bytes_mod. erewrite bind_ok; cycle 1.
  { apply readdata_app. apply Z.mod_pos_bound. apply Z.pow_pos_nonneg; lia. }
  unfold mret, reader_ret. f_equal. f_equal. apply wraps_idem; [lia|done|]. by rewrite <- (Z.pow_mul_r 2 8) by lia.
Qed.

Lemma signed_exact n : (0 < n)%nat -> CodecExact (signed n) (in_s (8 * Z.of_nat n)).
Proof.
  intros Hn s a rest Hs H. cbn [de ser signed] in *. unfold ser_readdata_signed in H. inv_reader.
  apply readdata_inv in H0 as [-> H]; [|done]. split; [|apply wraps_range; lia].
  f_equal. rewrite <- (le_bytes_mod n (wraps _ _)). change 256 with (2 ^ 8).
  rewrite <- Z.pow_mul_r, wraps_mod by lia. rewrite Z.pow_mul_r by lia. by rewrite le_bytes_mod.
Qed.

#[export] Instance i32_ok : CodecOk i32 (in_s 32) := signed_ok 4 ltac:(lia).
#[export] Instance i64_ok : CodecOk i64 (in_s 64) := signed_ok 8 ltac:(lia).
#[export] Instance i32_exact : CodecExact i32 (in_s 32) := signed_exact 4 ltac:(lia).
#[export] Instance i64_exact : CodecExact i64 (in_s 64) := signed_exact 8 ltac:(lia).

#[export] Instance u16be_ok : CodecOk u16be (in_u 16).
Proof.
  intros a rest H. apply in_u_spec in H. cbn [de ser u16be]. unfold ser_readdata_be, ser_writedata_be.
  erewrite bind_ok by (apply read_app; by rewrite length_rev, length_le_bytes).
  rewrite rev_involutive, le_val_le_bytes, Z.mod_small by done. done.
Qed.

Lemma all_bytes_rev a : all_bytes (rev a) = all_bytes a.
Proof.
  unfold all_bytes. induction a as [|x a IH]; [done|]. cbn [rev].
  rewrite forallb_app, IH. cbn. by rewrite andb_true_r, andb_comm.
Qed.

#[export] Instance u16be_exact : CodecExact u16be (in_u 16).
Proof.
  intros s a rest Hs H. cbn [de ser u16be] in *. unfold ser_readdata_be, ser_writedata_be in *.
  inv_reader. apply read_inv in H0 as [-> Hl]; [|lia]. rewrite all_bytes_app in Hs. bool_to_prop.
  pose proof (le_val_bound (rev x)) as Hb. rewrite all_bytes_rev, length_rev, Hl in Hb.
  rewrite le_bytes_le_val, rev_involutive; [|by rewrite length_rev; lia|by rewrite all_bytes_rev].
  split; [done|]. apply in_u_spec. auto.
Qed.

#[export] Instance boolean_ok : CodecOk boolean (fun _ => true).
Proof.
  intros b rest _. cbn [de ser boolean]. unfold Serialize_bool, Unserialize_bool.
  erewrite bind_ok by (apply (readdata_app 1); destruct b; simpl; lia). by destruct b.
Qed.

(** ** Compact sizes *)

Lemma WriteCompactSize_length n : Z.of_nat (length (WriteCompactSize n)) = GetSizeOfCompactSize n.
Proof.
  unfold WriteCompactSize, GetSizeOfCompactSize.
  repeat case_match; rewrite ?length_app; unfold ser_writedata8, ser_writedata16, ser_writedata32,
    ser_writedata64; rewrite ?length_le_bytes; reflexivity.
Qed.

Definition valid_size (n : Z) : bool := (0 <=? n) && (n <=? MAX_SIZE).

Lemma ReadCompactSize_app n rest : valid_size n = true ->
  ReadCompactSize (WriteCompactSize n ++ rest) = Ok (n, rest).
Proof.
  unfold valid_size, MAX_SIZE. intros H. assert (0 <= n <= 0x02000000) as Hn by lia.
  unfold WriteCompactSize, ReadCompactSize, ser_writedata8, ser_writedata16, ser_writedata32.
  destruct (Z.ltb_spec n 253); [|destruct (Z.leb_spec n 0xffff);
    [|destruct (Z.leb_spec n 0xffffffff); [|lia]]]; rewrite <- ?app_assoc.
  - erewrite bind_ok by (apply (readdata_app 1); simpl; lia).
    destruct (Z.ltb_spec n 253); [|lia]. erewrite bind_ok by reflexivity.
    erewrite bind_ok by (apply check_ok; unfold MAX_SIZE; lia). done.
  - erewrite bind_ok by (apply (readdata_app 1); simpl; lia). cbn [Z.ltb Z.eqb Z.compare Pos.eqb Pos.compare Pos.compare_cont].
    erewrite bind_ok; cycle 1.
    { erewrite bind_ok by (apply (readdata_app 2); simpl; lia).
      erewrite bind_ok by (apply check_ok; lia). reflexivity. }
    erewrite bind_ok by (apply check_ok; unfold MAX_SIZE; lia). done.
  - erewrite bind_ok by (apply (readdata_app 1); simpl; lia). cbn [Z.ltb Z.eqb Z.compare Pos.eqb Pos.compare Pos.compare_cont].
    erewrite bind_ok; cycle 1.
    { erewrite bind_ok by (apply (readdata_app 4); simpl; lia).
      erewrite bind_ok by (apply check_ok; lia). reflexivity. }
    erewrite bind_ok by (apply check_ok; unfold MAX_SIZE; lia). done.
Qed.

(** The wide forms: a marker byte, then a field checked to be large enough. *)
Lemma wide_size_inv (k : nat) lo s n rest : all_bytes s = true ->
  (x ← ser_readdata (Z.of_nat k); _ ← check (negb (x <? lo)) NonCanonicalCompactSize; mret x) s
    = Ok (n, rest) ->
  s = le_bytes k n ++ rest /\ lo <= n /\ 0 <= n < 256 ^ Z.of_nat k.
Proof.
  intros Hs H. apply bind_inv in H as (x & s1 & H1 & H). apply bind_inv in H as ([] & s2 & H2 & H).
  apply check_inv in H2 as [H2 ->]. apply mret_inv in H as [-> ->].
  apply readdata_inv in H1 as [-> Hx]; [|done]. split; [done|]. lia.
Qed.

Lemma ReadCompactSize_inv s n rest : all_bytes s = true -> ReadCompactSize s = Ok (n, rest) ->
  s = WriteCompactSize n ++ rest /\ valid_size n = true.
Proof.
  intros Hs H. unfold ReadCompactSize in H. apply bind_inv in H as (c & s1 & H1 & H).
  apply (readdata_inv 1) in H1 as [-> Hc]; [|done]. rewrite all_bytes_app in Hs. apply andb_true_iff in Hs as [_ Hs].
  change (256 ^ Z.of_nat 1) with 256 in Hc.
  apply bind_inv in H as (n' & s2 & H2 & H). apply bind_inv in H as ([] & s3 & H3 & H).
  apply check_inv in H3 as [H3 ->]. apply mret_inv in H as [-> ->].
  unfold valid_size, WriteCompactSize, ser_writedata8, ser_writedata16, ser_writedata32,
    ser_writedata64.
  destruct (Z.ltb_spec c 253).
  { apply mret_inv in H2 as [-> ->]. destruct (Z.ltb_spec n 253); [|lia]. split; [done|lia]. }
  destruct (Z.eqb_spec c 253) as [->|]; [|destruct (Z.eqb_spec c 254) as [->|]].
  - apply (wide_size_inv 2) in H2 as (-> & Hlo & Hr); [|done]. change (256 ^ Z.of_nat 2) with 65536 in Hr.
    destruct (Z.ltb_spec n 253); [lia|]. destruct (Z.leb_spec n 0xffff); [|lia]. split; [done|lia].
  - apply (wide_size_inv 4) in H2 as (-> & Hlo & Hr); [|done]. change (256 ^ Z.of_nat 4) with (2 ^ 32) in Hr.
    destruct (Z.ltb_spec n 253); [lia|]. destruct (Z.leb_spec n 0xffff); [lia|].
    destruct (Z.leb_spec n 0xffffffff); [|lia]. split; [done|lia].
  - assert (c = 255) as -> by lia.
    apply (wide_size_inv 8) in H2 as (-> & Hlo & Hr); [|done].
    unfold MAX_SIZE in H3. lia.
Qed.

(** ** Byte vectors and vectors *)

Lemma read_blocks_app fuel n i v bs rest :
  Z.of_nat (length bs) = n - i -> 0 <= i -> n - i <= BLOCK * Z.of_nat fuel ->
  read_blocks fuel n i v (bs ++ rest) = Ok (v ++ bs, rest).
Proof.
  revert i v bs. induction fuel as [|fuel IH]; intros i v bs Hl Hi Hf; simpl.
  - destruct (Z.ltb_spec i n); [lia|]. destruct bs; [|simpl in Hl; lia]. by rewrite app_nil_r.
  - destruct (Z.ltb_spec i n).
    + set (blk := Z.min (n - i) BLOCK). unfold BLOCK in *.
      rewrite <- (take_drop (Z.to_nat blk) bs) at 1. rewrite <- app_assoc.
      erewrite bind_ok by (apply read_app; rewrite length_take; lia).
      rewrite IH by (rewrite ?length_drop; lia).
      by rewrite <- app_assoc, take_drop.
    + destruct bs; [|simpl in Hl; lia]. by rewrite app_nil_r.
Qed.

Lemma read_blocks_inv fuel n i v s w rest : 0 <= i <= n ->
  read_blocks fuel n i v s = Ok (w, rest) ->
  exists bs, w = v ++ bs /\ s = bs ++ rest /\ Z.of_nat (length bs) = n - i.
Proof.
  revert i v s. induction fuel as [|fuel IH]; intros i v s Hi; simpl; destruct (Z.ltb_spec i n).
  - done.
  - intros H'. apply mret_inv in H' as [-> ->]. exists []. rewrite app_nil_r. simpl. split_and!; auto; lia.
  - intros H'. apply bind_inv in H' as (bs & s1 & H1 & H').
    apply read_inv in H1 as [-> Hl]; [|unfold BLOCK; lia].
    apply IH in H' as (bs' & -> & -> & Hl'); [|unfold BLOCK in *; lia].
    exists (bs ++ bs'). rewrite !app_assoc, length_app. split_and!; auto; lia.
  - intros H'. apply mret_inv in H' as [-> ->]. exists []. rewrite app_nil_r. simpl. split_and!; auto; lia.
Qed.

#[export] Instance bytevec_ok : CodecOk bytevec valid_bytes.
Proof.
  intros v rest H. unfold valid_bytes in H. bool_to_prop.
  cbn [de ser bytevec]. unfold Serialize_bytes, Unserialize_bytes. rewrite <- app_assoc.
  erewrite bind_ok by (apply ReadCompactSize_app; unfold valid_size; lia).
  rewrite read_blocks_app; unfold BLOCK, BLOCK_FUEL, MAX_SIZE in *; auto; lia.
Qed.

#[export] Instance bytevec_exact : CodecExact bytevec valid_bytes.
Proof.
  intros s v rest Hs H. cbn [de ser bytevec] in *. unfold Unserialize_bytes, Serialize_bytes in *.
  apply bind_inv in H as (n & s1 & H1 & H). apply ReadCompactSize_inv in H1 as [-> Hn]; [|done].
  unfold valid_size, valid_bytes in *. apply read_blocks_inv in H as (bs & -> & -> & Hl); [|lia].
  rewrite !all_bytes_app in Hs. bool_to_prop. cbn [app]. replace (Z.of_nat (length bs)) with n by lia.
  rewrite <- app_assoc. split; [done|]. bool_to_prop; auto; lia.
Qed.

Lemma flat_ok n : CodecOk (flat n) (valid_flat n).
Proof.
  intros v rest H. unfold valid_flat in H. bool_to_prop. apply read_app. cbn. lia.
Qed.

Lemma flat_exact n : CodecExact (flat n) (valid_flat n).
Proof.
  intros s v rest Hs H. apply read_inv in H as [-> Hl]; [|lia]. split; [done|].
  rewrite all_bytes_app in Hs. unfold valid_flat. bool_to_prop; auto; lia.
Qed.
#[export] Existing Instance flat_ok.
#[export] Existing Instance flat_exact.

#[export] Instance vec_ok {A} (C : Codec A) va `{!CodecOk C va} : CodecOk (vec C) (valid_vec va).
Proof.
  intros v rest H. unfold valid_vec in H. apply andb_true_iff in H as [Hl Hv].
  cbn [de ser vec]. unfold Serialize_vector, Unserialize_vector. rewrite <- app_assoc.
  erewrite bind_ok by (apply ReadCompactSize_app; unfold valid_size; lia).
  rewrite Nat2Z.id. clear Hl. induction v as [|a v IH]; [done|].
  cbn [forallb] in Hv. apply andb_true_iff in Hv as [Ha Hv]. cbn [length read_elems fmap list_fmap mjoin].
  cbn [list_join]. rewrite <- app_assoc. erewrite bind_ok by (by apply de_ser).
  by erewrite bind_ok by (by apply IH).
Qed.

Lemma read_elems_inv {A} (C : Codec A) va `{!CodecExact C va} n s l rest :
  all_bytes s = true -> read_elems (de C) n s = Ok (l, rest) ->
  s = mjoin (ser C <$> l) ++ rest /\ forallb va l = true /\ length l = n.
Proof.
  revert s l. induction n as [|n IH]; intros s l Hs H; cbn [read_elems] in H.
  { apply mret_inv in H as [<- <-]. done. }
  apply bind_inv in H as (a & s1 & H1 & H). apply bind_inv in H as (l' & s2 & H2 & H).
  apply mret_inv in H as [<- <-]. apply ser_de in H1 as [-> Ha]; [|done].
  rewrite all_bytes_app in Hs. apply andb_true_iff in Hs as [_ Hs].
  apply IH in H2 as (-> & Hl & Hn); [|done].
  cbn. rewrite <- app_assoc. split_and!; auto. by rewrite Ha.
Qed.

#[export] Instance vec_exact {A} (C : Codec A) va `{!CodecExact C va} :
  CodecExact (vec C) (valid_vec va).
Proof.
  intros s v rest Hs H. cbn [de ser vec] in *. unfold Serialize_vector, Unserialize_vector in *.
  apply bind_inv in H as (n & s1 & H1 & H). apply ReadCompactSize_inv in H1 as [-> Hn]; [|done].
  rewrite all_bytes_app in Hs. apply andb_true_iff in Hs as [_ Hs].
  apply (read_elems_inv C va) in H as (-> & Hv & Hl); [|done].
  unfold valid_size, valid_vec in *. replace (Z.of_nat (length v)) with n by lia.
  rewrite <- app_assoc, Hv. split; [done|lia].
Qed.

#[export] Instance pairc_ok {A B} (CA : Codec A) (CB : Codec B) va vb
  `{!CodecOk CA va, !CodecOk CB vb} : CodecOk (pairc CA CB) (valid_pair va vb).
Proof.
  intros [a b] rest H. unfold valid_pair in H. cbn in H. apply andb_true_iff in H as [Ha Hb].
  cbn [de ser pairc fst snd]. rewrite <- app_assoc.
  erewrite bind_ok by (by apply de_ser). by erewrite bind_ok by (by apply de_ser).
Qed.

#[export] Instance pairc_exact {A B} (CA : Codec A) (CB : Codec B) va vb
  `{!CodecExact CA va, !CodecExact CB vb} : CodecExact (pairc CA CB) (valid_pair va vb).
Proof.
  intros s [a b] rest Hs H. cbn [de ser pairc fst snd] in *.
  apply bind_inv in H as (a' & s1 & H1 & H). apply bind_inv in H as (b' & s2 & H2 & H).
  apply mret_inv in H as [[= <- <-] <-]. apply ser_de in H1 as [-> Ha]; [|done].
  rewrite all_bytes_app in Hs. apply andb_true_iff in Hs as [_ Hs].
  apply ser_de in H2 as [-> Hb]; [|done]. rewrite <- app_assoc.
  unfold valid_pair. cbn. by rewrite Ha, Hb.
Qed.

Lemma isoc_ok {A B} (C : Codec A) (f : A -> B) (g : B -> A) va vb `{!CodecOk C va} :
  (forall b, vb b = true -> va (g b) = true /\ f (g b) = b) -> CodecOk (isoc C f g) vb.
Proof.
  intros Hfg b rest H. destruct (Hfg b H) as [Ha E].
  cbn [de ser isoc]. erewrite bind_ok by (by apply de_ser). by rewrite E.
Qed.

Lemma isoc_exact {A B} (C : Codec A) (f : A -> B) (g : B -> A) va vb `{!CodecExact C va} :
  (forall a, va a = true -> vb (f a) = true /\ g (f a) = a) -> CodecExact (isoc C f g) vb.
Proof.
  intros Hgf s b rest Hs H. cbn [de ser isoc] in *. apply bind_inv in H as (a & s1 & H1 & H).
  apply mret_inv in H as [<- <-]. apply ser_de in H1 as [-> Ha]; [|done].
  by destruct (Hgf a Ha) as [? ->].
Qed.

(** A prefix-free encoding: equal streams have equal first values. *)
Lemma ser_app_inj {A} (C : Codec A) va `{!CodecOk C va} a b r r' :
  va a = true -> va b = true -> ser C a ++ r = ser C b ++ r' -> a = b /\ r = r'.
Proof.
  intros Ha Hb H. pose proof (de_ser a r Ha) as H1. rewrite H, (de_ser b r' Hb) in H1. by inv H1.
Qed.

Lemma ser_inj {A} (C : Codec A) va `{!CodecOk C va} a b :
  va a = true -> va b = true -> ser C a = ser C b -> a = b.
Proof.
  intros Ha Hb H. apply (ser_app_inj C va a b [] []); auto. by rewrite !app_nil_r.
Qed.

(** Unused trailing bytes do not change what is decoded. *)
Lemma de_unique {A} (C : Codec A) va `{!CodecOk C va, !CodecExact C va} s a b r r' :
  all_bytes s = true -> de C s = Ok (a, r) -> s = ser C b ++ r' -> va b = true -> a = b.
Proof. intros Hs H -> Hb. rewrite de_ser in H by done. by inv H. Qed.

(** ** Variable-length integers *)

Lemma digit_first n : 0 <= n -> Z.lor (Z.land n 0x7F) 0x00 = n mod 128.
Proof. intros. rewrite Z.lor_0_r. change 0x7F with (Z.ones 7). by rewrite Z.land_ones. Qed.

Lemma digit_cont n : 0 <= n -> Z.lor (Z.land n 0x7F) 0x80 = 128 + n mod 128.
Proof.
  intros. change 0x7F with (Z.ones 7). rewrite Z.land_ones by done. change (2 ^ 7) with 128.
  pose proof (Z.mod_pos_bound n 128). rewrite Z.lor_comm. apply (lor_disjoint _ _ 7); [lia|lia|done].
Qed.

(** A digit shifted in: [(n << 7) | d]. *)
Lemma shift_in n d : 0 <= n -> 0 <= d < 128 -> Z.lor (Z.shiftl n 7) d = n * 128 + d.
Proof.
  intros Hn Hd. rewrite Z.shiftl_mul_pow2 by lia. apply (lor_disjoint _ _ 7); [lia|lia|].
  apply Z.mod_mul. lia.
Qed.

Lemma cont_bits d : 0 <= d < 128 ->
  Z.land (128 + d) 0x7F = d /\ (Z.land (128 + d) 0x80 =? 0) = false /\
  Z.land d 0x7F = d /\ (Z.land d 0x80 =? 0) = true.
Proof.
  intros Hd. change 0x7F with (Z.ones 7). rewrite !Z.land_ones by done. change (2 ^ 7) with 128.
  change (Z.land (128 + d) 0x80) with (Z.land (128 + d) (2 ^ 7)).
  assert (Z.testbit (128 + d) 7 = true) as T.
  { rewrite Z.testbit_true by lia. change (128 + d) with (1 * 2 ^ 7 + d).
    rewrite Z.div_add_l, Z.div_small by lia. done. }
  split_and!.
  - rewrite <- (Z.mul_1_l 128) at 1. rewrite Z.add_comm, Z.mod_add, Z.mod_small; lia.
  - apply Z.eqb_neq. intros E. assert (Z.testbit (Z.land (128 + d) (2 ^ 7)) 7 = true) as F.
    { rewrite Z.land_spec, T. done. } rewrite E in F. done.
  - apply Z.mod_small. lia.
  - apply Z.eqb_eq. rewrite Z.land_comm. apply Z.bits_inj'. intros n Hn.
    rewrite Z.land_spec, Z.bits_0. destruct (Z.eq_dec n 7) as [->|].
    + apply andb_false_intro2. rewrite Z.testbit_false, Z.div_small by lia. done.
    + apply andb_false_intro1. change 0x80 with (2 ^ 7). apply Z.pow2_bits_false. lia.
Qed.

Lemma varint_step n : 0x7F < n ->
  0 <= Z.shiftr n 7 - 1 /\ n = (Z.shiftr n 7 - 1 + 1) * 128 + n mod 128 /\ 0 <= n mod 128 < 128.
Proof.
  intros H. rewrite Z.shiftr_div_pow2 by lia. change (2 ^ 7) with 128.
  pose proof (Z.div_mod n 128). pose proof (Z.mod_pos_bound n 128).
  assert (1 <= n / 128) by (apply Z.div_le_lower_bound; lia). lia.
Qed.

(** Reading one more byte [chData] of a continued integer. *)
Lemma ReadVarInt_digit w acc d rest : 0 <= acc -> 0 <= d < 128 -> 7 <= w ->
  acc * 128 + d <= 2 ^ w - 1 ->
  ReadVarInt_loop w acc (d :: rest) = Ok (acc * 128 + d, rest) /\
  (acc * 128 + d < 2 ^ w - 1 ->
   ReadVarInt_loop w acc ((128 + d) :: rest) = ReadVarInt_loop w (acc * 128 + d + 1) rest).
Proof.
  intros Ha Hd Hw Hle. destruct (cont_bits d Hd) as (E1 & E2 & E3 & E4).
  assert ((Z.shiftr (2 ^ w - 1) 7 <? acc) = false) as E5.
  { rewrite Z.shiftr_div_pow2 by lia. apply Z.ltb_ge. apply Z.div_le_lower_bound; lia. }
  cbn [ReadVarInt_loop]. rewrite E1, E2, E3, E4, E5. cbn [negb].
  rewrite shift_in by done. split; [done|]. intros.
  destruct (Z.eqb_spec (acc * 128 + d) (2 ^ w - 1)); [lia|done].
Qed.

Lemma read_continuation w fuel n tmp rest : 0 <= n < 2 ^ w - 1 -> 7 <= w ->
  varint_tmp fuel false n = Some tmp ->
  ReadVarInt_loop w 0 (rev tmp ++ rest) = ReadVarInt_loop w (n + 1) rest.
Proof.
  revert n tmp rest. induction fuel as [|fuel IH]; intros n tmp rest Hn Hw; [done|].
  cbn [varint_tmp]. rewrite digit_cont by lia. destruct (Z.leb_spec n 0x7F).
  - intros [= <-]. rewrite Z.mod_small by lia. cbn [rev app].
    destruct (ReadVarInt_digit w 0 n rest) as [_ E]; try lia. rewrite E by lia. f_equal; lia.
  - destruct (varint_step n) as (H1 & H2 & H3); [done|].
    destruct (varint_tmp fuel false _) as [tmp'|] eqn:E'; [|done]. cbn. intros [= <-].
    cbn [rev]. rewrite <- app_assoc. rewrite (IH (Z.shiftr n 7 - 1) tmp') by (done || lia).
    cbn [app]. destruct (ReadVarInt_digit w (Z.shiftr n 7 - 1 + 1) (n mod 128) rest) as [_ E]; try lia.
    rewrite E by lia. f_equal; lia.
Qed.

Lemma varint_tmp_total fuel first n : 0 <= n < 2 ^ (7 * Z.of_nat fuel) -> (0 < fuel)%nat ->
  exists tmp, varint_tmp fuel first n = Some tmp /\ GetSizeOfVarInt fuel n = Some (Z.of_nat (length tmp)).
Proof.
  revert first n. induction fuel as [|fuel IH]; intros first n Hn Hf; [lia|].
  cbn [varint_tmp GetSizeOfVarInt]. destruct (Z.leb_spec n 0x7F); [eauto|].
  destruct (varint_step n) as (H1 & H2 & H3); [done|].
  replace (7 * Z.of_nat (S fuel)) with (7 * Z.of_nat fuel + 7) in Hn by lia.
  rewrite Z.pow_add_r in Hn by lia. change (2 ^ 7) with 128 in Hn.
  destruct (IH false (Z.shiftr n 7 - 1)) as (tmp & E & L); [lia| |].
  { destruct fuel; [|lia]. change (2 ^ (7 * Z.of_nat 0)) with 1 in Hn. lia. }
  rewrite E, L. cbn. eexists. split; [done|]. f_equal. cbn. lia.
Qed.

(** ** Properties *)

(** [ReadCompactSize] accepts exactly the canonical encodings that
    [WriteCompactSize] produces for sizes up to [MAX_SIZE], and leaves the rest
    of the stream unread: sizes on the wire are not malleable. *)
Theorem compact_size_canonical (s : bytes) (n : Z) (rest : bytes) :
  all_bytes s = true ->
  ReadCompactSize s = Ok (n, rest) <-> s = WriteCompactSize n ++ rest /\ 0 <= n <= MAX_SIZE.
Proof.
  intros Hs. split.
  - intros H. apply ReadCompactSize_inv in H as [-> H]; [|done]. unfold valid_size in H. split; [done|lia].
  - intros [-> H]. apply ReadCompactSize_app. unfold valid_size. lia.
Qed.

Lemma compact_size_canonical_witness :
  ReadCompactSize [254; 0; 0; 1; 0; 7] = Ok (65536, [7]).
Proof. apply compact_size_canonical; [reflexivity|]. split; [reflexivity|]. unfold MAX_SIZE. lia. Defined.

(** For every value of an unsigned type of [w] bits, [WriteVarInt] stays
    inside its [tmp] array, writes [GetSizeOfVarInt] bytes, and [ReadVarInt]
    reads the value back without raising its overflow checks. *)
Theorem varint_roundtrip (w n : Z) (rest : bytes) :
  7 <= w -> 0 <= n < 2 ^ w ->
  exists out, WriteVarInt w n = Some out /\
    GetSizeOfVarInt (Z.to_nat ((w + 6) / 7)) n = Some (Z.of_nat (length out)) /\
    ReadVarInt w (out ++ rest) = Ok (n, rest).
Proof.
  intros Hw Hn. unfold WriteVarInt, ReadVarInt. set (fuel := Z.to_nat ((w + 6) / 7)).
  pose proof (Z.div_mod (w + 6) 7). pose proof (Z.mod_pos_bound (w + 6) 7).
  destruct (varint_tmp_total fuel true n) as (tmp & E & L); [|lia|].
  { split; [lia|]. apply Z.lt_le_trans with (2 ^ w); [lia|]. apply Z.pow_le_mono_r; lia. }
  rewrite E, L. exists (rev tmp). rewrite length_rev. split_and!; [done|done|].
  destruct fuel as [|fuel]; [done|]. cbn [varint_tmp] in E. rewrite digit_first in E by lia.
  destruct (Z.leb_spec n 0x7F).
  - inv E. rewrite Z.mod_small by lia. cbn [rev app].
    destruct (ReadVarInt_digit w 0 n rest) as [E _]; try lia. rewrite E. repeat f_equal; lia.
  - destruct (varint_step n) as (L1 & L2 & L3); [done|].
    destruct (varint_tmp fuel false _) as [tmp'|] eqn:E'; [|done]. cbn in E. inv E.
    cbn [rev]. rewrite <- app_assoc. rewrite (read_continuation w fuel (Z.shiftr n 7 - 1) tmp') by (done || lia).
    destruct (ReadVarInt_digit w (Z.shiftr n 7 - 1 + 1) (n mod 128) rest) as [E _]; try lia.
    cbn [app]. rewrite E. repeat f_equal; lia.
Qed.

Lemma varint_roundtrip_witness :
  exists out, WriteVarInt 64 65535 = Some out /\
    GetSizeOfVarInt (Z.to_nat ((64 + 6) / 7)) 65535 = Some (Z.of_nat (length out)) /\
    ReadVarInt 64 (out ++ [1]) = Ok (65535, [1]).
Proof. apply varint_roundtrip; lia. Defined.
