(* ===== verification/Sha256.v ===== *)
(** SHA-256 and the double hash of the chain (crypto/sha256.cpp,
    crypto/common.h, hash.h): the compression function, the buffering of
    [CSHA256::Write], [Finalize], and [CHash256] / [CHashWriter].  The theorems
    show that hashing through any sequence of writes is the one-shot hash of
    the concatenated message, so that the rest of the development hashes
    serialized byte strings. *)

From S2P Require Import Prelude Serialize.

Module Sha256.

(** ** Words *)

Definition add32 (x y : Z) : Z := wrapu 32 (x + y).
(** [x >> n | x << (32 - n)] on [uint32_t]. *)
Definition rotr (x n : Z) : Z := Z.lor (Z.shiftr x n) (wrapu 32 (Z.shiftl x (32 - n))).

Definition Ch (x y z : Z) : Z := Z.lxor z (Z.land x (Z.lxor y z)).
Definition Maj (x y z : Z) : Z := Z.lor (Z.land x y) (Z.land z (Z.lor x y)).
Definition Sigma0 (x : Z) : Z := Z.lxor (Z.lxor (rotr x 2) (rotr x 13)) (rotr x 22).
Definition Sigma1 (x : Z) : Z := Z.lxor (Z.lxor (rotr x 6) (rotr x 11)) (rotr x 25).
Definition sigma0 (x : Z) : Z := Z.lxor (Z.lxor (rotr x 7) (rotr x 18)) (Z.shiftr x 3).
Definition sigma1 (x : Z) : Z := Z.lxor (Z.lxor (rotr x 17) (rotr x 19)) (Z.shiftr x 10).

Record words := W8 { wa : Z; wb : Z; wc : Z; wd : Z; we : Z; wf_ : Z; wg : Z; wh : Z }.

(** [Round] updates [d] and [h]; the next call of [Transform] names the
    registers one place to the right, which is the rotation written here. *)
Definition Round (r : words) (k w : Z) : words :=
  let '(W8 a b c d e f g h) := r in
  let t1 := add32 (add32 (add32 (add32 h (Sigma1 e)) (Ch e f g)) k) w in
  let t2 := add32 (Sigma0 a) (Maj a b c) in
  W8 (add32 t1 t2) a b c (add32 d t1) e f g.

Definition Initialize : words :=
  W8 0x6a09e667 0xbb67ae85 0x3c6ef372 0xa54ff53a 0x510e527f 0x9b05688c 0x1f83d9ab 0x5be0cd19.

Definition ReadBE32 (bs : bytes) : Z := le_val (rev (take 4 bs)).
Definition WriteBE32 (x : Z) : bytes := rev (le_bytes 4 x).
Definition WriteBE64 (x : Z) : bytes := rev (le_bytes 8 x).

(** The last argument of a call of [Round]: [wi = ReadBE32(chunk + ofs)],
    [wi += sigma1(wj) + wm + sigma0(wn)], and the same sum not assigned. *)
Inductive word_arg :=
| Load (i ofs : nat)
| Mix (i j m n : nat)
| Last (i j m n : nat).

Definition mixed (w : list Z) (i j m n : nat) : Z :=
  add32 (w !!! i) (add32 (add32 (sigma1 (w !!! j)) (w !!! m)) (sigma0 (w !!! n))).

(** The value of the argument and the registers [w0 .. w15] after it. *)
Definition eval_arg (chunk : bytes) (w : list Z) (e : word_arg) : Z * list Z :=
  match e with
  | Load i ofs => let x := ReadBE32 (drop ofs chunk) in (x, <[i := x]> w)
  | Mix i j m n => let x := mixed w i j m n in (x, <[i := x]> w)
  | Last i j m n => (mixed w i j m n, w)
  end.

(** The 64 calls of [Round] in [Transform]. *)
Definition calls : list (Z * word_arg) :=
  [(0x428a2f98, Load 0 0); (0x71374491, Load 1 4); (0xb5c0fbcf, Load 2 8); (0xe9b5dba5, Load 3 12);
   (0x3956c25b, Load 4 16); (0x59f111f1, Load 5 20); (0x923f82a4, Load 6 24); (0xab1c5ed5, Load 7 28);
   (0xd807aa98, Load 8 32); (0x12835b01, Load 9 36); (0x243185be, Load 10 40); (0x550c7dc3, Load 11 44);
   (0x72be5d74, Load 12 48); (0x80deb1fe, Load 13 52); (0x9bdc06a7, Load 14 56); (0xc19bf174, Load 15 60);
   (0xe49b69c1, Mix 0 14 9 1); (0xefbe4786, Mix 1 15 10 2); (0x0fc19dc6, Mix 2 0 11 3); (0x240ca1cc, Mix 3 1 12 4);
   (0x2de92c6f, Mix 4 2 13 5); (0x4a7484aa, Mix 5 3 14 6); (0x5cb0a9dc, Mix 6 4 15 7); (0x76f988da, Mix 7 5 0 8);
   (0x983e5152, Mix 8 6 1 9); (0xa831c66d, Mix 9 7 2 10); (0xb00327c8, Mix 10 8 3 11); (0xbf597fc7, Mix 11 9 4 12);
   (0xc6e00bf3, Mix 12 10 5 13); (0xd5a79147, Mix 13 11 6 14); (0x06ca6351, Mix 14 12 7 15); (0x14292967, Mix 15 13 8 0);
   (0x27b70a85, Mix 0 14 9 1); (0x2e1b2138, Mix 1 15 10 2); (0x4d2c6dfc, Mix 2 0 11 3); (0x53380d13, Mix 3 1 12 4);
   (0x650a7354, Mix 4 2 13 5); (0x766a0abb, Mix 5 3 14 6); (0x81c2c92e, Mix 6 4 15 7); (0x92722c85, Mix 7 5 0 8);
   (0xa2bfe8a1, Mix 8 6 1 9); (0xa81a664b, Mix 9 7 2 10); (0xc24b8b70, Mix 10 8 3 11); (0xc76c51a3, Mix 11 9 4 12);
   (0xd192e819, Mix 12 10 5 13); (0xd6990624, Mix 13 11 6 14); (0xf40e3585, Mix 14 12 7 15); (0x106aa070, Mix 15 13 8 0);
   (0x19a4c116, Mix 0 14 9 1); (0x1e376c08, Mix 1 15 10 2); (0x2748774c, Mix 2 0 11 3); (0x34b0bcb5, Mix 3 1 12 4);
   (0x391c0cb3, Mix 4 2 13 5); (0x4ed8aa4a, Mix 5 3 14 6); (0x5b9cca4f, Mix 6 4 15 7); (0x682e6ff3, Mix 7 5 0 8);
   (0x748f82ee, Mix 8 6 1 9); (0x78a5636f, Mix 9 7 2 10); (0x84c87814, Mix 10 8 3 11); (0x8cc70208, Mix 11 9 4 12);
   (0x90befffa, Mix 12 10 5 13); (0xa4506ceb, Mix 13 11 6 14); (0xbef9a3f7, Last 14 12 7 15); (0xc67178f2, Last 15 13 8 0)].

Fixpoint run_calls (cs : list (Z * word_arg)) (chunk : bytes) (w : list Z) (r : words) : words :=
  match cs with
  | [] => r
  | (k, e) :: cs' =>
    let '(x, w) := eval_arg chunk w e in
    run_calls cs' chunk w (Round r k x)
  end.

Definition transform_block (s : words) (chunk : bytes) : words :=
  let r := run_calls calls chunk (replicate 16 0) s in
  W8 (add32 s.(wa) r.(wa)) (add32 s.(wb) r.(wb)) (add32 s.(wc) r.(wc)) (add32 s.(wd) r.(wd))
     (add32 s.(we) r.(we)) (add32 s.(wf_) r.(wf_)) (add32 s.(wg) r.(wg)) (add32 s.(wh) r.(wh)).

#[global] Opaque transform_block.

Fixpoint Transform (s : words) (chunk : bytes) (blocks : nat) : words :=
  match blocks with
  | O => s
  | S blocks' => Transform (transform_block s (take 64 chunk)) (drop 64 chunk) blocks'
  end.

(** [SelfTest] of a transform function: the padded empty string and 64 spaces. *)
Definition words_eqb (x y : words) : bool :=
  (x.(wa) =? y.(wa)) && (x.(wb) =? y.(wb)) && (x.(wc) =? y.(wc)) && (x.(wd) =? y.(wd)) &&
  (x.(we) =? y.(we)) && (x.(wf_) =? y.(wf_)) && (x.(wg) =? y.(wg)) && (x.(wh) =? y.(wh)).
Definition SelfTest (tr : words -> bytes -> nat -> words) : bool :=
  let in1 := 0x80 :: replicate 63 0 in
  let in2 := replicate 64 32 ++ 0x80 :: replicate 61 0 ++ [2; 0] in
  let init := W8 0x6a09e667 0xbb67ae85 0x3c6ef372 0xa54ff53a 0x510e527f 0x9b05688c 0x1f83d9ab 0x5be0cd19 in
  let out1 := W8 0xe3b0c442 0x98fc1c14 0x9afbf4c8 0x996fb924 0x27ae41e4 0x649b934c 0xa495991b 0x7852b855 in
  let out2 := W8 0xce4153b0 0x147c2a86 0x3ed4298e 0xe0676bc8 0x79fc77a1 0x2abe1f49 0xb2b055df 0x1069523e in
  if negb (words_eqb (tr init [] 0%nat) init) then false
  else if negb (words_eqb (tr (tr init [] 0%nat) in1 1%nat) out1) then false
  else if negb (words_eqb (tr init in2 2%nat) out2) then false
  else true.

(** ** The hasher object *)

Record CSHA256 := MkSHA256 { sha_s : words; sha_buf : bytes; sha_bytes : Z }.

(** The buffer of a new object is not initialised by the source; it is written
    before it is read. *)
Definition new (garbage : bytes) : CSHA256 := MkSHA256 Initialize garbage 0.

(** [memcpy(buf + ofs, data, len)]. *)
Definition buf_write (buf : bytes) (ofs : nat) (data : bytes) : bytes :=
  take ofs buf ++ data ++ drop (ofs + length data) buf.

Definition add_bytes (x : Z) (n : nat) : Z := wrapu 64 (x + Z.of_nat n).

(** The last part of [Write]: buffer what remains. *)
Definition write_rest (c : CSHA256) (bufsize : nat) (data : bytes) : CSHA256 :=
  if (0 <? length data)%nat then
    MkSHA256 c.(sha_s) (buf_write c.(sha_buf) bufsize data) (add_bytes c.(sha_bytes) (length data))
  else c.

(** The middle part: whole blocks are compressed from the caller's data. *)
Definition write_blocks (c : CSHA256) (bufsize : nat) (data : bytes) : CSHA256 :=
  if (64 <=? length data)%nat then
    let blocks := (length data / 64)%nat in
    write_rest
      (MkSHA256 (Transform c.(sha_s) data blocks) c.(sha_buf) (add_bytes c.(sha_bytes) (64 * blocks)))
      bufsize (drop (64 * blocks) data)
  else write_rest c bufsize data.

Definition Write (c : CSHA256) (data : bytes) : CSHA256 :=
  let bufsize := Z.to_nat (c.(sha_bytes) mod 64) in
  if negb (bufsize =? 0)%nat && (64 <=? bufsize + length data)%nat then
    let buf := buf_write c.(sha_buf) bufsize (take (64 - bufsize) data) in
    write_blocks
      (MkSHA256 (Transform c.(sha_s) buf 1) buf (add_bytes c.(sha_bytes) (64 - bufsize)))
      0 (drop (64 - bufsize) data)
  else write_blocks c bufsize data.

Definition pad : bytes := 0x80 :: replicate 63 0.

Definition digest (s : words) : bytes :=
  WriteBE32 s.(wa) ++ WriteBE32 s.(wb) ++ WriteBE32 s.(wc) ++ WriteBE32 s.(wd) ++
  WriteBE32 s.(we) ++ WriteBE32 s.(wf_) ++ WriteBE32 s.(wg) ++ WriteBE32 s.(wh).

(** The object is left padded; its digest is returned with it. *)
Definition Finalize (c : CSHA256) : bytes * CSHA256 :=
  let sizedesc := WriteBE64 (wrapu 64 (Z.shiftl c.(sha_bytes) 3)) in
  let c := Write c (take (1 + Z.to_nat ((119 - c.(sha_bytes) mod 64) mod 64)) pad) in
  let c := Write c sizedesc in
  (digest c.(sha_s), c).

Definition Reset (c : CSHA256) : CSHA256 := MkSHA256 Initialize c.(sha_buf) 0.

(** ** [CHash256], [CHashWriter], [SerializeHash] *)

Definition CHash256_Finalize (c : CSHA256) : bytes :=
  let '(buf, c) := Finalize c in
  (Finalize (Write (Reset c) buf)).1.

(** The [uint256] whose storage receives the digest. *)
Definition CHashWriter_GetHash (c : CSHA256) : uint256 := le_val (CHash256_Finalize c).

(** ** The reference: hash of a whole message *)

(** The padding of a message of [n] bytes. *)
Definition padding (n : Z) : bytes :=
  0x80 :: replicate (Z.to_nat ((119 - n mod 64) mod 64)) 0 ++ WriteBE64 (wrapu 64 (8 * n)).

Definition sha256 (msg : bytes) : bytes :=
  let m := msg ++ padding (Z.of_nat (length msg)) in
  digest (Transform Initialize m (length m / 64)).

(** The message schedule as the standard states it: sixteen words read from the
    chunk, each further one computed from the words 16, 2, 7 and 15 back. *)
Definition next_word (chunk : bytes) (l : list Z) : Z :=
  let t := length l in
  if (t <? 16)%nat then ReadBE32 (drop (4 * t) chunk)
  else add32 (l !!! (t - 16)%nat)
         (add32 (add32 (sigma1 (l !!! (t - 2)%nat)) (l !!! (t - 7)%nat)) (sigma0 (l !!! (t - 15)%nat))).
Fixpoint schedule (chunk : bytes) (n : nat) : list Z :=
  match n with
  | O => []
  | S n' => let l := schedule chunk n' in l ++ [next_word chunk l]
  end.
Definition compress (ks ws : list Z) (s : words) : words :=
  fold_left (fun r '(k, w) => Round r k w) (zip ks ws) s.

End Sha256.

(** [Hash(begin, end)]: double SHA-256, as the [uint256] that stores the digest. *)
Definition sha256d (msg : bytes) : uint256 := le_val (Sha256.sha256 (Sha256.sha256 msg)).

(** What the rest of the program relies on: a 256-bit hash of byte strings.  The
    components are written and proved against this interface; the instance
    below is the hash of the program. *)
Class Hash256 := {
  hash256 : bytes -> uint256;
  hash256_range : forall msg, in_u 256 (hash256 msg) = true;
}.

(** No two of the messages collide. *)
Definition no_collision `{Hash256} (l : list bytes) : Prop :=
  forall a b, a ∈ l -> b ∈ l -> hash256 a = hash256 b -> a = b.

Definition no_collision_b `{Hash256} (l : list bytes) : bool :=
  let hs := (fun a => (hash256 a, a)) <$> l in
  forallb (fun p => forallb (fun q => negb (p.1 =? q.1) || bytes_eq p.2 q.2) hs) hs.

Lemma no_collision_b_spec `{HS : Hash256} l : no_collision_b l = true -> no_collision l.
Proof.
  unfold no_collision_b. rewrite forallb_forall. set (f := fun a => (hash256 a, a)). intros H a b Ha Hb E.
  apply list_elem_of_In, (in_map f) in Ha, Hb. specialize (H _ Ha). rewrite forallb_forall in H. specialize (H _ Hb).
  cbn [f fst snd] in H. apply orb_true_iff in H as [H|H]; [lia|by apply bytes_eq_spec].
Qed.

(** [SerializeHash] and every [CHashWriter] fed with serialized objects. *)
Definition SerializeHash `{Hash256} {A} (C : Codec A) (a : A) : uint256 := hash256 (ser C a).

Module Sha256Facts.
Import Sha256.

(** Published test vector. *)
Example sha256_abc : sha256 [97; 98; 99] =
  [0xba; 0x78; 0x16; 0xbf; 0x8f; 0x01; 0xcf; 0xea; 0x41; 0x41; 0x40; 0xde; 0x5d; 0xae; 0x22; 0x23;
   0xb0; 0x03; 0x61; 0xa3; 0x96; 0x17; 0x7a; 0x9c; 0xb4; 0x10; 0xff; 0x61; 0xf2; 0x00; 0x15; 0xad].
Proof. vm_compute. reflexivity. Qed.

Lemma SelfTest_Transform : SelfTest Transform = true.
Proof. vm_compute. reflexivity. Qed.

Local Ltac Zify.zify_post_hook ::= Z.to_euclidean_division_equations.

(** ** The message schedule *)

Lemma length_schedule chunk n : length (schedule chunk n) = n.
Proof. induction n as [|n IH]; simpl; [done|]. rewrite length_app, IH. simpl. lia. Qed.

Lemma schedule_lookup chunk n : forall t, (t < n)%nat -> schedule chunk n !!! t = next_word chunk (schedule chunk t).
Proof.
  induction n as [|n IH]; intros t Ht; [lia|]. simpl. assert (Hl := length_schedule chunk n).
  destruct (decide (t = n)) as [->|].
  - rewrite lookup_total_app_r by lia. by rewrite Hl, Nat.sub_diag.
  - rewrite lookup_total_app_l by lia. apply IH. lia.
Qed.

(** The argument of call [t], but for the last two. *)
Definition expected (t : nat) : word_arg :=
  if (t <? 16)%nat then Load t (4 * t)
  else Mix (t mod 16) ((t + 14) mod 16) ((t + 9) mod 16) ((t + 1) mod 16).

Definition last_calls : list (Z * word_arg) := [(0xbef9a3f7, Last 14 12 7 15); (0xc67178f2, Last 15 13 8 0)].

Lemma calls_expected : let ks := take 62 (calls.*1) in
  calls = zip ks (expected <$> seq 0 (length ks)) ++ last_calls.
Proof. reflexivity. Qed.

(** Registers that hold the last sixteen words of the schedule before call [t]. *)
Definition holds (chunk : bytes) (t : nat) (w : list Z) : Prop :=
  length w = 16%nat /\ forall u, (u < t <= u + 16)%nat -> w !!! (u mod 16)%nat = next_word chunk (schedule chunk u).

Lemma eval_expected chunk t w : holds chunk t w ->
  let '(x, w') := eval_arg chunk w (expected t) in
  x = next_word chunk (schedule chunk t) /\ holds chunk (S t) w'.
Proof.
  intros [Hlen Hw].
  assert (exists x, eval_arg chunk w (expected t) = (x, <[(t mod 16)%nat := x]> w)
          /\ x = next_word chunk (schedule chunk t)) as (x&->&Hx).
  { unfold expected, next_word. rewrite length_schedule. destruct (Nat.ltb_spec t 16).
    - eexists; split; [|done]. cbn [eval_arg]. by rewrite Nat.mod_small.
    - eexists; split; [done|]. unfold mixed. rewrite !schedule_lookup by lia. rewrite <- !Hw by lia.
      replace ((t - 16) mod 16)%nat with (t mod 16)%nat by lia.
      replace ((t - 2) mod 16)%nat with ((t + 14) mod 16)%nat by lia.
      replace ((t - 7) mod 16)%nat with ((t + 9) mod 16)%nat by lia.
      by replace ((t - 15) mod 16)%nat with ((t + 1) mod 16)%nat by lia. }
  split; [done|]. split; [by rewrite length_insert|]. intros u Hu.
  destruct (decide (u = t)) as [->|].
  - rewrite list_lookup_total_insert_eq by lia. done.
  - rewrite list_lookup_total_insert_ne by lia. apply Hw. lia.
Qed.

Lemma run_expected chunk ks : forall t w r, holds chunk t w ->
  exists w', holds chunk (t + length ks) w' /\
  forall rest, run_calls (zip ks (expected <$> seq t (length ks)) ++ rest) chunk w r
  = run_calls rest chunk w' (fold_left (fun r '(k, t) => Round r k (next_word chunk (schedule chunk t))) (zip ks (seq t (length ks))) r).
Proof.
  induction ks as [|k ks IH]; intros t w r Hw; [exists w; split; [by rewrite Nat.add_0_r|done]|].
  generalize (eval_expected chunk t w Hw). cbn [length seq fmap list_fmap zip zip_with app run_calls fold_left].
  destruct (eval_arg chunk w (expected t)) as [x w1]. intros [-> Hw1].
  destruct (IH (S t) w1 (Round r k (next_word chunk (schedule chunk t))) Hw1) as (w'&Hw'&E).
  exists w'. split; [by rewrite Nat.add_succ_r|]. intros rest. apply E.
Qed.

(** The last two words are used without being stored; no later call reads them. *)
Lemma run_last chunk w r : holds chunk 62 w ->
  run_calls last_calls chunk w r
  = Round (Round r 0xbef9a3f7 (next_word chunk (schedule chunk 62))) 0xc67178f2 (next_word chunk (schedule chunk 63)).
Proof.
  intros Hw. generalize (eval_expected chunk 62 w Hw). change (expected 62) with (Mix 14 12 7 15).
  cbn [eval_arg]. intros [E1 Hw1]. generalize (eval_expected chunk 63 _ Hw1).
  change (expected 63) with (Mix 15 13 8 0). cbn [eval_arg]. intros [E2 _].
  unfold last_calls. cbn [run_calls eval_arg]. rewrite <- E1, <- E2. f_equal.
  unfold mixed. by rewrite !list_lookup_total_insert_ne by lia.
Qed.

Lemma schedule_fmap chunk n : schedule chunk n = (fun t => next_word chunk (schedule chunk t)) <$> seq 0 n.
Proof. induction n as [|n IH]; [done|]. rewrite seq_S, fmap_app. cbn [schedule]. by rewrite <- IH. Qed.

Lemma compress_fmap (f : nat -> Z) ks : forall ts r,
  compress ks (f <$> ts) r = fold_left (fun r '(k, t) => Round r k (f t)) (zip ks ts) r.
Proof. induction ks as [|k ks IH]; intros [|t ts] r; try done. apply IH. Qed.

(** The 64 calls of [Round], which keep the message words in sixteen
    registers updated in place, are the standard's 64 rounds over its message
    schedule. *)
Theorem transform_block_schedule (s : words) (chunk : bytes) :
  let r := compress (calls.*1) (schedule chunk 64) s in
  transform_block s chunk
  = W8 (add32 s.(wa) r.(wa)) (add32 s.(wb) r.(wb)) (add32 s.(wc) r.(wc)) (add32 s.(wd) r.(wd))
       (add32 s.(we) r.(we)) (add32 s.(wf_) r.(wf_)) (add32 s.(wg) r.(wg)) (add32 s.(wh) r.(wh)).
Proof.
  cbv zeta. Transparent transform_block. unfold transform_block. Opaque transform_block.
  replace (run_calls calls chunk (replicate 16 0) s) with (compress (calls.*1) (schedule chunk 64) s); [done|].
  rewrite schedule_fmap, compress_fmap.
  destruct (run_expected chunk (take 62 (calls.*1)) 0 (replicate 16 0) s) as (w&Hw&E).
  { split; [done|]. intros u Hu. lia. }
  rewrite calls_expected at 2. rewrite E, (run_last chunk w) by exact Hw. reflexivity.
Qed.

(** ** Streaming *)


Lemma Transform_app s a b n m : length a = (64 * n)%nat ->
  Transform s (a ++ b) (n + m) = Transform (Transform s a n) b m.
Proof.
  revert s a. induction n as [|n IH]; intros s a Hl.
  { destruct a; [done|simpl in Hl; lia]. }
  cbn [Transform Nat.add]. rewrite take_app_le, drop_app_le by lia.
  apply IH. rewrite length_drop. lia.
Qed.

Lemma Transform_prefix s a b n : (64 * n <= length a)%nat ->
  Transform s (a ++ b) n = Transform s a n.
Proof.
  revert s a. induction n as [|n IH]; intros s a Hl; [done|].
  cbn [Transform]. rewrite take_app_le, drop_app_le by lia. apply IH. rewrite length_drop. lia.
Qed.

(** The object [c] has absorbed [msg]. *)
Record absorbed (c : CSHA256) (msg : bytes) : Prop := {
  abs_bytes : c.(sha_bytes) = wrapu 64 (Z.of_nat (length msg));
  abs_buf : length c.(sha_buf) = 64%nat;
  abs_state : c.(sha_s) = Transform Initialize msg (length msg / 64);
  abs_tail : take (length msg mod 64) c.(sha_buf) = drop (64 * (length msg / 64)) msg;
}.

Lemma add_bytes_absorbed n k : add_bytes (wrapu 64 (Z.of_nat n)) k = wrapu 64 (Z.of_nat (n + k)).
Proof. unfold add_bytes, wrapu. rewrite Zplus_mod_idemp_l. f_equal. lia. Qed.

Lemma wrapu64_mod64 n : Z.to_nat (wrapu 64 (Z.of_nat n) mod 64) = (n mod 64)%nat.
Proof.
  unfold wrapu. change (2 ^ 64) with (64 * 2 ^ 58).
  rewrite Z.rem_mul_r, (Z.mul_comm 64), Z.mod_add, Z.mod_mod by lia.
  change 64 with (Z.of_nat 64). by rewrite <- Nat2Z.inj_mod, Nat2Z.id.
Qed.

(** Completing a partial buffer. *)
Lemma absorb_fill c msg data : absorbed c msg -> (length msg mod 64 <> 0)%nat ->
  (length data = 64 - length msg mod 64)%nat ->
  let buf := buf_write c.(sha_buf) (length msg mod 64) data in
  absorbed (MkSHA256 (Transform c.(sha_s) buf 1) buf (add_bytes c.(sha_bytes) (length data)))
    (msg ++ data).
Proof.
  intros [Hb Hl Hs Ht] Hr Hd. set (r := (length msg mod 64)%nat) in *.
  set (q := (length msg / 64)%nat) in *. assert (length msg = 64 * q + r)%nat as HL by lia.
  cbn zeta. assert (buf_write (sha_buf c) r data = drop (64 * q) msg ++ data) as ->.
  { unfold buf_write. rewrite Ht, (drop_ge (sha_buf c)) by lia. by rewrite app_nil_r. }
  assert ((length (msg ++ data) / 64)%nat = (q + 1)%nat) as E1 by (rewrite length_app; lia).
  assert ((length (msg ++ data) mod 64)%nat = 0%nat) as E2 by (rewrite length_app; lia).
  split; cbn [sha_bytes sha_buf sha_s]; rewrite ?E1, ?E2.
  - by rewrite Hb, add_bytes_absorbed, length_app.
  - rewrite length_app, length_drop. lia.
  - rewrite Hs. fold q. rewrite <- (take_drop (64 * q) msg) at 3. rewrite <- app_assoc.
    rewrite Transform_app by (rewrite length_take; lia).
    apply (f_equal (fun s => Transform s (drop (64 * q) msg ++ data) 1)).
    rewrite <- (take_drop (64 * q) msg) at 1. apply Transform_prefix. rewrite length_take. lia.
  - rewrite take_0, drop_ge; [done|]. rewrite length_app. lia.
Qed.

(** Whole blocks straight from the caller's data. *)
Lemma absorb_blocks c msg data n : absorbed c msg -> (length msg mod 64 = 0)%nat ->
  (64 * n <= length data)%nat ->
  absorbed (MkSHA256 (Transform c.(sha_s) data n) c.(sha_buf) (add_bytes c.(sha_bytes) (64 * n)))
    (msg ++ take (64 * n) data).
Proof.
  intros [Hb Hl Hs Ht] Hr Hn. set (q := (length msg / 64)%nat) in *.
  assert (length (msg ++ take (64 * n) data) = 64 * (q + n))%nat as HL.
  { rewrite length_app, length_take. lia. }
  assert ((length (msg ++ take (64 * n) data) / 64)%nat = (q + n)%nat) as E1 by lia.
  assert ((length (msg ++ take (64 * n) data) mod 64)%nat = 0%nat) as E2 by lia.
  split; cbn [sha_bytes sha_buf sha_s]; rewrite ?E1, ?E2.
  - rewrite Hb, add_bytes_absorbed. f_equal. rewrite HL. lia.
  - done.
  - rewrite Hs, Transform_app by lia.
    rewrite <- (take_drop (64 * n) data) at 1. apply Transform_prefix. rewrite length_take. lia.
  - rewrite take_0, drop_ge; [done|lia].
Qed.

(** What does not complete a block is buffered. *)
Lemma absorb_rest c msg data : absorbed c msg -> (length msg mod 64 + length data < 64)%nat ->
  absorbed (MkSHA256 c.(sha_s) (buf_write c.(sha_buf) (length msg mod 64) data)
    (add_bytes c.(sha_bytes) (length data))) (msg ++ data).
Proof.
  intros [Hb Hl Hs Ht] Hd. set (r := (length msg mod 64)%nat) in *.
  set (q := (length msg / 64)%nat) in *. assert (length msg = 64 * q + r)%nat as HL by lia.
  assert ((length (msg ++ data) / 64)%nat = q) as E1 by (rewrite length_app; lia).
  assert ((length (msg ++ data) mod 64)%nat = (r + length data)%nat) as E2 by (rewrite length_app; lia).
  split; cbn [sha_bytes sha_buf sha_s]; rewrite ?E1, ?E2.
  - by rewrite Hb, add_bytes_absorbed, length_app.
  - unfold buf_write. rewrite !length_app, length_take, length_drop. lia.
  - rewrite Hs. symmetry. apply Transform_prefix. lia.
  - unfold buf_write. rewrite Ht, app_assoc, drop_app_le by lia.
    apply take_app_length'. rewrite length_app, length_drop. lia.
Qed.

Lemma write_rest_absorbed c msg data : absorbed c msg -> (length msg mod 64 + length data < 64)%nat ->
  absorbed (write_rest c (length msg mod 64) data) (msg ++ data).
Proof.
  intros H Hl. unfold write_rest. destruct (Nat.ltb_spec 0 (length data)).
  - by apply absorb_rest.
  - destruct data; [|simpl in *; lia]. by rewrite app_nil_r.
Qed.

Lemma write_blocks_absorbed c msg data : absorbed c msg ->
  (length msg mod 64 = 0 \/ length msg mod 64 + length data < 64)%nat ->
  absorbed (write_blocks c (length msg mod 64) data) (msg ++ data).
Proof.
  intros H Hl. unfold write_blocks. destruct (Nat.leb_spec 64 (length data)) as [L|L].
  - set (n := (length data / 64)%nat). replace (msg ++ data) with (msg ++ take (64 * n) data ++ drop (64 * n) data)
      by (by rewrite take_drop). rewrite app_assoc.
    assert (length (msg ++ take (64 * n) data) mod 64 = length msg mod 64)%nat as E.
    { rewrite length_app, length_take. lia. }
    rewrite <- E. apply write_rest_absorbed; [apply absorb_blocks; auto; lia|].
    rewrite E, length_drop. lia.
  - apply write_rest_absorbed; [done|]. lia.
Qed.

Lemma Write_absorbed c msg data : absorbed c msg -> absorbed (Write c data) (msg ++ data).
Proof.
  intros H. unfold Write. rewrite (abs_bytes _ _ H), wrapu64_mod64.
  destruct (Nat.eqb_spec (length msg mod 64)%nat 0) as [E|E],
    (Nat.leb_spec 64 (length msg mod 64 + length data)%nat) as [L|L]; cbn [negb andb].
  1,2,4: apply write_blocks_absorbed; auto; lia.
  set (d1 := take (64 - length msg mod 64) data).
  assert (length d1 = 64 - length msg mod 64)%nat as L1 by (unfold d1; rewrite length_take; lia).
  replace (msg ++ data) with (msg ++ d1 ++ drop (64 - length msg mod 64) data)
    by (unfold d1; by rewrite take_drop). rewrite app_assoc.
  assert (length (msg ++ d1) mod 64 = 0)%nat as E0 by (rewrite length_app; lia).
  pose proof (absorb_fill c msg d1 H E L1) as H1. cbn zeta in H1.
  pose proof (write_blocks_absorbed _ _ (drop (64 - length msg mod 64) data) H1 (or_introl E0)) as H2.
  rewrite E0, L1, (abs_bytes _ _ H) in H2. exact H2.
Qed.

Lemma new_absorbed g : length g = 64%nat -> absorbed (new g) [].
Proof. intros Hg. by split. Qed.

Lemma Reset_absorbed c : length c.(sha_buf) = 64%nat -> absorbed (Reset c) [].
Proof. intros Hg. by split. Qed.

(** ** [Finalize] *)

Lemma pad_take n : (n <= 63)%nat -> take (1 + n) pad = 0x80 :: replicate n 0.
Proof. intros Hn. unfold pad. cbn [take Nat.add]. f_equal. rewrite take_replicate. f_equal. lia. Qed.

Lemma wrapu_shift3 n : wrapu 64 (Z.shiftl (wrapu 64 n) 3) = wrapu 64 (8 * n).
Proof.
  unfold wrapu. rewrite Z.shiftl_mul_pow2 by lia. rewrite Zmult_mod_idemp_l. f_equal. lia.
Qed.

Lemma Finalize_absorbed c msg : absorbed c msg ->
  (Finalize c).1 = sha256 msg /\ length (Finalize c).2.(sha_buf) = 64%nat.
Proof.
  intros H. unfold Finalize. cbn [fst snd].
  set (p1 := take _ pad). set (p2 := WriteBE64 _).
  pose proof (Write_absorbed _ _ p2 (Write_absorbed _ _ p1 H)) as H2.
  split; [|apply (abs_buf _ _ H2)]. rewrite (abs_state _ _ H2).
  assert (p1 ++ p2 = padding (Z.of_nat (length msg))) as E.
  { unfold p1, p2, padding. rewrite (abs_bytes _ _ H), wrapu_shift3.
    replace (wrapu 64 (Z.of_nat (length msg)) mod 64) with (Z.of_nat (length msg) mod 64); cycle 1.
    { pose proof (wrapu64_mod64 (length msg)). unfold wrapu in *.
      pose proof (Z.mod_pos_bound (Z.of_nat (length msg)) (2 ^ 64)). lia. }
    rewrite pad_take by lia. done. }
  rewrite <- app_assoc, E. done.
Qed.

Lemma Writes_absorbed chunks c msg : absorbed c msg -> absorbed (foldl Write c chunks) (msg ++ mjoin chunks).
Proof.
  revert c msg. induction chunks as [|d chunks IH]; intros c msg H; cbn; [by rewrite app_nil_r|].
  rewrite app_assoc. by apply IH, Write_absorbed.
Qed.

Lemma length_digest s : length (digest s) = 32%nat.
Proof. done. Qed.

Lemma all_bytes_digest s : all_bytes (digest s) = true.
Proof.
  unfold digest, WriteBE32. rewrite !all_bytes_app, !all_bytes_rev, !le_bytes_all_bytes. done.
Qed.

Lemma sha256d_range msg : in_u 256 (sha256d msg) = true.
Proof.
  apply in_u_spec. unfold sha256d.
  pose proof (le_val_bound (sha256 (sha256 msg)) (all_bytes_digest _)) as H. exact H.
Qed.

(** C39. Hashing is insensitive to how the message is split: whatever the
    contents of an uninitialised buffer, feeding chunks of any sizes to
    [CHashWriter::write] and calling [GetHash] yields the double SHA-256 of
    the concatenated message. *)
Theorem hash_writer_streaming (garbage : bytes) (chunks : list bytes) :
  length garbage = 64%nat ->
  CHashWriter_GetHash (foldl Write (new garbage) chunks) = sha256d (mjoin chunks).
Proof.
  intros Hg. unfold CHashWriter_GetHash, CHash256_Finalize, sha256d. f_equal.
  pose proof (Writes_absorbed chunks _ _ (new_absorbed garbage Hg)) as H1.
  change ([] ++ mjoin chunks) with (mjoin chunks) in H1.
  destruct (Finalize_absorbed _ _ H1) as [E1 B1].
  destruct (Finalize (foldl Write (new garbage) chunks)) as [d c]. cbn [fst snd] in *. subst d.
  pose proof (Write_absorbed _ _ (sha256 (mjoin chunks)) (Reset_absorbed c B1)) as H2.
  by destruct (Finalize_absorbed _ _ H2) as [-> _].
Qed.

Lemma hash_writer_streaming_witness :
  CHashWriter_GetHash (foldl Write (new (replicate 64 0xAB)) [[1; 2; 3]; replicate 70 9; []; [4]])
  = sha256d (mjoin [[1; 2; 3]; replicate 70 9; []; [4]]).
Proof. apply hash_writer_streaming. reflexivity. Defined.

End Sha256Facts.

#[export] Instance Hash256_sha256d : Hash256 | 100 :=
  {| hash256 := sha256d; hash256_range := Sha256Facts.sha256d_range |}.

(** A polynomial hash, cheap to evaluate, for the examples of the components
    that are proved for every hash function. *)
Module Poly.

Definition poly (msg : bytes) : uint256 := foldl (fun h b => (h * 31337 + b + 1) mod (2 ^ 61 - 1)) 7 msg.

Lemma poly_range msg : in_u 256 (poly msg) = true.
Proof.
  unfold poly. induction msg as [|b msg _] using rev_ind; [done|]. rewrite foldl_snoc. unfold in_u.
  pose proof (Z.mod_pos_bound (foldl (fun h b => (h * 31337 + b + 1) mod (2 ^ 61 - 1)) 7 msg * 31337 + b + 1) (2 ^ 61 - 1) ltac:(lia)).
  lia.
Qed.

(** The same as a digest of [n] bytes. *)
Definition poly_bytes (n : nat) (msg : bytes) : bytes := le_bytes n (poly msg).
Lemma poly_bytes_digest n msg : length (poly_bytes n msg) = n /\ all_bytes (poly_bytes n msg) = true.
Proof. split; [apply length_le_bytes|apply le_bytes_all_bytes]. Qed.

Definition poly_hash : Hash256 := {| hash256 := poly; hash256_range := poly_range |}.

End Poly.
