(* ===== verification/Hash160.v ===== *)
(** RIPEMD-160 and SHA-1 (crypto/ripemd160.cpp, crypto/sha1.cpp): the
    compression functions with the calls of their rounds as the source lists
    them, and the hasher objects, which share one buffering scheme.  The theorem
    shows that the digest does not depend on how the message is split into
    writes. *)

From S2P Require Import Prelude Serialize Sha256.

Import Sha256.

Record words5 := W5 { va : Z; vb : Z; vc : Z; vd : Z; ve : Z }.

Definition rol (x n : Z) : Z := Z.lor (wrapu 32 (Z.shiftl x n)) (Z.shiftr x (32 - n)).

(** [Initialize] of both functions. *)
Definition Initialize5 : words5 := W5 0x67452301 0xEFCDAB89 0x98BADCFE 0x10325476 0xC3D2E1F0.

(** ** RIPEMD-160 *)

Module Ripemd160.

(** [~x] on [uint32_t]. *)
Definition not32 (x : Z) : Z := Z.lxor x 0xffffffff.

Definition f1 (x y z : Z) : Z := Z.lxor (Z.lxor x y) z.
Definition f2 (x y z : Z) : Z := Z.lor (Z.land x y) (Z.land (not32 x) z).
Definition f3 (x y z : Z) : Z := Z.lxor (Z.lor x (not32 y)) z.
Definition f4 (x y z : Z) : Z := Z.lor (Z.land x z) (Z.land y (not32 z)).
Definition f5 (x y z : Z) : Z := Z.lxor x (Z.lor y (not32 z)).

(** [Round] updates [a] and [c]; the next call of the same line names the
    registers one place to the right, which is the rotation written here. *)
Definition Round (fn : Z -> Z -> Z -> Z) (k : Z) (s : words5) (x r : Z) : words5 :=
  let '(W5 a b c d e) := s in
  let a := add32 (rol (add32 (add32 (add32 a (fn b c d)) x) k) r) e in
  W5 e a b (rol c 10) d.

(** [R11 .. R51] on the left line and [R12 .. R52] on the right one. *)
Definition left_rounds : list (words5 -> Z -> Z -> words5) :=
  [Round f1 0; Round f2 0x5A827999; Round f3 0x6ED9EBA1; Round f4 0x8F1BBCDC; Round f5 0xA953FD4E].
Definition right_rounds : list (words5 -> Z -> Z -> words5) :=
  [Round f5 0x50A28BE6; Round f4 0x5C4DD124; Round f3 0x6D703EF3; Round f2 0x7A6D76E9; Round f1 0].

(** The word and the rotation of the 80 calls of each line, a row of sixteen for
    each of its five functions. *)
Definition left_calls : list (Z * Z) :=
  [(0, 11); (1, 14); (2, 15); (3, 12); (4, 5); (5, 8); (6, 7); (7, 9); (8, 11); (9, 13); (10, 14); (11, 15); (12, 6); (13, 7); (14, 9); (15, 8);
   (7, 7); (4, 6); (13, 8); (1, 13); (10, 11); (6, 9); (15, 7); (3, 15); (12, 7); (0, 12); (9, 15); (5, 9); (2, 11); (14, 7); (11, 13); (8, 12);
   (3, 11); (10, 13); (14, 6); (4, 7); (9, 14); (15, 9); (8, 13); (1, 15); (2, 14); (7, 8); (0, 13); (6, 6); (13, 5); (11, 12); (5, 7); (12, 5);
   (1, 11); (9, 12); (11, 14); (10, 15); (0, 14); (8, 15); (12, 9); (4, 8); (13, 9); (3, 14); (7, 5); (15, 6); (14, 8); (5, 6); (6, 5); (2, 12);
   (4, 9); (0, 15); (5, 5); (9, 11); (7, 6); (12, 8); (2, 13); (10, 12); (14, 5); (1, 12); (3, 13); (8, 14); (11, 11); (6, 8); (15, 5); (13, 6)].
Definition right_calls : list (Z * Z) :=
  [(5, 8); (14, 9); (7, 9); (0, 11); (9, 13); (2, 15); (11, 15); (4, 5); (13, 7); (6, 7); (15, 8); (8, 11); (1, 14); (10, 14); (3, 12); (12, 6);
   (6, 9); (11, 13); (3, 15); (7, 7); (0, 12); (13, 8); (5, 9); (10, 11); (14, 7); (15, 7); (8, 12); (12, 7); (4, 6); (9, 15); (1, 13); (2, 11);
   (15, 9); (5, 7); (1, 15); (3, 11); (7, 8); (14, 6); (6, 6); (9, 14); (11, 12); (8, 13); (12, 5); (2, 14); (10, 13); (0, 13); (4, 7); (13, 5);
   (8, 15); (6, 5); (4, 8); (1, 11); (3, 14); (11, 14); (15, 6); (0, 14); (5, 6); (12, 9); (2, 12); (13, 9); (9, 12); (7, 5); (10, 15); (14, 8);
   (12, 8); (15, 5); (10, 12); (4, 9); (1, 12); (5, 5); (8, 14); (7, 6); (6, 8); (2, 13); (13, 6); (14, 5); (0, 15); (3, 13); (9, 11); (11, 11)].

Definition ReadLE32 (bs : bytes) : Z := le_val (take 4 bs).

(** One line: the [i]-th call uses the [i / 16]-th function.  The lines share no
    register, so the interleaving of the source is immaterial. *)
Fixpoint run_line (rounds : list (words5 -> Z -> Z -> words5)) (calls : list (Z * Z)) (i : nat)
  (w : list Z) (s : words5) : words5 :=
  match calls with
  | [] => s
  | (j, r) :: calls' =>
    run_line rounds calls' (S i) w (nth (i / 16) rounds (fun s _ _ => s) s (w !!! Z.to_nat j) r)
  end.

Definition Transform (s : words5) (chunk : bytes) : words5 :=
  let w := (fun i => ReadLE32 (drop (4 * i) chunk)) <$> seq 0 16 in
  let l := run_line left_rounds left_calls 0 w s in
  let r := run_line right_rounds right_calls 0 w s in
  W5 (add32 (add32 s.(vb) l.(vc)) r.(vd)) (add32 (add32 s.(vc) l.(vd)) r.(ve))
     (add32 (add32 s.(vd) l.(ve)) r.(va)) (add32 (add32 s.(ve) l.(va)) r.(vb))
     (add32 (add32 s.(va) l.(vb)) r.(vc)).

Definition WriteLE32 (x : Z) : bytes := le_bytes 4 x.
Definition WriteLE64 (x : Z) : bytes := le_bytes 8 x.
Definition digest (s : words5) : bytes :=
  WriteLE32 s.(va) ++ WriteLE32 s.(vb) ++ WriteLE32 s.(vc) ++ WriteLE32 s.(vd) ++ WriteLE32 s.(ve).

End Ripemd160.

(** ** SHA-1 *)

Module Sha1.

(** [Round] updates [e] and [b], with the same rotation of names. *)
Definition Round (fn : Z -> Z -> Z -> Z) (k : Z) (s : words5) (w : Z) : words5 :=
  let '(W5 a b c d e) := s in
  let e := add32 e (add32 (add32 (add32 (rol a 5) (fn b c d)) k) w) in
  W5 e a (rol b 30) c d.

Definition f1 (b c d : Z) : Z := Z.lxor d (Z.land b (Z.lxor c d)).
Definition f2 (b c d : Z) : Z := Z.lxor (Z.lxor b c) d.
Definition f3 (b c d : Z) : Z := Z.lor (Z.land b c) (Z.land d (Z.lor b c)).
Definition left (x : Z) : Z := Z.lor (wrapu 32 (Z.shiftl x 1)) (Z.shiftr x 31).

(** The functions and constants of the four groups of twenty calls. *)
Definition rounds : list (words5 -> Z -> words5) :=
  [Round f1 0x5A827999; Round f2 0x6ED9EBA1; Round f3 0x8F1BBCDC; Round f2 0xCA62C1D6].

(** The word argument of each call; [Mix i j m n] is [wi = left(wi ^ wj ^ wm ^ wn)]. *)
Definition calls : list word_arg :=
  [Load 0 0; Load 1 4; Load 2 8; Load 3 12; Load 4 16; Load 5 20; Load 6 24; Load 7 28;
   Load 8 32; Load 9 36; Load 10 40; Load 11 44; Load 12 48; Load 13 52; Load 14 56; Load 15 60;
   Mix 0 13 8 2; Mix 1 14 9 3; Mix 2 15 10 4; Mix 3 0 11 5; Mix 4 1 12 6; Mix 5 2 13 7; Mix 6 3 14 8; Mix 7 4 15 9;
   Mix 8 5 0 10; Mix 9 6 1 11; Mix 10 7 2 12; Mix 11 8 3 13; Mix 12 9 4 14; Mix 13 10 5 15; Mix 14 11 6 0; Mix 15 12 7 1;
   Mix 0 13 8 2; Mix 1 14 9 3; Mix 2 15 10 4; Mix 3 0 11 5; Mix 4 1 12 6; Mix 5 2 13 7; Mix 6 3 14 8; Mix 7 4 15 9;
   Mix 8 5 0 10; Mix 9 6 1 11; Mix 10 7 2 12; Mix 11 8 3 13; Mix 12 9 4 14; Mix 13 10 5 15; Mix 14 11 6 0; Mix 15 12 7 1;
   Mix 0 13 8 2; Mix 1 14 9 3; Mix 2 15 10 4; Mix 3 0 11 5; Mix 4 1 12 6; Mix 5 2 13 7; Mix 6 3 14 8; Mix 7 4 15 9;
   Mix 8 5 0 10; Mix 9 6 1 11; Mix 10 7 2 12; Mix 11 8 3 13; Mix 12 9 4 14; Mix 13 10 5 15; Mix 14 11 6 0; Mix 15 12 7 1;
   Mix 0 13 8 2; Mix 1 14 9 3; Mix 2 15 10 4; Mix 3 0 11 5; Mix 4 1 12 6; Mix 5 2 13 7; Mix 6 3 14 8; Mix 7 4 15 9;
   Mix 8 5 0 10; Mix 9 6 1 11; Mix 10 7 2 12; Mix 11 8 3 13; Mix 12 9 4 14; Last 13 10 5 15; Last 14 11 6 0; Last 15 12 7 1].

Definition mixed (w : list Z) (i j m n : nat) : Z :=
  left (Z.lxor (Z.lxor (Z.lxor (w !!! i) (w !!! j)) (w !!! m)) (w !!! n)).
Definition eval_arg (chunk : bytes) (w : list Z) (e : word_arg) : Z * list Z :=
  match e with
  | Load i ofs => let x := ReadBE32 (drop ofs chunk) in (x, <[i := x]> w)
  | Mix i j m n => let x := mixed w i j m n in (x, <[i := x]> w)
  | Last i j m n => (mixed w i j m n, w)
  end.

Fixpoint run_calls (cs : list word_arg) (t : nat) (chunk : bytes) (w : list Z) (s : words5) : words5 :=
  match cs with
  | [] => s
  | e :: cs' =>
    let '(x, w) := eval_arg chunk w e in
    run_calls cs' (S t) chunk w (nth (t / 20) rounds (fun s _ => s) s x)
  end.

Definition Transform (s : words5) (chunk : bytes) : words5 :=
  let r := run_calls calls 0 chunk (replicate 16 0) s in
  W5 (add32 s.(va) r.(va)) (add32 s.(vb) r.(vb)) (add32 s.(vc) r.(vc)) (add32 s.(vd) r.(vd))
     (add32 s.(ve) r.(ve)).

Definition digest (s : words5) : bytes :=
  WriteBE32 s.(va) ++ WriteBE32 s.(vb) ++ WriteBE32 s.(vc) ++ WriteBE32 s.(vd) ++ WriteBE32 s.(ve).

End Sha1.

(** ** The hasher objects *)

(** [CSHA1] and [CRIPEMD160] have the same methods, but for the compression
    function, the byte order of the size and the digest. *)
Module Stream.

Record hasher := MkHasher { h_s : words5; h_buf : bytes; h_bytes : Z }.

Definition new (garbage : bytes) : hasher := MkHasher Initialize5 garbage 0.
Definition Reset (c : hasher) : hasher := MkHasher Initialize5 c.(h_buf) 0.

Section Stream.
Context (Transform : words5 -> bytes -> words5) (WriteSize : Z -> bytes) (digest : words5 -> bytes).

(** [while (end >= data + 64)]; a step for every byte is more than enough. *)
Fixpoint write_chunks (fuel : nat) (s : words5) (nbytes : Z) (data : bytes) : words5 * Z * bytes :=
  match fuel with
  | O => (s, nbytes, data)
  | S fuel' =>
    if (64 <=? length data)%nat
    then write_chunks fuel' (Transform s (take 64 data)) (add_bytes nbytes 64) (drop 64 data)
    else (s, nbytes, data)
  end.

(** The method after the buffer has been filled and processed. *)
Definition write_rest (c : hasher) (bufsize : nat) (data : bytes) : hasher :=
  let '(s, nbytes, data) := write_chunks (length data) c.(h_s) c.(h_bytes) data in
  if (0 <? length data)%nat
  then MkHasher s (buf_write c.(h_buf) bufsize data) (add_bytes nbytes (length data))
  else MkHasher s c.(h_buf) nbytes.

Definition Write (c : hasher) (data : bytes) : hasher :=
  let bufsize := Z.to_nat (c.(h_bytes) mod 64) in
  if negb (bufsize =? 0)%nat && (64 <=? bufsize + length data)%nat then
    let buf := buf_write c.(h_buf) bufsize (take (64 - bufsize) data) in
    write_rest (MkHasher (Transform c.(h_s) buf) buf (add_bytes c.(h_bytes) (64 - bufsize)))
      0 (drop (64 - bufsize) data)
  else write_rest c bufsize data.

Definition Finalize (c : hasher) : bytes * hasher :=
  let sizedesc := WriteSize (wrapu 64 (Z.shiftl c.(h_bytes) 3)) in
  let c := Write c (take (1 + Z.to_nat ((119 - c.(h_bytes) mod 64) mod 64)) pad) in
  let c := Write c sizedesc in
  (digest c.(h_s), c).

(** *** The reference: the hash of a whole message *)

Fixpoint blocks (s : words5) (msg : bytes) (n : nat) : words5 :=
  match n with
  | O => s
  | S n' => blocks (Transform s (take 64 msg)) (drop 64 msg) n'
  end.

Definition padded (msg : bytes) : bytes :=
  let n := Z.of_nat (length msg) in
  msg ++ 0x80 :: replicate (Z.to_nat ((119 - n mod 64) mod 64)) 0 ++ WriteSize (wrapu 64 (8 * n)).

Definition hash (msg : bytes) : bytes :=
  digest (blocks Initialize5 (padded msg) (length (padded msg) / 64)).

End Stream.
End Stream.

Definition CRIPEMD160_Write := Stream.Write Ripemd160.Transform.
Definition CRIPEMD160_Finalize := Stream.Finalize Ripemd160.Transform Ripemd160.WriteLE64 Ripemd160.digest.
Definition CSHA1_Write := Stream.Write Sha1.Transform.
Definition CSHA1_Finalize := Stream.Finalize Sha1.Transform WriteBE64 Sha1.digest.

(** The digests of whole messages. *)
Definition ripemd160_hash : bytes -> bytes := Stream.hash Ripemd160.Transform Ripemd160.WriteLE64 Ripemd160.digest.
Definition sha1_hash : bytes -> bytes := Stream.hash Sha1.Transform WriteBE64 Sha1.digest.

(** Published test vectors. *)
Example ripemd160_abc : ripemd160_hash [97; 98; 99] =
  [0x8e; 0xb2; 0x08; 0xf7; 0xe0; 0x5d; 0x98; 0x7a; 0x9b; 0x04; 0x4a; 0x8e; 0x98; 0xc6; 0xb0; 0x87; 0xf1; 0x5a; 0x0b; 0xfc].
Proof. vm_compute. reflexivity. Qed.

Example sha1_abc : sha1_hash [97; 98; 99] =
  [0xa9; 0x99; 0x3e; 0x36; 0x47; 0x06; 0x81; 0x6a; 0xba; 0x3e; 0x25; 0x71; 0x78; 0x50; 0xc2; 0x6c; 0x9c; 0xd0; 0xd8; 0x9d].
Proof. vm_compute. reflexivity. Qed.

(** ** Streaming *)

Module StreamFacts.
Import Stream Sha256Facts.

Local Ltac Zify.zify_post_hook ::= Z.to_euclidean_division_equations.

Section Facts.
Context (Transform : words5 -> bytes -> words5).

Abbreviation blocks := (blocks Transform).
Abbreviation write_chunks := (write_chunks Transform).
Abbreviation write_rest := (write_rest Transform).
Abbreviation Write := (Write Transform).

Lemma blocks_app s a b n m : length a = (64 * n)%nat -> blocks s (a ++ b) (n + m) = blocks (blocks s a n) b m.
Proof.
  revert s a. induction n as [|n IH]; intros s a Hl; [destruct a; [done|cbn in Hl; lia]|].
  cbn [Stream.blocks Nat.add]. rewrite take_app_le, drop_app_le by lia. apply IH. rewrite length_drop. lia.
Qed.

Lemma blocks_prefix s a b n : (64 * n <= length a)%nat -> blocks s (a ++ b) n = blocks s a n.
Proof.
  revert s a. induction n as [|n IH]; intros s a Hl; [done|].
  cbn [Stream.blocks]. rewrite take_app_le, drop_app_le by lia. apply IH. rewrite length_drop. lia.
Qed.

(** The loop compresses every whole block and leaves the rest. *)
Lemma write_chunks_spec fuel : forall s k data, (length data <= fuel)%nat ->
  let n := (length data / 64)%nat in
  write_chunks fuel s (wrapu 64 (Z.of_nat k)) data
  = (blocks s data n, wrapu 64 (Z.of_nat (k + 64 * n)), drop (64 * n) data).
Proof.
  induction fuel as [|fuel IH]; intros s k data Hf n; subst n.
  { destruct data; [|cbn in Hf; lia]. cbn. by rewrite Nat.add_0_r. }
  cbn [Stream.write_chunks]. destruct (Nat.leb_spec 64 (length data)) as [L|L].
  - rewrite add_bytes_absorbed, IH by (rewrite length_drop; lia). rewrite length_drop.
    replace (length data / 64)%nat with (S ((length data - 64) / 64)) by lia. cbn [Stream.blocks].
    rewrite drop_drop. do 2 f_equal; [|f_equal; lia]. f_equal. f_equal. lia.
  - replace (length data / 64)%nat with 0%nat by lia. cbn. by rewrite Nat.add_0_r.
Qed.

(** The object [c] has absorbed [msg]. *)
Record absorbed (c : hasher) (msg : bytes) : Prop := {
  ab_bytes : c.(h_bytes) = wrapu 64 (Z.of_nat (length msg));
  ab_buf : length c.(h_buf) = 64%nat;
  ab_state : c.(h_s) = blocks Initialize5 msg (length msg / 64);
  ab_tail : take (length msg mod 64) c.(h_buf) = drop (64 * (length msg / 64)) msg;
}.

Lemma stream_absorb_fill c msg data : absorbed c msg -> (length msg mod 64 <> 0)%nat ->
  (length data = 64 - length msg mod 64)%nat ->
  let buf := buf_write c.(h_buf) (length msg mod 64) data in
  absorbed (MkHasher (Transform c.(h_s) buf) buf (add_bytes c.(h_bytes) (length data))) (msg ++ data).
Proof.
  intros [Hb Hl Hs Ht] Hr Hd. set (r := (length msg mod 64)%nat) in *.
  set (q := (length msg / 64)%nat) in *. assert (length msg = 64 * q + r)%nat as HL by lia.
  cbn zeta. assert (buf_write (h_buf c) r data = drop (64 * q) msg ++ data) as ->.
  { unfold buf_write. rewrite Ht, (drop_ge (h_buf c)) by lia. by rewrite app_nil_r. }
  assert ((length (msg ++ data) / 64)%nat = (q + 1)%nat) as E1 by (rewrite length_app; lia).
  assert ((length (msg ++ data) mod 64)%nat = 0%nat) as E2 by (rewrite length_app; lia).
  split; cbn [h_bytes h_buf h_s]; rewrite ?E1, ?E2.
  - by rewrite Hb, add_bytes_absorbed, length_app.
  - rewrite length_app, length_drop. lia.
  - rewrite Hs. fold q. rewrite <- (take_drop (64 * q) msg) at 3. rewrite <- app_assoc.
    rewrite blocks_app by (rewrite length_take; lia). cbn [Stream.blocks].
    rewrite (take_ge (drop (64 * q) msg ++ data)) by (rewrite length_app, length_drop; lia).
    apply (f_equal (fun s => Transform s (drop (64 * q) msg ++ data))).
    rewrite <- (take_drop (64 * q) msg) at 1. apply blocks_prefix. rewrite length_take. lia.
  - rewrite take_0, drop_ge; [done|]. rewrite length_app. lia.
Qed.

Lemma stream_write_rest_absorbed c msg data : absorbed c msg ->
  (length msg mod 64 = 0 \/ length msg mod 64 + length data < 64)%nat ->
  absorbed (write_rest c (length msg mod 64) data) (msg ++ data).
Proof.
  intros [Hb Hl Hs Ht] Hd. unfold Stream.write_rest. rewrite Hb, write_chunks_spec by done. cbv zeta.
  set (n := (length data / 64)%nat). set (r := (length msg mod 64)%nat) in *.
  set (q := (length msg / 64)%nat) in *. assert (length msg = 64 * q + r)%nat as HL by lia.
  assert ((length (msg ++ data) / 64)%nat = (q + n)%nat) as E1 by (rewrite length_app; lia).
  assert ((length (msg ++ data) mod 64)%nat = (r + length data - 64 * n)%nat) as E2 by (rewrite length_app; lia).
  assert (blocks (h_s c) data n = blocks Initialize5 (msg ++ data) (q + n)) as ES.
  { rewrite Hs. destruct (Nat.eq_dec r 0%nat) as [E|E].
    - rewrite blocks_app by lia. done.
    - replace n with 0%nat by lia. cbn [Stream.blocks]. rewrite Nat.add_0_r.
      symmetry. apply blocks_prefix. lia. }
  rewrite length_drop. destruct (Nat.ltb_spec 0 (length data - 64 * n)%nat) as [L|L].
  - assert (drop (64 * (q + n)) (msg ++ data) = take r (h_buf c) ++ drop (64 * n) data) as ED.
    { rewrite Ht. destruct (Nat.eq_dec r 0%nat) as [E|E].
      - rewrite (drop_ge msg), drop_app_ge by lia. cbn [app]. f_equal. lia.
      - replace n with 0%nat by lia. rewrite Nat.add_0_r, drop_app_le by lia. by rewrite Nat.mul_0_r, drop_0. }
    split; cbn [h_bytes h_buf h_s]; rewrite ?E1, ?E2.
    + rewrite add_bytes_absorbed, length_app. f_equal. f_equal. lia.
    + unfold buf_write. rewrite !length_app, length_take, !length_drop. lia.
    + exact ES.
    + unfold buf_write. rewrite ED, app_assoc. apply take_app_length'. rewrite length_app, length_take, length_drop. lia.
  - split; cbn [h_bytes h_buf h_s]; rewrite ?E1, ?E2; [|done|exact ES|].
    + rewrite length_app. f_equal. f_equal. lia.
    + destruct (Nat.eq_dec (length data) 0%nat) as [E0|E0].
      * destruct data; [|cbn in E0; lia]. rewrite app_nil_r. replace n with 0%nat by (cbn in *; lia).
        rewrite Nat.add_0_r. cbn [length]. rewrite Nat.add_0_r, Nat.sub_0_r. exact Ht.
      * replace (r + length data - 64 * n)%nat with 0%nat by lia.
        rewrite take_0, drop_ge; [done|]. rewrite length_app. lia.
Qed.

Lemma stream_Write_absorbed c msg data : absorbed c msg -> absorbed (Write c data) (msg ++ data).
Proof.
  intros H. unfold Stream.Write. rewrite (ab_bytes _ _ H), wrapu64_mod64.
  destruct (Nat.eqb_spec (length msg mod 64)%nat 0) as [E|E],
    (Nat.leb_spec 64 (length msg mod 64 + length data)%nat) as [L|L]; cbn [negb andb].
  1,2,4: apply stream_write_rest_absorbed; auto; lia.
  set (d1 := take (64 - length msg mod 64) data).
  assert (length d1 = 64 - length msg mod 64)%nat as L1 by (unfold d1; rewrite length_take; lia).
  replace (msg ++ data) with (msg ++ d1 ++ drop (64 - length msg mod 64) data)
    by (unfold d1; by rewrite take_drop). rewrite app_assoc.
  assert (length (msg ++ d1) mod 64 = 0)%nat as E0 by (rewrite length_app; lia).
  pose proof (stream_absorb_fill c msg d1 H E L1) as H1. cbn zeta in H1.
  pose proof (stream_write_rest_absorbed _ _ (drop (64 - length msg mod 64) data) H1 (or_introl E0)) as H2.
  rewrite E0, L1, (ab_bytes _ _ H) in H2. exact H2.
Qed.

Lemma stream_Writes_absorbed chunks c msg : absorbed c msg -> absorbed (foldl Write c chunks) (msg ++ mjoin chunks).
Proof.
  revert c msg. induction chunks as [|d chunks IH]; intros c msg H; cbn; [by rewrite app_nil_r|].
  rewrite app_assoc. by apply IH, stream_Write_absorbed.
Qed.

Context (WriteSize : Z -> bytes) (digest : words5 -> bytes).

Lemma stream_Finalize_absorbed c msg : absorbed c msg -> (Finalize Transform WriteSize digest c).1 = hash Transform WriteSize digest msg.
Proof.
  intros H. unfold Stream.Finalize. cbn [fst]. set (p1 := take _ pad). set (p2 := WriteSize _).
  pose proof (stream_Write_absorbed _ _ p2 (stream_Write_absorbed _ _ p1 H)) as H2. rewrite (ab_state _ _ H2).
  assert ((msg ++ p1) ++ p2 = padded WriteSize msg) as ->; [|done].
  unfold p1, p2, padded. rewrite (ab_bytes _ _ H), wrapu_shift3.
  replace (wrapu 64 (Z.of_nat (length msg)) mod 64) with (Z.of_nat (length msg) mod 64); cycle 1.
  { pose proof (wrapu64_mod64 (length msg)). unfold wrapu in *.
    pose proof (Z.mod_pos_bound (Z.of_nat (length msg)) (2 ^ 64)). lia. }
  by rewrite pad_take, <- app_assoc by lia.
Qed.

End Facts.

(** RIPEMD-160 and SHA-1 do not depend on how a message is written: whatever
    an uninitialised or reused buffer holds, writing chunks of any sizes and
    finalising gives the hash of the concatenation. *)
Theorem hash160_streaming (garbage : bytes) (chunks : list bytes) : length garbage = 64%nat ->
  (CRIPEMD160_Finalize (foldl CRIPEMD160_Write (new garbage) chunks)).1 = ripemd160_hash (mjoin chunks) /\
  (CSHA1_Finalize (foldl CSHA1_Write (new garbage) chunks)).1 = sha1_hash (mjoin chunks).
Proof.
  intros Hg. assert (forall T, absorbed T (new garbage) []) as H by (intros T; by split).
  split; apply stream_Finalize_absorbed, (stream_Writes_absorbed _ chunks _ [] (H _)).
Qed.

Lemma hash160_streaming_witness :
  (CRIPEMD160_Finalize (foldl CRIPEMD160_Write (new (replicate 64 7)) [[1; 2]; replicate 150 3; []])).1
  = ripemd160_hash ([1; 2] ++ replicate 150 3).
Proof. apply (hash160_streaming (replicate 64 7) [[1; 2]; replicate 150 3; []]). reflexivity. Defined.

Lemma all_bytes_le32 x l : all_bytes l = true -> all_bytes (le_bytes 4 x ++ l) = true.
Proof. intros H. by rewrite all_bytes_app, H, le_bytes_all_bytes. Qed.

Lemma ripemd160_hash_digest v : length (ripemd160_hash v) = 20%nat /\ all_bytes (ripemd160_hash v) = true.
Proof. split; [done|]. unfold ripemd160_hash, hash, Ripemd160.digest. do 4 apply all_bytes_le32. apply le_bytes_all_bytes. Qed.

Lemma sha1_hash_digest v : length (sha1_hash v) = 20%nat /\ all_bytes (sha1_hash v) = true.
Proof.
  split; [done|]. unfold sha1_hash, hash, Sha1.digest, WriteBE32.
  by rewrite !all_bytes_app, !all_bytes_rev, !le_bytes_all_bytes.
Qed.

End StreamFacts.
