(* ===== verification/NetAddress.v ===== *)
(** Network addresses (netaddress.h, netaddress.cpp): the 16-byte [CNetAddr]
    with its range predicates, grouping and reachability, [CService] with its
    port and wire format, and [CSubNet] masks.  Name resolution, printing and
    the socket structures are not modelled. *)

From S2P Require Import Prelude Serialize.

(** [Network]; [NET_UNKNOWN] and [NET_TEREDO] are the private extensions
    returned by [GetExtNetwork]. *)
Inductive Network :=
| NET_UNROUTABLE | NET_IPV4 | NET_IPV6 | NET_TOR | NET_INTERNAL
| NET_UNKNOWN | NET_TEREDO.

Definition network_code (n : Network) : Z :=
  match n with
  | NET_UNROUTABLE => 0 | NET_IPV4 => 1 | NET_IPV6 => 2 | NET_TOR => 3 | NET_INTERNAL => 4
  | NET_UNKNOWN => 5 | NET_TEREDO => 6
  end.

Record CNetAddr := MkNetAddr { ip : bytes; scopeId : Z }.

Definition pchIPv4 : bytes := [0; 0; 0; 0; 0; 0; 0; 0; 0; 0; 0xff; 0xff].
Definition pchOnionCat : bytes := [0xFD; 0x87; 0xD8; 0x7E; 0xEB; 0x43].
Definition g_internal_prefix : bytes := [0xFD; 0x6B; 0x88; 0xC0; 0x87; 0x24].

(** [memcmp(ip, p, sizeof(p)) == 0]. *)
Definition has_prefix (p b : bytes) : bool := bytes_eq (take (length p) b) p.

Module CNetAddr.

Definition Init : CNetAddr := MkNetAddr (replicate 16 0) 0.
Definition SetIP (a ipIn : CNetAddr) : CNetAddr := MkNetAddr ipIn.(ip) a.(scopeId).
(** [None]: the assertion on the network. *)
Definition SetRaw (a : CNetAddr) (network : Network) (ip_in : bytes) : option CNetAddr :=
  match network with
  | NET_IPV4 => Some (MkNetAddr (pchIPv4 ++ take 4 ip_in) a.(scopeId))
  | NET_IPV6 => Some (MkNetAddr (take 16 ip_in) a.(scopeId))
  | _ => None
  end.

Section Predicates.
Variable a : CNetAddr.

Definition GetByte (n : nat) : Z := a.(ip) !!! (15 - n)%nat.
Definition byte_is (n : nat) (v : Z) : bool := GetByte n =? v.

Definition IsIPv4 : bool := has_prefix pchIPv4 a.(ip).
Definition IsTor : bool := has_prefix pchOnionCat a.(ip).
Definition IsInternal : bool := has_prefix g_internal_prefix a.(ip).
Definition IsIPv6 : bool := negb IsIPv4 && negb IsTor && negb IsInternal.
Definition IsRFC1918 : bool :=
  IsIPv4 && (byte_is 3 10 ||
             (byte_is 3 192 && byte_is 2 168) ||
             (byte_is 3 172 && ((16 <=? GetByte 2) && (GetByte 2 <=? 31)))).
Definition IsRFC2544 : bool := IsIPv4 && byte_is 3 198 && (byte_is 2 18 || byte_is 2 19).
Definition IsRFC3927 : bool := IsIPv4 && (byte_is 3 169 && byte_is 2 254).
Definition IsRFC6598 : bool :=
  IsIPv4 && byte_is 3 100 && (64 <=? GetByte 2) && (GetByte 2 <=? 127).
Definition IsRFC5737 : bool :=
  IsIPv4 && ((byte_is 3 192 && byte_is 2 0 && byte_is 1 2) ||
             (byte_is 3 198 && byte_is 2 51 && byte_is 1 100) ||
             (byte_is 3 203 && byte_is 2 0 && byte_is 1 113)).
Definition IsRFC3849 : bool :=
  byte_is 15 0x20 && byte_is 14 0x01 && byte_is 13 0x0D && byte_is 12 0xB8.
Definition IsRFC3964 : bool := byte_is 15 0x20 && byte_is 14 0x02.
Definition IsRFC6052 : bool := has_prefix [0; 0x64; 0xFF; 0x9B; 0; 0; 0; 0; 0; 0; 0; 0] a.(ip).
Definition IsRFC4380 : bool := byte_is 15 0x20 && byte_is 14 0x01 && byte_is 13 0 && byte_is 12 0.
Definition IsRFC4862 : bool := has_prefix [0xFE; 0x80; 0; 0; 0; 0; 0; 0] a.(ip).
Definition IsRFC4193 : bool := Z.land (GetByte 15) 0xFE =? 0xFC.
Definition IsRFC6145 : bool := has_prefix [0; 0; 0; 0; 0; 0; 0; 0; 0xFF; 0xFF; 0; 0] a.(ip).
Definition IsRFC4843 : bool :=
  byte_is 15 0x20 && byte_is 14 0x01 && byte_is 13 0x00 && (Z.land (GetByte 12) 0xF0 =? 0x10).

Definition IsLocal : bool :=
  (IsIPv4 && (byte_is 3 127 || byte_is 3 0)) ||
  has_prefix [0; 0; 0; 0; 0; 0; 0; 0; 0; 0; 0; 0; 0; 0; 0; 1] a.(ip).

Definition IsValid : bool :=
  if has_prefix (drop 3 pchIPv4) a.(ip) then false
  else if has_prefix (replicate 16 0) a.(ip) then false
  else if IsRFC3849 then false
  else if IsInternal then false
  else if IsIPv4 then
    if has_prefix [0xff; 0xff; 0xff; 0xff] (drop 12 a.(ip)) then false
    else if has_prefix [0; 0; 0; 0] (drop 12 a.(ip)) then false
    else true
  else true.

Definition IsRoutable : bool :=
  IsValid && negb (IsRFC1918 || IsRFC2544 || IsRFC3927 || IsRFC4862 || IsRFC6598 || IsRFC5737
    || (IsRFC4193 && negb IsTor) || IsRFC4843 || IsLocal || IsInternal).

Definition GetNetwork : Network :=
  if IsInternal then NET_INTERNAL
  else if negb IsRoutable then NET_UNROUTABLE
  else if IsIPv4 then NET_IPV4
  else if IsTor then NET_TOR
  else NET_IPV6.

Definition GetInAddr : option bytes := if negb IsIPv4 then None else Some (take 4 (drop 12 a.(ip))).
Definition GetIn6Addr : bytes := a.(ip).

(** The class, start byte and bit count that [GetGroup] chooses; the Teredo case
    returns early. *)
Inductive group_choice :=
| GroupBits (nClass : Z) (nStartByte nBits : nat)
| GroupTeredo.

Definition group_choose : group_choice :=
  let '(c0, n0) := if IsLocal then (255, 0%nat) else (network_code NET_IPV6, 16%nat) in
  if IsInternal then GroupBits (network_code NET_INTERNAL) 6 80
  else if negb IsRoutable then GroupBits (network_code NET_UNROUTABLE) 0 0
  else if IsIPv4 || IsRFC6145 || IsRFC6052 then GroupBits (network_code NET_IPV4) 12 n0
  else if IsRFC3964 then GroupBits (network_code NET_IPV4) 2 n0
  else if IsRFC4380 then GroupTeredo
  else if IsTor then GroupBits (network_code NET_TOR) 6 4
  else if byte_is 15 0x20 && byte_is 14 0x01 && byte_is 13 0x04 && byte_is 12 0x70
  then GroupBits c0 0 36
  else GroupBits c0 0 32.

(** [while (nBits >= 8)]. *)
Fixpoint group_bytes (fuel : nat) (nStartByte nBits : nat) : bytes :=
  match fuel with
  | O => []
  | S fuel' =>
    if (8 <=? nBits)%nat
    then GetByte (15 - nStartByte) :: group_bytes fuel' (S nStartByte) (nBits - 8)
    else if (0 <? nBits)%nat
    then [Z.lor (GetByte (15 - nStartByte)) (Z.shiftl 1 (8 - Z.of_nat nBits) - 1)]
    else []
  end.

Definition GetGroup : bytes :=
  match group_choose with
  | GroupTeredo => [network_code NET_IPV4; Z.lxor (GetByte 3) 0xFF; Z.lxor (GetByte 2) 0xFF]
  | GroupBits nClass nStartByte nBits => nClass :: group_bytes 17 nStartByte nBits
  end.

End Predicates.

Definition eqb (a b : CNetAddr) : bool := bytes_eq a.(ip) b.(ip).
Definition ltb (a b : CNetAddr) : bool := bytes_le a.(ip) b.(ip) && negb (bytes_eq a.(ip) b.(ip)).

Definition GetExtNetwork (addr : option CNetAddr) : Network :=
  match addr with
  | None => NET_UNKNOWN
  | Some a => if IsRFC4380 a then NET_TEREDO else GetNetwork a
  end.

Inductive Reachability :=
| REACH_UNREACHABLE | REACH_DEFAULT | REACH_TEREDO | REACH_IPV6_WEAK
| REACH_IPV4 | REACH_IPV6_STRONG | REACH_PRIVATE.

Definition GetReachabilityFrom (a : CNetAddr) (paddrPartner : option CNetAddr) : Reachability :=
  if negb (IsRoutable a) || IsInternal a then REACH_UNREACHABLE
  else
    let ourNet := GetExtNetwork (Some a) in
    let theirNet := GetExtNetwork paddrPartner in
    let fTunnel := IsRFC3964 a || IsRFC6052 a || IsRFC6145 a in
    match theirNet with
    | NET_IPV4 => match ourNet with NET_IPV4 => REACH_IPV4 | _ => REACH_DEFAULT end
    | NET_IPV6 =>
        match ourNet with
        | NET_TEREDO => REACH_TEREDO
        | NET_IPV4 => REACH_IPV4
        | NET_IPV6 => if fTunnel then REACH_IPV6_WEAK else REACH_IPV6_STRONG
        | _ => REACH_DEFAULT
        end
    | NET_TOR =>
        match ourNet with
        | NET_IPV4 => REACH_IPV4 | NET_TOR => REACH_PRIVATE | _ => REACH_DEFAULT
        end
    | NET_TEREDO =>
        match ourNet with
        | NET_TEREDO => REACH_TEREDO | NET_IPV6 => REACH_IPV6_WEAK | NET_IPV4 => REACH_IPV4
        | _ => REACH_DEFAULT
        end
    | _ =>
        match ourNet with
        | NET_TEREDO => REACH_TEREDO | NET_IPV6 => REACH_IPV6_WEAK | NET_IPV4 => REACH_IPV4
        | NET_TOR => REACH_PRIVATE | _ => REACH_DEFAULT
        end
    end.

End CNetAddr.

(** ** [CService] *)

Record CService := MkService { addr : CNetAddr; port : Z }.

Module CService.

Definition Init : CService := MkService CNetAddr.Init 0.
Definition eqb (a b : CService) : bool := CNetAddr.eqb a.(addr) b.(addr) && (a.(port) =? b.(port)).
Definition ltb (a b : CService) : bool :=
  CNetAddr.ltb a.(addr) b.(addr) ||
  (CNetAddr.eqb a.(addr) b.(addr) && (a.(port) <? b.(port))).
Definition GetKey (s : CService) : bytes :=
  s.(addr).(ip) ++ [s.(port) / 0x100; Z.land s.(port) 0x0FF].

(** [FLATDATA(ip)], then the port in network byte order; the scope id of the
    object read into is that of a default constructed one. *)
Definition codec : Codec CService :=
  isoc (pairc (flat 16) u16be)
    (fun p => MkService (MkNetAddr p.1 0) p.2) (fun s => (s.(addr).(ip), s.(port))).

Definition valid (s : CService) : bool :=
  valid_flat 16 s.(addr).(ip) && in_u 16 s.(port) && (s.(addr).(scopeId) =? 0).

End CService.

(** ** [CSubNet] *)

Record CSubNet := MkSubNet { network : CNetAddr; netmask : bytes; subnet_valid : bool }.

Module CSubNet.

(** [netmask[n>>3] &= ~(1<<(7-(n&7)))] for [n] up to 127. *)
Fixpoint clear_bits (fuel : nat) (n : nat) (mask : bytes) : bytes :=
  match fuel with
  | O => mask
  | S fuel' =>
    clear_bits fuel' (S n)
      (alter (fun m => Z.land m (Z.lnot (Z.shiftl 1 (7 - Z.of_nat (n mod 8))))) (n / 8)%nat mask)
  end.

Definition normalize (a : CNetAddr) (mask : bytes) : CNetAddr :=
  MkNetAddr (zip_with Z.land a.(ip) mask) a.(scopeId).

Definition of_prefix (a : CNetAddr) (mask : Z) : CSubNet :=
  let astartofs := if CNetAddr.IsIPv4 a then 12 else 0 in
  let full := replicate 16 255 in
  if (0 <=? mask) && (mask <=? 128 - astartofs * 8) then
    let n := Z.to_nat (mask + astartofs * 8) in
    let m := clear_bits (128 - n) n full in
    MkSubNet (normalize a m) m true
  else MkSubNet (normalize a full) full false.

Definition of_mask (a mask : CNetAddr) : CSubNet :=
  let astartofs := if CNetAddr.IsIPv4 a then 12%nat else 0%nat in
  let m := take astartofs (replicate 16 255) ++ drop astartofs mask.(ip) in
  MkSubNet (normalize a m) m true.

Definition of_addr (a : CNetAddr) : CSubNet :=
  MkSubNet a (replicate 16 255) (CNetAddr.IsValid a).

Definition Match (s : CSubNet) (a : CNetAddr) : bool :=
  if negb s.(subnet_valid) || negb (CNetAddr.IsValid a) then false
  else bytes_eq (zip_with Z.land a.(ip) s.(netmask)) s.(network).(ip).

Definition eqb (a b : CSubNet) : bool :=
  Bool.eqb a.(subnet_valid) b.(subnet_valid) && CNetAddr.eqb a.(network) b.(network)
  && bytes_eq a.(netmask) b.(netmask).

End CSubNet.

(** ** Prefixes *)

Lemma has_prefix_spec p b : has_prefix p b = true <-> exists r, b = p ++ r.
Proof.
  unfold has_prefix. rewrite bytes_eq_spec. split.
  - intros H. exists (drop (length p) b). by rewrite <- H at 1; rewrite take_drop.
  - intros [r ->]. by rewrite take_app_length.
Qed.

#[export] Instance CNetAddr_eq_dec : EqDecision CNetAddr.
Proof. solve_decision. Defined.
#[export] Instance CService_eq_dec : EqDecision CService.
Proof. solve_decision. Defined.

(** ** The wire format of [CService] *)

#[export] Instance CService_ok : CodecOk CService.codec CService.valid.
Proof.
  unfold CService.codec. eapply isoc_ok; [apply _|]. intros [[i sc] p]. unfold CService.valid.
  cbn. intros H. apply andb_true_iff in H as [H Hsc]. apply Z.eqb_eq in Hsc as ->. done.
Qed.

#[export] Instance CService_exact : CodecExact CService.codec CService.valid.
Proof.
  unfold CService.codec. eapply isoc_exact; [apply _|]. intros [i p]. unfold CService.valid, valid_pair.
  cbn. intros ->. done.
Qed.

(** On well-formed services the C++ equality, which ignores the scope id, is
    equality. *)
Lemma CService_eqb_spec a b : CService.valid a = true -> CService.valid b = true ->
  CService.eqb a b = true <-> a = b.
Proof.
  destruct a as [[ia sa] pa], b as [[ib sb] pb]. unfold CService.valid, CService.eqb, CNetAddr.eqb. cbn.
  rewrite !andb_true_iff, bytes_eq_spec, !Z.eqb_eq. intros [_ ->] [_ ->].
  split; [by intros [-> ->]|by intros [= -> ->]].
Qed.

(** ** Subnets *)

(** Bit [k] of an address or mask, counted from the most significant. *)
Definition bit_at (b : bytes) (k : nat) : bool := Z.testbit (b !!! (k / 8)%nat) (7 - Z.of_nat (k mod 8)).

Lemma byte_bits_eq x y : 0 <= x < 256 -> 0 <= y < 256 ->
  (forall j, (j < 8)%nat -> Z.testbit x (7 - Z.of_nat j) = Z.testbit y (7 - Z.of_nat j)) -> x = y.
Proof.
  intros Hx Hy H. apply Z.bits_inj'. intros n Hn. destruct (Z.lt_ge_cases n 8).
  - specialize (H (Z.to_nat (7 - n))). rewrite Z2Nat.id in H by lia.
    replace (7 - (7 - n)) with n in H by lia. apply H. lia.
  - rewrite <- (Z.mod_small x (2 ^ 8)), <- (Z.mod_small y (2 ^ 8)) by lia.
    rewrite !Z.mod_pow2_bits_high by lia. done.
Qed.

Lemma valid_flat_byte n b i : valid_flat n b = true -> 0 <= b !!! i < 256.
Proof.
  unfold valid_flat, all_bytes. intros H. apply andb_true_iff in H as [_ H].
  rewrite forallb_forall in H. destruct (b !! i) as [x|] eqn:E.
  - rewrite (list_lookup_total_correct _ _ _ E). apply is_byte_spec, H.
    apply list_elem_of_In. by eapply list_elem_of_lookup_2.
  - rewrite list_lookup_total_alt, E. cbn. change (inhabitant : Z) with 0. lia.
Qed.

Lemma bits_ext a b : valid_flat 16 a = true -> valid_flat 16 b = true ->
  (forall k, (k < 128)%nat -> bit_at a k = bit_at b k) -> a = b.
Proof.
  intros Ha Hb H. assert (length a = 16%nat /\ length b = 16%nat) as [La Lb].
  { unfold valid_flat in *. lia. }
  apply list_eq. intros i. destruct (Nat.lt_ge_cases i 16); cycle 1.
  { rewrite !lookup_ge_None_2 by lia. done. }
  rewrite !list_lookup_lookup_total_lt by lia. f_equal.
  apply byte_bits_eq; try (by eapply valid_flat_byte).
  intros j Hj. specialize (H (8 * i + j)%nat). unfold bit_at in H.
  replace ((8 * i + j) / 8)%nat with i in H by (rewrite Nat.mul_comm, Nat.div_add_l, Nat.div_small; lia).
  replace ((8 * i + j) mod 8)%nat with j in H
    by (rewrite Nat.mul_comm, Nat.add_comm, Nat.Div0.mod_add, Nat.mod_small; lia).
  apply H. lia.
Qed.

Lemma zip_land_lookup a m i : length a = length m ->
  zip_with Z.land a m !!! i = Z.land (a !!! i) (m !!! i).
Proof.
  intros Hl. rewrite !list_lookup_total_alt, lookup_zip_with.
  destruct (a !! i) eqn:Ea, (m !! i) eqn:Em; cbn; try done.
  - apply lookup_ge_None in Em. apply lookup_lt_Some in Ea. lia.
  - apply lookup_ge_None in Ea. apply lookup_lt_Some in Em. lia.
Qed.

Lemma land_byte y z : 0 <= y < 256 -> 0 <= Z.land y z < 256.
Proof.
  intros H. rewrite <- (Z.mod_small y (2 ^ 8)) by lia.
  rewrite <- Z.land_ones, <- Z.land_assoc, (Z.land_comm (Z.ones 8)), Z.land_assoc, Z.land_ones by lia.
  apply (Z.mod_pos_bound _ (2 ^ 8)). lia.
Qed.

Lemma zip_land_valid a m : valid_flat 16 a = true -> valid_flat 16 m = true ->
  valid_flat 16 (zip_with Z.land a m) = true.
Proof.
  unfold valid_flat, all_bytes. rewrite !andb_true_iff, length_zip_with, !forallb_forall, !Nat.eqb_eq.
  intros [La Ha] [Lm Hm]. split; [lia|]. intros x Hx. apply list_elem_of_In, elem_of_lookup_zip_with in Hx
    as (i & y & z & -> & Hy & Hz).
  assert (0 <= y < 256) as Ry by (apply is_byte_spec, Ha, list_elem_of_In; by eapply list_elem_of_lookup_2).
  apply is_byte_spec, land_byte. done.
Qed.

Lemma zip_land_bit a m k : length a = length m ->
  bit_at (zip_with Z.land a m) k = bit_at a k && bit_at m k.
Proof. intros Hl. unfold bit_at. rewrite zip_land_lookup by done. apply Z.land_spec. Qed.

(** One iteration of the clearing loop. *)
Lemma clear_bit_spec n m k : length m = 16%nat -> (n < 128)%nat ->
  bit_at (alter (fun x => Z.land x (Z.lnot (Z.shiftl 1 (7 - Z.of_nat (n mod 8))))) (n / 8)%nat m) k
  = bit_at m k && negb (k =? n)%nat.
Proof.
  intros Hl Hn. unfold bit_at.
  pose proof (Nat.mod_upper_bound n 8 ltac:(lia)). pose proof (Nat.mod_upper_bound k 8 ltac:(lia)).
  pose proof (Nat.div_mod n 8 ltac:(lia)). pose proof (Nat.div_mod k 8 ltac:(lia)).
  destruct (Nat.eq_dec (k / 8)%nat (n / 8)%nat) as [E|E].
  - rewrite E, list_lookup_total_alter_eq by (rewrite Hl; apply Nat.Div0.div_lt_upper_bound; lia).
    cbn beta. rewrite Z.land_spec, Z.lnot_spec by lia. f_equal. f_equal.
    rewrite Z.shiftl_1_l. destruct (Nat.eqb_spec k n) as [->|Hk].
    + by rewrite Z.pow2_bits_true by lia.
    + rewrite Z.pow2_bits_false by lia. done.
  - rewrite list_lookup_total_alter_ne by done. destruct (Nat.eqb_spec k n) as [->|Hk]; [done|].
    by rewrite andb_true_r.
Qed.

Lemma clear_bits_spec fuel n m k : length m = 16%nat -> (n + fuel <= 128)%nat ->
  bit_at (CSubNet.clear_bits fuel n m) k
  = bit_at m k && negb ((n <=? k) && (k <? n + fuel))%nat.
Proof.
  revert n m. induction fuel as [|fuel IH]; intros n m Hl Hn; cbn [CSubNet.clear_bits].
  - replace ((n <=? k) && (k <? n + 0))%nat with false by lia. by rewrite andb_true_r.
  - rewrite IH by (rewrite ?length_alter; lia). rewrite clear_bit_spec by (auto; lia).
    rewrite <- andb_assoc. f_equal. lia.
Qed.

Lemma clear_bits_valid fuel n m : valid_flat 16 m = true -> valid_flat 16 (CSubNet.clear_bits fuel n m) = true.
Proof.
  revert n m. induction fuel as [|fuel IH]; intros n m H; cbn [CSubNet.clear_bits]; [done|].
  apply IH. unfold valid_flat, all_bytes in *. apply andb_true_iff in H as [Hl Hb].
  rewrite length_alter, Hl. cbn. rewrite forallb_forall in *. intros x Hx.
  apply list_elem_of_In, list_elem_of_lookup in Hx as [i Hi].
  rewrite list_lookup_alter in Hi. case_decide; [|by apply Hb, list_elem_of_In; eapply list_elem_of_lookup_2].
  apply fmap_Some in Hi as (y & Ey & ->).
  assert (0 <= y < 256) as Ry by (apply is_byte_spec, Hb, list_elem_of_In; by eapply list_elem_of_lookup_2).
  by apply is_byte_spec, land_byte.
Qed.

Lemma full_mask_bit k : (k < 128)%nat -> bit_at (replicate 16 255) k = true.
Proof.
  intros Hk. unfold bit_at. rewrite lookup_total_replicate_2 by (apply Nat.Div0.div_lt_upper_bound; lia).
  pose proof (Nat.mod_upper_bound k 8 ltac:(lia)). change 255 with (Z.ones 8).
  apply Z.ones_spec_low. lia.
Qed.

(** The netmask that [CSubNet(addr, mask)] computes has exactly its first [n] bits set. *)
Lemma prefix_mask n : (n <= 128)%nat ->
  let m := CSubNet.clear_bits (128 - n) n (replicate 16 255) in
  valid_flat 16 m = true /\ forall k, (k < 128)%nat -> bit_at m k = (k <? n)%nat.
Proof.
  intros Hn. cbn zeta. split; [by apply clear_bits_valid|]. intros k Hk.
  rewrite clear_bits_spec by (rewrite ?length_replicate; lia). rewrite full_mask_bit by done. lia.
Qed.

Lemma masked_eq a x m n : valid_flat 16 a = true -> valid_flat 16 x = true -> valid_flat 16 m = true ->
  (n <= 128)%nat -> (forall k, (k < 128)%nat -> bit_at m k = (k <? n)%nat) ->
  zip_with Z.land x m = zip_with Z.land a m <-> forall k, (k < n)%nat -> bit_at x k = bit_at a k.
Proof.
  intros Ha Hx Hm Hn Hk.
  assert (length a = length m /\ length x = length m) as [La Lx] by (unfold valid_flat in *; lia).
  split.
  - intros E k Hkn. assert (bit_at (zip_with Z.land x m) k = bit_at (zip_with Z.land a m) k) as B by by rewrite E.
    rewrite !zip_land_bit, Hk in B by (done || lia).
    replace (k <? n)%nat with true in B by lia. by rewrite !andb_true_r in B.
  - intros H. apply bits_ext; [by apply zip_land_valid..|]. intros k Hlt.
    rewrite !zip_land_bit, Hk by done. destruct (Nat.ltb_spec k n); [by rewrite H|].
    by rewrite !andb_false_r.
Qed.

(** ** Properties *)

(** A subnet [addr/mask] built with a prefix length in range matches exactly
    the valid addresses that agree with [addr] on the leading [mask] bits of
    its family (the 96 leading bits of a mapped IPv4 address included); a
    length out of range gives a subnet that matches nothing. *)
Theorem subnet_match_prefix (a x : CNetAddr) (mask : Z) :
  valid_flat 16 a.(ip) = true -> valid_flat 16 x.(ip) = true ->
  let skip := if CNetAddr.IsIPv4 a then 96 else 0 in
  CSubNet.Match (CSubNet.of_prefix a mask) x = true <->
  0 <= mask <= 128 - skip /\ CNetAddr.IsValid x = true /\
  forall k, (Z.of_nat k < skip + mask) -> bit_at x.(ip) k = bit_at a.(ip) k.
Proof.
  intros Ha Hx. cbn zeta. unfold CSubNet.of_prefix.
  set (ofs := if CNetAddr.IsIPv4 a then 12 else 0).
  replace (if CNetAddr.IsIPv4 a then 96 else 0) with (8 * ofs) by (subst ofs; by case_match).
  assert (0 <= ofs <= 12) as Ho by (subst ofs; case_match; lia). clearbody ofs.
  destruct (Z.leb_spec 0 mask), (Z.leb_spec mask (128 - ofs * 8)); cbn [andb];
    unfold CSubNet.Match; cbn [subnet_valid netmask network CSubNet.normalize ip negb orb].
  2-4: split; [done|lia].
  set (n := Z.to_nat (mask + ofs * 8)). destruct (prefix_mask n) as [Hm Hk]; [lia|].
  destruct (CNetAddr.IsValid x); cbn [negb]; [|split; [done|by intros (_ & ? & _)]].
  rewrite bytes_eq_spec, (masked_eq a.(ip) x.(ip) _ n) by (auto; lia). split.
  - intros H'. split_and!; [lia|lia|done|]. intros k ?. apply H'. lia.
  - intros (_ & _ & H') k ?. apply H'. lia.
Qed.

Lemma subnet_match_prefix_witness :
  CSubNet.Match (CSubNet.of_prefix (MkNetAddr (pchIPv4 ++ [10; 1; 2; 3]) 0) 16)
    (MkNetAddr (pchIPv4 ++ [10; 1; 200; 9]) 0) = true.
Proof.
  apply subnet_match_prefix; [reflexivity|reflexivity|]. split; [vm_compute; split; discriminate|].
  split; [reflexivity|]. cbn [CNetAddr.IsIPv4]. intros k Hk. change (Z.of_nat k < 112) in Hk.
  do 112 (destruct k as [|k]; [reflexivity|]). lia.
Defined.
