(* ===== verification/Script.v ===== *)
(** Scripts (script/script.h, script/script.cpp): script numbers, pushes and the
    instruction decoder [GetOp2] with the functions that walk a script, and
    the output patterns, the asset patterns included.  Opcodes are their byte
    values; [opcodetype] names the ones that the interpreter gives a meaning. *)

From S2P Require Import Prelude Serialize.

Abbreviation CScript := (list Z) (only parsing).

(** Limits and opcodes are the numbers the header gives them. *)
Abbreviation MAX_SCRIPT_ELEMENT_SIZE := 520%Z (only parsing).
Abbreviation MAX_OPS_PER_SCRIPT := 201%Z (only parsing).
Abbreviation MAX_PUBKEYS_PER_MULTISIG := 20%Z (only parsing).
Abbreviation MAX_SCRIPT_SIZE := 10000%Z (only parsing).
Abbreviation MAX_STACK_SIZE := 1000%Z (only parsing).
Abbreviation LOCKTIME_THRESHOLD := 500000000%Z (only parsing).
Abbreviation OP_0 := 0x00%Z (only parsing).
Abbreviation OP_PUSHDATA1 := 0x4c%Z (only parsing).
Abbreviation OP_PUSHDATA2 := 0x4d%Z (only parsing).
Abbreviation OP_PUSHDATA4 := 0x4e%Z (only parsing).
Abbreviation OP_1NEGATE := 0x4f%Z (only parsing).
Abbreviation OP_RESERVED := 0x50%Z (only parsing).
Abbreviation OP_1 := 0x51%Z (only parsing).
Abbreviation OP_16 := 0x60%Z (only parsing).
Abbreviation OP_IF := 0x63%Z (only parsing).
Abbreviation OP_ENDIF := 0x68%Z (only parsing).
Abbreviation OP_RETURN := 0x6a%Z (only parsing).
Abbreviation OP_DUP := 0x76%Z (only parsing).
Abbreviation OP_EQUAL := 0x87%Z (only parsing).
Abbreviation OP_EQUALVERIFY := 0x88%Z (only parsing).
Abbreviation OP_HASH160 := 0xa9%Z (only parsing).
Abbreviation OP_CODESEPARATOR := 0xab%Z (only parsing).
Abbreviation OP_CHECKSIG := 0xac%Z (only parsing).
Abbreviation OP_CHECKSIGVERIFY := 0xad%Z (only parsing).
Abbreviation OP_CHECKMULTISIG := 0xae%Z (only parsing).
Abbreviation OP_CHECKMULTISIGVERIFY := 0xaf%Z (only parsing).
Abbreviation OP_NOP10 := 0xb9%Z (only parsing).
Abbreviation OP_RVN_ASSET := 0xc0%Z (only parsing).
Abbreviation OP_INVALIDOPCODE := 0xff%Z (only parsing).
Abbreviation MAX_OPCODE := 0xb9%Z (only parsing).

(** ** Script numbers *)

Module CScriptNum.

Inductive scriptnum_error := NumOverflow | NonMinimal.

Abbreviation nDefaultMaxNumSize := 4%Z (only parsing).

(** [while (absvalue)]: the bytes of a 64-bit magnitude; eight iterations are enough. *)
Fixpoint abs_bytes (fuel : nat) (absvalue : Z) : bytes :=
  match fuel with
  | O => []
  | S fuel' =>
    if absvalue =? 0 then []
    else Z.land absvalue 0xff :: abs_bytes fuel' (Z.shiftr absvalue 8)
  end.

(** [result.back() |= b] *)
Fixpoint or_back (b : Z) (l : bytes) : bytes :=
  match l with
  | [] => []
  | [x] => [Z.lor x b]
  | x :: l' => x :: or_back b l'
  end.

Definition back (l : bytes) : Z := List.last l 0.

Definition serialize (value : Z) : bytes :=
  if value =? 0 then []
  else
    let neg := value <? 0 in
    let absvalue := if neg then - value else value in
    let result := abs_bytes 8 absvalue in
    if negb (Z.land (back result) 0x80 =? 0) then result ++ [if neg then 0x80 else 0]
    else if neg then or_back 0x80 result
    else result.

(** [result |= static_cast<int64_t>(vch[i]) << 8*i] *)
Fixpoint or_bytes (i : Z) (vch : bytes) (result : Z) : Z :=
  match vch with
  | [] => result
  | b :: vch' => or_bytes (i + 1) vch' (Z.lor result (wraps 64 (Z.shiftl b (8 * i))))
  end.

Definition set_vch (vch : bytes) : Z :=
  match vch with
  | [] => 0
  | _ =>
    let result := or_bytes 0 vch 0 in
    if negb (Z.land (back vch) 0x80 =? 0)
    then - Z.land result (Z.lnot (Z.shiftl 0x80 (8 * (Z.of_nat (length vch) - 1))))
    else result
  end.

(** The constructor from a stack element. *)
Definition of_vch (vch : bytes) (fRequireMinimal : bool) (nMaxNumSize : Z) : result scriptnum_error Z :=
  if nMaxNumSize <? Z.of_nat (length vch) then Err NumOverflow
  else if fRequireMinimal && (0 <? length vch)%nat && (Z.land (back vch) 0x7f =? 0)
          && ((length vch <=? 1)%nat || (Z.land (vch !!! (length vch - 2)%nat) 0x80 =? 0))
  then Err NonMinimal
  else Ok (set_vch vch).

Definition getint (m_value : Z) : Z :=
  if 2 ^ 31 - 1 <? m_value then 2 ^ 31 - 1
  else if m_value <? - 2 ^ 31 then - 2 ^ 31
  else m_value.

End CScriptNum.

(** ** Building scripts *)

(** [operator<<(const std::vector<unsigned char>&)] *)
Definition push_bytes (s : CScript) (b : bytes) : CScript :=
  let n := Z.of_nat (length b) in
  s ++ (if n <? OP_PUSHDATA1 then [n]
        else if n <=? 0xff then [OP_PUSHDATA1; n]
        else if n <=? 0xffff then OP_PUSHDATA2 :: le_bytes 2 n
        else OP_PUSHDATA4 :: le_bytes 4 n) ++ b.

(** [operator<<(opcodetype)]; [None] is the exception on an opcode out of range. *)
Definition push_op (s : CScript) (opcode : Z) : option CScript :=
  if (opcode <? 0) || (0xff <? opcode) then None else Some (s ++ [opcode]).

Definition push_int64 (s : CScript) (n : Z) : CScript :=
  if (n =? -1) || ((1 <=? n) && (n <=? 16)) then s ++ [n + (OP_1 - 1)]
  else if n =? 0 then s ++ [OP_0]
  else push_bytes s (CScriptNum.serialize n).

(** ** Reading scripts *)

(** The size operand of a push: the size and what follows it. *)
Definition push_size (opcode : Z) (rest : bytes) : option (Z * bytes) :=
  let len := Z.of_nat (length rest) in
  if opcode <? OP_PUSHDATA1 then Some (opcode, rest)
  else if opcode =? OP_PUSHDATA1 then
    match rest with [] => None | n :: rest' => Some (n, rest') end
  else if opcode =? OP_PUSHDATA2 then
    if len <? 2 then None else Some (le_val (take 2 rest), drop 2 rest)
  else
    if len <? 4 then None else Some (le_val (take 4 rest), drop 4 rest).

(** [GetOp2] at the suffix [pc] of a script: the opcode, its operand and the
    suffix after it; [None] is the return value false. *)
Definition GetOp2 (pc : CScript) : option (Z * bytes * CScript) :=
  match pc with
  | [] => None
  | opcode :: rest =>
    if opcode <=? OP_PUSHDATA4 then
      '(nSize, rest') ← push_size opcode rest;
      if Z.of_nat (length rest') <? nSize then None
      else Some (opcode, take (Z.to_nat nSize) rest', drop (Z.to_nat nSize) rest')
    else if opcode =? OP_RVN_ASSET then Some (opcode, rest, [])
    else Some (opcode, [], rest)
  end.

(** [assert(opcode >= OP_1 && opcode <= OP_16)] is the option. *)
Definition DecodeOP_N (opcode : Z) : option Z :=
  if opcode =? OP_0 then Some 0
  else if (OP_1 <=? opcode) && (opcode <=? OP_16) then Some (opcode - (OP_1 - 1))
  else None.
Definition EncodeOP_N (n : Z) : option Z :=
  if (0 <=? n) && (n <=? 16) then Some (if n =? 0 then OP_0 else OP_1 + n - 1) else None.

(** The sequence of instructions up to the first one that does not decode, and
    whether the end of the script was reached.  Each instruction takes at
    least one byte, so the length of the script is enough fuel. *)
Fixpoint ops (fuel : nat) (pc : CScript) : list (Z * bytes) * bool :=
  match fuel, pc with
  | _, [] => ([], true)
  | O, _ => ([], false)
  | S fuel', _ =>
    match GetOp2 pc with
    | None => ([], false)
    | Some (opcode, vch, pc') => let '(l, ok) := ops fuel' pc' in ((opcode, vch) :: l, ok)
    end
  end.
Definition script_ops (s : CScript) : list (Z * bytes) * bool := ops (length s) s.

Fixpoint sigops (fAccurate : bool) (lastOpcode : Z) (l : list (Z * bytes)) : Z :=
  match l with
  | [] => 0
  | (opcode, _) :: l' =>
    (if (opcode =? OP_CHECKSIG) || (opcode =? OP_CHECKSIGVERIFY) then 1
     else if (opcode =? OP_CHECKMULTISIG) || (opcode =? OP_CHECKMULTISIGVERIFY) then
       if fAccurate && (OP_1 <=? lastOpcode) && (lastOpcode <=? OP_16)
       then default 0 (DecodeOP_N lastOpcode)
       else MAX_PUBKEYS_PER_MULTISIG
     else 0) + sigops fAccurate opcode l'
  end.

Definition GetSigOpCount (fAccurate : bool) (s : CScript) : Z :=
  sigops fAccurate OP_INVALIDOPCODE (script_ops s).1.

Definition at_ (s : CScript) (i : nat) : Z := s !!! i.
Definition size_is (s : CScript) (n : nat) : bool := (length s =? n)%nat.

Definition IsPayToPublicKeyHash (s : CScript) : bool :=
  size_is s 25 && (at_ s 0 =? OP_DUP) && (at_ s 1 =? OP_HASH160) && (at_ s 2 =? 0x14)
  && (at_ s 23 =? OP_EQUALVERIFY) && (at_ s 24 =? OP_CHECKSIG).

Definition IsPayToScriptHash (s : CScript) : bool :=
  size_is s 23 && (at_ s 0 =? OP_HASH160) && (at_ s 1 =? 0x14) && (at_ s 22 =? OP_EQUAL).

Definition IsPayToWitnessScriptHash (s : CScript) : bool :=
  size_is s 34 && (at_ s 0 =? OP_0) && (at_ s 1 =? 0x20).

Definition IsPayToPublicKey (s : CScript) : bool :=
  if size_is s 35 then ((at_ s 1 =? 0x02) || (at_ s 1 =? 0x03)) && (at_ s 34 =? OP_CHECKSIG)
  else if size_is s 67 then (at_ s 1 =? 0x04) && (at_ s 66 =? OP_CHECKSIG)
  else false.

Definition IsWitnessProgram (s : CScript) : option (Z * bytes) :=
  if (length s <? 4)%nat || (42 <? length s)%nat then None
  else if negb (at_ s 0 =? OP_0) && ((at_ s 0 <? OP_1) || (OP_16 <? at_ s 0)) then None
  else if at_ s 1 + 2 =? Z.of_nat (length s)
  then version ← DecodeOP_N (at_ s 0); Some (version, drop 2 s)
  else None.

Definition IsPushOnly (s : CScript) : bool :=
  let '(l, ok) := script_ops s in ok && forallb (fun p => negb (OP_16 <? p.1)) l.

Definition HasValidOps (s : CScript) : bool :=
  let '(l, ok) := script_ops s in
  ok && forallb (fun p => negb (MAX_OPCODE <? p.1)
                          && negb (MAX_SCRIPT_ELEMENT_SIZE <? Z.of_nat (length p.2))) l.

(** [GetSigOpCount(const CScript& scriptSig)] *)
Definition GetSigOpCountP2SH (s scriptSig : CScript) : Z :=
  if negb (IsPayToScriptHash s) then GetSigOpCount true s
  else
    let '(l, ok) := script_ops scriptSig in
    if negb ok || negb (forallb (fun p => negb (OP_16 <? p.1)) l) then 0
    else GetSigOpCount true (List.last (snd <$> l) []).

(** ** Deleting from scripts *)

(** [while (end() - pc >= b.size() && std::equal(b.begin(), b.end(), pc))] for a
    nonempty [b]; every round consumes input. *)
Fixpoint skip_matches (fuel : nat) (b pc : CScript) (nFound : Z) : Z * CScript :=
  match fuel with
  | O => (nFound, pc)
  | S fuel' =>
    if (length b <=? length pc)%nat && bytes_eq b (take (length b) pc)
    then skip_matches fuel' b (drop (length b) pc) (nFound + 1)
    else (nFound, pc)
  end.

(** The [do ... while (GetOp(pc, opcode))] loop: what it found, what it kept and
    the position [pc2] after the last match. *)
Fixpoint delete_loop (fuel : nat) (b pc result : CScript) (nFound : Z) : Z * CScript * CScript :=
  match fuel with
  | O => (nFound, result, pc)
  | S fuel' =>
    let '(nFound, pc2) := skip_matches (length pc) b pc nFound in
    match GetOp2 pc2 with
    | None => (nFound, result, pc2)
    | Some (_, _, pc') => delete_loop fuel' b pc' (result ++ take (length pc2 - length pc') pc2) nFound
    end
  end.

Definition FindAndDelete (s b : CScript) : Z * CScript :=
  match b with
  | [] => (0, s)
  | _ =>
    let '(nFound, result, pc2) := delete_loop (S (length s)) b s [] 0 in
    (nFound, if 0 <? nFound then result ++ pc2 else s)
  end.

(** ** Asset scripts *)

Abbreviation RVN_R := 114%Z (only parsing).
Abbreviation RVN_V := 118%Z (only parsing).
Abbreviation RVN_N := 110%Z (only parsing).
Abbreviation RVN_Q := 113%Z (only parsing).
Abbreviation RVN_T := 116%Z (only parsing).
Abbreviation RVN_O := 111%Z (only parsing).
Abbreviation TX_NEW_ASSET := 8%Z (only parsing).
Abbreviation TX_REISSUE_ASSET := 9%Z (only parsing).
Abbreviation TX_TRANSFER_ASSET := 10%Z (only parsing).

(** The type, the owner flag and the index where the asset data begins. *)
Definition asset_script_at (s : CScript) (index : nat) : option (Z * bool * nat) :=
  let start := (index + 1)%nat in
  if at_ s index =? RVN_T then Some (TX_TRANSFER_ASSET, false, start)
  else if (at_ s index =? RVN_Q) && (39 <? length s)%nat then Some (TX_NEW_ASSET, false, start)
  else if at_ s index =? RVN_O then Some (TX_NEW_ASSET, true, start)
  else if at_ s index =? RVN_R then Some (TX_REISSUE_ASSET, false, start)
  else None.

Definition IsAssetScript3 (s : CScript) : option (Z * bool * nat) :=
  if (31 <? length s)%nat && (at_ s 25 =? OP_RVN_ASSET) then
    if at_ s 27 =? RVN_R then
      if (at_ s 28 =? RVN_V) && (at_ s 29 =? RVN_N) then asset_script_at s 30 else None
    else
      if (at_ s 28 =? RVN_R) && (at_ s 29 =? RVN_V) && (at_ s 30 =? RVN_N)
      then asset_script_at s 31 else None
  else None.

Definition IsAssetScript (s : CScript) : bool := match IsAssetScript3 s with Some _ => true | None => false end.
Definition asset_kind (s : CScript) (f : Z -> bool -> bool) : bool :=
  match IsAssetScript3 s with Some (nType, fIsOwner, _) => f nType fIsOwner | None => false end.
Definition IsNewAsset (s : CScript) : bool := asset_kind s (fun t o => negb o && (t =? TX_NEW_ASSET)).
Definition IsOwnerAsset (s : CScript) : bool := asset_kind s (fun t o => o && (t =? TX_NEW_ASSET)).
Definition IsReissueAsset (s : CScript) : bool := asset_kind s (fun t _ => t =? TX_REISSUE_ASSET).
Definition IsTransferAsset (s : CScript) : bool := asset_kind s (fun t _ => t =? TX_TRANSFER_ASSET).

Definition IsNullAssetTxDataScript (s : CScript) : bool :=
  (23 <? length s)%nat && (at_ s 0 =? OP_RVN_ASSET) && (at_ s 1 =? 0x14).
Definition IsNullGlobalRestrictionAssetTxDataScript (s : CScript) : bool :=
  (6 <? length s)%nat && (at_ s 0 =? OP_RVN_ASSET) && (at_ s 1 =? OP_RESERVED)
  && (at_ s 2 =? OP_RESERVED).
Definition IsNullAssetVerifierTxDataScript (s : CScript) : bool :=
  (3 <? length s)%nat && (at_ s 0 =? OP_RVN_ASSET) && (at_ s 1 =? OP_RESERVED)
  && negb (at_ s 2 =? OP_RESERVED).
Definition IsNullAsset (s : CScript) : bool :=
  IsNullAssetTxDataScript s || IsNullGlobalRestrictionAssetTxDataScript s
  || IsNullAssetVerifierTxDataScript s.

(** ** Lemmas *)

(** Every instruction consumes input. *)
Lemma GetOp2_progress pc opcode vch pc' :
  GetOp2 pc = Some (opcode, vch, pc') -> (length pc' < length pc)%nat.
Proof.
  destruct pc as [|o rest]; [done|]. cbn [GetOp2 length].
  destruct (o <=? OP_PUSHDATA4).
  - unfold push_size. intros H. apply bind_Some in H as ([n rest'] & Hs & H).
    assert (length rest' <= length rest)%nat.
    { repeat case_match; simplify_eq; rewrite ?length_drop; cbn; lia. }
    case_match; simplify_eq. rewrite length_drop. lia.
  - case_match; intros; simplify_eq; cbn; lia.
Qed.

Lemma read_size (k : nat) n rest : 0 <= n < 256 ^ Z.of_nat k ->
  (Z.of_nat (length (le_bytes k n ++ rest)) <? Z.of_nat k) = false /\
  le_val (take k (le_bytes k n ++ rest)) = n /\ drop k (le_bytes k n ++ rest) = rest.
Proof.
  intros Hn. rewrite length_app, length_le_bytes.
  rewrite take_app_length', drop_app_length', le_val_le_bytes by (by rewrite length_le_bytes).
  rewrite Z.mod_small by done. split_and!; [lia|done|done].
Qed.

(** Taking the pushed bytes off the rest of the script. *)
Lemma take_operand (o : Z) (b rest : bytes) :
  (if Z.of_nat (length (b ++ rest)) <? Z.of_nat (length b) then None
   else Some (o, take (Z.to_nat (Z.of_nat (length b))) (b ++ rest),
              drop (Z.to_nat (Z.of_nat (length b))) (b ++ rest))) = Some (o, b, rest).
Proof.
  rewrite length_app, Nat2Z.inj_add, Nat2Z.id, take_app_length, drop_app_length.
  destruct (Z.ltb_spec (Z.of_nat (length b) + Z.of_nat (length rest)) (Z.of_nat (length b))); [lia|done].
Qed.

(** The decoder reads back what [operator<<] pushes. *)
Lemma GetOp2_push (b rest : bytes) : Z.of_nat (length b) < 2 ^ 32 ->
  exists opcode, GetOp2 (push_bytes [] b ++ rest) = Some (opcode, b, rest) /\ opcode <= OP_PUSHDATA4.
Proof.
  intros Hb. unfold push_bytes. cbn [app].
  pose proof (take_operand OP_PUSHDATA1 b rest) as E1. pose proof (take_operand OP_PUSHDATA2 b rest) as E2.
  pose proof (take_operand OP_PUSHDATA4 b rest) as E4.
  pose proof (take_operand (Z.of_nat (length b)) b rest) as E.
  set (n := Z.of_nat (length b)) in *. assert (0 <= n) by lia. clearbody n.
  destruct (Z.ltb_spec n 0x4c);
    [|destruct (Z.leb_spec n 0xff); [|destruct (Z.leb_spec n 0xffff)]].
  - exists n. split; [|lia]. rewrite <- app_assoc. cbn [app GetOp2].
    unfold push_size.
    destruct (Z.leb_spec n 0x4e); [|lia]. destruct (Z.ltb_spec n 0x4c); [|lia]. exact E.
  - exists 0x4c. split; [exact E1|lia].
  - exists 0x4d. split; [|lia]. destruct (read_size 2 n (b ++ rest)) as (F1 & F2 & F3); [simpl; lia|].
    rewrite <- app_assoc. cbn [app GetOp2 push_size].
    change (0x4d <=? OP_PUSHDATA4) with true. unfold push_size.
    change (0x4d <? OP_PUSHDATA1) with false. change (0x4d =? OP_PUSHDATA1) with false.
    change (0x4d =? OP_PUSHDATA2) with true. cbn iota.
    change 2 with (Z.of_nat 2). rewrite F1, F2, F3. exact E2.
  - exists 0x4e. split; [|lia]. destruct (read_size 4 n (b ++ rest)) as (F1 & F2 & F3); [simpl; lia|].
    rewrite <- app_assoc. cbn [app GetOp2 push_size].
    change (0x4e <=? OP_PUSHDATA4) with true. unfold push_size.
    change (0x4e <? OP_PUSHDATA1) with false. change (0x4e =? OP_PUSHDATA1) with false.
    change (0x4e =? OP_PUSHDATA2) with false. cbn iota.
    change 4 with (Z.of_nat 4). rewrite F1, F2, F3. exact E4.
Qed.

(** A push of at most 75 bytes is its length and the bytes. *)
Lemma push_bytes_short s v : (length v <= 75)%nat -> push_bytes s v = s ++ Z.of_nat (length v) :: v.
Proof. intros. unfold push_bytes. by replace (Z.of_nat (length v) <? 0x4c) with true by lia. Qed.

Lemma GetOp2_push_short v rest : (length v <= 75)%nat ->
  GetOp2 (push_bytes [] v ++ rest) = Some (Z.of_nat (length v), v, rest).
Proof.
  intros Hl. rewrite push_bytes_short by done.
  cbn [app GetOp2]. replace (Z.of_nat (length v) <=? 0x4e) with true by lia. unfold push_size.
  replace (Z.of_nat (length v) <? 0x4c) with true by lia. cbn [mbind option_bind]. apply take_operand.
Qed.

(** ** Script numbers: sign and magnitude *)

Module ScriptNumFacts.
Import CScriptNum.

Lemma le_val_app a b : le_val (a ++ b) = le_val a + 256 ^ Z.of_nat (length a) * le_val b.
Proof.
  induction a as [|x a IH]; [unfold le_val; cbn; lia|].
  cbn [app length]. change (le_val (x :: a ++ b)) with (x + 256 * le_val (a ++ b)).
  change (le_val (x :: a)) with (x + 256 * le_val a).
  rewrite IH, Nat2Z.inj_succ, Z.pow_succ_r by lia. lia.
Qed.

Lemma byte_testbit7 b : is_byte b = true -> (Z.land b 0x80 =? 0) = (b <? 128).
Proof.
  intros H. apply eqb_prop. revert b H. apply byte_cases. vm_compute. reflexivity.
Qed.

Lemma byte_low7 b : is_byte b = true -> Z.land b 0x7f = b mod 128.
Proof. intros _. apply (Z.land_ones b 7). lia. Qed.

Lemma or_sign b : 0 <= b < 128 -> Z.lor b 0x80 = b + 128.
Proof. intros. rewrite Z.lor_comm, (lor_disjoint 0x80 b 7); [lia|lia|lia|reflexivity]. Qed.

(** The or of shifted bytes is the little-endian value. *)
Lemma or_bytes_val vch : all_bytes vch = true -> forall i r, 0 <= i -> 0 <= r < 2 ^ (8 * i) ->
  i + Z.of_nat (length vch) <= 7 -> or_bytes i vch r = r + 2 ^ (8 * i) * le_val vch.
Proof.
  induction vch as [|b vch IH]; cbn [all_bytes forallb or_bytes length]; intros Hb i r Hi Hr Hl.
  { unfold le_val; cbn; lia. }
  apply andb_true_iff in Hb as [Hb%is_byte_spec Hv].
  change (le_val (b :: vch)) with (b + 256 * le_val vch).
  assert (2 ^ (8 * (i + 1)) = 256 * 2 ^ (8 * i)) as E.
  { replace (8 * (i + 1)) with (8 + 8 * i) by lia. rewrite Z.pow_add_r; lia. }
  assert (2 ^ (8 * (i + 1)) <= 2 ^ 56) by (apply Z.pow_le_mono_r; lia).
  rewrite Z.shiftl_mul_pow2 by lia.
  rewrite wraps_id by (cbn; nia).
  rewrite Z.lor_comm, (lor_disjoint _ r (8 * i)); [|lia|lia|by rewrite Z.mod_mul by lia].
  rewrite IH; [rewrite E; lia|done|lia|nia|lia].
Qed.

(** Clearing the top bit. *)
Lemma land_lnot_bit x k : 0 <= k -> 2 ^ k <= x < 2 * 2 ^ k -> Z.land x (Z.lnot (2 ^ k)) = x - 2 ^ k.
Proof.
  intros Hk Hx. rewrite <- Z.ldiff_land. remember (x - 2 ^ k) as y eqn:Ey.
  assert (0 <= y < 2 ^ k) as Hy by lia.
  assert (x = Z.lor (2 ^ k) y) as ->.
  { rewrite (lor_disjoint (2 ^ k) y k); [lia|lia|lia|]. apply Z.mod_same. lia. }
  clear Hx Ey.
  apply Z.bits_inj'. intros n Hn. rewrite Z.ldiff_spec, Z.lor_spec, Z.pow2_bits_eqb by lia.
  destruct (Z.eqb_spec k n) as [<-|]; cbn; [|by rewrite andb_true_r].
  symmetry. rewrite <- (Z.mod_small y (2 ^ k)) by lia. apply Z.mod_pow2_bits_high. lia.
Qed.

(** Splitting off the most significant byte. *)
Lemma set_vch_snoc body b : all_bytes (body ++ [b]) = true -> (length body < 7)%nat ->
  set_vch (body ++ [b]) = (if b <? 128 then 1 else -1) * (le_val body + 256 ^ Z.of_nat (length body) * (b mod 128)).
Proof.
  intros Hb Hl. unfold set_vch. destruct (body ++ [b]) as [|x l] eqn:E; [by destruct body|]. rewrite <- E in *.
  clear x l E. rewrite or_bytes_val; [|done|lia|cbn; lia|rewrite length_app; cbn; lia].
  unfold back. rewrite last_last, le_val_app.
  rewrite all_bytes_app in Hb. bool_to_prop. cbn in H0. rewrite andb_true_r in H0.
  rewrite byte_testbit7 by done. apply is_byte_spec in H0.
  apply le_val_bound in H. replace (le_val [b]) with b by (unfold le_val; cbn; lia).
  rewrite length_app. cbn [length]. replace (8 * (Z.of_nat (length body + 1) - 1)) with (8 * Z.of_nat (length body)) by lia.
  assert (256 ^ Z.of_nat (length body) = 2 ^ (8 * Z.of_nat (length body))) as E256.
  { change 256 with (2 ^ 8). rewrite <- Z.pow_mul_r by lia. done. }
  rewrite E256 in *. set (B := 2 ^ (8 * Z.of_nat (length body))) in *.
  assert (0 < B) by (apply Z.pow_pos_nonneg; lia).
  destruct (Z.ltb_spec b 128); cbn [negb].
  - rewrite (Z.mod_small b 128) by lia. change (2 ^ (8 * 0)) with 1. lia.
  - change (2 ^ (8 * 0)) with 1. rewrite Z.add_0_l, Z.mul_1_l.
    assert (b mod 128 = b - 128) as -> by (symmetry; apply (Z.mod_unique _ _ 1); lia).
    replace (Z.land _ _) with (le_val body + B * (b - 128)); [lia|].
    replace (Z.shiftl 128 _) with (2 ^ (7 + 8 * Z.of_nat (length body)))
      by (rewrite Z.shiftl_mul_pow2, Z.pow_add_r by lia; done).
    rewrite land_lnot_bit; rewrite ?Z.add_assoc, ?Z.pow_add_r by lia; fold B; change (2 ^ 7) with 128; nia.
Qed.

(** The magnitude bytes of a value whose top byte is not zero. *)
Lemma abs_bytes_le_val w : forall fuel, all_bytes w = true -> (length w <= fuel)%nat ->
  (w <> [] -> back w <> 0) -> abs_bytes fuel (le_val w) = w.
Proof.
  induction w as [|b w IH]; intros fuel Hb Hf Ht; [by destruct fuel|].
  destruct fuel as [|fuel]; [cbn in Hf; lia|]. cbn [abs_bytes].
  change (le_val (b :: w)) with (b + 256 * le_val w).
  cbn [all_bytes forallb] in Hb. apply andb_true_iff in Hb as [Hb%is_byte_spec Hw].
  pose proof (le_val_bound w Hw).
  assert (b + 256 * le_val w <> 0) as Hne.
  { destruct w as [|c w]; [unfold back in Ht; cbn in Ht; specialize (Ht ltac:(done)); unfold le_val; cbn; lia|].
    intros E. assert (le_val (c :: w) = 0) as E0 by lia.
    rewrite E0 in IH. specialize (IH (S (length w)) Hw ltac:(cbn; lia)).
    cbn [abs_bytes Z.eqb] in IH. discriminate IH. intros _. apply Ht. done. }
  destruct (Z.eqb_spec (b + 256 * le_val w) 0); [done|].
  change 0xff with (Z.ones 8). rewrite Z.land_ones, Z.shiftr_div_pow2 by lia. change (2 ^ 8) with 256.
  rewrite (Z.mul_comm 256), Z.div_add, Z.div_small, Z.mod_add, Z.mod_small by lia. f_equal.
  cbn [Z.add]. apply IH; [done|cbn in Hf; lia|]. intros Hn. specialize (Ht ltac:(done)).
  unfold back in *. by destruct w.
Qed.

(** The magnitude bytes of a number that fits in [fuel] bytes. *)
Lemma abs_bytes_spec fuel : forall a, 0 <= a < 256 ^ Z.of_nat fuel ->
  let w := abs_bytes fuel a in
  le_val w = a /\ all_bytes w = true /\ (w <> [] -> back w <> 0) /\ (w = [] -> a = 0).
Proof.
  induction fuel as [|fuel IH]; intros a Ha; cbn [abs_bytes].
  { cbn in Ha. cbv zeta. unfold le_val. cbn. repeat split; try done; lia. }
  destruct (Z.eqb_spec a 0) as [->|Hne]; [done|]. rewrite Nat2Z.inj_succ, Z.pow_succ_r in Ha by lia.
  change 0xff with (Z.ones 8). rewrite Z.land_ones, Z.shiftr_div_pow2 by lia. change (2 ^ 8) with 256.
  destruct (IH (a / 256)) as (Hv & Hb & Ht & Hz).
  { split; [apply Z.div_pos; lia|apply Z.div_lt_upper_bound; lia]. }
  set (w := abs_bytes fuel (a / 256)) in *. cbv zeta. pose proof (Z.mod_pos_bound a 256).
  change (le_val (a mod 256 :: w)) with (a mod 256 + 256 * le_val w).
  pose proof (Z.div_mod a 256). repeat split; [lia| |intros _|done].
  - cbn [all_bytes forallb]. apply andb_true_iff. split; [apply is_byte_spec; lia|done].
  - unfold back in *. destruct w; cbn [List.last] in *; [specialize (Hz eq_refl); lia|by apply Ht].
Qed.

Lemma or_back_snoc b l x : or_back b (l ++ [x]) = l ++ [Z.lor x b].
Proof.
  induction l as [|y l IH]; [done|]. cbn [app]. cbn [or_back]. rewrite IH.
  destruct l; done.
Qed.

Lemma snoc_cases {A} (l : list A) : l = [] \/ exists body x, l = body ++ [x].
Proof. destruct l using rev_ind; [by left|right; eauto]. Qed.

Lemma back_snoc body b : back (body ++ [b]) = b.
Proof. apply last_last. Qed.

Lemma pow_256 n : 0 <= n -> 256 ^ n = 2 ^ (8 * n).
Proof. intros. change 256 with (2 ^ 8). by rewrite <- Z.pow_mul_r by lia. Qed.

(** A stack element of at most [k] bytes is a number of magnitude below [2 ^ (8 k - 1)]. *)
Lemma set_vch_range vch k : all_bytes vch = true -> 1 <= k <= 7 -> Z.of_nat (length vch) <= k ->
  Z.abs (set_vch vch) < 2 ^ (8 * k - 1).
Proof.
  intros Hb Hk Hl. destruct (snoc_cases vch) as [->|(body & b & ->)].
  { cbn. apply Z.pow_pos_nonneg; lia. }
  rewrite length_app in Hl. cbn in Hl. rewrite set_vch_snoc by (done || lia).
  rewrite all_bytes_app in Hb. apply andb_true_iff in Hb as [Hb%le_val_bound _].
  rewrite pow_256 in * by lia. set (B := 2 ^ (8 * Z.of_nat (length body))) in *.
  pose proof (Z.mod_pos_bound b 128 ltac:(lia)).
  assert (128 * B <= 2 ^ (8 * k - 1)).
  { unfold B. change 128 with (2 ^ 7). rewrite <- Z.pow_add_r by lia. apply Z.pow_le_mono_r; lia. }
  destruct (b <? 128); nia.
Qed.

Lemma serialize_0 : serialize 0 = [].
Proof. done. Qed.

Lemma all_bytes_snoc body t : all_bytes (body ++ [t]) = true -> all_bytes body = true /\ is_byte t = true.
Proof. rewrite all_bytes_app, andb_true_iff. cbn. by rewrite andb_true_r. Qed.

Lemma le_val_1 t : le_val [t] = t.
Proof. unfold le_val. cbn. lia. Qed.

(** The encoding of a number given by its magnitude bytes and its sign. *)
Lemma serialize_bytes body t (neg : bool) : all_bytes (body ++ [t]) = true -> (length body < 8)%nat -> t <> 0 ->
  serialize ((if neg then -1 else 1) * le_val (body ++ [t]))
  = let sign := if neg then 128 else 0 in if t <? 128 then body ++ [t + sign] else body ++ [t; sign].
Proof.
  intros Hb Hl Ht. pose proof (abs_bytes_le_val (body ++ [t]) 8 Hb) as Hw.
  rewrite back_snoc, length_app in Hw. cbn [length] in Hw. specialize (Hw ltac:(lia) ltac:(done)).
  apply le_val_bound in Hb as Hv. apply all_bytes_snoc in Hb as [_ Hbt].
  set (v := le_val (body ++ [t])) in *. assert (v <> 0) by (intros E; rewrite E in Hw; by destruct body).
  unfold serialize. destruct (Z.eqb_spec ((if neg then -1 else 1) * v) 0); [destruct neg; lia|].
  replace (if (if neg then -1 else 1) * v <? 0 then _ else _) with v
    by (destruct neg; destruct (Z.ltb_spec (-1 * v) 0), (Z.ltb_spec (1 * v) 0); lia).
  replace ((if neg then -1 else 1) * v <? 0) with neg
    by (destruct neg; destruct (Z.ltb_spec (-1 * v) 0), (Z.ltb_spec (1 * v) 0); lia).
  rewrite Hw, back_snoc, byte_testbit7 by done. apply is_byte_spec in Hbt.
  destruct (Z.ltb_spec t 128); cbn [negb].
  - destruct neg; [by rewrite or_back_snoc, or_sign by lia|by rewrite Z.add_0_r].
  - by rewrite <- app_assoc.
Qed.

(** The magnitude bytes of a number, and its encoding. *)
Lemma serialize_shape n : n <> 0 -> Z.abs n < 2 ^ 63 -> exists body t,
  let sign := if n <? 0 then 128 else 0 in
  le_val (body ++ [t]) = Z.abs n /\ all_bytes (body ++ [t]) = true /\ t <> 0 /\
  serialize n = if t <? 128 then body ++ [t + sign] else body ++ [t; sign].
Proof.
  intros Hn Ha. destruct (abs_bytes_spec 8 (Z.abs n)) as (Hv & Hb & Ht & Hz); [cbn; lia|].
  destruct (snoc_cases (abs_bytes 8 (Z.abs n))) as [E|(body & t & E)]; [specialize (Hz E); lia|].
  exists body, t. rewrite E in *. rewrite back_snoc in Ht. specialize (Ht ltac:(by destruct body)).
  split; [done|]. split; [done|]. split; [done|].
  assert (length body < 8)%nat.
  { assert (length (abs_bytes 8 (Z.abs n)) <= 8)%nat as Hl; [|rewrite E, length_app in Hl; cbn in Hl; lia].
    clear. generalize 8%nat, (Z.abs n). intros f. induction f; intros x; cbn; [lia|].
    destruct (x =? 0); cbn; [lia|]. specialize (IHf (Z.shiftr x 8)). lia. }
  etransitivity; [|exact (serialize_bytes body t (n <? 0) Hb H Ht)]. f_equal. rewrite Hv.
  destruct (Z.ltb_spec n 0); lia.
Qed.

Lemma serialize_all_bytes n : Z.abs n < 2 ^ 63 -> all_bytes (serialize n) = true.
Proof.
  intros Ha. destruct (Z.eq_dec n 0) as [->|Hn]; [done|].
  destruct (serialize_shape n Hn Ha) as (body & t & _ & Hb & _ & ->).
  rewrite all_bytes_app in Hb. apply andb_true_iff in Hb as [Hb Ht].
  cbn in Ht. rewrite andb_true_r in Ht. pose proof Ht as Ht'. apply is_byte_spec in Ht'.
  destruct (Z.ltb_spec t 128); rewrite all_bytes_app, Hb; cbn; rewrite ?Ht, ?andb_true_r;
    apply is_byte_spec; destruct (n <? 0); lia.
Qed.

Lemma serialize_length n k : 1 <= k <= 8 -> Z.abs n < 2 ^ (8 * k - 1) -> Z.of_nat (length (serialize n)) <= k.
Proof.
  intros Hk Ha. destruct (Z.eq_dec n 0) as [->|Hn]; [cbn; lia|].
  assert (2 ^ (8 * k - 1) <= 2 ^ 63) by (apply Z.pow_le_mono_r; lia).
  destruct (serialize_shape n Hn ltac:(lia)) as (body & t & Hv & Hb & Ht & ->).
  rewrite all_bytes_app in Hb. apply andb_true_iff in Hb as [Hb Hbt].
  cbn in Hbt. rewrite andb_true_r in Hbt. apply is_byte_spec in Hbt. apply le_val_bound in Hb.
  rewrite le_val_app in Hv. replace (le_val [t]) with t in Hv by (unfold le_val; cbn; lia).
  rewrite pow_256 in * by lia. set (B := 2 ^ (8 * Z.of_nat (length body))) in *.
  destruct (Z.ltb_spec t 128); rewrite length_app; cbn [length].
  - destruct (Z.le_gt_cases (Z.of_nat (length body + 1)) k); [done|].
    assert (2 ^ (8 * k - 1) <= B) by (apply Z.pow_le_mono_r; lia). nia.
  - destruct (Z.le_gt_cases (Z.of_nat (length body + 2)) k); [done|].
    assert (2 ^ (8 * k - 1) <= 128 * B).
    { unfold B. change 128 with (2 ^ 7). rewrite <- Z.pow_add_r by lia. apply Z.pow_le_mono_r; lia. }
    nia.
Qed.

(** Reading an encoded number back. *)
Lemma set_vch_serialize n : Z.abs n < 2 ^ 55 -> set_vch (serialize n) = n.
Proof.
  intros Ha. destruct (Z.eq_dec n 0) as [->|Hn]; [done|].
  pose proof (serialize_length n 7 ltac:(lia) Ha) as Hl.
  pose proof (serialize_all_bytes n ltac:(lia)) as Hs.
  destruct (serialize_shape n Hn ltac:(lia)) as (body & t & Hv & Hb & Ht & E). rewrite E in *.
  rewrite all_bytes_app in Hb. apply andb_true_iff in Hb as [Hb Hbt].
  cbn in Hbt. rewrite andb_true_r in Hbt. apply is_byte_spec in Hbt.
  rewrite le_val_app in Hv. replace (le_val [t]) with t in Hv by (unfold le_val; cbn; lia).
  destruct (Z.ltb_spec t 128).
  - rewrite length_app in Hl. cbn in Hl. rewrite set_vch_snoc by (done || lia).
    destruct (Z.ltb_spec n 0).
    + replace ((t + 128) mod 128) with t by (apply (Z.mod_unique _ _ 1); lia).
      destruct (Z.ltb_spec (t + 128) 128); lia.
    + rewrite Z.add_0_r, Z.mod_small by lia. destruct (Z.ltb_spec t 128); lia.
  - rewrite length_app in Hl. cbn in Hl.
    replace (body ++ [t; if n <? 0 then 128 else 0]) with ((body ++ [t]) ++ [if n <? 0 then 128 else 0]) in *
      by (by rewrite <- app_assoc).
    rewrite set_vch_snoc by (done || rewrite length_app; cbn; lia).
    rewrite le_val_app. replace (le_val [t]) with t by (unfold le_val; cbn; lia).
    destruct (Z.ltb_spec n 0); [change (128 <? 128) with false; change (128 mod 128) with 0
                               |change (0 <? 128) with true; change (0 mod 128) with 0]; cbn iota; lia.
Qed.

(** What is written passes the minimality test. *)
Lemma serialize_minimal n : Z.abs n < 2 ^ 63 -> let v := serialize n in
  true && (0 <? length v)%nat && (Z.land (back v) 0x7f =? 0)
  && ((length v <=? 1)%nat || (Z.land (v !!! (length v - 2)%nat) 0x80 =? 0)) = false.
Proof.
  intros Ha. cbv zeta. destruct (Z.eq_dec n 0) as [->|Hn]; [done|].
  pose proof (serialize_all_bytes n Ha) as Hs.
  destruct (serialize_shape n Hn Ha) as (body & t & _ & Hb & Ht & E). cbv zeta in E. rewrite E in *. clear E.
  apply all_bytes_snoc in Hb as [_ Hbt]. pose proof (byte_testbit7 t Hbt) as E7. apply is_byte_spec in Hbt.
  destruct (Z.ltb_spec t 128).
  - apply all_bytes_snoc in Hs as [_ Hs]. rewrite back_snoc, byte_low7 by done.
    replace ((t + _) mod 128) with t; [|destruct (n <? 0); [apply (Z.mod_unique _ _ 1)|rewrite Z.add_0_r, Z.mod_small]; lia].
    destruct (Z.eqb_spec t 0); [done|]. by rewrite andb_false_r.
  - rewrite length_app. cbn [length]. replace (length body + 2 - 2)%nat with (length body) by lia.
    rewrite list_lookup_total_middle by done. rewrite E7.
    replace (length body + 2 <=? 1)%nat with false by (symmetry; apply Nat.leb_gt; lia). by rewrite andb_false_r.
Qed.

(** Reading back what was written, with and without the minimality rule. *)
Lemma of_vch_serialize n b k : 1 <= k <= 7 -> Z.abs n < 2 ^ (8 * k - 1) -> of_vch (serialize n) b k = Ok n.
Proof.
  intros Hk Hn. assert (2 ^ (8 * k - 1) <= 2 ^ 55) by (apply Z.pow_le_mono_r; lia).
  pose proof (serialize_length n k ltac:(lia) Hn). unfold of_vch.
  destruct (Z.ltb_spec k (Z.of_nat (length (serialize n)))); [lia|].
  rewrite set_vch_serialize by lia. destruct b; [|done]. by rewrite serialize_minimal by lia.
Qed.

(** Encodings that the minimality test lets through are the ones written. *)
Lemma serialize_set_vch vch : all_bytes vch = true -> (length vch <= 7)%nat ->
  (vch = [] \/ Z.land (back vch) 0x7f <> 0 \/
   (1 < length vch)%nat /\ Z.land (vch !!! (length vch - 2)%nat) 0x80 <> 0) ->
  serialize (set_vch vch) = vch.
Proof.
  intros Hb Hl Hmin. destruct (snoc_cases vch) as [->|(body & b & ->)]; [done|].
  rewrite length_app in Hl. cbn in Hl. rewrite set_vch_snoc by (done || lia).
  apply all_bytes_snoc in Hb as [Hbody Hbb]. rewrite back_snoc, byte_low7 in Hmin by done.
  apply is_byte_spec in Hbb. set (low := b mod 128) in *.
  assert (0 <= low < 128) by (apply Z.mod_pos_bound; lia).
  assert (b = low + (if negb (b <? 128) then 128 else 0)) as Eb.
  { unfold low. destruct (Z.ltb_spec b 128); [rewrite Z.mod_small by lia; cbn; lia|].
    rewrite <- (Z.mod_unique b 128 1 (b - 128)); cbn; lia. }
  replace (if b <? 128 then 1 else -1) with (if negb (b <? 128) then -1 else 1) by (by destruct (b <? 128)).
  destruct (Z.eq_dec low 0) as [E0|Hlow].
  - destruct Hmin as [Hmin|[Hmin|[Hlen Hc]]]; [by destruct body|done|].
    destruct (snoc_cases body) as [->|(body' & c & ->)]; [cbn in Hlen; lia|].
    rewrite !length_app in Hc. cbn [length] in Hc.
    replace (length body' + 1 + 1 - 2)%nat with (length body') in Hc by lia.
    rewrite <- app_assoc in Hc. cbn [app] in Hc. rewrite list_lookup_total_middle in Hc by done.
    apply all_bytes_snoc in Hbody as Hbc. destruct Hbc as [_ Hbc]. pose proof (byte_testbit7 c Hbc) as E7.
    assert (c >= 128) by (destruct (Z.ltb_spec c 128); lia).
    rewrite length_app in Hl. cbn in Hl. rewrite E0, Z.mul_0_r, Z.add_0_r, serialize_bytes by (done || lia). cbv zeta.
    destruct (Z.ltb_spec c 128); [lia|]. rewrite <- app_assoc. cbn [app]. do 3 f_equal. lia.
  - replace (le_val body + 256 ^ Z.of_nat (length body) * low) with (le_val (body ++ [low]))
      by (by rewrite le_val_app, le_val_1).
    rewrite serialize_bytes; [|rewrite all_bytes_app, Hbody; cbn; rewrite andb_true_r; apply is_byte_spec; lia|lia|done].
    cbv zeta. destruct (Z.ltb_spec low 128); [|lia]. by rewrite <- Eb.
Qed.

(** Reading a stack element as a script number with the minimality rule and
    a limit of [k] bytes accepts exactly the encodings that [serialize] writes
    for the numbers of magnitude below [2 ^ (8 k - 1)], and returns the number:
    every number in range has one accepted encoding. *)
Theorem script_num_exact (vch : bytes) (n k : Z) : all_bytes vch = true -> 1 <= k <= 7 ->
  of_vch vch true k = Ok n <-> vch = serialize n /\ Z.abs n < 2 ^ (8 * k - 1).
Proof.
  intros Hb Hk. split.
  - unfold of_vch. destruct (Z.ltb_spec k (Z.of_nat (length vch))); [done|]. case_match eqn:E; [done|]. intros [= <-].
    split; [|by apply set_vch_range]. symmetry. apply serialize_set_vch; [done|lia|]. clear Hb.
    destruct vch as [|x l]; [by left|right]. set (v := x :: l) in *. cbn [andb] in E.
    destruct (Z.eqb_spec (Z.land (back v) 0x7f) 0); [right|by left].
    replace (0 <? length v)%nat with true in E by done. cbn [andb] in E.
    apply orb_false_iff in E as [E1 E2]. split; [apply Nat.leb_gt in E1; lia|lia].
  - intros [-> Hn]. exact (of_vch_serialize n true k Hk Hn).
Qed.

Lemma script_num_exact_witness :
  of_vch [0xff; 0x80] true 4 = Ok (-255) /\ (of_vch [0xff; 0x00; 0x80] true 4 <> Ok (-255)).
Proof.
  split; [apply (script_num_exact [0xff; 0x80] (-255) 4); [reflexivity|lia|split; [reflexivity|cbn; lia]]|].
  intros [E _]%(script_num_exact [0xff; 0x00; 0x80] (-255) 4); [discriminate E|reflexivity|lia].
Defined.

End ScriptNumFacts.
