(* ===== verification/Primitives.v ===== *)
(** Transactions (primitives/transaction.h, primitives/transaction.cpp,
    amount.h): outpoints, inputs, outputs, the special transaction fields
    [nType] and [vExtraPayload], the basic and the extended wire format, the
    transaction id, and the output total. *)

From S2P Require Import Prelude Serialize Sha256 Script.

(** ** Amounts *)

Definition COIN : Z := 100000000.
Definition MAX_MONEY : Z := 21000000000 * COIN.
Definition MoneyRange (nValue : Z) : bool := (0 <=? nValue) && (nValue <=? MAX_MONEY).

(** ** Data *)

Record COutPoint := MkOutPoint { op_hash : uint256; op_n : Z }.
Record CTxIn := MkTxIn {
  prevout : COutPoint;
  scriptSig : CScript;
  nSequence : Z;
  scriptWitness : list bytes;
}.
Record CTxOut := MkTxOut { nValue : Z; scriptPubKey : CScript }.
Record CTransaction := MkTransaction {
  vin : list CTxIn;
  vout : list CTxOut;
  nVersion : Z;
  nType : Z;
  nLockTime : Z;
  vExtraPayload : bytes;
}.

Definition SEQUENCE_FINAL : Z := 0xffffffff.
Definition outpoint_null : COutPoint := MkOutPoint 0 (2 ^ 32 - 1).
Definition IsNullOutPoint (o : COutPoint) : bool := (o.(op_hash) =? 0) && (o.(op_n) =? 2 ^ 32 - 1).
Definition outpoint_eqb (a b : COutPoint) : bool := (a.(op_hash) =? b.(op_hash)) && (a.(op_n) =? b.(op_n)).
(** [operator<]: [uint256::Compare] is [memcmp]. *)
Definition outpoint_ltb (a b : COutPoint) : bool :=
  let ha := le_bytes 32 a.(op_hash) in let hb := le_bytes 32 b.(op_hash) in
  (bytes_le ha hb && negb (a.(op_hash) =? b.(op_hash)))
  || ((a.(op_hash) =? b.(op_hash)) && (a.(op_n) <? b.(op_n))).

Definition IsCoinBase (tx : CTransaction) : bool :=
  match tx.(vin) with [i] => IsNullOutPoint i.(prevout) | _ => false end.
Definition HasWitness (tx : CTransaction) : bool :=
  existsb (fun i => negb (match i.(scriptWitness) with [] => true | _ => false end)) tx.(vin).

(** ** Wire format *)

Definition c_outpoint : Codec COutPoint :=
  isoc (pairc (blob 32) u32) (fun p => MkOutPoint p.1 p.2) (fun o => (o.(op_hash), o.(op_n))).
(** The witness is serialized through the transaction only. *)
Definition c_txin : Codec CTxIn :=
  isoc (pairc c_outpoint (pairc bytevec u32))
    (fun p => MkTxIn p.1 p.2.1 p.2.2 [])
    (fun i => (i.(prevout), (i.(scriptSig), i.(nSequence)))).
Definition c_txout : Codec CTxOut :=
  isoc (pairc i64 bytevec) (fun p => MkTxOut p.1 p.2) (fun o => (o.(nValue), o.(scriptPubKey))).
Definition c_witness : Codec (list bytes) := vec bytevec.

Definition is_special (nVersion nType : Z) : bool := (3 <=? nVersion) && negb (nType =? 0).

Definition SerializeTransaction (fAllowWitness : bool) (tx : CTransaction) : bytes :=
  let flags := fAllowWitness && HasWitness tx in
  ser i32 tx.(nVersion)
  ++ (if 3 <=? tx.(nVersion) then ser u16 tx.(nType) else [])
  ++ (if flags then ser (vec c_txin) [] ++ ser u8 1 else [])
  ++ ser (vec c_txin) tx.(vin)
  ++ ser (vec c_txout) tx.(vout)
  ++ (if flags then mjoin ((fun i => ser c_witness i.(scriptWitness)) <$> tx.(vin)) else [])
  ++ ser u32 tx.(nLockTime)
  ++ (if is_special tx.(nVersion) tx.(nType) then ser bytevec tx.(vExtraPayload) else []).

Definition set_witness (i : CTxIn) (w : list bytes) : CTxIn :=
  MkTxIn i.(prevout) i.(scriptSig) i.(nSequence) w.

(** [for (i...) s >> tx.vin[i].scriptWitness.stack] *)
Fixpoint read_witnesses (ins : list CTxIn) : reader (list CTxIn) :=
  match ins with
  | [] => mret []
  | i :: ins' => w ← de c_witness; l ← read_witnesses ins'; mret (set_witness i w :: l)
  end.

(** The inputs, outputs and flags as [UnserializeTransaction] reads them. *)
Definition read_inputs (fAllowWitness : bool) : reader (list CTxIn * list CTxOut * Z) :=
  ins ← de (vec c_txin);
  match ins with
  | [] =>
    if fAllowWitness then
      flags ← de u8;
      if negb (flags =? 0) then
        ins ← de (vec c_txin); outs ← de (vec c_txout); mret (ins, outs, flags)
      else mret ([], [], flags)
    else outs ← de (vec c_txout); mret ([], outs, 0)
  | _ => outs ← de (vec c_txout); mret (ins, outs, 0)
  end.

Definition UnserializeTransaction (fAllowWitness : bool) : reader CTransaction :=
  version ← de i32;
  type ← (if 3 <=? version then de u16 else mret 0);
  '(ins, outs, flags) ← read_inputs fAllowWitness;
  '(ins, flags) ←
    (if Z.testbit flags 0 && fAllowWitness
     then l ← read_witnesses ins; mret (l, Z.lxor flags 1)
     else mret (ins, flags));
  _ ← check (flags =? 0) UnknownOptionalData;
  locktime ← de u32;
  payload ← (if is_special version type then de bytevec else mret []);
  mret (MkTransaction ins outs version type locktime payload).

(** [ComputeHash] / [GetHash], [GetWitnessHash] and [GetTotalSize]. *)
Definition GetHash `{Hash256} (tx : CTransaction) : uint256 := hash256 (SerializeTransaction false tx).
Definition GetWitnessHash `{Hash256} (tx : CTransaction) : uint256 :=
  if negb (HasWitness tx) then GetHash tx else hash256 (SerializeTransaction true tx).
Definition GetTotalSize (tx : CTransaction) : Z := Z.of_nat (length (SerializeTransaction true tx)).

(** [GetValueOut]: [None] is the exception. *)
Fixpoint value_out (fAreEnforcedValues : bool) (outs : list CTxOut) (nValueOut : Z) : option Z :=
  match outs with
  | [] => Some nValueOut
  | o :: outs' =>
    if negb fAreEnforcedValues && IsAssetScript o.(scriptPubKey)
    then value_out fAreEnforcedValues outs' nValueOut
    else
      let nValueOut := wraps 64 (nValueOut + o.(nValue)) in
      if negb (MoneyRange o.(nValue)) || negb (MoneyRange nValueOut) then None
      else value_out fAreEnforcedValues outs' nValueOut
  end.
Definition GetValueOut (fAreEnforcedValues : bool) (tx : CTransaction) : option Z :=
  value_out fAreEnforcedValues tx.(vout) 0.

(** ** Well-formed values *)

Definition valid_outpoint (o : COutPoint) : bool := in_u 256 o.(op_hash) && in_u 32 o.(op_n).
Definition valid_witness (w : list bytes) : bool := valid_vec valid_bytes w.
(** An input as the input codec reads it: no witness. *)
Definition valid_txin (i : CTxIn) : bool :=
  valid_outpoint i.(prevout) && (valid_bytes i.(scriptSig) && in_u 32 i.(nSequence))
  && match i.(scriptWitness) with [] => true | _ => false end.
Definition valid_txout (o : CTxOut) : bool := in_s 64 o.(nValue) && valid_bytes o.(scriptPubKey).

Definition strip_in (i : CTxIn) : CTxIn := set_witness i [].
(** A transaction that the wire format can express: fields in range, the
    special fields only where they are serialized, and an input unless it is
    entirely empty. *)
Definition valid_tx (tx : CTransaction) : bool :=
  in_s 32 tx.(nVersion) && in_u 16 tx.(nType)
  && ((3 <=? tx.(nVersion)) || (tx.(nType) =? 0))
  && (is_special tx.(nVersion) tx.(nType) || match tx.(vExtraPayload) with [] => true | _ => false end)
  && valid_bytes tx.(vExtraPayload)
  && valid_vec valid_txin (strip_in <$> tx.(vin))
  && forallb (fun i => valid_witness i.(scriptWitness)) tx.(vin)
  && valid_vec valid_txout tx.(vout)
  && in_u 32 tx.(nLockTime)
  && match tx.(vin) with [] => match tx.(vout) with [] => true | _ => false end | _ => true end.

(** The transaction without its witnesses: what the transaction id commits to. *)
Definition strip (tx : CTransaction) : CTransaction :=
  MkTransaction (strip_in <$> tx.(vin)) tx.(vout) tx.(nVersion) tx.(nType) tx.(nLockTime)
    tx.(vExtraPayload).

#[export] Instance COutPoint_eq_dec : EqDecision COutPoint.
Proof. solve_decision. Defined.
#[export] Instance COutPoint_countable : Countable COutPoint.
Proof.
  apply (inj_countable' (fun o => (o.(op_hash), o.(op_n))) (fun p => MkOutPoint p.1 p.2)).
  by intros [].
Defined.
#[export] Instance CTxIn_eq_dec : EqDecision CTxIn.
Proof. solve_decision. Defined.
#[export] Instance CTxOut_eq_dec : EqDecision CTxOut.
Proof. solve_decision. Defined.

(** ** Codec laws *)

Lemma outpoint_eqb_spec a b : outpoint_eqb a b = true <-> a = b.
Proof.
  destruct a, b. unfold outpoint_eqb. cbn. rewrite andb_true_iff, !Z.eqb_eq.
  split; [by intros [-> ->]|by intros [= -> ->]].
Qed.

#[export] Instance outpoint_ok : CodecOk c_outpoint valid_outpoint.
Proof. eapply isoc_ok; [apply _|]. by intros [h n]. Qed.
#[export] Instance outpoint_exact : CodecExact c_outpoint valid_outpoint.
Proof. eapply isoc_exact; [apply _|]. by intros [h n]. Qed.

#[export] Instance txin_ok : CodecOk c_txin valid_txin.
Proof.
  eapply isoc_ok; [apply _|]. intros [o s n [|]]; unfold valid_txin, valid_pair; cbn.
  - rewrite andb_true_r. done.
  - by rewrite andb_false_r.
Qed.
#[export] Instance txin_exact : CodecExact c_txin valid_txin.
Proof.
  eapply isoc_exact; [apply _|]. intros [o [s n]]. unfold valid_txin, valid_pair; cbn.
  rewrite andb_true_r. done.
Qed.

#[export] Instance txout_ok : CodecOk c_txout valid_txout.
Proof. eapply isoc_ok; [apply _|]. by intros [v s]. Qed.
#[export] Instance txout_exact : CodecExact c_txout valid_txout.
Proof. eapply isoc_exact; [apply _|]. by intros [v s]. Qed.

#[export] Instance witness_ok : CodecOk c_witness valid_witness.
Proof. unfold c_witness, valid_witness. apply _. Qed.

Lemma ser_ins_strip l : ser (vec c_txin) l = ser (vec c_txin) (strip_in <$> l).
Proof.
  cbn [ser vec]. unfold Serialize_vector. rewrite length_fmap. f_equal. f_equal.
  rewrite <- list_fmap_compose. done.
Qed.

Lemma read_witnesses_app l rest : forallb (fun i => valid_witness i.(scriptWitness)) l = true ->
  read_witnesses (strip_in <$> l) (mjoin ((fun i => ser c_witness i.(scriptWitness)) <$> l) ++ rest)
  = Ok (l, rest).
Proof.
  induction l as [|i l IH]; [done|]. cbn [forallb]. intros H. apply andb_true_iff in H as [Hi Hl].
  cbn [fmap list_fmap read_witnesses mjoin list_join]. rewrite <- app_assoc.
  erewrite bind_ok by (by apply de_ser). erewrite bind_ok by (by apply IH).
  unfold set_witness, strip_in. by destruct i.
Qed.

Lemma no_witness_strip tx : HasWitness tx = false -> strip_in <$> tx.(vin) = tx.(vin).
Proof.
  unfold HasWitness. induction tx.(vin) as [|[o s n w] l IH]; [done|]. cbn.
  intros H. apply orb_false_iff in H as [Hw Hl]. destruct w; [|done]. f_equal. by apply IH.
Qed.

(** What [read_inputs] makes of the serialized inputs and outputs. *)
Lemma read_inputs_plain b l outs rest : valid_vec valid_txin l = true -> valid_vec valid_txout outs = true ->
  (l = [] -> b = true -> outs = []) ->
  read_inputs b (ser (vec c_txin) l ++ ser (vec c_txout) outs ++ rest) = Ok (l, outs, 0, rest).
Proof.
  intros Hl Ho Hne. unfold read_inputs. erewrite bind_ok by (by apply de_ser).
  destruct l as [|i l].
  - destruct b.
    + rewrite Hne by done. change (ser (vec c_txout) []) with (ser u8 0).
      by erewrite bind_ok by (by apply de_ser).
    + erewrite bind_ok by (by apply de_ser). done.
  - erewrite bind_ok by (by apply de_ser). done.
Qed.

Lemma read_inputs_extended l outs rest : valid_vec valid_txin l = true -> valid_vec valid_txout outs = true ->
  read_inputs true (ser (vec c_txin) [] ++ ser u8 1 ++ ser (vec c_txin) l ++ ser (vec c_txout) outs ++ rest)
  = Ok (l, outs, 1, rest).
Proof.
  intros Hl Ho. unfold read_inputs. erewrite bind_ok by (by apply de_ser). cbn iota.
  erewrite bind_ok by (by apply de_ser). change (negb (1 =? 0)) with true. cbn iota.
  erewrite bind_ok by (by apply de_ser). by erewrite bind_ok by (by apply de_ser).
Qed.

(** The serialization of a transaction, decoded. *)
Lemma Unserialize_tail version type ins outs locktime payload rest :
  in_u 32 locktime = true -> valid_bytes payload = true ->
  (is_special version type = false -> payload = []) ->
  (locktime ← de u32; payload ← (if is_special version type then de bytevec else mret []);
   mret (MkTransaction ins outs version type locktime payload))
    (ser u32 locktime ++ (if is_special version type then ser bytevec payload else []) ++ rest)
  = Ok (MkTransaction ins outs version type locktime payload, rest).
Proof.
  intros Hl Hp Hs. erewrite bind_ok by (by apply de_ser). destruct (is_special version type).
  - by erewrite bind_ok by (by apply de_ser).
  - rewrite Hs by done. done.
Qed.

Lemma Unserialize_head {B} version type (k : Z -> Z -> reader B) rest :
  in_s 32 version = true -> in_u 16 type = true -> (3 <=? version) || (type =? 0) = true ->
  (v ← de i32; t ← (if 3 <=? v then de u16 else mret 0); k v t)
    (ser i32 version ++ (if 3 <=? version then ser u16 type else []) ++ rest)
  = k version type rest.
Proof.
  intros Hv Ht H. erewrite bind_ok by (by apply de_ser). destruct (3 <=? version).
  - by erewrite bind_ok by (by apply de_ser).
  - cbn in H. by apply Z.eqb_eq in H as ->.
Qed.

Lemma valid_tx_fields tx : valid_tx tx = true ->
  in_s 32 tx.(nVersion) = true /\ in_u 16 tx.(nType) = true /\
  (3 <=? tx.(nVersion)) || (tx.(nType) =? 0) = true /\
  (is_special tx.(nVersion) tx.(nType) = false -> tx.(vExtraPayload) = []) /\
  valid_bytes tx.(vExtraPayload) = true /\
  valid_vec valid_txin (strip_in <$> tx.(vin)) = true /\
  forallb (fun i => valid_witness i.(scriptWitness)) tx.(vin) = true /\
  valid_vec valid_txout tx.(vout) = true /\ in_u 32 tx.(nLockTime) = true /\
  (tx.(vin) = [] -> tx.(vout) = []).
Proof.
  unfold valid_tx. rewrite !andb_true_iff. intros (((((((((H1 & H2) & H3) & H4) & H5) & H6) & H7) & H8) & H9) & H10).
  split_and!; auto.
  - intros E. rewrite E in H4. by destruct (vExtraPayload tx).
  - intros E. rewrite E in H10. by destruct (vout tx).
Qed.

(** ** Properties *)

(** C38. Reading back a serialized transaction with witnesses allowed gives the
    transaction, special type and payload included, and stops at its end. *)
Theorem transaction_roundtrip (tx : CTransaction) (rest : bytes) :
  valid_tx tx = true ->
  UnserializeTransaction true (SerializeTransaction true tx ++ rest) = Ok (tx, rest).
Proof.
  intros H. apply valid_tx_fields in H as (Hv & Ht & Hvt & Hsp & Hp & Hin & Hw & Hout & Hlt & Hne).
  unfold SerializeTransaction, UnserializeTransaction. rewrite <- !app_assoc.
  rewrite (Unserialize_head (nVersion tx) (nType tx)) by done. cbn [andb].
  destruct (HasWitness tx) eqn:EW.
  - rewrite <- !app_assoc, (ser_ins_strip (vin tx)).
    erewrite bind_ok by (by apply read_inputs_extended). cbn iota.
    change (Z.testbit 1 0 && true) with true. cbn iota.
    erewrite bind_ok; cycle 1. { erewrite bind_ok by (by apply read_witnesses_app). reflexivity. }
    cbn iota. erewrite bind_ok by (by apply check_ok).
    rewrite Unserialize_tail by done. by destruct tx.
  - rewrite (no_witness_strip tx EW) in Hin. cbn [app].
    erewrite bind_ok by (by apply read_inputs_plain; auto). cbn iota.
    change (Z.testbit 0 0 && true) with false. cbn iota.
    erewrite bind_ok by reflexivity. cbn iota. erewrite bind_ok by (by apply check_ok).
    rewrite Unserialize_tail by done. by destruct tx.
Qed.

Definition demo_tx : CTransaction :=
  MkTransaction [MkTxIn (MkOutPoint 5 1) [1; 2] SEQUENCE_FINAL [[7; 8]; []]]
    [MkTxOut 1000 [0x6a]] 3 2 0 [9; 9; 9].

Lemma transaction_roundtrip_witness :
  UnserializeTransaction true (SerializeTransaction true demo_tx ++ [1]) = Ok (demo_tx, [1]).
Proof. apply transaction_roundtrip. reflexivity. Defined.

Lemma Unserialize_no_witness tx rest : valid_tx tx = true ->
  UnserializeTransaction false (SerializeTransaction false tx ++ rest) = Ok (strip tx, rest).
Proof.
  intros H. apply valid_tx_fields in H as (Hv & Ht & Hvt & Hsp & Hp & Hin & Hw & Hout & Hlt & Hne).
  unfold SerializeTransaction, UnserializeTransaction. rewrite <- !app_assoc.
  rewrite (Unserialize_head (nVersion tx) (nType tx)) by done. cbn [andb app].
  rewrite (ser_ins_strip (vin tx)).
  erewrite bind_ok by (by apply read_inputs_plain). cbn iota. rewrite andb_false_r.
  erewrite bind_ok by reflexivity. cbn iota. erewrite bind_ok by (by apply check_ok).
  by rewrite Unserialize_tail.
Qed.

Lemma serialize_strip_inj (tx tx' : CTransaction) : valid_tx tx = true -> valid_tx tx' = true ->
  SerializeTransaction false tx = SerializeTransaction false tx' -> strip tx = strip tx'.
Proof.
  intros Hv Hv' E. pose proof (Unserialize_no_witness tx [] Hv) as D.
  rewrite E, (Unserialize_no_witness tx' [] Hv') in D. congruence.
Qed.

(** The pre-image of the transaction id determines every field but the
    witnesses: transactions with the same id and no hash collision between
    their serializations are equal up to witnesses. *)
Theorem txid_commits `{Hash256} (tx tx' : CTransaction) :
  valid_tx tx = true -> valid_tx tx' = true ->
  GetHash tx = GetHash tx' ->
  (hash256 (SerializeTransaction false tx) = hash256 (SerializeTransaction false tx') ->
   SerializeTransaction false tx = SerializeTransaction false tx') ->
  strip tx = strip tx'.
Proof.
  intros Hv Hv' E Hcol. apply serialize_strip_inj; auto.
Qed.

Lemma txid_commits_witness :
  strip demo_tx = strip (MkTransaction [MkTxIn (MkOutPoint 5 1) [1; 2] SEQUENCE_FINAL []]
    [MkTxOut 1000 [0x6a]] 3 2 0 [9; 9; 9]).
Proof. apply txid_commits; try intros _; vm_compute; reflexivity. Defined.

Definition sum_out (outs : list CTxOut) : Z := foldr (fun o acc => o.(nValue) + acc) 0 outs.

Lemma sum_out_nonneg outs : forallb (fun o => MoneyRange o.(nValue)) outs = true -> 0 <= sum_out outs.
Proof.
  induction outs as [|o outs IH]; cbn; [lia|]. intros H.
  apply andb_true_iff in H as [H1 H2]. specialize (IH H2). unfold MoneyRange in H1. fold (sum_out outs). lia.
Qed.

Lemma value_out_spec outs acc : MoneyRange acc = true ->
  value_out true outs acc
  = if forallb (fun o => MoneyRange o.(nValue)) outs && (acc + sum_out outs <=? MAX_MONEY)
    then Some (acc + sum_out outs) else None.
Proof.
  revert acc. induction outs as [|o outs IH]; intros acc Hacc; cbn [value_out forallb sum_out foldr].
  { unfold MoneyRange in Hacc. cbn [andb]. rewrite Z.add_0_r. destruct (Z.leb_spec acc MAX_MONEY); [done|lia]. }
  fold (sum_out outs). cbn [negb andb]. destruct (MoneyRange (nValue o)) eqn:Eo; [|done]. cbn [negb orb andb].
  assert (MAX_MONEY < 2 ^ 62) as Hm by (unfold MAX_MONEY, COIN; lia).
  unfold MoneyRange in Hacc, Eo. rewrite wraps_id by lia.
  destruct (MoneyRange (acc + nValue o)) eqn:Es; cbn [negb].
  - rewrite IH by done. by rewrite Z.add_assoc.
  - unfold MoneyRange in Es. destruct (forallb _ outs) eqn:Ef; [|done]. cbn [andb].
    pose proof (sum_out_nonneg outs Ef). destruct (Z.leb_spec (acc + (nValue o + sum_out outs)) MAX_MONEY); [lia|done].
Qed.

(** With enforced values, [GetValueOut] returns the exact total of the outputs
    when every output and the total are in the money range, and throws
    otherwise: the 64-bit additions never wrap unnoticed. *)
Theorem GetValueOut_exact (tx : CTransaction) :
  GetValueOut true tx
  = if forallb (fun o => MoneyRange o.(nValue)) tx.(vout) && (sum_out tx.(vout) <=? MAX_MONEY)
    then Some (sum_out tx.(vout)) else None.
Proof. unfold GetValueOut. by rewrite value_out_spec. Qed.
