(* ===== verification/Interpreter.v ===== *)
(** The script interpreter (script/interpreter.cpp, script/interpreter.h,
    script/script_error.h): the stack machine of [EvalScript], the encodings
    of signatures and keys, [VerifyScript] with pay-to-script-hash and witness
    programs, and the signature hash with the checker that uses it.

    A stack is a list whose head is the top, [stack.back()].  The iterators [pc]
    and [pbegincodehash] are the suffixes of the script they point to.  A return
    value of false with [*serror = e] is [Err e]; every exception thrown inside
    [EvalScript] is caught there and is [SCRIPT_ERR_UNKNOWN_ERROR]. *)

From S2P Require Import Prelude Serialize Sha256 Hash160 Script Primitives.

(** ** Errors, flags and opcodes *)

Inductive ScriptError :=
| SCRIPT_ERR_UNKNOWN_ERROR | SCRIPT_ERR_EVAL_FALSE | SCRIPT_ERR_OP_RETURN
| SCRIPT_ERR_SCRIPT_SIZE | SCRIPT_ERR_PUSH_SIZE | SCRIPT_ERR_OP_COUNT | SCRIPT_ERR_STACK_SIZE
| SCRIPT_ERR_SIG_COUNT | SCRIPT_ERR_PUBKEY_COUNT
| SCRIPT_ERR_VERIFY | SCRIPT_ERR_EQUALVERIFY | SCRIPT_ERR_CHECKMULTISIGVERIFY
| SCRIPT_ERR_CHECKSIGVERIFY | SCRIPT_ERR_NUMEQUALVERIFY
| SCRIPT_ERR_BAD_OPCODE | SCRIPT_ERR_DISABLED_OPCODE | SCRIPT_ERR_INVALID_STACK_OPERATION
| SCRIPT_ERR_INVALID_ALTSTACK_OPERATION | SCRIPT_ERR_UNBALANCED_CONDITIONAL
| SCRIPT_ERR_NEGATIVE_LOCKTIME | SCRIPT_ERR_UNSATISFIED_LOCKTIME
| SCRIPT_ERR_SIG_HASHTYPE | SCRIPT_ERR_SIG_DER | SCRIPT_ERR_MINIMALDATA | SCRIPT_ERR_SIG_PUSHONLY
| SCRIPT_ERR_SIG_HIGH_S | SCRIPT_ERR_SIG_NULLDUMMY | SCRIPT_ERR_PUBKEYTYPE | SCRIPT_ERR_CLEANSTACK
| SCRIPT_ERR_MINIMALIF | SCRIPT_ERR_SIG_NULLFAIL
| SCRIPT_ERR_DISCOURAGE_UPGRADABLE_NOPS | SCRIPT_ERR_DISCOURAGE_UPGRADABLE_WITNESS_PROGRAM
| SCRIPT_ERR_WITNESS_PROGRAM_WRONG_LENGTH | SCRIPT_ERR_WITNESS_PROGRAM_WITNESS_EMPTY
| SCRIPT_ERR_WITNESS_PROGRAM_MISMATCH | SCRIPT_ERR_WITNESS_MALLEATED
| SCRIPT_ERR_WITNESS_MALLEATED_P2SH | SCRIPT_ERR_WITNESS_UNEXPECTED | SCRIPT_ERR_WITNESS_PUBKEYTYPE.

Abbreviation SIGHASH_ALL := 1%Z (only parsing).
Abbreviation SIGHASH_NONE := 2%Z (only parsing).
Abbreviation SIGHASH_SINGLE := 3%Z (only parsing).
Abbreviation SIGHASH_ANYONECANPAY := 0x80%Z (only parsing).

Abbreviation SEQUENCE_LOCKTIME_DISABLE_FLAG := (2 ^ 31)%Z (only parsing).
Abbreviation SEQUENCE_LOCKTIME_TYPE_FLAG := (2 ^ 22)%Z (only parsing).
Abbreviation SEQUENCE_LOCKTIME_MASK := 0xffff%Z (only parsing).

(** The bit that each verification flag sets. *)
Inductive script_flag :=
| SCRIPT_VERIFY_P2SH | SCRIPT_VERIFY_STRICTENC | SCRIPT_VERIFY_DERSIG | SCRIPT_VERIFY_LOW_S
| SCRIPT_VERIFY_NULLDUMMY | SCRIPT_VERIFY_SIGPUSHONLY | SCRIPT_VERIFY_MINIMALDATA
| SCRIPT_VERIFY_DISCOURAGE_UPGRADABLE_NOPS | SCRIPT_VERIFY_CLEANSTACK
| SCRIPT_VERIFY_CHECKLOCKTIMEVERIFY | SCRIPT_VERIFY_CHECKSEQUENCEVERIFY | SCRIPT_VERIFY_WITNESS
| SCRIPT_VERIFY_DISCOURAGE_UPGRADABLE_WITNESS_PROGRAM | SCRIPT_VERIFY_MINIMALIF
| SCRIPT_VERIFY_NULLFAIL | SCRIPT_VERIFY_WITNESS_PUBKEYTYPE.

Definition flag_bit (f : script_flag) : Z :=
  match f with
  | SCRIPT_VERIFY_P2SH => 0
  | SCRIPT_VERIFY_STRICTENC => 1
  | SCRIPT_VERIFY_DERSIG => 2
  | SCRIPT_VERIFY_LOW_S => 3
  | SCRIPT_VERIFY_NULLDUMMY => 4
  | SCRIPT_VERIFY_SIGPUSHONLY => 5
  | SCRIPT_VERIFY_MINIMALDATA => 6
  | SCRIPT_VERIFY_DISCOURAGE_UPGRADABLE_NOPS => 7
  | SCRIPT_VERIFY_CLEANSTACK => 8
  | SCRIPT_VERIFY_CHECKLOCKTIMEVERIFY => 9
  | SCRIPT_VERIFY_CHECKSEQUENCEVERIFY => 10
  | SCRIPT_VERIFY_WITNESS => 11
  | SCRIPT_VERIFY_DISCOURAGE_UPGRADABLE_WITNESS_PROGRAM => 12
  | SCRIPT_VERIFY_MINIMALIF => 13
  | SCRIPT_VERIFY_NULLFAIL => 14
  | SCRIPT_VERIFY_WITNESS_PUBKEYTYPE => 15
  end.

(** [(flags & SCRIPT_VERIFY_X) != 0] with [SCRIPT_VERIFY_X = 1U << n]. *)
Definition has_flag (flags : Z) (f : script_flag) : bool :=
  negb (Z.land flags (Z.shiftl 1 (flag_bit f)) =? 0).

Inductive SigVersion := SIGVERSION_BASE | SIGVERSION_WITNESS_V0.
Definition is_base (v : SigVersion) : bool := match v with SIGVERSION_BASE => true | _ => false end.

(** The opcodes of the [switch] in [EvalScript]; [O_X] is [OP_X].  The pushes
    of data are handled before it. *)
Inductive opcodetype :=
| O_1NEGATE | O_RESERVED | O_1 | O_2 | O_3 | O_4 | O_5 | O_6 | O_7 | O_8 | O_9 | O_10 | O_11 | O_12
| O_13 | O_14 | O_15 | O_16
| O_NOP | O_VER | O_IF | O_NOTIF | O_VERIF | O_VERNOTIF | O_ELSE | O_ENDIF | O_VERIFY | O_RETURN
| O_TOALTSTACK | O_FROMALTSTACK | O_2DROP | O_2DUP | O_3DUP | O_2OVER | O_2ROT | O_2SWAP | O_IFDUP
| O_DEPTH | O_DROP | O_DUP | O_NIP | O_OVER | O_PICK | O_ROLL | O_ROT | O_SWAP | O_TUCK
| O_CAT | O_SUBSTR | O_LEFT | O_RIGHT | O_SIZE
| O_INVERT | O_AND | O_OR | O_XOR | O_EQUAL | O_EQUALVERIFY | O_RESERVED1 | O_RESERVED2
| O_1ADD | O_1SUB | O_2MUL | O_2DIV | O_NEGATE | O_ABS | O_NOT | O_0NOTEQUAL
| O_ADD | O_SUB | O_MUL | O_DIV | O_MOD | O_LSHIFT | O_RSHIFT
| O_BOOLAND | O_BOOLOR | O_NUMEQUAL | O_NUMEQUALVERIFY | O_NUMNOTEQUAL | O_LESSTHAN | O_GREATERTHAN
| O_LESSTHANOREQUAL | O_GREATERTHANOREQUAL | O_MIN | O_MAX | O_WITHIN
| O_RIPEMD160 | O_SHA1 | O_SHA256 | O_HASH160 | O_HASH256 | O_CODESEPARATOR
| O_CHECKSIG | O_CHECKSIGVERIFY | O_CHECKMULTISIG | O_CHECKMULTISIGVERIFY
| O_NOP1 | O_CHECKLOCKTIMEVERIFY | O_CHECKSEQUENCEVERIFY
| O_NOP4 | O_NOP5 | O_NOP6 | O_NOP7 | O_NOP8 | O_NOP9 | O_NOP10
| O_RVN_ASSET | O_INVALIDOPCODE.

(** The enumeration from [OP_1NEGATE = 0x4f] to [OP_NOP10 = 0xb9], in order. *)
Definition opcode_table : list opcodetype :=
  [O_1NEGATE; O_RESERVED; O_1; O_2; O_3; O_4; O_5; O_6; O_7; O_8; O_9; O_10; O_11; O_12;
   O_13; O_14; O_15; O_16;
   O_NOP; O_VER; O_IF; O_NOTIF; O_VERIF; O_VERNOTIF; O_ELSE; O_ENDIF; O_VERIFY; O_RETURN;
   O_TOALTSTACK; O_FROMALTSTACK; O_2DROP; O_2DUP; O_3DUP; O_2OVER; O_2ROT; O_2SWAP; O_IFDUP;
   O_DEPTH; O_DROP; O_DUP; O_NIP; O_OVER; O_PICK; O_ROLL; O_ROT; O_SWAP; O_TUCK;
   O_CAT; O_SUBSTR; O_LEFT; O_RIGHT; O_SIZE;
   O_INVERT; O_AND; O_OR; O_XOR; O_EQUAL; O_EQUALVERIFY; O_RESERVED1; O_RESERVED2;
   O_1ADD; O_1SUB; O_2MUL; O_2DIV; O_NEGATE; O_ABS; O_NOT; O_0NOTEQUAL;
   O_ADD; O_SUB; O_MUL; O_DIV; O_MOD; O_LSHIFT; O_RSHIFT;
   O_BOOLAND; O_BOOLOR; O_NUMEQUAL; O_NUMEQUALVERIFY; O_NUMNOTEQUAL; O_LESSTHAN; O_GREATERTHAN;
   O_LESSTHANOREQUAL; O_GREATERTHANOREQUAL; O_MIN; O_MAX; O_WITHIN;
   O_RIPEMD160; O_SHA1; O_SHA256; O_HASH160; O_HASH256; O_CODESEPARATOR;
   O_CHECKSIG; O_CHECKSIGVERIFY; O_CHECKMULTISIG; O_CHECKMULTISIGVERIFY;
   O_NOP1; O_CHECKLOCKTIMEVERIFY; O_CHECKSEQUENCEVERIFY;
   O_NOP4; O_NOP5; O_NOP6; O_NOP7; O_NOP8; O_NOP9; O_NOP10].

Definition opcode_of (opcode : Z) : opcodetype :=
  if opcode =? OP_RVN_ASSET then O_RVN_ASSET
  else if opcode <? OP_1NEGATE then O_INVALIDOPCODE
  else nth (Z.to_nat (opcode - OP_1NEGATE)) opcode_table O_INVALIDOPCODE.

(** ** What the interpreter calls *)

(** The hashers behind the crypto opcodes, as functions of a whole message. *)
Class ScriptHash := {
  ripemd160 : bytes -> bytes;
  sha1 : bytes -> bytes;
  sha256 : bytes -> bytes;
  ripemd160_digest : forall v, length (ripemd160 v) = 20%nat /\ all_bytes (ripemd160 v) = true;
  sha1_digest : forall v, length (sha1 v) = 20%nat /\ all_bytes (sha1 v) = true;
  sha256_digest : forall v, length (sha256 v) = 32%nat /\ all_bytes (sha256 v) = true;
}.

(** The hash functions of the program. *)
#[export] Instance ScriptHash_program : ScriptHash | 100 := {|
  ripemd160 := ripemd160_hash;
  sha1 := sha1_hash;
  sha256 := Sha256.Sha256.sha256;
  ripemd160_digest := StreamFacts.ripemd160_hash_digest;
  sha1_digest := StreamFacts.sha1_hash_digest;
  sha256_digest v := conj (Sha256Facts.length_digest _) (Sha256Facts.all_bytes_digest _);
|}.

(** The cheap hash of the samples. *)
Definition poly_script_hash : ScriptHash := {|
  ripemd160 := Poly.poly_bytes 20; sha1 := Poly.poly_bytes 20; sha256 := Poly.poly_bytes 32;
  ripemd160_digest := Poly.poly_bytes_digest 20; sha1_digest := Poly.poly_bytes_digest 20;
  sha256_digest := Poly.poly_bytes_digest 32;
|}.

(** libsecp256k1: parsing, normalising and verifying a DER signature against a
    serialized key and a hash, and the test for a low S value. *)
Class Ecdsa := {
  ecdsa_verify : bytes -> uint256 -> bytes -> bool;
  ecdsa_low_s : bytes -> bool;
}.

(** The virtual methods of [BaseSignatureChecker]. *)
Record BaseSignatureChecker := MkChecker {
  CheckSig : bytes -> bytes -> CScript -> SigVersion -> bool;
  CheckLockTime : Z -> bool;
  CheckSequence : Z -> bool;
}.

(** ** Encodings *)

Definition is_nil {A} (l : list A) : bool := match l with [] => true | _ => false end.

(** [CastToBool]: false for every encoding of zero, the negative ones included. *)
Fixpoint CastToBool (vch : bytes) : bool :=
  match vch with
  | [] => false
  | b :: vch' => if negb (b =? 0) then negb (is_nil vch' && (b =? 0x80)) else CastToBool vch'
  end.

Definition IsCompressedOrUncompressedPubKey (vchPubKey : bytes) : bool :=
  let h := vchPubKey !!! 0%nat in
  if (length vchPubKey <? 33)%nat then false
  else if h =? 0x04 then (length vchPubKey =? 65)%nat
  else if (h =? 0x02) || (h =? 0x03) then (length vchPubKey =? 33)%nat
  else false.

Definition IsCompressedPubKey (vchPubKey : bytes) : bool :=
  let h := vchPubKey !!! 0%nat in
  (length vchPubKey =? 33)%nat && ((h =? 0x02) || (h =? 0x03)).

(** Sign bit of a byte. *)
Definition high_bit (b : Z) : bool := negb (Z.land b 0x80 =? 0).

Definition IsValidSignatureEncoding (sig : bytes) : bool :=
  let n := Z.of_nat (length sig) in
  let at_ i := sig !!! Z.to_nat i in
  if (n <? 9) || (73 <? n) then false
  else if negb (at_ 0 =? 0x30) then false
  else if negb (at_ 1 =? n - 3) then false
  else
    let lenR := at_ 3 in
    if n <=? 5 + lenR then false
    else
      let lenS := at_ (5 + lenR) in
      if negb (lenR + lenS + 7 =? n) then false
      else if negb (at_ 2 =? 0x02) then false
      else if lenR =? 0 then false
      else if high_bit (at_ 4) then false
      else if (1 <? lenR) && (at_ 4 =? 0x00) && negb (high_bit (at_ 5)) then false
      else if negb (at_ (lenR + 4) =? 0x02) then false
      else if lenS =? 0 then false
      else if high_bit (at_ (lenR + 6)) then false
      else if (1 <? lenS) && (at_ (lenR + 6) =? 0x00) && negb (high_bit (at_ (lenR + 7))) then false
      else true.

(** The hash type byte without [SIGHASH_ANYONECANPAY]. *)
Definition IsDefinedHashtypeSignature (vchSig : bytes) : bool :=
  if is_nil vchSig then false
  else
    let nHashType := Z.land (List.last vchSig 0) 0x7f in
    negb ((nHashType <? SIGHASH_ALL) || (SIGHASH_SINGLE <? nHashType)).

(** Whether the data was pushed with the shortest opcode. *)
Definition CheckMinimalPush (data : bytes) (opcode : Z) : bool :=
  let n := Z.of_nat (length data) in
  let d := data !!! 0%nat in
  if n =? 0 then opcode =? OP_0
  else if (n =? 1) && (1 <=? d) && (d <=? 16) then opcode =? OP_1 + (d - 1)
  else if (n =? 1) && (d =? 0x81) then opcode =? OP_1NEGATE
  else if n <=? 75 then opcode =? n
  else if n <=? 255 then opcode =? OP_PUSHDATA1
  else if n <=? 65535 then opcode =? OP_PUSHDATA2
  else true.

Section Encodings.
Context `{EC : Ecdsa} (flags : Z).

Definition CheckLowS (vchSig : bytes) : bool := ecdsa_low_s vchSig.

Definition IsLowDERSignature (vchSig : bytes) : result ScriptError unit :=
  if negb (IsValidSignatureEncoding vchSig) then Err SCRIPT_ERR_SIG_DER
  else if negb (CheckLowS (take (length vchSig - 1) vchSig)) then Err SCRIPT_ERR_SIG_HIGH_S
  else Ok tt.

Definition CheckSignatureEncoding (vchSig : bytes) : result ScriptError unit :=
  if is_nil vchSig then Ok tt
  else if (has_flag flags SCRIPT_VERIFY_DERSIG || has_flag flags SCRIPT_VERIFY_LOW_S
           || has_flag flags SCRIPT_VERIFY_STRICTENC) && negb (IsValidSignatureEncoding vchSig)
  then Err SCRIPT_ERR_SIG_DER
  else
    match (if has_flag flags SCRIPT_VERIFY_LOW_S then IsLowDERSignature vchSig else Ok tt) with
    | Err e => Err e
    | Ok _ =>
      if has_flag flags SCRIPT_VERIFY_STRICTENC && negb (IsDefinedHashtypeSignature vchSig)
      then Err SCRIPT_ERR_SIG_HASHTYPE
      else Ok tt
    end.

Definition CheckPubKeyEncoding (sigversion : SigVersion) (vchPubKey : bytes) : result ScriptError unit :=
  if has_flag flags SCRIPT_VERIFY_STRICTENC && negb (IsCompressedOrUncompressedPubKey vchPubKey)
  then Err SCRIPT_ERR_PUBKEYTYPE
  else if has_flag flags SCRIPT_VERIFY_WITNESS_PUBKEYTYPE && negb (is_base sigversion)
          && negb (IsCompressedPubKey vchPubKey)
  then Err SCRIPT_ERR_WITNESS_PUBKEYTYPE
  else Ok tt.

End Encodings.

(** ** The machine *)

Record machine := Machine {
  pc : CScript;
  pbegincodehash : CScript;
  stack : list bytes;
  altstack : list bytes;
  vfExec : list bool;
  nOpCount : Z;
}.

Definition set_stack (m : machine) (s : list bytes) : machine :=
  Machine m.(pc) m.(pbegincodehash) s m.(altstack) m.(vfExec) m.(nOpCount).
Definition set_exec (m : machine) (s : list bytes) (v : list bool) : machine :=
  Machine m.(pc) m.(pbegincodehash) s m.(altstack) v m.(nOpCount).

Definition vchTrue : bytes := [1].
Definition vchFalse : bytes := [].
Definition push_bool (b : bool) (s : list bytes) : list bytes := (if b then vchTrue else vchFalse) :: s.

(** The opcodes that fail even in a branch that is not executed. *)
Definition is_disabled (o : opcodetype) : bool :=
  match o with
  | O_CAT | O_SUBSTR | O_LEFT | O_RIGHT | O_INVERT | O_AND | O_OR | O_XOR | O_2MUL | O_2DIV
  | O_MUL | O_DIV | O_MOD | O_LSHIFT | O_RSHIFT => true
  | _ => false
  end.

(** The stack opcodes with a fixed shape, top of the stack first. *)
Definition stack_op (o : opcodetype) (s : list bytes) : result ScriptError (list bytes) :=
  match o, s with
  | O_2DROP, _ :: _ :: s' => Ok s'
  | O_2DUP, v2 :: v1 :: _ => Ok (v2 :: v1 :: s)
  | O_3DUP, v3 :: v2 :: v1 :: _ => Ok (v3 :: v2 :: v1 :: s)
  | O_2OVER, _ :: _ :: v2 :: v1 :: _ => Ok (v2 :: v1 :: s)
  | O_2ROT, v6 :: v5 :: v4 :: v3 :: v2 :: v1 :: s' => Ok (v2 :: v1 :: v6 :: v5 :: v4 :: v3 :: s')
  | O_2SWAP, v4 :: v3 :: v2 :: v1 :: s' => Ok (v2 :: v1 :: v4 :: v3 :: s')
  | O_IFDUP, v :: _ => Ok (if CastToBool v then v :: s else s)
  | O_DEPTH, _ => Ok (CScriptNum.serialize (Z.of_nat (length s)) :: s)
  | O_DROP, _ :: s' => Ok s'
  | O_DUP, v :: _ => Ok (v :: s)
  | O_NIP, v2 :: _ :: s' => Ok (v2 :: s')
  | O_OVER, _ :: v1 :: _ => Ok (v1 :: s)
  | O_ROT, v3 :: v2 :: v1 :: s' => Ok (v1 :: v3 :: v2 :: s')
  | O_SWAP, v2 :: v1 :: s' => Ok (v1 :: v2 :: s')
  | O_TUCK, v2 :: v1 :: s' => Ok (v2 :: v1 :: v2 :: s')
  | O_SIZE, v :: _ => Ok (CScriptNum.serialize (Z.of_nat (length v)) :: s)
  | _, _ => Err SCRIPT_ERR_INVALID_STACK_OPERATION
  end.

Definition unary_num (o : opcodetype) (bn : Z) : Z :=
  match o with
  | O_1ADD => bn + 1
  | O_1SUB => bn - 1
  | O_NEGATE => - bn
  | O_ABS => if bn <? 0 then - bn else bn
  | O_NOT => Z.b2z (bn =? 0)
  | _ (* O_0NOTEQUAL *) => Z.b2z (negb (bn =? 0))
  end.

Definition binary_num (o : opcodetype) (bn1 bn2 : Z) : Z :=
  match o with
  | O_ADD => bn1 + bn2
  | O_SUB => bn1 - bn2
  | O_BOOLAND => Z.b2z (negb (bn1 =? 0) && negb (bn2 =? 0))
  | O_BOOLOR => Z.b2z (negb (bn1 =? 0) || negb (bn2 =? 0))
  | O_NUMEQUAL | O_NUMEQUALVERIFY => Z.b2z (bn1 =? bn2)
  | O_NUMNOTEQUAL => Z.b2z (negb (bn1 =? bn2))
  | O_LESSTHAN => Z.b2z (bn1 <? bn2)
  | O_GREATERTHAN => Z.b2z (bn2 <? bn1)
  | O_LESSTHANOREQUAL => Z.b2z (bn1 <=? bn2)
  | O_GREATERTHANOREQUAL => Z.b2z (bn2 <=? bn1)
  | O_MIN => if bn1 <? bn2 then bn1 else bn2
  | _ (* O_MAX *) => if bn2 <? bn1 then bn1 else bn2
  end.

Section Eval.
Context `{SH : ScriptHash} `{EC : Ecdsa}.
Context (flags : Z) (checker : BaseSignatureChecker) (sigversion : SigVersion).

Definition fRequireMinimal : bool := has_flag flags SCRIPT_VERIFY_MINIMALDATA.

(** [CScriptNum(vch, fRequireMinimal, nMaxNumSize)]; its exception is caught in [EvalScript]. *)
Definition script_num (vch : bytes) (nMaxNumSize : Z) : result ScriptError Z :=
  match CScriptNum.of_vch vch fRequireMinimal nMaxNumSize with
  | Ok n => Ok n
  | Err _ => Err SCRIPT_ERR_UNKNOWN_ERROR
  end.

Definition op_checklocktimeverify (m : machine) : result ScriptError machine :=
  if negb (has_flag flags SCRIPT_VERIFY_CHECKLOCKTIMEVERIFY) then
    if has_flag flags SCRIPT_VERIFY_DISCOURAGE_UPGRADABLE_NOPS
    then Err SCRIPT_ERR_DISCOURAGE_UPGRADABLE_NOPS else Ok m
  else
    match m.(stack) with
    | [] => Err SCRIPT_ERR_INVALID_STACK_OPERATION
    | vch :: _ =>
      nLockTime ← script_num vch 5;
      if nLockTime <? 0 then Err SCRIPT_ERR_NEGATIVE_LOCKTIME
      else if negb (checker.(CheckLockTime) nLockTime) then Err SCRIPT_ERR_UNSATISFIED_LOCKTIME
      else Ok m
    end.

Definition op_checksequenceverify (m : machine) : result ScriptError machine :=
  if negb (has_flag flags SCRIPT_VERIFY_CHECKSEQUENCEVERIFY) then
    if has_flag flags SCRIPT_VERIFY_DISCOURAGE_UPGRADABLE_NOPS
    then Err SCRIPT_ERR_DISCOURAGE_UPGRADABLE_NOPS else Ok m
  else
    match m.(stack) with
    | [] => Err SCRIPT_ERR_INVALID_STACK_OPERATION
    | vch :: _ =>
      nSequence ← script_num vch 5;
      if nSequence <? 0 then Err SCRIPT_ERR_NEGATIVE_LOCKTIME
      else if negb (Z.land nSequence SEQUENCE_LOCKTIME_DISABLE_FLAG =? 0) then Ok m
      else if negb (checker.(CheckSequence) nSequence) then Err SCRIPT_ERR_UNSATISFIED_LOCKTIME
      else Ok m
    end.

Definition op_if (notif fExec : bool) (m : machine) : result ScriptError machine :=
  if fExec then
    match m.(stack) with
    | [] => Err SCRIPT_ERR_UNBALANCED_CONDITIONAL
    | vch :: s =>
      if negb (is_base sigversion) && has_flag flags SCRIPT_VERIFY_MINIMALIF
         && ((1 <? length vch)%nat || ((length vch =? 1)%nat && negb (vch !!! 0%nat =? 1)))
      then Err SCRIPT_ERR_MINIMALIF
      else Ok (set_exec m s ((if notif then negb (CastToBool vch) else CastToBool vch) :: m.(vfExec)))
    end
  else Ok (set_exec m m.(stack) (false :: m.(vfExec))).

Definition op_else (m : machine) : result ScriptError machine :=
  match m.(vfExec) with
  | [] => Err SCRIPT_ERR_UNBALANCED_CONDITIONAL
  | b :: v => Ok (set_exec m m.(stack) (negb b :: v))
  end.

Definition op_endif (m : machine) : result ScriptError machine :=
  match m.(vfExec) with
  | [] => Err SCRIPT_ERR_UNBALANCED_CONDITIONAL
  | _ :: v => Ok (set_exec m m.(stack) v)
  end.

Definition op_verify (s : list bytes) : result ScriptError (list bytes) :=
  match s with
  | [] => Err SCRIPT_ERR_INVALID_STACK_OPERATION
  | v :: s' => if CastToBool v then Ok s' else Err SCRIPT_ERR_VERIFY
  end.

Definition op_toaltstack (m : machine) : result ScriptError machine :=
  match m.(stack) with
  | [] => Err SCRIPT_ERR_INVALID_STACK_OPERATION
  | v :: s => Ok (Machine m.(pc) m.(pbegincodehash) s (v :: m.(altstack)) m.(vfExec) m.(nOpCount))
  end.

Definition op_fromaltstack (m : machine) : result ScriptError machine :=
  match m.(altstack) with
  | [] => Err SCRIPT_ERR_INVALID_ALTSTACK_OPERATION
  | v :: a => Ok (Machine m.(pc) m.(pbegincodehash) (v :: m.(stack)) a m.(vfExec) m.(nOpCount))
  end.

Definition op_pick (roll : bool) (s : list bytes) : result ScriptError (list bytes) :=
  match s with
  | top :: ((_ :: _) as s') =>
    n ← script_num top CScriptNum.nDefaultMaxNumSize;
    let n := CScriptNum.getint n in
    if (n <? 0) || (Z.of_nat (length s') <=? n) then Err SCRIPT_ERR_INVALID_STACK_OPERATION
    else
      let i := Z.to_nat n in
      Ok ((s' !!! i) :: if roll then take i s' ++ drop (S i) s' else s')
  | _ => Err SCRIPT_ERR_INVALID_STACK_OPERATION
  end.

Definition op_equal (verify : bool) (s : list bytes) : result ScriptError (list bytes) :=
  match s with
  | vch2 :: vch1 :: s' =>
    let fEqual := bytes_eq vch1 vch2 in
    if verify then if fEqual then Ok s' else Err SCRIPT_ERR_EQUALVERIFY
    else Ok (push_bool fEqual s')
  | _ => Err SCRIPT_ERR_INVALID_STACK_OPERATION
  end.

Definition op_unary (o : opcodetype) (s : list bytes) : result ScriptError (list bytes) :=
  match s with
  | v :: s' =>
    bn ← script_num v CScriptNum.nDefaultMaxNumSize;
    Ok (CScriptNum.serialize (unary_num o bn) :: s')
  | _ => Err SCRIPT_ERR_INVALID_STACK_OPERATION
  end.

Definition op_binary (o : opcodetype) (s : list bytes) : result ScriptError (list bytes) :=
  match s with
  | v2 :: v1 :: s' =>
    bn1 ← script_num v1 CScriptNum.nDefaultMaxNumSize;
    bn2 ← script_num v2 CScriptNum.nDefaultMaxNumSize;
    let vch := CScriptNum.serialize (binary_num o bn1 bn2) in
    match o with
    | O_NUMEQUALVERIFY => if CastToBool vch then Ok s' else Err SCRIPT_ERR_NUMEQUALVERIFY
    | _ => Ok (vch :: s')
    end
  | _ => Err SCRIPT_ERR_INVALID_STACK_OPERATION
  end.

Definition op_within (s : list bytes) : result ScriptError (list bytes) :=
  match s with
  | v3 :: v2 :: v1 :: s' =>
    bn1 ← script_num v1 CScriptNum.nDefaultMaxNumSize;
    bn2 ← script_num v2 CScriptNum.nDefaultMaxNumSize;
    bn3 ← script_num v3 CScriptNum.nDefaultMaxNumSize;
    Ok (push_bool ((bn2 <=? bn1) && (bn1 <? bn3)) s')
  | _ => Err SCRIPT_ERR_INVALID_STACK_OPERATION
  end.

(** [CHash160] and [CHash256] are SHA-256 followed by RIPEMD-160 and by itself. *)
Definition op_hash (o : opcodetype) (s : list bytes) : result ScriptError (list bytes) :=
  match s with
  | vch :: s' =>
    Ok (match o with
        | O_RIPEMD160 => ripemd160 vch
        | O_SHA1 => sha1 vch
        | O_SHA256 => sha256 vch
        | O_HASH160 => ripemd160 (sha256 vch)
        | _ (* O_HASH256 *) => sha256 (sha256 vch)
        end :: s')
  | _ => Err SCRIPT_ERR_INVALID_STACK_OPERATION
  end.

(** [scriptCode.FindAndDelete(CScript(vchSig))] in scripts before segwit. *)
Definition drop_signature (scriptCode : CScript) (vchSig : bytes) : CScript :=
  if is_base sigversion then (FindAndDelete scriptCode (push_bytes [] vchSig)).2 else scriptCode.

Definition op_checksig (verify : bool) (m : machine) : result ScriptError (list bytes) :=
  match m.(stack) with
  | vchPubKey :: vchSig :: s =>
    let scriptCode := drop_signature m.(pbegincodehash) vchSig in
    _ ← CheckSignatureEncoding flags vchSig;
    _ ← CheckPubKeyEncoding flags sigversion vchPubKey;
    let fSuccess := checker.(CheckSig) vchSig vchPubKey scriptCode sigversion in
    if negb fSuccess && has_flag flags SCRIPT_VERIFY_NULLFAIL && negb (is_nil vchSig)
    then Err SCRIPT_ERR_SIG_NULLFAIL
    else if verify then if fSuccess then Ok s else Err SCRIPT_ERR_CHECKSIGVERIFY
    else Ok (push_bool fSuccess s)
  | _ => Err SCRIPT_ERR_INVALID_STACK_OPERATION
  end.

(** [while (fSuccess && nSigsCount > 0)]: [sigs] and [keys] are the signatures and
    the keys left; a signature that fails against a key is tried on the next. *)
Fixpoint multisig_loop (scriptCode : CScript) (sigs keys : list bytes) : result ScriptError bool :=
  match sigs, keys with
  | [], _ => Ok true
  | _ :: _, [] => Ok false
  | vchSig :: sigs', vchPubKey :: keys' =>
    _ ← CheckSignatureEncoding flags vchSig;
    _ ← CheckPubKeyEncoding flags sigversion vchPubKey;
    let sigs := if checker.(CheckSig) vchSig vchPubKey scriptCode sigversion then sigs' else sigs in
    if (length keys' <? length sigs)%nat then Ok false else multisig_loop scriptCode sigs keys'
  end.

Definition op_checkmultisig (verify : bool) (m : machine) : result ScriptError machine :=
  let size := Z.of_nat (length m.(stack)) in
  let stacktop i := m.(stack) !!! Z.to_nat (i - 1) in
  if size <? 1 then Err SCRIPT_ERR_INVALID_STACK_OPERATION
  else
    nKeysCount ← script_num (stacktop 1) CScriptNum.nDefaultMaxNumSize;
    let nKeysCount := CScriptNum.getint nKeysCount in
    if (nKeysCount <? 0) || (MAX_PUBKEYS_PER_MULTISIG <? nKeysCount) then Err SCRIPT_ERR_PUBKEY_COUNT
    else
      let nOpCount := m.(nOpCount) + nKeysCount in
      if MAX_OPS_PER_SCRIPT <? nOpCount then Err SCRIPT_ERR_OP_COUNT
      else if size <? 2 + nKeysCount then Err SCRIPT_ERR_INVALID_STACK_OPERATION
      else
        nSigsCount ← script_num (stacktop (2 + nKeysCount)) CScriptNum.nDefaultMaxNumSize;
        let nSigsCount := CScriptNum.getint nSigsCount in
        if (nSigsCount <? 0) || (nKeysCount <? nSigsCount) then Err SCRIPT_ERR_SIG_COUNT
        else if size <? 3 + nKeysCount + nSigsCount then Err SCRIPT_ERR_INVALID_STACK_OPERATION
        else
          let keys := take (Z.to_nat nKeysCount) (drop 1 m.(stack)) in
          let sigs := take (Z.to_nat nSigsCount) (drop (Z.to_nat (2 + nKeysCount)) m.(stack)) in
          let scriptCode := foldl drop_signature m.(pbegincodehash) sigs in
          fSuccess ← multisig_loop scriptCode sigs keys;
          if negb fSuccess && has_flag flags SCRIPT_VERIFY_NULLFAIL && existsb (fun s => negb (is_nil s)) sigs
          then Err SCRIPT_ERR_SIG_NULLFAIL
          else
            match drop (Z.to_nat (2 + nKeysCount + nSigsCount)) m.(stack) with
            | [] => Err SCRIPT_ERR_INVALID_STACK_OPERATION
            | dummy :: s =>
              if has_flag flags SCRIPT_VERIFY_NULLDUMMY && negb (is_nil dummy)
              then Err SCRIPT_ERR_SIG_NULLDUMMY
              else
                let m := Machine m.(pc) m.(pbegincodehash) m.(stack) m.(altstack) m.(vfExec) nOpCount in
                if verify then if fSuccess then Ok (set_stack m s) else Err SCRIPT_ERR_CHECKMULTISIGVERIFY
                else Ok (set_stack m (push_bool fSuccess s))
            end.

(** The [switch]; [fExec] is false only for the opcodes from [OP_IF] to [OP_ENDIF]. *)
Definition exec_op (fExec : bool) (opcode : Z) (m : machine) : result ScriptError machine :=
  let o := opcode_of opcode in
  match o with
  | O_1NEGATE | O_1 | O_2 | O_3 | O_4 | O_5 | O_6 | O_7 | O_8 | O_9 | O_10 | O_11 | O_12 | O_13
  | O_14 | O_15 | O_16 => Ok (set_stack m (CScriptNum.serialize (opcode - (OP_1 - 1)) :: m.(stack)))
  | O_NOP => Ok m
  | O_CHECKLOCKTIMEVERIFY => op_checklocktimeverify m
  | O_CHECKSEQUENCEVERIFY => op_checksequenceverify m
  | O_NOP1 | O_NOP4 | O_NOP5 | O_NOP6 | O_NOP7 | O_NOP8 | O_NOP9 | O_NOP10 =>
    if has_flag flags SCRIPT_VERIFY_DISCOURAGE_UPGRADABLE_NOPS
    then Err SCRIPT_ERR_DISCOURAGE_UPGRADABLE_NOPS else Ok m
  | O_IF => op_if false fExec m
  | O_NOTIF => op_if true fExec m
  | O_ELSE => op_else m
  | O_ENDIF => op_endif m
  | O_VERIFY => set_stack m <$> op_verify m.(stack)
  | O_RETURN => Err SCRIPT_ERR_OP_RETURN
  | O_TOALTSTACK => op_toaltstack m
  | O_FROMALTSTACK => op_fromaltstack m
  | O_2DROP | O_2DUP | O_3DUP | O_2OVER | O_2ROT | O_2SWAP | O_IFDUP | O_DEPTH | O_DROP | O_DUP
  | O_NIP | O_OVER | O_ROT | O_SWAP | O_TUCK | O_SIZE => set_stack m <$> stack_op o m.(stack)
  | O_PICK => set_stack m <$> op_pick false m.(stack)
  | O_ROLL => set_stack m <$> op_pick true m.(stack)
  | O_EQUAL => set_stack m <$> op_equal false m.(stack)
  | O_EQUALVERIFY => set_stack m <$> op_equal true m.(stack)
  | O_1ADD | O_1SUB | O_NEGATE | O_ABS | O_NOT | O_0NOTEQUAL => set_stack m <$> op_unary o m.(stack)
  | O_ADD | O_SUB | O_BOOLAND | O_BOOLOR | O_NUMEQUAL | O_NUMEQUALVERIFY | O_NUMNOTEQUAL
  | O_LESSTHAN | O_GREATERTHAN | O_LESSTHANOREQUAL | O_GREATERTHANOREQUAL | O_MIN | O_MAX =>
    set_stack m <$> op_binary o m.(stack)
  | O_WITHIN => set_stack m <$> op_within m.(stack)
  | O_RIPEMD160 | O_SHA1 | O_SHA256 | O_HASH160 | O_HASH256 => set_stack m <$> op_hash o m.(stack)
  | O_CODESEPARATOR => Ok (Machine m.(pc) m.(pc) m.(stack) m.(altstack) m.(vfExec) m.(nOpCount))
  | O_CHECKSIG => set_stack m <$> op_checksig false m
  | O_CHECKSIGVERIFY => set_stack m <$> op_checksig true m
  | O_CHECKMULTISIG => op_checkmultisig false m
  | O_CHECKMULTISIGVERIFY => op_checkmultisig true m
  | O_RVN_ASSET => Ok m
  | _ => Err SCRIPT_ERR_BAD_OPCODE
  end.

(** The body of [while (pc < pend)]. *)
Definition step (m : machine) : result ScriptError machine :=
  let fExec := forallb id m.(vfExec) in
  match GetOp2 m.(pc) with
  | None => Err SCRIPT_ERR_BAD_OPCODE
  | Some (opcode, vchPushValue, pc') =>
    let nOpCount := if OP_16 <? opcode then m.(nOpCount) + 1 else m.(nOpCount) in
    if MAX_SCRIPT_ELEMENT_SIZE <? Z.of_nat (length vchPushValue) then Err SCRIPT_ERR_PUSH_SIZE
    else if (OP_16 <? opcode) && (MAX_OPS_PER_SCRIPT <? nOpCount) then Err SCRIPT_ERR_OP_COUNT
    else if is_disabled (opcode_of opcode) then Err SCRIPT_ERR_DISABLED_OPCODE
    else
      let m := Machine pc' m.(pbegincodehash) m.(stack) m.(altstack) m.(vfExec) nOpCount in
      m ← (if fExec && (0 <=? opcode) && (opcode <=? OP_PUSHDATA4) then
             if fRequireMinimal && negb (CheckMinimalPush vchPushValue opcode)
             then Err SCRIPT_ERR_MINIMALDATA
             else Ok (set_stack m (vchPushValue :: m.(stack)))
           else if fExec || ((OP_IF <=? opcode) && (opcode <=? OP_ENDIF)) then exec_op fExec opcode m
           else Ok m);
      if MAX_STACK_SIZE <? Z.of_nat (length m.(stack) + length m.(altstack)) then Err SCRIPT_ERR_STACK_SIZE
      else Ok m
  end.

(** The loop; [None] when the fuel is used up before the script. *)
Fixpoint run (fuel : nat) (m : machine) : option (result ScriptError machine) :=
  match m.(pc), fuel with
  | [], _ => Some (Ok m)
  | _, O => None
  | _, S fuel' => match step m with Ok m' => run fuel' m' | Err e => Some (Err e) end
  end.

(** The stack that [EvalScript] leaves behind when it returns true. *)
Definition EvalScript (s : list bytes) (script : CScript) : result ScriptError (list bytes) :=
  if MAX_SCRIPT_SIZE <? Z.of_nat (length script) then Err SCRIPT_ERR_SCRIPT_SIZE
  else
    match run (length script) (Machine script script s [] [] 0) with
    | None => Err SCRIPT_ERR_UNKNOWN_ERROR
    | Some (Err e) => Err e
    | Some (Ok m) => if is_nil m.(vfExec) then Ok m.(stack) else Err SCRIPT_ERR_UNBALANCED_CONDITIONAL
    end.

End Eval.

(** ** [VerifyScript] *)

(** A return value of false with its error, or a failed [assert]. *)
Inductive verify_failure := Fails (e : ScriptError) | Aborts.

Definition lift {A} (r : result ScriptError A) : result verify_failure A :=
  match r with Ok a => Ok a | Err e => Err (Fails e) end.

Section Verify.
Context `{SH : ScriptHash} `{EC : Ecdsa}.
Context (flags : Z) (checker : BaseSignatureChecker).

(** [stack.empty()] or a top element that is false. *)
Definition ends_false (s : list bytes) : bool :=
  match s with [] => true | top :: _ => negb (CastToBool top) end.

(** The end of [VerifyWitnessProgram]: the script runs on the witness stack and
    leaves exactly one element, which is true. *)
Definition execute_witness (s : list bytes) (scriptPubKey : CScript) : result ScriptError unit :=
  if existsb (fun v => MAX_SCRIPT_ELEMENT_SIZE <? Z.of_nat (length v)) s then Err SCRIPT_ERR_PUSH_SIZE
  else
    s ← EvalScript flags checker SIGVERSION_WITNESS_V0 s scriptPubKey;
    if negb (length s =? 1)%nat || ends_false s then Err SCRIPT_ERR_EVAL_FALSE else Ok tt.

Definition VerifyWitnessProgram (witness : list bytes) (witversion : Z) (program : bytes)
  : result ScriptError unit :=
  if witversion =? 0 then
    if (length program =? 32)%nat then
      match rev witness with
      | [] => Err SCRIPT_ERR_WITNESS_PROGRAM_WITNESS_EMPTY
      | script :: s =>
        if negb (bytes_eq (sha256 script) program) then Err SCRIPT_ERR_WITNESS_PROGRAM_MISMATCH
        else execute_witness s script
      end
    else if (length program =? 20)%nat then
      if negb (length witness =? 2)%nat then Err SCRIPT_ERR_WITNESS_PROGRAM_MISMATCH
      else execute_witness (rev witness)
             (push_bytes [OP_DUP; OP_HASH160] program ++ [OP_EQUALVERIFY; OP_CHECKSIG])
    else Err SCRIPT_ERR_WITNESS_PROGRAM_WRONG_LENGTH
  else if has_flag flags SCRIPT_VERIFY_DISCOURAGE_UPGRADABLE_WITNESS_PROGRAM
  then Err SCRIPT_ERR_DISCOURAGE_UPGRADABLE_WITNESS_PROGRAM
  else Ok tt.

(** A witness program found in [script], executed; [malleated] is the test on the
    scriptSig.  The result is [hadWitness] and the stack, cut by [stack.resize(1)]. *)
Definition witness_part (script : CScript) (malleated : bool) (e : ScriptError) (witness : list bytes)
  (s : list bytes) (hadWitness : bool) : result ScriptError (bool * list bytes) :=
  if has_flag flags SCRIPT_VERIFY_WITNESS then
    match IsWitnessProgram script with
    | Some (witnessversion, witnessprogram) =>
      if malleated then Err e
      else
        _ ← VerifyWitnessProgram witness witnessversion witnessprogram;
        Ok (true, [List.last s []])
    | None => Ok (hadWitness, s)
    end
  else Ok (hadWitness, s).

(** The evaluation of a pay-to-script-hash redeem script on the stack that the
    scriptSig left. *)
Definition p2sh_part (scriptSig : CScript) (witness stackCopy : list bytes) (hadWitness : bool)
  : result verify_failure (bool * list bytes) :=
  if negb (IsPushOnly scriptSig) then Err (Fails SCRIPT_ERR_SIG_PUSHONLY)
  else
    match stackCopy with
    | [] => Err Aborts
    | pubKey2 :: s =>
      s ← lift (EvalScript flags checker SIGVERSION_BASE s pubKey2);
      if ends_false s then Err (Fails SCRIPT_ERR_EVAL_FALSE)
      else lift (witness_part pubKey2 (negb (bytes_eq scriptSig (push_bytes [] pubKey2)))
                   SCRIPT_ERR_WITNESS_MALLEATED_P2SH witness s hadWitness)
    end.

(** The checks on what is left: the stack is clean and the witness was used. *)
Definition final_part (witness s : list bytes) (hadWitness : bool) : result verify_failure unit :=
  let p2sh := has_flag flags SCRIPT_VERIFY_P2SH in
  let segwit := has_flag flags SCRIPT_VERIFY_WITNESS in
  if has_flag flags SCRIPT_VERIFY_CLEANSTACK && negb (p2sh && segwit) then Err Aborts
  else if has_flag flags SCRIPT_VERIFY_CLEANSTACK && negb (length s =? 1)%nat
  then Err (Fails SCRIPT_ERR_CLEANSTACK)
  else if segwit && negb p2sh then Err Aborts
  else if segwit && negb hadWitness && negb (is_nil witness)
  then Err (Fails SCRIPT_ERR_WITNESS_UNEXPECTED)
  else Ok tt.

Definition VerifyScript (scriptSig scriptPubKey : CScript) (witness : list bytes)
  : result verify_failure unit :=
  if has_flag flags SCRIPT_VERIFY_SIGPUSHONLY && negb (IsPushOnly scriptSig)
  then Err (Fails SCRIPT_ERR_SIG_PUSHONLY)
  else
    stackCopy ← lift (EvalScript flags checker SIGVERSION_BASE [] scriptSig);
    s ← lift (EvalScript flags checker SIGVERSION_BASE stackCopy scriptPubKey);
    if ends_false s then Err (Fails SCRIPT_ERR_EVAL_FALSE)
    else
      '(hadWitness, s) ← lift (witness_part scriptPubKey (negb (is_nil scriptSig))
                                 SCRIPT_ERR_WITNESS_MALLEATED witness s false);
      '(hadWitness, s) ←
        (if has_flag flags SCRIPT_VERIFY_P2SH && IsPayToScriptHash scriptPubKey
         then p2sh_part scriptSig witness stackCopy hadWitness
         else Ok (hadWitness, s));
      final_part witness s hadWitness.

End Verify.

(** ** Signature operations in witnesses *)

Definition WitnessSigOps (witversion : Z) (witprogram : bytes) (witness : list bytes) : Z :=
  if witversion =? 0 then
    if (length witprogram =? 20)%nat then 1
    else if (length witprogram =? 32)%nat && negb (is_nil witness)
    then GetSigOpCount true (List.last witness [])
    else 0
  else 0.

(** [None] is the failed [assert] on the flags. *)
Definition CountWitnessSigOps (scriptSig scriptPubKey : CScript) (witness : list bytes) (flags : Z)
  : option Z :=
  if negb (has_flag flags SCRIPT_VERIFY_WITNESS) then Some 0
  else if negb (has_flag flags SCRIPT_VERIFY_P2SH) then None
  else
    match IsWitnessProgram scriptPubKey with
    | Some (version, program) => Some (WitnessSigOps version program witness)
    | None =>
      if IsPayToScriptHash scriptPubKey && IsPushOnly scriptSig then
        let subscript := List.last (snd <$> (script_ops scriptSig).1) [] in
        match IsWitnessProgram subscript with
        | Some (version, program) => Some (WitnessSigOps version program witness)
        | None => Some 0
        end
      else Some 0
    end.

(** ** The signature hash *)

(** Where [GetOp2] leaves the iterator when it fails. *)
Definition GetOp2_stop (pc : CScript) : CScript :=
  match pc with
  | [] => []
  | opcode :: rest =>
    if opcode <=? OP_PUSHDATA4
    then match push_size opcode rest with Some (_, rest') => rest' | None => rest end
    else rest
  end.

(** The second loop of [SerializeScriptCode]: the code between separators. *)
Fixpoint code_parts (fuel : nat) (it itBegin : CScript) : bytes :=
  match fuel, GetOp2 it with
  | S fuel', Some (opcode, _, it') =>
    if opcode =? OP_CODESEPARATOR
    then take (length itBegin - length it' - 1) itBegin ++ code_parts fuel' it' it'
    else code_parts fuel' it' itBegin
  | _, _ => take (length itBegin - length (GetOp2_stop it)) itBegin
  end.

Definition SerializeScriptCode (scriptCode : CScript) : bytes :=
  let nCodeSeparators := length (filter (fun p => p.1 = OP_CODESEPARATOR) (script_ops scriptCode).1) in
  WriteCompactSize (Z.of_nat (length scriptCode - nCodeSeparators))
  ++ code_parts (length scriptCode) scriptCode scriptCode.

(** [CTransactionSignatureSerializer], with the hash type it is built from. *)
Section Serializer.
Context (txTo : CTransaction) (scriptCode : CScript) (nIn : nat) (nHashType : Z).

Definition fAnyoneCanPay : bool := negb (Z.land nHashType SIGHASH_ANYONECANPAY =? 0).
Definition fHashSingle : bool := Z.land nHashType 0x1f =? SIGHASH_SINGLE.
Definition fHashNone : bool := Z.land nHashType 0x1f =? SIGHASH_NONE.

Definition SerializeInput (nInput : nat) (txin : CTxIn) : bytes :=
  ser c_outpoint txin.(prevout)
  ++ (if negb (nInput =? nIn)%nat then ser bytevec [] else SerializeScriptCode scriptCode)
  ++ (if negb (nInput =? nIn)%nat && (fHashSingle || fHashNone) then ser i32 0 else ser u32 txin.(nSequence)).

Definition SerializeOutput (nOutput : nat) (txout : CTxOut) : bytes :=
  if fHashSingle && negb (nOutput =? nIn)%nat then ser c_txout (MkTxOut (-1) []) else ser c_txout txout.

Definition Serialize_signed : bytes :=
  let inputs := imap SerializeInput txTo.(vin) in
  let outputs := imap SerializeOutput txTo.(vout) in
  ser i32 txTo.(nVersion)
  ++ (if fAnyoneCanPay then WriteCompactSize 1 ++ inputs !!! nIn
      else WriteCompactSize (Z.of_nat (length txTo.(vin))) ++ mjoin inputs)
  ++ (if fHashNone then WriteCompactSize 0
      else if fHashSingle then WriteCompactSize (Z.of_nat (nIn + 1)) ++ mjoin (take (nIn + 1) outputs)
      else WriteCompactSize (Z.of_nat (length txTo.(vout))) ++ mjoin outputs)
  ++ ser u32 txTo.(nLockTime).

End Serializer.

Record PrecomputedTransactionData := MkPrecomputed {
  hashPrevouts : uint256; hashSequence : uint256; hashOutputs : uint256; ready : bool;
}.

Section SigHash.
Context `{HS : Hash256} `{EC : Ecdsa}.

Definition GetPrevoutHash (txTo : CTransaction) : uint256 :=
  hash256 (mjoin ((fun i => ser c_outpoint i.(prevout)) <$> txTo.(vin))).
Definition GetSequenceHash (txTo : CTransaction) : uint256 :=
  hash256 (mjoin ((fun i => ser u32 i.(nSequence)) <$> txTo.(vin))).
Definition GetOutputsHash (txTo : CTransaction) : uint256 :=
  hash256 (mjoin (ser c_txout <$> txTo.(vout))).

Definition precompute (txTo : CTransaction) : PrecomputedTransactionData :=
  if HasWitness txTo
  then MkPrecomputed (GetPrevoutHash txTo) (GetSequenceHash txTo) (GetOutputsHash txTo) true
  else MkPrecomputed 0 0 0 false.

(** [None] is the failed [assert] on the index. *)
Definition SignatureHash (scriptCode : CScript) (txTo : CTransaction) (nIn : nat) (nHashType amount : Z)
  (sigversion : SigVersion) (cache : option PrecomputedTransactionData) : option uint256 :=
  match txTo.(vin) !! nIn, sigversion with
  | None, _ => None
  | Some txin, SIGVERSION_WITNESS_V0 =>
    let acp := fAnyoneCanPay nHashType in
    let single := fHashSingle nHashType in
    let none := fHashNone nHashType in
    let cached (f : PrecomputedTransactionData -> uint256) (h : uint256) :=
      match cache with Some c => if c.(ready) then f c else h | None => h end in
    let prevouts := if acp then 0 else cached hashPrevouts (GetPrevoutHash txTo) in
    let sequence := if negb acp && negb single && negb none
                    then cached hashSequence (GetSequenceHash txTo) else 0 in
    let outputs :=
      if negb single && negb none then cached hashOutputs (GetOutputsHash txTo)
      else match single, txTo.(vout) !! nIn with
           | true, Some txout => hash256 (ser c_txout txout)
           | _, _ => 0
           end in
    Some (hash256
      (ser i32 txTo.(nVersion) ++ ser (blob 32) prevouts ++ ser (blob 32) sequence
       ++ ser c_outpoint txin.(prevout) ++ ser bytevec scriptCode ++ ser i64 amount
       ++ ser u32 txin.(nSequence) ++ ser (blob 32) outputs ++ ser u32 txTo.(nLockTime)
       ++ ser i32 nHashType))
  | Some _, SIGVERSION_BASE =>
    if fHashSingle nHashType && (length txTo.(vout) <=? nIn)%nat then Some 1
    else Some (hash256 (Serialize_signed txTo scriptCode nIn nHashType ++ ser i32 nHashType))
  end.

(** [CPubKey(vch)] and [IsValid]: the length that the first byte announces. *)
Definition GetLen (chHeader : Z) : Z :=
  if (chHeader =? 2) || (chHeader =? 3) then 33
  else if (chHeader =? 4) || (chHeader =? 6) || (chHeader =? 7) then 65
  else 0.
Definition CPubKey_IsValid (vch : bytes) : bool :=
  match vch with
  | [] => false
  | h :: _ => negb (GetLen h =? 0) && (GetLen h =? Z.of_nat (length vch))
  end.

(** The methods of [TransactionSignatureChecker] for the input [nIn] of [txTo]. *)
Section Checker.
Context (txTo : CTransaction) (nIn : nat) (amount : Z) (txdata : option PrecomputedTransactionData).

Definition input_sequence : Z :=
  match txTo.(vin) !! nIn with Some txin => txin.(nSequence) | None => 0 end.

Definition Tx_CheckSig (vchSigIn vchPubKey : bytes) (scriptCode : CScript) (sigversion : SigVersion) : bool :=
  if negb (CPubKey_IsValid vchPubKey) then false
  else if is_nil vchSigIn then false
  else
    let nHashType := List.last vchSigIn 0 in
    let vchSig := take (length vchSigIn - 1) vchSigIn in
    match SignatureHash scriptCode txTo nIn nHashType amount sigversion txdata with
    | Some sighash => ecdsa_verify vchPubKey sighash vchSig
    | None => false
    end.

Definition Tx_CheckLockTime (lockTime : Z) : bool :=
  if negb (((txTo.(nLockTime) <? LOCKTIME_THRESHOLD) && (lockTime <? LOCKTIME_THRESHOLD))
           || ((LOCKTIME_THRESHOLD <=? txTo.(nLockTime)) && (LOCKTIME_THRESHOLD <=? lockTime)))
  then false
  else if txTo.(nLockTime) <? lockTime then false
  else if SEQUENCE_FINAL =? input_sequence then false
  else true.

Definition Tx_CheckSequence (sequence : Z) : bool :=
  let txToSequence := input_sequence in
  if wrapu 32 txTo.(nVersion) <? 2 then false
  else if negb (Z.land txToSequence SEQUENCE_LOCKTIME_DISABLE_FLAG =? 0) then false
  else
    let nLockTimeMask := Z.lor SEQUENCE_LOCKTIME_TYPE_FLAG SEQUENCE_LOCKTIME_MASK in
    let txToSequenceMasked := Z.land txToSequence nLockTimeMask in
    let nSequenceMasked := Z.land sequence nLockTimeMask in
    if negb (((txToSequenceMasked <? SEQUENCE_LOCKTIME_TYPE_FLAG)
              && (nSequenceMasked <? SEQUENCE_LOCKTIME_TYPE_FLAG))
             || ((SEQUENCE_LOCKTIME_TYPE_FLAG <=? txToSequenceMasked)
                 && (SEQUENCE_LOCKTIME_TYPE_FLAG <=? nSequenceMasked)))
    then false
    else negb (txToSequenceMasked <? nSequenceMasked).

Definition TransactionSignatureChecker : BaseSignatureChecker :=
  MkChecker Tx_CheckSig Tx_CheckLockTime Tx_CheckSequence.

End Checker.
End SigHash.

(** ** Flags of the callers *)

Definition flags_of (l : list script_flag) : Z :=
  foldl (fun flags f => Z.lor flags (Z.shiftl 1 (flag_bit f))) 0 l.

(** policy/policy.h and script/standard.h: what the mempool asks of a script. *)
Definition STANDARD_SCRIPT_VERIFY_FLAGS : Z :=
  flags_of [SCRIPT_VERIFY_P2SH; SCRIPT_VERIFY_DERSIG; SCRIPT_VERIFY_STRICTENC; SCRIPT_VERIFY_MINIMALDATA;
            SCRIPT_VERIFY_NULLDUMMY; SCRIPT_VERIFY_DISCOURAGE_UPGRADABLE_NOPS; SCRIPT_VERIFY_CLEANSTACK;
            SCRIPT_VERIFY_MINIMALIF; SCRIPT_VERIFY_NULLFAIL; SCRIPT_VERIFY_CHECKLOCKTIMEVERIFY;
            SCRIPT_VERIFY_CHECKSEQUENCEVERIFY; SCRIPT_VERIFY_LOW_S; SCRIPT_VERIFY_WITNESS;
            SCRIPT_VERIFY_DISCOURAGE_UPGRADABLE_WITNESS_PROGRAM; SCRIPT_VERIFY_WITNESS_PUBKEYTYPE].

(** validation.cpp: what a block with this time asks, given the four switches of
    the consensus parameters. *)
Definition GetBlockScriptFlags (nBIP66Enabled nBIP65Enabled nCSVEnabled nSegwitEnabled : bool) (nTime : Z) : Z :=
  let add (b : bool) f flags := if b then Z.lor flags (Z.shiftl 1 (flag_bit f)) else flags in
  let nBIP16SwitchTime := 1333238400 in
  let flags := flags_of (if nBIP16SwitchTime <=? nTime then [SCRIPT_VERIFY_P2SH] else []) in
  let flags := add nBIP66Enabled SCRIPT_VERIFY_DERSIG flags in
  let flags := add nBIP65Enabled SCRIPT_VERIFY_CHECKLOCKTIMEVERIFY flags in
  let flags := add nCSVEnabled SCRIPT_VERIFY_CHECKSEQUENCEVERIFY flags in
  let flags := add nSegwitEnabled SCRIPT_VERIFY_WITNESS flags in
  add nSegwitEnabled SCRIPT_VERIFY_NULLDUMMY flags.
