(* ===== verification/Standard.v ===== *)
(** script/standard.cpp: the standard forms of an output script, how they are
    recognised ([Solver]), the destinations read from them and the scripts built
    for a destination. *)

From S2P Require Import Prelude Serialize Script Interpreter.

(** ** script/standard.h *)

(** The values of [txnouttype] that script/script.cpp does not use. *)
Abbreviation TX_NONSTANDARD := 0%Z (only parsing).
Abbreviation TX_PUBKEY := 1%Z (only parsing).
Abbreviation TX_PUBKEYHASH := 2%Z (only parsing).
Abbreviation TX_SCRIPTHASH := 3%Z (only parsing).
Abbreviation TX_MULTISIG := 4%Z (only parsing).
Abbreviation TX_NULL_DATA := 5%Z (only parsing).
Abbreviation TX_WITNESS_V0_SCRIPTHASH := 6%Z (only parsing).
Abbreviation TX_WITNESS_V0_KEYHASH := 7%Z (only parsing).
Abbreviation TX_RESTRICTED_ASSET_DATA := 11%Z (only parsing).

(** The opcodes of the templates. *)
Abbreviation OP_SMALLINTEGER := 0xfa%Z (only parsing).
Abbreviation OP_PUBKEYS := 0xfb%Z (only parsing).
Abbreviation OP_PUBKEYHASH := 0xfd%Z (only parsing).
Abbreviation OP_PUBKEY := 0xfe%Z (only parsing).

(** A 160-bit identifier is its 20 bytes. *)
Inductive CTxDestination :=
| CNoDestination
| CKeyID (h : bytes)
| CScriptID (h : bytes).

#[export] Instance CTxDestination_eq_dec : EqDecision CTxDestination.
Proof. solve_decision. Defined.

Definition IsValidDestination (dest : CTxDestination) : bool :=
  match dest with CNoDestination => false | _ => true end.

(** ** Recognition *)

(** What [Solver] leaves in its reference arguments, with its return value. *)
Record solved := MkSolved { found : bool; typeRet : Z; vSolutionsRet : list bytes }.

(** The templates in the order of the multimap, which is that of the types. *)
Definition mTemplates : list (Z * CScript) :=
  [(TX_PUBKEY, [OP_PUBKEY; OP_CHECKSIG]);
   (TX_PUBKEYHASH, [OP_DUP; OP_HASH160; OP_PUBKEYHASH; OP_EQUALVERIFY; OP_CHECKSIG]);
   (TX_MULTISIG, [OP_SMALLINTEGER; OP_PUBKEYS; OP_SMALLINTEGER; OP_CHECKMULTISIG])].

(** [GetOp] on a reference iterator: the variables after a failed call. *)
Definition GetOp_ref (pc : CScript) : bool * (Z * bytes * CScript) :=
  match GetOp2 pc with
  | Some r => (true, r)
  | None => (false, (OP_INVALIDOPCODE, [], GetOp2_stop pc))
  end.

Definition key_size (vch : bytes) : bool := (33 <=? length vch)%nat && (length vch <=? 65)%nat.

(** The inner loop of [OP_PUBKEYS]. *)
Fixpoint take_pubkeys (fuel : nat) (r : Z * bytes * CScript) (sols : list bytes)
  : (Z * bytes * CScript) * list bytes :=
  match fuel with
  | O => (r, sols)
  | S fuel' =>
    let '(opcode1, vch1, pc1) := r in
    if key_size vch1 then
      let sols := sols ++ [vch1] in
      match GetOp_ref pc1 with
      | (true, r') => take_pubkeys fuel' r' sols
      | (false, r') => (r', sols)
      end
    else (r, sols)
  end.

(** The chain of tests on one template opcode; [None] is [break]. *)
Definition match_op (opcode1 : Z) (vch1 : bytes) (opcode2 : Z) (vch2 : bytes) (sols : list bytes)
  : option (list bytes) :=
  if opcode2 =? OP_PUBKEY then if key_size vch1 then Some (sols ++ [vch1]) else None
  else if opcode2 =? OP_PUBKEYHASH then if (length vch1 =? 20)%nat then Some (sols ++ [vch1]) else None
  else if opcode2 =? OP_SMALLINTEGER then
    if (opcode1 =? OP_0) || ((OP_1 <=? opcode1) && (opcode1 <=? OP_16))
    then n ← DecodeOP_N opcode1; Some (sols ++ [[n]])
    else None
  else if negb (opcode1 =? opcode2) || negb (bytes_eq vch1 vch2) then None
  else Some sols.

(** The loop that compares a script with a template; [None] when it breaks. *)
Fixpoint match_template (fuel : nat) (pc1 pc2 : CScript) (sols : list bytes) : option (list bytes) :=
  match fuel with
  | O => None
  | S fuel' =>
    if is_nil pc1 && is_nil pc2 then Some sols
    else
      '(opcode1, vch1, pc1) ← GetOp2 pc1;
      '(opcode2, vch2, pc2) ← GetOp2 pc2;
      if opcode2 =? OP_PUBKEYS then
        let '((opcode1, vch1, pc1), sols) := take_pubkeys (S (length pc1)) (opcode1, vch1, pc1) sols in
        '(opcode2, vch2, pc2) ← GetOp2 pc2;
        sols ← match_op opcode1 vch1 opcode2 vch2 sols;
        match_template fuel' pc1 pc2 sols
      else
        sols ← match_op opcode1 vch1 opcode2 vch2 sols;
        match_template fuel' pc1 pc2 sols
  end.

(** The additional checks on a multisignature script. *)
Definition multisig_ok (sols : list bytes) : bool :=
  let m := at_ (hd [] sols) 0 in
  let n := at_ (List.last sols []) 0 in
  negb ((m <? 1) || (n <? 1) || (n <? m) || negb (Z.of_nat (length sols) - 2 =? n)).

(** [for (const std::pair<txnouttype, CScript>& tplate : mTemplates)] *)
Fixpoint scan_templates (l : list (Z * CScript)) (script1 : CScript) : solved :=
  match l with
  | [] => MkSolved false TX_NONSTANDARD []
  | (type, script2) :: l' =>
    match match_template (S (length script1)) script1 script2 [] with
    | Some sols =>
      if (type =? TX_MULTISIG) && negb (multisig_ok sols) then MkSolved false type sols
      else MkSolved true type sols
    | None => scan_templates l' script1
    end
  end.

(** [typeRet0] is the value of the caller's variable. *)
Definition Solver (scriptPubKey : CScript) (typeRet0 : Z) : solved :=
  if IsPayToScriptHash scriptPubKey then MkSolved true TX_SCRIPTHASH [take 20 (drop 2 scriptPubKey)]
  else
    match IsAssetScript3 scriptPubKey, IsWitnessProgram scriptPubKey with
    | Some (nType, _, _), _ => MkSolved true nType [take 20 (drop 3 scriptPubKey)]
    | None, Some (witnessversion, witnessprogram) =>
      if (witnessversion =? 0) && (length witnessprogram =? 20)%nat
      then MkSolved true TX_WITNESS_V0_KEYHASH [witnessprogram]
      else if (witnessversion =? 0) && (length witnessprogram =? 32)%nat
      then MkSolved true TX_WITNESS_V0_SCRIPTHASH [witnessprogram]
      else MkSolved false typeRet0 []
    | None, None =>
      if negb (is_nil scriptPubKey) && (at_ scriptPubKey 0 =? OP_RETURN) && IsPushOnly (drop 1 scriptPubKey)
      then MkSolved true TX_NULL_DATA []
      else if negb (is_nil scriptPubKey) && (at_ scriptPubKey 0 =? OP_RVN_ASSET)
              && IsPushOnly (drop 1 scriptPubKey)
      then MkSolved true TX_RESTRICTED_ASSET_DATA
             (if (23 <=? length scriptPubKey)%nat && negb (at_ scriptPubKey 1 =? OP_RESERVED)
              then [take 20 (drop 2 scriptPubKey)] else [])
      else scan_templates mTemplates scriptPubKey
    end.

(** ** Destinations *)

Section Destinations.
Context `{SH : ScriptHash}.

(** [CPubKey::GetID] *)
Definition GetID (vch : bytes) : bytes := ripemd160 (sha256 vch).

(** The address that is written when the return value is true. *)
Definition ExtractDestination (scriptPubKey : CScript) : option CTxDestination :=
  let s := Solver scriptPubKey TX_NONSTANDARD in
  let sol := hd [] s.(vSolutionsRet) in
  if negb s.(found) then None
  else if s.(typeRet) =? TX_PUBKEY then if CPubKey_IsValid sol then Some (CKeyID (GetID sol)) else None
  else if s.(typeRet) =? TX_PUBKEYHASH then Some (CKeyID sol)
  else if s.(typeRet) =? TX_SCRIPTHASH then Some (CScriptID sol)
  else if (s.(typeRet) =? TX_NEW_ASSET) || (s.(typeRet) =? TX_REISSUE_ASSET)
          || (s.(typeRet) =? TX_TRANSFER_ASSET) then Some (CKeyID sol)
  else if (s.(typeRet) =? TX_RESTRICTED_ASSET_DATA) && negb (is_nil s.(vSolutionsRet))
  then Some (CKeyID sol)
  else None.

(** The type, the addresses and the number of signatures required. *)
Definition ExtractDestinations (scriptPubKey : CScript) : option (Z * list CTxDestination * Z) :=
  let s := Solver scriptPubKey TX_NONSTANDARD in
  if negb s.(found) then None
  else if s.(typeRet) =? TX_NULL_DATA then None
  else if s.(typeRet) =? TX_MULTISIG then
    let nRequiredRet := at_ (hd [] s.(vSolutionsRet)) 0 in
    let keys := take (length s.(vSolutionsRet) - 2) (drop 1 s.(vSolutionsRet)) in
    let addressRet := (fun key => CKeyID (GetID key)) <$> filter (fun key => CPubKey_IsValid key = true) keys in
    if is_nil addressRet then None else Some (s.(typeRet), addressRet, nRequiredRet)
  else
    address ← ExtractDestination scriptPubKey;
    Some (s.(typeRet), [address], 1).

(** ** Scripts for destinations *)

Definition GetScriptForDestination (dest : CTxDestination) : CScript :=
  match dest with
  | CNoDestination => []
  | CKeyID keyID => push_bytes [OP_DUP; OP_HASH160] keyID ++ [OP_EQUALVERIFY; OP_CHECKSIG]
  | CScriptID scriptID => push_bytes [OP_HASH160] scriptID ++ [OP_EQUAL]
  end.

Definition GetScriptForNullAssetDataDestination (dest : CTxDestination) : CScript :=
  match dest with
  | CNoDestination => []
  | CKeyID h | CScriptID h => push_bytes [OP_RVN_ASSET] h
  end.

Definition GetScriptForRawPubKey (pubKey : bytes) : CScript := push_bytes [] pubKey ++ [OP_CHECKSIG].

(** [None] is the failed [assert] of [EncodeOP_N]. *)
Definition GetScriptForMultisig (nRequired : Z) (keys : list bytes) : option CScript :=
  m ← EncodeOP_N nRequired;
  n ← EncodeOP_N (Z.of_nat (length keys));
  Some (foldl push_bytes [m] keys ++ [n; OP_CHECKMULTISIG]).

Definition GetScriptForWitness (redeemscript : CScript) : CScript :=
  let s := Solver redeemscript TX_NONSTANDARD in
  if s.(found) && (s.(typeRet) =? TX_PUBKEY) then push_bytes [OP_0] (GetID (hd [] s.(vSolutionsRet)))
  else if s.(found) && (s.(typeRet) =? TX_PUBKEYHASH) then push_bytes [OP_0] (hd [] s.(vSolutionsRet))
  else push_bytes [OP_0] (sha256 redeemscript).

End Destinations.

(** ** The scripts that are built are recognised *)

(** The pushes of [keys], one after the other. *)
Definition pushes (keys : list bytes) : CScript := mjoin (push_bytes [] <$> keys).

Lemma push_bytes_app s b : push_bytes s b = s ++ push_bytes [] b.
Proof. done. Qed.

Lemma foldl_pushes keys : forall s, foldl push_bytes s keys = s ++ pushes keys.
Proof.
  induction keys as [|k keys IH]; intros s; cbn [foldl]; [by rewrite app_nil_r|].
  rewrite IH, push_bytes_app, <- app_assoc. done.
Qed.

Lemma pushes_length keys : forallb key_size keys = true -> (34 * length keys <= length (pushes keys))%nat.
Proof.
  induction keys as [|k keys IH]; [done|]. cbn [forallb]. intros [Hk H]%andb_true_iff. specialize (IH H).
  unfold key_size in Hk. change (pushes (k :: keys)) with (push_bytes [] k ++ pushes keys).
  rewrite push_bytes_short, length_app by lia. cbn. lia.
Qed.

(** The keys of a multisignature script are read up to the opcode behind them. *)
Lemma take_pubkeys_pushes keys : forall fuel k o rest o' sols, key_size k = true -> forallb key_size keys = true ->
  0x4e < o' -> o' <> OP_RVN_ASSET -> (length keys < fuel)%nat ->
  take_pubkeys (S fuel) (o, k, pushes keys ++ o' :: rest) sols = ((o', [], rest), sols ++ k :: keys).
Proof.
  induction keys as [|k' keys IH]; intros fuel k o rest o' sols Hk Hks Ho Ha Hf; cbn [take_pubkeys]; rewrite Hk.
  - cbn [pushes fmap list_fmap mjoin list_join app]. unfold GetOp_ref. cbn [GetOp2].
    replace (o' <=? 0x4e) with false by lia. replace (o' =? 0xc0) with false by lia. cbn iota.
    destruct fuel; [cbn in Hf; lia|]. done.
  - cbn [forallb] in Hks. apply andb_true_iff in Hks as [Hk' Hks].
    change (pushes (k' :: keys)) with (push_bytes [] k' ++ pushes keys).
    unfold GetOp_ref. rewrite <- app_assoc, GetOp2_push_short by (unfold key_size in Hk'; lia). cbn iota.
    destruct fuel as [|fuel]; [cbn in Hf; lia|]. rewrite IH by (try done; cbn in Hf; lia).
    by rewrite <- app_assoc.
Qed.

Lemma GetOp2_plain o rest : 0x4e < o -> o <> OP_RVN_ASSET -> GetOp2 (o :: rest) = Some (o, [], rest).
Proof. intros. cbn [GetOp2]. replace (o <=? 0x4e) with false by lia. by replace (o =? 0xc0) with false by lia. Qed.

Lemma match_small n v2 sols : 0 <= n <= 16 ->
  match_op (if n =? 0 then 0 else 80 + n) [] OP_SMALLINTEGER v2 sols = Some (sols ++ [[n]]).
Proof.
  intros. unfold match_op. cbn [Z.eqb Pos.eqb]. unfold DecodeOP_N. destruct (Z.eqb_spec n 0) as [->|]; [done|].
  replace (80 + n =? 0) with false by lia. replace (0x51 <=? 80 + n) with true by lia.
  replace (80 + n <=? 0x60) with true by lia. cbn [orb andb mbind option_bind]. repeat f_equal. lia.
Qed.

(** One turn of the loop. *)
Lemma match_step fuel pc1 pc2 sols o1 v1 p1 o2 v2 p2 :
  GetOp2 pc1 = Some (o1, v1, p1) -> GetOp2 pc2 = Some (o2, v2, p2) -> o2 <> OP_PUBKEYS ->
  match_template (S fuel) pc1 pc2 sols = sols ← match_op o1 v1 o2 v2 sols; match_template fuel p1 p2 sols.
Proof.
  intros H1 H2 Ho. cbn [match_template]. rewrite H1, H2. cbn [mbind option_bind].
  replace (o2 =? 0xfb) with false by lia. by destruct pc1.
Qed.

Lemma match_step_keys fuel pc1 pc2 sols o1 v1 p1 v2 p2 r sols' o3 v3 p3 :
  GetOp2 pc1 = Some (o1, v1, p1) -> GetOp2 pc2 = Some (OP_PUBKEYS, v2, p2) ->
  take_pubkeys (S (length p1)) (o1, v1, p1) sols = (r, sols') -> GetOp2 p2 = Some (o3, v3, p3) ->
  match_template (S fuel) pc1 pc2 sols = sols ← match_op r.1.1 r.1.2 o3 v3 sols'; match_template fuel r.2 p3 sols.
Proof.
  intros H1 H2 Ht H3. cbn [match_template]. rewrite H1, H2. cbn [mbind option_bind Z.eqb Pos.eqb].
  rewrite Ht. destruct r as [[? ?] ?]. rewrite H3. by destruct pc1.
Qed.

Lemma match_multisig fuel m keys n : 1 <= m <= 16 -> 1 <= n <= 16 -> keys <> [] -> forallb key_size keys = true ->
  match_template (5 + fuel) ((80 + m) :: pushes keys ++ [80 + n; OP_CHECKMULTISIG])
    [OP_SMALLINTEGER; OP_PUBKEYS; OP_SMALLINTEGER; OP_CHECKMULTISIG] [] = Some ([m] :: keys ++ [[n]]).
Proof.
  intros Hm Hn Hne Hk. destruct keys as [|k keys]; [done|]. cbn [forallb] in Hk. apply andb_true_iff in Hk as [Hk Hks].
  pose proof (match_small m [] [] ltac:(lia)) as Em. replace (m =? 0) with false in Em by lia.
  pose proof (match_small n [] ([m] :: k :: keys) ltac:(lia)) as En. replace (n =? 0) with false in En by lia.
  pose proof (pushes_length keys Hks) as Hl. cbn [Nat.add].
  erewrite match_step; [|apply GetOp2_plain; lia|by apply GetOp2_plain|done]. rewrite Em. cbn [app mbind option_bind].
  change (pushes (k :: keys)) with (push_bytes [] k ++ pushes keys). rewrite <- app_assoc.
  erewrite match_step_keys;
    [|by apply GetOp2_push_short; unfold key_size in Hk; lia|by apply GetOp2_plain
     |by apply take_pubkeys_pushes; try done; [lia|lia|rewrite length_app; cbn; lia]|by apply GetOp2_plain].
  cbn [fst snd app]. rewrite En. cbn [app mbind option_bind].
  erewrite match_step; [|by apply GetOp2_plain|by apply GetOp2_plain|done]. done.
Qed.

(** A multisignature script is no witness program. *)
Lemma multisig_no_program m keys n : 1 <= m <= 16 -> keys <> [] -> forallb key_size keys = true ->
  IsWitnessProgram ((80 + m) :: pushes keys ++ [n; OP_CHECKMULTISIG]) = None.
Proof.
  intros Hm Hne Hk. destruct keys as [|k keys]; [done|]. cbn [forallb] in Hk. apply andb_true_iff in Hk as [Hk Hks].
  unfold key_size in Hk. unfold IsWitnessProgram. change (pushes (k :: keys)) with (push_bytes [] k ++ pushes keys).
  rewrite push_bytes_short by lia. cbn [app length]. rewrite !length_app. cbn [length]. unfold at_. cbn [lookup_total list_lookup_total].
  destruct keys as [|k' keys].
  - destruct (_ || _)%nat; [done|]. replace (negb _ && _) with false by lia.
    by replace (_ =? Z.of_nat _) with false by (cbn; lia).
  - pose proof (pushes_length (k' :: keys) Hks). cbn [length] in *.
    replace (42 <? _)%nat with true by lia. by rewrite orb_true_r.
Qed.

Lemma Solver_multisig m keys n t : 1 <= m <= n -> n = Z.of_nat (length keys) -> n <= 16 -> forallb key_size keys = true ->
  let s := (80 + m) :: pushes keys ++ [80 + n; OP_CHECKMULTISIG] in
  IsAssetScript s = false -> Solver s t = MkSolved true TX_MULTISIG ([m] :: keys ++ [[n]]).
Proof.
  intros Hm Hn Hn16 Hk s Ha. assert (keys <> []) as Hne by (intros ->; cbn in Hn; lia).
  unfold Solver. replace (IsPayToScriptHash s) with false; cycle 1.
  { unfold IsPayToScriptHash, s, at_. cbn [lookup_total list_lookup_total]. replace (80 + m =? _) with false by lia. by rewrite andb_false_r. }
  unfold IsAssetScript in Ha. destruct (IsAssetScript3 s); [done|]. unfold s at 1.
  rewrite multisig_no_program by (done || lia). unfold s at 1 2 3 4 5 6. unfold at_. cbn [lookup_total list_lookup_total is_nil negb andb].
  replace (80 + m =? 0x6a) with false by lia. replace (80 + m =? 0xc0) with false by lia. cbn [andb].
  cbn [mTemplates scan_templates]. pose proof (pushes_length keys Hk) as Hl.
  assert (exists fuel, S (length s) = 5 + fuel)%nat as (fuel & ->).
  { exists (length (pushes keys) - 1)%nat. unfold s. cbn [length]. rewrite length_app. cbn. lia. }
  unfold s. rewrite match_multisig by (done || lia).
  cbn [Nat.add]. do 2 (erewrite match_step; [|apply GetOp2_plain; lia|by apply GetOp2_plain|done]).
  unfold match_op. cbn [Z.eqb Pos.eqb key_size length Nat.leb andb mbind option_bind].
  replace (80 + m =? 0x76) with false by lia. cbn [negb orb mbind option_bind].
  unfold multisig_ok. cbn [hd]. unfold at_. rewrite app_comm_cons, last_last. cbn [lookup_total list_lookup_total length]. rewrite length_app. cbn [length].
  replace (_ <? 1) with false by lia. replace (n <? 1) with false by lia. replace (n <? m) with false by lia.
  by replace (_ - 2 =? n) with true by lia.
Qed.

Lemma valid_key_size key : CPubKey_IsValid key = true -> key_size key = true.
Proof.
  destruct key as [|h key]; [done|]. unfold CPubKey_IsValid, key_size.
  intros [_ H%Z.eqb_eq]%andb_true_iff. unfold GetLen in H. cbn [length] in *. repeat case_match; lia.
Qed.

(** An identifier of 20 bytes. *)
Definition dest_ok (dest : CTxDestination) : bool :=
  match dest with CNoDestination => false | CKeyID h | CScriptID h => (length h =? 20)%nat end.

Ltac bytes20 h :=
  let rec go n := lazymatch n with O => destruct h; [|done] | S ?n' => destruct h as [|? h]; [done|]; go n' end in
  go 20%nat.

(** A key with the marker of an asset transfer where an asset script has it. *)
Definition marker_key : bytes :=
  2 :: replicate 23 1 ++ [OP_RVN_ASSET; 7; RVN_R; RVN_V; RVN_N; RVN_T] ++ replicate 3 1.

Section Recognised.
Context `{SH : ScriptHash}.

Lemma Solver_key key t : CPubKey_IsValid key = true -> IsAssetScript (GetScriptForRawPubKey key) = false ->
  Solver (GetScriptForRawPubKey key) t = MkSolved true TX_PUBKEY [key].
Proof.
  intros Hk%valid_key_size Ha. pose proof Hk as Hl. unfold key_size in Hl. unfold GetScriptForRawPubKey in *.
  assert (push_bytes [] key ++ [0xac] = Z.of_nat (length key) :: key ++ [0xac]) as E by by rewrite push_bytes_short by lia.
  unfold Solver. replace (IsPayToScriptHash _) with false; cycle 1.
  { unfold IsPayToScriptHash. rewrite E. unfold size_is. cbn [length]. rewrite length_app. by replace (_ =? _)%nat with false by lia. }
  unfold IsAssetScript in Ha. destruct (IsAssetScript3 _); [done|].
  replace (IsWitnessProgram _) with (@None (Z * bytes)); cycle 1.
  { unfold IsWitnessProgram. rewrite E. unfold at_. cbn [lookup_total list_lookup_total length].
    destruct (_ || _)%nat; [done|]. by replace (negb _ && _) with true by lia. }
  rewrite E. unfold at_. cbn [lookup_total list_lookup_total is_nil negb].
  replace (Z.of_nat (length key) =? 0x6a) with false by lia. replace (Z.of_nat (length key) =? 0xc0) with false by lia.
  cbn [andb mTemplates scan_templates]. rewrite <- E.
  set (n := S (length (push_bytes [] key ++ [0xac]))). assert (exists fuel, n = 3 + fuel)%nat as (fuel & ->).
  { exists (length key). unfold n. rewrite E. cbn [length]. rewrite length_app. cbn. lia. }
  cbn [Nat.add]. erewrite match_step; [|apply GetOp2_push_short; lia|by apply GetOp2_plain|done].
  unfold match_op at 1. cbn [Z.eqb Pos.eqb]. rewrite Hk. cbn [app mbind option_bind].
  erewrite match_step; [|by apply GetOp2_plain|by apply GetOp2_plain|done]. done.
Qed.

Lemma multisig_script m keys : 1 <= m <= Z.of_nat (length keys) -> Z.of_nat (length keys) <= 16 ->
  GetScriptForMultisig m keys
  = Some ((80 + m) :: pushes keys ++ [80 + Z.of_nat (length keys); OP_CHECKMULTISIG]).
Proof.
  intros Hm Hn. unfold GetScriptForMultisig, EncodeOP_N.
  replace ((0 <=? m) && (m <=? 16)) with true by lia. replace (m =? 0) with false by lia. cbn [mbind option_bind].
  replace (_ && _) with true by lia. replace (_ =? 0) with false by lia. cbn [mbind option_bind].
  rewrite foldl_pushes. cbn [app]. repeat f_equal; lia.
Qed.

(** C31. Every script that is built for a destination, a key or a set of keys is
    recognised as such: the destination is read back, the key's address is found,
    and a multisignature script gives back the number of signatures and the
    address of each key.  Scripts with the marker of an asset script inside a
    key are excluded, and this is needed: there is a valid key whose script is
    taken for an asset transfer. *)
Theorem standard_scripts_recognised :
  (forall dest, dest_ok dest = true -> ExtractDestination (GetScriptForDestination dest) = Some dest) /\
  (forall key, CPubKey_IsValid key = true -> IsAssetScript (GetScriptForRawPubKey key) = false ->
     ExtractDestination (GetScriptForRawPubKey key) = Some (CKeyID (GetID key))) /\
  (forall m keys, 1 <= m <= Z.of_nat (length keys) -> Z.of_nat (length keys) <= 16 ->
     forallb CPubKey_IsValid keys = true ->
     exists s, GetScriptForMultisig m keys = Some s /\
       (IsAssetScript s = false -> ExtractDestinations s = Some (TX_MULTISIG, CKeyID ∘ GetID <$> keys, m))) /\
  (exists key, CPubKey_IsValid key = true /\
     typeRet (Solver (GetScriptForRawPubKey key) TX_NONSTANDARD) = TX_TRANSFER_ASSET).
Proof.
  split_and!; [| | |by exists marker_key].
  - intros [|h|h] Hh; [done| |]; apply Nat.eqb_eq in Hh; bytes20 h; vm_compute; reflexivity.
  - intros key Hk Ha. unfold ExtractDestination. rewrite Solver_key by done. cbn. by rewrite Hk.
  - intros m keys Hm Hn Hk. rewrite multisig_script by done. eexists. split; [done|]. intros Ha.
    assert (forallb key_size keys = true) as Hs.
    { apply forallb_forall. intros k Hin. apply valid_key_size. rewrite forallb_forall in Hk. auto. }
    unfold ExtractDestinations. rewrite Solver_multisig by done. cbn [found typeRet vSolutionsRet negb Z.eqb Pos.eqb].
    cbn [hd length drop]. rewrite length_app, drop_0. cbn [length].
    replace (take _ _) with keys by (replace (S (length keys + 1) - 2)%nat with (length keys) by lia; by rewrite take_app_length).
    replace (filter _ keys) with keys.
    2:{ symmetry. clear -Hk. induction keys as [|k keys IH]; [done|]. cbn [forallb] in Hk.
        apply andb_true_iff in Hk as [H Hk]. rewrite filter_cons_True by done. by rewrite IH. }
    by destruct keys; [cbn in Hm; lia|].
Qed.

End Recognised.

Module Keys.

Definition key (n : Z) : bytes := 3 :: replicate 32 n.

Lemma standard_scripts_recognised_witness : exists s, GetScriptForMultisig 2 [key 1; key 2; key 3] = Some s /\
  ExtractDestinations s = Some (TX_MULTISIG, CKeyID ∘ GetID <$> [key 1; key 2; key 3], 2).
Proof.
  destruct standard_scripts_recognised as (_ & _ & H & _).
  destruct (H 2 [key 1; key 2; key 3]) as (s & E & Hs); [cbn; lia|cbn; lia|reflexivity|].
  exists s. split; [exact E|]. apply Hs. vm_compute in E. injection E as <-. vm_compute. reflexivity.
Defined.

End Keys.
