(* ===== verification/InterpreterFacts.v ===== *)
(** Properties of the script interpreter: its limits on every reachable machine,
    the soft-fork property of the verification flags, the meaning of
    [CHECKMULTISIG] and of payments to a key hash, and what a signature hash
    commits to. *)

From S2P Require Import Prelude Serialize Sha256 Script Primitives Interpreter Standard.

Create HintDb weaker discriminated.

(** ** Fewer flags accept more *)

(** [weaker f g]: every flag of [f] is a flag of [g], and where [f] discourages
    the reserved opcodes it gives them the meaning that [g] does. *)
Definition weaker (f g : Z) : Prop :=
  (forall x, has_flag f x = true -> has_flag g x = true) /\
  (has_flag f SCRIPT_VERIFY_DISCOURAGE_UPGRADABLE_NOPS = true ->
   has_flag f SCRIPT_VERIFY_CHECKLOCKTIMEVERIFY = has_flag g SCRIPT_VERIFY_CHECKLOCKTIMEVERIFY /\
   has_flag f SCRIPT_VERIFY_CHECKSEQUENCEVERIFY = has_flag g SCRIPT_VERIFY_CHECKSEQUENCEVERIFY).

Section Weaker.
Context `{SH : ScriptHash} `{EC : Ecdsa}.
Context (f g : Z) (Hw : weaker f g) (checker : BaseSignatureChecker) (sv : SigVersion).

Lemma flag_off x : has_flag g x = false -> has_flag f x = false.
Proof. destruct Hw as [H _]. specialize (H x). destruct (has_flag f x); [|done]. rewrite H; done. Qed.

(** Splits on the flags of [f] and [g] that a hypothesis or the goal tests. *)
Local Ltac flags :=
  repeat match goal with
  | |- context [has_flag f ?x] =>
      let E := fresh "F" in destruct (has_flag g x) eqn:E;
        [destruct (has_flag f x) eqn:?|rewrite (flag_off x E)]
  end; cbn [andb orb negb] in *.

Lemma script_num_weaker v k n : script_num g v k = Ok n -> script_num f v k = Ok n.
Proof.
  unfold script_num, CScriptNum.of_vch, fRequireMinimal. flags; try done.
  repeat case_match; congruence.
Qed.

Lemma CheckSignatureEncoding_weaker v u : CheckSignatureEncoding g v = Ok u -> CheckSignatureEncoding f v = Ok u.
Proof.
  unfold CheckSignatureEncoding, IsLowDERSignature. destruct (is_nil v); [done|].
  destruct (IsValidSignatureEncoding v), (CheckLowS _), (IsDefinedHashtypeSignature v); flags; by destruct u.
Qed.

Lemma CheckPubKeyEncoding_weaker v u : CheckPubKeyEncoding g sv v = Ok u -> CheckPubKeyEncoding f sv v = Ok u.
Proof.
  unfold CheckPubKeyEncoding.
  destruct (IsCompressedOrUncompressedPubKey v), (IsCompressedPubKey v), (is_base sv); flags; by destruct u.
Qed.

Lemma multisig_loop_weaker code sigs keys b :
  multisig_loop g checker sv code sigs keys = Ok b -> multisig_loop f checker sv code sigs keys = Ok b.
Proof.
  revert sigs. induction keys as [|key keys IH]; intros [|sig sigs]; cbn [multisig_loop]; try done.
  intros (u&H1&(u'&H2&H)%bind_Ok)%bind_Ok.
  rewrite (CheckSignatureEncoding_weaker _ _ H1), (CheckPubKeyEncoding_weaker _ _ H2). cbn [mbind result_bind].
  destruct (_ <? _)%nat; [done|]. by apply IH.
Qed.

#[local] Hint Resolve script_num_weaker CheckSignatureEncoding_weaker CheckPubKeyEncoding_weaker multisig_loop_weaker : weaker.

(** Rewrites the accepted calls under [g] to the ones under [f]. *)
Local Ltac weaken H :=
  repeat match type of H with
  | _ ≫= _ = Ok _ => let a := fresh "a" in let H1 := fresh "HA" in
      apply bind_Ok in H as (a & H1 & H);
      match type of H1 with ?t = _ =>
        let t' := eval pattern g in t in
        match t' with ?h _ => first [replace (h f) with (Ok (E := ScriptError) a) by (symmetry; eauto with weaker)|idtac] end end;
      cbn [mbind result_bind]
  end.

Lemma op_pick_weaker roll s r : op_pick g roll s = Ok r -> op_pick f roll s = Ok r.
Proof. unfold op_pick. destruct s as [|? [|? ?]]; try done. intros H. weaken H. done. Qed.

Lemma op_unary_weaker o s r : op_unary g o s = Ok r -> op_unary f o s = Ok r.
Proof. unfold op_unary. destruct s; try done. intros H. weaken H. done. Qed.

Lemma op_binary_weaker o s r : op_binary g o s = Ok r -> op_binary f o s = Ok r.
Proof. unfold op_binary. destruct s as [|? [|? ?]]; try done. intros H. weaken H. done. Qed.

Lemma op_within_weaker s r : op_within g s = Ok r -> op_within f s = Ok r.
Proof. unfold op_within. destruct s as [|? [|? [|? ?]]]; try done. intros H. weaken H. done. Qed.

Lemma op_checklocktimeverify_weaker m r :
  op_checklocktimeverify g checker m = Ok r -> op_checklocktimeverify f checker m = Ok r.
Proof.
  destruct Hw as [_ Hd]. unfold op_checklocktimeverify. destruct (has_flag g SCRIPT_VERIFY_CHECKLOCKTIMEVERIFY) eqn:Eg; cbn [negb].
  - destruct (stack m); [done|]. intros H. weaken H.
    destruct (has_flag f SCRIPT_VERIFY_CHECKLOCKTIMEVERIFY) eqn:Ef; cbn [negb]; [done|].
    destruct (has_flag f SCRIPT_VERIFY_DISCOURAGE_UPGRADABLE_NOPS) eqn:Ed; [destruct (Hd eq_refl); congruence|].
    repeat case_match; congruence.
  - rewrite (flag_off _ Eg). cbn [negb]. by flags.
Qed.

Lemma op_checksequenceverify_weaker m r :
  op_checksequenceverify g checker m = Ok r -> op_checksequenceverify f checker m = Ok r.
Proof.
  destruct Hw as [_ Hd]. unfold op_checksequenceverify. destruct (has_flag g SCRIPT_VERIFY_CHECKSEQUENCEVERIFY) eqn:Eg; cbn [negb].
  - destruct (stack m); [done|]. intros H. weaken H.
    destruct (has_flag f SCRIPT_VERIFY_CHECKSEQUENCEVERIFY) eqn:Ef; cbn [negb]; [done|].
    destruct (has_flag f SCRIPT_VERIFY_DISCOURAGE_UPGRADABLE_NOPS) eqn:Ed; [destruct (Hd eq_refl); congruence|].
    repeat case_match; congruence.
  - rewrite (flag_off _ Eg). cbn [negb]. by flags.
Qed.

Lemma op_if_weaker notif fExec m r : op_if g sv notif fExec m = Ok r -> op_if f sv notif fExec m = Ok r.
Proof.
  unfold op_if. destruct fExec, (stack m); try done. destruct (is_base sv); flags; try done.
  by destruct (_ || _).
Qed.

Lemma op_checksig_weaker verify m r : op_checksig g checker sv verify m = Ok r -> op_checksig f checker sv verify m = Ok r.
Proof.
  unfold op_checksig. destruct (stack m) as [|key [|sig s]]; try done. intros H. weaken H.
  destruct (CheckSig _ _ _ _ _), (is_nil sig); flags; try done.
Qed.

Lemma op_checkmultisig_weaker verify m r :
  op_checkmultisig g checker sv verify m = Ok r -> op_checkmultisig f checker sv verify m = Ok r.
Proof.
  unfold op_checkmultisig. destruct (_ <? 1); [done|]. intros H. weaken H.
  destruct (_ || _); [done|]. destruct (201 <? _); [done|]. destruct (_ <? _); [done|]. weaken H.
  destruct (_ || _); [done|]. destruct (_ <? _); [done|]. weaken H.
  revert H. clear HA HA0 HA1. generalize (existsb (fun s => negb (is_nil s))
    (take (Z.to_nat (CScriptNum.getint a0)) (drop (Z.to_nat (2 + CScriptNum.getint a)) (stack m)))). intros b.
  destruct (drop _ _) as [|dummy s]; destruct a1, b; cbn [negb andb]; flags; try done.
  all: by destruct (is_nil dummy).
Qed.

#[local] Hint Resolve op_pick_weaker op_unary_weaker op_binary_weaker op_within_weaker op_checklocktimeverify_weaker
  op_checksequenceverify_weaker op_if_weaker op_checksig_weaker op_checkmultisig_weaker : weaker.

Lemma exec_op_weaker fExec opcode m r : exec_op g checker sv fExec opcode m = Ok r -> exec_op f checker sv fExec opcode m = Ok r.
Proof.
  unfold exec_op. destruct (opcode_of opcode); eauto with weaker; try (by flags).
  all: intros (s&Hs&->)%fmap_Ok; apply fmap_Ok; exists s; eauto with weaker.
Qed.

Lemma step_weaker m r : step g checker sv m = Ok r -> step f checker sv m = Ok r.
Proof.
  unfold step. destruct (GetOp2 (pc m)) as [[[opcode v] pc']|]; [|done].
  destruct (_ <? _); [done|]. destruct (_ && _); [done|]. destruct (is_disabled _); [done|].
  intros (m'&H1&H)%bind_Ok. apply bind_Ok. exists m'. split; [|done]. revert H1.
  destruct (_ && (opcode <=? 78)).
  - unfold fRequireMinimal. flags; try done. by destruct (CheckMinimalPush _ _).
  - destruct (_ || _); [apply exec_op_weaker|done].
Qed.

Lemma run_weaker fuel m r : run g checker sv fuel m = Some (Ok r) -> run f checker sv fuel m = Some (Ok r).
Proof.
  revert m. induction fuel as [|fuel IH]; intros m; cbn [run]; destruct (pc m); try done.
  destruct (step g checker sv m) as [m'|] eqn:E; [|done]. rewrite (step_weaker _ _ E). apply IH.
Qed.

Lemma EvalScript_weaker s script r : EvalScript g checker sv s script = Ok r -> EvalScript f checker sv s script = Ok r.
Proof.
  unfold EvalScript. destruct (_ <? _); [done|].
  destruct (run g _ _ _ _) as [[m|]|] eqn:E; try done. by rewrite (run_weaker _ _ _ E).
Qed.

End Weaker.

(** The flags on which no [assert] of [VerifyScript] fails. *)
Definition consistent (f : Z) : Prop :=
  (has_flag f SCRIPT_VERIFY_WITNESS = true -> has_flag f SCRIPT_VERIFY_P2SH = true) /\
  (has_flag f SCRIPT_VERIFY_CLEANSTACK = true ->
   has_flag f SCRIPT_VERIFY_P2SH = true /\ has_flag f SCRIPT_VERIFY_WITNESS = true).

Lemma lift_Ok {A} (r : result ScriptError A) a : lift r = Ok a <-> r = Ok a.
Proof. destruct r; cbn; split; by intros [= ->]. Qed.

Section VerifyWeaker.
Context `{SH : ScriptHash} `{EC : Ecdsa}.
Context (f g : Z) (Hw : weaker f g) (Hc : consistent f) (checker : BaseSignatureChecker).

Lemma VerifyWitnessProgram_weaker witness version program u :
  VerifyWitnessProgram g checker witness version program = Ok u ->
  VerifyWitnessProgram f checker witness version program = Ok u.
Proof.
  unfold VerifyWitnessProgram.
  assert (forall s k u, execute_witness g checker s k = Ok u -> execute_witness f checker s k = Ok u) as Hex.
  { intros s k v. unfold execute_witness. destruct (existsb _ s); [done|]. intros (r&H1&H)%bind_Ok.
    apply bind_Ok. exists r. split; [by eapply EvalScript_weaker|done]. }
  destruct (version =? 0).
  - destruct (length program =? 32)%nat; [destruct (rev witness); [done|]; case_match; [done|apply Hex]|].
    destruct (length program =? 20)%nat; [case_match; [done|apply Hex]|done].
  - destruct (has_flag g _) eqn:E; [done|]. by rewrite (flag_off f g Hw _ E).
Qed.

Lemma witness_part_weaker script malleated e witness s had r :
  witness_part g checker script malleated e witness s had = Ok r ->
  witness_part f checker script malleated e witness s had
  = Ok (if has_flag f SCRIPT_VERIFY_WITNESS then r else (had, s)).
Proof.
  unfold witness_part. destruct (has_flag f _) eqn:E; [|done]. rewrite (proj1 Hw _ E).
  destruct (IsWitnessProgram script) as [[version program]|]; [|done]. destruct malleated; [done|].
  intros (u&H1&H)%bind_Ok. by rewrite (VerifyWitnessProgram_weaker _ _ _ _ H1).
Qed.

Lemma p2sh_part_weaker scriptSig witness s had had' r :
  p2sh_part g checker scriptSig witness s had = Ok r ->
  (has_flag f SCRIPT_VERIFY_WITNESS = true -> had' = had) ->
  exists r', p2sh_part f checker scriptSig witness s had' = Ok r' /\
    (has_flag f SCRIPT_VERIFY_WITNESS = true -> r' = r).
Proof.
  unfold p2sh_part. destruct (IsPushOnly scriptSig); [|done]. destruct s as [|pubKey2 s]; [done|]. cbn [negb].
  intros (s1&H1%lift_Ok&H)%bind_Ok Hh.
  rewrite (EvalScript_weaker f g Hw _ _ _ _ _ H1). cbn [lift mbind result_bind].
  destruct (ends_false s1); [done|]. apply lift_Ok in H.
  destruct (has_flag f SCRIPT_VERIFY_WITNESS) eqn:E.
  - rewrite (Hh eq_refl). apply witness_part_weaker in H. rewrite E in H. exists r. by rewrite H.
  - exists (had', s1). split; [|done]. unfold witness_part. by rewrite E.
Qed.

(** Lowering the flags keeps every accepted script accepted: each flag is a
    restriction only. *)
Lemma VerifyScript_weaker scriptSig scriptPubKey witness :
  VerifyScript g checker scriptSig scriptPubKey witness = Ok tt ->
  VerifyScript f checker scriptSig scriptPubKey witness = Ok tt.
Proof.
  unfold VerifyScript. destruct (_ && _) eqn:Epush; [done|].
  intros (s0&H0%lift_Ok&(s1&H1%lift_Ok&H)%bind_Ok)%bind_Ok.
  replace (has_flag f _ && _) with false
    by (symmetry; destruct (IsPushOnly scriptSig); [by rewrite andb_false_r|]; rewrite andb_true_r in *;
        by apply (flag_off f g Hw)).
  rewrite (EvalScript_weaker f g Hw _ _ _ _ _ H0). cbn [lift mbind result_bind].
  rewrite (EvalScript_weaker f g Hw _ _ _ _ _ H1). cbn [lift mbind result_bind].
  destruct (ends_false s1); [done|]. apply bind_Ok in H as ([had s2]&H2%lift_Ok%witness_part_weaker&H).
  rewrite H2. cbn [lift mbind result_bind]. apply bind_Ok in H as ([had' s3]&H3&H).
  set (r2 := if has_flag f SCRIPT_VERIFY_WITNESS then (had, s2) else (false, s1)).
  assert (exists r3, (if has_flag f SCRIPT_VERIFY_P2SH && IsPayToScriptHash scriptPubKey
                      then p2sh_part f checker scriptSig witness s0 r2.1 else Ok r2) = Ok r3 /\
            (has_flag f SCRIPT_VERIFY_WITNESS = true -> r3 = (had', s3))) as (r3 & E3 & Hr3).
  { destruct (has_flag f SCRIPT_VERIFY_P2SH) eqn:Ep; cbn [andb].
    - rewrite (proj1 Hw _ Ep) in H3. cbn [andb] in H3. destruct (IsPayToScriptHash scriptPubKey).
      + apply (p2sh_part_weaker _ _ _ _ r2.1 _ H3). unfold r2. by intros ->.
      + exists r2. split; [done|]. unfold r2. intros ->. congruence.
    - exists r2. split; [done|]. intros E. destruct Hc as [Hc1 _]. rewrite (Hc1 E) in Ep. done. }
  subst r2. destruct (has_flag f SCRIPT_VERIFY_WITNESS) eqn:Ew; cbn [fst] in E3; cbn beta iota; rewrite E3; clear E3.
  - rewrite (Hr3 eq_refl). cbn [mbind result_bind]. revert H. unfold final_part. rewrite Ew, (proj1 Hw _ Ew).
    pose proof (proj1 Hc Ew) as Ep. rewrite Ep, (proj1 Hw _ Ep). cbn [andb negb].
    destruct (has_flag g SCRIPT_VERIFY_CLEANSTACK) eqn:Eg; [|by rewrite (flag_off f g Hw _ Eg)].
    destruct (has_flag f SCRIPT_VERIFY_CLEANSTACK); [done|]. cbn [andb]. by destruct (length s3 =? 1)%nat.
  - destruct r3 as [had3 s4]. cbn [mbind result_bind]. unfold final_part. rewrite Ew. cbn [andb].
    destruct (has_flag f SCRIPT_VERIFY_CLEANSTACK) eqn:Ecl; [|done].
    destruct Hc as [_ Hc2]. destruct (Hc2 Ecl). congruence.
Qed.

End VerifyWeaker.

(** ** The machine stays within its limits *)

(** A stack element: a byte string of at most 520 bytes. *)
Definition element (v : bytes) : Prop := all_bytes v = true /\ Z.of_nat (length v) <= MAX_SCRIPT_ELEMENT_SIZE.

(** The machine between two instructions of [script]. *)
Record wf (script : CScript) (m : machine) : Prop := {
  wf_pc : m.(pc) `suffix_of` script;
  wf_code : m.(pbegincodehash) `suffix_of` script;
  wf_stack : Forall element m.(stack);
  wf_altstack : Forall element m.(altstack);
  wf_size : Z.of_nat (length m.(stack) + length m.(altstack)) <= MAX_STACK_SIZE;
  wf_ops : 0 <= m.(nOpCount) <= MAX_OPS_PER_SCRIPT;
}.

Lemma element_serialize n : Z.abs n < 2 ^ 39 -> element (CScriptNum.serialize n).
Proof.
  intros Hn. split; [apply ScriptNumFacts.serialize_all_bytes; lia|].
  pose proof (ScriptNumFacts.serialize_length n 5 ltac:(lia) ltac:(lia)). lia.
Qed.

Lemma element_small l : all_bytes l = true -> (length l <= 520)%nat -> element l.
Proof. intros. split; [done|lia]. Qed.

Lemma all_bytes_split n l : all_bytes l = true -> all_bytes (take n l) = true /\ all_bytes (drop n l) = true.
Proof. rewrite <- (take_drop n l) at 1. by rewrite all_bytes_app, andb_true_iff. Qed.

Lemma push_size_drop opcode rest n rest' : push_size opcode rest = Some (n, rest') -> exists k, rest' = drop k rest.
Proof.
  unfold push_size. repeat case_match; intros; simplify_eq; [by exists 0%nat|by exists 1%nat|by exists 2%nat|by exists 4%nat].
Qed.

(** What the decoder returns: a suffix of its input and an operand of bytes. *)
Lemma GetOp2_suffix pc0 opcode vch pc' : GetOp2 pc0 = Some (opcode, vch, pc') ->
  pc' `suffix_of` pc0 /\ (all_bytes pc0 = true -> all_bytes vch = true /\ is_byte opcode = true).
Proof.
  destruct pc0 as [|o rest]; [done|]. cbn [GetOp2].
  assert (all_bytes (o :: rest) = true -> is_byte o = true /\ all_bytes rest = true) as Hcons by (cbn; by rewrite andb_true_iff).
  destruct (o <=? 0x4e).
  - intros ([n rest']&(k&->)%push_size_drop&H)%bind_Some. case_match; simplify_eq. rewrite drop_drop. split.
    + apply suffix_cons_r, suffix_drop.
    + intros [Ho Hr]%Hcons. split; [|done].
      by apply (all_bytes_split (Z.to_nat n)), (all_bytes_split k).
  - case_match; intros; simplify_eq; (split; [|intros [Ho Hr]%Hcons; done]).
    + apply suffix_nil.
    + by apply suffix_cons_r.
Qed.

Section Limits.
Context `{SH : ScriptHash} `{EC : Ecdsa}.
Context (flags : Z) (checker : BaseSignatureChecker) (sv : SigVersion).

Lemma script_num_range v k n : element v -> 1 <= k <= 7 -> script_num flags v k = Ok n -> Z.abs n < 2 ^ (8 * k - 1).
Proof.
  intros [Hv _] Hk. unfold script_num, CScriptNum.of_vch. destruct (Z.ltb_spec k (Z.of_nat (length v))); [done|].
  destruct (_ && _); [done|]. intros [= <-]. by apply ScriptNumFacts.set_vch_range.
Qed.

Lemma element_bool b s : Forall element s -> Forall element (push_bool b s).
Proof. intros. constructor; [|done]. destruct b; apply element_small; cbn; try done; lia. Qed.

Lemma element_hash o s r : Forall element s -> op_hash o s = Ok r -> Forall element r.
Proof.
  unfold op_hash. destruct s as [|v s]; [done|]. intros Hs [= <-]. apply Forall_cons in Hs as [_ Hs].
  constructor; [|done]. destruct o.
  all: first [destruct (ripemd160_digest v) as [L B]; solve [apply element_small; [exact B|rewrite L; lia]]
             |destruct (sha1_digest v) as [L B]; solve [apply element_small; [exact B|rewrite L; lia]]
             |destruct (sha256_digest v) as [L B]; solve [apply element_small; [exact B|rewrite L; lia]]
             |destruct (ripemd160_digest (sha256 v)) as [L B]; solve [apply element_small; [exact B|rewrite L; lia]]
             |destruct (sha256_digest (sha256 v)) as [L B]; apply element_small; [exact B|rewrite L; lia]].
Qed.

Lemma element_stack_op o s r : Forall element s -> (length s <= 1000)%nat -> stack_op o s = Ok r -> Forall element r.
Proof.
  intros Hs Hl. unfold stack_op.
  destruct s as [|v1 [|v2 [|v3 [|v4 [|v5 [|v6 s]]]]]]; destruct o; try done; intros [= <-]; try case_match;
    rewrite ?Forall_cons, ?Forall_nil in *; try tauto.
  all: split; [|tauto]; apply element_serialize; first [cbn [length] in *; lia|destruct Hs as [[? ?] _]; lia].
Qed.

Lemma element_pick roll s r : Forall element s -> op_pick flags roll s = Ok r -> Forall element r.
Proof.
  intros Hs. unfold op_pick. destruct s as [|top [|v s]]; try done. intros (n&_&H)%bind_Ok.
  apply Forall_cons in Hs as [_ Hs]. destruct (_ || _) eqn:E; [done|]. injection H as <-.
  apply orb_false_iff in E as [E1%Z.ltb_ge E2%Z.leb_gt].
  assert (exists x, (v :: s) !! Z.to_nat (CScriptNum.getint n) = Some x) as [x Hx].
  { apply lookup_lt_is_Some. cbn [length] in *. lia. }
  rewrite (list_lookup_total_correct _ _ _ Hx).
  constructor; [by eapply Forall_lookup_1|]. destruct roll; [|done].
  apply Forall_app. split; [by apply Forall_take|exact (Forall_drop _ (S _) (v :: s) Hs)].
Qed.

Lemma element_unary o s r : Forall element s -> op_unary flags o s = Ok r -> Forall element r.
Proof.
  intros Hs. unfold op_unary. destruct s as [|v s]; [done|]. apply Forall_cons in Hs as [Hv Hs].
  intros (n&Hn%script_num_range&[= <-])%bind_Ok; [|done|lia]. constructor; [|done].
  apply element_serialize. assert (Z.abs n < 2 ^ 31) by exact Hn.
  unfold unary_num. destruct o; repeat case_match; try lia; destruct (n =? 0); cbn; lia.
Qed.

Lemma element_binary o s r : Forall element s -> op_binary flags o s = Ok r -> Forall element r.
Proof.
  intros Hs. unfold op_binary. destruct s as [|v2 [|v1 s]]; try done.
  apply Forall_cons in Hs as [H2 [H1 Hs]%Forall_cons].
  intros (n1&Hn1%script_num_range&(n2&Hn2%script_num_range&H)%bind_Ok)%bind_Ok; [|done|lia|done|lia].
  assert (element (CScriptNum.serialize (binary_num o n1 n2))) as He.
  { assert (Z.abs n1 < 2 ^ 31 /\ Z.abs n2 < 2 ^ 31) as [? ?] by (split; [exact Hn1|exact Hn2]).
    apply element_serialize. unfold binary_num.
    destruct o; repeat case_match; try lia; match goal with |- context [Z.b2z ?b] => destruct b; cbn; lia end. }
  destruct o; try (injection H as <-; by constructor). by case_match; [injection H as <-|].
Qed.

Lemma element_within s r : Forall element s -> op_within flags s = Ok r -> Forall element r.
Proof.
  intros Hs. unfold op_within. destruct s as [|v3 [|v2 [|v1 s]]]; try done.
  rewrite !Forall_cons in Hs. intros (n1&_&(n2&_&(n3&_&[= <-])%bind_Ok)%bind_Ok)%bind_Ok.
  apply element_bool. tauto.
Qed.

Lemma element_equal verify s r : Forall element s -> op_equal verify s = Ok r -> Forall element r.
Proof.
  intros Hs. unfold op_equal. destruct s as [|v2 [|v1 s]]; try done. rewrite !Forall_cons in Hs.
  destruct verify; [case_match; [intros [= <-]; tauto|done]|intros [= <-]; apply element_bool; tauto].
Qed.

Lemma element_verify s r : Forall element s -> op_verify s = Ok r -> Forall element r.
Proof. intros Hs. unfold op_verify. destruct s; [done|]. rewrite Forall_cons in Hs. case_match; [intros [= <-]; tauto|done]. Qed.

Lemma element_checksig verify m r : Forall element (stack m) -> op_checksig flags checker sv verify m = Ok r -> Forall element r.
Proof.
  intros Hs. unfold op_checksig. destruct (stack m) as [|key [|sig s]]; try done. rewrite !Forall_cons in Hs.
  intros (?&_&(?&_&H)%bind_Ok)%bind_Ok. destruct (_ && _ && _); [done|].
  destruct verify; [case_match; [injection H as <-; tauto|done]|injection H as <-; apply element_bool; tauto].
Qed.

(** What an instruction may change, besides the stacks of elements. *)
Definition kept (m m' : machine) : Prop :=
  m'.(pc) = m.(pc) /\ (m'.(pbegincodehash) = m.(pbegincodehash) \/ m'.(pbegincodehash) = m.(pc)) /\
  Forall element m'.(stack) /\ Forall element m'.(altstack) /\
  m.(nOpCount) <= m'.(nOpCount) /\ (m'.(nOpCount) = m.(nOpCount) \/ m'.(nOpCount) <= MAX_OPS_PER_SCRIPT).

Lemma kept_stack m s : Forall element s -> Forall element (altstack m) -> kept m (set_stack m s).
Proof. intros. unfold kept. cbn. split_and!; auto with lia. Qed.

Lemma kept_exec m s v : Forall element s -> Forall element (altstack m) -> kept m (set_exec m s v).
Proof. intros. unfold kept. cbn. split_and!; auto with lia. Qed.

Lemma kept_refl m : Forall element (stack m) -> Forall element (altstack m) -> kept m m.
Proof. intros. unfold kept. split_and!; auto with lia. Qed.

Lemma kept_checkmultisig verify m m' : Forall element (stack m) -> Forall element (altstack m) ->
  op_checkmultisig flags checker sv verify m = Ok m' -> kept m m'.
Proof.
  intros Hs Ha. unfold op_checkmultisig. destruct (_ <? 1); [done|]. intros (nKeys&_&H)%bind_Ok.
  set (k := CScriptNum.getint nKeys) in *. destruct (_ || _) eqn:Ek; [done|].
  destruct (Z.ltb_spec 201 (nOpCount m + k)); [done|]. destruct (_ <? 2 + k); [done|].
  apply bind_Ok in H as (nSigs&_&H). destruct ((CScriptNum.getint nSigs <? 0) || _); [done|].
  destruct (_ <? 3 + _ + _); [done|]. apply bind_Ok in H as (b&_&H). destruct (_ && _ && _); [done|].
  assert (Forall element (drop (Z.to_nat (2 + k + CScriptNum.getint nSigs)) (stack m))) as Hd by (by apply Forall_drop).
  destruct (drop _ _) as [|dummy s]; [done|]. apply Forall_cons in Hd as [_ Hd]. destruct (_ && _); [done|].
  assert (exists r, Forall element r /\ m' = set_stack (Machine (pc m) (pbegincodehash m) (stack m) (altstack m) (vfExec m) (nOpCount m + k)) r)
    as (r&Hr&->).
  { destruct verify; [destruct b; [|done]|]; injection H as <-; eexists; (split; [|reflexivity]); [done|by apply element_bool]. }
  apply orb_false_iff in Ek as [E1%Z.ltb_ge _]. unfold kept. cbn. split_and!; auto with lia.
Qed.

Lemma kept_locktime m m' : Forall element (stack m) -> Forall element (altstack m) ->
  op_checklocktimeverify flags checker m = Ok m' \/ op_checksequenceverify flags checker m = Ok m' -> kept m m'.
Proof.
  intros Hs Ha H. assert (m' = m) as ->; [|by apply kept_refl].
  unfold op_checklocktimeverify, op_checksequenceverify in H.
  destruct H as [H|H]; repeat (case_match; try done); try congruence; apply bind_Ok in H as (n&_&H);
    repeat (case_match; try done); congruence.
Qed.

(** The lemma for the operation whose result [H] is. *)
Local Ltac elements H :=
  lazymatch type of H with
  | op_verify _ = _ => eapply element_verify
  | op_equal _ _ = _ => eapply element_equal
  | op_hash _ _ = _ => eapply element_hash
  | stack_op _ _ = _ => eapply element_stack_op
  | op_pick _ _ _ = _ => eapply element_pick
  | op_unary _ _ _ = _ => eapply element_unary
  | op_binary _ _ _ = _ => eapply element_binary
  | op_within _ _ = _ => eapply element_within
  | op_checksig _ _ _ _ _ = _ => eapply element_checksig
  end; cycle -1; [exact H|done..].

Lemma kept_exec_op fExec opcode m m' : Forall element (stack m) -> Forall element (altstack m) ->
  (length (stack m) <= 1000)%nat -> is_byte opcode = true ->
  exec_op flags checker sv fExec opcode m = Ok m' -> kept m m'.
Proof.
  intros Hs Ha Hl Ho%is_byte_spec. unfold exec_op.
  destruct (opcode_of opcode); try done; intros H.
  all: try (injection H as <-; by apply kept_refl).
  all: try (injection H as <-; apply kept_stack; [|done]; constructor; [apply element_serialize; lia|done]).
  all: try (apply fmap_Ok in H as (r&Hr&->); apply kept_stack; [|done]; elements Hr).
  all: try (case_match; [done|]; injection H as <-; by apply kept_refl).
  all: try (apply kept_locktime; by auto).
  all: try (by apply kept_checkmultisig in H).
  - unfold op_if in H. repeat (case_match; try done); injection H as <-; apply kept_exec; try done.
    all: try (apply Forall_cons in Hs as [_ Hs]; done).
  - unfold op_if in H. repeat (case_match; try done); injection H as <-; apply kept_exec; try done.
    all: try (apply Forall_cons in Hs as [_ Hs]; done).
  - unfold op_else in H. case_match; [done|]. injection H as <-. by apply kept_exec.
  - unfold op_endif in H. case_match; [done|]. injection H as <-. by apply kept_exec.
  - unfold op_toaltstack in H. destruct (stack m) as [|v s]; [done|]. injection H as <-.
    apply Forall_cons in Hs as [Hv Hs]. unfold kept. cbn. split_and!; auto with lia.
  - unfold op_fromaltstack in H. destruct (altstack m) as [|v s]; [done|]. injection H as <-.
    apply Forall_cons in Ha as [Hv Ha]. unfold kept. cbn. split_and!; auto with lia.
  - injection H as <-. unfold kept. cbn. split_and!; auto with lia.
Qed.

Lemma suffix_all_bytes (k l : bytes) : k `suffix_of` l -> all_bytes l = true -> all_bytes k = true.
Proof. intros [d ->]. rewrite all_bytes_app, andb_true_iff. tauto. Qed.

(** Every instruction keeps the machine well formed and consumes input. *)
Lemma step_wf script m m' : all_bytes script = true -> wf script m -> step flags checker sv m = Ok m' ->
  wf script m' /\ (length m'.(pc) < length m.(pc))%nat.
Proof.
  intros Hb [Hp Hc Hs Ha Hz Hn]. unfold step. destruct (GetOp2 (pc m)) as [[[opcode v] pc']|] eqn:Eop; [|done].
  destruct (GetOp2_suffix _ _ _ _ Eop) as [Hsuf Hv]. apply GetOp2_progress in Eop as Hlt.
  destruct Hv as [Hv Ho]; [by eapply suffix_all_bytes|].
  destruct (Z.ltb_spec 520 (Z.of_nat (length v))) as [|Hv520]; [done|].
  set (n := if 0x60 <? opcode then nOpCount m + 1 else nOpCount m).
  assert (nOpCount m <= n) as Hle by (unfold n; destruct (_ <? _); lia).
  destruct ((0x60 <? opcode) && (201 <? n)) eqn:En; [done|].
  assert (n <= 201) as Hn' by (unfold n in *; destruct (_ <? _); cbn in En; lia).
  destruct (is_disabled _); [done|].
  set (m1 := Machine pc' (pbegincodehash m) (stack m) (altstack m) (vfExec m) n).
  intros (m2&H2&H)%bind_Ok. revert H.
  destruct (Z.ltb_spec 1000 (Z.of_nat (length (stack m2) + length (altstack m2)))); [discriminate|]. intros [= <-].
  assert (kept m1 m2) as (Epc & Ecode & Es & Ea & Eops & Elim).
  { revert H2. destruct (_ && (opcode <=? 0x4e)).
    - case_match; [done|]. intros [= <-]. apply kept_stack; [|done]. by constructor.
    - case_match; [|intros [= <-]; by apply kept_refl]. apply kept_exec_op; try done. cbn. lia. }
  cbn [pc pbegincodehash nOpCount m1] in *. rewrite Epc. split; [|done]. split; try done.
  - rewrite Epc. by etrans.
  - destruct Ecode as [->| ->]; [done|by etrans].
  - lia.
Qed.

(** The machines that the evaluation of [script] on the stack [s] goes through. *)
Inductive reachable (script : CScript) (s : list bytes) : machine -> Prop :=
| reach_start : reachable script s (Machine script script s [] [] 0)
| reach_step m m' : reachable script s m -> m.(pc) <> [] -> step flags checker sv m = Ok m' -> reachable script s m'.

(** A stack that [EvalScript] may be called with. *)
Definition good_stack (s : list bytes) : Prop := Forall element s /\ Z.of_nat (length s) <= MAX_STACK_SIZE.

Lemma wf_start script s : good_stack s -> wf script (Machine script script s [] [] 0).
Proof. intros [Hs Hl]. split; cbn; try done; lia. Qed.

Lemma reachable_wf script s m : all_bytes script = true -> good_stack s -> reachable script s m -> wf script m.
Proof. intros Hb Hs H. induction H; [by apply wf_start|by eapply step_wf]. Qed.

(** Opens the binds and tests of an accepted operation [H]. *)
Local Ltac opened H :=
  repeat first [progress (apply bind_Ok in H as (?&_&H))|case_match; [try discriminate H..]].

Lemma exec_op_pc fExec opcode m m' : exec_op flags checker sv fExec opcode m = Ok m' -> m'.(pc) = m.(pc).
Proof.
  unfold exec_op. destruct (opcode_of opcode); try done; intros H.
  all: try (injection H as <-; done).
  all: try (apply fmap_Ok in H as (r&Hr&->); done).
  all: unfold op_checklocktimeverify, op_checksequenceverify, op_if, op_else, op_endif, op_toaltstack,
    op_fromaltstack, op_checkmultisig in H; opened H; try done; injection H as <-; done.
Qed.

Lemma step_progress m m' : step flags checker sv m = Ok m' -> (length m'.(pc) < length m.(pc))%nat.
Proof.
  unfold step. destruct (GetOp2 (pc m)) as [[[opcode v] pc']|] eqn:Eop; [|done]. apply GetOp2_progress in Eop.
  destruct (520 <? _); [done|]. destruct (_ && (201 <? _)); [done|]. destruct (is_disabled _); [done|].
  intros (m2&HR&HE)%bind_Ok. revert HE. destruct (1000 <? _); [done|]. intros [= <-].
  assert (pc m2 = pc') as ->; [|done]. clear Eop. revert HR.
  destruct (_ && (opcode <=? 0x4e)); [case_match; [done|by intros [= <-]]|].
  case_match; [apply exec_op_pc|by intros [= <-]].
Qed.

(** With the length of what is left as fuel the loop ends, and more fuel does
    not change its result. *)
Lemma run_total fuel : forall m, (length m.(pc) <= fuel)%nat ->
  exists r, forall extra, run flags checker sv (fuel + extra) m = Some r.
Proof.
  induction fuel as [|fuel IH]; intros m Hl.
  { exists (Ok m). intros extra. destruct (pc m) eqn:E; [|cbn in Hl; lia]. destruct extra; cbn [run Nat.add]; by rewrite E. }
  cbn [run Nat.add]. destruct (pc m) eqn:E; [by exists (Ok m)|].
  destruct (step flags checker sv m) as [m'|e] eqn:Es; [|by exists (Err e)].
  apply step_progress in Es. rewrite E in Es. cbn in Hl, Es. apply IH. lia.
Qed.

Lemma run_reachable script s fuel : forall m m', reachable script s m ->
  run flags checker sv fuel m = Some (Ok m') -> reachable script s m' /\ m'.(pc) = [].
Proof.
  induction fuel as [|fuel IH]; intros m m' Hm; cbn [run]; destruct (pc m) eqn:E; try done;
    try (intros [= <-]; done).
  destruct (step flags checker sv m) as [m1|] eqn:Es; [|done]. apply IH.
  eapply reach_step; [done| |done]. by rewrite E.
Qed.

Lemma EvalScript_good s script r : all_bytes script = true -> good_stack s ->
  EvalScript flags checker sv s script = Ok r -> good_stack r.
Proof.
  intros Hb Hs. unfold EvalScript. destruct (_ <? _); [done|].
  destruct (run _ _ _ _ _) as [[m|]|] eqn:E; try done. destruct (is_nil _); [|done]. intros [= <-].
  apply (run_reachable script s) in E as [Hr _]; [|constructor].
  destruct (reachable_wf _ _ _ Hb Hs Hr). split; [done|lia].
Qed.

End Limits.

(** ** Signatures *)

Section Signatures.
Context `{SH : ScriptHash} `{EC : Ecdsa}.
Context (flags : Z) (checker : BaseSignatureChecker) (sv : SigVersion).

(** [sigs] can be matched, in order, with some of the [keys]. *)
Definition matching (code : CScript) (sigs keys : list bytes) : Prop :=
  exists ks, ks `sublist_of` keys /\ Forall2 (fun sig key => checker.(CheckSig) sig key code sv = true) sigs ks.

Lemma matching_cons code sig sigs key keys :
  matching code (sig :: sigs) (key :: keys) <->
  matching code (if checker.(CheckSig) sig key code sv then sigs else sig :: sigs) keys.
Proof.
  unfold matching. split.
  - intros (ks & Hs & Hf). apply Forall2_cons_inv_l in Hf as (k & ks' & Hk & Hf & ->).
    apply sublist_cons_r in Hs as [Hs|(l & [= -> ->] & Hs)].
    + destruct (CheckSig checker sig key code sv); [|exists (k :: ks'); split; [done|by constructor]].
      exists ks'. split; [|done]. etrans; [by apply sublist_cons, reflexivity|done].
    + rewrite Hk. by exists l.
  - intros (ks & Hs & Hf). destruct (CheckSig checker sig key code sv) eqn:E.
    + exists (key :: ks). split; [by apply sublist_skip|by constructor].
    + exists ks. split; [by apply sublist_cons|done].
Qed.

Lemma matching_length code sigs keys : matching code sigs keys -> (length sigs <= length keys)%nat.
Proof. intros (ks & Hs%sublist_length & Hf%Forall2_length). lia. Qed.

(** Signatures and keys whose encodings the flags accept. *)
Definition encoded (sigs keys : list bytes) : Prop :=
  Forall (fun sig => CheckSignatureEncoding flags sig = Ok tt) sigs /\
  Forall (fun key => CheckPubKeyEncoding flags sv key = Ok tt) keys.

(** The greedy loop finds a matching when there is one. *)
Lemma multisig_loop_matching code keys : forall sigs, encoded sigs keys ->
  exists b, multisig_loop flags checker sv code sigs keys = Ok b /\ (b = true <-> matching code sigs keys).
Proof.
  induction keys as [|key keys IH]; intros [|sig sigs] [Hs Hk]; cbn [multisig_loop].
  - exists true. split; [done|]. split; [intros _; by exists []|done].
  - exists false. split; [done|]. split; [done|]. intros H%matching_length. cbn in H. lia.
  - exists true. split; [done|]. split; [intros _; exists []; split; [apply sublist_nil_l|done]|done].
  - pose proof Hs as Hs'. apply Forall_cons in Hs' as [H1 Hs']. apply Forall_cons in Hk as [H2 Hk].
    rewrite H1, H2. cbn [mbind result_bind]. setoid_rewrite matching_cons.
    set (sigs2 := if CheckSig _ _ _ _ _ then _ else _).
    destruct (Nat.ltb_spec (length keys) (length sigs2)) as [L|L].
    + exists false. split; [done|]. split; [done|]. intros H%matching_length. lia.
    + apply IH. split; [|done]. unfold sigs2. by destruct (CheckSig _ _ _ _ _).
Qed.

Lemma script_num_serialize n : Z.abs n < 2 ^ 31 ->
  script_num flags (CScriptNum.serialize n) CScriptNum.nDefaultMaxNumSize = Ok n.
Proof. intros. unfold script_num. by rewrite ScriptNumFacts.of_vch_serialize by lia. Qed.

Lemma getint_id n : Z.abs n < 2 ^ 31 -> CScriptNum.getint n = n.
Proof. intros. unfold CScriptNum.getint. repeat case_match; lia. Qed.

(** The parts of the stack of a multisignature spend. *)
Lemma multisig_stack (a c dummy : bytes) (keys sigs rest : list bytes) :
  let k := Z.of_nat (length keys) in let j := Z.of_nat (length sigs) in
  let st := a :: keys ++ c :: sigs ++ dummy :: rest in
  Z.of_nat (length st) = 3 + k + j + Z.of_nat (length rest) /\ st !!! S (length keys) = c /\
  take (length keys) (drop 1 st) = keys /\ take (length sigs) (drop (Z.to_nat (2 + k)) st) = sigs /\
  drop (Z.to_nat (2 + k + j)) st = dummy :: rest.
Proof.
  cbv zeta. split_and!.
  - cbn [length]. rewrite length_app. cbn [length]. rewrite length_app. cbn [length]. lia.
  - by apply (list_lookup_total_middle (a :: keys)).
  - cbn [drop]. rewrite drop_0. apply take_app_length.
  - replace (Z.to_nat (2 + Z.of_nat (length keys))) with (S (length (keys ++ [c]))) by (rewrite length_app; cbn; lia).
    replace (keys ++ c :: sigs ++ dummy :: rest) with ((keys ++ [c]) ++ sigs ++ dummy :: rest) by (by rewrite <- app_assoc).
    cbn [drop]. rewrite drop_app_length. apply take_app_length.
  - replace (Z.to_nat _) with (S (length ((keys ++ [c]) ++ sigs))) by (rewrite !length_app; cbn; lia).
    replace (keys ++ c :: sigs ++ dummy :: rest) with (((keys ++ [c]) ++ sigs) ++ dummy :: rest) by (by rewrite <- !app_assoc).
    apply drop_app_length.
Qed.

End Signatures.

(** ** Payment to a key hash *)

Section Steps.
Context `{SH : ScriptHash} `{EC : Ecdsa}.
Context (flags : Z) (checker : BaseSignatureChecker) (sv : SigVersion).

(** An instruction without operand, outside of conditionals. *)
Lemma step_exec opcode rest code s a n : 0x60 < opcode -> opcode <> OP_RVN_ASSET -> n < MAX_OPS_PER_SCRIPT ->
  is_disabled (opcode_of opcode) = false ->
  step flags checker sv (Machine (opcode :: rest) code s a [] n)
  = m ← exec_op flags checker sv true opcode (Machine rest code s a [] (n + 1));
    if MAX_STACK_SIZE <? Z.of_nat (length m.(stack) + length m.(altstack)) then Err SCRIPT_ERR_STACK_SIZE else Ok m.
Proof.
  intros Ho Hr Hn Hd. unfold step. cbn [pc vfExec forallb stack altstack nOpCount pbegincodehash GetOp2].
  replace (opcode <=? 0x4e) with false by lia. replace (opcode =? 0xc0) with false by lia.
  replace (0x60 <? opcode) with true by lia. change (520 <? Z.of_nat (length [])) with false.
  replace (true && (201 <? n + 1)) with false by lia. rewrite Hd.
  replace (opcode <=? 0x4e) with false by lia. by rewrite andb_false_r.
Qed.

(** A direct push of at most 75 bytes, outside of conditionals. *)
Lemma step_push v rest code s a n : (2 <= length v <= 75)%nat ->
  step flags checker sv (Machine (push_bytes [] v ++ rest) code s a [] n)
  = if MAX_STACK_SIZE <? Z.of_nat (S (length s) + length a) then Err SCRIPT_ERR_STACK_SIZE
    else Ok (Machine rest code (v :: s) a [] n).
Proof.
  intros Hl. unfold step. cbn [pc vfExec forallb stack altstack nOpCount pbegincodehash].
  rewrite GetOp2_push_short by lia. replace (520 <? _) with false by lia. replace (0x60 <? _) with false by lia.
  cbn [andb]. replace (is_disabled _) with false; cycle 1.
  { unfold opcode_of. replace (_ =? 0xc0) with false by lia. by replace (_ <? 0x4f) with true by lia. }
  replace (0 <=? _) with true by lia. replace (_ <=? 0x4e) with true by lia. cbn [andb].
  replace (CheckMinimalPush v _) with true; [by rewrite andb_false_r|].
  unfold CheckMinimalPush. replace (_ =? 0) with false by lia. replace (_ =? 1) with false by lia. cbn [andb].
  replace (_ <=? 75) with true by lia. symmetry. apply Z.eqb_refl.
Qed.

Lemma run_exec opcode rest code s a n fuel :
  0x60 < opcode -> opcode <> OP_RVN_ASSET -> n < MAX_OPS_PER_SCRIPT -> is_disabled (opcode_of opcode) = false ->
  forall r, exec_op flags checker sv true opcode (Machine rest code s a [] (n + 1)) = r ->
  (forall m, r = Ok m -> Z.of_nat (length m.(stack) + length m.(altstack)) <= MAX_STACK_SIZE) ->
  run flags checker sv (S fuel) (Machine (opcode :: rest) code s a [] n)
  = match r with Ok m => run flags checker sv fuel m | Err e => Some (Err e) end.
Proof.
  intros Ho Hr Hn Hd r He Hs. cbn [run pc]. rewrite step_exec, He by done.
  destruct r as [m|]; [|done]. cbn [mbind result_bind]. specialize (Hs m eq_refl).
  by replace (1000 <? _) with false by lia.
Qed.

Lemma run_exec_ok opcode rest code s a n fuel :
  0x60 < opcode -> opcode <> OP_RVN_ASSET -> n < MAX_OPS_PER_SCRIPT -> is_disabled (opcode_of opcode) = false ->
  forall m, exec_op flags checker sv true opcode (Machine rest code s a [] (n + 1)) = Ok m ->
  Z.of_nat (length m.(stack) + length m.(altstack)) <= MAX_STACK_SIZE ->
  run flags checker sv (S fuel) (Machine (opcode :: rest) code s a [] n) = run flags checker sv fuel m.
Proof. intros ? ? ? ? m He Hs. erewrite run_exec; [|done|done|done|done|exact He|by intros ? [= <-]]. done. Qed.

Lemma run_push v rest code s a n fuel : (2 <= length v <= 75)%nat -> Z.of_nat (length s + length a) < MAX_STACK_SIZE ->
  run flags checker sv (S fuel) (Machine (push_bytes [] v ++ rest) code s a [] n)
  = run flags checker sv fuel (Machine rest code (v :: s) a [] n).
Proof.
  intros Hl Hs. cbn [run pc]. rewrite step_push by done. replace (1000 <? _) with false by lia. by rewrite push_bytes_short by lia.
Qed.

Lemma run_end fuel code s a v n :
  run flags checker sv fuel (Machine [] code s a v n) = Some (Ok (Machine [] code s a v n)).
Proof. by destruct fuel. Qed.

(** The instruction of the asset data takes the rest of the script and does nothing. *)
Lemma run_asset data code s a n fuel : (length data <= 520)%nat -> n < MAX_OPS_PER_SCRIPT ->
  Z.of_nat (length s + length a) <= MAX_STACK_SIZE ->
  run flags checker sv (S fuel) (Machine (OP_RVN_ASSET :: data) code s a [] n)
  = Some (Ok (Machine [] code s a [] (n + 1))).
Proof.
  intros Hd Hn Hs. cbn [run pc]. unfold step. cbn [pc GetOp2]. cbn -[Z.add].
  replace (520 <? _) with false by lia. replace (201 <? _) with false by lia. cbn -[Z.add].
  replace (1000 <? _) with false by lia. apply run_end.
Qed.

(** A payment to the key hash [h], alone or followed by asset data. *)
Definition asset_tail (tail : CScript) : Prop :=
  tail = [] \/ exists data, tail = OP_RVN_ASSET :: data /\ (length data <= 520)%nat.
Definition p2pkh (h : bytes) (tail : CScript) : CScript := GetScriptForDestination (CKeyID h) ++ tail.

Lemma run_tail tail code s n fuel : asset_tail tail -> (length s <= 1000)%nat -> n < MAX_OPS_PER_SCRIPT -> (0 < fuel)%nat ->
  exists n', run flags checker sv fuel (Machine tail code s [] [] n) = Some (Ok (Machine [] code s [] [] n')).
Proof.
  intros [->|(data & -> & Hd)] Hs Hn Hf; [exists n; apply run_end|].
  destruct fuel as [|fuel]; [lia|]. exists (n + 1). apply run_asset; [done|done|cbn; lia].
Qed.

Lemma exec_equalverify m : exec_op flags checker sv true OP_EQUALVERIFY m = set_stack m <$> op_equal true m.(stack).
Proof. done. Qed.

Lemma exec_checksig m : exec_op flags checker sv true OP_CHECKSIG m = set_stack m <$> op_checksig flags checker sv false m.
Proof. done. Qed.

Lemma p2pkh_shape h tail : length h = 20%nat -> asset_tail tail ->
  p2pkh h tail = 0x76 :: 0xa9 :: push_bytes [] h ++ [0x88; 0xac] ++ tail /\
  exists n, length (p2pkh h tail) = (25 + n)%nat /\ (n <= 521)%nat.
Proof.
  intros Hh Ht. assert (p2pkh h tail = 0x76 :: 0xa9 :: push_bytes [] h ++ [0x88; 0xac] ++ tail) as E.
  { unfold p2pkh, GetScriptForDestination. rewrite !push_bytes_short by lia. cbn [app]. by rewrite <- app_assoc. }
  split; [done|]. exists (length tail). rewrite E, push_bytes_short by lia. cbn [length app]. rewrite length_app. cbn.
  split; [lia|]. destruct Ht as [->|(data & -> & Hd)]; cbn; lia.
Qed.

Lemma op_checksig_single m key sig r : stack m = [key; sig] ->
  op_checksig flags checker sv false m = Ok r -> length r = 1%nat.
Proof.
  unfold op_checksig. intros ->. intros (?&_&(?&_&Hr)%bind_Ok)%bind_Ok. revert Hr.
  destruct (_ && _ && _); [by intros [=]|]. by intros [= <-].
Qed.

(** What the script computes on a signature and a key. *)
Lemma eval_p2pkh sig key h tail : length h = 20%nat -> asset_tail tail ->
  EvalScript flags checker sv [key; sig] (p2pkh h tail)
  = if bytes_eq (ripemd160 (sha256 key)) h
    then op_checksig flags checker sv false (Machine tail (p2pkh h tail) [key; sig] [] [] 4)
    else Err SCRIPT_ERR_EQUALVERIFY.
Proof.
  intros Hh Ht. destruct (p2pkh_shape h tail Hh Ht) as (E & k & El & Hk).
  unfold EvalScript. rewrite El. replace (10000 <? _) with false by lia. cbn iota.
  set (code := p2pkh h tail) in *. rewrite E at 1. cbn [Nat.add].
  erewrite run_exec_ok; [|done|done|done|done|reflexivity|done].
  unfold set_stack; cbn [stack altstack pc pbegincodehash vfExec nOpCount].
  erewrite run_exec_ok; [|done|done|done|done|reflexivity|done].
  unfold set_stack; cbn [stack altstack pc pbegincodehash vfExec nOpCount].
  change (opcode_of 169) with O_HASH160. cbn iota. rewrite run_push by (cbn; lia). cbn [app].
  destruct (bytes_eq (ripemd160 (sha256 key)) h) eqn:Eq; cycle 1.
  { erewrite (run_exec 0x88); [|done|done|done|done| |]; cycle 1.
    { rewrite exec_equalverify. cbn [stack op_equal]. rewrite Eq. reflexivity. } { done. } done. }
  erewrite (run_exec_ok 0x88); [|done|done|done|done|rewrite exec_equalverify; cbn [stack op_equal]; rewrite Eq; reflexivity|done].
  unfold set_stack; cbn [stack altstack pc pbegincodehash vfExec nOpCount].
  change (0 + 1 + 1 + 1) with 3. set (m := Machine tail code [key; sig] [] [] 4).
  erewrite (run_exec 0xac); [|done|done|done|done|reflexivity|]; cycle 1.
  { rewrite exec_checksig. intros m1 (r&Hr&->)%fmap_Ok. apply op_checksig_single with (key:=key) (sig:=sig) in Hr; [|done].
    cbn. lia. }
  rewrite exec_checksig. change (3 + 1) with 4. fold m.
  destruct (op_checksig flags checker sv false m) as [r|e] eqn:Ec; [|done]. cbn [fmap result_fmap].
  apply op_checksig_single with (key:=key) (sig:=sig) in Ec; [|done].
  unfold set_stack, m. cbn [pc pbegincodehash altstack vfExec nOpCount].
  edestruct (run_tail tail code r 4) as (n' & ->); [done|lia|done|..]; [|done]. lia.
Qed.

(** *** Any stack *)

Lemma run_exec_inv opcode rest code s a n fuel r :
  0x60 < opcode -> opcode <> OP_RVN_ASSET -> n < MAX_OPS_PER_SCRIPT -> is_disabled (opcode_of opcode) = false ->
  run flags checker sv (S fuel) (Machine (opcode :: rest) code s a [] n) = Some (Ok r) ->
  exists m, exec_op flags checker sv true opcode (Machine rest code s a [] (n + 1)) = Ok m
    /\ Z.of_nat (length m.(stack) + length m.(altstack)) <= MAX_STACK_SIZE
    /\ run flags checker sv fuel m = Some (Ok r).
Proof.
  intros Ho Hr Hn Hd. cbn [run pc]. rewrite step_exec by done.
  destruct (exec_op _ _ _ _ _ _) as [m|e]; [|done]. cbn [mbind result_bind]. intros H. exists m.
  destruct (Z.ltb_spec 1000 (Z.of_nat (length (stack m) + length (altstack m)))) as [Hs|Hs]; [done|]. split_and!; [done|lia|done].
Qed.

Lemma run_push_inv v rest code s a n fuel r : (2 <= length v <= 75)%nat ->
  run flags checker sv (S fuel) (Machine (push_bytes [] v ++ rest) code s a [] n) = Some (Ok r) ->
  run flags checker sv fuel (Machine rest code (v :: s) a [] n) = Some (Ok r).
Proof.
  intros Hl. pose proof (step_push v rest code s a n Hl) as Es. rewrite push_bytes_short in * by lia.
  cbn [run pc app] in *. rewrite Es. by case_match.
Qed.

(** The instructions of a payment to a key hash that succeed on any stack: they
    find a key that hashes to [h] and a signature, and end with the result of
    checking it on the rest of the stack. *)
Lemma eval_p2pkh_inv st h tail s : length h = 20%nat -> asset_tail tail ->
  EvalScript flags checker sv st (p2pkh h tail) = Ok s ->
  exists key sig rest, st = key :: sig :: rest /\ ripemd160 (sha256 key) = h
    /\ op_checksig flags checker sv false (Machine tail (p2pkh h tail) (key :: sig :: rest) [] [] 4) = Ok s.
Proof.
  intros Hh Ht. destruct (p2pkh_shape h tail Hh Ht) as (E & k & El & Hk).
  unfold EvalScript. rewrite El. replace (10000 <? _) with false by lia. cbn iota.
  set (code := p2pkh h tail) in *. rewrite E at 1. cbn [Nat.add].
  destruct (run _ _ _ _ _) as [[r|]|] eqn:Er; [|done|done]. case_match; [|done]. intros [= <-].
  destruct st as [|key st]; [by apply run_exec_inv in Er as (m & [=] & _)|].
  apply run_exec_inv in Er as (m & [= <-] & _ & Er); [|done..].
  apply run_exec_inv in Er as (m & [= <-] & _ & Er); [|done..].
  unfold set_stack in Er; cbn [stack altstack pc pbegincodehash vfExec nOpCount] in Er.
  change (opcode_of 169) with O_HASH160 in Er. cbn iota in Er. apply run_push_inv in Er; [|lia]. cbn [app] in Er.
  apply run_exec_inv in Er as (m & Em & _ & Er); [|done..]. rewrite exec_equalverify in Em. cbn [stack op_equal] in Em.
  destruct (bytes_eq (ripemd160 (sha256 key)) h) eqn:Eq; [|done]. injection Em as <-.
  unfold set_stack in Er; cbn [stack altstack pc pbegincodehash vfExec nOpCount] in Er.
  apply run_exec_inv in Er as (m & Em & Hm & Er); [|done..]. rewrite exec_checksig in Em.
  apply fmap_Ok in Em as (s & Es & ->). destruct st as [|sig rest]; [done|].
  unfold set_stack in Er; cbn [stack altstack pc pbegincodehash vfExec nOpCount] in Er, Hm.
  exists key, sig, rest. split_and!; [done|by apply bytes_eq_spec|]. change (0 + 1 + 1 + 1 + 1) with 4 in *.
  edestruct (run_tail tail code s 4) as (n' & Et); [done|cbn in Hm; lia|done| |rewrite Et in Er; by injection Er as <-]. lia.
Qed.

End Steps.
