(* ===== verification/ScriptRules.v ===== *)
(** The rules that the script interpreter gives to transactions: every machine it
    reaches is well typed and within the limits, every script comes to an end, a
    spend that the mempool accepts is accepted in a block, and what a payment to
    a key hash needs to be spent. *)

From S2P Require Import Prelude Serialize Sha256 Script Primitives Interpreter Standard InterpreterFacts.

Section Rules.
Context `{SH : ScriptHash} `{EC : Ecdsa}.
Context (flags : Z) (checker : BaseSignatureChecker).

(** C12. Every machine that the evaluation of a script reaches has byte strings
    of at most 520 bytes on its two stacks, together at most 1000 of them, has
    counted at most 201 operations, and has its instruction pointer and the start
    of the signed code inside the script; a stack that [EvalScript] returns may
    be handed to the next script. *)
Theorem machine_typed (sv : SigVersion) (script : CScript) (s : list bytes) :
  all_bytes script = true -> good_stack s ->
  (forall m, reachable flags checker sv script s m -> wf script m) /\
  (forall r, EvalScript flags checker sv s script = Ok r -> good_stack r).
Proof.
  intros Hb Hs. split; [intros m; by apply reachable_wf|intros r; by apply EvalScript_good].
Qed.

(** C30. Every evaluation ends: the length of the script bounds the number of
    instructions, a larger bound gives the same result, and [EvalScript] returns
    the stack of the last machine when every conditional is closed, the error of
    the failing instruction otherwise. *)
Theorem eval_terminates (sv : SigVersion) (script : CScript) (s : list bytes) :
  exists r, (forall extra, run flags checker sv (length script + extra) (Machine script script s [] [] 0) = Some r) /\
    EvalScript flags checker sv s script
    = if MAX_SCRIPT_SIZE <? Z.of_nat (length script) then Err SCRIPT_ERR_SCRIPT_SIZE
      else m ← r; if is_nil m.(vfExec) then Ok m.(stack) else Err SCRIPT_ERR_UNBALANCED_CONDITIONAL.
Proof.
  destruct (run_total flags checker sv (length script) (Machine script script s [] [] 0)) as (r & Hr); [done|].
  exists r. split; [done|]. specialize (Hr 0%nat). rewrite Nat.add_0_r in Hr. unfold EvalScript. rewrite Hr.
  by destruct r.
Qed.

(** C16. [OP_CHECKMULTISIG] on the stack of a multisignature spend (the count of
    keys, the keys, the count of signatures, the signatures and the dummy
    element, each accepted by the encoding rules) counts the keys as operations
    and leaves true exactly when the signatures can be matched in order with
    distinct keys, each verifying against its key. *)
Theorem checkmultisig_exact (sv : SigVersion) (m : machine) (keys sigs rest : list bytes) :
  let n := Z.of_nat (length keys) in
  let code := foldl (drop_signature sv) m.(pbegincodehash) sigs in
  m.(stack) = CScriptNum.serialize n :: keys ++ CScriptNum.serialize (Z.of_nat (length sigs)) :: sigs ++ [] :: rest ->
  n <= MAX_PUBKEYS_PER_MULTISIG -> (length sigs <= length keys)%nat ->
  m.(nOpCount) + n <= MAX_OPS_PER_SCRIPT -> encoded flags sv sigs keys ->
  has_flag flags SCRIPT_VERIFY_NULLFAIL = false ->
  exists b, (b = true <-> matching checker sv code sigs keys) /\
    op_checkmultisig flags checker sv false m
    = Ok (Machine m.(pc) m.(pbegincodehash) (push_bool b rest) m.(altstack) m.(vfExec) (m.(nOpCount) + n)).
Proof.
  intros n code Hst Hn Hl Hop Henc Hnf. unfold n, code in *. clear n code.
  destruct (multisig_loop_matching flags checker sv (foldl (drop_signature sv) (pbegincodehash m) sigs) keys sigs Henc) as (b & Hb & Hm).
  exists b. split; [done|]. set (k := Z.of_nat (length keys)) in *. set (j := Z.of_nat (length sigs)) in *.
  destruct (multisig_stack (CScriptNum.serialize k) (CScriptNum.serialize j) [] keys sigs rest)
    as (Hlen & Hj & Hkeys & Hsigs & Hrest). rewrite <- Hst in *. fold k j in Hlen, Hj, Hkeys, Hsigs, Hrest.
  unfold op_checkmultisig. rewrite Hlen. replace (_ <? 1) with false by lia.
  replace (stack m !!! Z.to_nat (1 - 1)) with (CScriptNum.serialize k) by (by rewrite Hst).
  rewrite script_num_serialize by lia. cbn [mbind result_bind]. rewrite (getint_id k) by lia.
  replace ((k <? 0) || (20 <? k)) with false by lia. replace (201 <? _) with false by lia.
  replace (_ <? 2 + k) with false by lia.
  replace (Z.to_nat (2 + k - 1)) with (S (length keys)) by lia. rewrite Hj.
  rewrite script_num_serialize by lia. cbn [mbind result_bind]. rewrite (getint_id j) by lia.
  replace ((j <? 0) || (k <? j)) with false by lia. replace (_ <? 3 + k + j) with false by lia.
  replace (Z.to_nat k) with (length keys) by lia. replace (Z.to_nat j) with (length sigs) by lia.
  rewrite Hkeys, Hsigs, Hb. cbn [mbind result_bind].
  rewrite Hnf, andb_false_r. cbn [andb]. rewrite Hrest. cbn [is_nil negb]. by rewrite andb_false_r.
Qed.

(** *** Payment to a key hash *)

(** The input script that spends it. *)
Definition p2pkh_input (sig key : bytes) : CScript := push_bytes (push_bytes [] sig) key.

Lemma ops_push fuel v rest : (length v <= 75)%nat ->
  ops (S fuel) (push_bytes [] v ++ rest)
  = let '(l, ok) := ops fuel rest in ((Z.of_nat (length v), v) :: l, ok).
Proof.
  intros Hl. cbn [ops]. rewrite GetOp2_push_short by done. by rewrite push_bytes_short.
Qed.

Lemma ops_nil fuel : ops fuel [] = ([], true).
Proof. by destruct fuel. Qed.

Lemma p2pkh_input_push sig key : (2 <= length sig <= 75)%nat -> (2 <= length key <= 75)%nat ->
  IsPushOnly (p2pkh_input sig key) = true /\
  EvalScript flags checker SIGVERSION_BASE [] (p2pkh_input sig key) = Ok [key; sig].
Proof.
  intros Hs Hk. assert (p2pkh_input sig key = push_bytes [] sig ++ push_bytes [] key ++ []) as E.
  { unfold p2pkh_input. by rewrite app_nil_r, !push_bytes_short by lia. }
  assert (exists n, length (p2pkh_input sig key) = S (S n) /\ (S (S n) <= 152)%nat) as (n & El & Hn).
  { exists (length sig + length key)%nat. rewrite E, !push_bytes_short, app_nil_r by lia. rewrite length_app. cbn. lia. }
  split.
  - unfold IsPushOnly, script_ops. rewrite El, E, !ops_push, ops_nil by lia. cbn [forallb fst andb].
    replace (0x60 <? _) with false by lia. by replace (0x60 <? _) with false by lia.
  - unfold EvalScript. rewrite El. replace (10000 <? _) with false by lia. rewrite E at 1.
    by rewrite !run_push, run_end by (cbn; lia).
Qed.

(** What the [CHECKSIG] of a key hash payment asks of a signature and a key. *)
Definition key_signed (sv : SigVersion) (code : CScript) (sig key : bytes) : Prop :=
  CheckSignatureEncoding flags sig = Ok tt /\ CheckPubKeyEncoding flags sv key = Ok tt /\
  checker.(CheckSig) sig key (drop_signature sv code sig) sv = true.

Lemma checksig_true sv m key sig : stack m = [key; sig] ->
  (op_checksig flags checker sv false m = Ok [vchTrue] <-> key_signed sv m.(pbegincodehash) sig key) /\
  (forall s, op_checksig flags checker sv false m = Ok s -> s = [vchTrue] \/ s = [vchFalse]).
Proof.
  intros Hm. unfold op_checksig, key_signed. rewrite Hm.
  destruct (CheckSignatureEncoding flags sig) as [[]|]; cbn [mbind result_bind]; [|by split; [split; [done|intros [? _]]|]].
  destruct (CheckPubKeyEncoding flags sv key) as [[]|]; cbn [mbind result_bind]; [|by split; [split; [done|intros (_&?&_)]|]].
  destruct (CheckSig _ _ _ _ _); cbn [negb andb].
  - split; [done|]. intros s [= <-]. by left.
  - split; [|case_match; [done|]; intros s [= <-]; by right].
    split; [|by intros (_&_&?)]. by case_match.
Qed.

Lemma p2pkh_not_program h tail : IsWitnessProgram (p2pkh h tail) = None /\ IsPayToScriptHash (p2pkh h tail) = false.
Proof.
  unfold p2pkh, IsWitnessProgram, IsPayToScriptHash. cbn [GetScriptForDestination]. unfold push_bytes. cbn [app at_ nth].
  split; [by destruct (_ || _)|]. by rewrite andb_false_r.
Qed.

Lemma verify_p2pkh_err sig key h tail e : (2 <= length sig <= 75)%nat -> (2 <= length key <= 75)%nat ->
  EvalScript flags checker SIGVERSION_BASE [key; sig] (p2pkh h tail) = Err e ->
  VerifyScript flags checker (p2pkh_input sig key) (p2pkh h tail) [] = Err (Fails e).
Proof.
  intros Hs Hk He. destruct (p2pkh_input_push sig key Hs Hk) as [Hp Hi].
  unfold VerifyScript. rewrite Hp, andb_false_r, Hi. cbn [lift mbind result_bind]. by rewrite He.
Qed.

(** A payment to a key hash is accepted when its script leaves true. *)
Lemma verify_p2pkh sig key h tail s : consistent flags ->
  (2 <= length sig <= 75)%nat -> (2 <= length key <= 75)%nat ->
  EvalScript flags checker SIGVERSION_BASE [key; sig] (p2pkh h tail) = Ok s -> length s = 1%nat ->
  VerifyScript flags checker (p2pkh_input sig key) (p2pkh h tail) []
  = if ends_false s then Err (Fails SCRIPT_ERR_EVAL_FALSE) else Ok tt.
Proof.
  intros [Hc1 Hc2] Hs Hk He Hl. destruct (p2pkh_input_push sig key Hs Hk) as [Hp Hi].
  destruct (p2pkh_not_program h tail) as [Hw Hsh].
  unfold VerifyScript. rewrite Hp, andb_false_r, Hi. cbn [lift mbind result_bind]. rewrite He. cbn [lift mbind result_bind].
  destruct (ends_false s); [done|]. unfold witness_part. rewrite Hw, Hsh, andb_false_r.
  assert (final_part flags [] s false = Ok tt) as Hf.
  { unfold final_part. rewrite Hl. cbn [is_nil negb Nat.eqb]. rewrite !andb_false_r.
    destruct (has_flag flags SCRIPT_VERIFY_CLEANSTACK) eqn:E1; cbn [andb].
    - destruct (Hc2 eq_refl) as [-> ->]. done.
    - destruct (has_flag flags SCRIPT_VERIFY_WITNESS) eqn:E2; [|done]. by rewrite (Hc1 eq_refl). }
  by destruct (has_flag flags SCRIPT_VERIFY_WITNESS).
Qed.

(** C13. A payment to a key hash, alone or with asset data behind it, is spent by
    a signature and a key exactly when the key hashes to the hash of the output,
    the two are encoded as the flags ask, and the signature verifies against the
    output's script. *)
Theorem p2pkh_spend (sig key h : bytes) (tail : CScript) : consistent flags ->
  length h = 20%nat -> asset_tail tail -> (2 <= length sig <= 75)%nat -> (2 <= length key <= 75)%nat ->
  VerifyScript flags checker (p2pkh_input sig key) (p2pkh h tail) [] = Ok tt <->
  GetID key = h /\ key_signed SIGVERSION_BASE (p2pkh h tail) sig key.
Proof.
  intros Hc Hh Ht Hs Hk. unfold GetID. rewrite <- bytes_eq_spec.
  pose proof (eval_p2pkh flags checker SIGVERSION_BASE sig key h tail Hh Ht) as He.
  destruct (bytes_eq _ h) eqn:Eh; cycle 1.
  { split; [|by intros [? _]]. by rewrite (verify_p2pkh_err sig key h tail _ Hs Hk He). }
  set (m := Machine tail (p2pkh h tail) [key; sig] [] [] 4) in *.
  destruct (checksig_true SIGVERSION_BASE m key sig eq_refl) as [H1 H2]. cbn [m pbegincodehash] in H1.
  rewrite <- H1. destruct (op_checksig _ _ _ _ m) as [s|e].
  - rewrite (verify_p2pkh sig key h tail s Hc Hs Hk He) by (by destruct (H2 s eq_refl) as [-> | ->]).
    destruct (H2 s eq_refl) as [-> | ->]; split; [by split|done|done|by intros [_ [=]]].
  - split; [|by intros [_ ?]]. by rewrite (verify_p2pkh_err sig key h tail e).
Qed.

(** Whatever input script and witness are given, a payment to a key hash is only
    spent when the input script leaves a key that hashes to it on top of a signature
    of that key. *)
Lemma p2pkh_only_owner scriptSig witness h tail : length h = 20%nat -> asset_tail tail ->
  VerifyScript flags checker scriptSig (p2pkh h tail) witness = Ok tt ->
  exists sig key rest, EvalScript flags checker SIGVERSION_BASE [] scriptSig = Ok (key :: sig :: rest)
    /\ GetID key = h /\ key_signed SIGVERSION_BASE (p2pkh h tail) sig key.
Proof.
  intros Hh Ht. unfold VerifyScript. destruct (_ && _); [done|]. intros (st & Hst & H)%bind_Ok.
  destruct (EvalScript flags checker SIGVERSION_BASE [] scriptSig) as [st'|] eqn:E0; [|done]. injection Hst as ->.
  apply bind_Ok in H as (s & Hs & H). destruct (ends_false s) eqn:Ef; [done|]. clear H.
  destruct (EvalScript flags checker SIGVERSION_BASE st _) as [s'|] eqn:E; [|done]. injection Hs as ->.
  destruct (eval_p2pkh_inv _ _ _ _ _ _ _ Hh Ht E) as (key & sig & rest & -> & Hk & Hc). exists sig, key, rest. split; [done|]. split; [done|].
  unfold op_checksig in Hc. cbn [stack pbegincodehash] in Hc.
  apply bind_Ok in Hc as ([] & Hse & Hc). apply bind_Ok in Hc as ([] & Hpk & Hc). split_and!; [done..|].
  destruct (CheckSig _ _ _ _ _); [done|]. case_match; [done|]. by injection Hc as <-.
Qed.

Lemma p2sh_needs_argument s r : IsPayToScriptHash s = true ->
  EvalScript flags checker SIGVERSION_BASE [] s <> Ok r.
Proof.
  unfold IsPayToScriptHash, size_is. intros [[[Hl Ho]%andb_true_iff _]%andb_true_iff _]%andb_true_iff.
  destruct s as [|op s]; [done|]. cbn in Ho. apply Z.eqb_eq in Ho as ->. apply Nat.eqb_eq in Hl.
  unfold EvalScript. rewrite Hl. case_match; [done|]. destruct (run _ _ _ _ _) as [[m|]|] eqn:E; [|done|done].
  apply run_exec_inv in E as (m' & Hm & _); done.
Qed.

(** With flags that imply each other, no assertion fails. *)
Lemma verify_no_abort scriptSig s witness : consistent flags -> VerifyScript flags checker scriptSig s witness <> Err Aborts.
Proof.
  intros [Hc1 Hc2]. unfold VerifyScript. destruct (_ && _); [done|].
  destruct (EvalScript _ _ _ [] scriptSig) as [st|]; [|done]. cbn [lift mbind result_bind].
  destruct (EvalScript _ _ _ st s) as [s1|] eqn:E1; [|done]. cbn [lift mbind result_bind].
  destruct (ends_false s1); [done|].
  assert (forall w r h, final_part flags w r h <> Err Aborts) as Hf.
  { intros w r h. unfold final_part. destruct (has_flag flags SCRIPT_VERIFY_CLEANSTACK) eqn:Ec.
    - destruct (Hc2 eq_refl) as [-> ->]. cbn. by repeat case_match.
    - cbn. destruct (has_flag flags SCRIPT_VERIFY_WITNESS) eqn:Ew; [rewrite (Hc1 eq_refl)|]; cbn; by repeat case_match. }
  destruct (witness_part _ _ _ _ _ _ _ _) as [[had s2]|]; [|done]. cbn [lift mbind result_bind].
  destruct (has_flag flags SCRIPT_VERIFY_P2SH && IsPayToScriptHash s) eqn:Ep; [|apply Hf].
  apply andb_true_iff in Ep as [_ Ep]. unfold p2sh_part. destruct (IsPushOnly scriptSig); [|done]. cbn [negb].
  destruct st as [|red st]; [by destruct (p2sh_needs_argument s s1 Ep)|].
  destruct (EvalScript _ _ _ st red) as [s3|]; [|done]. cbn [lift mbind result_bind]. destruct (ends_false s3); [done|].
  destruct (witness_part _ _ _ _ _ _ _ _) as [[had' s4]|]; [|done]. apply Hf.
Qed.

End Rules.

(** ** The flags of the mempool and of a block *)

Section Policy.
Context `{SH : ScriptHash} `{EC : Ecdsa}.

(** The flags of a block whose time is past the switch to BIP 16. *)
Definition block_flags (b66 b65 csv segwit : bool) : Z :=
  GetBlockScriptFlags b66 b65 csv segwit 1333238400.

Lemma block_flags_time b66 b65 csv segwit nTime : 1333238400 <= nTime ->
  GetBlockScriptFlags b66 b65 csv segwit nTime = block_flags b66 b65 csv segwit.
Proof. intros. unfold block_flags, GetBlockScriptFlags. by replace (1333238400 <=? nTime) with true by lia. Qed.

Lemma block_flags_weaker b66 b65 csv segwit :
  weaker (block_flags b66 b65 csv segwit) STANDARD_SCRIPT_VERIFY_FLAGS /\ consistent (block_flags b66 b65 csv segwit).
Proof.
  destruct b66, b65, csv, segwit; (split; [split; [by intros []|]|split]); by vm_compute.
Qed.

(** C15. A spend that passes the mempool's script checks passes those of a block,
    whichever of the soft forks the block has: the standard flags are at least
    as strict. *)
Theorem standard_accepted_in_block (b66 b65 csv segwit : bool) (nTime : Z) (checker : BaseSignatureChecker)
  (scriptSig scriptPubKey : CScript) (witness : list bytes) : 1333238400 <= nTime ->
  VerifyScript STANDARD_SCRIPT_VERIFY_FLAGS checker scriptSig scriptPubKey witness = Ok tt ->
  VerifyScript (GetBlockScriptFlags b66 b65 csv segwit nTime) checker scriptSig scriptPubKey witness = Ok tt.
Proof.
  intros Ht. rewrite block_flags_time by done. destruct (block_flags_weaker b66 b65 csv segwit) as [Hw Hc].
  by apply VerifyScript_weaker.
Qed.

End Policy.

(** ** What a signature commits to *)

Section Commitment.
Context `{HS : Hash256}.

(** The four messages that are hashed for a signature of everything. *)
Definition prevouts_bytes (tx : CTransaction) : bytes := mjoin ((fun i => ser c_outpoint i.(prevout)) <$> tx.(vin)).
Definition sequences_bytes (tx : CTransaction) : bytes := mjoin ((fun i => ser u32 i.(nSequence)) <$> tx.(vin)).
Definition outputs_bytes (tx : CTransaction) : bytes := mjoin (ser c_txout <$> tx.(vout)).
Definition signed_bytes (tx : CTransaction) (txin : CTxIn) (code : CScript) (amount : Z) : bytes :=
  ser i32 tx.(nVersion) ++ ser (blob 32) (hash256 (prevouts_bytes tx)) ++ ser (blob 32) (hash256 (sequences_bytes tx))
  ++ ser c_outpoint txin.(prevout) ++ ser bytevec code ++ ser i64 amount
  ++ ser u32 txin.(nSequence) ++ ser (blob 32) (hash256 (outputs_bytes tx)) ++ ser u32 tx.(nLockTime)
  ++ ser i32 SIGHASH_ALL.
Definition messages (tx : CTransaction) (txin : CTxIn) (code : CScript) (amount : Z) : list bytes :=
  [signed_bytes tx txin code amount; prevouts_bytes tx; sequences_bytes tx; outputs_bytes tx].

(** What they are made of. *)
Definition signed_fields (tx : CTransaction) (txin : CTxIn) (code : CScript) (amount : Z) :=
  (tx.(nVersion), tx.(nLockTime), prevout <$> tx.(vin), nSequence <$> tx.(vin), tx.(vout),
   (txin.(prevout), txin.(nSequence), code, amount)).

(** Encodings that are never empty can be concatenated without their number. *)
Lemma mjoin_ser_inj {A B} (C : Codec B) va `{!CodecOk C va} (f : A -> B) l l' :
  (forall b, ser C b <> []) -> forallb (fun a => va (f a)) l = true -> forallb (fun a => va (f a)) l' = true ->
  mjoin ((fun a => ser C (f a)) <$> l) = mjoin ((fun a => ser C (f a)) <$> l') -> f <$> l = f <$> l'.
Proof.
  intros Hne. revert l'. induction l as [|a l IH]; intros [|a' l'] Hl Hl'; cbn; try done.
  - intros H. symmetry in H. by apply app_nil in H as [?%Hne _].
  - intros H. by apply app_nil in H as [?%Hne _].
  - cbn in Hl, Hl'. apply andb_true_iff in Hl as [Ha Hl], Hl' as [Ha' Hl'].
    intros [-> H]%(ser_app_inj C va); [|done..]. f_equal. by apply IH.
Qed.

Lemma SignatureHash_all tx nIn txin code amount : vin tx !! nIn = Some txin ->
  SignatureHash code tx nIn SIGHASH_ALL amount SIGVERSION_WITNESS_V0 (Some (precompute tx))
  = Some (hash256 (signed_bytes tx txin code amount)).
Proof. intros H. unfold SignatureHash, precompute. rewrite H. by destruct (HasWitness tx). Qed.

(** The fields of a valid transaction that are signed are in range. *)
Lemma valid_tx_signed tx : valid_tx tx = true ->
  in_s 32 tx.(nVersion) = true /\ in_u 32 tx.(nLockTime) = true /\
  forallb (fun i => valid_outpoint i.(prevout)) tx.(vin) = true /\
  forallb (fun i => in_u 32 i.(nSequence)) tx.(vin) = true /\ forallb valid_txout tx.(vout) = true.
Proof.
  intros (Hv & _ & _ & _ & _ & Hin & _ & Hout & Hlt & _)%valid_tx_fields.
  apply andb_true_iff in Hin as [_ Hin], Hout as [_ Hout]. rewrite forallb_forall in Hin.
  assert (forall i, In i (vin tx) -> valid_outpoint (prevout i) = true /\ in_u 32 (nSequence i) = true) as H.
  { intros i Hi. specialize (Hin (strip_in i) (in_map strip_in _ _ Hi)).
    unfold valid_txin in Hin. rewrite !andb_true_iff in Hin. destruct Hin as [[? [_ ?]] _]. by destruct i. }
  split_and!; [done|done| | |done]; apply forallb_forall; intros i Hi; by apply H.
Qed.

(** The lists are determined by what is hashed. *)
Lemma lists_inj tx tx' : valid_tx tx = true -> valid_tx tx' = true ->
  prevouts_bytes tx = prevouts_bytes tx' -> sequences_bytes tx = sequences_bytes tx' -> outputs_bytes tx = outputs_bytes tx' ->
  prevout <$> tx.(vin) = prevout <$> tx'.(vin) /\ nSequence <$> tx.(vin) = nSequence <$> tx'.(vin) /\ tx.(vout) = tx'.(vout).
Proof.
  intros (_&_&Hp&Hs&Ho)%valid_tx_signed (_&_&Hp'&Hs'&Ho')%valid_tx_signed Ep Es Eo. split_and!.
  - by apply (mjoin_ser_inj c_outpoint valid_outpoint prevout).
  - by apply (mjoin_ser_inj u32 (in_u 32) nSequence).
  - rewrite <- (list_fmap_id (vout tx)), <- (list_fmap_id (vout tx')).
    by apply (mjoin_ser_inj c_txout valid_txout id).
Qed.

Lemma fields_bytes tx tx' :
  prevout <$> tx.(vin) = prevout <$> tx'.(vin) -> nSequence <$> tx.(vin) = nSequence <$> tx'.(vin) -> tx.(vout) = tx'.(vout) ->
  prevouts_bytes tx = prevouts_bytes tx' /\ sequences_bytes tx = sequences_bytes tx' /\ outputs_bytes tx = outputs_bytes tx'.
Proof.
  intros Ep Es Eo. unfold prevouts_bytes, sequences_bytes, outputs_bytes. split_and!; [| |by rewrite Eo]; f_equal.
  - pose proof (fun l => list_fmap_compose prevout (ser c_outpoint) l) as H. unfold compose in H. by rewrite !H, Ep.
  - pose proof (fun l => list_fmap_compose nSequence (ser u32) l) as H. unfold compose in H. by rewrite !H, Es.
Qed.

Lemma signed_bytes_inj tx tx' txin txin' code code' amount amount' :
  valid_tx tx = true -> valid_tx tx' = true -> txin ∈ tx.(vin) -> txin' ∈ tx'.(vin) ->
  valid_bytes code = true -> valid_bytes code' = true -> in_s 64 amount = true -> in_s 64 amount' = true ->
  signed_bytes tx txin code amount = signed_bytes tx' txin' code' amount' ->
  nVersion tx = nVersion tx' /\ nLockTime tx = nLockTime tx' /\
  (prevout txin, nSequence txin, code, amount) = (prevout txin', nSequence txin', code', amount') /\
  hash256 (prevouts_bytes tx) = hash256 (prevouts_bytes tx') /\
  hash256 (sequences_bytes tx) = hash256 (sequences_bytes tx') /\
  hash256 (outputs_bytes tx) = hash256 (outputs_bytes tx').
Proof.
  intros (Hv&Hl&Hp&Hs&_)%valid_tx_signed (Hv'&Hl'&Hp'&Hs'&_)%valid_tx_signed Hi Hi' Hc Hc' Ha Ha'.
  apply list_elem_of_In in Hi, Hi'. rewrite forallb_forall in Hp, Hs, Hp', Hs'.
  specialize (Hp _ Hi). specialize (Hs _ Hi). specialize (Hp' _ Hi'). specialize (Hs' _ Hi').
  unfold signed_bytes.
  intros [-> E]%(ser_app_inj i32 (in_s 32)); [|done..].
  apply (ser_app_inj (blob 32) (in_u 256)) in E as [E1 E]; [|apply hash256_range..].
  apply (ser_app_inj (blob 32) (in_u 256)) in E as [E2 E]; [|apply hash256_range..].
  apply (ser_app_inj c_outpoint valid_outpoint) in E as [-> E]; [|done..].
  apply (ser_app_inj bytevec valid_bytes) in E as [-> E]; [|done..].
  apply (ser_app_inj i64 (in_s 64)) in E as [-> E]; [|done..].
  apply (ser_app_inj u32 (in_u 32)) in E as [-> E]; [|done..].
  apply (ser_app_inj (blob 32) (in_u 256)) in E as [E3 E]; [|apply hash256_range..].
  by apply (ser_app_inj u32 (in_u 32)) in E as [-> _].
Qed.

(** C14. A signature of everything in a segwit input ([SIGHASH_ALL]) commits,
    barring a collision between the messages hashed, to the version, the lock
    time, every outpoint and sequence number, every output, the signed outpoint,
    its script and its amount, and to nothing else: the hashes are equal exactly
    when these fields are, whether or not the cached hashes are used.  The type
    and the payload of a special transaction are not among them. *)
Theorem sighash_all_exact (tx tx' : CTransaction) (nIn nIn' : nat) (txin txin' : CTxIn) (code code' : CScript)
  (amount amount' : Z) : valid_tx tx = true -> valid_tx tx' = true ->
  tx.(vin) !! nIn = Some txin -> tx'.(vin) !! nIn' = Some txin' ->
  valid_bytes code = true -> valid_bytes code' = true -> in_s 64 amount = true -> in_s 64 amount' = true ->
  no_collision (messages tx txin code amount ++ messages tx' txin' code' amount') ->
  SignatureHash code tx nIn SIGHASH_ALL amount SIGVERSION_WITNESS_V0 (Some (precompute tx))
  = SignatureHash code' tx' nIn' SIGHASH_ALL amount' SIGVERSION_WITNESS_V0 (Some (precompute tx')) <->
  signed_fields tx txin code amount = signed_fields tx' txin' code' amount'.
Proof.
  intros Hv Hv' Hi Hi' Hc Hc' Ha Ha' Hn. rewrite !SignatureHash_all with (txin := txin) by done.
  rewrite !SignatureHash_all with (txin := txin') by done. split.
  - intros [= E]. apply Hn in E; [|unfold messages; set_solver..].
    apply signed_bytes_inj in E as (Ev & El & Ef & E1 & E2 & E3); try done; [|by eapply list_elem_of_lookup_2..].
    apply Hn in E1, E2, E3; [|unfold messages; set_solver..].
    destruct (lists_inj tx tx' Hv Hv' E1 E2 E3) as (Ep & Es & Eo). unfold signed_fields. congruence.
  - intros [= Ev El Ep Es Eo E1 E2 E3 E4]. do 2 f_equal. unfold signed_bytes.
    destruct (fields_bytes tx tx' Ep Es Eo) as (-> & -> & ->). by rewrite Ev, El, E1, E2, E3, E4.
Qed.

End Commitment.

(** ** A sample spend *)

Module Spend.

(** A signature scheme that accepts every signature. *)
Definition accept_all : Ecdsa := {| ecdsa_verify := fun _ _ _ => true; ecdsa_low_s := fun _ => true |}.
#[local] Existing Instance accept_all.
#[local] Existing Instance poly_script_hash.
#[local] Existing Instance Poly.poly_hash.

Definition key : bytes := 2 :: replicate 32 5.
Definition sig : bytes := [0x30; 6; 2; 1; 1; 2; 1; 1; 1].
Definition key_hash : bytes := Eval vm_compute in GetID key.
Definition tx (nType : Z) (payload : bytes) : CTransaction :=
  MkTransaction [MkTxIn (MkOutPoint 7 1) (p2pkh_input sig key) SEQUENCE_FINAL []; MkTxIn (MkOutPoint 8 0) [] 5 []]
    [MkTxOut 1000 [OP_RETURN]] 3 nType 0 payload.
Definition checker : BaseSignatureChecker := TransactionSignatureChecker (tx 0 []) 0 1000 (Some (precompute (tx 0 []))).
Definition asset : CScript := [OP_RVN_ASSET; 4; RVN_R; RVN_V; RVN_N; RVN_T].

Lemma machine_typed_witness :
  (forall m, reachable STANDARD_SCRIPT_VERIFY_FLAGS checker SIGVERSION_BASE (p2pkh key_hash asset) [key; sig] m ->
     wf (p2pkh key_hash asset) m) /\
  (forall r, EvalScript STANDARD_SCRIPT_VERIFY_FLAGS checker SIGVERSION_BASE [key; sig] (p2pkh key_hash asset) = Ok r ->
     good_stack r).
Proof.
  apply machine_typed; [vm_compute; reflexivity|]. split; [|vm_compute; discriminate].
  do 2 (apply Forall_cons_2; [split; vm_compute; [reflexivity|discriminate]|]). apply Forall_nil_2.
Defined.

Lemma standard_consistent : consistent STANDARD_SCRIPT_VERIFY_FLAGS.
Proof. split; vm_compute; auto. Qed.

Lemma asset_is_tail : asset_tail asset.
Proof. right. eexists. split; [reflexivity|]. vm_compute. lia. Qed.

Lemma p2pkh_spend_witness :
  VerifyScript STANDARD_SCRIPT_VERIFY_FLAGS checker (p2pkh_input sig key) (p2pkh key_hash asset) [] = Ok tt.
Proof.
  apply p2pkh_spend; [exact standard_consistent|reflexivity|exact asset_is_tail|vm_compute; lia|vm_compute; lia|].
  split; [vm_compute; reflexivity|]. split_and!; vm_compute; reflexivity.
Defined.

Lemma standard_accepted_in_block_witness :
  VerifyScript (GetBlockScriptFlags true true true true 1700000000) checker (p2pkh_input sig key) (p2pkh key_hash []) [] = Ok tt.
Proof. apply standard_accepted_in_block; [lia|vm_compute; reflexivity]. Defined.

Definition multisig_machine : machine :=
  Machine [] [OP_CHECKMULTISIG]
    (CScriptNum.serialize 3 :: [key; key; key] ++ CScriptNum.serialize 2 :: [sig; sig] ++ [[]; [7]]) [] [] 1.

Lemma checkmultisig_exact_witness : exists b,
  (b = true <-> matching checker SIGVERSION_WITNESS_V0 [OP_CHECKMULTISIG] [sig; sig] [key; key; key]) /\
  op_checkmultisig (block_flags true true true true) checker SIGVERSION_WITNESS_V0 false multisig_machine
  = Ok (Machine [] [OP_CHECKMULTISIG] (push_bool b [[7]]) [] [] 4).
Proof.
  apply (checkmultisig_exact (block_flags true true true true) checker SIGVERSION_WITNESS_V0 multisig_machine
           [key; key; key] [sig; sig] [[7]]); [reflexivity|vm_compute; discriminate|vm_compute; lia|vm_compute; discriminate| |reflexivity].
  split; repeat constructor; vm_compute; reflexivity.
Defined.

(** A transaction and the registration made of it by changing its type and
    payload only. *)
Lemma sighash_all_exact_witness :
  SignatureHash (p2pkh key_hash []) (tx 0 []) 0 SIGHASH_ALL 1000 SIGVERSION_WITNESS_V0 (Some (precompute (tx 0 [])))
  = SignatureHash (p2pkh key_hash []) (tx 1 [9; 9]) 0 SIGHASH_ALL 1000 SIGVERSION_WITNESS_V0 (Some (precompute (tx 1 [9; 9]))).
Proof.
  eapply sighash_all_exact; [vm_compute; reflexivity..| |reflexivity].
  apply no_collision_b_spec. vm_compute. reflexivity.
Defined.

End Spend.
