(* ===== verification/AssetNames.v ===== *)
(** Names of assets (assets/assets.cpp): regular expressions matched by
    derivatives, the patterns of the source, the classification of a name into
    its type, and parents of names.  The accepted names are exactly those of a
    grammar stated without regular expressions. *)

From S2P Require Import Prelude.
From Stdlib Require Import Ascii.

(** ** [std::regex_match] *)

Module Regex.

(** A bracket expression: ranges, possibly negated. *)
Record class := MkClass { negated : bool; ranges : list (Z * Z) }.
Definition in_class (c : class) (x : Z) : bool :=
  xorb (negated c) (existsb (fun r => (r.1 <=? x) && (x <=? r.2)) (ranges c)).

(** The anchors of the patterns stand at their ends, where [regex_match], which
    matches the whole string, makes them void. *)
Inductive re :=
| Never
| Empty
| Class (c : class)
| Cat (r1 r2 : re)
| Alt (r1 r2 : re)
| Star (r : re).

Fixpoint nullable (r : re) : bool :=
  match r with
  | Never | Class _ => false
  | Empty | Star _ => true
  | Cat r1 r2 => nullable r1 && nullable r2
  | Alt r1 r2 => nullable r1 || nullable r2
  end.

Fixpoint der (x : Z) (r : re) : re :=
  match r with
  | Never | Empty => Never
  | Class c => if in_class c x then Empty else Never
  | Cat r1 r2 =>
    if nullable r1 then Alt (Cat (der x r1) r2) (der x r2) else Cat (der x r1) r2
  | Alt r1 r2 => Alt (der x r1) (der x r2)
  | Star r1 => Cat (der x r1) (Star r1)
  end.

Fixpoint regex_match (s : bytes) (r : re) : bool :=
  match s with [] => nullable r | x :: s' => regex_match s' (der x r) end.

(** [c{n,}], [c+] and [c*] are the repetitions the source uses. *)
Fixpoint at_least (n : nat) (r : re) : re :=
  match n with O => Star r | S n' => Cat r (at_least n' r) end.
Definition plus (r : re) : re := at_least 1 r.
Definition one (x : Z) : re := Class (MkClass false [(x, x)]).
Fixpoint lit (s : bytes) : re := match s with [] => Empty | x :: s' => Cat (one x) (lit s') end.

(** The language of an expression. *)
Inductive lang : re -> bytes -> Prop :=
| lang_empty : lang Empty []
| lang_class c x : in_class c x = true -> lang (Class c) [x]
| lang_cat r1 r2 s1 s2 : lang r1 s1 -> lang r2 s2 -> lang (Cat r1 r2) (s1 ++ s2)
| lang_alt_l r1 r2 s : lang r1 s -> lang (Alt r1 r2) s
| lang_alt_r r1 r2 s : lang r2 s -> lang (Alt r1 r2) s
| lang_star_nil r : lang (Star r) []
| lang_star_cons r s1 s2 : lang r s1 -> lang (Star r) s2 -> lang (Star r) (s1 ++ s2).
#[local] Hint Constructors lang : mynta.

Lemma nullable_spec r : nullable r = true <-> lang r [].
Proof.
  split.
  - induction r; cbn; intros H; try done; eauto with mynta.
    + apply andb_true_iff in H as [H1 H2]. apply (lang_cat _ _ [] []); auto.
    + apply orb_true_iff in H as [H|H]; eauto with mynta.
  - remember [] as s eqn:E. intros H. induction H; cbn; try done.
    + apply app_nil in E as [-> ->]. by rewrite IHlang1, IHlang2.
    + by rewrite IHlang.
    + rewrite IHlang by done. apply orb_true_r.
Qed.

Lemma der_sound x r : forall s, lang (der x r) s -> lang r (x :: s).
Proof.
  induction r; cbn; intros s H; try by inversion H.
  - destruct (in_class c x) eqn:E; inversion H; subst. by constructor.
  - assert (forall s, lang (Cat (der x r1) r2) s -> lang (Cat r1 r2) (x :: s)) as Hcat.
    { intros t Ht. inversion Ht; subst. apply (lang_cat _ _ (x :: _)); auto. }
    destruct (nullable r1) eqn:E; [|by apply Hcat]. inversion H; subst; [by apply Hcat|].
    apply (lang_cat _ _ []); [by apply nullable_spec|auto].
  - inversion H; subst; auto with mynta.
  - inversion H; subst. apply (lang_star_cons _ (x :: _)); auto.
Qed.

Lemma der_complete x r s : lang r (x :: s) -> lang (der x r) s.
Proof.
  remember (x :: s) as t eqn:E. intros H. revert s E. induction H; intros s' E; cbn; try done.
  - injection E as -> <-. rewrite H. constructor.
  - destruct s1 as [|y s1].
    + cbn in E. apply nullable_spec in H. rewrite H. auto with mynta.
    + injection E as -> <-. specialize (IHlang1 s1 eq_refl). destruct (nullable r1); auto with mynta.
  - auto with mynta.
  - auto with mynta.
  - destruct s1 as [|y s1]; [by apply IHlang2|]. injection E as -> <-. auto with mynta.
Qed.

(** The matcher decides the language. *)
Lemma regex_match_spec r s : regex_match s r = true <-> lang r s.
Proof.
  revert r. induction s as [|x s IH]; intros r; cbn [regex_match]; [apply nullable_spec|].
  rewrite IH. split; [apply der_sound|apply der_complete].
Qed.

Lemma lang_Cat r1 r2 s : lang (Cat r1 r2) s <-> exists s1 s2, s = s1 ++ s2 /\ lang r1 s1 /\ lang r2 s2.
Proof. split; [intros H; inversion H; subst; eauto|intros (? & ? & -> & ? & ?); auto with mynta]. Qed.

Lemma lang_Alt r1 r2 s : lang (Alt r1 r2) s <-> lang r1 s \/ lang r2 s.
Proof. split; [intros H; inversion H; auto|intros [?|?]; auto with mynta]. Qed.

Lemma lang_Class c s : lang (Class c) s <-> exists x, s = [x] /\ in_class c x = true.
Proof. split; [intros H; inversion H; subst; eauto|intros (? & -> & ?); auto with mynta]. Qed.

Lemma lang_at_least n c s :
  lang (at_least n (Class c)) s <-> (n <= length s)%nat /\ forallb (in_class c) s = true.
Proof.
  revert s. induction n as [|n IH]; intros s; cbn [at_least].
  - split.
    + remember (Star (Class c)) as r eqn:E. intros H. induction H; try done. injection E as ->.
      apply lang_Class in H as (x & -> & Hx). cbn. rewrite Hx. destruct IHlang2 as [_ ->]; [done|]. split; [lia|done].
    + intros [_ H]. induction s as [|x s IHs]; [constructor|]. cbn in H. apply andb_true_iff in H as [Hx H].
      apply (lang_star_cons _ [x]); auto with mynta.
  - rewrite lang_Cat. split.
    + intros (s1 & s2 & -> & H1 & H2). apply lang_Class in H1 as (x & -> & Hx). apply IH in H2 as [Hl H2].
      cbn. rewrite Hx, H2. split; [lia|done].
    + destruct s as [|x s]; cbn; intros [Hl H]; [lia|]. apply andb_true_iff in H as [Hx H].
      exists [x], s. split; [done|]. split; [by constructor|]. apply IH. split; [lia|done].
Qed.

Lemma lang_plus c s : lang (plus (Class c)) s <-> s <> [] /\ forallb (in_class c) s = true.
Proof. unfold plus. rewrite lang_at_least. destruct s; cbn; [|split; (split; [|tauto]; [done || lia])]; split; intros [??]; [lia|done]. Qed.

Lemma lang_one x s : lang (one x) s <-> s = [x].
Proof.
  unfold one. rewrite lang_Class. cbn. split.
  - intros (y & -> & H). f_equal. lia.
  - intros ->. exists x. split; [done|]. lia.
Qed.

Lemma lang_lit t s : lang (lit t) s <-> s = t.
Proof.
  revert s. induction t as [|x t IH]; intros s; cbn [lit].
  - split; [by inversion 1|intros ->; constructor].
  - rewrite lang_Cat. split.
    + intros (s1 & s2 & -> & ->%lang_one & ->%IH). done.
    + intros ->. exists [x], t. split; [done|]. split; [by apply lang_one|by apply IH].
Qed.

End Regex.

Import Regex.

(** ** The patterns *)

Definition cls (l : list (ascii * ascii)) : class := MkClass false ((fun p => (ch p.1, ch p.2)) <$> l).
Definition not_cls (l : list ascii) : class := MkClass true ((fun a => (ch a, ch a)) <$> l).

(** [[A-Z0-9._]], [[._]], and [.], which matches anything but line terminators. *)
Definition name_char : class := cls [("A", "Z"); ("0", "9"); (".", "."); ("_", "_")]%char.
Definition punctuation : class := cls [(".", "."); ("_", "_")]%char.
Definition any : class := MkClass true [(10, 10); (13, 13)].

Definition ROOT_NAME_CHARACTERS : re := at_least 3 (Class name_char).
Definition SUB_NAME_CHARACTERS : re := plus (Class name_char).
Definition UNIQUE_TAG_CHAR : class :=
  cls [("-", "-"); ("A", "Z"); ("a", "z"); ("0", "9"); ("@", "@"); ("$", "$"); ("%", "%"); ("&", "&"); ("*", "*");
       ("(", "("); (")", ")"); ("[", "["); ("]", "]"); ("{", "{"); ("}", "}"); ("_", "_"); (".", "."); ("?", "?");
       (":", ":")]%char.
Definition UNIQUE_TAG_CHARACTERS : re := plus (Class UNIQUE_TAG_CHAR).
Definition MSG_CHANNEL_TAG_CHAR : class := cls [("A", "Z"); ("a", "z"); ("0", "9"); ("_", "_")]%char.
Definition MSG_CHANNEL_TAG_CHARACTERS : re := plus (Class MSG_CHANNEL_TAG_CHAR).
Definition VOTE_TAG_CHARACTERS : re := plus (Class name_char).

Definition QUALIFIER_NAME_CHARACTERS : re := Cat (one (ch "#")) (at_least 3 (Class name_char)).
Definition SUB_QUALIFIER_NAME_CHARACTERS : re := Cat (one (ch "#")) (plus (Class name_char)).
Definition RESTRICTED_NAME_CHARACTERS : re := Cat (one (ch "$")) (at_least 3 (Class name_char)).

Definition DOUBLE_PUNCTUATION : re := Cat (Star (Class any)) (Cat (at_least 2 (Class punctuation)) (Star (Class any))).
Definition LEADING_PUNCTUATION : re := Cat (Class punctuation) (Star (Class any)).
Definition TRAILING_PUNCTUATION : re := Cat (Star (Class any)) (Class punctuation).
Definition QUALIFIER_LEADING_PUNCTUATION : re :=
  Cat (Class (cls [("#", "#"); ("$", "$")]%char)) (Cat (Class punctuation) (Star (Class any))).

Definition before_tag : class := not_cls ["^"; "~"; "#"; "!"]%char.
Definition after_tag : class := not_cls ["~"; "#"; "!"; "/"]%char.
Definition indicator (d : ascii) : re := Cat (plus (Class before_tag)) (Cat (one (ch d)) (plus (Class after_tag))).
Definition UNIQUE_INDICATOR : re := indicator "#".
Definition MSG_CHANNEL_INDICATOR : re := indicator "~".
Definition OWNER_INDICATOR : re := Cat (plus (Class before_tag)) (one (ch "!")).
Definition VOTE_INDICATOR : re := indicator "^".
Definition QUALIFIER_INDICATOR : re := Cat (one (ch "#")) (at_least 3 (Class name_char)).
Definition SUB_QUALIFIER_INDICATOR : re :=
  Cat (one (ch "#")) (Cat (plus (Class name_char)) (Cat (one (ch "/")) (Cat (one (ch "#")) (plus (Class name_char))))).
Definition RESTRICTED_INDICATOR : re := Cat (one (ch "$")) (at_least 3 (Class name_char)).

Definition RAVEN_NAMES : re :=
  foldr Alt (lit (str "#RAVENCOIN"))
    (lit ∘ str <$> ["RVN"; "RAVEN"; "RAVENCOIN"; "#RVN"; "#RAVEN"]%string).

(** ** Names *)

(** assets/assettypes.h *)
Inductive AssetType :=
| ROOT | SUB | UNIQUE | MSGCHANNEL | QUALIFIER | SUB_QUALIFIER | RESTRICTED | VOTE | REISSUE | OWNER
| NULL_ADD_QUALIFIER | INVALID.
#[export] Instance AssetType_eq_dec : EqDecision AssetType.
Proof. solve_decision. Defined.
Definition type_is (t u : AssetType) : bool := bool_decide (t = u).

Abbreviation MAX_NAME_LENGTH := 31%nat (only parsing).
Abbreviation MAX_CHANNEL_NAME_LENGTH := 12%nat (only parsing).
Abbreviation MIN_ASSET_LENGTH := 3%nat (only parsing).

(** [boost::split] on one delimiter: always at least one part. *)
Fixpoint split (d : Z) (s : bytes) : list bytes :=
  match s with
  | [] => [[]]
  | c :: s' =>
    if c =? d then [] :: split d s'
    else match split d s' with p :: ps => (c :: p) :: ps | [] => [[c]] end
  end.
Definition front (parts : list bytes) : bytes := hd [] parts.
Definition back (parts : list bytes) : bytes := List.last parts [].

Definition IsRootNameValid (name : bytes) : bool :=
  regex_match name ROOT_NAME_CHARACTERS
  && negb (regex_match name DOUBLE_PUNCTUATION)
  && negb (regex_match name LEADING_PUNCTUATION)
  && negb (regex_match name TRAILING_PUNCTUATION)
  && negb (regex_match name RAVEN_NAMES).

Definition IsQualifierNameValid (name : bytes) : bool :=
  regex_match name QUALIFIER_NAME_CHARACTERS
  && negb (regex_match name DOUBLE_PUNCTUATION)
  && negb (regex_match name QUALIFIER_LEADING_PUNCTUATION)
  && negb (regex_match name TRAILING_PUNCTUATION)
  && negb (regex_match name RAVEN_NAMES).

Definition IsRestrictedNameValid (name : bytes) : bool :=
  regex_match name RESTRICTED_NAME_CHARACTERS
  && negb (regex_match name DOUBLE_PUNCTUATION)
  && negb (regex_match name LEADING_PUNCTUATION)
  && negb (regex_match name TRAILING_PUNCTUATION)
  && negb (regex_match name RAVEN_NAMES).

Definition IsSubQualifierNameValid (name : bytes) : bool :=
  regex_match name SUB_QUALIFIER_NAME_CHARACTERS
  && negb (regex_match name DOUBLE_PUNCTUATION)
  && negb (regex_match name LEADING_PUNCTUATION)
  && negb (regex_match name TRAILING_PUNCTUATION).

Definition IsSubNameValid (name : bytes) : bool :=
  regex_match name SUB_NAME_CHARACTERS
  && negb (regex_match name DOUBLE_PUNCTUATION)
  && negb (regex_match name LEADING_PUNCTUATION)
  && negb (regex_match name TRAILING_PUNCTUATION).

Definition IsUniqueTagValid (tag : bytes) : bool := regex_match tag UNIQUE_TAG_CHARACTERS.
Definition IsVoteTagValid (tag : bytes) : bool := regex_match tag VOTE_TAG_CHARACTERS.
Definition IsMsgChannelTagValid (tag : bytes) : bool :=
  regex_match tag MSG_CHANNEL_TAG_CHARACTERS
  && negb (regex_match tag DOUBLE_PUNCTUATION)
  && negb (regex_match tag LEADING_PUNCTUATION)
  && negb (regex_match tag TRAILING_PUNCTUATION).

Definition IsNameValidBeforeTag (name : bytes) : bool :=
  let parts := split (ch "/") name in
  IsRootNameValid (front parts) && forallb IsSubNameValid (drop 1 parts).

Definition IsQualifierNameValidBeforeTag (name : bytes) : bool :=
  let parts := split (ch "/") name in
  IsQualifierNameValid (front parts) && negb (2 <? length parts)%nat
  && forallb IsSubQualifierNameValid (drop 1 parts).

Definition IsAssetNameASubasset (name : bytes) : bool :=
  let parts := split (ch "/") name in IsRootNameValid (front parts) && (1 <? length parts)%nat.

Definition IsAssetNameASubQualifier (name : bytes) : bool :=
  let parts := split (ch "/") name in IsQualifierNameValid (front parts) && (1 <? length parts)%nat.

(** The reasons the error string gives. *)
Inductive name_error :=
| NameTooLong (max : nat)
| ChannelTooLong
| NameTooShort
| InvalidCharacters (type : AssetType).

Definition too_long (name : bytes) (max : nat) : result name_error unit :=
  require (negb (max <? length name)%nat) (NameTooLong max).

Definition IsTypeCheckNameValid (type : AssetType) (name : bytes) : result name_error unit :=
  match type with
  | UNIQUE =>
    too_long name MAX_NAME_LENGTH;;
    let parts := split (ch "#") name in
    require (IsNameValidBeforeTag (front parts) && IsUniqueTagValid (back parts)) (InvalidCharacters UNIQUE)
  | MSGCHANNEL =>
    too_long name MAX_NAME_LENGTH;;
    let parts := split (ch "~") name in
    require (negb (MAX_CHANNEL_NAME_LENGTH <? length (back parts))%nat) ChannelTooLong;;
    require (IsNameValidBeforeTag (front parts) && IsMsgChannelTagValid (back parts)) (InvalidCharacters MSGCHANNEL)
  | OWNER =>
    too_long name MAX_NAME_LENGTH;;
    require (IsNameValidBeforeTag (take (length name - 1) name)) (InvalidCharacters OWNER)
  | VOTE =>
    too_long name MAX_NAME_LENGTH;;
    let parts := split (ch "^") name in
    require (IsNameValidBeforeTag (front parts) && IsVoteTagValid (back parts)) (InvalidCharacters VOTE)
  | QUALIFIER | SUB_QUALIFIER =>
    too_long name MAX_NAME_LENGTH;;
    require (IsQualifierNameValidBeforeTag name) (InvalidCharacters QUALIFIER)
  | RESTRICTED =>
    too_long name MAX_NAME_LENGTH;;
    require (IsRestrictedNameValid name) (InvalidCharacters RESTRICTED)
  | _ =>
    too_long name (MAX_NAME_LENGTH - 1);;
    require (IsAssetNameASubasset name || negb (length name <? MIN_ASSET_LENGTH)%nat) NameTooShort;;
    require (IsNameValidBeforeTag name)
      (if IsAssetNameASubasset name && (length name <? 3)%nat then NameTooShort else InvalidCharacters ROOT)
  end.

(** What [IsAssetNameValid] returns and leaves in its references: the type it
    was given when the name is longer than 40, no error when none is set. *)
Record name_check := MkNameCheck { nc_valid : bool; nc_type : AssetType; nc_error : option name_error }.
Definition type_checked (type : AssetType) (name : bytes) (assetType : AssetType) : name_check :=
  match IsTypeCheckNameValid type name with
  | Ok _ => MkNameCheck true assetType None
  | Err e => MkNameCheck false INVALID (Some e)
  end.

Definition CheckAssetName (name : bytes) (assetType : AssetType) : name_check :=
  if (40 <? length name)%nat then MkNameCheck false assetType None
  else if regex_match name UNIQUE_INDICATOR then type_checked UNIQUE name UNIQUE
  else if regex_match name MSG_CHANNEL_INDICATOR then type_checked MSGCHANNEL name MSGCHANNEL
  else if regex_match name OWNER_INDICATOR then type_checked OWNER name OWNER
  else if regex_match name VOTE_INDICATOR then type_checked VOTE name VOTE
  else if regex_match name QUALIFIER_INDICATOR then
    type_checked QUALIFIER name (if IsAssetNameASubQualifier name then SUB_QUALIFIER else QUALIFIER)
  else if regex_match name SUB_QUALIFIER_INDICATOR then
    type_checked SUB_QUALIFIER name (if IsAssetNameASubQualifier name then SUB_QUALIFIER else INVALID)
  else if regex_match name RESTRICTED_INDICATOR then type_checked RESTRICTED name RESTRICTED
  else
    let type := if IsAssetNameASubasset name then SUB else ROOT in
    type_checked type name type.

(** The overloads: [IsAssetNameValid(name, type)] leaves the type; [IsAssetNameValid(name)] drops it. *)
Definition name_type (name : bytes) : option AssetType :=
  let c := CheckAssetName name INVALID in if nc_valid c then Some (nc_type c) else None.
Definition IsAssetNameValid (name : bytes) : bool := nc_valid (CheckAssetName name INVALID).

Definition IsAssetNameARoot (name : bytes) : bool := IsAssetNameValid name && bool_decide (name_type name = Some ROOT).
Definition IsAssetNameAnOwner (name : bytes) : bool := IsAssetNameValid name && regex_match name OWNER_INDICATOR.
Definition IsAssetNameAnRestricted (name : bytes) : bool :=
  IsAssetNameValid name && regex_match name RESTRICTED_INDICATOR.
Definition IsAssetNameAQualifier (name : bytes) (fOnlyQualifiers : bool) : bool :=
  if fOnlyQualifiers then IsAssetNameValid name && regex_match name QUALIFIER_INDICATOR
  else IsAssetNameValid name
       && (regex_match name QUALIFIER_INDICATOR || regex_match name SUB_QUALIFIER_INDICATOR).
Definition IsAssetNameAnMsgChannel (name : bytes) : bool :=
  IsAssetNameValid name && regex_match name MSG_CHANNEL_INDICATOR.

Definition OWNER_TAG : bytes := str "!".

Definition RestrictedNameToOwnerName (name : bytes) : bytes :=
  if negb (IsAssetNameAnRestricted name) then [] else drop 1 name ++ OWNER_TAG.

(** [name.substr(0, name.find_last_of(d))], or the name when [d] does not occur. *)
Fixpoint index_last (d : Z) (s : bytes) : option nat :=
  match s with
  | [] => None
  | c :: s' => match index_last d s' with Some i => Some (S i) | None => if c =? d then Some O else None end
  end.
Definition up_to_last (d : Z) (name : bytes) : bytes :=
  match index_last d name with Some i => take i name | None => name end.

Definition GetParentName (name : bytes) : bytes :=
  match name_type name with
  | None => []
  | Some SUB => up_to_last (ch "/") name
  | Some UNIQUE => up_to_last (ch "#") name
  | Some MSGCHANNEL => up_to_last (ch "~") name
  | Some VOTE => up_to_last (ch "^") name
  | Some SUB_QUALIFIER => up_to_last (ch "/") name
  | Some _ => name
  end.

Definition GetUniqueAssetName (parent tag : bytes) : bytes :=
  let unique := parent ++ str "#" ++ tag in
  if bool_decide (name_type unique = Some UNIQUE) then unique else [].

(** ** The grammar of names *)

Definition punct (x : Z) : bool := in_class punctuation x.
Fixpoint no_double (s : bytes) : bool :=
  match s with
  | x :: (y :: _) as s' => negb (punct x && punct y) && no_double s'
  | _ => true
  end.
Definition starts_punct (s : bytes) : bool := match s with x :: _ => punct x | [] => false end.
Definition ends_punct (s : bytes) : bool := match last s with Some x => punct x | None => false end.

(** Words: nonempty, of the characters of [c], no two punctuation marks in a
    row and none at either end. *)
Definition word (c : class) (s : bytes) : bool :=
  negb (bool_decide (s = [])) && forallb (in_class c) s && no_double s && negb (starts_punct s) && negb (ends_punct s).
Definition reserved (s : bytes) : bool := existsb (bytes_eq s ∘ str) ["RVN"; "RAVEN"; "RAVENCOIN"]%string.
Definition root_word (s : bytes) : bool := (3 <=? length s)%nat && word name_char s && negb (reserved s).

Definition join (d : Z) (parts : list bytes) : bytes :=
  match parts with [] => [] | p :: ps => p ++ mjoin (cons d <$> ps) end.

(** A root and any number of words below it, separated by slashes. *)
Definition path (s : bytes) : Prop :=
  exists r ws, s = join (ch "/") (r :: ws) /\ root_word r = true /\ forallb (word name_char) ws = true.

Inductive asset_name : AssetType -> bytes -> Prop :=
| name_ROOT r : root_word r = true -> (length r <= 30)%nat -> asset_name ROOT r
| name_SUB r w ws s : s = join (ch "/") (r :: w :: ws) -> root_word r = true ->
    forallb (word name_char) (w :: ws) = true -> (length s <= 30)%nat -> asset_name SUB s
| name_UNIQUE p tag : path p -> tag <> [] -> forallb (in_class UNIQUE_TAG_CHAR) tag = true ->
    (length (p ++ ch "#" :: tag) <= 31)%nat -> asset_name UNIQUE (p ++ ch "#" :: tag)
| name_MSGCHANNEL p tag : path p -> word MSG_CHANNEL_TAG_CHAR tag = true -> (length tag <= 12)%nat ->
    (length (p ++ ch "~" :: tag) <= 31)%nat -> asset_name MSGCHANNEL (p ++ ch "~" :: tag)
| name_OWNER p : path p -> (length p <= 30)%nat -> asset_name OWNER (p ++ OWNER_TAG)
| name_VOTE p mid tag : path p -> (mid = [] \/ exists m, mid = m ++ [ch "^"]) -> forallb (in_class after_tag) mid = true ->
    tag <> [] -> forallb (in_class name_char) tag = true ->
    (length (p ++ ch "^" :: mid ++ tag) <= 31)%nat -> asset_name VOTE (p ++ ch "^" :: mid ++ tag)
| name_QUALIFIER r : root_word r = true -> (length r <= 30)%nat -> asset_name QUALIFIER (ch "#" :: r)
| name_SUB_QUALIFIER r s : root_word r = true -> s <> [] -> forallb (in_class name_char) s = true ->
    no_double s = true -> ends_punct s = false -> (length r + length s <= 28)%nat ->
    asset_name SUB_QUALIFIER (ch "#" :: r ++ ch "/" :: ch "#" :: s)
| name_RESTRICTED s : (3 <= length s <= 30)%nat -> forallb (in_class name_char) s = true ->
    no_double s = true -> ends_punct s = false -> asset_name RESTRICTED (ch "$" :: s).

#[local] Arguments punct : simpl never.
#[local] Arguments in_class : simpl never.

(** *** Characters *)

(** A class is contained in another when it is so on the bytes it lists. *)
Lemma class_incl (c c' : class) s : negated c = false ->
  forallb (fun r => forallb (in_class c') (seqZ r.1 (r.2 - r.1 + 1))) (ranges c) = true ->
  forallb (in_class c) s = true -> forallb (in_class c') s = true.
Proof.
  intros Hn Hr Hs. rewrite forallb_forall in *. intros x Hx. specialize (Hs x Hx).
  unfold in_class in Hs at 1. rewrite Hn in Hs. rewrite xorb_false_l in Hs.
  apply existsb_exists in Hs as (r & Hin & Hxr). specialize (Hr r Hin). rewrite forallb_forall in Hr.
  apply Hr, list_elem_of_In, elem_of_seqZ. lia.
Qed.

Lemma class_out c s d : in_class c d = false -> forallb (in_class c) s = true -> d ∉ s.
Proof. rewrite forallb_forall. intros Hd Hs Hin%list_elem_of_In. apply Hs in Hin. congruence. Qed.

Lemma name_plain s : forallb (in_class name_char) s = true -> forallb (in_class any) s = true.
Proof. by apply class_incl. Qed.

(** *** Punctuation *)

Lemma no_double_spec s : no_double s = false <->
  exists a x y b, s = a ++ x :: y :: b /\ punct x = true /\ punct y = true.
Proof.
  split.
  - induction s as [|x [|y s] IH]; cbn [no_double]; try done. intros [H|H]%andb_false_iff.
    + apply negb_false_iff, andb_true_iff in H as [??]. by exists [], x, y, s.
    + destruct (IH H) as (a & u & v & b & -> & ?). by exists (x :: a), u, v, b.
  - intros (a & x & y & b & -> & Hx & Hy). induction a as [|z a IH].
    + cbn. by rewrite Hx, Hy.
    + cbn [app no_double]. destruct (a ++ x :: y :: b) eqn:E; [by destruct a|]. rewrite IH. apply andb_false_r.
Qed.

Lemma double_match s : forallb (in_class any) s = true -> regex_match s DOUBLE_PUNCTUATION = negb (no_double s).
Proof.
  intros Hs. apply eq_true_iff_eq. rewrite negb_true_iff, no_double_spec, regex_match_spec.
  unfold DOUBLE_PUNCTUATION. change (Star (Class any)) with (at_least 0 (Class any)).
  rewrite lang_Cat. setoid_rewrite lang_Cat. setoid_rewrite lang_at_least. split.
  - intros (s1 & s2 & -> & _ & p & s3 & -> & [Hl Hp] & _).
    destruct p as [|x [|y p]]; cbn in Hl; [lia|lia|]. cbn in Hp. bool_to_prop.
    exists s1, x, y, (p ++ s3). done.
  - intros (a & x & y & b & -> & Hx & Hy). rewrite forallb_app in Hs. cbn in Hs. bool_to_prop.
    exists a, (x :: y :: b). split; [done|]. split; [split; [cbn; lia|done]|].
    exists [x; y], b. split; [done|]. split; [split; [cbn; lia|]|split; [lia|done]].
    unfold punct in *. cbn. by rewrite Hx, Hy.
Qed.

Lemma leading_match s : forallb (in_class any) s = true -> regex_match s LEADING_PUNCTUATION = starts_punct s.
Proof.
  intros Hs. apply eq_true_iff_eq. rewrite regex_match_spec. unfold LEADING_PUNCTUATION.
  change (Star (Class any)) with (at_least 0 (Class any)). rewrite lang_Cat.
  setoid_rewrite lang_at_least. setoid_rewrite lang_Class. split.
  - intros (? & s2 & -> & (x & -> & Hx) & _). exact Hx.
  - destruct s as [|x s]; [done|]. cbn in Hs. bool_to_prop. intros Hx. exists [x], s. split; [done|].
    split; [by exists x|split; [lia|done]].
Qed.

Lemma trailing_match s : forallb (in_class any) s = true -> regex_match s TRAILING_PUNCTUATION = ends_punct s.
Proof.
  intros Hs. apply eq_true_iff_eq. rewrite regex_match_spec. unfold TRAILING_PUNCTUATION, ends_punct.
  change (Star (Class any)) with (at_least 0 (Class any)). rewrite lang_Cat.
  setoid_rewrite lang_at_least. setoid_rewrite lang_Class. split.
  - intros (s1 & ? & -> & _ & (x & -> & Hx)). by rewrite last_snoc.
  - destruct (last s) as [x|] eqn:E; [|done]. apply last_Some in E as [s' ->].
    rewrite forallb_app in Hs. bool_to_prop. intros Hx. exists s', [x]. split; [done|].
    split; [split; [lia|done]|by exists x].
Qed.

Lemma name_checks c s : negated c = false ->
  forallb (fun r => forallb (in_class any) (seqZ r.1 (r.2 - r.1 + 1))) (ranges c) = true ->
  regex_match s (plus (Class c)) && negb (regex_match s DOUBLE_PUNCTUATION)
  && negb (regex_match s LEADING_PUNCTUATION) && negb (regex_match s TRAILING_PUNCTUATION) = word c s.
Proof.
  intros Hn Hr. unfold word.
  assert (regex_match s (plus (Class c)) = negb (bool_decide (s = [])) && forallb (in_class c) s) as ->.
  { apply eq_true_iff_eq. rewrite regex_match_spec, lang_plus, andb_true_iff, negb_true_iff, bool_decide_eq_false. done. }
  destruct (forallb (in_class c) s) eqn:E; [|by rewrite andb_false_r].
  pose proof (class_incl c any s Hn Hr E) as Ha.
  by rewrite (double_match s Ha), (leading_match s Ha), (trailing_match s Ha), negb_involutive.
Qed.

Lemma IsSubNameValid_word s : IsSubNameValid s = word name_char s.
Proof. by apply name_checks. Qed.

Lemma IsMsgChannelTagValid_word s : IsMsgChannelTagValid s = word MSG_CHANNEL_TAG_CHAR s.
Proof. by apply name_checks. Qed.

Lemma raven_match s :
  regex_match s RAVEN_NAMES = existsb (bytes_eq s ∘ str) ["RVN"; "RAVEN"; "RAVENCOIN"; "#RVN"; "#RAVEN"; "#RAVENCOIN"]%string.
Proof.
  apply eq_true_iff_eq. rewrite regex_match_spec, existsb_exists. unfold RAVEN_NAMES.
  cbn [foldr fmap list_fmap compose]. rewrite !lang_Alt, !lang_lit. cbn [compose In]. split.
  - intros H. repeat (destruct H as [->|H]); [eexists|eexists|eexists|eexists|eexists|subst; eexists]; (split; [|by apply bytes_eq_spec]); tauto.
  - intros (x & H & ->%bytes_eq_spec). destruct_or?; subst; try done; tauto.
Qed.

(** A name without a hash is not one of the names that have one. *)
Lemma raven_root s : forallb (in_class name_char) s = true -> regex_match s RAVEN_NAMES = reserved s.
Proof.
  intros Hs. rewrite raven_match. unfold reserved. cbn [existsb].
  assert (forall t, bytes_eq s (str (String "#" t)) = false) as H.
  { intros t. apply not_true_iff_false. intros ->%bytes_eq_spec. done. }
  unfold compose. by rewrite !H, !orb_false_r.
Qed.

Lemma regex_at_least n c s :
  regex_match s (at_least n (Class c)) = (n <=? length s)%nat && forallb (in_class c) s.
Proof. apply eq_true_iff_eq. rewrite regex_match_spec, lang_at_least, andb_true_iff, Nat.leb_le. done. Qed.

Lemma regex_plus c s :
  regex_match s (plus (Class c)) = negb (bool_decide (s = [])) && forallb (in_class c) s.
Proof.
  apply eq_true_iff_eq. rewrite regex_match_spec, lang_plus, andb_true_iff, negb_true_iff, bool_decide_eq_false. done.
Qed.

Lemma IsRootNameValid_word s : IsRootNameValid s = root_word s.
Proof.
  unfold IsRootNameValid, ROOT_NAME_CHARACTERS, root_word. rewrite regex_at_least, <- (name_checks name_char), regex_plus by done.
  destruct (forallb (in_class name_char) s) eqn:E; [|by rewrite !andb_false_r].
  rewrite (raven_root s E), !andb_true_r. destruct s; [done|]. rewrite bool_decide_eq_false_2 by done. by rewrite !andb_assoc, andb_true_r.
Qed.

(** A marked name: the mark, then characters of names. *)
Lemma marked_match (d : ascii) n s : regex_match s (Cat (one (ch d)) (at_least n (Class name_char))) = true <->
  exists t, s = ch d :: t /\ (n <= length t)%nat /\ forallb (in_class name_char) t = true.
Proof.
  rewrite regex_match_spec, lang_Cat. split.
  - intros (? & t & -> & ->%lang_one & [??]%lang_at_least). by exists t.
  - intros (t & -> & ? & ?). exists [ch d], t. split; [done|]. split; [by apply lang_one|by apply lang_at_least].
Qed.

Lemma no_double_cons x s : punct x = false -> no_double (x :: s) = no_double s.
Proof. intros Hx. destruct s as [|y s]; [done|]. cbn [no_double]. by rewrite Hx. Qed.

Lemma ends_punct_cons x s : punct x = false -> ends_punct (x :: s) = ends_punct s.
Proof. intros Hx. unfold ends_punct. destruct s as [|y s]; [done|]. by rewrite last_cons_cons. Qed.

Lemma marked_plain (d : ascii) s : in_class any (ch d) = true -> forallb (in_class name_char) s = true ->
  forallb (in_class any) (ch d :: s) = true.
Proof. intros Hd Hs. cbn [forallb]. by rewrite Hd, name_plain. Qed.

Lemma IsQualifierNameValid_spec s : IsQualifierNameValid s = true <-> exists r, s = ch "#" :: r /\ root_word r = true.
Proof.
  unfold IsQualifierNameValid, QUALIFIER_NAME_CHARACTERS. rewrite !andb_true_iff, marked_match, !negb_true_iff.
  assert (forall t, forallb (in_class name_char) t = true -> t <> [] ->
    (no_double t = true /\ starts_punct t = false /\ ends_punct t = false) /\ reserved t = false <->
    ((regex_match (ch "#" :: t) DOUBLE_PUNCTUATION = false /\
    regex_match (ch "#" :: t) QUALIFIER_LEADING_PUNCTUATION = false) /\
    regex_match (ch "#" :: t) TRAILING_PUNCTUATION = false) /\ regex_match (ch "#" :: t) RAVEN_NAMES = false) as Hiff.
  { intros t Ht Hne. pose proof (marked_plain "#" t eq_refl Ht) as Hp.
    rewrite (double_match _ Hp), (trailing_match _ Hp), no_double_cons, ends_punct_cons, negb_false_iff by done.
    assert (regex_match (ch "#" :: t) QUALIFIER_LEADING_PUNCTUATION = regex_match t LEADING_PUNCTUATION) as ->.
    { cbn [regex_match]. apply eq_true_iff_eq. rewrite !regex_match_spec. unfold QUALIFIER_LEADING_PUNCTUATION.
      change (der _ (Cat (Class ?c) ?r)) with (Cat Empty r). rewrite lang_Cat. split.
      - intros (? & ? & -> & H & ?). by inversion H; subst.
      - intros. exists [], t. repeat split; [constructor|done]. }
    rewrite (leading_match _ (name_plain _ Ht)), raven_match. unfold reserved.
    assert (existsb (bytes_eq (ch "#" :: t) ∘ str) ["RVN"; "RAVEN"; "RAVENCOIN"; "#RVN"; "#RAVEN"; "#RAVENCOIN"]%string
            = existsb (bytes_eq t ∘ str) ["RVN"; "RAVEN"; "RAVENCOIN"]%string) as -> by done. tauto. }
  unfold root_word, word. split.
  - intros ((((( t & -> & Hl & Ht) & H1) & H2) & H3) & H4). exists t. split; [done|].
    destruct (Hiff t Ht) as [_ Hb]; [by intros ->; cbn in Hl; lia|].
    destruct Hb as ((Ha & Hb & Hc) & Hd); [done|]. rewrite Ht, Ha, Hb, Hc, Hd.
    rewrite bool_decide_eq_false_2 by (intros ->; cbn in Hl; lia). rewrite !andb_true_r. by apply Nat.leb_le.
  - intros (t & -> & H). bool_to_prop. apply Nat.leb_le in H. destruct (Hiff t H5) as [Hb _]; [by intros ->; cbn in H; lia|].
    destruct Hb as [[[??]?]?]; [done|]. repeat split; try done. by exists t.
Qed.

(** The checks of a marked name that only look at its leading character for
    punctuation, which is the mark. *)
Lemma marked_checks (d : ascii) n s : punct (ch d) = false -> in_class any (ch d) = true ->
  regex_match s (Cat (one (ch d)) (at_least n (Class name_char)))
  && negb (regex_match s DOUBLE_PUNCTUATION) && negb (regex_match s LEADING_PUNCTUATION)
  && negb (regex_match s TRAILING_PUNCTUATION) = true <->
  exists t, s = ch d :: t /\ (n <= length t)%nat /\ forallb (in_class name_char) t = true
    /\ no_double t = true /\ ends_punct t = false.
Proof.
  intros Hd Ha. rewrite !andb_true_iff, marked_match, !negb_true_iff. split.
  - intros ((((t & -> & Hl & Ht) & H1) & H2) & H3). exists t.
    pose proof (marked_plain d t Ha Ht) as Hp.
    rewrite (double_match _ Hp), negb_false_iff, no_double_cons in H1 by done.
    rewrite (trailing_match _ Hp), ends_punct_cons in H3 by done. done.
  - intros (t & -> & Hl & Ht & H1 & H2). pose proof (marked_plain d t Ha Ht) as Hp.
    rewrite (double_match _ Hp), (trailing_match _ Hp), (leading_match _ Hp), negb_false_iff, no_double_cons,
      ends_punct_cons by done.
    repeat split; try done. by exists t.
Qed.

Lemma IsSubQualifierNameValid_spec s : IsSubQualifierNameValid s = true <->
  exists t, s = ch "#" :: t /\ (1 <= length t)%nat /\ forallb (in_class name_char) t = true
    /\ no_double t = true /\ ends_punct t = false.
Proof. by apply marked_checks. Qed.

Lemma IsRestrictedNameValid_spec s : IsRestrictedNameValid s = true <->
  exists t, s = ch "$" :: t /\ (3 <= length t)%nat /\ forallb (in_class name_char) t = true
    /\ no_double t = true /\ ends_punct t = false.
Proof.
  unfold IsRestrictedNameValid. rewrite andb_true_iff. unfold RESTRICTED_NAME_CHARACTERS.
  rewrite marked_checks by done. split; [by intros [??]|]. intros (t & -> & H). split; [by exists t|].
  rewrite raven_match. done.
Qed.

(** *** Splitting at a delimiter *)

Lemma split_nonempty d s : split d s <> [].
Proof. destruct s as [|c s]; cbn; [done|]. case_match; [done|]. by case_match. Qed.

Lemma split_none d s : d ∉ s -> split d s = [s].
Proof.
  induction s as [|c s IH]; [done|]. intros Hd. cbn [split].
  rewrite IH by (intros ?; apply Hd; by right). destruct (Z.eqb_spec c d) as [->|]; [|done]. destruct Hd. by left.
Qed.

Lemma split_app d p s : d ∉ p -> split d (p ++ d :: s) = p :: split d s.
Proof.
  induction p as [|c p IH]; intros Hd; cbn [app split]; [by rewrite Z.eqb_refl|].
  rewrite IH by (intros ?; apply Hd; by right).
  destruct (Z.eqb_spec c d) as [->|]; [|done]. destruct Hd. by left.
Qed.

Lemma join_cons d p q ps : join d (p :: q :: ps) = p ++ d :: join d (q :: ps).
Proof. done. Qed.

Lemma join_one d p : join d [p] = p.
Proof. apply app_nil_r. Qed.

Lemma split_join d p ps : Forall (fun q => d ∉ q) (p :: ps) -> split d (join d (p :: ps)) = p :: ps.
Proof.
  revert p. induction ps as [|q ps IH]; intros p H; inv H.
  - cbn. rewrite app_nil_r. by apply split_none.
  - rewrite join_cons, split_app by done. by rewrite IH.
Qed.

Lemma join_split d s : join d (split d s) = s.
Proof.
  induction s as [|c s IH]; [done|]. cbn [split]. pose proof (split_nonempty d s) as Hn.
  destruct (Z.eqb_spec c d) as [->|].
  - destruct (split d s) as [|p ps] eqn:E; [done|]. rewrite join_cons. by rewrite IH.
  - destruct (split d s) as [|p ps] eqn:E; [done|]. change (join d ((c :: p) :: ps)) with (c :: join d (p :: ps)).
    by rewrite IH.
Qed.

Lemma split_Forall d s : Forall (fun q => d ∉ q) (split d s).
Proof.
  induction s as [|c s IH]; cbn [split].
  - constructor; [apply not_elem_of_nil|constructor].
  - destruct (Z.eqb_spec c d) as [->|Hne].
    + constructor; [apply not_elem_of_nil|done].
    + destruct (split d s) as [|p ps]; inv IH; constructor; try done.
      all: rewrite elem_of_cons; intros [?|?]; try by congruence. by apply not_elem_of_nil in H.
Qed.

Lemma word_chars c s : word c s = true -> s <> [] /\ forallb (in_class c) s = true.
Proof. unfold word. intros H. bool_to_prop. by apply bool_decide_eq_false in H. Qed.

Lemma root_word_chars s : root_word s = true -> s <> [] /\ forallb (in_class name_char) s = true.
Proof. unfold root_word. intros H. bool_to_prop. by apply word_chars. Qed.

Lemma words_no_slash ws : forallb (word name_char) ws = true -> Forall (fun q => ch "/" ∉ q) ws.
Proof.
  rewrite forallb_forall, Forall_forall. intros H x Hx%list_elem_of_In.
  by eapply class_out; [|by apply word_chars, H].
Qed.

Lemma split_path r ws : root_word r = true -> forallb (word name_char) ws = true ->
  split (ch "/") (join (ch "/") (r :: ws)) = r :: ws.
Proof.
  intros Hr Hws. apply split_join. constructor; [|by apply words_no_slash].
  by eapply class_out; [|by apply root_word_chars].
Qed.

Lemma IsNameValidBeforeTag_spec s : IsNameValidBeforeTag s = true <-> path s.
Proof.
  unfold IsNameValidBeforeTag. rewrite andb_true_iff, IsRootNameValid_word, (forallb_ext _ _ _ IsSubNameValid_word). split.
  - intros [H1 H2]. pose proof (join_split (ch "/") s) as E. pose proof (split_nonempty (ch "/") s).
    destruct (split (ch "/") s) as [|r ws]; [done|]. by exists r, ws.
  - intros (r & ws & -> & Hr & Hws). by rewrite split_path.
Qed.

Lemma IsAssetNameASubasset_spec s :
  IsAssetNameASubasset s = root_word (front (split (ch "/") s)) && (1 <? length (split (ch "/") s))%nat.
Proof. unfold IsAssetNameASubasset. by rewrite IsRootNameValid_word. Qed.

(** The characters of a path. *)
Definition path_char : class := cls [("A", "Z"); ("0", "9"); (".", "."); ("_", "_"); ("/", "/")]%char.
Lemma path_chars s : path s -> s <> [] /\ forallb (in_class path_char) s = true.
Proof.
  intros (r & ws & -> & Hr & Hws). apply root_word_chars in Hr as [Hne Hr].
  split; [by destruct r|]. unfold join. rewrite forallb_app.
  rewrite (class_incl name_char path_char r) by done. cbn [andb].
  induction ws as [|w ws IH]; [done|]. cbn in Hws. apply andb_true_iff in Hws as [Hw Hws].
  change (mjoin (cons (ch "/") <$> w :: ws)) with (ch "/" :: (w ++ mjoin (cons (ch "/") <$> ws))).
  cbn [forallb]. rewrite forallb_app.
  apply word_chars in Hw as [_ Hw]. rewrite (class_incl name_char path_char w), IH by done. done.
Qed.

(** *** Indicators *)

Lemma lang_Cat_one c r s : lang (Cat (one c) r) s <-> exists t, s = c :: t /\ lang r t.
Proof.
  rewrite lang_Cat. split.
  - intros (? & t & -> & ->%lang_one & H). by exists t.
  - intros (t & -> & H). exists [c], t. split; [done|]. split; [by apply lang_one|done].
Qed.

Lemma cat_one x s c r : regex_match (x :: s) (Cat (one c) r) = (x =? c) && regex_match s r.
Proof.
  apply eq_true_iff_eq. rewrite andb_true_iff, !regex_match_spec, lang_Cat_one, Z.eqb_eq.
  split; [by intros (? & [= -> ->] & ?)|intros [-> ?]; by exists s].
Qed.

Lemma indicator_spec d s : regex_match s (indicator d) = true <->
  exists a b, s = a ++ ch d :: b /\ a <> [] /\ forallb (in_class before_tag) a = true
    /\ b <> [] /\ forallb (in_class after_tag) b = true.
Proof.
  rewrite regex_match_spec. unfold indicator. rewrite lang_Cat. split.
  - intros (a & ? & -> & [??]%lang_plus & (b & -> & [??]%lang_plus)%lang_Cat_one). by exists a, b.
  - intros (a & b & -> & ? & ? & ? & ?). exists a, (ch d :: b). split; [done|]. split; [by apply lang_plus|].
    apply lang_Cat_one. exists b. split; [done|]. by apply lang_plus.
Qed.

Lemma owner_spec s : regex_match s OWNER_INDICATOR = true <->
  exists a, s = a ++ OWNER_TAG /\ a <> [] /\ forallb (in_class before_tag) a = true.
Proof.
  rewrite regex_match_spec. unfold OWNER_INDICATOR. rewrite lang_Cat. split.
  - intros (a & ? & -> & [??]%lang_plus & ->%lang_one). by exists a.
  - intros (a & -> & ? & ?). exists a, OWNER_TAG. split; [done|]. split; [by apply lang_plus|by apply lang_one].
Qed.

Lemma indicator_needs d s : ch d ∉ s -> regex_match s (indicator d) = false.
Proof.
  intros Hd. apply not_true_iff_false. intros (a & b & -> & _)%indicator_spec. apply Hd.
  rewrite elem_of_app. right. by left.
Qed.

Lemma owner_needs s : ch "!" ∉ s -> regex_match s OWNER_INDICATOR = false.
Proof.
  intros Hd. apply not_true_iff_false. intros (a & -> & _)%owner_spec. apply Hd. rewrite elem_of_app. right. by left.
Qed.

(** What begins with a hash has no part before a tag. *)
Lemma hash_no_tag s : regex_match (ch "#" :: s) OWNER_INDICATOR = false
  /\ forall d, regex_match (ch "#" :: s) (indicator d) = false.
Proof.
  split; [|intros d]; apply not_true_iff_false.
  - intros (a & E & Hne & Ha)%owner_spec. destruct a as [|x a]; [done|]. injection E as <- _. done.
  - intros (a & b & E & Hne & Ha & _)%indicator_spec. destruct a as [|x a]; [done|]. injection E as <- _. done.
Qed.

Lemma SUB_QUALIFIER_INDICATOR_spec s : regex_match s SUB_QUALIFIER_INDICATOR = true <->
  exists a b, s = ch "#" :: a ++ ch "/" :: ch "#" :: b /\ a <> [] /\ forallb (in_class name_char) a = true
    /\ b <> [] /\ forallb (in_class name_char) b = true.
Proof.
  rewrite regex_match_spec. unfold SUB_QUALIFIER_INDICATOR. rewrite lang_Cat_one. split.
  - intros (? & -> & (a & ? & -> & [??]%lang_plus & (? & -> & (b & -> & [??]%lang_plus)%lang_Cat_one)%lang_Cat_one)%lang_Cat).
    by exists a, b.
  - intros (a & b & -> & ? & ? & ? & ?). eexists. split; [done|]. apply lang_Cat. exists a, (ch "/" :: ch "#" :: b).
    split; [done|]. split; [by apply lang_plus|]. apply lang_Cat_one. eexists. split; [done|].
    apply lang_Cat_one. exists b. split; [done|]. by apply lang_plus.
Qed.

(** The type checks, for names with the indicator of the type. *)
Lemma too_long_Ok s n : too_long s n = Ok tt <-> (length s <= n)%nat.
Proof. unfold too_long. rewrite require_Ok, negb_true_iff, Nat.ltb_ge. done. Qed.

Lemma tagged_parts d a b : in_class before_tag (ch d) = false -> forallb (in_class before_tag) a = true ->
  ch d ∉ b -> split (ch d) (a ++ ch d :: b) = [a; b].
Proof. intros Hd Ha Hb. rewrite split_app by (by eapply class_out). by rewrite split_none. Qed.

Lemma path_before p : path p -> p <> [] /\ forallb (in_class before_tag) p = true.
Proof. intros [? H]%path_chars. split; [done|]. by apply (class_incl path_char). Qed.

(** The part after the last delimiter. *)
Lemma split_back d s : exists m, s = m ++ back (split d s) /\ (m = [] \/ exists m', m = m' ++ [d]).
Proof.
  induction s as [|c s (m & E & Hm)]; [exists []; split; [done|by left]|]. cbn [split].
  pose proof (split_nonempty d s). destruct (split d s) as [|p ps] eqn:Es; [done|].
  destruct (Z.eqb_spec c d) as [->|].
  - exists (d :: m). split; [change (d :: s = d :: (m ++ back (p :: ps))); by rewrite <- E|]. right.
    destruct Hm as [->|[m' ->]]; [by exists []|by exists (d :: m')].
  - destruct ps as [|q ps].
    + exists []. split; [|by left]. change (c :: s = c :: p).
      pose proof (join_split d s) as Hj. rewrite Es in Hj. change (p ++ [] = s) in Hj. rewrite app_nil_r in Hj. by rewrite Hj.
    + exists (c :: m). split; [change (c :: s = c :: (m ++ back (p :: q :: ps))); by rewrite <- E|].
      destruct Hm as [->|[m' ->]]; [|right; by exists (c :: m')].
      exfalso. change (s = List.last (q :: ps) []) in E.
      pose proof (join_split d s) as Hj. rewrite Es, join_cons in Hj.
      pose proof (split_Forall d s) as HF. rewrite Es in HF. inv HF.
      assert (d ∉ List.last (q :: ps) []) as Hd.
      { rewrite Forall_forall in H3. apply H3. destruct (exists_last (l := q :: ps)) as (l' & x & El); [done|].
        rewrite El, List.last_last. apply elem_of_app. right. by left. }
      apply Hd. rewrite <- Hj. apply elem_of_app. right. by left.
Qed.

Lemma back_app d s t : d ∉ t -> back (split d (s ++ d :: t)) = t.
Proof.
  intros Ht. induction s as [|c s IH]; cbn [app split].
  - rewrite Z.eqb_refl, split_none by done. done.
  - destruct (split d (s ++ d :: t)) as [|p ps] eqn:E; [by apply split_nonempty in E|].
    assert (ps <> []) as Hps.
    { intros ->. pose proof (join_split d (s ++ d :: t)) as Hj. pose proof (split_Forall d (s ++ d :: t)) as HF.
      rewrite E in *. cbn in Hj. rewrite app_nil_r in Hj. inv HF. apply H1. apply elem_of_app. right. by left. }
    destruct ps as [|q ps]; [done|]. unfold back in *. destruct (c =? d); exact IH.
Qed.

(** *** The type checks, for names with the indicator of the type *)

Lemma checked_Ok (m : result name_error unit) (b : bool) (e : name_error) :
  (m;; require b e) = Ok tt <-> m = Ok tt /\ b = true.
Proof. by rewrite seq_Ok, require_Ok. Qed.

Lemma check_UNIQUE a b : forallb (in_class before_tag) a = true -> b <> [] -> forallb (in_class after_tag) b = true ->
  IsTypeCheckNameValid UNIQUE (a ++ ch "#" :: b) = Ok tt <->
  (length (a ++ ch "#" :: b) <= 31)%nat /\ path a /\ forallb (in_class UNIQUE_TAG_CHAR) b = true.
Proof.
  intros Ha Hne Hb. cbn [IsTypeCheckNameValid].
  rewrite checked_Ok, (tagged_parts "#" a b) by (done || by apply (class_out after_tag)).
  cbn [front back hd List.last]. unfold IsUniqueTagValid, UNIQUE_TAG_CHARACTERS.
  rewrite too_long_Ok, andb_true_iff, IsNameValidBeforeTag_spec, regex_plus, bool_decide_eq_false_2 by done. done.
Qed.

Lemma check_MSGCHANNEL a b : forallb (in_class before_tag) a = true -> forallb (in_class after_tag) b = true ->
  IsTypeCheckNameValid MSGCHANNEL (a ++ ch "~" :: b) = Ok tt <->
  (length (a ++ ch "~" :: b) <= 31)%nat /\ (length b <= 12)%nat /\ path a /\ word MSG_CHANNEL_TAG_CHAR b = true.
Proof.
  intros Ha Hb. cbn [IsTypeCheckNameValid]. rewrite seq_Ok.
  rewrite (tagged_parts "~" a b) by (done || by apply (class_out after_tag)).
  cbn [front back hd List.last]. rewrite checked_Ok, require_Ok, too_long_Ok.
  by rewrite andb_true_iff, IsNameValidBeforeTag_spec, IsMsgChannelTagValid_word, negb_true_iff, Nat.ltb_ge.
Qed.

Lemma check_OWNER a : IsTypeCheckNameValid OWNER (a ++ OWNER_TAG) = Ok tt <-> (length a <= 30)%nat /\ path a.
Proof.
  cbn [IsTypeCheckNameValid]. rewrite checked_Ok, too_long_Ok, length_app, IsNameValidBeforeTag_spec.
  replace (length a + length OWNER_TAG - 1)%nat with (length a) by (cbn; lia).
  rewrite take_app_length. cbn. split; intros [? ?]; (split; [lia|done]).
Qed.

Lemma check_VOTE a b : forallb (in_class before_tag) a = true ->
  IsTypeCheckNameValid VOTE (a ++ ch "^" :: b) = Ok tt <->
  (length (a ++ ch "^" :: b) <= 31)%nat /\ path a
  /\ back (split (ch "^") b) <> [] /\ forallb (in_class name_char) (back (split (ch "^") b)) = true.
Proof.
  intros Ha. cbn [IsTypeCheckNameValid]. rewrite checked_Ok, split_app by by apply (class_out before_tag).
  pose proof (split_nonempty (ch "^") b). destruct (split (ch "^") b) as [|p ps] eqn:E; [done|].
  change (back (a :: p :: ps)) with (back (p :: ps)). cbn [front hd].
  unfold IsVoteTagValid, VOTE_TAG_CHARACTERS.
  rewrite too_long_Ok, andb_true_iff, IsNameValidBeforeTag_spec, regex_plus, andb_true_iff, negb_true_iff,
    bool_decide_eq_false. done.
Qed.

Lemma qualifier_parts s : forall r ws, split (ch "/") s = (ch "#" :: r) :: ws ->
  IsQualifierNameValidBeforeTag s = root_word r && (length ws <? 2)%nat && forallb IsSubQualifierNameValid ws.
Proof.
  intros r ws E. unfold IsQualifierNameValidBeforeTag. rewrite E. cbn [front hd drop length].
  assert (IsQualifierNameValid (ch "#" :: r) = root_word r) as ->.
  { apply eq_true_iff_eq. rewrite IsQualifierNameValid_spec. split; [by intros (? & [= ->] & ?)|by exists r]. }
  f_equal. f_equal. destruct (Nat.ltb_spec 2 (S (length ws))), (Nat.ltb_spec (length ws) 2); done || lia.
Qed.

Lemma check_QUALIFIER t r : t = QUALIFIER \/ t = SUB_QUALIFIER -> forallb (in_class name_char) r = true ->
  IsTypeCheckNameValid t (ch "#" :: r) = Ok tt <-> (length r <= 30)%nat /\ root_word r = true.
Proof.
  intros Ht Hr. assert (split (ch "/") (ch "#" :: r) = [ch "#" :: r]) as E.
  { apply split_none. rewrite elem_of_cons. intros [?|?]; [done|]. revert H. by apply (class_out name_char). }
  destruct Ht as [-> | ->]; cbn [IsTypeCheckNameValid]; rewrite checked_Ok, too_long_Ok, (qualifier_parts _ _ _ E);
    cbn [length Nat.ltb Nat.leb forallb]; rewrite !andb_true_r; split; intros [? ?]; (split; [lia|done]).
Qed.

Lemma split_two a b : forallb (in_class name_char) a = true -> forallb (in_class name_char) b = true ->
  split (ch "/") (ch "#" :: a ++ ch "/" :: ch "#" :: b) = [ch "#" :: a; ch "#" :: b].
Proof.
  intros Ha Hb. change (ch "#" :: a ++ ch "/" :: ch "#" :: b) with ((ch "#" :: a) ++ ch "/" :: ch "#" :: b).
  rewrite split_app, split_none; [done| |].
  all: rewrite elem_of_cons; intros [?|?]; [done|]; revert H; apply (class_out name_char); done.
Qed.

Lemma check_SUB_QUALIFIER a b : forallb (in_class name_char) a = true -> b <> [] -> forallb (in_class name_char) b = true ->
  IsTypeCheckNameValid SUB_QUALIFIER (ch "#" :: a ++ ch "/" :: ch "#" :: b) = Ok tt <->
  (length a + length b <= 28)%nat /\ root_word a = true /\ no_double b = true /\ ends_punct b = false.
Proof.
  intros Ha Hne Hb. cbn [IsTypeCheckNameValid].
  rewrite checked_Ok, too_long_Ok, (qualifier_parts _ _ _ (split_two _ _ Ha Hb)).
  cbn [length Nat.ltb Nat.leb forallb]. rewrite length_app, !andb_true_r, andb_true_iff, IsSubQualifierNameValid_spec.
  cbn [length]. split.
  - intros (? & ? & t & [= <-] & _ & _ & ? & ?). split; [lia|done].
  - intros (? & ? & ? & ?). split; [lia|]. split; [done|]. exists b. split; [done|]. split; [|done]. destruct b; [done|cbn; lia].
Qed.

Lemma check_RESTRICTED s : forallb (in_class name_char) s = true ->
  IsTypeCheckNameValid RESTRICTED (ch "$" :: s) = Ok tt <->
  (3 <= length s <= 30)%nat /\ no_double s = true /\ ends_punct s = false.
Proof.
  intros Hs. cbn [IsTypeCheckNameValid]. rewrite checked_Ok, too_long_Ok, IsRestrictedNameValid_spec. cbn [length]. split.
  - intros (? & t & [= <-] & ? & _ & ? & ?). split; [lia|done].
  - intros (? & ? & ?). split; [lia|]. exists s. split_and!; try done; lia.
Qed.

Lemma check_path s : let t := if IsAssetNameASubasset s then SUB else ROOT in
  IsTypeCheckNameValid t s = Ok tt <-> asset_name t s.
Proof.
  cbv zeta.
  assert (IsTypeCheckNameValid (if IsAssetNameASubasset s then SUB else ROOT) s = Ok tt
          <-> (length s <= 30)%nat /\ path s /\ (IsAssetNameASubasset s || negb (length s <? 3)%nat) = true) as ->.
  { destruct (IsAssetNameASubasset s) eqn:E; cbn [IsTypeCheckNameValid];
      change (31 - 1)%nat with 30%nat; rewrite seq_Ok, checked_Ok, require_Ok, too_long_Ok, IsNameValidBeforeTag_spec, E; tauto. }
  rewrite IsAssetNameASubasset_spec. split.
  - intros (Hl & (r & ws & -> & Hr & Hws) & H). rewrite split_path in * by done. cbn [front hd length] in *. rewrite Hr.
    destruct ws as [|w ws].
    + cbn [Nat.ltb Nat.leb andb length]. rewrite join_one in *. by constructor.
    + cbn [length Nat.ltb Nat.leb andb]. by apply (name_SUB r w ws).
  - intros H. inversion H as [r Hr Hl E1 E2|r w ws ? -> Hr Hws Hl E1 E2| | | | | | |]; subst; try by case_match.
    + split; [done|]. split; [exists s, []; by rewrite join_one|].
      unfold root_word in Hr. bool_to_prop. apply orb_true_iff. right. apply negb_true_iff, Nat.ltb_ge. by apply Nat.leb_le.
    + split; [done|]. split; [by exists r, (w :: ws)|]. rewrite split_path by done. cbn. by rewrite Hr.
Qed.

(** *** Exactness *)

Lemma type_checked_valid t s u : nc_valid (type_checked t s u) = true <-> IsTypeCheckNameValid t s = Ok tt.
Proof. unfold type_checked. destruct (IsTypeCheckNameValid t s) as [[]|]; done. Qed.

Lemma type_checked_type t s u v : (if nc_valid (type_checked t s u) then Some (nc_type (type_checked t s u)) else None) = Some v
  <-> IsTypeCheckNameValid t s = Ok tt /\ u = v.
Proof.
  unfold type_checked. destruct (IsTypeCheckNameValid t s) as [[]|]; cbn.
  - split; [by intros [= ->]|by intros [_ ->]].
  - split; [done|by intros [? _]].
Qed.

(** Names that only have characters of paths have no mark of another type. *)
Lemma path_unmarked s : path s ->
  (forall d, in_class path_char (ch d) = false -> regex_match s (indicator d) = false)
  /\ regex_match s OWNER_INDICATOR = false /\ regex_match s QUALIFIER_INDICATOR = false
  /\ regex_match s SUB_QUALIFIER_INDICATOR = false /\ regex_match s RESTRICTED_INDICATOR = false.
Proof.
  intros [Hne Hs]%path_chars. split_and!.
  - intros d Hd. apply indicator_needs. by apply (class_out path_char).
  - apply owner_needs. by apply (class_out path_char).
  - destruct s as [|x s]; [done|]. unfold QUALIFIER_INDICATOR. rewrite cat_one. cbn in Hs. bool_to_prop.
    destruct (Z.eqb_spec x (ch "#")) as [->|]; done.
  - destruct s as [|x s]; [done|]. unfold SUB_QUALIFIER_INDICATOR. rewrite cat_one. cbn in Hs. bool_to_prop.
    destruct (Z.eqb_spec x (ch "#")) as [->|]; done.
  - destruct s as [|x s]; [done|]. unfold RESTRICTED_INDICATOR. rewrite cat_one. cbn in Hs. bool_to_prop.
    destruct (Z.eqb_spec x (ch "$")) as [->|]; done.
Qed.

Lemma asset_name_short t s : asset_name t s -> (length s <= 40)%nat.
Proof.
  destruct 1; subst; rewrite ?length_app in *; cbn [length] in *; rewrite ?length_app in *; cbn [length] in *; try lia.
  change (length OWNER_TAG) with 1%nat. lia.
Qed.

Lemma asset_name_path s : path s -> (length s <= 30)%nat -> exists t, asset_name t s /\ (t = ROOT \/ t = SUB).
Proof.
  intros (r & [|w ws] & -> & Hr & Hws) Hl; [rewrite join_one in *; exists ROOT|exists SUB]; (split; [|tauto]).
  - by constructor.
  - by apply (name_SUB r w ws).
Qed.

(** What the classification finds is in the grammar. *)
Lemma name_type_sound s t : name_type s = Some t -> asset_name t s.
Proof.
  unfold name_type, CheckAssetName. destruct (40 <? length s)%nat; [done|].
  destruct (regex_match s UNIQUE_INDICATOR) eqn:EU.
  { apply indicator_spec in EU as (a & b & -> & Ha & Hca & Hb & Hcb). rewrite type_checked_type.
    intros [(? & ? & ?)%check_UNIQUE <-]; try done. by constructor. }
  destruct (regex_match s MSG_CHANNEL_INDICATOR) eqn:EM.
  { apply indicator_spec in EM as (a & b & -> & Ha & Hca & Hb & Hcb). rewrite type_checked_type.
    intros [(? & ? & ? & ?)%check_MSGCHANNEL <-]; try done. by constructor. }
  destruct (regex_match s OWNER_INDICATOR) eqn:EO.
  { apply owner_spec in EO as (a & -> & Ha & Hca). rewrite type_checked_type.
    intros [(? & ?)%check_OWNER <-]. by constructor. }
  destruct (regex_match s VOTE_INDICATOR) eqn:EV.
  { apply indicator_spec in EV as (a & b & -> & Ha & Hca & Hb & Hcb). rewrite type_checked_type.
    intros [(? & ? & ? & ?)%check_VOTE <-]; [|done]. destruct (split_back (ch "^") b) as (m & E & Hm).
    rewrite E in *. rewrite forallb_app in Hcb. bool_to_prop. rewrite <- E in *. rewrite E at 1.
    constructor; try done. by rewrite <- E. }
  destruct (regex_match s QUALIFIER_INDICATOR) eqn:EQ.
  { apply marked_match in EQ as (r & -> & Hl & Hr). rewrite type_checked_type.
    intros [(? & ?)%check_QUALIFIER <-]; [|by left|done].
    replace (IsAssetNameASubQualifier (ch "#" :: r)) with false; [by constructor|].
    unfold IsAssetNameASubQualifier. rewrite split_none; [by rewrite andb_false_r|].
    rewrite elem_of_cons. intros [?|?]; [done|]. by apply (class_out name_char) in H1. }
  destruct (regex_match s SUB_QUALIFIER_INDICATOR) eqn:ES.
  { apply SUB_QUALIFIER_INDICATOR_spec in ES as (a & b & -> & Ha & Hca & Hb & Hcb). rewrite type_checked_type.
    intros [(? & ? & ? & ?)%check_SUB_QUALIFIER <-]; try done.
    replace (IsAssetNameASubQualifier _) with true; [by constructor|].
    unfold IsAssetNameASubQualifier. rewrite split_two by done. cbn [front hd length].
    symmetry. rewrite andb_true_r. apply IsQualifierNameValid_spec. by exists a. }
  destruct (regex_match s RESTRICTED_INDICATOR) eqn:ER.
  { apply marked_match in ER as (r & -> & Hl & Hr). rewrite type_checked_type.
    intros [(? & ? & ?)%check_RESTRICTED <-]; [|done]. by constructor. }
  rewrite type_checked_type. intros [H <-]. by apply check_path.
Qed.

(** The indicators of a path followed by a mark. *)
Lemma tagged_indicator d p tag : in_class before_tag (ch d) = false -> path p -> tag <> [] ->
  forallb (in_class after_tag) tag = true -> regex_match (p ++ ch d :: tag) (indicator d) = true.
Proof. intros Hd [Hne Hp]%path_before Ht Hc. apply indicator_spec. by exists p, tag. Qed.

Lemma tagged_needs d e p tag : in_class path_char (ch d) = false -> ch d <> ch e -> ch d ∉ tag -> path p ->
  ch d ∉ p ++ ch e :: tag.
Proof.
  intros Hd He Ht [_ Hp]%path_chars. rewrite elem_of_app, elem_of_cons. intros [H|[H|H]]; [|done|done].
  revert H. by apply (class_out path_char).
Qed.

(** Open the classification of a name of the grammar. *)
Ltac open_type :=
  match goal with H : asset_name _ ?s |- name_type ?s = _ =>
    unfold name_type, CheckAssetName, UNIQUE_INDICATOR, MSG_CHANNEL_INDICATOR, VOTE_INDICATOR;
    rewrite (proj2 (Nat.ltb_ge 40 (length s)) (asset_name_short _ _ H)); inversion H; subst; clear H
  end.
Ltac close_type := rewrite type_checked_type; split; [|done].

Lemma type_path t s : asset_name t s -> path s -> t = (if IsAssetNameASubasset s then SUB else ROOT) -> name_type s = Some t.
Proof.
  intros H (Hd & HO & HQ & HS & HR)%path_unmarked Ht. unfold name_type, CheckAssetName, UNIQUE_INDICATOR,
    MSG_CHANNEL_INDICATOR, VOTE_INDICATOR. rewrite !Hd, HO, HQ, HS, HR by done.
  rewrite (proj2 (Nat.ltb_ge 40 (length s)) (asset_name_short _ _ H)).
  rewrite type_checked_type. split; [|done]. apply check_path. by rewrite <- Ht.
Qed.

Lemma type_UNIQUE s : asset_name UNIQUE s -> name_type s = Some UNIQUE.
Proof.
  intros H. open_type. assert (forallb (in_class after_tag) tag = true) by (by apply (class_incl UNIQUE_TAG_CHAR)).
  rewrite tagged_indicator by done. close_type. apply check_UNIQUE; try done. by apply path_before.
Qed.

Lemma type_MSGCHANNEL s : asset_name MSGCHANNEL s -> name_type s = Some MSGCHANNEL.
Proof.
  intros H. open_type. match goal with Hw : word _ tag = true |- _ => destruct (word_chars _ _ Hw) as [Hne Hc] end.
  assert (forallb (in_class after_tag) tag = true) by (by apply (class_incl MSG_CHANNEL_TAG_CHAR)).
  rewrite indicator_needs, tagged_indicator; try done.
  2:{ apply tagged_needs; try done. by apply (class_out after_tag). }
  close_type. apply check_MSGCHANNEL; try done. by apply path_before.
Qed.

Lemma type_OWNER s : asset_name OWNER s -> name_type s = Some OWNER.
Proof.
  intros H. open_type.
  assert (forall d, in_class path_char (ch d) = false -> ch d <> ch "!" -> ch d ∉ p ++ OWNER_TAG) as Hd.
  { intros d ??. apply (tagged_needs d "!"); try done. apply not_elem_of_nil. }
  rewrite !indicator_needs by (by apply Hd).
  replace (regex_match (p ++ OWNER_TAG) OWNER_INDICATOR) with true; [close_type; by apply check_OWNER|].
  symmetry. apply owner_spec. exists p. split; [done|]. by apply path_before.
Qed.

Lemma type_VOTE s : asset_name VOTE s -> name_type s = Some VOTE.
Proof.
  intros H. open_type.
  assert (forallb (in_class after_tag) (mid ++ tag) = true) as Hc.
  { rewrite forallb_app. apply andb_true_iff. split; [done|]. by apply (class_incl name_char). }
  assert (forall d, in_class path_char (ch d) = false -> ch d <> ch "^" -> in_class after_tag (ch d) = false ->
    ch d ∉ p ++ ch "^" :: mid ++ tag) as Hd.
  { intros d ???. apply (tagged_needs d "^"); try done. by apply (class_out after_tag). }
  rewrite (indicator_needs "#"), (indicator_needs "~"), owner_needs by (by apply Hd).
  rewrite tagged_indicator by (done || by intros [_ ?]%app_nil). close_type.
  assert (back (split (ch "^") (mid ++ tag)) = tag) as E.
  { assert (ch "^" ∉ tag) by (by apply (class_out name_char)).
    match goal with Hm : mid = [] \/ _ |- _ => destruct Hm as [->|[m ->]] end; [cbn [app]; by rewrite split_none|].
    rewrite <- app_assoc. by apply back_app. }
  apply check_VOTE; [by apply path_before|]. by rewrite E.
Qed.

Lemma type_QUALIFIER s : asset_name QUALIFIER s -> name_type s = Some QUALIFIER.
Proof.
  intros H. open_type. match goal with Hr : root_word r = true |- _ => destruct (root_word_chars _ Hr) as [_ Hc] end.
  destruct (hash_no_tag r) as [HO HI]. rewrite !HI, HO.
  replace (regex_match _ QUALIFIER_INDICATOR) with true.
  2:{ symmetry. apply marked_match. exists r. unfold root_word in *. bool_to_prop. by rewrite <- Nat.leb_le. }
  rewrite type_checked_type. split; [apply check_QUALIFIER; try done; by left|].
  unfold IsAssetNameASubQualifier. rewrite split_none; [by rewrite andb_false_r|].
  rewrite elem_of_cons. intros [?|Hin]; [done|]. by apply (class_out name_char) in Hin.
Qed.

Lemma type_SUB_QUALIFIER s : asset_name SUB_QUALIFIER s -> name_type s = Some SUB_QUALIFIER.
Proof.
  intros H. open_type. match goal with Hr : root_word r = true |- _ => destruct (root_word_chars _ Hr) as [Hrn Hc] end.
  match goal with |- context [r ++ ch "/" :: ch "#" :: ?b] => rename b into sub end.
  destruct (hash_no_tag (r ++ ch "/" :: ch "#" :: sub)) as [HO HI]. rewrite !HI, HO.
  replace (regex_match _ QUALIFIER_INDICATOR) with false.
  2:{ symmetry. apply not_true_iff_false. intros (t & [= <-] & _ & Ht)%marked_match. rewrite forallb_app in Ht. by bool_to_prop. }
  replace (regex_match _ SUB_QUALIFIER_INDICATOR) with true.
  2:{ symmetry. apply SUB_QUALIFIER_INDICATOR_spec. by exists r, sub. }
  rewrite type_checked_type. split; [by apply check_SUB_QUALIFIER|].
  unfold IsAssetNameASubQualifier. rewrite split_two by done. cbn [front hd length].
  replace (IsQualifierNameValid (ch "#" :: r)) with true; [done|]. symmetry. apply IsQualifierNameValid_spec. by exists r.
Qed.

Lemma type_RESTRICTED s : asset_name RESTRICTED s -> name_type s = Some RESTRICTED.
Proof.
  intros H. open_type. match goal with |- context [ch "$" :: ?b] => rename b into w end.
  assert (forall d, in_class name_char (ch d) = false -> ch d <> ch "$" -> ch d ∉ ch "$" :: w) as Hn.
  { intros d ??. rewrite elem_of_cons. intros [?|Hin]; [done|]. revert Hin. by apply (class_out name_char). }
  rewrite !indicator_needs, owner_needs by (by apply Hn).
  unfold QUALIFIER_INDICATOR, SUB_QUALIFIER_INDICATOR. rewrite !cat_one. change (ch "$" =? ch "#") with false. cbn [andb].
  replace (regex_match _ RESTRICTED_INDICATOR) with true; [close_type; by apply check_RESTRICTED|].
  symmetry. apply marked_match. exists w. split_and!; [done|lia|done].
Qed.

Lemma name_type_complete t s : asset_name t s -> name_type s = Some t.
Proof.
  intros H. assert (asset_name t s) as H0 by done.
  destruct H as [r Hr Hl|r w ws s -> Hr Hws Hl| | | | | | |].
  - apply type_path; [done|exists r, []; by rewrite join_one|].
    rewrite IsAssetNameASubasset_spec, split_none; [by rewrite andb_false_r|].
    apply (class_out name_char); [done|]. by apply root_word_chars.
  - apply type_path; [done|by exists r, (w :: ws)|]. rewrite IsAssetNameASubasset_spec, split_path by done. cbn. by rewrite Hr.
  - by apply type_UNIQUE.
  - by apply type_MSGCHANNEL.
  - by apply type_OWNER.
  - by apply type_VOTE.
  - by apply type_QUALIFIER.
  - by apply type_SUB_QUALIFIER.
  - by apply type_RESTRICTED.
Qed.

Lemma name_type_spec s t : name_type s = Some t <-> asset_name t s.
Proof. split; [apply name_type_sound|apply name_type_complete]. Qed.

(** C27. The names [IsAssetNameValid] accepts, with the type it gives them, are
    exactly those of the grammar: the regular expressions, the splitting at
    delimiters and the length limits together accept no other name and miss
    none. *)
Theorem asset_names_exact name t :
  (nc_valid (CheckAssetName name INVALID) = true /\ nc_type (CheckAssetName name INVALID) = t) <-> asset_name t name.
Proof.
  rewrite <- name_type_spec. unfold name_type.
  destruct (nc_valid (CheckAssetName name INVALID)); split; [by intros [_ ->]|by intros [= ->]|by intros []|done].
Qed.

(** ** Parents *)

Lemma index_last_app d p s : d ∉ s -> index_last d (p ++ d :: s) = Some (length p).
Proof.
  intros Hs. assert (index_last d s = None) as E.
  { induction s as [|c s IH]; [done|]. cbn. rewrite IH by (intros ?; apply Hs; by right).
    destruct (Z.eqb_spec c d) as [->|]; [|done]. destruct Hs. by left. }
  induction p as [|c p IH]; cbn; [by rewrite E, Z.eqb_refl|by rewrite IH].
Qed.

Lemma up_to_last_app d p s : d ∉ s -> up_to_last d (p ++ d :: s) = p.
Proof. intros Hs. unfold up_to_last. by rewrite index_last_app, take_app_length. Qed.

Lemma join_snoc d p ps w : join d (p :: ps ++ [w]) = join d (p :: ps) ++ d :: w.
Proof. unfold join. rewrite fmap_app, join_app, <- app_assoc. cbn. by rewrite app_nil_r. Qed.

(** The name below which a name of the grammar was issued. *)
Lemma parent_path t s : asset_name t s -> t = SUB \/ t = UNIQUE \/ t = MSGCHANNEL ->
  path (GetParentName s) /\ exists d tag, s = GetParentName s ++ d :: tag.
Proof.
  intros H Ht. unfold GetParentName. rewrite (name_type_complete _ _ H).
  destruct H as [r Hr Hl|r w ws s -> Hr Hws Hl|p tag Hp Hne Hc Hl|p tag Hp Hw Hl2 Hl| | | | |]; try by destruct_or! Ht.
  - destruct (exists_last (l := w :: ws)) as (l & x & E); [done|]. rewrite E, join_snoc in *.
    rewrite forallb_app in Hws. cbn in Hws. bool_to_prop.
    rewrite up_to_last_app; [split; [by exists r, l|by eexists _, x]|].
    apply (class_out name_char); [done|]. by apply word_chars.
  - rewrite up_to_last_app; [split; [done|by eexists _, tag]|]. by apply (class_out UNIQUE_TAG_CHAR).
  - rewrite up_to_last_app; [split; [done|by eexists _, tag]|].
    apply (class_out MSG_CHANNEL_TAG_CHAR); [done|]. by apply word_chars.
Qed.

(** Every name that is issued under another one, a sub-asset, a unique asset
    or a message channel, has a parent that is itself the name of a root or
    sub-asset and whose owner token has a valid name: what authorises the issue
    can exist. *)
Theorem parent_has_owner name t : name_type name = Some t -> t = SUB \/ t = UNIQUE \/ t = MSGCHANNEL ->
  (name_type (GetParentName name) = Some ROOT \/ name_type (GetParentName name) = Some SUB)
  /\ name_type (GetParentName name ++ OWNER_TAG) = Some OWNER
  /\ exists d tag, name = GetParentName name ++ d :: tag.
Proof.
  intros H%name_type_spec Ht. destruct (parent_path _ _ H Ht) as [Hp (d & tag & E)].
  assert (length (GetParentName name) <= 30)%nat as Hl.
  { assert (length name <= 31)%nat as Hn.
    { destruct H; subst; try done; try by destruct_or! Ht. all: destruct_or! Ht; try done; lia. }
    rewrite E, length_app in Hn. cbn in Hn. lia. }
  split_and!; [|apply name_type_spec; by constructor|by eauto].
  destruct (asset_name_path _ Hp Hl) as (u & Hu%name_type_spec & [-> | ->]); auto.
Qed.

(** A unique asset of a sub-asset. *)
Module Named.

Lemma parent_has_owner_witness :
  name_type (str "GOLD/BAR#7") = Some UNIQUE /\ name_type (str "GOLD/BAR!") = Some OWNER.
Proof.
  assert (name_type (str "GOLD/BAR#7") = Some UNIQUE) as H by (vm_compute; reflexivity).
  split; [exact H|].
  assert (GetParentName (str "GOLD/BAR#7") ++ OWNER_TAG = str "GOLD/BAR!") as <- by (vm_compute; reflexivity).
  exact (proj1 (proj2 (parent_has_owner (str "GOLD/BAR#7") UNIQUE H (or_intror (or_introl eq_refl))))).
Defined.

End Named.
