(* ===== verification/Base58.v ===== *)
(** base58.cpp: base-58 strings with and without the checksum, and the
    addresses of destinations.  The digits are converted in place, in a buffer
    whose size is estimated from the length of the input; the estimate always
    suffices, decoding inverts encoding, and different destinations have
    different addresses. *)

From S2P Require Import Prelude Serialize Sha256 Script Interpreter Standard AssetNames.
From Stdlib Require Import Ascii.

(** ** The digits *)

Definition pszBase58 : bytes := str "123456789ABCDEFGHJKLMNPQRSTUVWXYZabcdefghijkmnopqrstuvwxyz".

(** The inner [for] loop from the reverse iterator on: the buffer is kept least
    significant digit first.  Returns the digits, the carry and [i]. *)
Fixpoint carry_loop (mul base carry : Z) (i length : nat) (digits : list Z) : list Z * Z * nat :=
  match digits with
  | [] => ([], carry, i)
  | d :: digits' =>
    if negb (carry =? 0) || (i <? length)%nat then
      let carry := carry + mul * d in
      let '(r, carry', i') := carry_loop mul base (carry / base) (S i) length digits' in
      (carry mod base :: r, carry', i')
    else (digits, carry, i)
  end.

(** The outer loop; [None] is the failed assertion [carry == 0]. *)
Fixpoint convert (mul base : Z) (input : list Z) (digits : list Z) (length : nat) : option (list Z * nat) :=
  match input with
  | [] => Some (digits, length)
  | x :: input' =>
    let '(digits, carry, i) := carry_loop mul base x 0 length digits in
    if carry =? 0 then convert mul base input' digits i else None
  end.

(** [while (it != end && *it == 0) it++] *)
Fixpoint skip_zeroes (l : list Z) : list Z :=
  match l with 0 :: l' => skip_zeroes l' | _ => l end.

(** From [begin() + (size - length)] on, without the leading zeroes. *)
Definition result_digits (r : list Z * nat) : list Z := skip_zeroes (rev (take r.2 r.1)).

(** [pszBase58[d]] *)
Definition char_of (d : Z) : Z := pszBase58 !!! Z.to_nat d.

Definition EncodeBase58 (vch : bytes) : option bytes :=
  let rest := skip_zeroes vch in
  let zeroes := (length vch - length rest)%nat in
  let size := (length rest * 138 / 100 + 1)%nat in
  r ← convert 256 58 rest (replicate size 0) 0;
  Some (replicate zeroes (ch "1") ++ (char_of <$> result_digits r)).

Definition isspace (c : Z) : bool := ((9 <=? c) && (c <=? 13)) || (c =? 32).
Fixpoint skip_while (f : Z -> bool) (s : bytes) : bytes :=
  match s with c :: s' => if f c then skip_while f s' else s | [] => [] end.
Fixpoint take_while (f : Z -> bool) (s : bytes) : bytes :=
  match s with c :: s' => if f c then c :: take_while f s' else [] | [] => [] end.

(** [strchr(pszBase58, c) - pszBase58] *)
Fixpoint index_of (c : Z) (s : bytes) : option Z :=
  match s with
  | [] => None
  | x :: s' => if x =? c then Some 0 else i ← index_of c s'; Some (i + 1)
  end.

(** The errors: a character outside the alphabet, characters after the trailing
    spaces, and the assertion. *)
Inductive base58_error := BadCharacter | TrailingGarbage | AssertCarry.

(** The loop over the characters up to the first space: the buffer, the number
    of digits in use and what is left of the string. *)
Fixpoint decode_chars (psz : bytes) (digits : list Z) (length : nat) : result base58_error (list Z * nat * bytes) :=
  match psz with
  | [] => Ok (digits, length, [])
  | c :: psz' =>
    if isspace c then Ok (digits, length, psz)
    else match index_of c pszBase58 with
         | None => Err BadCharacter
         | Some x =>
           let '(digits, carry, i) := carry_loop 58 256 x 0 length digits in
           if carry =? 0 then decode_chars psz' digits i else Err AssertCarry
         end
  end.

(** The buffer has the size computed for all that follows the leading ones. *)
Definition DecodeBase58 (s : bytes) : result base58_error bytes :=
  let psz := skip_while isspace (take_while (fun c => negb (c =? 0)) s) in
  let rest := skip_while (fun c => c =? ch "1") psz in
  let zeroes := (length psz - length rest)%nat in
  let size := (length rest * 733 / 1000 + 1)%nat in
  '(digits, len, psz) ← decode_chars rest (replicate size 0) 0;
  require (bool_decide (skip_while isspace psz = [])) TrailingGarbage;;
  Ok (replicate zeroes 0 ++ result_digits (digits, len)).

(** ** The checksum and addresses *)

Section Checked.
Context `{H : Hash256}.

Definition checksum (v : bytes) : bytes := take 4 (le_bytes 32 (hash256 v)).

Definition EncodeBase58Check (vchIn : bytes) : option bytes := EncodeBase58 (vchIn ++ checksum vchIn).

Definition DecodeBase58Check (psz : bytes) : option bytes :=
  match DecodeBase58 psz with
  | Err _ => None
  | Ok vchRet =>
    if (length vchRet <? 4)%nat then None
    else
      let body := take (length vchRet - 4) vchRet in
      if bytes_eq (checksum body) (drop (length vchRet - 4) vchRet) then Some body else None
  end.

(** [CBase58Data]: a version and data. *)
Record CBase58Data := MkBase58Data { vchVersion : bytes; vchData : bytes }.
Definition ToString (b : CBase58Data) : option bytes := EncodeBase58Check (b.(vchVersion) ++ b.(vchData)).
Definition SetString (psz : bytes) (nVersionBytes : nat) : option CBase58Data :=
  vchTemp ← DecodeBase58Check psz;
  if (length vchTemp <? nVersionBytes)%nat then None
  else Some (MkBase58Data (take nVersionBytes vchTemp) (drop nVersionBytes vchTemp)).

(** The prefixes of [CChainParams] that addresses use. *)
Record prefixes := MkPrefixes { PUBKEY_ADDRESS : bytes; SCRIPT_ADDRESS : bytes }.

(** [CMyntaAddress(dest)] is default-constructed for [CNoDestination]. *)
Definition address_of (p : prefixes) (dest : CTxDestination) : CBase58Data :=
  match dest with
  | CKeyID id => MkBase58Data p.(PUBKEY_ADDRESS) id
  | CScriptID id => MkBase58Data p.(SCRIPT_ADDRESS) id
  | CNoDestination => MkBase58Data [] []
  end.
Definition IsValidAddress (p : prefixes) (a : CBase58Data) : bool :=
  (length a.(vchData) =? 20)%nat
  && (bytes_eq a.(vchVersion) p.(PUBKEY_ADDRESS) || bytes_eq a.(vchVersion) p.(SCRIPT_ADDRESS)).
Definition GetAddress (p : prefixes) (a : CBase58Data) : CTxDestination :=
  if negb (IsValidAddress p a) then CNoDestination
  else if bytes_eq a.(vchVersion) p.(PUBKEY_ADDRESS) then CKeyID a.(vchData)
  else if bytes_eq a.(vchVersion) p.(SCRIPT_ADDRESS) then CScriptID a.(vchData)
  else CNoDestination.

(** [None] is the failed assertion of [EncodeBase58]. *)
Definition EncodeDestination (p : prefixes) (dest : CTxDestination) : option bytes :=
  let addr := address_of p dest in
  if negb (IsValidAddress p addr) then Some [] else ToString addr.

(** [SetString] takes one version byte by default; what does not decode is empty. *)
Definition DecodeDestination (p : prefixes) (s : bytes) : CTxDestination :=
  GetAddress p (default (MkBase58Data [] []) (SetString s 1)).
Definition IsValidDestinationString (p : prefixes) (s : bytes) : bool :=
  IsValidAddress p (default (MkBase58Data [] []) (SetString s 1)).

End Checked.

(** ** Digits and their values *)

(** The value of digits, least significant first, and most significant first. *)
Definition val (b : Z) (l : list Z) : Z := foldr (fun d acc => d + b * acc) 0 l.
Definition bval (b : Z) (l : list Z) : Z := foldl (fun acc d => acc * b + d) 0 l.
Definition digits_of (b : Z) (l : list Z) : Prop := Forall (fun d => 0 <= d < b) l.
Definition all_zero (l : list Z) : Prop := Forall (fun d => d = 0) l.

Lemma val_cons b d l : val b (d :: l) = d + b * val b l.
Proof. done. Qed.

Lemma val_zero b l : all_zero l -> val b l = 0.
Proof. induction 1 as [|d l -> ? IH]; [done|]. rewrite val_cons, IH. lia. Qed.

Lemma val_app b l l' : val b (l ++ l') = val b l + b ^ Z.of_nat (length l) * val b l'.
Proof.
  induction l as [|d l IH]; [cbn [app length]; change (val b []) with 0; lia|].
  cbn [app length]. rewrite !val_cons, IH, Nat2Z.inj_succ, Z.pow_succ_r by lia. lia.
Qed.

Lemma val_range b l : 0 < b -> digits_of b l -> 0 <= val b l < b ^ Z.of_nat (length l).
Proof.
  intros Hb. induction 1 as [|d l Hd ? IH]; [cbn; lia|]. rewrite val_cons. cbn [length].
  rewrite Nat2Z.inj_succ, Z.pow_succ_r by lia. nia.
Qed.

Lemma val_inj b l l' : 0 < b -> digits_of b l -> digits_of b l' -> length l = length l' -> val b l = val b l' -> l = l'.
Proof.
  intros Hb Hl. revert l'. induction Hl as [|d l Hd Hl IH]; intros [|d' l'] Hl' Hlen E; try done. inv Hl'.
  rewrite !val_cons in E. assert (d = d') as ->.
  { rewrite <- (Z.mod_small d b), <- (Z.mod_small d' b) by done.
    rewrite <- (Z_mod_plus_full d (val b l) b), <- (Z_mod_plus_full d' (val b l') b). f_equal. lia. }
  f_equal. apply IH; [done|cbn in Hlen; lia|nia].
Qed.

Lemma bval_acc b l acc : foldl (fun acc d => acc * b + d) acc l = acc * b ^ Z.of_nat (length l) + bval b l.
Proof.
  unfold bval. revert acc. induction l as [|d l IH]; intros acc; [cbn; lia|].
  cbn [foldl length]. rewrite IH, (IH (0 * b + d)), Nat2Z.inj_succ, Z.pow_succ_r by lia. lia.
Qed.

Lemma bval_rev b l : bval b (rev l) = val b l.
Proof.
  induction l as [|d l IH]; [done|]. cbn [rev]. unfold bval in *. rewrite foldl_app, IH, val_cons. cbn. lia.
Qed.

Lemma bval_val b l : bval b l = val b (rev l).
Proof. by rewrite <- bval_rev, rev_involutive. Qed.

Lemma digits_rev b l : digits_of b l -> digits_of b (rev l).
Proof. apply Forall_rev. Qed.

Lemma bval_range b l : 0 < b -> digits_of b l -> 0 <= bval b l < b ^ Z.of_nat (length l).
Proof. intros Hb Hl. rewrite bval_val, <- length_rev. by apply val_range, digits_rev. Qed.

Lemma bval_skip b l : bval b (skip_zeroes l) = bval b l.
Proof. induction l as [|[] l IH]; [done|exact IH|done|done]. Qed.

Lemma skip_zeroes_suffix l : exists n, l = replicate n 0 ++ skip_zeroes l.
Proof. induction l as [|[] l [n IH]]; [by exists O|exists (S n); cbn; by rewrite <- IH|by exists O|by exists O]. Qed.

Lemma skip_zeroes_digits b l : digits_of b l -> digits_of b (skip_zeroes l).
Proof. destruct (skip_zeroes_suffix l) as [n E]. unfold digits_of. rewrite E at 1. by rewrite Forall_app; intros [_ ?]. Qed.

(** No leading zero. *)
Definition canonical (l : list Z) : Prop := match l with [] => True | d :: _ => d <> 0 end.
Lemma skip_zeroes_canonical l : canonical (skip_zeroes l).
Proof. by induction l as [|[] l IH]. Qed.

Lemma canonical_bound b d l : 0 < b -> digits_of b (d :: l) -> d <> 0 -> b ^ Z.of_nat (length l) <= bval b (d :: l).
Proof.
  intros Hb Hl Hd. inv Hl. unfold bval. cbn [foldl]. rewrite bval_acc.
  pose proof (bval_range b l Hb H2). pose proof (Z.pow_pos_nonneg b (Z.of_nat (length l))). nia.
Qed.

Lemma canonical_length b l l' : 1 < b -> digits_of b l -> digits_of b l' -> canonical l -> canonical l' ->
  bval b l = bval b l' -> (length l <= length l')%nat.
Proof.
  intros Hb Hl Hl' Hc Hc' E. destruct l as [|d l]; [cbn; lia|]. cbn [canonical] in Hc.
  pose proof (canonical_bound b d l ltac:(lia) Hl Hc) as H1. pose proof (bval_range b l' ltac:(lia) Hl') as H2.
  rewrite E in H1. assert (Z.of_nat (length l) < Z.of_nat (length l')); [|cbn; lia].
  apply (Z.pow_lt_mono_r_iff b); lia.
Qed.

(** Digits without a leading zero are determined by their value. *)
Lemma canonical_inj b l l' : 1 < b -> digits_of b l -> digits_of b l' -> canonical l -> canonical l' ->
  bval b l = bval b l' -> l = l'.
Proof.
  intros Hb Hl Hl' Hc Hc' E. rewrite <- (rev_involutive l), <- (rev_involutive l'). f_equal.
  apply (val_inj b); [lia|by apply digits_rev|by apply digits_rev| |by rewrite <- !bval_val].
  rewrite !length_rev. apply Nat.le_antisymm; eapply (canonical_length b); done.
Qed.

(** ** The conversion *)

Lemma carry_loop_spec mul base digits : 0 < base -> 0 <= mul -> digits_of base digits ->
  forall carry i len r carry' i', 0 <= carry -> all_zero (drop (len - i) digits) ->
  carry_loop mul base carry i len digits = (r, carry', i') ->
  val base r + base ^ Z.of_nat (length digits) * carry' = carry + mul * val base digits
  /\ length r = length digits /\ digits_of base r /\ 0 <= carry' /\ (i <= i')%nat /\ all_zero (drop (i' - i) r).
Proof.
  intros Hb Hm. induction 1 as [|d digits Hd Hds IH]; intros carry i len r carry' i' Hc Hz; cbn [carry_loop].
  - intros [= <- <- <-]. cbn. rewrite drop_nil. split_and!; try done; try lia; constructor.
  - destruct (negb (carry =? 0) || (i <? len)%nat) eqn:E.
    + destruct (carry_loop mul base ((carry + mul * d) / base) (S i) len digits) as [[r0 c0] i0] eqn:El.
      intros [= <- <- <-]. apply IH in El as (H1 & H2 & H3 & H4 & H5 & H6).
      * split_and!; [|by cbn; f_equal| |done|lia|].
        -- rewrite !val_cons. cbn [length]. rewrite Nat2Z.inj_succ, Z.pow_succ_r by lia.
           pose proof (Z.div_mod (carry + mul * d) base ltac:(lia)). nia.
        -- constructor; [|done]. apply Z.mod_pos_bound. lia.
        -- replace (i0 - i)%nat with (S (i0 - S i)) by lia. done.
      * apply Z.div_pos; nia.
      * destruct (decide (i < len)%nat).
        -- by replace (len - i)%nat with (S (len - S i)) in Hz by lia.
        -- replace (len - i)%nat with O in Hz by lia. replace (len - S i)%nat with O by lia. by inv Hz.
    + apply orb_false_iff in E as [E1 E2]. assert (carry = 0) as -> by lia. apply Nat.ltb_ge in E2.
      intros [= <- <- <-]. replace (len - i)%nat with O in Hz by lia. rewrite drop_0 in Hz.
      rewrite (val_zero base (d :: digits)) by done. rewrite Nat.sub_diag. split_and!; try done; try lia; by constructor.
Qed.

Lemma convert_spec mul base input : 1 < base -> 0 < mul -> Forall (fun x => 0 <= x < mul) input ->
  forall digits len, digits_of base digits -> all_zero (drop len digits) ->
  foldl (fun acc d => acc * mul + d) (val base digits) input < base ^ Z.of_nat (length digits) ->
  exists r n, convert mul base input digits len = Some (r, n) /\ digits_of base r /\ all_zero (drop n r)
    /\ val base r = foldl (fun acc d => acc * mul + d) (val base digits) input.
Proof.
  intros Hb Hm. induction 1 as [|x input Hx Hin IH]; intros digits len Hd Hz Hv; cbn [convert]; [by exists digits, len|].
  destruct (carry_loop mul base x 0 len digits) as [[r c] i] eqn:E.
  apply carry_loop_spec in E as (H1 & H2 & H3 & H4 & H5 & H6); [|lia|lia|done|lia|by rewrite Nat.sub_0_r].
  rewrite Nat.sub_0_r in H6. cbn [foldl] in *. rewrite bval_acc in Hv.
  pose proof (val_range base r ltac:(lia) H3) as Hr. pose proof (val_range base digits ltac:(lia) Hd) as Hdr.
  pose proof (bval_range mul input Hm Hin). pose proof (Z.pow_pos_nonneg mul (Z.of_nat (length input))).
  assert (c = 0) as ->.
  { assert (x + mul * val base digits < base ^ Z.of_nat (length digits)) by nia.
    destruct (decide (c = 0)); [done|]. assert (1 <= c) by lia. nia. }
  cbn [Z.eqb]. destruct (IH r i) as (r' & n & ? & ? & ? & E); [done|done| |].
  - rewrite H2. replace (val base r) with (val base digits * mul + x) by lia. by rewrite bval_acc.
  - exists r', n. split_and!; try done. rewrite E. f_equal. lia.
Qed.

(** The digits of the result. *)
Lemma result_digits_spec base r n : 0 < base -> digits_of base r -> all_zero (drop n r) ->
  bval base (result_digits (r, n)) = val base r /\ digits_of base (result_digits (r, n)) /\ canonical (result_digits (r, n)).
Proof.
  intros Hb Hr Hz. unfold result_digits. cbn [fst snd]. split_and!; [|by apply skip_zeroes_digits, digits_rev, Forall_take|apply skip_zeroes_canonical].
  rewrite bval_skip, bval_rev. rewrite <- (take_drop n r) at 2. rewrite val_app, (val_zero base (drop n r)) by done. lia.
Qed.

(** ** The sizes suffice *)

Lemma size_bound b c (p q n k : nat) : 0 < b -> 1 < c -> (0 < q)%nat -> b ^ Z.of_nat q <= c ^ Z.of_nat p ->
  (p * n <= q * k)%nat -> b ^ Z.of_nat n <= c ^ Z.of_nat k.
Proof.
  intros Hb Hc Hq Hbc Hnk. destruct (Z.le_gt_cases (b ^ Z.of_nat n) (c ^ Z.of_nat k)) as [|Hlt]; [done|exfalso].
  assert ((c ^ Z.of_nat k) ^ Z.of_nat q < (b ^ Z.of_nat n) ^ Z.of_nat q) as H1.
  { apply Z.pow_lt_mono_l; [lia|]. split; [apply Z.pow_nonneg; lia|lia]. }
  assert ((b ^ Z.of_nat q) ^ Z.of_nat n <= (c ^ Z.of_nat p) ^ Z.of_nat n) as H2.
  { apply Z.pow_le_mono_l. split; [apply Z.pow_nonneg; lia|done]. }
  rewrite <- !Z.pow_mul_r in H1, H2 by lia. rewrite <- !Nat2Z.inj_mul in H1, H2.
  assert (c ^ Z.of_nat (p * n) <= c ^ Z.of_nat (k * q)); [apply Z.pow_le_mono_r; lia|].
  rewrite (Nat.mul_comm q n) in H2. lia.
Qed.

Lemma encode_size n : 256 ^ Z.of_nat n <= 58 ^ Z.of_nat (n * 138 / 100 + 1).
Proof.
  apply (size_bound 256 58 11 8); [lia|lia|lia|vm_compute; discriminate|].
  pose proof (Nat.div_mod (n * 138) 100 ltac:(lia)). pose proof (Nat.mod_upper_bound (n * 138) 100 ltac:(lia)). lia.
Qed.

Lemma decode_size n : 58 ^ Z.of_nat n <= 256 ^ Z.of_nat (n * 733 / 1000 + 1).
Proof.
  apply (size_bound 58 256 74 101); [lia|lia|lia|vm_compute; discriminate|].
  pose proof (Nat.div_mod (n * 733) 1000 ltac:(lia)). pose proof (Nat.mod_upper_bound (n * 733) 1000 ltac:(lia)). lia.
Qed.

Lemma zero_buffer b n : 0 < b -> digits_of b (replicate n 0) /\ all_zero (replicate n 0) /\ val b (replicate n 0) = 0.
Proof.
  intros Hb. assert (all_zero (replicate n 0)) as H by (by apply Forall_replicate).
  split_and!; [apply Forall_replicate; lia|done|by apply val_zero].
Qed.

(** Converting into a buffer that is large enough. *)
Lemma convert_ok mul base input size : 1 < base -> 0 < mul -> Forall (fun x => 0 <= x < mul) input ->
  mul ^ Z.of_nat (length input) <= base ^ Z.of_nat size ->
  exists r, convert mul base input (replicate size 0) 0 = Some r /\ bval base (result_digits r) = bval mul input
    /\ digits_of base (result_digits r) /\ canonical (result_digits r).
Proof.
  intros Hb Hm Hin Hs. destruct (zero_buffer base size ltac:(lia)) as (H1 & H2 & H3).
  destruct (convert_spec mul base input Hb Hm Hin (replicate size 0) 0) as (r & n & E & Hr & Hz & Hv); [done|done| |].
  { rewrite H3, length_replicate. pose proof (bval_range mul input Hm Hin). fold (bval mul input). lia. }
  exists (r, n). split; [done|]. destruct (result_digits_spec base r n ltac:(lia) Hr Hz) as (E1 & ? & ?).
  split_and!; [|done|done]. by rewrite E1, Hv, H3.
Qed.

(** ** Decoding inverts encoding *)

Lemma char_ok d : 0 <= d < 58 -> index_of (char_of d) pszBase58 = Some d /\ isspace (char_of d) = false
  /\ (char_of d =? 0) = false /\ (char_of d =? ch "1") = (d =? 0).
Proof.
  intros Hd. assert (forallb (fun d => bool_decide (index_of (char_of d) pszBase58 = Some d) && negb (isspace (char_of d))
    && negb (char_of d =? 0) && Bool.eqb (char_of d =? ch "1") (d =? 0)) (seqZ 0 58) = true) as H by (vm_compute; done).
  rewrite forallb_forall in H. specialize (H d). rewrite <- list_elem_of_In, elem_of_seqZ in H.
  specialize (H ltac:(lia)). bool_to_prop. apply bool_decide_eq_true in H. apply eqb_prop in H0. done.
Qed.

Lemma decode_chars_spec ds digits len : digits_of 58 ds ->
  decode_chars (char_of <$> ds) digits len =
  match convert 58 256 ds digits len with Some r => Ok (r, []) | None => Err AssertCarry end.
Proof.
  intros Hds. revert digits len. induction Hds as [|d ds Hd Hds IH]; intros digits len; [done|].
  cbn [fmap list_fmap decode_chars convert]. destruct (char_ok d Hd) as (-> & -> & _).
  destruct (carry_loop 58 256 d 0 len digits) as [[r c] i]. destruct (c =? 0); [apply IH|done].
Qed.

Lemma take_while_all f s : forallb f s = true -> take_while f s = s.
Proof. induction s as [|c s IH]; [done|]. cbn. intros [-> ?]%andb_true_iff. by rewrite IH. Qed.

Lemma skip_while_replicate f c n s : f c = true -> skip_while f (replicate n c ++ s) = skip_while f s.
Proof. intros Hc. induction n as [|n IH]; [done|]. cbn. by rewrite Hc. Qed.

Lemma skip_while_head f s : match s with [] => True | c :: _ => f c = false end -> skip_while f s = s.
Proof. destruct s as [|c s]; [done|]. cbn. by intros ->. Qed.

Lemma forallb_replicate_true (f : Z -> bool) n c : f c = true -> forallb f (replicate n c) = true.
Proof. intros H. induction n; cbn; by rewrite ?H. Qed.

(** The string of leading zeroes and digits is read back. *)
Lemma decode_string z ds : digits_of 58 ds -> canonical ds ->
  exists r, DecodeBase58 (replicate z (ch "1") ++ (char_of <$> ds)) = Ok (replicate z 0 ++ r)
    /\ bval 256 r = bval 58 ds /\ digits_of 256 r /\ canonical r.
Proof.
  intros Hds Hc. unfold DecodeBase58.
  assert (forallb (fun c => negb (c =? 0)) (char_of <$> ds) = true) as Hnz.
  { clear Hc. induction Hds as [|d ds Hd ? IH]; [done|]. cbn. destruct (char_ok d Hd) as (_ & _ & -> & _). done. }
  rewrite take_while_all by (rewrite forallb_app, Hnz, andb_true_r; by apply forallb_replicate_true).
  assert (skip_while isspace (replicate z (ch "1") ++ (char_of <$> ds)) = replicate z (ch "1") ++ (char_of <$> ds)) as ->.
  { apply skip_while_head. destruct z; [|done]. destruct ds as [|d ds]; [done|]. inv Hds. by apply char_ok. }
  rewrite skip_while_replicate by done.
  rewrite (skip_while_head _ (char_of <$> ds)).
  2:{ destruct ds as [|d ds]; [done|]. inv Hds. cbn. destruct (char_ok d) as (_ & _ & _ & ->); [done|].
      cbn in Hc. by apply Z.eqb_neq. }
  rewrite decode_chars_spec by done. rewrite length_fmap.
  destruct (convert_ok 58 256 ds (length ds * 733 / 1000 + 1)) as ([r n] & -> & E & Hr & Hcr); [lia|lia|done|apply decode_size|].
  exists (result_digits (r, n)). split; [|done].
  rewrite length_app, length_replicate, length_fmap, Nat.add_sub. done.
Qed.

(** [EncodeBase58] never fails its assertion, and [DecodeBase58] gives back
    the bytes it was given: the estimated buffer sizes are enough in both
    directions, and leading zero bytes are kept. *)
Lemma base58_roundtrip vch : all_bytes vch = true ->
  exists s, EncodeBase58 vch = Some s /\ DecodeBase58 s = Ok vch.
Proof.
  intros Hv. assert (digits_of 256 vch) as Hd.
  { apply Forall_forall. intros x Hx%list_elem_of_In. unfold all_bytes in Hv. rewrite forallb_forall in Hv. by apply is_byte_spec, Hv. }
  unfold EncodeBase58. destruct (skip_zeroes_suffix vch) as [z Ez].
  pose proof (skip_zeroes_digits 256 vch Hd) as Hr. pose proof (skip_zeroes_canonical vch) as Hc.
  set (rest := skip_zeroes vch) in *.
  destruct (convert_ok 256 58 rest (length rest * 138 / 100 + 1)) as (r & -> & E & Hds & Hcd); [lia|lia|done|apply encode_size|].
  eexists. split; [done|].
  replace (length vch - length rest)%nat with z by (rewrite Ez, length_app, length_replicate; lia).
  destruct (decode_string z (result_digits r) Hds Hcd) as (out & -> & E' & Hd' & Hc').
  rewrite Ez. do 2 f_equal. apply (canonical_inj 256); try done. by rewrite E', E.
Qed.

(** ** Addresses *)

Section Addresses.
Context `{H : Hash256}.

Lemma checksum_bytes v : length (checksum v) = 4%nat /\ all_bytes (checksum v) = true.
Proof.
  unfold checksum. split; [by rewrite length_take, length_le_bytes|].
  pose proof (le_bytes_all_bytes 32 (hash256 v)) as Hb. rewrite <- (take_drop 4 (le_bytes 32 (hash256 v))), all_bytes_app in Hb.
  by apply andb_true_iff in Hb as [? _].
Qed.

Lemma base58_check_roundtrip v : all_bytes v = true ->
  exists s, EncodeBase58Check v = Some s /\ DecodeBase58Check s = Some v.
Proof.
  intros Hv. destruct (checksum_bytes v) as [Hl Hb].
  destruct (base58_roundtrip (v ++ checksum v)) as (s & E & D); [by rewrite all_bytes_app, Hv, Hb|].
  exists s. split; [done|]. unfold DecodeBase58Check. rewrite D, length_app, Hl.
  replace (length v + 4 - 4)%nat with (length v) by lia. rewrite take_app_length, drop_app_length.
  replace (length v + 4 <? 4)%nat with false by (symmetry; apply Nat.ltb_ge; lia).
  by rewrite (proj2 (bytes_eq_spec _ _) eq_refl).
Qed.

(** Version prefixes as the networks have them: one byte each, and different. *)
Definition prefixes_ok (p : prefixes) : Prop :=
  exists a b, a <> b /\ p = MkPrefixes [a] [b] /\ is_byte a = true /\ is_byte b = true.
Definition valid_dest (d : CTxDestination) : Prop :=
  match d with CNoDestination => False | CKeyID h | CScriptID h => length h = 20%nat /\ all_bytes h = true end.

Lemma address_roundtrip p d : prefixes_ok p -> valid_dest d ->
  exists s, EncodeDestination p d = Some s /\ DecodeDestination p s = d.
Proof.
  intros (a & b & Hab & -> & Ha & Hb) Hd. unfold EncodeDestination, DecodeDestination, ToString, SetString.
  assert (bytes_eq [b] [a] = false) as E.
  { cbn. rewrite andb_true_r. apply Z.eqb_neq. congruence. }
  assert (b <> a) by congruence.
  destruct d as [|h|h]; [done| |]; destruct Hd as [Hl Hh]; unfold IsValidAddress, GetAddress, IsValidAddress;
    cbn [address_of vchVersion vchData PUBKEY_ADDRESS SCRIPT_ADDRESS];
    rewrite Hl, ?E; cbn [Nat.eqb andb bytes_eq app]; rewrite !Z.eqb_refl; cbn [andb orb negb].
  - destruct (base58_check_roundtrip (a :: h)) as (s & -> & D); [cbn; by rewrite Ha|]. exists s. split; [done|].
    rewrite D. cbn. rewrite take_0, drop_0. by rewrite Hl, Z.eqb_refl.
  - destruct (base58_check_roundtrip (b :: h)) as (s & -> & D); [cbn; by rewrite Hb|].
    exists s. split; [done|]. rewrite D. cbn. rewrite take_0, drop_0, Hl, Z.eqb_refl.
    replace (b =? a) with false by (symmetry; by apply Z.eqb_neq). done.
Qed.

(** Addresses are faithful.  On a network whose two version prefixes are
    different single bytes, every key hash and script hash of twenty bytes has an
    address, which decodes to it, so that two destinations never have the same address. *)
Theorem addresses_faithful p d d' : prefixes_ok p -> valid_dest d -> valid_dest d' ->
  (exists s, EncodeDestination p d = Some s /\ DecodeDestination p s = d)
  /\ (EncodeDestination p d = EncodeDestination p d' -> d = d').
Proof.
  intros Hp Hd Hd'. split; [by apply address_roundtrip|]. intros E. destruct (address_roundtrip p d Hp Hd) as (s & E1 & D1).
  destruct (address_roundtrip p d' Hp Hd') as (s' & E2 & D2). congruence.
Qed.

End Addresses.

(** The prefixes of the main network. *)
Module MainNet.

#[local] Existing Instance Poly.poly_hash.

Definition main_prefixes : prefixes := MkPrefixes [50] [110].
Lemma main_ok : prefixes_ok main_prefixes.
Proof. exists 50, 110. split_and!; [discriminate|reflexivity..]. Qed.

Definition a_key : CTxDestination := CKeyID (replicate 20 7).
Definition a_script : CTxDestination := CScriptID (replicate 20 7).

Lemma addresses_faithful_witness : exists s, EncodeDestination main_prefixes a_key = Some s
  /\ DecodeDestination main_prefixes s = a_key /\ EncodeDestination main_prefixes a_script <> Some s.
Proof.
  destruct (addresses_faithful main_prefixes a_key a_script main_ok) as [(s & E & D) Hi]; [split; reflexivity..|].
  exists s. split; [exact E|]. split; [exact D|]. intros E'. rewrite <- E in E'. discriminate (Hi (eq_sym E')).
Defined.

End MainNet.
