(* ===== verification/BoolEE.v ===== *)
(** LibBoolEE.cpp: boolean expressions over the qualifiers of an address, and
    the verifier strings of restricted assets built on them (assets/assets.cpp).
    The evaluator splits the text at its operators and recurses; it terminates,
    it computes the truth value of the formula a text denotes, and a verifier
    string that passes its check evaluates for every address. *)

From S2P Require Import Prelude AssetNames Base58.
From Stdlib Require Import Ascii.

(** ** LibBoolEE *)

(** The exceptions, and the fuel of the recursion. *)
Inductive bool_error :=
| UnknownOperator (c : Z)
| ParenthesisParity
| EmptySubExpression
| NotAFormula
| VariableNotFound (name : bytes)
| OutOfFuel.

Definition isalnum (c : Z) : bool :=
  ((48 <=? c) && (c <=? 57)) || ((65 <=? c) && (c <=? 90)) || ((97 <=? c) && (c <=? 122)).
Definition belongsToName (c : Z) : bool := isalnum c || (c =? ch "_") || (c =? ch "#") || (c =? ch ".").
Definition removeWhitespaces (source : bytes) : bytes := List.filter (fun c => negb (isspace c)) source.
Definition removeCharacter (source : bytes) (c : Z) : bytes := List.filter (fun x => negb (c =? x)) source.
Definition substr (s : bytes) (pos n : nat) : bytes := take n (drop pos s).

(** The locals of [singleParse]; [start_pos] is [None] for -1. *)
Record scan := MkScan { start_pos : option nat; parity_count : Z; subexpressions : list bytes }.

Definition part_of_name (c : Z) : bool := belongsToName c || (c =? ch "!").

Definition scan_char (formula : bytes) (op : Z) (st : scan) (p : nat * Z) : result bool_error scan :=
  let '(i, c) := p in
  if c =? ch ")" then Ok (MkScan st.(start_pos) (st.(parity_count) - 1) st.(subexpressions))
  else if c =? ch "(" then
    Ok (MkScan (Some (default i st.(start_pos))) (st.(parity_count) + 1) st.(subexpressions))
  else if st.(parity_count) =? 0 then
    match st.(start_pos) with
    | None => Ok (if part_of_name c then MkScan (Some i) 0 st.(subexpressions) else st)
    | Some pos =>
      if negb (part_of_name c) then
        if op =? c then Ok (MkScan (Some (i + 1)%nat) 0 (st.(subexpressions) ++ [substr formula pos (i - pos)]))
        else if negb (c =? ch "&") && negb (c =? ch "|") then Err (UnknownOperator c)
        else Ok st
      else Ok st
    end
  else Ok st.

(** The characters with their indices. *)
Fixpoint indexed (i : nat) (s : bytes) : list (nat * Z) :=
  match s with [] => [] | c :: s' => (i, c) :: indexed (S i) s' end.

Definition singleParse (formula : bytes) (op : Z) : result bool_error (list bytes) :=
  st ← foldM (scan_char formula op) (MkScan None 0 []) (indexed 0 formula);
  let subs := match st.(start_pos) with
              | Some pos => st.(subexpressions) ++ [substr formula pos (length formula - pos)]
              | None => st.(subexpressions)
              end in
  if negb (st.(parity_count) =? 0) then Err ParenthesisParity else Ok subs.

Abbreviation Vals := (gmap (list Z) bool) (only parsing).

(** [resolve] strips whitespace and calls [resolveRec], which calls it back. *)
Fixpoint resolve (fuel : nat) (source : bytes) (valuation : Vals) : result bool_error bool :=
  match fuel with
  | O => Err OutOfFuel
  | S fuel' =>
    let source := removeWhitespaces source in
    if bool_decide (source = []) then Err EmptySubExpression
    else
      subs ← singleParse source (ch "|");
      '(current_op, subs) ←
        (if (length subs =? 1)%nat then subs ← singleParse source (ch "&"); Ok (ch "&", subs) else Ok (ch "|", subs));
      match subs with
      | [] => Err NotAFormula
      | [_] =>
        if hd 0 source =? ch "!" then negb <$> resolve fuel' (drop 1 source) valuation
        else if hd 0 source =? ch "(" then resolve fuel' (substr source 1 (length source - 2)) valuation
        else if bytes_eq source (str "1") then Ok true
        else if bytes_eq source (str "0") then Ok false
        else match valuation !! source with None => Err (VariableNotFound source) | Some b => Ok b end
      | _ =>
        if current_op =? ch "|"
        then foldM (fun result it => b ← resolve fuel' it valuation; Ok (result || b)) false subs
        else foldM (fun result it => b ← resolve fuel' it valuation; Ok (result && b)) true subs
      end
  end.

(** The recursion is on shorter strings. *)
Definition Resolve (source : bytes) (valuation : Vals) : result bool_error bool :=
  resolve (S (length source)) source valuation.

(** ** Verifier strings *)

(** [while (std::regex_search(s, match, [A-Z0-9_.]+))]: the longest runs of such
    characters, from left to right. *)
Fixpoint runs (s cur : bytes) : list bytes :=
  match s with
  | [] => match cur with [] => [] | _ => [cur] end
  | c :: s' =>
    if Regex.in_class name_char c then runs s' (cur ++ [c])
    else match cur with [] => runs s' [] | _ => cur :: runs s' [] end
  end.
(** A [std::set<std::string>] is iterated in order. *)
Definition bytes_leP (a b : bytes) : Prop := bytes_le a b = true.
#[export] Instance bytes_leP_dec a b : Decision (bytes_leP a b) := bool_eq_dec _ _.
Definition ExtractVerifierStringQualifiers (verifier : bytes) : list bytes :=
  merge_sort bytes_leP (remove_dups (runs verifier [])).

Definition GetStrippedVerifierString (verifier : bytes) : bytes :=
  removeCharacter (removeWhitespaces verifier) (ch "#").

Inductive verifier_error :=
| VerifierEmpty
| VerifierTooLong
| VerifierBadName (name : bytes)
| VerifierSyntax (e : bool_error)
| VerifierWhitespace
| VerifierHash
| VerifierUnserialize
| VerifierUnknownQualifier
| VerifierAddress
| VerifierContextSyntax (e : bool_error).

(** The qualifiers found are what the reference argument holds on success. *)
Definition CheckVerifierString (verifier : bytes) : result verifier_error (list bytes) :=
  if bytes_eq verifier (str "true") then Ok []
  else if bool_decide (verifier = []) then Err VerifierEmpty
  else
    let strippedVerifier := GetStrippedVerifierString verifier in
    if (80 <? length strippedVerifier)%nat then Err VerifierTooLong
    else
      let setFoundQualifiers := ExtractVerifierStringQualifiers strippedVerifier in
      vals ← foldM (fun (vals : Vals) qualifier =>
                      if negb (IsQualifierNameValid (ch "#" :: qualifier)) then Err (VerifierBadName qualifier)
                      else Ok (<[qualifier := true]> vals)) ∅ setFoundQualifiers;
      match Resolve verifier vals with
      | Ok _ => Ok setFoundQualifiers
      | Err e => Err (VerifierSyntax e)
      end.

(** ** Termination *)

Lemma length_substr s pos n : (length (substr s pos n) <= n)%nat /\ (length (substr s pos n) <= length s - pos)%nat.
Proof. unfold substr. rewrite length_take, length_drop. lia. Qed.

(** What the scanner keeps, before the character at [i]: every piece ends
    before the start of the current one. *)
Definition scan_ok (i : nat) (st : scan) : Prop :=
  match start_pos st with
  | None => subexpressions st = []
  | Some pos => (pos <= i)%nat /\ Forall (fun s => (length s < pos)%nat) (subexpressions st)
  end.

Lemma scan_char_ok formula op st i c st' : scan_ok i st -> scan_char formula op st (i, c) = Ok st' -> scan_ok (S i) st'.
Proof.
  unfold scan_ok, scan_char. intros H.
  destruct (c =? ch ")").
  { intros [= <-]. cbn. destruct (start_pos st); [|done]. split; [lia|tauto]. }
  destruct (c =? ch "(").
  { intros [= <-]. cbn. destruct (start_pos st); cbn; [split; [lia|tauto]|]. rewrite H. split; [lia|constructor]. }
  destruct (parity_count st =? 0), (start_pos st) as [pos|] eqn:Es.
  - destruct (negb (part_of_name c)).
    + destruct (op =? c).
      * intros [= <-]. cbn. split; [lia|]. destruct H as [Hp HF]. apply Forall_app. split.
        -- eapply Forall_impl; [exact HF|]. cbn. intros. lia.
        -- constructor; [|constructor]. pose proof (length_substr formula pos (i - pos)). lia.
      * destruct (_ && _); [done|]. intros [= <-]. rewrite Es. split; [lia|tauto].
    + intros [= <-]. rewrite Es. split; [lia|tauto].
  - destruct (part_of_name c); intros [= <-]; cbn; [rewrite H; split; [lia|constructor]|by rewrite Es].
  - intros [= <-]. rewrite Es. split; [lia|tauto].
  - intros [= <-]. by rewrite Es.
Qed.

Lemma scan_all_ok formula op s : forall i st st', scan_ok i st ->
  foldM (scan_char formula op) st (indexed i s) = Ok st' -> scan_ok (i + length s) st'.
Proof.
  induction s as [|c s IH]; intros i st st' H; cbn [indexed foldM].
  - intros [= <-]. by rewrite Nat.add_0_r.
  - rewrite bind_Ok. intros (st1 & H1 & H2). cbn [length]. rewrite Nat.add_succ_r. apply (IH (S i) st1); [|done].
    by eapply scan_char_ok.
Qed.

(** The pieces are shorter than the text, except a single one. *)
Lemma singleParse_shorter formula op subs : singleParse formula op = Ok subs ->
  length subs <> 1%nat -> Forall (fun s => (length s < length formula)%nat) subs.
Proof.
  unfold singleParse. rewrite bind_Ok. intros (st & H & Hs) Hl.
  apply (scan_all_ok _ _ _ 0 (MkScan None 0 [])) in H; [|done]. cbn [Nat.add] in H.
  destruct (negb (parity_count st =? 0)); [done|]. injection Hs as <-. unfold scan_ok in H.
  destruct (start_pos st) as [pos|]; [|rewrite H; constructor].
  destruct H as [Hp HF]. apply Forall_app. split.
  - eapply Forall_impl; [exact HF|]. cbn. intros. lia.
  - constructor; [|constructor]. pose proof (length_substr formula pos (length formula - pos)).
    destruct (subexpressions st) as [|x l]; [cbn in Hl; lia|]. inv HF. lia.
Qed.

Lemma removeWhitespaces_length s : (length (removeWhitespaces s) <= length s)%nat.
Proof. unfold removeWhitespaces. induction s as [|c s IH]; [done|]. cbn. destruct (negb _); cbn; lia. Qed.

Lemma foldM_no_fuel (op : bool -> bool -> bool) (f : bytes -> result bool_error bool) l acc : Forall (fun s => f s <> Err OutOfFuel) l ->
  foldM (fun r it => b ← f it; Ok (op r b)) acc l <> Err OutOfFuel.
Proof.
  intros HF. revert acc. induction HF as [|s l Hs HF IH]; intros acc; cbn [foldM]; [done|].
  destruct (f s) as [b|e] eqn:E; cbn; [apply IH|]. congruence.
Qed.

Lemma singleParse_no_fuel formula op : singleParse formula op <> Err OutOfFuel.
Proof.
  unfold singleParse. intros H. destruct (foldM _ _ _) as [st|e] eqn:E; cbn in H; [by destruct (negb _)|].
  injection H as ->. revert E. generalize (MkScan None 0 []) (indexed 0 formula). intros st l. revert st.
  induction l as [|[i c] l IH]; intros st; cbn [foldM]; [done|].
  destruct (scan_char formula op st (i, c)) as [st'|e] eqn:E; cbn; [apply IH|].
  intros [= ->]. unfold scan_char in E. repeat case_match; done.
Qed.

(** The length of the text is enough fuel. *)
Lemma resolve_no_fuel fuel : forall source v, (length source < fuel)%nat -> resolve fuel source v <> Err OutOfFuel.
Proof.
  induction fuel as [|fuel IH]; intros source v Hl; [lia|]. cbn [resolve].
  pose proof (removeWhitespaces_length source). set (s := removeWhitespaces source) in *.
  destruct (bool_decide_reflect (s = [])) as [|Hne]; [done|]. assert (0 < length s)%nat by (destruct s; [done|cbn; lia]).
  destruct (singleParse s (ch "|")) as [subs|e] eqn:E1; cbn; [|intros [= ->]; by eapply singleParse_no_fuel].
  assert (forall op subs, singleParse s op = Ok subs -> length subs <> 1%nat -> Forall (fun s => resolve fuel s v <> Err OutOfFuel) subs) as HF.
  { intros op l Hp Hn. eapply Forall_impl; [by eapply singleParse_shorter|]. cbn. intros x Hx. apply IH. lia. }
  assert (forall x, resolve fuel (drop 1 s) v <> Err OutOfFuel /\ resolve fuel (substr s 1 x) v <> Err OutOfFuel) as Hs.
  { intros x. split; apply IH; [rewrite length_drop|pose proof (length_substr s 1 x)]; lia. }
  assert (forall op subs, length subs <> 1%nat -> singleParse s op = Ok subs ->
    match subs with [] => Err NotAFormula
    | _ => if op =? ch "|" then foldM (fun r it => b ← resolve fuel it v; Ok (r || b)) false subs
           else foldM (fun r it => b ← resolve fuel it v; Ok (r && b)) true subs end <> Err OutOfFuel) as Hmany.
  { intros op l Hn Hp. destruct l; [done|]. destruct (op =? ch "|"); apply foldM_no_fuel; by eapply HF. }
  destruct (Nat.eqb_spec (length subs) 1) as [Hn|Hn].
  2:{ cbn. destruct subs as [|a [|b l]]; [done|done|]. exact (Hmany _ _ Hn E1). }
  destruct (singleParse s (ch "&")) as [subs2|e] eqn:E2; cbn; [|intros [= ->]; by eapply singleParse_no_fuel].
  destruct subs2 as [|a [|b l]]; [done| |by refine (Hmany _ _ _ E2)].
  destruct (hd 0 s =? ch "!").
  { destruct (resolve fuel (drop 1 s) v) eqn:E; cbn; [done|]. destruct (Hs O) as [H1 _]. congruence. }
  destruct (hd 0 s =? ch "("); [by apply Hs|]. repeat case_match; done.
Qed.

(** ** Success depends on the variables only *)

Lemma foldM_is_ok (op : bool -> bool -> bool) (f g : bytes -> result bool_error bool) l : Forall (fun s => is_ok (f s) = is_ok (g s)) l -> forall a b,
  is_ok (foldM (fun r it => x ← f it; Ok (op r x)) a l)
  = is_ok (foldM (fun r it => x ← g it; Ok (op r x)) b l).
Proof.
  induction 1 as [|s l Hs HF IH]; intros a b; cbn [foldM]; [done|].
  destruct (f s), (g s); cbn in *; done || apply IH.
Qed.

Lemma resolve_dom fuel : forall source (v w : Vals), dom v = dom w ->
  is_ok (resolve fuel source v) = is_ok (resolve fuel source w).
Proof.
  induction fuel as [|fuel IH]; intros source v w Hd; [done|]. cbn [resolve].
  set (s := removeWhitespaces source). destruct (bool_decide (s = [])); [done|].
  destruct (singleParse s (ch "|")) as [subs|e]; cbn [mbind result_bind]; [|done].
  destruct (length subs =? 1)%nat; [destruct (singleParse s (ch "&")) as [subs2|]; cbn [mbind result_bind]; [|done]|cbn [mbind result_bind]].
  1: clear subs; rename subs2 into subs.
  all: destruct subs as [|x [|y l]]; [done| |].
  2,4: change (ch "&" =? ch "|") with false; change (ch "|" =? ch "|") with true; cbn iota;
    apply foldM_is_ok, Forall_forall; intros; by apply IH.
  all: destruct (hd 0 s =? ch "!");
    [pose proof (IH (drop 1 s) v w Hd); by destruct (resolve fuel (drop 1 s) v), (resolve fuel (drop 1 s) w)|].
  all: destruct (hd 0 s =? ch "("); [by apply IH|]; destruct (bytes_eq s (str "1")); [done|];
    destruct (bytes_eq s (str "0")); [done|].
  all: assert (is_Some (v !! s) <-> is_Some (w !! s)) as Hs by (by rewrite <- !elem_of_dom, Hd).
  all: destruct (v !! s) as [b|] eqn:Ev, (w !! s) as [c|] eqn:Ew; try done; exfalso.
  all: rewrite !is_Some_alt in Hs; cbn in Hs; tauto.
Qed.

(** ** The meaning of a text *)

(** Formulas as the header of the library describes them. *)
Inductive formula :=
| Var (name : bytes)
| Const (b : bool)
| Neg (f : formula)
| And (f g : formula)
| Or (f g : formula).

Fixpoint eval (v : Vals) (f : formula) : bool :=
  match f with
  | Var name => default false (v !! name)
  | Const b => b
  | Neg f => negb (eval v f)
  | And f g => eval v f && eval v g
  | Or f g => eval v f || eval v g
  end.

(** How a formula is written: parentheses where the operators need them; level
    0 is an operand of [|], 1 of [&] and 2 of [!]. *)
Definition paren (b : bool) (s : bytes) : bytes := if b then ch "(" :: s ++ [ch ")"] else s.
Fixpoint print (level : nat) (f : formula) : bytes :=
  match f with
  | Var name => name
  | Const b => str (if b then "1" else "0")
  | Neg f => ch "!" :: print 2 f
  | And f g => paren (2 <=? level)%nat (print 1 f ++ ch "&" :: print 1 g)
  | Or f g => paren (1 <=? level)%nat (print 0 f ++ ch "|" :: print 0 g)
  end.

Definition var_ok (v : Vals) (name : bytes) : bool :=
  negb (bool_decide (name = [])) && forallb belongsToName name && negb (bytes_eq name (str "1"))
  && negb (bytes_eq name (str "0")) && bool_decide (is_Some (v !! name)).
Fixpoint vars_ok (v : Vals) (f : formula) : bool :=
  match f with
  | Var name => var_ok v name
  | Const _ => true
  | Neg f => vars_ok v f
  | And f g | Or f g => vars_ok v f && vars_ok v g
  end.

(** *** Scanning *)

Definition scans (formula : bytes) (op : Z) (i : nat) (s : bytes) (st st' : scan) : Prop :=
  foldM (scan_char formula op) st (indexed i s) = Ok st'.

Lemma indexed_app i s t : indexed i (s ++ t) = indexed i s ++ indexed (i + length s) t.
Proof.
  revert i. induction s as [|c s IH]; intros i; cbn [app indexed length]; [by rewrite Nat.add_0_r|].
  by rewrite IH, Nat.add_succ_r.
Qed.

Lemma scans_app formula op i s t st st1 st2 : scans formula op i s st st1 -> scans formula op (i + length s) t st1 st2 ->
  scans formula op i (s ++ t) st st2.
Proof. unfold scans. intros H1 H2. by rewrite indexed_app, foldM_app, H1. Qed.

Lemma scans_cons formula op i c s st st1 st2 : scan_char formula op st (i, c) = Ok st1 -> scans formula op (S i) s st1 st2 ->
  scans formula op i (c :: s) st st2.
Proof. unfold scans. intros H1 H2. cbn [indexed foldM]. by rewrite H1. Qed.

Lemma scans_nil formula op i st : scans formula op i [] st st.
Proof. done. Qed.

Lemma scan_name formula op st i c : part_of_name c = true -> c <> ch "(" -> c <> ch ")" ->
  scan_char formula op st (i, c)
  = Ok (if parity_count st =? 0 then MkScan (Some (default i (start_pos st))) (parity_count st) (subexpressions st) else st).
Proof.
  intros Hc H1 H2. unfold scan_char. rewrite (proj2 (Z.eqb_neq _ _) H1), (proj2 (Z.eqb_neq _ _) H2), Hc.
  destruct st as [[p|] k l]; cbn; destruct (Z.eqb_spec k 0) as [->|]; done.
Qed.

Lemma name_not_paren c : part_of_name c = true -> c <> ch "(" /\ c <> ch ")".
Proof. intros Hc. split; intros ->; done. Qed.

(** Inside parentheses nothing is split. *)
Lemma scan_deep formula op st i c : part_of_name c = true \/ c = ch "&" \/ c = ch "|" -> 0 < parity_count st ->
  scan_char formula op st (i, c) = Ok st.
Proof.
  intros Hc Hk. unfold scan_char. destruct (Z.eqb_spec c (ch ")")) as [->|]; [by destruct_or! Hc|].
  destruct (Z.eqb_spec c (ch "(")) as [->|]; [by destruct_or! Hc|]. by rewrite (proj2 (Z.eqb_neq _ 0)) by lia.
Qed.

Lemma scans_deep_chars formula op st s i : forallb part_of_name s = true -> 0 < parity_count st -> scans formula op i s st st.
Proof.
  intros Hs Hk. revert i. induction s as [|c s IH]; intros i; [done|]. cbn in Hs. apply andb_true_iff in Hs as [Hc Hs].
  eapply scans_cons; [apply scan_deep; [by left|done]|by apply IH].
Qed.

Lemma var_chars v name : var_ok v name = true -> name <> [] /\ forallb part_of_name name = true.
Proof.
  unfold var_ok. intros H. bool_to_prop. apply bool_decide_eq_false in H. split; [done|].
  eapply forallb_forall. intros x Hx. rewrite forallb_forall in H3. unfold part_of_name. by rewrite H3.
Qed.

Lemma scans_deep v f : vars_ok v f = true -> forall formula op level i pos k l, 0 < k ->
  scans formula op i (print level f) (MkScan (Some pos) k l) (MkScan (Some pos) k l).
Proof.
  assert (forall formula op s i pos k l b, 0 < k ->
    (forall i k, 0 < k -> scans formula op i s (MkScan (Some pos) k l) (MkScan (Some pos) k l)) ->
    scans formula op i (paren b s) (MkScan (Some pos) k l) (MkScan (Some pos) k l)) as Hp.
  { intros formula op s i pos k l b Hk Hs. destruct b; cbn [paren]; [|by apply Hs].
    eapply scans_cons; [done|]. cbn. eapply scans_app; [exact (Hs _ (k + 1) ltac:(lia))|].
    eapply scans_cons; [done|]. cbn. replace (k + 1 - 1) with k by lia. apply scans_nil. }
  induction f as [n|b|f IH|f IHf g IHg|f IHf g IHg]; cbn [vars_ok print]; intros Hv formula op level i pos k l Hk.
  - apply scans_deep_chars; [|done]. by eapply var_chars.
  - destruct b; by apply scans_deep_chars.
  - eapply scans_cons; [by apply scan_deep; [left|]|by apply IH].
  - apply andb_true_iff in Hv as [H1 H2]. apply Hp; [done|]. intros j k' Hk'. eapply scans_app; [by apply IHf|].
    eapply scans_cons; [apply scan_deep; [auto|done]|by apply IHg].
  - apply andb_true_iff in Hv as [H1 H2]. apply Hp; [done|]. intros j k' Hk'. eapply scans_app; [by apply IHf|].
    eapply scans_cons; [apply scan_deep; [auto|done]|by apply IHg].
Qed.

(** A text that is not split at [op]: it only marks its start. *)
Definition atom (op : Z) (s : bytes) : Prop := s <> [] /\ forall formula i start l,
  scans formula op i s (MkScan start 0 l) (MkScan (Some (default i start)) 0 l).

Lemma atom_name op s : s <> [] -> forallb part_of_name s = true -> atom op s.
Proof.
  intros Hne Hs. split; [done|]. intros formula. revert Hne. induction s as [|c s IH]; intros Hne i start l; [done|].
  cbn in Hs. apply andb_true_iff in Hs as [Hc Hs]. destruct (name_not_paren c Hc).
  eapply scans_cons; [by rewrite scan_name|]. cbn [start_pos parity_count subexpressions Z.eqb].
  destruct s as [|d s]; [apply scans_nil|]. exact (IH Hs ltac:(done) (S i) (Some (default i start)) l).
Qed.

Lemma atom_paren v op f : vars_ok v f = true -> atom op (paren true (print 0 f)).
Proof.
  intros Hv. split; [done|]. intros formula i start l. cbn [paren]. eapply scans_cons; [done|]. cbn.
  eapply scans_app; [exact (scans_deep v f Hv _ _ 0 _ _ 1 _ ltac:(lia))|]. eapply scans_cons; [done|]. apply scans_nil.
Qed.

Lemma atom_neg op s : atom op s -> atom op (ch "!" :: s).
Proof.
  intros [Hne Hs]. split; [done|]. intros formula i start l. eapply scans_cons; [by rewrite scan_name|].
  cbn. exact (Hs formula (S i) (Some (default i start)) l).
Qed.

(** An operator that is not the one the text is split at. *)
Lemma atom_other op c s t : (c = ch "&" \/ c = ch "|") -> op <> c -> atom op s -> atom op t -> atom op (s ++ c :: t).
Proof.
  intros Hc Hop [Hs1 Hs] [Ht1 Ht]. split; [by destruct s|]. intros formula i start l. eapply scans_app; [apply Hs|].
  eapply scans_cons; [|exact (Ht formula _ (Some (default i start)) l)].
  unfold scan_char. cbn. destruct Hc as [-> | ->]; cbn; by rewrite (proj2 (Z.eqb_neq _ _) Hop).
Qed.

(** *** Splitting *)

Inductive splits (op : Z) : bytes -> list bytes -> Prop :=
| splits_atom s : atom op s -> splits op s [s]
| splits_op s t ls lt : splits op s ls -> splits op t lt -> splits op (s ++ op :: t) (ls ++ lt).

(** Where the scanner is after a text: its last piece is not closed yet. *)
Lemma splits_scan op s ls : op = ch "&" \/ op = ch "|" -> splits op s ls -> forall formula pre post start l,
  formula = pre ++ s ++ post -> start = None \/ start = Some (length pre) ->
  exists init tail pos, ls = init ++ [tail] /\ drop pos (take (length pre + length s) formula) = tail
    /\ (pos <= length pre + length s)%nat
    /\ scans formula op (length pre) s (MkScan start 0 l) (MkScan (Some pos) 0 (l ++ init)).
Proof.
  intros Hop. induction 1 as [s Hs|s t ls lt Hs IHs Ht IHt]; intros formula pre post start l -> Hst.
  - exists [], s, (length pre). split; [done|]. rewrite app_assoc, take_app_length' by (by rewrite length_app).
    rewrite drop_app_length. split_and!; [done|lia|]. rewrite app_nil_r. destruct Hs as [_ Hs].
    destruct Hst as [-> | ->]; apply Hs.
  - rewrite <- app_assoc. cbn [app]. set (formula := pre ++ s ++ op :: t ++ post).
    destruct (IHs formula pre (op :: t ++ post) start l) as (i1 & t1 & p1 & -> & E1 & Hp1 & S1); [done|done|].
    assert (formula = (pre ++ s ++ [op]) ++ t ++ post) as Ef by (unfold formula; by rewrite <- !app_assoc).
    destruct (IHt formula (pre ++ s ++ [op]) post (Some (length (pre ++ s ++ [op]))) (l ++ i1 ++ [t1]))
      as (i2 & t2 & p2 & -> & E2 & Hp2 & S2); [done|by right|].
    rewrite !length_app in *. cbn [length] in *.
    exists ((i1 ++ [t1]) ++ i2), t2, p2. rewrite app_assoc. split; [done|].
    replace (length pre + (length s + S (length t)))%nat with (length pre + (length s + 1) + length t)%nat by lia.
    split; [done|]. split; [lia|]. eapply scans_app; [exact S1|]. eapply scans_cons.
    2:{ replace (S (length pre + length s)) with (length pre + (length s + 1))%nat by lia. rewrite <- !app_assoc in *. exact S2. }
    assert (substr formula p1 (length pre + length s - p1) = t1) as Esub.
    { unfold substr. rewrite <- E1, firstn_skipn_comm. f_equal. f_equal. lia. }
    unfold scan_char. cbn [parity_count start_pos subexpressions]. rewrite Esub.
    replace (length pre + length s + 1)%nat with (length pre + (length s + 1))%nat by lia.
    destruct Hop as [-> | ->]; cbn; by rewrite <- !app_assoc.
Qed.

Lemma splits_parse op s ls : op = ch "&" \/ op = ch "|" -> splits op s ls -> singleParse s op = Ok ls.
Proof.
  intros Hop H. destruct (splits_scan op s ls Hop H s [] [] None []) as (i & t & p & -> & E & Hp & Hs); [by rewrite app_nil_r|by left|].
  unfold singleParse. unfold scans in Hs. cbn [length] in Hs. rewrite Hs. cbn.
  cbn [Nat.add length] in E. rewrite take_ge in E by lia. unfold substr. by rewrite take_ge, E by (rewrite length_drop; lia).
Qed.

Fixpoint disjuncts (f : formula) : list formula := match f with Or f g => disjuncts f ++ disjuncts g | _ => [f] end.
Fixpoint conjuncts (f : formula) : list formula := match f with And f g => conjuncts f ++ conjuncts g | _ => [f] end.

Lemma print_paren f : print 2 f = print 0 f \/ print 2 f = paren true (print 0 f).
Proof. destruct f; auto. Qed.

Section Printed.
Context (v : Vals).

Lemma atom_unary op f : vars_ok v f = true -> atom op (print 2 f).
Proof.
  induction f as [n|b|f IH|f IHf g IHg|f IHf g IHg]; intros Hv.
  - destruct (var_chars v n Hv). by apply atom_name.
  - destruct b; by apply atom_name.
  - apply atom_neg. by apply IH.
  - exact (atom_paren v op (And f g) Hv).
  - exact (atom_paren v op (Or f g) Hv).
Qed.

Lemma atom_conjunction f : vars_ok v f = true -> atom (ch "|") (print 1 f).
Proof.
  induction f as [n|b|f IH|f IHf g IHg|f IHf g IHg]; intros Hv; try exact (atom_unary (ch "|") _ Hv).
  cbn in Hv. apply andb_true_iff in Hv as [H1 H2]. by apply atom_other; auto.
Qed.

Lemma splits_or f : vars_ok v f = true -> splits (ch "|") (print 0 f) (print 0 <$> disjuncts f).
Proof.
  induction f as [n|b|f IH|f IHf g IHg|f IHf g IHg]; intros Hv.
  all: try exact (splits_atom _ _ (atom_conjunction _ Hv)).
  cbn in Hv. apply andb_true_iff in Hv as [H1 H2]. cbn [disjuncts print paren Nat.leb]. rewrite fmap_app.
  apply splits_op; auto.
Qed.

Lemma splits_and f : vars_ok v f = true -> splits (ch "&") (print 1 f) (print 1 <$> conjuncts f).
Proof.
  induction f as [n|b|f IH|f IHf g IHg|f IHf g IHg]; intros Hv.
  all: try exact (splits_atom _ _ (atom_unary (ch "&") _ Hv)).
  cbn in Hv. apply andb_true_iff in Hv as [H1 H2]. cbn [conjuncts print paren Nat.leb]. rewrite fmap_app.
  apply splits_op; auto.
Qed.

Definition plain (s : bytes) : bool := forallb (fun c => negb (isspace c)) s.

Lemma plain_id s : plain s = true -> removeWhitespaces s = s.
Proof.
  unfold plain, removeWhitespaces. induction s as [|c s IH]; [done|]. cbn [forallb List.filter].
  intros [-> ?]%andb_true_iff. by rewrite IH.
Qed.

Lemma name_plain_chars s : forallb part_of_name s = true -> plain s = true.
Proof.
  unfold plain. rewrite !forallb_forall. intros H c Hc. specialize (H c Hc). apply negb_true_iff, not_true_iff_false.
  unfold isspace. unfold part_of_name, belongsToName, isalnum, ch in H. cbn in H. lia.
Qed.

Lemma print_plain_chars level f : vars_ok v f = true -> plain (print level f) = true.
Proof.
  assert (forall b s, plain s = true -> plain (paren b s) = true) as Hp.
  { intros [] s Hs; [|done]. cbn. unfold plain in *. by rewrite forallb_app, Hs. }
  assert (forall s t c, isspace c = false -> plain s = true -> plain t = true -> plain (s ++ c :: t) = true) as Hop.
  { intros s t c Hc Hs Ht. unfold plain in *. rewrite forallb_app, Hs. cbn. by rewrite Hc, Ht. }
  revert level. induction f as [n|b|f IH|f IHf g IHg|f IHf g IHg]; intros level Hv; cbn [print vars_ok] in *.
  - by eapply name_plain_chars, var_chars.
  - by destruct b.
  - by apply (IH 2%nat).
  - apply andb_true_iff in Hv as [??]. apply Hp, Hop; auto.
  - apply andb_true_iff in Hv as [??]. apply Hp, Hop; auto.
Qed.

Lemma print_plain level f : vars_ok v f = true -> removeWhitespaces (print level f) = print level f.
Proof. intros. by apply plain_id, print_plain_chars. Qed.

(** *** One step of the evaluator *)

Lemma resolve_atom fuel s : removeWhitespaces s = s -> (forall op, atom op s) ->
  resolve (S fuel) s v =
  if hd 0 s =? ch "!" then negb <$> resolve fuel (drop 1 s) v
  else if hd 0 s =? ch "(" then resolve fuel (substr s 1 (length s - 2)) v
  else if bytes_eq s (str "1") then Ok true
  else if bytes_eq s (str "0") then Ok false
  else match v !! s with None => Err (VariableNotFound s) | Some b => Ok b end.
Proof.
  intros Hw Ha. cbn [resolve]. rewrite Hw. destruct (Ha (ch "|")) as [Hne _]. rewrite bool_decide_eq_false_2 by done.
  rewrite !(splits_parse _ s [s]) by (auto; by constructor). done.
Qed.

Lemma resolve_split fuel s op ls : removeWhitespaces s = s -> op = ch "&" \/ op = ch "|" ->
  (op = ch "&" -> atom (ch "|") s) -> splits op s ls -> (2 <= length ls)%nat ->
  resolve (S fuel) s v =
  if op =? ch "|" then foldM (fun result it => b ← resolve fuel it v; Ok (result || b)) false ls
  else foldM (fun result it => b ← resolve fuel it v; Ok (result && b)) true ls.
Proof.
  intros Hw Hop Ha Hs Hl. cbn [resolve]. rewrite Hw.
  assert (s <> []) as Hne.
  { intros ->. inversion Hs; subst; cbn in Hl; [lia|]. by destruct s. }
  rewrite bool_decide_eq_false_2 by done. destruct Hop as [-> | ->].
  - rewrite (splits_parse (ch "|") s [s]) by (auto; constructor; auto). cbn [mbind result_bind length Nat.eqb].
    rewrite (splits_parse (ch "&") s ls) by auto. cbn [mbind result_bind]. destruct ls as [|a [|b ls]]; cbn in Hl; [lia|lia|done].
  - rewrite (splits_parse (ch "|") s ls) by auto. cbn [mbind result_bind].
    destruct ls as [|a [|b ls]]; cbn in Hl; [lia|lia|done].
Qed.

Lemma resolve_paren fuel s : removeWhitespaces (paren true s) = paren true s -> (forall op, atom op (paren true s)) ->
  resolve (S fuel) (paren true s) v = resolve fuel s v.
Proof.
  intros Hw Ha. rewrite resolve_atom by done. cbn [paren hd]. change (ch "(" =? ch "!") with false.
  change (ch "(" =? ch "(") with true. cbn iota. f_equal. unfold substr. cbn [drop]. rewrite drop_0. cbn [length]. rewrite length_app. cbn.
  replace (length s + 1 - 1)%nat with (length s) by lia. apply take_app_length.
Qed.

Lemma foldM_eval (op : bool -> bool -> bool) f l acc : (forall g, g ∈ l -> f g = Ok (E := bool_error) (eval v g)) ->
  foldM (fun r it => b ← f it; Ok (op r b)) acc l = Ok (foldl op acc (eval v <$> l)).
Proof.
  revert acc. induction l as [|g l IH]; intros acc Hf; cbn [foldM fmap list_fmap foldl]; [done|].
  rewrite Hf by (by left). cbn. apply IH. intros. apply Hf. by right.
Qed.

Lemma foldM_fmap {E A B S} (f : S -> B -> result E S) (g : A -> B) l : forall s,
  foldM f s (g <$> l) = foldM (fun s a => f s (g a)) s l.
Proof. induction l as [|a l IH]; intros s; [done|]. cbn. destruct (f s (g a)); [apply IH|done]. Qed.

Lemma eval_disjuncts f : forall acc, foldl orb acc (eval v <$> disjuncts f) = acc || eval v f.
Proof.
  induction f as [n|b|f IH|f IHf g IHg|f IHf g IHg]; intros acc; try done.
  cbn [disjuncts eval]. by rewrite fmap_app, foldl_app, IHf, IHg, orb_assoc.
Qed.

Lemma eval_conjuncts f : forall acc, foldl andb acc (eval v <$> conjuncts f) = acc && eval v f.
Proof.
  induction f as [n|b|f IH|f IHf g IHg|f IHf g IHg]; intros acc; try done.
  cbn [conjuncts eval]. by rewrite fmap_app, foldl_app, IHf, IHg, andb_assoc.
Qed.

Lemma disjuncts_ok f g : vars_ok v f = true -> g ∈ disjuncts f -> vars_ok v g = true.
Proof.
  induction f as [n|b|f IH|f1 IHf f2 IHg|f1 IHf f2 IHg]; cbn [disjuncts]; intros Hv Hg;
    try by apply list_elem_of_singleton in Hg as ->.
  cbn in Hv. apply andb_true_iff in Hv as [H1 H2]. apply elem_of_app in Hg as [?|?]; auto.
Qed.

Lemma conjuncts_ok f g : vars_ok v f = true -> g ∈ conjuncts f -> vars_ok v g = true.
Proof.
  induction f as [n|b|f IH|f1 IHf f2 IHg|f1 IHf f2 IHg]; cbn [conjuncts]; intros Hv Hg;
    try by apply list_elem_of_singleton in Hg as ->.
  cbn in Hv. apply andb_true_iff in Hv as [H1 H2]. apply elem_of_app in Hg as [?|?]; auto.
Qed.

Lemma disjuncts_nonempty f : (1 <= length (disjuncts f))%nat /\ (1 <= length (conjuncts f))%nat.
Proof. induction f; cbn; rewrite ?length_app; lia. Qed.

Fixpoint size (f : formula) : nat :=
  match f with Var _ | Const _ => 1 | Neg f => S (size f) | And f g | Or f g => S (size f + size g) end.

Lemma parts_smaller f g : g ∈ disjuncts f \/ g ∈ conjuncts f -> (size g <= size f)%nat.
Proof.
  induction f as [n|b|f IH|f1 IHf f2 IHg|f1 IHf f2 IHg]; cbn [disjuncts conjuncts size]; intros Hg.
  all: rewrite ?list_elem_of_singleton, ?elem_of_app in Hg; destruct_or! Hg; subst; cbn [size]; try lia.
  all: first [specialize (IHf ltac:(auto))|specialize (IHg ltac:(auto))]; lia.
Qed.

(** The pieces of a split text, evaluated one by one. *)
Lemma resolve_pieces fuel level s (op : Z) (bop : bool -> bool -> bool) acc l :
  splits op s (print level <$> l) -> op = ch "&" \/ op = ch "|" -> (2 <= length l)%nat -> (length s <= fuel)%nat ->
  (forall g fuel, g ∈ l -> (length (print level g) < fuel)%nat -> resolve fuel (print level g) v = Ok (eval v g)) ->
  foldM (fun r it => b ← resolve fuel it v; Ok (bop r b)) acc (print level <$> l) = Ok (foldl bop acc (eval v <$> l)).
Proof.
  intros Hs Hop Hl Hf IH. rewrite (foldM_fmap _ (print level)). apply (foldM_eval _ (fun g => resolve fuel (print level g) v)).
  intros g Hg. apply IH; [done|]. apply splits_parse in Hs; [|done].
  apply singleParse_shorter in Hs; [|rewrite length_fmap; lia]. rewrite Forall_forall in Hs.
  specialize (Hs (print level g) (list_elem_of_fmap_2 _ _ _ Hg)). lia.
Qed.

Lemma resolve_var name fuel : var_ok v name = true -> resolve (S fuel) name v = Ok (eval v (Var name)).
Proof.
  intros Hv. rewrite resolve_atom; [|exact (print_plain 0 (Var name) Hv)|intros; exact (atom_unary _ (Var name) Hv)].
  unfold var_ok in Hv. bool_to_prop. destruct name as [|c name]; [by apply bool_decide_eq_false in H|]. cbn [hd].
  cbn in H3. apply andb_true_iff in H3 as [Hc _].
  destruct (Z.eqb_spec c (ch "!")) as [->|]; [done|]. destruct (Z.eqb_spec c (ch "(")) as [->|]; [done|].
  rewrite H2, H1. apply bool_decide_eq_true in H0 as [b Hb]. cbn [eval]. by rewrite Hb.
Qed.

(** The induction hypothesis on smaller formulas. *)
Definition prints_below (n : nat) : Prop := forall f level fuel, (size f <= n)%nat -> vars_ok v f = true ->
  (length (print level f) < fuel)%nat -> resolve fuel (print level f) v = Ok (eval v f).

Lemma resolve_and n f g fuel : prints_below n -> (size (And f g) <= S n)%nat -> vars_ok v (And f g) = true ->
  (length (print 0 (And f g)) < fuel)%nat -> resolve fuel (print 0 (And f g)) v = Ok (eval v (And f g)).
Proof.
  intros IH Hn Hv Hf. destruct fuel as [|k]; [lia|]. change (print 0 (And f g)) with (print 1 (And f g)) in *.
  assert (2 <= length (conjuncts (And f g)))%nat as Hl.
  { cbn. rewrite length_app. pose proof (disjuncts_nonempty f). pose proof (disjuncts_nonempty g). lia. }
  rewrite (resolve_split _ _ (ch "&") (print 1 <$> conjuncts (And f g)));
    [|by apply print_plain|by left|intros; by apply atom_conjunction|by apply splits_and|by rewrite length_fmap].
  change (ch "&" =? ch "|") with false. cbn iota.
  erewrite (resolve_pieces k 1 _ (ch "&") andb true); [|by apply splits_and|by left|done|lia|]; [by rewrite eval_conjuncts|].
  intros h k' Hh Hk'. apply IH; [|by eapply conjuncts_ok|done]. cbn in Hh.
  apply elem_of_app in Hh as [Hh|Hh]; pose proof (parts_smaller _ _ (or_intror Hh)); cbn in Hn; lia.
Qed.

Lemma resolve_or n f g fuel : prints_below n -> (size (Or f g) <= S n)%nat -> vars_ok v (Or f g) = true ->
  (length (print 0 (Or f g)) < fuel)%nat -> resolve fuel (print 0 (Or f g)) v = Ok (eval v (Or f g)).
Proof.
  intros IH Hn Hv Hf. destruct fuel as [|k]; [lia|].
  assert (2 <= length (disjuncts (Or f g)))%nat as Hl.
  { cbn. rewrite length_app. pose proof (disjuncts_nonempty f). pose proof (disjuncts_nonempty g). lia. }
  rewrite (resolve_split _ _ (ch "|") (print 0 <$> disjuncts (Or f g)));
    [|by apply print_plain|by right|done|by apply splits_or|by rewrite length_fmap].
  change (ch "|" =? ch "|") with true. cbn iota.
  erewrite (resolve_pieces k 0 _ (ch "|") orb false); [|by apply splits_or|by right|done|lia|]; [by rewrite eval_disjuncts|].
  intros h k' Hh Hk'. apply IH; [|by eapply disjuncts_ok|done]. cbn in Hh.
  apply elem_of_app in Hh as [Hh|Hh]; pose proof (parts_smaller _ _ (or_introl Hh)); cbn in Hn; lia.
Qed.

(** A parenthesised formula is evaluated as the formula. *)
Lemma resolve_wrapped f fuel : vars_ok v f = true -> print 2 f = paren true (print 0 f) ->
  (forall fuel, (length (print 0 f) < fuel)%nat -> resolve fuel (print 0 f) v = Ok (eval v f)) ->
  (length (paren true (print 0 f)) < fuel)%nat -> resolve fuel (paren true (print 0 f)) v = Ok (eval v f).
Proof.
  intros Hv Ep H0 Hk. destruct fuel as [|k]; [lia|]. cbn [paren length] in Hk. rewrite length_app in Hk. cbn in Hk.
  rewrite resolve_paren; [apply H0; lia|rewrite <- Ep; by apply print_plain|intros; by apply (atom_paren v)].
Qed.

Lemma resolve_print n : prints_below n.
Proof.
  induction n as [|n IH]; intros f level fuel Hn Hv Hf; [destruct f; cbn in Hn; lia|]. destruct fuel as [|fuel]; [lia|].
  destruct f as [name|b|f|f g|f g].
  - by apply resolve_var.
  - cbn [print]. destruct b; done.
  - rewrite resolve_atom; [|by apply print_plain|intros; exact (atom_unary _ (Neg f) Hv)]. cbn [print hd drop]. rewrite drop_0.
    change (ch "!" =? ch "!") with true. cbn iota. rewrite IH; [done|cbn in Hn; lia|done|cbn in Hf; lia].
  - assert (forall k, (length (print 0 (And f g)) < k)%nat -> resolve k (print 0 (And f g)) v = Ok (eval v (And f g))) as H0.
    { intros k Hk. by apply (resolve_and n). }
    cbn [print] in *. destruct (2 <=? level)%nat; [by apply (resolve_wrapped (And f g))|by apply (H0 (S fuel))].
  - assert (forall k, (length (print 0 (Or f g)) < k)%nat -> resolve k (print 0 (Or f g)) v = Ok (eval v (Or f g))) as H0.
    { intros k Hk. by apply (resolve_or n). }
    cbn [print] in *. destruct (1 <=? level)%nat; [by apply (resolve_wrapped (Or f g))|by apply (H0 (S fuel))].
Qed.

End Printed.

Lemma removeWhitespaces_idem s : removeWhitespaces (removeWhitespaces s) = removeWhitespaces s.
Proof.
  unfold removeWhitespaces. induction s as [|c s IH]; [done|]. cbn. destruct (negb (isspace c)) eqn:E; [|done].
  cbn. by rewrite E, IH.
Qed.

(** C29. The evaluator computes what a text means: for a text that is, up to
    whitespace, the way a formula is written, and an assignment of its
    variables, [resolve] returns the truth value of the formula, with [&]
    binding more tightly than [|]. *)
Theorem resolve_meaning source f v : removeWhitespaces source = print 0 f -> vars_ok v f = true ->
  Resolve source v = Ok (eval v f).
Proof.
  intros Hs Hv. unfold Resolve. pose proof (removeWhitespaces_length source) as Hl.
  rewrite <- (resolve_print v (size f) f 0%nat (S (length source))); [|done|done|rewrite <- Hs; lia].
  rewrite <- Hs. cbn [resolve]. by rewrite removeWhitespaces_idem.
Qed.

(** ** Accepted verifier strings *)

Lemma check_vals (l : list bytes) (vals0 vals : Vals) : foldM (fun (vals : Vals) qualifier =>
    if negb (IsQualifierNameValid (ch "#" :: qualifier)) then Err (VerifierBadName qualifier)
    else Ok (<[qualifier := true]> vals)) vals0 l = Ok vals ->
  dom vals = dom vals0 ∪ (list_to_set l : gset (list Z)) /\ forall q, q ∈ l -> IsQualifierNameValid (ch "#" :: q) = true.
Proof.
  revert vals0. induction l as [|q l IH]; intros vals0; cbn [foldM].
  - intros [= ->]. split; [cbn; by rewrite union_empty_r_L|]. by intros q ?%not_elem_of_nil.
  - destruct (IsQualifierNameValid (ch "#" :: q)) eqn:E; cbn; [|done]. intros [H1 H2]%IH. split.
    + rewrite H1, dom_insert_L. cbn [list_to_set]. by rewrite (union_comm_L {[q]}), union_assoc_L.
    + intros q' [->|?]%elem_of_cons; auto.
Qed.

(** A verifier string that passes [CheckVerifierString] can be evaluated for
    every address: whatever the qualifiers of the address, [resolve] terminates
    with a truth value and throws no exception, and the qualifiers it reads have
    valid names. *)
Theorem accepted_verifier_evaluates (verifier : bytes) (quals : list bytes) (vals : Vals) :
  CheckVerifierString verifier = Ok quals -> dom vals = (list_to_set quals : gset (list Z)) ->
  (verifier = str "true" \/ exists b, Resolve verifier vals = Ok b)
  /\ forall q, q ∈ quals -> IsQualifierNameValid (ch "#" :: q) = true.
Proof.
  unfold CheckVerifierString. intros H Hd. destruct (bytes_eq verifier (str "true")) eqn:Et.
  { injection H as <-. split; [left; by apply bytes_eq_spec|]. by intros q ?%not_elem_of_nil. }
  destruct (bool_decide (verifier = [])); [done|]. destruct (80 <? _)%nat; [done|].
  apply bind_Ok in H as (v & Hv & H). apply check_vals in Hv as [Hdv Hq].
  destruct (Resolve verifier v) as [b|e] eqn:E; [|done]. injection H as <-. split; [right|done].
  pose proof (resolve_dom (S (length verifier)) verifier vals v) as Hok. unfold Resolve in *. rewrite E in Hok.
  destruct (resolve (S (length verifier)) verifier vals) as [c|e]; [by exists c|].
  cbn in Hok. discriminate Hok. by rewrite Hd, Hdv, dom_empty_L, union_empty_l_L.
Qed.

(** Characters before the first name are skipped when the text is split, so a
    text with a stray operator in front of a disjunction is accepted. *)
Lemma stray_operator_accepted :
  CheckVerifierString (str "&AAA|BBB") = Ok [str "AAA"; str "BBB"]
  /\ CheckVerifierString (str "&AAA") = Err (VerifierSyntax (VariableNotFound (str "&AAA"))).
Proof. vm_compute. done. Qed.

Module BoolEE_demo.

Definition text : bytes := str "( KYC & !US ) | STAFF".
Definition form : formula := Or (And (Var (str "KYC")) (Neg (Var (str "US")))) (Var (str "STAFF")).
Definition vals : Vals := <[str "KYC" := true]> (<[str "US" := true]> (<[str "STAFF" := false]> ∅)).

Lemma resolve_meaning_witness :
  removeWhitespaces (str "KYC & !US | STAFF") = print 0 form /\ vars_ok vals form = true
  /\ Resolve (str "KYC & !US | STAFF") vals = Ok false.
Proof.
  split; [vm_compute; reflexivity|]. split; [vm_compute; reflexivity|].
  exact (resolve_meaning (str "KYC & !US | STAFF") form vals eq_refl eq_refl).
Defined.

Definition quals : list bytes := [str "KYC"; str "STAFF"; str "USA"].
Definition usa : Vals := <[str "KYC" := true]> (<[str "USA" := true]> (<[str "STAFF" := false]> ∅)).

Lemma accepted_verifier_evaluates_witness :
  CheckVerifierString (str "(KYC&!USA)|STAFF") = Ok quals /\
  ((str "(KYC&!USA)|STAFF" = str "true" \/ exists b, Resolve (str "(KYC&!USA)|STAFF") usa = Ok b)
   /\ forall q, q ∈ quals -> IsQualifierNameValid (ch "#" :: q) = true).
Proof.
  split; [vm_compute; reflexivity|].
  apply (accepted_verifier_evaluates (str "(KYC&!USA)|STAFF") quals usa); [vm_compute; reflexivity|].
  apply (bool_decide_unpack _). vm_compute. exact I.
Defined.

End BoolEE_demo.
