(* ===== verification/AssetTypes.v ===== *)
(** Asset data (assets/assettypes.h) and the scripts that carry it
    (assets/assets.cpp): the records with their serialization, the scripts that
    are built for them and how they are read back from an output. *)

From S2P Require Import Prelude Serialize Sha256 Script Interpreter Standard AssetNames Base58.
From Stdlib Require Import Ascii.

(** ** Data *)

Record CNewAsset := MkNewAsset {
  a_name : bytes; a_amount : Z; a_units : Z; a_reissuable : Z; a_hasipfs : Z; a_ipfs : bytes;
}.
Record CAssetTransfer := MkTransfer { t_name : bytes; t_amount : Z; t_message : bytes; t_expire : Z }.
Record CReissueAsset := MkReissue {
  r_name : bytes; r_amount : Z; r_units : Z; r_reissuable : Z; r_ipfs : bytes;
}.
Record CNullAssetTxData := MkNullData { d_name : bytes; d_flag : Z }.
Record CNullAssetTxVerifierString := MkVerifier { verifier_string : bytes }.
Record CDatabasedAssetData := MkDatabased { db_asset : CNewAsset; db_height : Z; db_block : uint256 }.

#[export] Instance CNewAsset_eq_dec : EqDecision CNewAsset.
Proof. solve_decision. Defined.

Abbreviation OWNER_ASSET_AMOUNT := 100000000%Z (only parsing).
Abbreviation UNIQUE_ASSET_AMOUNT := 100000000%Z (only parsing).
Abbreviation QUALIFIER_ASSET_MIN_AMOUNT := 100000000%Z (only parsing).
Abbreviation QUALIFIER_ASSET_MAX_AMOUNT := 1000000000%Z (only parsing).
Abbreviation IPFS_SHA2_256 := 0x12%Z (only parsing).
Abbreviation TXID_NOTIFIER := 0x54%Z (only parsing).
Abbreviation IPFS_SHA2_256_LEN := 0x20%Z (only parsing).
Abbreviation MAX_UNIT := 8%Z (only parsing).

(** ** Serialization *)

Definition i8 : Codec Z := signed 1.

(** [ReadWriteAssetHash]: the return value and the hash.  Reading looks at the
    number of bytes left in the stream. *)
Definition read_asset_hash : reader (bool * bytes) := fun s =>
  if negb (bool_decide (s = [])) && (33 <=? length s)%nat then
    (sha2_256 ← de u8;
     hash ← de bytevec;
     mret (true, (if sha2_256 =? IPFS_SHA2_256 then [IPFS_SHA2_256; IPFS_SHA2_256_LEN] else []) ++ take 32 hash)) s
  else Ok ((false, []), s).
Definition write_asset_hash (hash : bytes) : bool * bytes :=
  if (length hash =? 34)%nat then (true, ser u8 IPFS_SHA2_256 ++ ser bytevec (drop 2 hash))
  else if (length hash =? 32)%nat then (true, ser u8 TXID_NOTIFIER ++ ser bytevec hash)
  else (false, []).

Definition c_newasset : Codec CNewAsset := {|
  ser a := ser bytevec a.(a_name) ++ ser i64 a.(a_amount) ++ ser i8 a.(a_units) ++ ser i8 a.(a_reissuable)
           ++ ser i8 a.(a_hasipfs) ++ (if a.(a_hasipfs) =? 1 then (write_asset_hash a.(a_ipfs)).2 else []);
  de := name ← de bytevec; amount ← de i64; units ← de i8; reissuable ← de i8; hasipfs ← de i8;
        ipfs ← (if hasipfs =? 1 then r ← read_asset_hash; mret r.2 else mret []);
        mret (MkNewAsset name amount units reissuable hasipfs ipfs) |}.

(** The expiration time follows a message that was written or read. *)
Definition read_expire (valid : bool) : reader Z := fun s =>
  if valid && (8 <=? length s)%nat then de i64 s else Ok (0, s).
Definition c_transfer : Codec CAssetTransfer := {|
  ser t := ser bytevec t.(t_name) ++ ser i64 t.(t_amount)
           ++ (let '(validIPFS, h) := write_asset_hash t.(t_message) in
               h ++ (if validIPFS && negb (t.(t_expire) =? 0) then ser i64 t.(t_expire) else []));
  de := name ← de bytevec; amount ← de i64; r ← read_asset_hash;
        expire ← read_expire r.1;
        mret (MkTransfer name amount r.2 expire) |}.

Definition c_reissue : Codec CReissueAsset := {|
  ser r := ser bytevec r.(r_name) ++ ser i64 r.(r_amount) ++ ser i8 r.(r_units) ++ ser i8 r.(r_reissuable)
           ++ (write_asset_hash r.(r_ipfs)).2;
  de := name ← de bytevec; amount ← de i64; units ← de i8; reissuable ← de i8; r ← read_asset_hash;
        mret (MkReissue name amount units reissuable r.2) |}.

Definition c_nulldata : Codec CNullAssetTxData :=
  isoc (pairc bytevec i8) (fun '(n, f) => MkNullData n f) (fun d => (d.(d_name), d.(d_flag))).
Definition c_verifier : Codec CNullAssetTxVerifierString := isoc bytevec MkVerifier verifier_string.
Definition c_databased : Codec CDatabasedAssetData :=
  isoc (pairc c_newasset (pairc i32 (blob 32))) (fun '(a, (h, b)) => MkDatabased a h b)
    (fun d => (d.(db_asset), (d.(db_height), d.(db_block)))).

(** ** Scripts *)

Abbreviation OP_DROP := 0x75%Z (only parsing).

(** [script << OP_RVN_ASSET << ToByteVector(vchMessage) << OP_DROP] *)
Definition asset_script (script : CScript) (mark : Z) (data : bytes) : CScript :=
  push_bytes (script ++ [OP_RVN_ASSET]) ([RVN_R; RVN_V; RVN_N; mark] ++ data) ++ [OP_DROP].

Definition ConstructNewAsset (a : CNewAsset) (script : CScript) : CScript := asset_script script RVN_Q (ser c_newasset a).
Definition ConstructOwner (a : CNewAsset) (script : CScript) : CScript :=
  asset_script script RVN_O (ser bytevec (a.(a_name) ++ OWNER_TAG)).
Definition ConstructTransfer (t : CAssetTransfer) (script : CScript) : CScript := asset_script script RVN_T (ser c_transfer t).
Definition ConstructReissue (r : CReissueAsset) (script : CScript) : CScript := asset_script script RVN_R (ser c_reissue r).
Definition ConstructNullData (d : CNullAssetTxData) (script : CScript) : CScript := push_bytes script (ser c_nulldata d).
Definition ConstructGlobalRestriction (d : CNullAssetTxData) (script : CScript) : CScript :=
  push_bytes (script ++ [OP_RVN_ASSET; OP_RESERVED; OP_RESERVED]) (ser c_nulldata d).
Definition ConstructVerifier (v : CNullAssetTxVerifierString) (script : CScript) : CScript :=
  push_bytes (script ++ [OP_RVN_ASSET; OP_RESERVED]) (ser c_verifier v).

(** What issuing costs, and the addresses the cost is paid to ([CChainParams]). *)
Record burn_params := MkBurn {
  nIssueAssetBurnAmount : Z; nReissueAssetBurnAmount : Z; nIssueSubAssetBurnAmount : Z; nIssueUniqueAssetBurnAmount : Z;
  nIssueMsgChannelAssetBurnAmount : Z; nIssueQualifierAssetBurnAmount : Z; nIssueSubQualifierAssetBurnAmount : Z;
  nIssueRestrictedAssetBurnAmount : Z; nAddNullQualifierTagBurnAmount : Z;
  strIssueAssetBurnAddress : bytes; strReissueAssetBurnAddress : bytes; strIssueSubAssetBurnAddress : bytes;
  strIssueUniqueAssetBurnAddress : bytes; strIssueMsgChannelAssetBurnAddress : bytes;
  strIssueQualifierAssetBurnAddress : bytes; strIssueSubQualifierAssetBurnAddress : bytes;
  strIssueRestrictedAssetBurnAddress : bytes; strAddNullQualifierTagBurnAddress : bytes;
}.

(** [CMainParams] *)
Definition MainBurn : burn_params := MkBurn
  (500 * 100000000) (100 * 100000000) (100 * 100000000) (5 * 100000000)
  (100 * 100000000) (1000 * 100000000) (100 * 100000000) (1500 * 100000000) 10000000
  (str "MRA1DeK1yCiJRsPVXAampd2XB5xFwah9f6") (str "MRBUCZXSCMQtwz6Dvk1soyKKwgLLfdgDQ7") (str "MRCXvyv1qjg35CpjC2h9hryMekj1Y9BLyb")
  (str "MRDgGujZL3u4iHybWJje6djaUw4CsqDuhP") (str "MRESYWD5JfxnRGRxHopEwzFckzD8AP3n2t")
  (str "MRFNefMQm2buZ1BQ7qaBJoFRWLGsjKSsoj") (str "MRG6hiRfgnE3jz3HkbMtRaAJm2YJ8iNYd5")
  (str "MRHLry6K16n49cg6SiL6rBwxy678uCQ9or") (str "MRJ565JV1B4TRaUeVDe5b282FpV139tBx6").

(** The activation flags and parameters of the network that asset rules read. *)
Record asset_env := MkAssetEnv {
  e_prefixes : prefixes;
  fAssetsIsActive : bool;          (* AreAssetsDeployed *)
  fRip5IsActive : bool;            (* AreMessagesDeployed, AreRestrictedAssetsDeployed *)
  fTransferScriptIsActive : bool;  (* AreTransferScriptsSizeDeployed *)
  fEnforcedValuesIsActive : bool;  (* AreEnforcedValuesDeployed *)
  fCheckCoinbaseAssetsIsActive : bool; (* AreCoinbaseCheckAssetsDeployed *)
  e_burn : burn_params;
  isTestnet : bool;                (* NetworkIDString() == TESTNET *)
}.

Section FromScript.
Context `{H : Hash256} `{SH : ScriptHash} (env : asset_env).

(** [EncodeDestination] of the destination [ExtractDestination] leaves. *)
Definition script_address (s : CScript) : bytes :=
  default [] (EncodeDestination env.(e_prefixes) (default CNoDestination (ExtractDestination s))).

(** [ssAsset >> object] on the bytes from [start] on; [None] is the exception. *)
Definition read_from {A} (C : Codec A) (s : CScript) (start : nat) : option A :=
  match de C (drop start s) with Ok (a, _) => Some a | Err _ => None end.

Definition IsScriptNewAsset (s : CScript) : bool := asset_kind s (fun t o => (t =? TX_NEW_ASSET) && negb o).
Definition IsScriptOwnerAsset (s : CScript) : bool := asset_kind s (fun t o => (t =? TX_NEW_ASSET) && o).
Definition IsScriptReissueAsset (s : CScript) : bool := asset_kind s (fun t _ => t =? TX_REISSUE_ASSET).
Definition IsScriptTransferAsset (s : CScript) : bool := asset_kind s (fun t _ => t =? TX_TRANSFER_ASSET).
Definition starting_index (s : CScript) : nat := match IsAssetScript3 s with Some (_, _, start) => start | None => O end.

(** The readers: the object and the address, or [None] for the return value false. *)
Definition AssetFromScript (s : CScript) : option (CNewAsset * bytes) :=
  if negb (IsScriptNewAsset s) then None
  else a ← read_from c_newasset s (starting_index s); Some (a, script_address s).

Definition OwnerAssetFromScript (s : CScript) : option (bytes * bytes) :=
  if negb (IsScriptOwnerAsset s) then None
  else name ← read_from bytevec s (starting_index s); Some (name, script_address s).

Definition ReissueAssetFromScript (s : CScript) : option (CReissueAsset * bytes) :=
  if negb (IsScriptReissueAsset s) then None
  else r ← read_from c_reissue s (starting_index s); Some (r, script_address s).

Definition TransferAssetFromScript (s : CScript) : option (CAssetTransfer * bytes) :=
  if negb (IsScriptTransferAsset s) then None
  else
    t ← read_from c_transfer s (if env.(fTransferScriptIsActive) then starting_index s else 31%nat);
    Some (t, script_address s).

(** Issues whose name has a type of its own. *)
Definition IsScriptNewTyped (types : list AssetType) (s : CScript) : bool :=
  match IsAssetScript3 s with
  | None => false
  | Some _ =>
    match AssetFromScript s with
    | None => false
    | Some (asset, _) => match name_type asset.(a_name) with None => false | Some t => existsb (type_is t) types end
    end
  end.
Definition IsScriptNewUniqueAsset : CScript -> bool := IsScriptNewTyped [UNIQUE].
Definition IsScriptNewMsgChannelAsset : CScript -> bool := IsScriptNewTyped [MSGCHANNEL].
Definition IsScriptNewQualifierAsset : CScript -> bool := IsScriptNewTyped [QUALIFIER; SUB_QUALIFIER].
Definition IsScriptNewRestrictedAsset : CScript -> bool := IsScriptNewTyped [RESTRICTED].

Definition typed_asset (test : CScript -> bool) (s : CScript) : option (CNewAsset * bytes) :=
  if negb (test s) then None
  else a ← read_from c_newasset s (starting_index s); Some (a, script_address s).
Definition MsgChannelAssetFromScript := typed_asset IsScriptNewMsgChannelAsset.
Definition QualifierAssetFromScript := typed_asset IsScriptNewQualifierAsset.
Definition RestrictedAssetFromScript := typed_asset IsScriptNewRestrictedAsset.

Definition AssetNullDataFromScript (s : CScript) : option (CNullAssetTxData * bytes) :=
  if negb (IsNullAssetTxDataScript s) then None
  else d ← read_from c_nulldata s 23; Some (d, script_address s).

Definition GlobalAssetNullDataFromScript (s : CScript) : option CNullAssetTxData :=
  if negb (IsNullGlobalRestrictionAssetTxDataScript s) then None else read_from c_nulldata s 4.

Definition AssetNullVerifierDataFromScript (s : CScript) : option CNullAssetTxVerifierString :=
  if negb (IsNullAssetVerifierTxDataScript s) then None else read_from c_verifier s 3.

(** [CAssetOutputEntry]: what [GetAssetData] finds in an output. *)
Record CAssetOutputEntry := MkAssetOutput {
  o_type : Z; o_name : bytes; o_destination : CTxDestination; o_amount : Z; o_message : bytes; o_expire : Z;
}.

Definition GetAssetData (s : CScript) : option CAssetOutputEntry :=
  let dest address := DecodeDestination env.(e_prefixes) address in
  match IsAssetScript3 s with
  | None => None
  | Some (nType, fIsOwner, _) =>
    if (nType =? TX_NEW_ASSET) && negb fIsOwner then
      '(asset, address) ← AssetFromScript s;
      Some (MkAssetOutput TX_NEW_ASSET asset.(a_name) (dest address) asset.(a_amount) [] 0)
    else if nType =? TX_TRANSFER_ASSET then
      '(transfer, address) ← TransferAssetFromScript s;
      Some (MkAssetOutput TX_TRANSFER_ASSET transfer.(t_name) (dest address) transfer.(t_amount)
              transfer.(t_message) transfer.(t_expire))
    else if (nType =? TX_NEW_ASSET) && fIsOwner then
      '(name, address) ← OwnerAssetFromScript s;
      Some (MkAssetOutput TX_NEW_ASSET name (dest address) OWNER_ASSET_AMOUNT [] 0)
    else if nType =? TX_REISSUE_ASSET then
      '(reissue, address) ← ReissueAssetFromScript s;
      Some (MkAssetOutput TX_REISSUE_ASSET reissue.(r_name) (dest address) reissue.(r_amount) [] 0)
    else None
  end.

(** [ParseAssetScript]: the hash of the address, the name and the amount. *)
Definition ParseAssetScript (s : CScript) : option (uint160 * bytes * Z) :=
  match IsAssetScript3 s with
  | None => None
  | Some (nType, fIsOwner, _) =>
    '(name, amount) ←
      (if nType =? TX_NEW_ASSET then
         if fIsOwner then '(name, _) ← OwnerAssetFromScript s; Some (name, OWNER_ASSET_AMOUNT)
         else '(a, _) ← AssetFromScript s; Some (a.(a_name), a.(a_amount))
       else if nType =? TX_REISSUE_ASSET then '(r, _) ← ReissueAssetFromScript s; Some (r.(r_name), r.(r_amount))
       else if nType =? TX_TRANSFER_ASSET then '(t, _) ← TransferAssetFromScript s; Some (t.(t_name), t.(t_amount))
       else None);
    Some (le_val (take 20 (drop 3 s)), name, amount)
  end.

End FromScript.

(** [AmountFromNewAssetScript], [AmountFromTransferScript], [AmountFromReissueScript]
    and [GetAssetAmountFromScript] (script/script.cpp): the amount an asset script carries. *)
Definition AmountFromNewAssetScript (s : CScript) : option Z :=
  if negb (IsScriptNewAsset s) then None else a_amount <$> read_from c_newasset s (starting_index s).
Definition AmountFromTransferScript (s : CScript) : option Z :=
  if negb (IsScriptTransferAsset s) then None else t_amount <$> read_from c_transfer s (starting_index s).
Definition AmountFromReissueScript (s : CScript) : option Z :=
  if negb (IsScriptReissueAsset s) then None else r_amount <$> read_from c_reissue s (starting_index s).
Definition GetAssetAmountFromScript (s : CScript) : option Z :=
  match IsAssetScript3 s with
  | None => None
  | Some (nType, fIsOwner, _) =>
    if (nType =? TX_NEW_ASSET) && negb fIsOwner then AmountFromNewAssetScript s
    else if nType =? TX_TRANSFER_ASSET then AmountFromTransferScript s
    else if (nType =? TX_NEW_ASSET) && fIsOwner then Some OWNER_ASSET_AMOUNT
    else if nType =? TX_REISSUE_ASSET then AmountFromReissueScript s
    else None
  end.

(** ** Reading back what was written *)

(** The hashes that survive: none, a transaction id, or the 34 bytes of an IPFS hash. *)
Definition hash_ok (h : bytes) : bool :=
  all_bytes h && ((length h =? 0)%nat || (length h =? 32)%nat
                  || ((length h =? 34)%nat && bytes_eq (take 2 h) [IPFS_SHA2_256; IPFS_SHA2_256_LEN])).
Definition name_ok (name : bytes) : bool := all_bytes name && (length name <=? 40)%nat.

Definition newasset_ok (a : CNewAsset) : bool :=
  name_ok a.(a_name) && in_s 64 a.(a_amount) && in_s 8 a.(a_units) && in_s 8 a.(a_reissuable)
  && in_s 8 a.(a_hasipfs) && hash_ok a.(a_ipfs) && ((a.(a_hasipfs) =? 1) || is_nil a.(a_ipfs)).
Definition transfer_ok (t : CAssetTransfer) : bool :=
  name_ok t.(t_name) && in_s 64 t.(t_amount) && hash_ok t.(t_message) && in_s 64 t.(t_expire)
  && ((t.(t_expire) =? 0) || negb (is_nil t.(t_message))).
Definition reissue_ok (r : CReissueAsset) : bool :=
  name_ok r.(r_name) && in_s 64 r.(r_amount) && in_s 8 r.(r_units) && in_s 8 r.(r_reissuable) && hash_ok r.(r_ipfs).

#[export] Instance i8_ok : CodecOk i8 (in_s 8) := signed_ok 1 ltac:(lia).

Lemma name_valid n : name_ok n = true -> valid_bytes n = true.
Proof. unfold name_ok, valid_bytes. intros [H1 H2]%andb_true_iff. rewrite H1, andb_true_r. unfold MAX_SIZE. lia. Qed.

Lemma bytevec_length v : (length v < 253)%nat -> length (ser bytevec v) = S (length v).
Proof.
  intros Hv. cbn. unfold Serialize_bytes, WriteCompactSize. replace (_ <? 253) with true by lia. by rewrite length_app.
Qed.

(** The first byte, the 32 bytes and what follows. *)
Lemma hash_read b t rest : in_u 8 b = true -> all_bytes t = true -> length t = 32%nat ->
  read_asset_hash ((ser u8 b ++ ser bytevec t) ++ rest)
  = Ok ((true, (if b =? IPFS_SHA2_256 then [IPFS_SHA2_256; IPFS_SHA2_256_LEN] else []) ++ t), rest).
Proof.
  intros Hb Ht Hl. assert (valid_bytes t = true) as Hv. { unfold valid_bytes. by rewrite Hl, Ht. }
  unfold read_asset_hash. rewrite bool_decide_eq_false_2 by done.
  rewrite !length_app, bytevec_length, Hl by lia. cbn [negb andb Nat.leb Nat.add length ser u8 ser_writedata8 le_bytes].
  rewrite <- app_assoc, (bind_ok _ _ _ _ _ (de_ser (C := u8) _ _ Hb)), (bind_ok _ _ _ _ _ (de_ser _ _ Hv)).
  by rewrite take_ge by lia.
Qed.

Lemma hash_written h rest : hash_ok h = true -> (if is_nil h then (length rest < 33)%nat else True) ->
  let w := write_asset_hash h in
  read_asset_hash (w.2 ++ rest) = Ok ((w.1, h), rest) /\ w.1 = negb (is_nil h) /\ (length w.2 <= 34)%nat.
Proof.
  unfold hash_ok, write_asset_hash. intros [Hb Hh]%andb_true_iff Hr.
  destruct (length h =? 34)%nat eqn:E34; [|destruct (length h =? 32)%nat eqn:E32].
  - apply Nat.eqb_eq in E34. destruct h as [|x [|y t]]; [done..|].
    assert (x = 0x12 /\ y = 0x20) as [-> ->]. { rewrite E34 in Hh. cbn in Hh. rewrite take_0 in Hh. cbn in Hh. lia. }
    cbn [length] in E34. assert (length t = 32%nat) as Ht by lia. cbn in Hb. cbn [drop fst snd]. rewrite drop_0, hash_read by done.
    by rewrite length_app, bytevec_length, Ht by lia.
  - apply Nat.eqb_eq in E32. cbn [fst snd]. rewrite hash_read by done. rewrite length_app, bytevec_length, E32 by lia.
    by destruct h.
  - rewrite !orb_false_r in Hh. destruct h; [|done]. cbn [app fst snd is_nil negb].
    cbn in Hr.
    split_and!; [|done|cbn; lia]. unfold read_asset_hash. by replace (33 <=? length rest)%nat with false by lia; rewrite andb_false_r.
Qed.

(** The end of an asset script, where no hash and no time fit. *)
Lemma newasset_written a : newasset_ok a = true -> de c_newasset (ser c_newasset a ++ [OP_DROP]) = Ok (a, [OP_DROP]).
Proof.
  unfold newasset_ok. rewrite !andb_true_iff. intros ((((((Hn & Ha) & Hu) & Hr) & Hi) & Hh) & Hw).
  cbn [de c_newasset ser]. rewrite <- !app_assoc.
  rewrite (bind_ok _ _ _ _ _ (de_ser _ _ (name_valid _ Hn))), (bind_ok _ _ _ _ _ (de_ser (C := i64) _ _ Ha)).
  rewrite (bind_ok _ _ _ _ _ (de_ser (C := i8) _ _ Hu)), (bind_ok _ _ _ _ _ (de_ser (C := i8) _ _ Hr)),
    (bind_ok _ _ _ _ _ (de_ser (C := i8) _ _ Hi)).
  destruct (hash_written (a_ipfs a) [OP_DROP] Hh) as (E & _); [by destruct (is_nil _); cbn; lia|].
  destruct a as [n am u r i h]; cbn [a_name a_amount a_units a_reissuable a_hasipfs a_ipfs] in *.
  destruct (i =? 1) eqn:E1.
  - by rewrite (bind_ok _ _ _ _ [OP_DROP] (bind_ok _ _ _ _ _ E)).
  - cbn in Hw. destruct h; [done|done].
Qed.

Lemma reissue_written r : reissue_ok r = true -> de c_reissue (ser c_reissue r ++ [OP_DROP]) = Ok (r, [OP_DROP]).
Proof.
  unfold reissue_ok. rewrite !andb_true_iff. intros ((((Hn & Ha) & Hu) & Hr) & Hh).
  cbn [de c_reissue ser]. rewrite <- !app_assoc.
  rewrite (bind_ok _ _ _ _ _ (de_ser _ _ (name_valid _ Hn))), (bind_ok _ _ _ _ _ (de_ser (C := i64) _ _ Ha)).
  rewrite (bind_ok _ _ _ _ _ (de_ser (C := i8) _ _ Hu)), (bind_ok _ _ _ _ _ (de_ser (C := i8) _ _ Hr)).
  destruct (hash_written (r_ipfs r) [OP_DROP] Hh) as (E & _); [by destruct (is_nil _); cbn; lia|].
  rewrite (bind_ok _ _ _ _ _ E). by destruct r.
Qed.

Lemma transfer_written t : transfer_ok t = true -> de c_transfer (ser c_transfer t ++ [OP_DROP]) = Ok (t, [OP_DROP]).
Proof.
  unfold transfer_ok. rewrite !andb_true_iff. intros ((((Hn & Ha) & Hh) & Ht) & He).
  cbn [de c_transfer ser]. rewrite <- !app_assoc.
  rewrite (bind_ok _ _ _ _ _ (de_ser _ _ (name_valid _ Hn))), (bind_ok _ _ _ _ _ (de_ser (C := i64) _ _ Ha)).
  set (w := if negb (is_nil (t_message t)) && negb (t_expire t =? 0) then ser i64 (t_expire t) else []).
  destruct (hash_written (t_message t) (w ++ [OP_DROP]) Hh) as (E & Ew & _).
  { subst w. destruct (is_nil (t_message t)); [|done]. cbn. lia. }
  destruct (write_asset_hash (t_message t)) as [v h']. cbn [fst snd] in *. subst v. fold w.
  rewrite <- app_assoc, (bind_ok _ _ _ _ _ E). cbn [fst snd]. subst w. unfold read_expire.
  destruct t as [n am m ex]; cbn [t_name t_amount t_message t_expire] in *. destruct (is_nil m) eqn:Em; cbn [negb andb].
  - rewrite orb_false_r in He. apply Z.eqb_eq in He as ->. done.
  - destruct (ex =? 0) eqn:E0; [apply Z.eqb_eq in E0 as ->; done|]. cbn [negb].
    unfold mbind, reader_bind. rewrite length_app. replace (8 <=? _)%nat with true by done.
    by rewrite (de_ser (C := i64) _ _ Ht).
Qed.

Lemma owner_written n : name_ok n = true -> de bytevec (ser bytevec (n ++ OWNER_TAG) ++ [OP_DROP]) = Ok (n ++ OWNER_TAG, [OP_DROP]).
Proof.
  intros H. apply de_ser. unfold name_ok, valid_bytes in *. apply andb_true_iff in H as [H1 H2].
  rewrite all_bytes_app, H1, length_app. change (length OWNER_TAG) with 1%nat. change (all_bytes OWNER_TAG) with true.
  unfold MAX_SIZE. lia.
Qed.

(** An asset script that extends a pay-to-pubkey-hash script: the payload has
    the size of what the source writes, which a length byte cannot mistake for a mark. *)
Definition pay_to (h : bytes) : CScript := GetScriptForDestination (CKeyID h).

Lemma pay_to_shape h : length h = 20%nat -> pay_to h = [OP_DUP; OP_HASH160; 20] ++ h ++ [OP_EQUALVERIFY; OP_CHECKSIG]
  /\ length (pay_to h) = 25%nat.
Proof. intros Hh. unfold pay_to, GetScriptForDestination. rewrite push_bytes_short, !length_app by lia. cbn [length]. rewrite Hh. split; [by rewrite <- !app_assoc|]. cbn. lia. Qed.

Definition data_index (data : bytes) : nat := if (length data <=? 71)%nat then 30 else 31.

Lemma asset_script_shape h mark data : length h = 20%nat -> (length data <= 100)%nat ->
  let s := asset_script (pay_to h) mark data in
  IsAssetScript3 s = asset_script_at s (data_index data) /\ at_ s (data_index data) = mark /\
  drop (data_index data + 1) s = data ++ [OP_DROP] /\ (length s >= 32 + length data)%nat /\ take 20 (drop 3 s) = h
  /\ IsPayToScriptHash s = false.
Proof.
  intros Hh Hd s. destruct (pay_to_shape h Hh) as [Ep Hp].
  assert (s = [OP_DUP; OP_HASH160; 20] ++ h ++ [OP_EQUALVERIFY; OP_CHECKSIG; OP_RVN_ASSET]
              ++ (if (length data <=? 71)%nat then [4 + Z.of_nat (length data)]
                  else [OP_PUSHDATA1; 4 + Z.of_nat (length data)]) ++ [RVN_R; RVN_V; RVN_N; mark] ++ data ++ [OP_DROP]) as Es.
  { subst s. unfold asset_script, push_bytes. rewrite Ep, <- !app_assoc. cbn [length app].
    replace (_ <? 0x4c) with (length data <=? 71)%nat by lia. destruct (length data <=? 71)%nat.
    - repeat f_equal. lia.
    - replace (_ <=? 0xff) with true by lia. cbn [app]. repeat f_equal; lia. }
  clearbody s. subst s.
  destruct h as [|h0 [|h1 [|h2 [|h3 [|h4 [|h5 [|h6 [|h7 [|h8 [|h9 [|h10 [|h11 [|h12 [|h13 [|h14 [|h15 [|h16 [|h17 [|h18 [|h19 [|]]]]]]]]]]]]]]]]]]]]]; try done.
  unfold data_index. destruct (length data <=? 71)%nat eqn:E.
  - split_and!; try done; [|cbn; rewrite length_app; cbn; lia].
    unfold IsAssetScript3. replace (31 <? _)%nat with true by (symmetry; apply Nat.ltb_lt; cbn; rewrite length_app; cbn; lia). done.
  - split_and!; try done; [|cbn; rewrite length_app; cbn; lia].
    unfold IsAssetScript3. replace (31 <? _)%nat with true by (symmetry; apply Nat.ltb_lt; cbn; rewrite length_app; cbn; lia).
    cbn -[asset_script_at at_]. change (at_ _ 27) with (4 + Z.of_nat (length data)).
    by replace (4 + Z.of_nat (length data) =? RVN_R) with false by lia.
Qed.

Lemma payload_sizes :
  (forall a, newasset_ok a = true -> (8 <= length (ser c_newasset a) <= 100)%nat) /\
  (forall n, name_ok n = true -> (length (ser bytevec (n ++ OWNER_TAG)) <= 100)%nat) /\
  (forall t, transfer_ok t = true -> (length (ser c_transfer t) <= 100)%nat) /\
  (forall r, reissue_ok r = true -> (length (ser c_reissue r) <= 100)%nat).
Proof.
  assert (forall n, name_ok n = true -> (length (ser bytevec n) <= 41)%nat) as Hname.
  { intros n [_ H]%andb_true_iff. rewrite bytevec_length; lia. }
  assert (forall h, hash_ok h = true -> (length (write_asset_hash h).2 <= 34)%nat) as Hhash.
  { intros h H. destruct (hash_written h [] H) as (_ & _ & L); [by destruct (is_nil h); cbn; lia|done]. }
  split_and!.
  - unfold newasset_ok. intros a. rewrite !andb_true_iff. intros ((((((Hn & _) & _) & _) & _) & Hh) & _).
    apply Hname in Hn. apply Hhash in Hh. cbn [ser c_newasset]. rewrite !length_app.
    assert (length (ser i64 (a_amount a)) = 8%nat) by apply length_le_bytes. destruct (a_hasipfs a =? 1); cbn in *; lia.
  - intros n [_ H]%andb_true_iff. assert (length (n ++ OWNER_TAG) <= 41)%nat by (rewrite length_app; cbn; lia).
    rewrite bytevec_length; lia.
  - unfold transfer_ok. intros t. rewrite !andb_true_iff. intros ((((Hn & _) & Hh) & _) & _).
    apply Hname in Hn. apply Hhash in Hh. cbn [ser c_transfer]. destruct (write_asset_hash (t_message t)) as [v w].
    rewrite !length_app. assert (forall x, length (ser i64 x) = 8%nat) as Hl by (intros; apply length_le_bytes).
    rewrite Hl. cbn [snd] in *. case_match; rewrite ?Hl; cbn [length] in *; lia.
  - unfold reissue_ok. intros r. rewrite !andb_true_iff. intros ((((Hn & _) & _) & _) & Hh).
    apply Hname in Hn. apply Hhash in Hh. cbn [ser c_reissue]. rewrite !length_app.
    assert (length (ser i64 (r_amount r)) = 8%nat) by apply length_le_bytes. cbn in *; lia.
Qed.

Section ReadBack.
Context `{H : Hash256} `{SH : ScriptHash} (env : asset_env).

Lemma asset_script_read {A} (C : Codec A) (v : A) h mark data ty owner :
  length h = 20%nat -> (length data <= 100)%nat -> de C (data ++ [OP_DROP]) = Ok (v, [OP_DROP]) ->
  ty = TX_NEW_ASSET \/ ty = TX_REISSUE_ASSET \/ ty = TX_TRANSFER_ASSET ->
  let s := asset_script (pay_to h) mark data in
  asset_script_at s (data_index data) = Some (ty, owner, (data_index data + 1)%nat) ->
  IsAssetScript3 s = Some (ty, owner, (data_index data + 1)%nat) /\
  read_from C s (data_index data + 1) = Some v /\
  ExtractDestination s = Some (CKeyID h).
Proof.
  intros Hh Hd E Ht s Es. destruct (asset_script_shape h mark data Hh Hd) as (E3 & _ & Edrop & _ & Etake & Ep).
  fold s in E3, Edrop, Etake, Ep. rewrite E3, Es. split; [done|]. unfold read_from. rewrite Edrop, E. split; [done|].
  unfold ExtractDestination, Solver. rewrite Ep, E3, Es. cbn [found typeRet vSolutionsRet negb hd]. rewrite Etake.
  by destruct Ht as [->|[->| ->]].
Qed.

Abbreviation address_to h := (default [] (EncodeDestination env.(e_prefixes) (CKeyID h))).

Lemma newasset_read_back h a : length h = 20%nat -> newasset_ok a = true ->
  AssetFromScript env (ConstructNewAsset a (pay_to h))
  = Some (a, address_to h).
Proof.
  intros Hh Ha. destruct payload_sizes as (L & _). specialize (L a Ha). unfold ConstructNewAsset.
  unfold AssetFromScript, IsScriptNewAsset, asset_kind, script_address, starting_index.
  destruct (asset_script_shape h RVN_Q _ Hh (proj2 L)) as (_ & Em & _ & Es & _ & _).
  destruct (asset_script_read _ _ h RVN_Q _ TX_NEW_ASSET false Hh (proj2 L) (newasset_written a Ha)) as (E3 & Er & Ed);
    [by auto| |by rewrite E3, Er, Ed].
  unfold asset_script_at. rewrite Em. by replace (39 <? _)%nat with true by lia.
Qed.

Lemma owner_read_back h a : length h = 20%nat -> name_ok a.(a_name) = true ->
  OwnerAssetFromScript env (ConstructOwner a (pay_to h)) = Some (a.(a_name) ++ OWNER_TAG, address_to h).
Proof.
  intros Hh Ha. destruct payload_sizes as (_ & L & _). specialize (L _ Ha). unfold ConstructOwner.
  unfold OwnerAssetFromScript, IsScriptOwnerAsset, asset_kind, script_address, starting_index.
  destruct (asset_script_shape h RVN_O _ Hh L) as (_ & Em & _).
  destruct (asset_script_read _ _ h RVN_O _ TX_NEW_ASSET true Hh L (owner_written _ Ha)) as (E3 & Er & Ed);
    [by auto| |by rewrite E3, Er, Ed].
  unfold asset_script_at. by rewrite Em.
Qed.

Lemma reissue_read_back h r : length h = 20%nat -> reissue_ok r = true ->
  ReissueAssetFromScript env (ConstructReissue r (pay_to h)) = Some (r, address_to h).
Proof.
  intros Hh Hr. destruct payload_sizes as (_ & _ & _ & L). specialize (L _ Hr). unfold ConstructReissue.
  unfold ReissueAssetFromScript, IsScriptReissueAsset, asset_kind, script_address, starting_index.
  destruct (asset_script_shape h RVN_R _ Hh L) as (_ & Em & _).
  destruct (asset_script_read _ _ h RVN_R _ TX_REISSUE_ASSET false Hh L (reissue_written _ Hr)) as (E3 & Er & Ed);
    [by auto| |by rewrite E3, Er, Ed].
  unfold asset_script_at. by rewrite Em.
Qed.

(** Before the activation of large transfer scripts the data is looked for where
    a short push ends. *)
Lemma transfer_read_back h t : length h = 20%nat -> transfer_ok t = true ->
  env.(fTransferScriptIsActive) || (length (ser c_transfer t) <=? 71)%nat = true ->
  TransferAssetFromScript env (ConstructTransfer t (pay_to h)) = Some (t, address_to h) /\
  ParseAssetScript env (ConstructTransfer t (pay_to h)) = Some (le_val h, t.(t_name), t.(t_amount)).
Proof.
  intros Hh Ht Hs. destruct payload_sizes as (_ & _ & L & _). specialize (L _ Ht). unfold ConstructTransfer.
  destruct (asset_script_shape h RVN_T _ Hh L) as (_ & Em & _ & _ & E20 & _).
  destruct (asset_script_read _ _ h RVN_T _ TX_TRANSFER_ASSET false Hh L (transfer_written _ Ht)) as (E3 & Er & Ed);
    [by auto|unfold asset_script_at; by rewrite Em|].
  assert (TransferAssetFromScript env (asset_script (pay_to h) RVN_T (ser c_transfer t)) = Some (t, address_to h)) as E.
  { unfold TransferAssetFromScript, IsScriptTransferAsset, asset_kind, script_address, starting_index.
    rewrite E3, Ed. replace (if fTransferScriptIsActive env then _ else _) with (data_index (ser c_transfer t) + 1)%nat.
    - by rewrite Er.
    - unfold data_index. destruct (fTransferScriptIsActive env); [done|]. cbn [orb] in Hs. by rewrite Hs. }
  split; [done|]. unfold ParseAssetScript. by rewrite E3, E, E20.
Qed.


End ReadBack.
