(* ===== verification/Merkle.v ===== *)
(** consensus/merkle.cpp: the constant-space computation of a Merkle root, of the
    mutation flag and of a branch, the verification of a branch, and the roots of
    a block; with the recursive tree they compute and what a root commits to. *)

From S2P Require Import Prelude Serialize Sha256 Primitives.

(** ** consensus/merkle.cpp *)

Section Merkle.
Context `{HS : Hash256}.

(** [CHash256().Write(a).Write(b).Finalize] and [Hash] of two ranges. *)
Definition Hash2 (a b : uint256) : uint256 := hash256 (ser (blob 32) a ++ ser (blob 32) b).

(** [count & (((uint32_t)1) << level)] *)
Definition bit_set (count : Z) (level : nat) : bool :=
  negb (Z.land count (wrapu 32 (Z.shiftl 1 (Z.of_nat level))) =? 0).

(** The variables of one climb: the level, the hash, whether it depends on the
    matching leaf, the mutation flag and the branch. *)
Record climb := MkClimb { c_level : nat; c_h : uint256; c_matchh : bool; c_mutated : bool; c_branch : list uint256 }.

(** What a step pushes on the branch, and the new [matchh]. *)
Definition push_branch (pbranch : bool) (inner : list uint256) (matchlevel : Z) (c : climb) : bool * list uint256 :=
  if pbranch then
    if c.(c_matchh) then (true, c.(c_branch) ++ [inner !!! c.(c_level)])
    else if matchlevel =? Z.of_nat c.(c_level) then (true, c.(c_branch) ++ [c.(c_h)])
    else (false, c.(c_branch))
  else (c.(c_matchh), c.(c_branch)).

(** [for (level = 0; !(count & (((uint32_t)1) << level)); level++)] *)
Fixpoint add_leaf (fuel : nat) (pbranch : bool) (count : Z) (inner : list uint256) (matchlevel : Z) (c : climb) : climb :=
  match fuel with
  | O => c
  | S fuel' =>
    if bit_set count c.(c_level) then c
    else
      let '(matchh, branch) := push_branch pbranch inner matchlevel c in
      let i := inner !!! c.(c_level) in
      add_leaf fuel' pbranch count inner matchlevel
        (MkClimb (S c.(c_level)) (Hash2 i c.(c_h)) matchh (c.(c_mutated) || (i =? c.(c_h))) branch)
  end.

(** The state of the loop over the leaves. *)
Record mstate := MkMState { m_count : Z; m_inner : list uint256; m_matchlevel : Z; m_mutated : bool; m_branch : list uint256 }.

Definition process_leaf (pbranch : bool) (branchpos : Z) (st : mstate) (leaf : uint256) : mstate :=
  let matchh := st.(m_count) =? branchpos in
  let count := wrapu 32 (st.(m_count) + 1) in
  let c := add_leaf 32 pbranch count st.(m_inner) st.(m_matchlevel)
             (MkClimb 0 leaf matchh st.(m_mutated) st.(m_branch)) in
  MkMState count (<[c.(c_level) := c.(c_h)]> st.(m_inner))
    (if c.(c_matchh) then Z.of_nat c.(c_level) else st.(m_matchlevel)) c.(c_mutated) c.(c_branch).

Definition process_leaves (pbranch : bool) (branchpos : Z) (leaves : list uint256) : mstate :=
  foldl (process_leaf pbranch branchpos) (MkMState 0 (replicate 32 0) (-1) false []) leaves.

(** [while (!(count & (((uint32_t)1) << level))) level++;] *)
Fixpoint skip_levels (fuel : nat) (count : Z) (level : nat) : nat :=
  match fuel with
  | O => level
  | S fuel' => if bit_set count level then level else skip_levels fuel' count (S level)
  end.

(** The inner loop of the sweep. *)
Fixpoint propagate (fuel : nat) (pbranch : bool) (count : Z) (inner : list uint256) (matchlevel : Z) (c : climb) : climb :=
  match fuel with
  | O => c
  | S fuel' =>
    if bit_set count c.(c_level) then c
    else
      let '(matchh, branch) := push_branch pbranch inner matchlevel c in
      propagate fuel' pbranch count inner matchlevel
        (MkClimb (S c.(c_level)) (Hash2 (inner !!! c.(c_level)) c.(c_h)) matchh c.(c_mutated) branch)
  end.

(** [while (count != (((uint32_t)1) << level))] *)
Fixpoint sweep (fuel : nat) (pbranch : bool) (count : Z) (inner : list uint256) (matchlevel : Z) (c : climb) : climb :=
  match fuel with
  | O => c
  | S fuel' =>
    let bit := wrapu 32 (Z.shiftl 1 (Z.of_nat c.(c_level))) in
    if count =? bit then c
    else
      let branch := if pbranch && c.(c_matchh) then c.(c_branch) ++ [c.(c_h)] else c.(c_branch) in
      let count := wrapu 32 (count + bit) in
      let c := MkClimb (S c.(c_level)) (Hash2 c.(c_h) c.(c_h)) c.(c_matchh) c.(c_mutated) branch in
      sweep fuel' pbranch count inner matchlevel (propagate 32 pbranch count inner matchlevel c)
  end.

(** The root, the mutation flag and the branch. *)
Definition MerkleComputation (leaves : list uint256) (branchpos : Z) (pbranch : bool) : uint256 * bool * list uint256 :=
  match leaves with
  | [] => (0, false, [])
  | _ =>
    let st := process_leaves pbranch branchpos leaves in
    let level := skip_levels 32 st.(m_count) 0 in
    let c := sweep 32 pbranch st.(m_count) st.(m_inner) st.(m_matchlevel)
               (MkClimb level (st.(m_inner) !!! level) (st.(m_matchlevel) =? Z.of_nat level) st.(m_mutated) st.(m_branch)) in
    (c.(c_h), c.(c_mutated), c.(c_branch))
  end.

(** [-1] as a [uint32_t] is the position of no leaf. *)
Definition ComputeMerkleRoot (leaves : list uint256) : uint256 * bool :=
  (MerkleComputation leaves (2 ^ 32 - 1) false).1.

Definition ComputeMerkleBranch (leaves : list uint256) (position : Z) : list uint256 :=
  (MerkleComputation leaves position true).2.

Fixpoint ComputeMerkleRootFromBranch (leaf : uint256) (vMerkleBranch : list uint256) (nIndex : Z) : uint256 :=
  match vMerkleBranch with
  | [] => leaf
  | it :: rest =>
    let hash := if negb (Z.land nIndex 1 =? 0) then Hash2 it leaf else Hash2 leaf it in
    ComputeMerkleRootFromBranch hash rest (Z.shiftr nIndex 1)
  end.

(** ** The tree *)

(** The root of the tree with [k] levels over at most [2 ^ k] leaves: a subtree
    without a right half is hashed with itself. *)
Fixpoint tree (k : nat) (l : list uint256) : uint256 :=
  match k with
  | O => hd 0 l
  | S k' =>
    if (length l <=? 2 ^ k')%nat then Hash2 (tree k' l) (tree k' l)
    else Hash2 (tree k' (take (2 ^ k') l)) (tree k' (drop (2 ^ k') l))
  end.

(** Two equal complete halves of a subtree. *)
Fixpoint dup (k : nat) (l : list uint256) : bool :=
  match k with
  | O => false
  | S k' =>
    if (length l <=? 2 ^ k')%nat then dup k' l
    else
      let a := take (2 ^ k') l in
      let b := drop (2 ^ k') l in
      dup k' a || dup k' b || ((length b =? 2 ^ k')%nat && (tree k' a =? tree k' b))
  end.

(** The siblings of the path from the leaf [i] to the root. *)
Fixpoint path (k : nat) (l : list uint256) (i : nat) : list uint256 :=
  match k with
  | O => []
  | S k' =>
    let a := take (2 ^ k') l in
    let b := drop (2 ^ k') l in
    if (length l <=? 2 ^ k')%nat then path k' l i ++ [tree k' l]
    else if (i <? 2 ^ k')%nat then path k' a i ++ [tree k' b]
    else path k' b (i - 2 ^ k') ++ [tree k' a]
  end.

(** The number of levels above the leaves. *)
Definition depth (l : list uint256) : nat := Nat.log2_up (length l).

Lemma tree_short k l : (length l <= 2 ^ k)%nat ->
  tree (S k) l = Hash2 (tree k l) (tree k l) /\ dup (S k) l = dup k l /\
  forall i, path (S k) l i = path k l i ++ [tree k l].
Proof. intros H. cbn [tree dup path]. by replace (length l <=? 2 ^ k)%nat with true by lia. Qed.

Lemma tree_split k a b : (length a = 2 ^ k)%nat -> b <> [] ->
  tree (S k) (a ++ b) = Hash2 (tree k a) (tree k b) /\
  dup (S k) (a ++ b) = dup k a || dup k b || ((length b =? 2 ^ k)%nat && (tree k a =? tree k b)) /\
  (forall i, (i < length a)%nat -> path (S k) (a ++ b) i = path k a i ++ [tree k b]) /\
  (forall i, (length a <= i)%nat -> path (S k) (a ++ b) i = path k b (i - length a) ++ [tree k a]).
Proof.
  intros Ha Hb. cbn [tree dup path]. rewrite <- Ha, take_app_length, drop_app_length, length_app.
  destruct b as [|x b]; [done|]. replace (_ <=? length a)%nat with false by (cbn; lia).
  split_and!; [done|done|intros i Hi..].
  - by replace (i <? length a)%nat with true by lia.
  - by replace (i <? length a)%nat with false by lia.
Qed.

End Merkle.

(** ** The computation follows the tree *)

(** The subtrees that are complete after [v * 2 ^ j] leaves, from the level [j]
    up: the bits of [v] say which entries of [inner] are in use. *)
Fixpoint forest (n : nat) (v : Z) (inner : list uint256) : list (option uint256) :=
  match n with
  | O => []
  | S n' => (if Z.odd v then Some (hd 0 inner) else None) :: forest n' (v / 2) (tl inner)
  end.

Lemma bit_set_odd j v : 0 <= v -> (j < 32)%nat -> bit_set (2 ^ Z.of_nat j * v) j = Z.odd v.
Proof.
  intros Hv Hj. unfold bit_set. rewrite Z.shiftl_1_l.
  assert (0 < 2 ^ Z.of_nat j < 2 ^ 32) by (split; [lia|apply Z.pow_lt_mono_r; lia]).
  rewrite wrapu_id by (cbn [Z.of_nat] in *; lia).
  assert (Z.testbit (2 ^ Z.of_nat j * v) (Z.of_nat j) = Z.odd v) as E.
  { rewrite Z.mul_comm, <- Z.shiftl_mul_pow2, Z.shiftl_spec, Z.sub_diag, Z.bit0_odd by lia. done. }
  rewrite <- E. apply land_pow2_testbit. lia.
Qed.

Section Follows.
Context `{HS : Hash256} (pb : bool) (i : nat).

(** The position of the match among [p ++ s], the last [length s] of which have
    the level [j]: with the first part, in the second, or not seen yet. *)
Definition tracked (np j : nat) (s : list uint256) (ml' : Z) (br' : list uint256) (ml : Z) (br : list uint256) : Prop :=
  pb = true ->
  if (i <? np)%nat then ml = ml' /\ br = br'
  else if (i <? np + length s)%nat then ml = Z.of_nat j /\ br = path j s (i - np)
  else ml = -1 /\ br = [].

(** [f] has the roots of the parts of [p], [d] says whether one of them has equal
    halves, [ml] and [br] are the level and the branch of the match. *)
Fixpoint repr (j : nat) (f : list (option uint256)) (p : list uint256) (d : bool) (ml : Z) (br : list uint256) : Prop :=
  match f with
  | [] => p = [] /\ d = false /\ (pb = true -> ml = -1 /\ br = [])
  | None :: f' => repr (S j) f' p d ml br
  | Some x :: f' => exists p' s d' ml' br', p = p' ++ s /\ length s = (2 ^ j)%nat /\ x = tree j s /\
      repr (S j) f' p' d' ml' br' /\ d = d' || dup j s /\ tracked (length p') j s ml' br' ml br
  end.

(** The climb with [s] in hand after [p]. *)
Definition climbs (j : nat) (p s : list uint256) (d : bool) (mlf : Z) (brf : list uint256) (ml : Z) (c : climb) : Prop :=
  c.(c_level) = j /\ c.(c_h) = tree j s /\ c.(c_mutated) = d || dup j s /\
  (pb = true ->
   if (i <? length p)%nat then c.(c_matchh) = false /\ c.(c_branch) = brf /\ ml = mlf
   else if (i <? length p + length s)%nat then c.(c_matchh) = true /\ c.(c_branch) = path j s (i - length p)
   else c.(c_matchh) = false /\ c.(c_branch) = [] /\ ml = -1).

Lemma repr_level j f p d ml br : pb = true -> repr j f p d ml br ->
  if (i <? length p)%nat then Z.of_nat j <= ml else ml = -1 /\ br = [].
Proof.
  intros Hpb. revert j p d ml br. induction f as [|[x|] f IH]; intros j p d ml br; cbn [repr].
  - intros (-> & _ & H). cbn. auto.
  - intros (p' & s & d' & ml' & br' & -> & Hs & _ & Hr & _ & Ht). apply IH in Hr. specialize (Ht Hpb).
    rewrite length_app. destruct (Nat.ltb_spec i (length p')).
    + destruct Ht as [-> ->]. replace (_ <? _)%nat with true by lia. lia.
    + destruct (Nat.ltb_spec i (length p' + length s)); [lia|done].
  - intros H. apply IH in H. destruct (i <? length p)%nat; [lia|done].
Qed.

Lemma repr_zero n j inner p d ml br : repr j (forest n 0 inner) p d ml br -> p = [] /\ d = false.
Proof.
  revert j inner p. induction n as [|n IH]; intros j inner p; cbn [forest repr]; [by intros (-> & -> & _)|].
  cbn. apply IH.
Qed.

Lemma repr_pos n v j inner p d ml br : 0 < v < 2 ^ Z.of_nat n -> repr j (forest n v inner) p d ml br -> p <> [].
Proof.
  revert v j inner p d ml br. induction n as [|n IH]; intros v j inner p d ml br Hv; [cbn in Hv; lia|].
  cbn [forest]. destruct (Z.odd v) eqn:Eo; cbn [repr].
  - intros (p' & s & d' & ml' & br' & -> & Hs & _). intros [_ ->]%app_nil. cbn in Hs.
    pose proof (Nat.pow_nonzero 2 j). lia.
  - apply IH. rewrite Nat2Z.inj_succ, Z.pow_succ_r in Hv by lia.
    pose proof (Zdiv2_odd_eqn v) as E. rewrite Eo, Zdiv2_div in E. lia.
Qed.

(** Joining the subtree [s0] of the forest with the one in hand. *)
Lemma climbs_join j f p s0 s d mlf brf mlf' brf' ml c inner mut :
  length s0 = (2 ^ j)%nat -> s <> [] -> inner !!! j = tree j s0 -> repr (S j) f p d mlf' brf' ->
  tracked (length p) j s0 mlf' brf' mlf brf -> climbs j (p ++ s0) s (d || dup j s0) mlf brf ml c ->
  mut = d || dup (S j) (s0 ++ s) ->
  let r := push_branch pb inner ml c in
  climbs (S j) p (s0 ++ s) d mlf' brf' ml (MkClimb (S j) (Hash2 (inner !!! j) c.(c_h)) r.1 mut r.2).
Proof.
  intros Hs0 Hs Hi Hr Ht (Hl & Hh & _ & Hc) ->. destruct (tree_split j s0 s Hs0 Hs) as (Et & _ & Ea & Eb).
  unfold climbs. cbn [c_level c_h c_mutated c_matchh c_branch]. split_and!; [done|by rewrite Hi, Hh|done|].
  intros Hpb. specialize (Ht Hpb). specialize (Hc Hpb). pose proof (repr_level _ _ _ _ _ _ Hpb Hr) as Hb.
  unfold push_branch. rewrite Hpb, Hl. rewrite length_app in Hc. rewrite length_app.
  destruct (Nat.ltb_spec i (length p)).
  { replace (i <? _)%nat with true in Hc by lia. destruct Hc as (-> & -> & ->), Ht as [-> ->].
    by replace (_ =? _) with false by lia. }
  destruct (Nat.ltb_spec i (length p + length s0)).
  { destruct Hc as (-> & -> & ->), Ht as [-> ->]. rewrite Z.eqb_refl. replace (i <? _)%nat with true by lia.
    cbn [fst snd]. by rewrite Ea, Hh by lia. }
  rewrite <- Nat.add_assoc in Hc. destruct (i <? _)%nat eqn:E.
  { destruct Hc as (-> & ->). cbn [fst snd]. split; [done|]. rewrite Eb by lia. by rewrite Hi, Nat.sub_add_distr. }
  destruct Hc as (-> & -> & ->). by replace (-1 =? _) with false by lia.
Qed.

Lemma hd_drop (l : list uint256) j : (j < length l)%nat -> hd 0 (drop j l) = l !!! j.
Proof.
  revert j. induction l as [|a l IH]; intros j Hj; [cbn in Hj; lia|].
  destruct j as [|j]; [done|]. apply IH. cbn in Hj. lia.
Qed.

Lemma tl_drop {A} (l : list A) j : tl (drop j l) = drop (S j) l.
Proof. revert j. induction l as [|a l IH]; intros [|j]; try done. apply IH. Qed.

(** Adding a subtree [s] of the level [j] to the forest. *)
Lemma add_leaf_repr fuel : forall j v inner p s d mlf brf ml c,
  (fuel + j = 32)%nat -> length inner = 32%nat -> 0 <= v -> v + 1 < 2 ^ Z.of_nat fuel ->
  repr j (forest fuel v (drop j inner)) p d mlf brf -> length s = (2 ^ j)%nat -> climbs j p s d mlf brf ml c ->
  let c' := add_leaf fuel pb (2 ^ Z.of_nat j * (v + 1)) inner ml c in
  (c'.(c_level) < 32)%nat /\ (j <= c'.(c_level))%nat /\
  repr j (forest fuel (v + 1) (drop j (<[c'.(c_level) := c'.(c_h)]> inner))) (p ++ s) c'.(c_mutated)
    (if c'.(c_matchh) then Z.of_nat c'.(c_level) else ml) c'.(c_branch).
Proof.
  induction fuel as [|fuel IH]; intros j v inner p s d mlf brf ml c Hf Hin Hv Hv1 Hr Hs Hc; [cbn in Hv1; lia|].
  pose proof Hc as (Hl & Hh & Hm & Hct). cbn [add_leaf]. rewrite Hl, bit_set_odd by lia.
  assert (s <> []) as Hne. { intros ->. cbn in Hs. pose proof (Nat.pow_nonzero 2 j). lia. }
  cbn [forest] in Hr. rewrite hd_drop, tl_drop in Hr by lia.
  rewrite Z.add_1_r, Z.odd_succ. destruct (Z.even v) eqn:Ev.
  - (* the level is free *)
    rewrite <- Z.negb_odd in Ev. apply negb_true_iff in Ev. rewrite Ev in Hr. cbn [repr] in Hr.
    cbn zeta. rewrite Hl. split_and!; [lia|lia|]. cbn [forest]. rewrite Z.odd_succ, <- Z.negb_odd, Ev. cbn [negb].
    rewrite hd_drop, tl_drop, list_lookup_total_insert_eq, drop_insert_lt by (rewrite ?length_insert; lia).
    assert (Z.succ v / 2 = v / 2) as ->.
    { pose proof (Zdiv2_odd_eqn v) as E1. rewrite Ev, Zdiv2_div in E1. lia. }
    cbn [repr]. exists p, s, d, mlf, brf. split_and!; try done. intros Hpb. specialize (Hct Hpb).
    destruct (i <? length p)%nat; [by destruct Hct as (-> & -> & ->)|].
    destruct (i <? _)%nat; [by destruct Hct as (-> & ->)|by destruct Hct as (-> & -> & ->)].
  - (* the level holds a subtree *)
    rewrite <- Z.negb_odd in Ev. apply negb_false_iff in Ev. rewrite Ev in Hr. cbn [repr] in Hr.
    destruct Hr as (p' & s0 & d' & ml' & br' & -> & Hs0 & Hx & Hr & -> & Ht).
    destruct (push_branch pb inner ml c) as [matchh branch] eqn:Ep.
    destruct (tree_split j s0 s Hs0 Hne) as (_ & Ed & _).
    assert (Z.succ v = 2 * (v / 2 + 1)) as Ev2.
    { pose proof (Zdiv2_odd_eqn v) as E1. rewrite Ev, Zdiv2_div in E1. lia. }
    assert (2 ^ Z.of_nat j * Z.succ v = 2 ^ Z.of_nat (S j) * (v / 2 + 1)) as ->.
    { rewrite Ev2, Nat2Z.inj_succ, Z.pow_succ_r by lia. ring. }
    pose proof (climbs_join j _ p' s0 s d' mlf brf ml' br' ml c inner _ Hs0 Hne Hx Hr Ht Hc eq_refl) as Hj.
    rewrite Ep in Hj. cbn [fst snd] in Hj.
    assert (c_mutated c || (inner !!! j =? c_h c) = d' || dup (S j) (s0 ++ s)) as ->.
    { rewrite Hm, Ed, Hx, Hh, Hs, Nat.eqb_refl. cbn [andb]. by rewrite !orb_assoc. }
    destruct (IH (S j) (v / 2) inner p' (s0 ++ s) d' ml' br' ml _ ltac:(lia) Hin ltac:(apply Z.div_pos; lia) ltac:(rewrite Nat2Z.inj_succ, Z.pow_succ_r in Hv1; lia) Hr ltac:(rewrite length_app; cbn; lia) Hj) as (H1 & H2 & H3).
    cbn zeta. split_and!; [done|lia|]. cbn [forest]. rewrite tl_drop, Ev2.
    rewrite Z.odd_mul. cbn [Z.odd andb repr]. rewrite Z.mul_comm, Z.div_mul by done. by rewrite <- app_assoc.
Qed.

(** All leaves. *)
Lemma process_leaves_repr bp leaves : (pb = true -> bp = Z.of_nat i) -> Z.of_nat (length leaves) <= 2 ^ 31 ->
  let st := process_leaves pb bp leaves in
  st.(m_count) = Z.of_nat (length leaves) /\ length st.(m_inner) = 32%nat /\
  repr 0 (forest 32 st.(m_count) st.(m_inner)) leaves st.(m_mutated) st.(m_matchlevel) st.(m_branch).
Proof.
  intros Hbp. induction leaves as [|a l IH] using rev_ind; intros Hl; [by split_and!|].
  rewrite length_app in *. cbn [length] in *. specialize (IH ltac:(lia)). unfold process_leaves in *.
  rewrite foldl_snoc. set (st := foldl _ _ l) in *. clearbody st. destruct IH as (Hc & Hin & Hr). cbn zeta.
  unfold process_leaf. cbn [m_count m_inner m_matchlevel m_mutated m_branch].
  rewrite Hc, wrapu_id by lia. set (c0 := MkClimb 0 a _ _ _).
  assert (climbs 0 l [a] (m_mutated st) (m_matchlevel st) (m_branch st) (m_matchlevel st) c0) as H0.
  { unfold climbs, c0. cbn [c_level c_h c_mutated c_matchh c_branch tree dup path hd length].
    split_and!; [done|done|by rewrite orb_false_r|]. intros Hpb. rewrite (Hbp Hpb).
    pose proof (repr_level _ _ _ _ _ _ Hpb Hr) as Hb. destruct (Nat.ltb_spec i (length l)).
    { split_and!; [lia|done|done]. }
    destruct Hb as [Hb1 Hb2]. destruct (Nat.ltb_spec i (length l + 1)); [split; [lia|done]|].
    split_and!; [lia|done|done]. }
  destruct (add_leaf_repr 32 0 (Z.of_nat (length l)) (m_inner st) l [a] _ _ _ _ c0 eq_refl Hin
              ltac:(lia) ltac:(change (Z.of_nat 32) with 32; lia) ltac:(by rewrite <- Hc) eq_refl H0) as (H1 & _ & H2).
  rewrite Z.mul_1_l in H1, H2. split_and!; [lia|by rewrite length_insert|done].
Qed.

(** The first subtree of the forest. *)
Lemma skip_levels_repr fuel : forall j v inner p d ml br,
  (fuel + j = 32)%nat -> length inner = 32%nat -> 0 < v < 2 ^ Z.of_nat fuel ->
  repr j (forest fuel v (drop j inner)) p d ml br ->
  let t := skip_levels fuel (2 ^ Z.of_nat j * v) j in
  exists w, (t < 32)%nat /\ 0 <= w < 2 ^ Z.of_nat (31 - t) /\ 2 ^ Z.of_nat j * v = 2 ^ Z.of_nat t * (1 + 2 * w) /\
    repr t (Some (inner !!! t) :: forest (31 - t) w (drop (S t) inner)) p d ml br.
Proof.
  induction fuel as [|fuel IH]; intros j v inner p d ml br Hf Hin Hv Hr; [cbn in Hv; lia|].
  cbn [skip_levels]. rewrite bit_set_odd by lia. cbn [forest] in Hr. rewrite hd_drop, tl_drop in Hr by lia.
  rewrite Nat2Z.inj_succ, Z.pow_succ_r in Hv by lia. pose proof (Zdiv2_odd_eqn v) as E. rewrite Zdiv2_div in E.
  destruct (Z.odd v) eqn:Eo; cbn zeta.
  - exists (v / 2). replace (31 - j)%nat with fuel by lia. split_and!; [lia|lia|lia| |done]. f_equal. lia.
  - cbn [repr] in Hr. replace (2 ^ Z.of_nat j * v) with (2 ^ Z.of_nat (S j) * (v / 2)).
    + apply (IH (S j) (v / 2)) with (d := d) (ml := ml) (br := br); [lia|done|lia|done].
    + rewrite Nat2Z.inj_succ, Z.pow_succ_r by lia. rewrite E at 2. ring.
Qed.

(** A subtree in hand that may lack leaves on its right, after [p]; [count] is the
    number of leaves there would be if it lacked none. *)
Record sweeping (j : nat) (w : Z) (inner : list uint256) (p s : list uint256) (ml : Z) (c : climb) : Prop := {
  sw_level : (j < 32)%nat;
  sw_w : 0 <= w;
  sw_count : 2 ^ Z.of_nat j * (1 + 2 * w) <= 2 ^ 31;
  sw_s : s <> [] /\ (length s <= 2 ^ j)%nat;
  sw_depth : p = [] -> Nat.log2_up (length s) = j;
  sw_repr : exists d mlf brf, repr (S j) (forest (31 - j) w (drop (S j) inner)) p d mlf brf /\ climbs j p s d mlf brf ml c;
}.

Lemma level_bound j v : 0 <= v -> 2 ^ Z.of_nat j * (1 + v) <= 2 ^ 31 -> (j < 32)%nat /\ v < 2 ^ Z.of_nat (32 - j).
Proof.
  intros Hv Hb. assert (2 ^ Z.of_nat j <= 2 ^ 31) as H by nia. apply Z.pow_le_mono_r_iff in H; [|lia..].
  split; [lia|]. assert (2 ^ 31 < 2 ^ Z.of_nat j * 2 ^ Z.of_nat (32 - j)) as H2.
  { rewrite <- Z.pow_add_r by lia. apply Z.pow_lt_mono_r; lia. }
  assert (0 < 2 ^ Z.of_nat j) by lia. nia.
Qed.

Lemma sweep_bound j w : 0 < w -> 2 ^ Z.of_nat j * (1 + 2 * w) <= 2 ^ 31 -> 2 ^ Z.of_nat (S j) * (1 + w) <= 2 ^ 31.
Proof.
  intros Hw Hc. assert (Z.of_nat j < 31) as Hj.
  { destruct (Z.lt_ge_cases (Z.of_nat j) 31) as [|H]; [done|]. apply (Z.pow_le_mono_r 2) in H; [nia|lia]. }
  assert (2 ^ 31 = 2 ^ Z.of_nat j * (2 * 2 ^ (30 - Z.of_nat j))) as H31.
  { rewrite <- Z.pow_succ_r, <- Z.pow_add_r by lia. f_equal. lia. }
  rewrite Nat2Z.inj_succ, Z.pow_succ_r, H31 by lia. rewrite H31 in Hc. clear H31.
  apply Z.mul_le_mono_pos_l in Hc; [|lia]. replace (2 * 2 ^ Z.of_nat j * (1 + w)) with (2 ^ Z.of_nat j * (2 * (1 + w))) by ring.
  apply Z.mul_le_mono_nonneg_l; lia.
Qed.

Lemma log2_up_join (a b j : nat) : a = (2 ^ j)%nat -> (0 < b <= 2 ^ j)%nat -> Nat.log2_up (a + b) = S j.
Proof. intros -> H. apply Nat.log2_up_unique; [lia|]. cbn [Nat.pred Nat.pow]. lia. Qed.

Lemma propagate_sweeping fuel : forall j v inner p s ml c d mlf brf,
  (32 - j <= fuel)%nat -> length inner = 32%nat -> 0 <= v -> 2 ^ Z.of_nat j * (1 + v) <= 2 ^ 31 ->
  repr j (forest (32 - j) v (drop j inner)) p d mlf brf -> s <> [] -> (length s < 2 ^ j)%nat ->
  (p = [] -> Nat.log2_up (length s) = j) -> climbs j p s d mlf brf ml c ->
  exists j' w p' s', (j <= j')%nat /\ p ++ s = p' ++ s' /\ 2 ^ Z.of_nat j * (1 + v) = 2 ^ Z.of_nat j' * (1 + 2 * w) /\
    sweeping j' w inner p' s' ml (propagate fuel pb (2 ^ Z.of_nat j * (1 + v)) inner ml c).
Proof.
  induction fuel as [|fuel IH]; intros j v inner p s ml c d mlf brf Hf Hin Hv Hb Hr Hs Hls Hd Hc;
    destruct (level_bound j v Hv Hb) as [Hj Hvb]; [lia|].
  pose proof Hc as (Hl & Hh & Hm & _). cbn [propagate]. rewrite Hl, bit_set_odd by lia.
  replace (32 - j)%nat with (S (31 - j)) in Hr by lia. cbn [forest] in Hr. rewrite hd_drop, tl_drop in Hr by lia.
  pose proof (Zdiv2_odd_eqn v) as E. rewrite Zdiv2_div in E.
  rewrite Z.add_1_l, Z.odd_succ, <- Z.negb_odd. destruct (Z.odd v) eqn:Eo; cbn [negb].
  - cbn [repr] in Hr. destruct Hr as (p' & s0 & d' & ml' & br' & -> & Hs0 & Hx & Hr & -> & Ht).
    destruct (push_branch pb inner ml c) as [matchh branch] eqn:Ep.
    destruct (tree_split j s0 s Hs0 Hs) as (_ & Ed & _). replace (length s =? 2 ^ j)%nat with false in Ed by lia.
    rewrite orb_false_r in Ed.
    assert (c_mutated c = d' || dup (S j) (s0 ++ s)) as Em by (by rewrite Hm, Ed, orb_assoc).
    pose proof (climbs_join j _ p' s0 s d' mlf brf ml' br' ml c inner _ Hs0 Hs Hx Hr Ht Hc Em) as Hj'.
    rewrite Ep in Hj'. cbn [fst snd] in Hj'.
    assert (2 ^ Z.of_nat j * Z.succ v = 2 ^ Z.of_nat (S j) * (1 + v / 2)) as Ec.
    { rewrite Nat2Z.inj_succ, Z.pow_succ_r by lia. rewrite E at 1. ring. }
    rewrite Ec. edestruct (IH (S j) (v / 2) inner p' (s0 ++ s)) as (j' & w & q & s' & H1 & H2 & H3 & H4);
      [lia|done|lia|by rewrite <- Ec, <- Z.add_1_l| |by destruct s0| | |exact Hj'|].
    { replace (32 - S j)%nat with (31 - j)%nat by lia. exact Hr. }
    { rewrite length_app. cbn. lia. }
    { intros _. rewrite length_app. apply log2_up_join; [done|]. destruct s; [done|]. cbn in *. lia. }
    exists j', w, q, s'. split_and!; [lia|by rewrite <- app_assoc|done|done].
  - exists j, (v / 2), p, s. split_and!; [lia|done|f_equal; lia|].
    split; try done; [lia| |split; [done|lia]|]. { rewrite E, Z.add_0_r in Hb at 1. lia. }
    exists d, mlf, brf. done.
Qed.

(** What the computation has to return for the leaves [l]. *)
Definition computed (l : list uint256) (c : climb) : Prop :=
  c.(c_h) = tree (depth l) l /\ c.(c_mutated) = dup (depth l) l /\
  (pb = true -> (i < length l)%nat -> c.(c_branch) = path (depth l) l i).

Lemma sweep_computed fuel : forall j w inner p s ml c, (32 - j <= fuel)%nat -> length inner = 32%nat ->
  sweeping j w inner p s ml c ->
  computed (p ++ s) (sweep fuel pb (2 ^ Z.of_nat j * (1 + 2 * w)) inner ml c).
Proof.
  induction fuel as [|fuel IH]; intros j w inner p s ml c Hf Hin [Hj Hw Hc [Hs Hls] Hd (d & mlf & brf & Hr & Hcl)]; [lia|].
  pose proof Hcl as (Hl & Hh & Hm & Hb). cbn [sweep]. rewrite Hl.
  assert (0 < 2 ^ Z.of_nat j <= 2 ^ 31) as Hpow by (split; [lia|nia]).
  rewrite Z.shiftl_1_l, (wrapu_id 32 (2 ^ Z.of_nat j)) by lia.
  destruct (Z.eqb_spec (2 ^ Z.of_nat j * (1 + 2 * w)) (2 ^ Z.of_nat j)) as [Ew|Ew].
  - assert (w = 0) as -> by nia. apply repr_zero in Hr as [-> ->]. specialize (Hd eq_refl).
    unfold computed, depth. cbn [app length Nat.add] in *. rewrite Hd. split_and!; [done|by rewrite Hm|].
    intros Hpb Hi. specialize (Hb Hpb). replace (i <? 0)%nat with false in Hb by lia.
    replace (i <? length s)%nat with true in Hb by lia.
    destruct Hb as [_ ->]. by rewrite Nat.sub_0_r.
  - assert (0 < w) as Hw0 by (destruct (Z.eq_dec w 0) as [->|]; lia).
    assert (2 ^ Z.of_nat j * (1 + 2 * w) + 2 ^ Z.of_nat j = 2 ^ Z.of_nat (S j) * (1 + w)) as Ec.
    { rewrite Nat2Z.inj_succ, Z.pow_succ_r by lia. ring. }
    assert (2 ^ Z.of_nat (S j) * (1 + w) <= 2 ^ 31) as Hc'.
    { by apply sweep_bound. }
    rewrite Ec, wrapu_id by lia. destruct (tree_short j s Hls) as (Et & Ed & Ep).
    set (c1 := MkClimb _ _ _ _ _).
    assert (climbs (S j) p s d mlf brf ml c1) as Hcl1.
    { unfold climbs, c1. cbn [c_level c_h c_mutated c_matchh c_branch]. split_and!; [done|by rewrite Hh, Et|by rewrite Hm, Ed|].
      intros Hpb. specialize (Hb Hpb). rewrite Hpb, Ep. cbn [andb]. destruct (i <? length p)%nat; [by destruct Hb as (-> & -> & ->)|].
      destruct (i <? _)%nat; [destruct Hb as (-> & ->); by rewrite Hh|by destruct Hb as (-> & -> & ->)]. }
    destruct (level_bound (S j) w Hw Hc') as [Hj1 Hwb]. replace (31 - j)%nat with (32 - S j)%nat in Hr by lia.
    edestruct (propagate_sweeping 32 (S j) w inner p s ml c1) as (j' & w' & p' & s' & H1 & H2 & H3 & H4);
      [lia|done|done|done|exact Hr|done|cbn; lia| |exact Hcl1|].
    { intros ->. by apply repr_pos in Hr. }
    rewrite H2, H3 in *. apply IH; [lia|done|done].
Qed.

Lemma MerkleComputation_computed bp leaves : leaves <> [] -> (pb = true -> bp = Z.of_nat i) ->
  Z.of_nat (length leaves) <= 2 ^ 31 ->
  exists c, MerkleComputation leaves bp pb = (c.(c_h), c.(c_mutated), c.(c_branch)) /\ computed leaves c.
Proof.
  intros Hne Hbp Hl. destruct (process_leaves_repr bp leaves Hbp Hl) as (Hc & Hin & Hr).
  unfold MerkleComputation. destruct leaves as [|a l]; [done|]. set (leaves := a :: l) in *.
  set (st := process_leaves pb bp leaves) in *. eexists. split; [reflexivity|].
  assert (0 < m_count st) by (rewrite Hc; cbn [leaves length]; lia).
  edestruct (skip_levels_repr 32 0 (m_count st) (m_inner st)) as (w & Ht & Hw & Ew & Hr'); [done|done| |exact Hr|].
  { change (Z.of_nat 32) with 32. lia. }
  cbn [Z.of_nat Z.pow] in *. rewrite Z.mul_1_l in *. set (t := skip_levels 32 (m_count st) 0) in *.
  cbn [repr] in Hr'. destruct Hr' as (p & s & d & ml' & br' & Ep & Hs & Hx & Hr' & Hd & Htr). rewrite Ep, Ew.
  assert (s <> []) as Hsne. { intros ->. cbn in Hs. pose proof (Nat.pow_nonzero 2 t). lia. }
  apply sweep_computed; [lia|done|]. split; [done|lia|lia|split; [done|lia]| |].
  { intros _. rewrite Hs. apply Nat.log2_up_pow2. lia. }
  exists d, ml', br'. split; [done|]. unfold climbs. cbn [c_level c_h c_mutated c_matchh c_branch].
  split_and!; [done|done|done|]. intros Hpb. specialize (Htr Hpb). pose proof (repr_level _ _ _ _ _ _ Hpb Hr') as Hb.
  destruct (i <? length p)%nat; [destruct Htr as [-> ->]; split_and!; [lia|done|done]|].
  destruct (i <? _)%nat; destruct Htr as [-> ->]; [by rewrite Z.eqb_refl|]. split_and!; [lia|done|done].
Qed.

End Follows.

(** ** Roots, branches and levels *)

Section Roots.
Context `{HS : Hash256}.

(** One level of the tree: pairs, the last hash alone with itself. *)
Fixpoint pair_up (l : list uint256) : list uint256 :=
  match l with
  | a :: b :: l' => Hash2 a b :: pair_up l'
  | [a] => [Hash2 a a]
  | [] => []
  end.

Lemma pair_up_app a b : Nat.Even (length a) -> pair_up (a ++ b) = pair_up a ++ pair_up b.
Proof.
  intros [n Hn]. revert a Hn. induction n as [|n IH]; intros a Hn.
  { by destruct a. }
  destruct a as [|x [|y a]]; [cbn in Hn; lia..|]. cbn. f_equal. apply IH. cbn in Hn. lia.
Qed.

Lemma pair_up_length l : (length (pair_up l) = (length l + 1) / 2)%nat.
Proof.
  remember (length l) as n eqn:Hn. revert l Hn. induction n as [n IH] using lt_wf_ind. intros l ->.
  destruct l as [|x [|y l]]; [done|done|]. cbn [pair_up length]. rewrite (IH (length l)); [|cbn; lia|done].
  replace (S (S (length l)) + 1)%nat with (length l + 1 + 1 * 2)%nat by lia. rewrite Nat.div_add by lia. lia.
Qed.

(** The tree is built level by level. *)
Lemma tree_pair_up k : forall l, (0 < length l <= 2 ^ S k)%nat -> tree (S k) l = tree k (pair_up l).
Proof.
  induction k as [|k IH]; intros l Hl.
  { destruct l as [|a [|b [|c l]]]; cbn in Hl; try lia; done. }
  pose proof (pair_up_length l) as Hp. destruct (le_gt_dec (length l) (2 ^ S k)) as [H|H].
  - rewrite (proj1 (tree_short (S k) l H)), (IH l) by lia.
    rewrite (proj1 (tree_short k (pair_up l) ltac:(rewrite Hp; cbn in H; lia))). done.
  - rewrite <- (take_drop (2 ^ S k) l). set (a := take _ l). set (b := drop _ l).
    assert (length a = (2 ^ S k)%nat) as Ha by (unfold a; rewrite length_take; lia).
    assert (0 < length b <= 2 ^ S k)%nat as Hb by (unfold b; rewrite length_drop; cbn in *; lia).
    rewrite pair_up_app by (exists (2 ^ k)%nat; rewrite Ha; cbn; lia).
    rewrite (proj1 (tree_split (S k) a b Ha ltac:(by destruct b; [cbn in Hb; lia|]))).
    rewrite (IH a), (IH b) by lia. symmetry. apply tree_split.
    + rewrite pair_up_length, Ha. symmetry. apply Nat.div_unique with 1%nat; cbn; lia.
    + intros E. pose proof (pair_up_length b) as Eb. rewrite E in Eb. cbn [length] in Eb.
      symmetry in Eb. apply Nat.div_small_iff in Eb; lia.
Qed.

(** A branch leads from its leaf to the root of its subtree. *)
Lemma branch_root k : forall l i q rest, (i < length l)%nat -> (length l <= 2 ^ k)%nat -> 0 <= q ->
  ComputeMerkleRootFromBranch (l !!! i) (path k l i ++ rest) (Z.of_nat i + 2 ^ Z.of_nat k * q)
  = ComputeMerkleRootFromBranch (tree k l) rest q.
Proof.
  assert (forall q, Z.land (2 * q) 1 = 0 /\ Z.shiftr (2 * q) 1 = q /\ Z.land (1 + 2 * q) 1 = 1 /\ Z.shiftr (1 + 2 * q) 1 = q) as Hq.
  { intros q. rewrite !Z.shiftr_div_pow2 by lia. pose proof (fun x => Z.land_ones x 1 ltac:(lia)) as H1.
    change (Z.ones 1) with 1 in H1. rewrite !H1. change (2 ^ 1) with 2. lia. }
  induction k as [|k IH]; intros l i q rest Hi Hl Hq0.
  { destruct l as [|a [|b l]]; cbn in Hi, Hl; try lia. replace i with 0%nat by lia. cbn [path app tree hd]. f_equal. lia. }
  rewrite Nat2Z.inj_succ, Z.pow_succ_r by lia. destruct (Hq q) as (H1 & H2 & H3 & H4).
  destruct (le_gt_dec (length l) (2 ^ k)) as [H|H].
  - destruct (tree_short k l H) as (-> & _ & Ep). rewrite Ep, <- app_assoc.
    replace (Z.of_nat i + 2 * 2 ^ Z.of_nat k * q) with (Z.of_nat i + 2 ^ Z.of_nat k * (2 * q)) by ring.
    rewrite IH by lia. cbn [app ComputeMerkleRootFromBranch]. by rewrite H1, H2.
  - pose proof (take_drop (2 ^ k) l) as El. assert (length (take (2 ^ k) l) = (2 ^ k)%nat) as Ha by (rewrite length_take; lia).
    revert El Ha. generalize (take (2 ^ k) l) (drop (2 ^ k) l). intros a b <- Ha.
    rewrite length_app in *. destruct (tree_split k a b Ha ltac:(by destruct b; [cbn in *; lia|])) as (-> & _ & Ea & Eb).
    cbn [Nat.pow] in Hl. assert (Z.of_nat (2 ^ k) = 2 ^ Z.of_nat k) as Hpow by (rewrite Nat2Z.inj_pow; done).
    destruct (le_gt_dec (length a) i) as [Hai|Hai].
    + rewrite Eb, lookup_total_app_r, <- app_assoc by done.
      replace (Z.of_nat i + 2 * 2 ^ Z.of_nat k * q) with (Z.of_nat (i - length a) + 2 ^ Z.of_nat k * (1 + 2 * q)) by lia.
      rewrite IH by lia. cbn [app ComputeMerkleRootFromBranch]. by rewrite H3, H4.
    + rewrite Ea, lookup_total_app_l, <- app_assoc by done.
      replace (Z.of_nat i + 2 * 2 ^ Z.of_nat k * q) with (Z.of_nat i + 2 ^ Z.of_nat k * (2 * q)) by ring.
      rewrite IH by lia. cbn [app ComputeMerkleRootFromBranch]. by rewrite H1, H2.
Qed.

(** ** What a root commits to *)

(** The messages that are hashed in the tree. *)
Definition pair_bytes (a b : uint256) : bytes := ser (blob 32) a ++ ser (blob 32) b.
Fixpoint nodes (k : nat) (l : list uint256) : list bytes :=
  match k with
  | O => []
  | S k' =>
    if (length l <=? 2 ^ k')%nat then pair_bytes (tree k' l) (tree k' l) :: nodes k' l
    else
      let a := take (2 ^ k') l in
      let b := drop (2 ^ k') l in
      pair_bytes (tree k' a) (tree k' b) :: nodes k' a ++ nodes k' b
  end.

Lemma tree_range k l : l <> [] -> forallb (in_u 256) l = true -> in_u 256 (tree k l) = true.
Proof.
  intros Hne Hl. destruct k as [|k]; cbn [tree].
  - destruct l; [done|]. cbn in *. by apply andb_true_iff in Hl as [? _].
  - destruct (_ <=? _)%nat; apply hash256_range.
Qed.

Lemma pair_bytes_inj a b a' b' : in_u 256 a = true -> in_u 256 b = true -> in_u 256 a' = true -> in_u 256 b' = true ->
  pair_bytes a b = pair_bytes a' b' -> a = a' /\ b = b'.
Proof.
  intros Ha Hb Ha' Hb' E. apply (ser_app_inj (blob 32) (in_u 256)) in E as [-> E]; [|done..].
  by apply (ser_inj (blob 32) (in_u 256)) in E as ->.
Qed.

Lemma no_collision_sub ms ms' : (forall m, m ∈ ms' -> m ∈ ms) -> no_collision ms -> no_collision ms'.
Proof. intros H Hn a b Ha Hb. apply Hn; auto. Qed.

Definition leaves_ok (k : nat) (l : list uint256) : Prop :=
  l <> [] /\ (length l <= 2 ^ k)%nat /\ forallb (in_u 256) l = true /\ dup k l = false.

(** A subtree is hashed with itself, or it has two halves that are subtrees. *)
Lemma leaves_ok_cases k l : leaves_ok (S k) l ->
  (leaves_ok k l /\ tree (S k) l = hash256 (pair_bytes (tree k l) (tree k l)) /\
   nodes (S k) l = pair_bytes (tree k l) (tree k l) :: nodes k l) \/
  (exists a b, l = a ++ b /\ length a = (2 ^ k)%nat /\ leaves_ok k a /\ leaves_ok k b /\
   (length b = (2 ^ k)%nat -> tree k a <> tree k b) /\
   tree (S k) l = hash256 (pair_bytes (tree k a) (tree k b)) /\
   nodes (S k) l = pair_bytes (tree k a) (tree k b) :: nodes k a ++ nodes k b).
Proof.
  intros (Hne & Hlen & Hr & Hd). destruct (le_gt_dec (length l) (2 ^ k)) as [H|H].
  - left. destruct (tree_short k l H) as (Et & Ed & _). rewrite Ed in Hd. split_and!; [done|done|].
    cbn [nodes]. by replace (_ <=? _)%nat with true by lia.
  - right. exists (take (2 ^ k) l), (drop (2 ^ k) l).
    assert (length (take (2 ^ k) l) = (2 ^ k)%nat) as Ha by (rewrite length_take; lia).
    assert (length (drop (2 ^ k) l) = (length l - 2 ^ k)%nat) as Hb by apply length_drop. cbn [Nat.pow] in Hlen.
    assert (drop (2 ^ k) l <> []) as Hbne by (intros E; rewrite E in Hb; cbn in Hb; lia).
    assert (take (2 ^ k) l <> []) as Hane by (intros E; rewrite E in Ha; cbn in Ha; pose proof (Nat.pow_nonzero 2 k); lia).
    destruct (tree_split k _ _ Ha Hbne) as (Et & Ed & _). rewrite take_drop in Et, Ed. rewrite Ed in Hd.
    apply orb_false_iff in Hd as [[Hda Hdb]%orb_false_iff Hde].
    rewrite <- (take_drop (2 ^ k) l), forallb_app in Hr. apply andb_true_iff in Hr as [Hra Hrb].
    split_and!; [by rewrite take_drop|done|split_and!; [done|lia|done|done]|split_and!; [done|lia|done|done]| |done|].
    + intros E1 E2. rewrite E1, Nat.eqb_refl, E2, Z.eqb_refl in Hde. done.
    + cbn [nodes]. by replace (_ <=? _)%nat with false by lia.
Qed.

(** Trees of the same height without equal halves and with the same root have the
    same leaves. *)
Lemma tree_inj k : forall l l', leaves_ok k l -> leaves_ok k l' -> no_collision (nodes k l ++ nodes k l') ->
  tree k l = tree k l' -> l = l'.
Proof.
  induction k as [|k IH]; intros l l' Hl Hl' Hn E.
  { destruct Hl as (Hne & Hlen & _), Hl' as (Hne' & Hlen' & _). cbn in Hlen, Hlen'.
    destruct l as [|a [|? ?]], l' as [|a' [|? ?]]; cbn in *; try done; try lia. by subst. }
  assert (forall x y, leaves_ok k x -> leaves_ok k y -> (forall m, m ∈ nodes k x ++ nodes k y -> m ∈ nodes (S k) l ++ nodes (S k) l') ->
    tree k x = tree k y -> x = y) as IH'.
  { intros x y Hx Hy Hs. apply IH; [done|done|]. by eapply no_collision_sub. }
  assert (forall x, leaves_ok k x -> in_u 256 (tree k x) = true) as Hrng.
  { intros x (Hx & _ & Hr & _). by apply tree_range. }
  apply leaves_ok_cases in Hl as [(Hl & Et & En)|(a & b & -> & Ha & Hoa & Hob & Hab & Et & En)],
    Hl' as [(Hl' & Et' & En')|(a' & b' & -> & Ha' & Hoa' & Hob' & Hab' & Et' & En')];
    rewrite Et, Et' in E; apply Hn in E; try (rewrite En, En'; set_solver);
    apply pair_bytes_inj in E as [E1 E2]; try (by apply Hrng).
  - apply IH'; [done..| |done]. rewrite En, En'. set_solver.
  - exfalso. assert (a' = b') as E3; [apply IH'; [done..| |congruence]; rewrite En, En'; set_solver|].
    apply Hab'; [by rewrite <- E3|by rewrite E3].
  - exfalso. assert (a = b) as E3; [apply IH'; [done..| |congruence]; rewrite En, En'; set_solver|].
    apply Hab; [by rewrite <- E3|by rewrite E3].
  - f_equal; apply IH'; try done; rewrite En, En'; set_solver.
Qed.

(** ** The theorems *)

Lemma tree_levels k : forall l, l <> [] -> (length l <= 2 ^ k)%nat -> tree k l = hd 0 (Nat.iter k pair_up l).
Proof.
  induction k as [|k IH]; intros l Hne Hl; [done|]. assert (0 < length l)%nat by (destruct l; [done|cbn; lia]).
  rewrite tree_pair_up, Nat.iter_succ_r by done. pose proof (pair_up_length l) as Hp. apply IH.
  - intros E. rewrite E in Hp. cbn [length] in Hp. lia.
  - cbn [Nat.pow] in Hl. lia.
Qed.

Lemma depth_bound l : l <> [] -> (length l <= 2 ^ depth l)%nat.
Proof.
  intros Hne. unfold depth. destruct l as [|a [|b l]]; [done|cbn; lia|].
  apply Nat.log2_up_spec. cbn. lia.
Qed.

Lemma ComputeMerkleRoot_tree leaves : leaves <> [] -> Z.of_nat (length leaves) <= 2 ^ 31 ->
  ComputeMerkleRoot leaves = (tree (depth leaves) leaves, dup (depth leaves) leaves).
Proof.
  intros Hne Hl. destruct (MerkleComputation_computed false 0 (2 ^ 32 - 1) leaves Hne ltac:(done) Hl) as (c & E & H1 & H2 & _).
  unfold ComputeMerkleRoot. rewrite E. cbn [fst]. by rewrite H1, H2.
Qed.

(** C19. The constant-space computation returns the root of the tree built level
    by level (pairs are hashed, a last hash alone is hashed with itself), and its
    mutation flag is set exactly when two sibling subtrees that are complete have
    the same root. *)
Theorem merkle_root_exact (leaves : list uint256) : leaves <> [] -> Z.of_nat (length leaves) <= 2 ^ 31 ->
  ComputeMerkleRoot leaves = (hd 0 (Nat.iter (depth leaves) pair_up leaves), dup (depth leaves) leaves).
Proof.
  intros Hne Hl. rewrite ComputeMerkleRoot_tree by done. by rewrite tree_levels by auto using depth_bound.
Qed.

(** The branch computed for a leaf leads from it to the root. *)
Theorem merkle_branch_roundtrip (leaves : list uint256) (i : nat) : (i < length leaves)%nat ->
  Z.of_nat (length leaves) <= 2 ^ 31 ->
  ComputeMerkleRootFromBranch (leaves !!! i) (ComputeMerkleBranch leaves (Z.of_nat i)) (Z.of_nat i)
  = (ComputeMerkleRoot leaves).1.
Proof.
  intros Hi Hl. assert (leaves <> []) as Hne by (intros ->; cbn in Hi; lia).
  rewrite ComputeMerkleRoot_tree by done. unfold ComputeMerkleBranch.
  destruct (MerkleComputation_computed true i (Z.of_nat i) leaves Hne ltac:(done) Hl) as (c & -> & _ & _ & H).
  cbn [fst snd]. rewrite (H eq_refl Hi). pose proof (branch_root (depth leaves) leaves i 0 [] Hi (depth_bound _ Hne) ltac:(lia)) as E.
  by rewrite app_nil_r, Z.mul_0_r, Z.add_0_r in E.
Qed.

(** ** Blocks *)

Definition BlockMerkleRoot (vtx : list CTransaction) : uint256 * bool := ComputeMerkleRoot (GetHash <$> vtx).

(** [None] is the access to [leaves[0]] of an empty block. *)
Definition BlockWitnessMerkleRoot (vtx : list CTransaction) : option (uint256 * bool) :=
  match vtx with
  | [] => None
  | _ :: rest => Some (ComputeMerkleRoot (0 :: (GetWitnessHash <$> rest)))
  end.

Definition BlockMerkleBranch (vtx : list CTransaction) (position : Z) : list uint256 :=
  ComputeMerkleBranch (GetHash <$> vtx) position.

(** Every message that is hashed for the root of a block. *)
Definition block_messages (vtx : list CTransaction) : list bytes :=
  (SerializeTransaction false <$> vtx) ++ nodes (depth (GetHash <$> vtx)) (GetHash <$> vtx).

Lemma leaves_ok_hashes vtx : vtx <> [] -> dup (depth (GetHash <$> vtx)) (GetHash <$> vtx) = false ->
  leaves_ok (depth (GetHash <$> vtx)) (GetHash <$> vtx).
Proof.
  intros Hne Hd. assert (GetHash <$> vtx <> []) as Hf by (by destruct vtx).
  split_and!; [done|by apply depth_bound| |done]. apply forallb_forall. intros h (tx & <- & _)%in_map_iff. apply hash256_range.
Qed.

(** C11. Two blocks whose trees have the same height, whose computation reports no
    mutation and whose roots agree have the same transactions in the same order,
    up to witnesses, barring a collision between the messages that are hashed. *)
Theorem block_root_commits (vtx vtx' : list CTransaction) (r : uint256) :
  vtx <> [] -> vtx' <> [] -> Z.of_nat (length vtx) <= 2 ^ 31 -> Z.of_nat (length vtx') <= 2 ^ 31 ->
  forallb valid_tx vtx = true -> forallb valid_tx vtx' = true ->
  depth (GetHash <$> vtx) = depth (GetHash <$> vtx') -> no_collision (block_messages vtx ++ block_messages vtx') ->
  BlockMerkleRoot vtx = (r, false) -> BlockMerkleRoot vtx' = (r, false) -> strip <$> vtx = strip <$> vtx'.
Proof.
  intros Hne Hne' Hl Hl' Hv Hv' Hd Hn. unfold BlockMerkleRoot.
  rewrite !ComputeMerkleRoot_tree by (rewrite ?length_fmap; by destruct vtx, vtx'). intros [= E1 E2] [= E1' E2'].
  assert (GetHash <$> vtx = GetHash <$> vtx') as E.
  { apply (tree_inj (depth (GetHash <$> vtx))).
    - by apply leaves_ok_hashes.
    - rewrite Hd. by apply leaves_ok_hashes.
    - eapply no_collision_sub; [|exact Hn]. unfold block_messages. rewrite Hd. set_solver.
    - rewrite Hd at 2. congruence. }
  apply (f_equal length) in E as El. rewrite !length_fmap in El.
  rewrite forallb_forall in Hv, Hv'. apply list_eq. intros k. rewrite !list_lookup_fmap.
  apply (f_equal (lookup k)) in E. rewrite !list_lookup_fmap in E.
  destruct (vtx !! k) as [tx|] eqn:Ek, (vtx' !! k) as [tx'|] eqn:Ek'; cbn in *; try done. f_equal. injection E as E.
  apply list_elem_of_lookup_2 in Ek, Ek'. apply serialize_strip_inj; [by apply Hv, list_elem_of_In|by apply Hv', list_elem_of_In|].
  apply Hn; [unfold block_messages; set_solver..|done].
Qed.

End Roots.

Module Sample.

#[local] Existing Instance Poly.poly_hash.

Definition leaves : list uint256 := [11; 12; 13; 14; 15; 16].
Definition tx (n : Z) (witness : list bytes) : CTransaction :=
  MkTransaction [MkTxIn (MkOutPoint n 1) [1; 2] SEQUENCE_FINAL witness] [MkTxOut 1000 [0x6a]] 2 0 0 [].
Definition block : list CTransaction := [tx 1 []; tx 2 []; tx 3 []].
Definition block' : list CTransaction := [tx 1 [[7]]; tx 2 []; tx 3 []].
Definition root : uint256 := Eval vm_compute in (BlockMerkleRoot block).1.

Lemma merkle_root_exact_witness :
  ComputeMerkleRoot leaves = (hd 0 (Nat.iter (depth leaves) pair_up leaves), dup (depth leaves) leaves).
Proof. apply merkle_root_exact; [discriminate|vm_compute; discriminate]. Defined.

(** Repeating the end of the list keeps the root and sets the flag. *)
Example mutation_detected : (ComputeMerkleRoot (leaves ++ [15; 16])).1 = (ComputeMerkleRoot leaves).1 /\
  (ComputeMerkleRoot (leaves ++ [15; 16])).2 = true /\ (ComputeMerkleRoot leaves).2 = false.
Proof. vm_compute. auto. Qed.

Lemma merkle_branch_roundtrip_witness :
  ComputeMerkleRootFromBranch (leaves !!! 4%nat) (ComputeMerkleBranch leaves (Z.of_nat 4)) (Z.of_nat 4) = (ComputeMerkleRoot leaves).1.
Proof. apply merkle_branch_roundtrip; [cbn; lia|vm_compute; discriminate]. Defined.

Lemma block_root_commits_witness : strip <$> block = strip <$> block'.
Proof.
  apply (block_root_commits block block' root);
    [discriminate|discriminate|vm_compute; discriminate|vm_compute; discriminate|vm_compute; reflexivity..| | |].
  - apply no_collision_b_spec. vm_compute. reflexivity.
  - vm_compute. reflexivity.
  - vm_compute. reflexivity.
Defined.

End Sample.
