(* ===== verification/Params.v ===== *)
(** Consensus parameters (consensus/params.h, chainparams.cpp): the fields the
    modelled components read, and their values on the three networks. *)

From S2P Require Import Prelude Primitives.

Record Params := MkParams {
  nSubsidyHalvingInterval : Z;
  powLimit : uint256;
  kawpowLimit : uint256;
  fPowAllowMinDifficultyBlocks : bool;
  fPowNoRetargeting : bool;
  nPowTargetSpacing : Z;
  nPowTargetTimespan : Z;
  nKawPowActivationTime : Z;
  nDGWActivationBlock : Z;
  nMasternodeCollateral : Z;
  nMasternodeCollateralTier2 : Z;
  nMasternodeCollateralTier3 : Z;
  nTieredMNActivationHeight : Z;
  nMNv2MigrationHeight : Z;
  nMasternodeCollateralConfirmations : Z;
  nMasternodeActivationHeight : Z;
  nMasternodeRewardPercent : Z;
  nPoSePenaltyIncrement : Z;
  nPoSeBanThreshold : Z;
  nPoSeRevivalHeight : Z;
  nProUpServCooldown : Z;
  nProUpRegCooldown : Z;
  fMineBlocksOnDemand : bool;
}.

Definition DifficultyAdjustmentInterval (p : Params) : Z :=
  Z.quot p.(nPowTargetTimespan) p.(nPowTargetSpacing).

Definition main_params : Params := {|
  nSubsidyHalvingInterval := 2100000;
  powLimit := 0x00000fffffffffffffffffffffffffffffffffffffffffffffffffffffffffff;
  kawpowLimit := 0x00000064ffffffffffffffffffffffffffffffffffffffffffffffffffffffff;
  fPowAllowMinDifficultyBlocks := false;
  fPowNoRetargeting := false;
  nPowTargetSpacing := 1 * 60;
  nPowTargetTimespan := 2016 * 60;
  nKawPowActivationTime := 1768374000 + 1;
  nDGWActivationBlock := 10;
  nMasternodeCollateral := 100000 * COIN;
  nMasternodeCollateralTier2 := 1000000 * COIN;
  nMasternodeCollateralTier3 := 10000000 * COIN;
  nTieredMNActivationHeight := 130000;
  nMNv2MigrationHeight := 130000;
  nMasternodeCollateralConfirmations := 15;
  nMasternodeActivationHeight := 50000;
  nMasternodeRewardPercent := 45;
  nPoSePenaltyIncrement := 10;
  nPoSeBanThreshold := 100;
  nPoSeRevivalHeight := 720;
  nProUpServCooldown := 10;
  nProUpRegCooldown := 10;
  fMineBlocksOnDemand := false;
|}.

Definition testnet_params : Params := {|
  nSubsidyHalvingInterval := 2100000;
  powLimit := 0x000fffffffffffffffffffffffffffffffffffffffffffffffffffffffffffff;
  kawpowLimit := 0x000fffffffffffffffffffffffffffffffffffffffffffffffffffffffffffff;
  fPowAllowMinDifficultyBlocks := true;
  fPowNoRetargeting := false;
  nPowTargetSpacing := 1 * 60;
  nPowTargetTimespan := 2016 * 60;
  nKawPowActivationTime := 1769472000 + 1;
  nDGWActivationBlock := 100;
  nMasternodeCollateral := 1000 * COIN;
  nMasternodeCollateralTier2 := 10000 * COIN;
  nMasternodeCollateralTier3 := 100000 * COIN;
  nTieredMNActivationHeight := 6750;
  nMNv2MigrationHeight := 6750;
  nMasternodeCollateralConfirmations := 2;
  nMasternodeActivationHeight := 100;
  nMasternodeRewardPercent := 45;
  nPoSePenaltyIncrement := 10;
  nPoSeBanThreshold := 100;
  nPoSeRevivalHeight := 720;
  nProUpServCooldown := 10;
  nProUpRegCooldown := 10;
  fMineBlocksOnDemand := false;
|}.

Definition regtest_params : Params := {|
  nSubsidyHalvingInterval := 150;
  powLimit := 0x7fffffffffffffffffffffffffffffffffffffffffffffffffffffffffffffff;
  kawpowLimit := 0x7fffffffffffffffffffffffffffffffffffffffffffffffffffffffffffffff;
  fPowAllowMinDifficultyBlocks := true;
  fPowNoRetargeting := true;
  nPowTargetSpacing := 1 * 60;
  nPowTargetTimespan := 2016 * 60;
  nKawPowActivationTime := 1768374000 + 1;
  nDGWActivationBlock := 200;
  nMasternodeCollateral := 100 * COIN;
  nMasternodeCollateralTier2 := 1000 * COIN;
  nMasternodeCollateralTier3 := 10000 * COIN;
  nTieredMNActivationHeight := 50;
  nMNv2MigrationHeight := 50;
  nMasternodeCollateralConfirmations := 1;
  nMasternodeActivationHeight := 1;
  nMasternodeRewardPercent := 45;
  nPoSePenaltyIncrement := 10;
  nPoSeBanThreshold := 100;
  nPoSeRevivalHeight := 24;
  nProUpServCooldown := 2;
  nProUpRegCooldown := 2;
  fMineBlocksOnDemand := true;
|}.
