(* ===== verification/Coins.v ===== *)
(** The unspent output set (coins.h, coins.cpp, and the part of validation.cpp
    that connects and disconnects a block's transactions): a cache of coins
    with dirty and fresh flags over another view.  What runs beside it on an
    asset cache is reached through the operations of [asset_ops], which AssetBlock
    gives; the amount of an asset script is a parameter, which AssetTypes gives.
    The theorems show that the cache refines a plain map of unspent
    outputs, that flushing into the parent cache makes the parent show exactly
    what the child showed and never trips its misuse check, and that
    disconnecting a connected block restores every unspent output. *)

From S2P Require Import Prelude Serialize Sha256 Script Primitives.

Record Coin := MkCoin { out : CTxOut; fCoinBase : bool; coin_nHeight : Z }.
(** The constructor; the height field has 31 bits. *)
Definition new_coin (outIn : CTxOut) (nHeightIn : Z) (fCoinBaseIn : bool) : Coin :=
  MkCoin outIn fCoinBaseIn (wrapu 31 nHeightIn).
Definition coinEmpty : Coin := MkCoin (MkTxOut (-1) []) false 0.
Definition IsSpent (c : Coin) : bool := c.(out).(nValue) =? -1.

(** The [DIRTY] and [FRESH] bits of [flags]. *)
Record CCoinsCacheEntry := MkEntry { coin : Coin; DIRTY : bool; FRESH : bool }.
Definition new_entry (c : Coin) : CCoinsCacheEntry := MkEntry c false false.
Abbreviation CCoinsMap := (gmap COutPoint CCoinsCacheEntry).

(** A backing view, by its [GetCoin]. *)
Abbreviation CCoinsView := (COutPoint -> option Coin).


(** What the coins ask of an asset cache [A], where assets are deployed: spending
    an output ([TrySpendCoin]), the outputs of a new transaction ([AddCoins]), the removal
    of a transaction ([DisconnectBlock]; [None] is [DISCONNECT_FAILED]), and an
    input that is restored ([UndoAssetCoin]).  The flags are the return values. *)
Record asset_ops (A : Type) := MkAssetOps {
  spend_asset : A -> CTxOut -> bool * A;
  add_assets : A -> CTransaction -> A;
  undo_assets : A -> CTransaction -> option A;
  undo_coin : A -> Coin -> bool * A;
}.
Arguments MkAssetOps {A}.
Arguments spend_asset {A}.
Arguments add_assets {A}.
Arguments undo_assets {A}.
Arguments undo_coin {A}.

Section Cache.
(** The amount an asset script carries (assets/assets.cpp). *)
Context (GetAssetAmountFromScript : CScript -> option Z).

Definition IsUnspendable (s : CScript) : bool :=
  ((0 <? length s)%nat && (at_ s 0 =? OP_RETURN))
  || ((0 <? length s)%nat && (at_ s 0 =? OP_RVN_ASSET))
  || (MAX_SCRIPT_SIZE <? Z.of_nat (length s))
  || match GetAssetAmountFromScript s with Some nAmount => nAmount =? 0 | None => false end.

Context (base : CCoinsView).

(** ** Operations of [CCoinsViewCache] *)

Definition FetchCoin (cache : CCoinsMap) (o : COutPoint) : option CCoinsCacheEntry * CCoinsMap :=
  match cache !! o with
  | Some e => (Some e, cache)
  | None =>
    match base o with
    | None => (None, cache)
    | Some tmp =>
      let e := MkEntry tmp false (IsSpent tmp) in
      (Some e, <[o := e]> cache)
    end
  end.

Definition GetCoin (cache : CCoinsMap) (o : COutPoint) : option Coin * CCoinsMap :=
  let '(it, cache) := FetchCoin cache o in
  (match it with Some e => if IsSpent e.(coin) then None else Some e.(coin) | None => None end, cache).

Definition AccessCoin (cache : CCoinsMap) (o : COutPoint) : Coin * CCoinsMap :=
  let '(it, cache) := FetchCoin cache o in
  (match it with Some e => e.(coin) | None => coinEmpty end, cache).

Definition HaveCoin (cache : CCoinsMap) (o : COutPoint) : bool * CCoinsMap :=
  let '(it, cache) := FetchCoin cache o in
  (match it with Some e => negb (IsSpent e.(coin)) | None => false end, cache).

Definition HaveCoinInCache (cache : CCoinsMap) (o : COutPoint) : bool :=
  match cache !! o with Some e => negb (IsSpent e.(coin)) | None => false end.

(** [None] is the failed assertion or the exception. *)
Definition AddCoin (cache : CCoinsMap) (o : COutPoint) (c : Coin) (possible_overwrite : bool)
  : option CCoinsMap :=
  if IsSpent c then None
  else if IsUnspendable c.(out).(scriptPubKey) then Some cache
  else
    let it := default (new_entry coinEmpty) (cache !! o) in
    if negb possible_overwrite && negb (IsSpent it.(coin)) then None
    else
      let fresh := negb possible_overwrite && negb it.(DIRTY) in
      Some (<[o := MkEntry c true (it.(FRESH) || fresh)]> cache).

(** The result, the coin moved out, and the cache, without an asset cache. *)
Definition SpendCoin (cache : CCoinsMap) (o : COutPoint) : bool * Coin * CCoinsMap :=
  let '(it, cache) := FetchCoin cache o in
  match it with
  | None => (false, coinEmpty, cache)
  | Some e =>
    if e.(FRESH) then (true, e.(coin), delete o cache)
    else (true, e.(coin), <[o := MkEntry coinEmpty true false]> cache)
  end.

Definition Uncache (cache : CCoinsMap) (o : COutPoint) : CCoinsMap :=
  match cache !! o with
  | Some e => if negb e.(DIRTY) && negb e.(FRESH) then delete o cache else cache
  | None => cache
  end.

(** One entry of the child's map written into the parent cache; [None] is the
    exception for a misapplied [FRESH] flag. *)
Definition batch_entry (cache : CCoinsMap) (p : COutPoint * CCoinsCacheEntry) : option CCoinsMap :=
  let '(o, it) := p in
  if negb it.(DIRTY) then Some cache
  else match cache !! o with
  | None =>
    if it.(FRESH) && IsSpent it.(coin) then Some cache
    else Some (<[o := MkEntry it.(coin) true it.(FRESH)]> cache)
  | Some us =>
    if it.(FRESH) && negb (IsSpent us.(coin)) then None
    else if us.(FRESH) && IsSpent it.(coin) then Some (delete o cache)
    else Some (<[o := MkEntry it.(coin) true us.(FRESH)]> cache)
  end.

Fixpoint batch_loop (cache : CCoinsMap) (entries : list (COutPoint * CCoinsCacheEntry)) : option CCoinsMap :=
  match entries with
  | [] => Some cache
  | p :: ps => c ← batch_entry cache p; batch_loop c ps
  end.

(** The order of an [unordered_map] is unspecified; the result does not depend
    on it, see [batch_lookup]. *)
Definition BatchWrite (cache mapCoins : CCoinsMap) : option CCoinsMap :=
  batch_loop cache (map_to_list mapCoins).

Fixpoint value_in (cache : CCoinsMap) (ins : list CTxIn) (nResult : Z) : Z * CCoinsMap :=
  match ins with
  | [] => (nResult, cache)
  | i :: ins' =>
    let '(c, cache) := AccessCoin cache i.(prevout) in
    value_in cache ins' (wraps 64 (nResult + c.(out).(nValue)))
  end.
Definition GetValueIn (cache : CCoinsMap) (tx : CTransaction) : Z * CCoinsMap :=
  if IsCoinBase tx then (0, cache) else value_in cache tx.(vin) 0.

Fixpoint have_inputs (cache : CCoinsMap) (ins : list CTxIn) : bool * CCoinsMap :=
  match ins with
  | [] => (true, cache)
  | i :: ins' =>
    let '(b, cache) := HaveCoin cache i.(prevout) in
    if b then have_inputs cache ins' else (false, cache)
  end.
Definition HaveInputs (cache : CCoinsMap) (tx : CTransaction) : bool * CCoinsMap :=
  if IsCoinBase tx then (true, cache) else have_inputs cache tx.(vin).

(** ** Connecting transactions *)

Context `{HH : Hash256}.

(** The outputs of a transaction from index [i], with [check] false. *)
Fixpoint add_outputs (cache : CCoinsMap) (txid : uint256) (nHeight : Z) (coinbase : bool) (i : Z)
  (outs : list CTxOut) : option CCoinsMap :=
  match outs with
  | [] => Some cache
  | o :: outs' =>
    c ← AddCoin cache (MkOutPoint txid i) (new_coin o nHeight coinbase) coinbase;
    add_outputs c txid nHeight coinbase (i + 1) outs'
  end.
Definition AddCoins (cache : CCoinsMap) (tx : CTransaction) (nHeight : Z) : option CCoinsMap :=
  add_outputs cache (GetHash tx) nHeight (IsCoinBase tx) 0 tx.(vout).

Context {A : Type} (ao : asset_ops A).

(** [SpendCoin] with an asset cache. *)
Definition SpendCoinAssets (cache : CCoinsMap) (a : A) (o : COutPoint) : bool * Coin * CCoinsMap * A :=
  let '(is_spent, moved, cache) := SpendCoin cache o in
  if negb is_spent then (false, moved, cache, a)
  else let '(ok, a) := ao.(spend_asset) a moved.(out) in (ok, moved, cache, a).

(** [None] when an input is not found or its asset not spent ([assert(is_spent)]). *)
Fixpoint spend_inputs (cache : CCoinsMap) (a : A) (ins : list CTxIn) : option (list Coin * CCoinsMap * A) :=
  match ins with
  | [] => Some ([], cache, a)
  | i :: ins' =>
    let '(is_spent, moved, cache, a) := SpendCoinAssets cache a i.(prevout) in
    if is_spent then '(undo, cache, a) ← spend_inputs cache a ins'; Some (moved :: undo, cache, a) else None
  end.
Definition UpdateCoins (cache : CCoinsMap) (a : A) (tx : CTransaction) (nHeight : Z) : option (list Coin * CCoinsMap * A) :=
  '(undo, cache, a) ← if IsCoinBase tx then Some ([], cache, a) else spend_inputs cache a tx.(vin);
  cache ← AddCoins cache tx nHeight;
  Some (undo, cache, ao.(add_assets) a tx).

(** ** Disconnecting *)

Inductive DisconnectResult := DISCONNECT_OK | DISCONNECT_UNCLEAN | DISCONNECT_FAILED.

(** [AccessByTxid], over [n] output indices from [i]. *)
Fixpoint access_by_txid (cache : CCoinsMap) (txid : uint256) (n : nat) (i : Z) : Coin * CCoinsMap :=
  match n with
  | O => (coinEmpty, cache)
  | S n' =>
    let '(alternate, cache) := AccessCoin cache (MkOutPoint txid i) in
    if negb (IsSpent alternate) then (alternate, cache) else access_by_txid cache txid n' (i + 1)
  end.

(** [maxOutputs] bounds the indices tried for missing metadata; [None] is the
    exception. *)
Definition ApplyTxInUndo (maxOutputs : nat) (undo : Coin) (cache : CCoinsMap) (a : A) (o : COutPoint)
  : option (DisconnectResult * CCoinsMap * A) :=
  let '(have, cache) := HaveCoin cache o in
  let fClean := negb have in
  let '(undo', cache) :=
    if undo.(coin_nHeight) =? 0 then
      let '(alternate, cache) := access_by_txid cache o.(op_hash) maxOutputs 0 in
      (if negb (IsSpent alternate)
       then Some (MkCoin undo.(out) alternate.(fCoinBase) alternate.(coin_nHeight)) else None, cache)
    else (Some undo, cache) in
  match undo' with
  | None => Some (DISCONNECT_FAILED, cache, a)
  | Some u =>
    cache ← AddCoin cache o u (negb fClean);
    let '(ok, a) := ao.(undo_coin) a undo in
    Some (if fClean && ok then DISCONNECT_OK else DISCONNECT_UNCLEAN, cache, a)
  end.

Definition txout_eqb (a b : CTxOut) : bool := (a.(nValue) =? b.(nValue)) && bytes_eq a.(scriptPubKey) b.(scriptPubKey).

(** Removing a transaction's outputs from index [i], with [tempCache] in [t]; the
    flag is [fClean]. *)
Fixpoint remove_outputs (cache : CCoinsMap) (t : A) (txid : uint256) (nHeight : Z) (coinbase : bool) (i : Z)
  (outs : list CTxOut) (fClean : bool) : bool * CCoinsMap * A :=
  match outs with
  | [] => (fClean, cache, t)
  | o :: outs' =>
    if IsUnspendable o.(scriptPubKey) then remove_outputs cache t txid nHeight coinbase (i + 1) outs' fClean
    else
      let '(is_spent, c, cache, t) := SpendCoinAssets cache t (MkOutPoint txid i) in
      let ok := is_spent && txout_eqb o c.(out) && (nHeight =? c.(coin_nHeight)) && eqb coinbase c.(fCoinBase) in
      remove_outputs cache t txid nHeight coinbase (i + 1) outs' (fClean && ok)
  end.

(** Restoring inputs, given in the order of the loop (last input first). *)
Fixpoint restore_inputs (maxOutputs : nat) (cache : CCoinsMap) (a : A) (rev_ins : list (COutPoint * Coin)) (fClean : bool)
  : option (option bool * CCoinsMap * A) :=
  match rev_ins with
  | [] => Some (Some fClean, cache, a)
  | (o, undo) :: rest =>
    '(res, cache, a) ← ApplyTxInUndo maxOutputs undo cache a o;
    match res with
    | DISCONNECT_FAILED => Some (None, cache, a)
    | DISCONNECT_UNCLEAN => restore_inputs maxOutputs cache a rest false
    | DISCONNECT_OK => restore_inputs maxOutputs cache a rest fClean
    end
  end.

(** One iteration of the loop over [vtx]; [first] marks the coinbase position. *)
Definition disconnect_tx (maxOutputs : nat) (cache : CCoinsMap) (t a : A) (nHeight : Z) (tx : CTransaction)
  (undo : list Coin) (first fClean : bool) : option (option bool * CCoinsMap * A * A) :=
  let '(fClean, cache, t) := remove_outputs cache t (GetHash tx) nHeight (IsCoinBase tx) 0 tx.(vout) fClean in
  match ao.(undo_assets) a tx with
  | None => Some (None, cache, t, a)
  | Some a =>
    if first then Some (Some fClean, cache, t, a)
    else if negb (length undo =? length tx.(vin))%nat then Some (None, cache, t, a)
    else '(res, cache, a) ← restore_inputs maxOutputs cache a (reverse (zip (prevout <$> tx.(vin)) undo)) fClean;
         Some (res, cache, t, a)
  end.

(** The transactions of the block, last first. *)
Fixpoint disconnect_txs (maxOutputs : nat) (cache : CCoinsMap) (t a : A) (nHeight : Z)
  (rev_vtx : list (CTransaction * list Coin)) (fClean : bool) : option (option bool * CCoinsMap * A) :=
  match rev_vtx with
  | [] => Some (Some fClean, cache, a)
  | (tx, undo) :: rest =>
    '(res, cache, t, a) ← disconnect_tx maxOutputs cache t a nHeight tx undo (match rest with [] => true | _ => false end) fClean;
    match res with
    | None => Some (None, cache, a)
    | Some fClean => disconnect_txs maxOutputs cache t a nHeight rest fClean
    end
  end.

(** [DisconnectBlock], but for the address indexes; [vtxundo] has no entry for the
    coinbase, and [readable] tells whether it and the block's asset undo data
    could be read.  [tempCache] starts as a copy of the asset cache. *)
Definition DisconnectBlock (maxOutputs : nat) (readable : bool) (cache : CCoinsMap) (a : A) (nHeight : Z) (vtx : list CTransaction)
  (vtxundo : list (list Coin)) : option (DisconnectResult * CCoinsMap * A) :=
  if negb readable then Some (DISCONNECT_FAILED, cache, a)
  else if negb (length vtxundo + 1 =? length vtx)%nat then Some (DISCONNECT_FAILED, cache, a)
  else
    '(res, cache, a) ← disconnect_txs maxOutputs cache a a nHeight (reverse (zip vtx ([] :: vtxundo))) true;
    Some (match res with
          | None => DISCONNECT_FAILED
          | Some true => DISCONNECT_OK
          | Some false => DISCONNECT_UNCLEAN
          end, cache, a).

(** *** The asset cache's part alone *)

Fixpoint spend_assets (a : A) (outs : list CTxOut) : option A :=
  match outs with
  | [] => Some a
  | o :: outs' => let '(ok, a) := ao.(spend_asset) a o in if ok : bool then spend_assets a outs' else None
  end.
Fixpoint try_assets (t : A) (outs : list CTxOut) : bool * A :=
  match outs with
  | [] => (true, t)
  | o :: outs' =>
    if IsUnspendable o.(scriptPubKey) then try_assets t outs'
    else let '(ok, t) := ao.(spend_asset) t o in let '(oks, t) := try_assets t outs' in (ok && oks, t)
  end.
Fixpoint restore_assets (a : A) (rev_coins : list Coin) : bool * A :=
  match rev_coins with
  | [] => (true, a)
  | k :: ks => let '(ok, a) := ao.(undo_coin) a k in let '(oks, a) := restore_assets a ks in (ok && oks, a)
  end.

(** What disconnecting the transactions, last first, does to the asset cache, and
    whether it is clean; [None] where it fails. *)
Fixpoint disconnect_assets (t a : A) (rev_vtx : list (CTransaction * list Coin)) : option (bool * A) :=
  match rev_vtx with
  | [] => Some (true, a)
  | (tx, undo) :: rest =>
    let '(ok, t) := try_assets t tx.(vout) in
    a ← ao.(undo_assets) a tx;
    let '(ok', a) := match rest with [] => (true, a) | _ => restore_assets a (reverse undo) end in
    '(oks, a) ← disconnect_assets t a rest;
    Some (ok && ok' && oks, a)
  end.

(** ** The unspent outputs a cache shows *)

Definition live (c : option Coin) : option Coin :=
  match c with Some k => if IsSpent k then None else Some k | None => None end.

Definition view (cache : CCoinsMap) : CCoinsView :=
  fun o => match cache !! o with Some e => live (Some e.(coin)) | None => live (base o) end.

(** What the flags promise: an entry that is not dirty agrees with the backing
    view, and a fresh one has nothing unspent behind it. *)
Definition entry_ok (o : COutPoint) (e : CCoinsCacheEntry) : Prop :=
  (e.(DIRTY) = false -> live (base o) = live (Some e.(coin))) /\ (e.(FRESH) = true -> live (base o) = None).
Definition cache_ok (cache : CCoinsMap) : Prop := map_Forall entry_ok cache.

(** The coin at [o] that outputs [outs], numbered from [i], create. *)
Fixpoint created (txid : uint256) (nHeight : Z) (coinbase : bool) (i : Z) (outs : list CTxOut) (o : COutPoint)
  : option Coin :=
  match outs with
  | [] => None
  | x :: outs' =>
    if decide (o = MkOutPoint txid i)
    then if IsUnspendable x.(scriptPubKey) then None else Some (new_coin x nHeight coinbase)
    else created txid nHeight coinbase (i + 1) outs' o
  end.
Definition tx_creates (nHeight : Z) (tx : CTransaction) : COutPoint -> option Coin :=
  created (GetHash tx) nHeight (IsCoinBase tx) 0 tx.(vout).

(** The outputs a transaction spends. *)
Definition tx_spends (tx : CTransaction) : list COutPoint :=
  if IsCoinBase tx then [] else prevout <$> tx.(vin).

(** The unspent outputs after a transaction, and after a block. *)
Definition apply_tx (nHeight : Z) (u : CCoinsView) (tx : CTransaction) : CCoinsView :=
  fun o => match tx_creates nHeight tx o with
           | Some k => Some k
           | None => if decide (o ∈ tx_spends tx) then None else u o
           end.
Definition apply_block (nHeight : Z) (u : CCoinsView) (vtx : list CTransaction) : CCoinsView :=
  fold_left (apply_tx nHeight) vtx u.

(** Every coin of the set is complete and could have been added. *)
Definition utxo_ok (u : CCoinsView) : Prop :=
  forall o k, u o = Some k -> k.(coin_nHeight) <> 0 /\ IsUnspendable k.(out).(scriptPubKey) = false /\ IsSpent k = false.

(** What validation has established of a transaction before it is applied: its
    inputs are distinct and unspent, its outputs are not null and new. *)
Definition tx_ok (nHeight : Z) (u : CCoinsView) (tx : CTransaction) : Prop :=
  NoDup (tx_spends tx) /\ Forall (fun o => u o <> None) (tx_spends tx)
  /\ Forall (fun x => x.(nValue) <> -1) tx.(vout)
  /\ (forall o, tx_creates nHeight tx o <> None -> u o = None).
Fixpoint txs_ok (nHeight : Z) (u : CCoinsView) (vtx : list CTransaction) : Prop :=
  match vtx with
  | [] => True
  | tx :: vtx' => tx_ok nHeight u tx /\ txs_ok nHeight (apply_tx nHeight u tx) vtx'
  end.

(** ** Sequences of operations *)

Inductive coins_op :=
| OpGet (o : COutPoint)
| OpHave (o : COutPoint)
| OpAccess (o : COutPoint)
| OpAdd (o : COutPoint) (k : Coin) (possible_overwrite : bool)
| OpSpend (o : COutPoint)
| OpUncache (o : COutPoint).

Definition run_op (c : CCoinsMap) (op : coins_op) : option CCoinsMap :=
  match op with
  | OpGet o => Some (GetCoin c o).2
  | OpHave o => Some (HaveCoin c o).2
  | OpAccess o => Some (AccessCoin c o).2
  | OpAdd o k ow => AddCoin c o k ow
  | OpSpend o => Some (SpendCoin c o).2
  | OpUncache o => Some (Uncache c o)
  end.
Fixpoint run_ops (c : CCoinsMap) (ops : list coins_op) : option CCoinsMap :=
  match ops with
  | [] => Some c
  | op :: ops' => c' ← run_op c op; run_ops c' ops'
  end.

(** The same operations on a plain map of unspent outputs. *)
Definition spec_op (u : CCoinsView) (op : coins_op) : CCoinsView :=
  match op with
  | OpAdd o k _ => fun o' => if decide (o' = o) then if IsUnspendable k.(out).(scriptPubKey) then u o else Some k else u o'
  | OpSpend o => fun o' => if decide (o' = o) then None else u o'
  | _ => u
  end.

(** What a caller of [AddCoin] owes: an unspent coin, and no silent overwrite. *)
Definition op_pre (u : CCoinsView) (op : coins_op) : Prop :=
  match op with
  | OpAdd o k ow => IsSpent k = false /\ (ow = false -> u o = None)
  | _ => True
  end.
Fixpoint ops_pre (u : CCoinsView) (ops : list coins_op) : Prop :=
  match ops with
  | [] => True
  | op :: ops' => op_pre u op /\ ops_pre (spec_op u op) ops'
  end.

(** ** Lemmas *)

Local Infix "≃" := (pointwise_relation COutPoint (@eq (option Coin))) (at level 70).

Lemma live_idem c : live (live c) = live c.
Proof. destruct c as [k|]; simpl; [|done]. destruct (IsSpent k) eqn:E; simpl; by rewrite ?E. Qed.

Lemma live_some c k : live c = Some k -> c = Some k /\ IsSpent k = false.
Proof. destruct c as [k'|]; simpl; [|done]. destruct (IsSpent k') eqn:E; [done|]. by intros [= ->]. Qed.

Lemma live_unspent k : IsSpent k = false -> live (Some k) = Some k.
Proof. intros E; simpl; by rewrite E. Qed.

Lemma view_unspent c o k : view c o = Some k -> IsSpent k = false.
Proof. unfold view. case_match; intros [_ ?]%live_some; done. Qed.

Lemma view_insert c o e o' : view (<[o := e]> c) o' = if decide (o' = o) then live (Some e.(coin)) else view c o'.
Proof. unfold view. case_decide; [subst; by rewrite lookup_insert_eq|by rewrite lookup_insert_ne]. Qed.

Lemma view_delete c o o' : view (delete o c) o' = if decide (o' = o) then live (base o) else view c o'.
Proof. unfold view. case_decide; [subst; by rewrite lookup_delete_eq|by rewrite lookup_delete_ne]. Qed.

Lemma cache_ok_insert c o e : cache_ok c -> entry_ok o e -> cache_ok (<[o := e]> c).
Proof. intros; by apply map_Forall_insert_2. Qed.

Lemma cache_ok_delete c o : cache_ok c -> cache_ok (delete o c).
Proof. intros; by apply map_Forall_delete. Qed.

(** Reading through the cache changes nothing that is visible. *)
Lemma FetchCoin_spec c o : cache_ok c -> let '(it, c') := FetchCoin c o in
  cache_ok c' /\ view c' ≃ view c /\ c' !! o = it
  /\ view c o = live (coin <$> it) /\ (it = None -> base o = None).
Proof.
  intros Hok. unfold FetchCoin. destruct (c !! o) as [e|] eqn:He.
  - split_and!; try done. unfold view; by rewrite He.
  - destruct (base o) as [k|] eqn:Hb.
    + split_and!; try done; [apply cache_ok_insert; [done|]; split; simpl| | |].
      * by rewrite Hb.
      * rewrite Hb; simpl. by intros ->.
      * intros o'. rewrite view_insert. case_decide; [|done]. subst. unfold view. by rewrite He, Hb.
      * by rewrite lookup_insert_eq.
      * unfold view. by rewrite He, Hb.
    + split_and!; try done. unfold view. by rewrite He, Hb.
Qed.

Lemma GetCoin_spec c o : cache_ok c ->
  (GetCoin c o).1 = view c o /\ cache_ok (GetCoin c o).2 /\ view (GetCoin c o).2 ≃ view c.
Proof.
  intros Hok. generalize (FetchCoin_spec c o Hok). unfold GetCoin.
  destruct (FetchCoin c o) as [it c']. intros (?&?&?&->&?). by destruct it.
Qed.

Lemma AccessCoin_spec c o : cache_ok c ->
  live (Some (AccessCoin c o).1) = view c o /\ cache_ok (AccessCoin c o).2 /\ view (AccessCoin c o).2 ≃ view c.
Proof.
  intros Hok. generalize (FetchCoin_spec c o Hok). unfold AccessCoin.
  destruct (FetchCoin c o) as [it c']. intros (?&?&?&->&?). by destruct it.
Qed.

Lemma HaveCoin_spec c o : cache_ok c ->
  (HaveCoin c o).1 = bool_decide (view c o <> None) /\ cache_ok (HaveCoin c o).2 /\ view (HaveCoin c o).2 ≃ view c.
Proof.
  intros Hok. generalize (FetchCoin_spec c o Hok). unfold HaveCoin.
  destruct (FetchCoin c o) as [it c']. intros (?&?&?&->&?). split_and!; try done.
  destruct it as [e|]; simpl; [|done]. by destruct (IsSpent (coin e)).
Qed.

Lemma Uncache_spec c o : cache_ok c -> cache_ok (Uncache c o) /\ view (Uncache c o) ≃ view c.
Proof.
  intros Hok. unfold Uncache. destruct (c !! o) as [e|] eqn:He; [|done].
  destruct (Hok _ _ He) as [Hd Hf]. destruct (DIRTY e), (FRESH e); try done. simpl.
  split; [by apply cache_ok_delete|]. intros o'. rewrite view_delete. case_decide; [|done].
  subst. unfold view. rewrite He. by apply Hd.
Qed.

Lemma SpendCoin_spec c o : cache_ok c -> let '(is_spent, moved, c') := SpendCoin c o in
  cache_ok c' /\ (forall o', view c' o' = if decide (o' = o) then None else view c o')
  /\ (forall k, view c o = Some k -> is_spent = true /\ moved = k).
Proof.
  intros Hok. generalize (FetchCoin_spec c o Hok). unfold SpendCoin.
  destruct (FetchCoin c o) as [[e|] c']; intros (Hok'&Hv&Hl&Ho&Hb); simpl in Ho.
  - destruct (Hok' _ _ Hl) as [Hd Hf]. destruct (FRESH e) eqn:EF.
    + split_and!; [by apply cache_ok_delete| |].
      * intros o'. rewrite view_delete. case_decide; [by apply Hf|apply Hv].
      * intros k. rewrite Ho. destruct (IsSpent (coin e)); [done|]. by intros [= ->].
    + split_and!; [by apply cache_ok_insert| |].
      * intros o'. rewrite view_insert. case_decide; [done|apply Hv].
      * intros k. rewrite Ho. destruct (IsSpent (coin e)); [done|]. by intros [= ->].
  - split_and!; [done| |by rewrite Ho].
    intros o'. rewrite (Hv o'). case_decide; [by subst|done].
Qed.

Lemma AddCoin_spec c o k ow : cache_ok c -> IsSpent k = false -> (ow = false -> view c o = None) ->
  exists c', AddCoin c o k ow = Some c' /\ cache_ok c'
  /\ (forall o', view c' o' = if decide (o' = o) then
                                if IsUnspendable k.(out).(scriptPubKey) then view c o else Some k
                              else view c o').
Proof.
  intros Hok Hs How. unfold AddCoin. rewrite Hs.
  destruct (IsUnspendable _) eqn:EU; [exists c; split_and!; [done..|]; intros o'; case_decide; by subst|].
  set (it := default _ _).
  assert (Hit : ow = false -> IsSpent it.(coin) = true /\ (it.(DIRTY) = false -> live (base o) = None)
                /\ (it.(FRESH) = true -> live (base o) = None)).
  { intros Hw. specialize (How Hw). unfold view in How. subst it.
    destruct (c !! o) as [e|] eqn:He; cbn [default coin DIRTY FRESH new_entry];
      [|split_and!; [done|auto..]].
    destruct (Hok _ _ He) as [Hd Hf]. simpl in How.
    cbn [from_option id]. destruct (IsSpent (coin e)) eqn:E; [|done].
    split_and!; [done| |done]. intros D. rewrite (Hd D). simpl. by rewrite E. }
  assert (Hf : it.(FRESH) = true -> live (base o) = None).
  { subst it. destruct (c !! o) as [e|] eqn:He; simpl; [|done]. by apply (Hok _ _ He). }
  replace (negb ow && negb (IsSpent (coin it))) with false
    by (destruct ow; [done|]; by rewrite (proj1 (Hit eq_refl))).
  eexists; split; [done|]. split.
  - apply cache_ok_insert; [done|]. split; simpl; [done|]. intros [|Hfr]%orb_true_iff; [auto|].
    apply andb_true_iff in Hfr as [Hw Hd%negb_true_iff]. destruct ow; [done|]. by apply (proj1 (proj2 (Hit eq_refl))).
  - intros o'. rewrite view_insert. simpl. by rewrite Hs.
Qed.

(** *** Writing a child's entries into the cache *)

Lemma batch_entry_spec c o it : cache_ok c -> (it.(FRESH) = true -> view c o = None) ->
  exists c', batch_entry c (o, it) = Some c' /\ cache_ok c'
  /\ (forall o', view c' o' = if decide (o' = o) then if it.(DIRTY) then live (Some it.(coin)) else view c o
                              else view c o').
Proof.
  intros Hok Hfr. unfold batch_entry. destruct (DIRTY it) eqn:ED; simpl.
  2: { exists c; split_and!; [done..|]. intros o'. case_decide; by subst. }
  unfold view in Hfr. destruct (c !! o) as [us|] eqn:Hus.
  - destruct (Hok _ _ Hus) as [Hd Hf].
    replace (FRESH it && negb (IsSpent (coin us))) with false.
    2: { destruct (FRESH it); [|done]. specialize (Hfr eq_refl). simpl in Hfr. by destruct (IsSpent (coin us)). }
    destruct (FRESH us && IsSpent (coin it)) eqn:E; eexists; split; try done.
    + apply andb_true_iff in E as [EF ES]. split; [by apply cache_ok_delete|].
      intros o'. rewrite view_delete. case_decide; [|done]. simpl. rewrite ES. by apply Hf.
    + split; [by apply cache_ok_insert|]. intros o'. by rewrite view_insert.
  - destruct (FRESH it && IsSpent (coin it)) eqn:E; eexists; split; try done.
    + apply andb_true_iff in E as [EF ES]. split; [done|]. intros o'. case_decide; [|done].
      subst o'. rewrite ES. unfold view. rewrite Hus. by apply Hfr.
    + split; [by apply cache_ok_insert|]. intros o'. by rewrite view_insert.
Qed.

(** The parent after any list of entries for distinct outpoints: the written
    entries are visible, whatever their order. *)
Lemma batch_lookup l : forall c, cache_ok c -> NoDup l.*1 ->
  Forall (fun p => p.2.(FRESH) = true -> view c p.1 = None) l ->
  exists c', batch_loop c l = Some c' /\ cache_ok c'
  /\ (forall o, view c' o = match (list_to_map l : CCoinsMap) !! o with
                            | Some it => if it.(DIRTY) then live (Some it.(coin)) else view c o
                            | None => view c o
                            end).
Proof.
  induction l as [|[o it] l IH]; intros c Hok Hnd Hfr; [by exists c|].
  apply NoDup_cons in Hnd as [Hni Hnd]. apply Forall_cons in Hfr as [Hf Hfr].
  destruct (batch_entry_spec c o it Hok Hf) as (c1&E1&Hok1&Hv1).
  destruct (IH c1) as (c'&E'&Hok'&Hv'); [done..| |].
  { apply Forall_forall. intros [o' it'] Hin Hf'. simpl. rewrite (Hv1 o'). case_decide as Ho.
    - subst. destruct Hni. apply list_elem_of_fmap. by exists (o, it').
    - by apply (proj1 (Forall_forall _ _) Hfr _ Hin). }
  exists c'. split_and!; [cbn [batch_loop]; by rewrite E1|done|].
  intros o'. rewrite Hv', Hv1. simpl. destruct (decide (o' = o)) as [->|Hne].
  - rewrite lookup_insert_eq. rewrite (not_elem_of_list_to_map_1 l o); done.
  - by rewrite lookup_insert_ne.
Qed.

Lemma BatchWrite_spec c m : cache_ok c -> (forall o it, m !! o = Some it -> it.(FRESH) = true -> view c o = None) ->
  exists c', BatchWrite c m = Some c' /\ cache_ok c'
  /\ (forall o, view c' o = match m !! o with
                            | Some it => if it.(DIRTY) then live (Some it.(coin)) else view c o
                            | None => view c o
                            end).
Proof.
  intros Hok Hfr. destruct (batch_lookup (map_to_list m) c) as (c'&E&Hok'&Hv); [done|apply NoDup_fst_map_to_list| |].
  - apply Forall_forall. intros [o it] Hin. by apply Hfr, elem_of_map_to_list.
  - exists c'. split_and!; [done..|]. intros o. by rewrite Hv, list_to_map_to_list.
Qed.

(** *** Connecting and disconnecting *)

Lemma tx_creates_unspendable nHeight tx o k : tx_creates nHeight tx o = Some k ->
  IsUnspendable k.(out).(scriptPubKey) = false /\ k.(coin_nHeight) = wrapu 31 nHeight /\ k.(out) ∈ tx.(vout).
Proof.
  unfold tx_creates. generalize 0. induction (vout tx) as [|x l IH]; intros i; simpl; [done|].
  case_decide; [|intros (?&?&?)%IH; split_and!; [done..|by apply list_elem_of_further]].
  destruct (IsUnspendable (scriptPubKey x)) eqn:E; [done|]. intros [= <-]. split_and!; [done..|apply list_elem_of_here].
Qed.

Lemma created_lt txid h cb outs : forall i n, n < i -> created txid h cb i outs (MkOutPoint txid n) = None.
Proof.
  induction outs as [|x l IH]; intros i n Hn; simpl; [done|].
  rewrite decide_False by (intros [= ?]; lia). apply IH. lia.
Qed.

Lemma add_outputs_spec txid h cb outs : forall i c, cache_ok c ->
  Forall (fun x => x.(nValue) <> -1) outs ->
  (forall o, created txid h cb i outs o <> None -> view c o = None) ->
  exists c', add_outputs c txid h cb i outs = Some c' /\ cache_ok c'
  /\ (forall o, view c' o = match created txid h cb i outs o with Some k => Some k | None => view c o end).
Proof.
  induction outs as [|x l IH]; intros i c Hok Hnn Hnew; [by exists c|].
  apply Forall_cons in Hnn as [Hx Hnn]. simpl in Hnew.
  assert (Hs : IsSpent (new_coin x h cb) = false) by (by apply Z.eqb_neq).
  destruct (IsUnspendable (scriptPubKey x)) eqn:EU.
  - assert (E : AddCoin c (MkOutPoint txid i) (new_coin x h cb) cb = Some c)
      by (unfold AddCoin; simpl; by rewrite Hs, EU).
    destruct (IH (i + 1) c) as (c'&E'&Hok'&Hv'); [done..| |].
    { intros o Ho. apply Hnew. rewrite decide_False; [done|]. intros ->. rewrite created_lt in Ho by lia. done. }
    exists c'. split_and!; [cbn [add_outputs]; by rewrite E|done|].
    intros o. rewrite Hv'. simpl. case_decide as Ho; [|done]. subst. by rewrite created_lt by lia; rewrite EU.
  - destruct (AddCoin_spec c (MkOutPoint txid i) (new_coin x h cb) cb) as (c1&E1&Hok1&Hv1); [done..| |].
    { intros _. apply Hnew. by rewrite decide_True. }
    destruct (IH (i + 1) c1) as (c'&E'&Hok'&Hv'); [done..| |].
    { intros o Ho. rewrite Hv1. assert (o <> MkOutPoint txid i) as Hne.
      { intros ->. rewrite created_lt in Ho by lia. done. }
      rewrite !decide_False by done. apply Hnew. by rewrite decide_False. }
    exists c'. split_and!; [cbn [add_outputs]; by rewrite E1|done|].
    intros o. rewrite Hv', Hv1. simpl. case_decide as Ho; [|done]. subst. rewrite created_lt by lia. by rewrite EU.
Qed.

Lemma remove_outputs_spec txid h cb outs : 0 <= h < 2 ^ 31 -> forall i c, cache_ok c ->
  (forall o k, created txid h cb i outs o = Some k -> view c o = Some k) ->
  exists c', (forall t fc, remove_outputs c t txid h cb i outs fc
    = let '(ok, t) := try_assets t outs in (fc && ok, c', t)) /\ cache_ok c'
  /\ (forall o, view c' o = match created txid h cb i outs o with Some _ => None | None => view c o end).
Proof.
  intros Hh. induction outs as [|x l IH]; intros i c Hok Hin.
  { exists c. split_and!; [|done..]. intros t fc. cbn. by rewrite andb_true_r. }
  assert (Hlt : created txid h cb (i + 1) l (MkOutPoint txid i) = None) by (apply created_lt; lia).
  cbn [created remove_outputs try_assets] in Hin |- *. destruct (IsUnspendable (scriptPubKey x)) eqn:EU.
  - destruct (IH (i + 1) c) as (c'&E'&Hok'&Hv'); [done| |].
    { intros o k Ho. apply Hin. rewrite decide_False; [done|]. intros ->. by rewrite Hlt in Ho. }
    exists c'. split_and!; [done..|]. intros o. rewrite Hv'. case_decide; [|done]. subst. by rewrite Hlt.
  - assert (Hi : view c (MkOutPoint txid i) = Some (new_coin x h cb)) by (apply Hin; by rewrite decide_True).
    unfold SpendCoinAssets. generalize (SpendCoin_spec c (MkOutPoint txid i) Hok).
    destruct (SpendCoin c (MkOutPoint txid i)) as [[sp mv] c1]. intros (Hok1&Hv1&Hs).
    destruct (Hs _ Hi) as [-> ->]. cbn [negb new_coin out].
    destruct (IH (i + 1) c1) as (c'&E'&Hok'&Hv'); [done| |].
    { intros o k Ho. rewrite Hv1. assert (o <> MkOutPoint txid i) as Hne by (intros ->; by rewrite Hlt in Ho).
      rewrite decide_False by done. apply Hin. by rewrite decide_False. }
    exists c'. split_and!; [|done|].
    + intros t fc. destruct (spend_asset ao t x) as [ok t1]. cbn [new_coin out fCoinBase coin_nHeight]. rewrite wrapu_id by done.
      assert (txout_eqb x x = true) as -> by (apply andb_true_iff; split; [apply Z.eqb_refl|by apply bytes_eq_spec]).
      rewrite Z.eqb_refl, eqb_reflx, E'. destruct (try_assets t1 l) as [oks t2].
      by rewrite !andb_true_r, andb_assoc.
    + intros o. rewrite Hv', Hv1. destruct (decide (o = MkOutPoint txid i)) as [->|]; [by rewrite Hlt|done].
Qed.

Lemma Forall2_impl_in {X B} (P Q : X -> B -> Prop) l k :
  Forall2 P l k -> (forall x y, x ∈ l -> P x y -> Q x y) -> Forall2 Q l k.
Proof. induction 1; constructor; set_solver. Qed.

Lemma spend_inputs_spec ins : forall c, cache_ok c -> NoDup (prevout <$> ins) ->
  Forall (fun o => view c o <> None) (prevout <$> ins) ->
  exists undo c', (forall a, spend_inputs c a ins = (a ← spend_assets a (out <$> undo); Some (undo, c', a))) /\ cache_ok c'
  /\ (forall o, view c' o = if decide (o ∈ prevout <$> ins) then None else view c o)
  /\ Forall2 (fun o k => view c o = Some k) (prevout <$> ins) undo.
Proof.
  induction ins as [|i l IH]; intros c Hok Hnd Hin.
  { by exists [], c. }
  simpl in Hnd, Hin. apply NoDup_cons in Hnd as [Hni Hnd]. apply Forall_cons in Hin as [Hi Hin].
  destruct (view c (prevout i)) as [k|] eqn:Hk; [|done].
  generalize (SpendCoin_spec c (prevout i) Hok). cbn [spend_inputs]. unfold SpendCoinAssets.
  destruct (SpendCoin c (prevout i)) as [[sp mv] c1]. intros (Hok1&Hv1&Hs). destruct (Hs _ Hk) as [-> ->].
  assert (Hsame : forall o, o ∈ prevout <$> l -> view c1 o = view c o).
  { intros o Ho. rewrite Hv1, decide_False; [done|]. by intros ->. }
  destruct (IH c1) as (undo&c'&E'&Hok'&Hv'&Hu); [done..| |].
  { apply Forall_forall. intros o Ho. rewrite Hsame by done. by apply (proj1 (Forall_forall _ _) Hin). }
  exists (k :: undo), c'. split_and!; [|done| |].
  - intros a. cbn [negb fmap list_fmap spend_assets]. destruct (spend_asset ao a (out k)) as [[] a1]; [|done].
    rewrite E'. by destruct (spend_assets a1 (out <$> undo)).
  - intros o. rewrite Hv', Hv1. cbn [fmap list_fmap].
    destruct (decide (o = prevout i)) as [->|]; [rewrite (decide_True (P := _ ∈ _ :: _)) by apply list_elem_of_here; by case_decide|].
    case_decide; [by rewrite decide_True by (by apply list_elem_of_further)|].
    by rewrite decide_False by (by intros [?|?]%elem_of_cons).
  - constructor; [done|]. apply (Forall2_impl_in _ _ _ _ Hu).
    intros o k' Ho Hv. by rewrite <- Hsame.
Qed.

Lemma ApplyTxInUndo_clean n k c o : cache_ok c -> k.(coin_nHeight) <> 0 ->
  IsUnspendable k.(out).(scriptPubKey) = false -> IsSpent k = false -> view c o = None ->
  exists c', (forall a, ApplyTxInUndo n k c a o = let '(ok, a) := ao.(undo_coin) a k in
                Some (if ok then DISCONNECT_OK else DISCONNECT_UNCLEAN, c', a)) /\ cache_ok c'
  /\ (forall o', view c' o' = if decide (o' = o) then Some k else view c o').
Proof.
  intros Hok Hh Hus Hsp Ho. unfold ApplyTxInUndo.
  destruct (HaveCoin_spec c o Hok) as (Hh1&Hok1&Hv1). destruct (HaveCoin c o) as [have c1]. simpl in *.
  rewrite Ho in Hh1. subst have. rewrite (proj2 (Z.eqb_neq _ _)) by done. simpl.
  destruct (AddCoin_spec c1 o k false) as (c'&E&Hok'&Hv'); [done..|intros _; by rewrite (Hv1 o)|].
  exists c'. rewrite E. split_and!; [done..|]. intros o'. rewrite Hv', Hus. by rewrite (Hv1 o').
Qed.

Lemma restore_inputs_spec n l : forall c, cache_ok c -> NoDup l.*1 ->
  Forall (fun p => view c p.1 = None /\ p.2.(coin_nHeight) <> 0
                   /\ IsUnspendable p.2.(out).(scriptPubKey) = false /\ IsSpent p.2 = false) l ->
  exists c', (forall a fc, restore_inputs n c a l fc = let '(ok, a) := restore_assets a l.*2 in Some (Some (fc && ok), c', a)) /\ cache_ok c'
  /\ (forall o, view c' o = match (list_to_map l : gmap COutPoint Coin) !! o with Some k => Some k | None => view c o end).
Proof.
  induction l as [|[o k] l IH]; intros c Hok Hnd Hl.
  { exists c. split_and!; [|done..]. intros a fc. cbn. by rewrite andb_true_r. }
  apply NoDup_cons in Hnd as [Hni Hnd]. apply Forall_cons in Hl as [(Ho&Hh&Hus&Hsp) Hl].
  destruct (ApplyTxInUndo_clean n k c o) as (c1&E1&Hok1&Hv1); [done..|].
  destruct (IH c1) as (c'&E'&Hok'&Hv'); [done..| |].
  { apply Forall_forall. intros [o' k'] Hin.
    destruct (proj1 (Forall_forall _ _) Hl _ Hin) as (?&?&?&?). split_and!; try done.
    rewrite (Hv1 _). rewrite decide_False; [done|]. intros Heq. simpl in Heq. subst.
    destruct Hni. apply list_elem_of_fmap. by exists (o, k'). }
  exists c'. split_and!; [|done|].
  - intros a fc. cbn [restore_inputs fmap list_fmap snd restore_assets]. rewrite E1. destruct (undo_coin ao a k) as [ok a1]. cbn.
    destruct ok; rewrite E'; cbn [fmap list_fmap]; destruct (restore_assets a1 _) as [oks a2]; [done|]. by rewrite andb_false_r.
  - intros o'. rewrite Hv', Hv1. simpl. destruct (decide (o' = o)) as [->|Hne].
    + rewrite lookup_insert_eq, (not_elem_of_list_to_map_1 l o); done.
    + by rewrite lookup_insert_ne.
Qed.

(** [UpdateCoins] on a transaction that fits the unspent outputs: only the asset
    cache can make it fail. *)
Lemma UpdateCoins_spec h c tx : cache_ok c -> tx_ok h (view c) tx ->
  exists undo c', (forall a, UpdateCoins c a tx h = (a ← spend_assets a (out <$> undo); Some (undo, c', ao.(add_assets) a tx)))
  /\ cache_ok c' /\ view c' ≃ apply_tx h (view c) tx
  /\ Forall2 (fun o k => view c o = Some k) (tx_spends tx) undo.
Proof.
  intros Hok (Hnd&Hin&Hnn&Hnew). unfold UpdateCoins, AddCoins.
  assert (exists undo c1, (forall a, (if IsCoinBase tx then Some ([], c, a) else spend_inputs c a tx.(vin))
      = (a ← spend_assets a (out <$> undo); Some (undo, c1, a)))
    /\ cache_ok c1 /\ (forall o, view c1 o = if decide (o ∈ tx_spends tx) then None else view c o)
    /\ Forall2 (fun o k => view c o = Some k) (tx_spends tx) undo) as (undo&c1&E1&Hok1&Hv1&Hu).
  { unfold tx_spends in *. destruct (IsCoinBase tx); [by exists [], c|by apply spend_inputs_spec]. }
  destruct (add_outputs_spec (GetHash tx) h (IsCoinBase tx) tx.(vout) 0 c1) as (c'&E'&Hok'&Hv'); [done..| |].
  { intros o Ho. rewrite Hv1. case_decide; [done|]. by apply Hnew. }
  exists undo, c'. split_and!; [|done| |done].
  - intros a. rewrite E1. destruct (spend_assets a (out <$> undo)); [|done]. cbn. by rewrite E'.
  - intros o. rewrite Hv', Hv1. reflexivity.
Qed.

Lemma zip_fst {X B} (l : list X) : forall (k : list B), length l = length k -> (zip l k).*1 = l.
Proof. induction l as [|x l IH]; intros [|y k]; simpl; try done. intros [= ?]. f_equal. auto. Qed.

Lemma zip_snd {X B} (l : list X) : forall (k : list B), length l = length k -> (zip l k).*2 = k.
Proof. induction l as [|x l IH]; intros [|y k]; simpl; try done. intros [= ?]. f_equal. auto. Qed.

(** Disconnecting an applied transaction restores the coins, unless the asset
    cache fails; [None] is its failure. *)
Lemma disconnect_tx_spec n h c u tx undo : 0 <= h < 2 ^ 31 -> cache_ok c -> utxo_ok u -> tx_ok h u tx ->
  Forall2 (fun o k => u o = Some k) (tx_spends tx) undo -> view c ≃ apply_tx h u tx ->
  exists c1 c', (forall t a fc, disconnect_tx n c t a h tx undo (IsCoinBase tx) fc
    = let '(ok, t) := try_assets t tx.(vout) in
      match ao.(undo_assets) a tx with
      | None => Some (None, c1, t, a)
      | Some a => let '(ok', a) := if IsCoinBase tx then (true, a) else restore_assets a (reverse undo) in
                  Some (Some (fc && ok && ok'), c', t, a)
      end) /\ cache_ok c' /\ view c' ≃ u.
Proof.
  intros Hh Hok Hu (Hnd&Hin&Hnn&Hnew) Hundo Hv. unfold disconnect_tx.
  destruct (remove_outputs_spec (GetHash tx) h (IsCoinBase tx) tx.(vout) Hh 0 c Hok) as (c1&E1&Hok1&Hv1).
  { intros o k Ho. rewrite (Hv o). unfold apply_tx, tx_creates. by rewrite Ho. }
  exists c1. assert (Hv1' : forall o, view c1 o = if decide (o ∈ tx_spends tx) then None else u o).
  { intros o. rewrite Hv1, (Hv o). unfold apply_tx. specialize (Hnew o). unfold tx_creates in *.
    destruct (created _ _ _ _ _ o); [rewrite Hnew by done; by case_decide|done]. }
  unfold tx_spends in *. destruct (IsCoinBase tx).
  { exists c1. split_and!; [|done..]. intros t a fc. rewrite E1. destruct (try_assets t _) as [ok t'].
    destruct (undo_assets ao a tx); [|done]. by rewrite andb_true_r. }
  assert (Hlen := Forall2_length _ _ _ Hundo). rewrite length_fmap in Hlen.
  rewrite (proj2 (Nat.eqb_eq _ _)) by done. cbn [negb].
  set (l := reverse (zip (prevout <$> vin tx) undo)).
  assert (Hfst : l.*1 = reverse (prevout <$> vin tx)).
  { unfold l. rewrite fmap_reverse, zip_fst by (by rewrite length_fmap). done. }
  assert (Hsnd : l.*2 = reverse undo).
  { unfold l. rewrite fmap_reverse, zip_snd by (by rewrite length_fmap). done. }
  assert (Hl : forall o k, (o, k) ∈ l -> o ∈ prevout <$> vin tx /\ u o = Some k).
  { intros o k Ho. unfold l in Ho. rewrite elem_of_reverse in Ho. apply list_elem_of_lookup in Ho as [j Hj].
    apply lookup_zip_with_Some in Hj as (o'&k'&[= -> ->]&Ho&Hk).
    split; [by eapply list_elem_of_lookup_2|by apply (Forall2_lookup_lr _ _ _ _ _ _ Hundo Ho Hk)]. }
  assert (HndR : NoDup l.*1) by (rewrite Hfst; by rewrite reverse_Permutation).
  destruct (restore_inputs_spec n l c1 Hok1) as (c'&E'&Hok'&Hv'); [done| |].
  { apply Forall_forall. intros [o k] [Hi Ho]%Hl. destruct (Hu _ _ Ho) as (?&?&?).
    split_and!; [|done..]. simpl. by rewrite Hv1', decide_True. }
  exists c'. split_and!; [|done|].
  - intros t a fc. rewrite E1. destruct (try_assets t _) as [ok t']. destruct (undo_assets ao a tx) as [a'|]; [|done].
    rewrite E', Hsnd. by destruct (restore_assets a' _).
  - intros o. rewrite Hv'. destruct (list_to_map l !! o) as [k|] eqn:El.
    + symmetry. apply (Hl o k). by apply elem_of_list_to_map_2.
    + apply not_elem_of_list_to_map_2 in El. rewrite Hfst, elem_of_reverse in El. by rewrite Hv1', decide_False.
Qed.

(** *** The view as a map up to pointwise equality *)

#[local] Instance apply_tx_proper h :
  Proper (pointwise_relation _ eq ==> eq ==> pointwise_relation _ eq) (apply_tx h).
Proof. intros u v Huv tx ? <- o. unfold apply_tx. by rewrite (Huv o). Qed.

#[local] Instance apply_block_proper h :
  Proper (pointwise_relation _ eq ==> eq ==> pointwise_relation _ eq) (apply_block h).
Proof.
  intros u v Huv vtx ? <-. revert u v Huv. induction vtx as [|tx vtx IH]; intros u v Huv; simpl; [done|].
  apply IH. by rewrite Huv.
Qed.

#[local] Instance tx_ok_proper h : Proper (pointwise_relation _ eq ==> eq ==> impl) (tx_ok h).
Proof.
  intros u v Huv tx ? <- (?&Hin&?&Hnew). split_and!; [done| |done|intros o Ho; rewrite <- (Huv o); auto].
  apply (Forall_impl _ _ _ Hin). intros o. by rewrite (Huv o).
Qed.

#[local] Instance txs_ok_proper h : Proper (pointwise_relation _ eq ==> eq ==> impl) (txs_ok h).
Proof.
  intros u v Huv vtx ? <-. revert u v Huv.
  induction vtx as [|tx vtx IH]; intros u v Huv; [done|]. intros [Htx Hvtx]. split.
  - by rewrite <- Huv.
  - apply (IH (apply_tx h u tx)); [by rewrite Huv|done].
Qed.

#[local] Instance utxo_ok_proper : Proper (pointwise_relation _ eq ==> impl) utxo_ok.
Proof. intros u v Huv Hu o k. rewrite <- (Huv o). apply Hu. Qed.

Lemma utxo_ok_apply h u tx : 0 < h < 2 ^ 31 -> utxo_ok u -> tx_ok h u tx -> utxo_ok (apply_tx h u tx).
Proof.
  clear base. intros Hh Hu (_&_&Hnn&_) o k. unfold apply_tx. destruct (tx_creates h tx o) as [k'|] eqn:E.
  - intros [= <-]. apply tx_creates_unspendable in E as (HU&Hkh&Hout).
    rewrite Hkh, wrapu_id by lia. split_and!; [lia|done|]. apply Z.eqb_neq.
    by apply (proj1 (Forall_forall _ _) Hnn).
  - case_decide; [done|apply Hu].
Qed.

(** *** Blocks *)

(** The undo data of the transactions are the coins that they spend. *)
Fixpoint undos_right (nHeight : Z) (u : CCoinsView) (vtx : list CTransaction) (undos : list (list Coin)) : Prop :=
  match vtx, undos with
  | [], [] => True
  | tx :: vtx', undo :: undos' =>
    Forall2 (fun o k => u o = Some k) (tx_spends tx) undo /\ undos_right nHeight (apply_tx nHeight u tx) vtx' undos'
  | _, _ => False
  end.

#[local] Instance undos_right_proper h : Proper (pointwise_relation _ eq ==> eq ==> eq ==> impl) (undos_right h).
Proof.
  intros u v Huv vtx ? <- undos ? <-. revert u v undos Huv.
  induction vtx as [|tx vtx IH]; intros u v [|undo undos] Huv; try done. intros [Hu Hus]. split.
  - eapply Forall2_impl; [exact Hu|]. intros o k. cbn. by rewrite (Huv o).
  - apply (IH (apply_tx h u tx)); [by rewrite Huv|done].
Qed.

Lemma undos_right_length h vtx : forall u undos, undos_right h u vtx undos -> length undos = length vtx.
Proof. induction vtx as [|tx vtx IH]; intros u [|undo undos]; try done. intros [_ H]. cbn. f_equal. by eapply IH. Qed.

Lemma apply_block_app h vtx vtx' u : apply_block h u (vtx ++ vtx') = apply_block h (apply_block h u vtx) vtx'.
Proof. apply fold_left_app. Qed.

Lemma txs_ok_app h vtx vtx' : forall u, txs_ok h u (vtx ++ vtx') -> txs_ok h u vtx /\ txs_ok h (apply_block h u vtx) vtx'.
Proof. induction vtx as [|tx vtx IH]; intros u; [done|]. intros [Htx [? ?]%IH]. done. Qed.

Lemma undos_right_app h vtx vtx' : forall u undos undos', undos_right h u (vtx ++ vtx') (undos ++ undos') ->
  length undos = length vtx -> undos_right h u vtx undos /\ undos_right h (apply_block h u vtx) vtx' undos'.
Proof.
  induction vtx as [|tx vtx IH]; intros u [|undo undos] undos'; try done. intros [Hu Hus] [= Hl].
  destruct (IH _ _ _ Hus Hl). done.
Qed.

Lemma apply_block_utxo_ok h vtx : 0 < h < 2 ^ 31 -> forall u, utxo_ok u -> txs_ok h u vtx -> utxo_ok (apply_block h u vtx).
Proof.
  clear base. intros Hh. induction vtx as [|tx vtx IH]; intros u Hu; [done|]. intros [Htx Htxs]. cbn. apply IH; [|done].
  by apply utxo_ok_apply.
Qed.

(** A result of [disconnect_txs], as the asset cache decides it: the coins are
    [c'] unless it fails. *)
Definition decided (c' : CCoinsMap) (fc : bool) (assets : option (bool * A)) (r : option (option bool * CCoinsMap * A)) : Prop :=
  match assets with
  | None => exists c a, r = Some (None, c, a)
  | Some (ok, a) => r = Some (Some (fc && ok), c', a)
  end.

(** Undoing [vtx], where all but the first are no coinbases. *)
Lemma disconnect_txs_spec n h coinbase : 0 < h < 2 ^ 31 -> IsCoinBase coinbase = true -> forall vtx u undos c,
  utxo_ok u -> txs_ok h u (coinbase :: vtx) -> Forall (fun tx => IsCoinBase tx = false) vtx ->
  undos_right h u (coinbase :: vtx) ([] :: undos) -> cache_ok c -> view c ≃ apply_block h u (coinbase :: vtx) ->
  exists c', cache_ok c' /\ view c' ≃ u
  /\ forall t a fc, let l := reverse (zip (coinbase :: vtx) ([] :: undos)) in
     decided c' fc (disconnect_assets t a l) (disconnect_txs n c t a h l fc).
Proof.
  intros Hh Hcb vtx. induction vtx as [|tx vtx IH] using rev_ind; intros u undos c Hu Htxs Hncb Hundos Hok Hv.
  { destruct Htxs as [Htx _], Hundos as [Hundo Hus]. destruct undos; [|done].
    destruct (disconnect_tx_spec n h c u coinbase []) as (c1&c2&E&Hok2&Hv2); try done; [lia|].
    exists c2. split_and!; [done..|]. intros t a fc. cbn. rewrite Hcb in E. rewrite E.
    destruct (try_assets t _) as [ok t']. destruct (undo_assets ao a coinbase) as [a'|]; cbn; [|by eexists _, _].
    by rewrite !andb_true_r. }
  pose proof (undos_right_length _ _ _ _ Hundos) as Hlen. cbn in Hlen. rewrite length_app in Hlen. cbn in Hlen.
  destruct undos as [|undo undos _] using rev_ind; [cbn in Hlen; lia|]. rewrite length_app in Hlen. cbn in Hlen.
  apply Forall_app in Hncb as [Hncb [Htcb _]%Forall_cons].
  destruct (txs_ok_app h (coinbase :: vtx) [tx] u Htxs) as [Htxs1 [Htx _]].
  destruct (undos_right_app h (coinbase :: vtx) [tx] u ([] :: undos) [undo] Hundos) as [Hun1 [Hun _]]; [cbn; lia|].
  rewrite (apply_block_app h (coinbase :: vtx) [tx] u : apply_block h u (coinbase :: vtx ++ [tx]) = _) in Hv.
  destruct (disconnect_tx_spec n h c (apply_block h u (coinbase :: vtx)) tx undo) as (c1&c2&E&Hok2&Hv2); try done; [lia| |].
  { apply apply_block_utxo_ok; [lia|done..]. }
  destruct (IH u undos c2) as (c3&Hok3&Hv3&E3); try done. exists c3. split_and!; [done..|]. intros t a fc. cbv zeta.
  change (zip (coinbase :: vtx ++ [tx]) ([] :: undos ++ [undo])) with (zip ((coinbase :: vtx) ++ [tx]) (([] :: undos) ++ [undo])).
  rewrite zip_with_app by (cbn; lia). rewrite reverse_app.
  set (l := reverse (zip (coinbase :: vtx) ([] :: undos))) in *. change (reverse (zip [tx] [undo]) ++ l) with ((tx, undo) :: l).
  assert (exists x l', l = x :: l') as (x&l'&El).
  { destruct l as [|x l'] eqn:El; [|by exists x, l']. apply (f_equal length) in El. unfold l in El.
    rewrite length_reverse in El. cbn in El. done. }
  assert (forall X (y z : X), match l with [] => y | _ :: _ => z end = z) as Hl by (intros; by rewrite El).
  clear El. clearbody l. cbn [disconnect_txs disconnect_assets]. rewrite Hl, <- Htcb, E, Htcb.
  destruct (try_assets t _) as [ok t']. destruct (undo_assets ao a tx) as [a'|]; cbn [mbind option_bind]; [|by eexists _, _].
  rewrite Hl. destruct (restore_assets a' _) as [ok' a'']. specialize (E3 t' a'' (fc && ok && ok')). cbv zeta in E3.
  destruct (disconnect_assets t' a'' l) as [[oks a3]|]; cbn in *; [|done]. rewrite E3. by rewrite !andb_assoc.
Qed.

(** A block that was applied to [u] is undone by its undo data, on any cache
    that shows the result, as far as the asset cache allows. *)
Lemma DisconnectBlock_spec n h u coinbase vtx vtxundo c : 0 < h < 2 ^ 31 -> utxo_ok u -> txs_ok h u (coinbase :: vtx) ->
  IsCoinBase coinbase = true -> Forall (fun tx => IsCoinBase tx = false) vtx ->
  undos_right h u (coinbase :: vtx) ([] :: vtxundo) -> cache_ok c -> view c ≃ apply_block h u (coinbase :: vtx) ->
  exists c', cache_ok c' /\ view c' ≃ u /\ forall a,
    match disconnect_assets a a (reverse (zip (coinbase :: vtx) ([] :: vtxundo))) with
    | None => exists c2 a2, DisconnectBlock n true c a h (coinbase :: vtx) vtxundo = Some (DISCONNECT_FAILED, c2, a2)
    | Some (ok, a') =>
      DisconnectBlock n true c a h (coinbase :: vtx) vtxundo = Some (if ok then DISCONNECT_OK else DISCONNECT_UNCLEAN, c', a')
    end.
Proof.
  intros Hh Hu Htxs Hcb Hncb Hus Hok Hv.
  destruct (disconnect_txs_spec n h coinbase Hh Hcb vtx u vtxundo c Hu Htxs Hncb Hus Hok Hv) as (c'&Hok'&Hv'&E).
  exists c'. split_and!; [done..|]. intros a. specialize (E a a true). cbv zeta in E. unfold DisconnectBlock.
  pose proof (undos_right_length _ _ _ _ Hus) as Hlen. rewrite (proj2 (Nat.eqb_eq _ _)) by (cbn in *; lia). cbn [negb].
  destruct (disconnect_assets _ _ _) as [[ok a']|]; cbn [decided] in E; [rewrite E; by destruct ok|].
  destruct E as (c2&a2&->). by exists c2, a2.
Qed.

(** *** Sequences of operations *)

Lemma run_op_spec c op : cache_ok c -> op_pre (view c) op ->
  exists c', run_op c op = Some c' /\ cache_ok c' /\ view c' ≃ spec_op (view c) op.
Proof.
  intros Hok Hpre. destruct op as [o|o|o|o k ow|o|o]; cbn [run_op spec_op].
  - eexists; split; [done|]. by apply GetCoin_spec.
  - eexists; split; [done|]. by apply HaveCoin_spec.
  - eexists; split; [done|]. by apply AccessCoin_spec.
  - by apply AddCoin_spec; [|apply Hpre..].
  - eexists; split; [done|]. generalize (SpendCoin_spec c o Hok).
    destruct (SpendCoin c o) as [[? ?] ?]. intros (?&?&_). done.
  - eexists; split; [done|]. by apply Uncache_spec.
Qed.

#[local] Instance spec_op_proper : Proper (pointwise_relation _ eq ==> eq ==> pointwise_relation _ eq) spec_op.
Proof. intros u v Huv op ? <- o. destruct op; simpl; rewrite ?(Huv _); done. Qed.

#[local] Instance spec_ops_proper : Proper (pointwise_relation _ eq ==> eq ==> pointwise_relation _ eq) (fun u ops => fold_left spec_op ops u).
Proof.
  intros u v Huv ops ? <-. revert u v Huv. induction ops as [|op ops IH]; intros u v Huv; [done|].
  apply IH. by rewrite Huv.
Qed.

#[local] Instance ops_pre_proper : Proper (pointwise_relation _ eq ==> eq ==> impl) ops_pre.
Proof.
  intros u v Huv ops ? <-. revert u v Huv. induction ops as [|op ops IH]; intros u v Huv; [done|].
  intros [Hp Hps]. split; [|apply (IH (spec_op u op)); [by rewrite Huv|done]].
  destruct op; try done. simpl in *. by rewrite <- (Huv _).
Qed.

Lemma run_ops_spec ops : forall c, cache_ok c -> ops_pre (view c) ops ->
  exists c', run_ops c ops = Some c' /\ cache_ok c' /\ view c' ≃ fold_left spec_op ops (view c).
Proof.
  induction ops as [|op ops IH]; intros c Hok Hpre; [by exists c|]. destruct Hpre as [Hp Hps].
  destruct (run_op_spec c op Hok Hp) as (c1&E1&Hok1&Hv1).
  destruct (IH c1 Hok1) as (c'&E'&Hok'&Hv'); [by rewrite Hv1|].
  exists c'. cbn [run_ops]. rewrite E1. split_and!; [done..|]. rewrite Hv'. exact (spec_ops_proper _ _ Hv1 _ _ eq_refl).
Qed.

(** C9. Whatever sequence of lookups, additions, spends and evictions a coins
    cache goes through, starting empty over a backing view, it never throws as
    long as additions respect the documented contract, and then answers every
    query exactly as a plain map of unspent outputs that went through the same
    additions and spends. *)
Theorem coins_cache_refines (ops : list coins_op) : ops_pre (fun o => live (base o)) ops ->
  exists c, run_ops ∅ ops = Some c /\ cache_ok c
  /\ forall o, let u := fold_left spec_op ops (fun o => live (base o)) in
     (GetCoin c o).1 = u o
     /\ (HaveCoin c o).1 = bool_decide (u o <> None)
     /\ live (Some (AccessCoin c o).1) = u o
     /\ (forall k, u o = Some k -> (SpendCoin c o).1 = (true, k)).
Proof.
  intros Hpre. assert (Hok : cache_ok ∅) by apply map_Forall_empty.
  destruct (run_ops_spec ops ∅ Hok Hpre) as (c&E&Hokc&Hv). exists c. split_and!; [done..|]. intros o. cbv zeta.
  change (view c ≃ fold_left spec_op ops (fun o => live (base o))) in Hv. rewrite <- (Hv o). split_and!; [by apply GetCoin_spec|by apply HaveCoin_spec|by apply AccessCoin_spec|].
  intros k Hk. generalize (SpendCoin_spec c o Hokc). destruct (SpendCoin c o) as [[sp mv] c'].
  intros (_&_&Hs). by destruct (Hs k Hk) as [-> ->].
Qed.

End Cache.

(** A child cache that goes through any sequence of operations over a parent
    cache and is then flushed into it: the parent's misuse check never throws,
    the parent's flags stay right for the view behind it, and the parent then
    shows the result of the operations on the unspent outputs it showed
    before. *)
Theorem flush_commits (asset : CScript -> option Z) (base : CCoinsView) (parent : CCoinsMap) (ops : list coins_op) :
  let shown := fun o => (GetCoin base parent o).1 in
  cache_ok base parent -> ops_pre asset shown ops ->
  exists child parent', run_ops asset shown ∅ ops = Some child /\ BatchWrite parent child = Some parent'
  /\ cache_ok base parent' /\ forall o, (GetCoin base parent' o).1 = fold_left (spec_op asset) ops shown o.
Proof.
  intros shown Hok Hpre.
  assert (Hshown : forall o, shown o = view base parent o) by (intros o; by apply GetCoin_spec).
  assert (Hlive : forall o, live (shown o) = shown o).
  { intros o. rewrite Hshown. unfold view. case_match; apply live_idem. }
  destruct (run_ops_spec asset shown ops ∅) as (child&Er&Hokc&Hv); [apply map_Forall_empty| |].
  { eapply ops_pre_proper; [|reflexivity|exact Hpre]. intros o. unfold view. by rewrite lookup_empty, Hlive. }
  destruct (BatchWrite_spec base parent child Hok) as (parent'&Eb&Hokp&Hvp).
  { intros o it Ho Hf. rewrite <- Hshown, <- Hlive. by apply (Hokc o it Ho). }
  exists child, parent'. split_and!; [done..|]. intros o. rewrite (proj1 (GetCoin_spec base parent' o Hokp)), Hvp.
  transitivity (view shown child o).
  - unfold view at 3. destruct (child !! o) as [it|] eqn:Ho; [|by rewrite <- Hshown, Hlive].
    destruct (DIRTY it) eqn:ED; [done|]. rewrite <- Hshown, <- Hlive. by apply (Hokc o it Ho).
  - rewrite (Hv o). apply spec_ops_proper; [|done]. intros o'. unfold view. by rewrite lookup_empty, Hlive.
Qed.

(** ** A concrete history *)

Module Demo.

#[local] Existing Instance Poly.poly_hash.

Definition asset (_ : CScript) : option Z := None.
Definition o1 : COutPoint := MkOutPoint 7 0.
Definition k1 : Coin := new_coin (MkTxOut 50 [0x51]) 3 true.
Definition base : CCoinsView := fun o => if decide (o = o1) then Some k1 else None.

Definition ops : list coins_op :=
  [OpGet o1; OpSpend o1; OpAdd o1 k1 false; OpAdd (MkOutPoint 8 0) k1 false; OpSpend (MkOutPoint 8 0); OpUncache o1].

Lemma coins_cache_refines_witness : exists c, run_ops asset base ∅ ops = Some c /\ (GetCoin base c o1).1 = Some k1.
Proof.
  destruct (coins_cache_refines asset base ops) as (c&E&_&Hq); [by cbn|]. exists c. split; [done|].
  destruct (Hq o1) as [-> _]. reflexivity.
Defined.

Lemma flush_commits_witness : exists child parent', run_ops asset (fun o => (GetCoin base ∅ o).1) ∅ ops = Some child
  /\ BatchWrite ∅ child = Some parent' /\ (GetCoin base parent' o1).1 = Some k1.
Proof.
  destruct (flush_commits asset base ∅ ops) as (child&p&Er&Eb&_&Hq); [apply map_Forall_empty|by cbn|].
  exists child, p. split_and!; [done..|]. rewrite Hq. reflexivity.
Defined.

End Demo.
