(* ===== verification/MNList.v ===== *)
(** The deterministic masternode list (evo/deterministicmns.h and the first half
    of evo/deterministicmns.cpp): masternode state, tiers, payment scores, the
    list with its index of unique properties, payee selection, and the
    operations that add, update and remove masternodes.  The theorems show
    that the index invariant [WF] is preserved by every operation, that lookups
    through the index are exact, and that the payee is the minimum of the
    specified order. *)

From S2P Require Import Prelude ArithUint256 Serialize Sha256 NetAddress Script Primitives Params.

(** ** Activation and tiers *)

Section Activation.
Variable cp : Params.

Definition IsMasternodeActivationHeight (nHeight : Z) : bool := cp.(nMasternodeActivationHeight) <=? nHeight.
Definition GetMasternodePaymentGracePeriod : Z := if cp.(fMineBlocksOnDemand) then 10 else 100.
Definition IsMasternodePaymentEnforced (nHeight : Z) : bool :=
  if nHeight <? cp.(nTieredMNActivationHeight) then false
  else cp.(nTieredMNActivationHeight) + GetMasternodePaymentGracePeriod <=? nHeight.
Definition GetMasternodeActivationHeight : Z := cp.(nMasternodeActivationHeight).

Definition GetMasternodeTier (collateralAmount nHeight : Z) : Z :=
  if (cp.(nTieredMNActivationHeight) <=? nHeight) && (collateralAmount =? cp.(nMasternodeCollateralTier3)) then 3
  else if (cp.(nTieredMNActivationHeight) <=? nHeight) && (collateralAmount =? cp.(nMasternodeCollateralTier2)) then 2
  else if collateralAmount =? cp.(nMasternodeCollateral) then 1
  else 0.
Definition IsValidCollateralAmount (amount nHeight : Z) : bool := negb (GetMasternodeTier amount nHeight =? 0).
End Activation.

Definition GetTierWeight (nTier : Z) : Z :=
  if nTier =? 2 then 10 else if nTier =? 3 then 100 else 1.

(** ** Masternodes *)

Record CDeterministicMNState := MkState {
  nRegisteredHeight : Z;
  nLastPaidHeight : Z;
  nPoSePenalty : Z;
  nPoSeRevivedHeight : Z;
  nPoSeBanHeight : Z;
  nRevocationReason : Z;
  nTier : Z;
  nLastServiceUpdateHeight : Z;
  nLastRegistrarUpdateHeight : Z;
  keyIDOwner : uint160;
  vchOperatorPubKey : bytes;
  keyIDVoting : uint160;
  mn_addr : CService;
  scriptPayout : CScript;
  scriptOperatorPayout : CScript;
}.

Definition new_state : CDeterministicMNState :=
  MkState (-1) 0 0 (-1) (-1) 0 1 0 0 0 [] 0 CService.Init [] [].

Record CDeterministicMN := MkMN {
  proTxHash : uint256;
  collateralOutpoint : COutPoint;
  nOperatorReward : Z;
  mn_state : CDeterministicMNState;
  internalId : Z;
}.

Definition IsBanned (s : CDeterministicMNState) : bool := negb (s.(nPoSeBanHeight) =? -1).
Definition GetPayoutScript (s : CDeterministicMNState) (operatorReward : Z) : CScript :=
  if (operatorReward =? 10000) && negb (bytes_eq s.(scriptOperatorPayout) []) then s.(scriptOperatorPayout)
  else s.(scriptPayout).
Definition IsValid (mn : CDeterministicMN) : bool :=
  negb (IsBanned mn.(mn_state)) && (mn.(mn_state).(nRevocationReason) =? 0).

Definition state_eqb (a b : CDeterministicMNState) : bool :=
  (a.(nRegisteredHeight) =? b.(nRegisteredHeight)) && (a.(nLastPaidHeight) =? b.(nLastPaidHeight)) &&
  (a.(nPoSePenalty) =? b.(nPoSePenalty)) && (a.(nPoSeRevivedHeight) =? b.(nPoSeRevivedHeight)) &&
  (a.(nPoSeBanHeight) =? b.(nPoSeBanHeight)) && (a.(nRevocationReason) =? b.(nRevocationReason)) &&
  (a.(nTier) =? b.(nTier)) && (a.(nLastServiceUpdateHeight) =? b.(nLastServiceUpdateHeight)) &&
  (a.(nLastRegistrarUpdateHeight) =? b.(nLastRegistrarUpdateHeight)) &&
  (a.(keyIDOwner) =? b.(keyIDOwner)) && bytes_eq a.(vchOperatorPubKey) b.(vchOperatorPubKey) &&
  (a.(keyIDVoting) =? b.(keyIDVoting)) && CService.eqb a.(mn_addr) b.(mn_addr) &&
  bytes_eq a.(scriptPayout) b.(scriptPayout) && bytes_eq a.(scriptOperatorPayout) b.(scriptOperatorPayout).

Definition set_state (mn : CDeterministicMN) (s : CDeterministicMNState) : CDeterministicMN :=
  MkMN mn.(proTxHash) mn.(collateralOutpoint) mn.(nOperatorReward) s mn.(internalId).

(** ** Payment scores *)

Definition score_preimage (mn : CDeterministicMN) (blockHash : uint256) (currentHeight : Z) : bytes :=
  let s := mn.(mn_state) in
  let lastPaid := if 0 <? s.(nLastPaidHeight) then s.(nLastPaidHeight) else s.(nRegisteredHeight) in
  let blocksSincePayment := Z.max 0 (currentHeight - lastPaid) in
  ser (blob 32) mn.(proTxHash) ++ ser (blob 32) blockHash ++ ser i32 blocksSincePayment.

(** [None] is the division by zero exception, unreachable for the weights of
    [GetTierWeight]. *)
Definition CalcScore `{Hash256} (mn : CDeterministicMN) (blockHash : uint256) (currentHeight : Z)
  : option ArithUint256.limbs :=
  let rawScore := ArithUint256.UintToArith256 (hash256 (score_preimage mn blockHash currentHeight)) in
  let weight := GetTierWeight mn.(mn_state).(nTier) in
  if 1 <? weight then ArithUint256.div rawScore (ArithUint256.of_uint64 weight) else Some rawScore.

(** ** Unique properties *)

(** The five properties that no two masternodes may share. *)
Inductive prop :=
| PCollateral (o : COutPoint)
| PAddr (a : CService)
| POwner (k : uint160)
| PVoting (k : uint160)
| POperator (k : bytes).

(** What is written to the [CHashWriter] of a property. *)
Definition prop_bytes (p : prop) : bytes :=
  match p with
  | PCollateral o => ser bytevec (str "utxo") ++ ser c_outpoint o
  | PAddr a => ser bytevec (str "addr") ++ ser CService.codec a
  | POwner k => ser bytevec (str "key") ++ ser (blob 20) k
  | PVoting k => ser bytevec (str "voting") ++ ser (blob 20) k
  | POperator k => ser bytevec (str "operator") ++ ser bytevec k
  end.

(** [GetUniquePropertyHash], [GetVotingKeyHash] and [GetOperatorKeyHash]. *)
Definition prop_hash `{Hash256} (p : prop) : uint256 := hash256 (prop_bytes p).

Definition props (mn : CDeterministicMN) : list prop :=
  let s := mn.(mn_state) in
  [PCollateral mn.(collateralOutpoint); PAddr s.(mn_addr); POwner s.(keyIDOwner);
   PVoting s.(keyIDVoting); POperator s.(vchOperatorPubKey)].

(** ** The list *)

Record CDeterministicMNList := MkList {
  blockHash : uint256;
  nHeight : Z;
  nTotalRegisteredCount : Z;
  mnMap : gmap uint256 CDeterministicMN;
  mnUniquePropertyMap : gmap uint256 uint256;
}.

Definition empty_list : CDeterministicMNList := MkList 0 (-1) 0 ∅ ∅.
Definition list_at (h : uint256) (n : Z) : CDeterministicMNList := MkList h n 0 ∅ ∅.
Definition set_total (l : CDeterministicMNList) (n : Z) : CDeterministicMNList :=
  MkList l.(blockHash) l.(nHeight) n l.(mnMap) l.(mnUniquePropertyMap).
Definition with_maps (l : CDeterministicMNList) (m : gmap uint256 CDeterministicMN)
  (u : gmap uint256 uint256) : CDeterministicMNList :=
  MkList l.(blockHash) l.(nHeight) l.(nTotalRegisteredCount) m u.

(** [for (const auto& pair : mnMap)]. *)
Definition mns (l : CDeterministicMNList) : list CDeterministicMN := snd <$> map_entries l.(mnMap).

Definition GetAllMNsCount (l : CDeterministicMNList) : Z := Z.of_nat (size l.(mnMap)).
Definition GetValidMNsCount (l : CDeterministicMNList) : Z :=
  Z.of_nat (length (filter (fun mn => IsValid mn = true) (mns l))).
Definition GetMN (l : CDeterministicMNList) (h : uint256) : option CDeterministicMN := l.(mnMap) !! h.
Definition GetMNByProp `{Hash256} (l : CDeterministicMNList) (p : prop) : option CDeterministicMN :=
  h ← l.(mnUniquePropertyMap) !! prop_hash p; GetMN l h.
Definition GetMNByOperatorKey `{Hash256} l k := GetMNByProp l (POperator k).
Definition GetMNByCollateral `{Hash256} l o := GetMNByProp l (PCollateral o).
Definition GetMNByService `{Hash256} l a := GetMNByProp l (PAddr a).
Definition HasUniqueProperty (l : CDeterministicMNList) (h : uint256) : bool :=
  match l.(mnUniquePropertyMap) !! h with Some _ => true | None => false end.

(** ** Payee selection *)

Definition payment_eligible (cp : Params) (currentHeight : Z) (mn : CDeterministicMN) : bool :=
  IsValid mn && negb (mn.(mn_state).(nTier) =? 0)
  && (cp.(nMasternodeCollateralConfirmations) <=? currentHeight - mn.(mn_state).(nRegisteredHeight)).

Definition GetValidMNsForPayment (cp : Params) (l : CDeterministicMNList) (currentHeight : Z)
  : list CDeterministicMN :=
  filter (fun mn => payment_eligible cp currentHeight mn = true) (mns l).

(** One iteration of the selection loop: the winner so far with its score. *)
Definition payee_step `{Hash256} (bh : uint256) (currentHeight : Z)
  (acc : option (CDeterministicMN * ArithUint256.limbs)) (mn : CDeterministicMN)
  : option (CDeterministicMN * ArithUint256.limbs) :=
  match CalcScore mn bh currentHeight with
  | None => acc
  | Some score =>
    match acc with
    | None => Some (mn, score)
    | Some (winner, lowestScore) =>
      if (ArithUint256.CompareTo score lowestScore <? 0)
         || (bytes_eq score lowestScore
             && (ArithUint256.CompareTo (ArithUint256.UintToArith256 mn.(proTxHash))
                   (ArithUint256.UintToArith256 winner.(proTxHash)) <? 0))
      then Some (mn, score) else acc
    end
  end.

Definition GetMNPayee `{Hash256} (cp : Params) (l : CDeterministicMNList) (bh : uint256) (currentHeight : Z)
  : option CDeterministicMN :=
  fst <$> foldl (payee_step bh currentHeight) None (GetValidMNsForPayment cp l currentHeight).

(** ** Operations *)

(** The five index insertions of [AddMN], in the order of the source. *)
Definition index_mn `{Hash256} (mn : CDeterministicMN) (u : gmap uint256 uint256) : gmap uint256 uint256 :=
  foldl (fun u p => <[prop_hash p := mn.(proTxHash)]> u) u (props mn).

Definition AddMNInPlace `{Hash256} (l : CDeterministicMNList) (mn : CDeterministicMN) : CDeterministicMNList :=
  with_maps l (<[mn.(proTxHash) := mn]> l.(mnMap)) (index_mn mn l.(mnUniquePropertyMap)).

Definition AddMN `{Hash256} (l : CDeterministicMNList) (mn : CDeterministicMN) : CDeterministicMNList :=
  let r := AddMNInPlace l mn in set_total r (wrapu 64 (r.(nTotalRegisteredCount) + 1)).

(** The collision that [AddMN] logs: the property belongs to another masternode. *)
Definition owned_by_other (u : gmap uint256 uint256) (h id : uint256) : bool :=
  match u !! h with Some k => negb (k =? id) | None => false end.

(** The changed properties of an update: the old and the new one of each kind. *)
Definition changes (old new : CDeterministicMNState) : list (prop * prop) :=
  (if CService.eqb old.(mn_addr) new.(mn_addr) then [] else [(PAddr old.(mn_addr), PAddr new.(mn_addr))]) ++
  (if old.(keyIDVoting) =? new.(keyIDVoting) then []
   else [(PVoting old.(keyIDVoting), PVoting new.(keyIDVoting))]) ++
  (if bytes_eq old.(vchOperatorPubKey) new.(vchOperatorPubKey) then []
   else [(POperator old.(vchOperatorPubKey), POperator new.(vchOperatorPubKey))]).

(** [erase(old)], then [map[new] = id]. *)
Definition reindex `{Hash256} (id : uint256) (u : gmap uint256 uint256) (c : prop * prop) : gmap uint256 uint256 :=
  <[prop_hash c.2 := id]> (delete (prop_hash c.1) u).

Definition wouldConflict `{Hash256} (u : gmap uint256 uint256) (id : uint256) (cs : list (prop * prop)) : bool :=
  existsb (fun c => owned_by_other u (prop_hash c.2) id) cs.

Definition UpdateMN `{Hash256} (l : CDeterministicMNList) (id : uint256) (newState : CDeterministicMNState)
  : CDeterministicMNList :=
  match GetMN l id with
  | None => l
  | Some mn =>
    let cs := changes mn.(mn_state) newState in
    if wouldConflict l.(mnUniquePropertyMap) id cs then l
    else with_maps l (<[id := set_state mn newState]> l.(mnMap))
           (foldl (reindex id) l.(mnUniquePropertyMap) cs)
  end.

(** Each update of the batch runs the same check and the same index changes
    against the list built so far. *)
Definition BatchUpdateMNStates `{Hash256} (l : CDeterministicMNList)
  (updates : list (uint256 * CDeterministicMNState)) : CDeterministicMNList :=
  foldl (fun l u => UpdateMN l u.1 u.2) l updates.

Definition unindex_mn `{Hash256} (mn : CDeterministicMN) (u : gmap uint256 uint256) : gmap uint256 uint256 :=
  foldl (fun u p => delete (prop_hash p) u) u (props mn).

Definition RemoveMN `{Hash256} (l : CDeterministicMNList) (id : uint256) : CDeterministicMNList :=
  match GetMN l id with
  | None => l
  | Some mn => with_maps l (delete id l.(mnMap)) (unindex_mn mn l.(mnUniquePropertyMap))
  end.

Definition BatchRemoveMNs `{Hash256} (l : CDeterministicMNList) (ids : list uint256) : CDeterministicMNList :=
  foldl RemoveMN l ids.

(** ** Well-formedness *)

Definition valid_prop (p : prop) : bool :=
  match p with
  | PCollateral o => valid_outpoint o
  | PAddr a => CService.valid a
  | POwner k | PVoting k => in_u 160 k
  | POperator k => valid_bytes k
  end.
Definition valid_mn (mn : CDeterministicMN) : bool :=
  in_u 256 mn.(proTxHash) && forallb valid_prop (props mn).

(** No two of the properties collide under the hash function. *)
Definition collision_free `{Hash256} (ps : list prop) : Prop :=
  forall p q, p ∈ ps -> q ∈ ps -> prop_hash p = prop_hash q -> prop_bytes p = prop_bytes q.
Definition collision_free_b `{Hash256} (ps : list prop) : bool :=
  let hs := (fun p => (prop_hash p, prop_bytes p)) <$> ps in
  forallb (fun a => forallb (fun b => negb (a.1 =? b.1) || bytes_eq a.2 b.2) hs) hs.

(** The masternode map and the index agree: keys are registration hashes,
    the index holds exactly the properties of the masternodes, each once. *)
Record WF `{Hash256} (l : CDeterministicMNList) : Prop := {
  wf_id : forall k mn, l.(mnMap) !! k = Some mn -> mn.(proTxHash) = k;
  wf_valid : forall k mn, l.(mnMap) !! k = Some mn -> valid_mn mn = true;
  wf_indexed : forall k mn p, l.(mnMap) !! k = Some mn -> p ∈ props mn ->
    l.(mnUniquePropertyMap) !! prop_hash p = Some k;
  wf_owned : forall h k, l.(mnUniquePropertyMap) !! h = Some k ->
    exists mn p, l.(mnMap) !! k = Some mn /\ p ∈ props mn /\ prop_hash p = h;
}.

#[export] Instance prop_eq_dec : EqDecision prop.
Proof. solve_decision. Defined.
#[export] Instance CDeterministicMNState_eq_dec : EqDecision CDeterministicMNState.
Proof. solve_decision. Defined.
#[export] Instance CDeterministicMN_eq_dec : EqDecision CDeterministicMN.
Proof. solve_decision. Defined.

Arguments index_mn : simpl never.
Arguments unindex_mn : simpl never.
Arguments props : simpl never.

Section ListFacts.
Context `{HH : Hash256}.

Lemma collision_free_b_spec ps : collision_free_b ps = true -> collision_free ps.
Proof.
  unfold collision_free_b. set (f := fun p => (prop_hash p, prop_bytes p)).
  rewrite forallb_forall. intros H p q Hp Hq E.
  assert (forall x, x ∈ ps -> In (f x) (f <$> ps)) as Hin.
  { intros x Hx. apply list_elem_of_In, list_elem_of_fmap. by exists x. }
  specialize (H (f p) (Hin p Hp)). rewrite forallb_forall in H. specialize (H (f q) (Hin q Hq)).
  cbn in H. rewrite E, Z.eqb_refl in H. by apply bytes_eq_spec.
Qed.

Lemma collision_free_sub ps qs : (forall p, p ∈ qs -> p ∈ ps) -> collision_free ps -> collision_free qs.
Proof. intros Hs H p q Hp Hq. auto. Qed.

(** Domain separation: the tags keep the properties apart. *)
Lemma prop_bytes_inj p q : valid_prop p = true -> valid_prop q = true ->
  prop_bytes p = prop_bytes q -> p = q.
Proof.
  assert (forall t t' r r', valid_bytes t = true -> valid_bytes t' = true ->
    ser bytevec t ++ r = ser bytevec t' ++ r' -> t = t' /\ r = r') as Htag.
  { intros. by apply (ser_app_inj bytevec valid_bytes). }
  destruct p, q; cbn [valid_prop prop_bytes]; intros Hp Hq E; apply Htag in E as [Et E];
    try done; f_equal.
  - by apply (ser_inj c_outpoint valid_outpoint).
  - by apply (ser_inj CService.codec CService.valid).
  - by apply (ser_inj (blob 20) (in_u 160)).
  - by apply (ser_inj (blob 20) (in_u 160)).
  - by apply (ser_inj bytevec valid_bytes).
Qed.

Lemma valid_mn_props mn p : valid_mn mn = true -> p ∈ props mn -> valid_prop p = true.
Proof.
  unfold valid_mn. intros H Hp. apply andb_true_iff in H as [_ H].
  rewrite forallb_forall in H. by apply H, list_elem_of_In.
Qed.

Lemma prop_hash_inj ps p q : collision_free ps -> p ∈ ps -> q ∈ ps ->
  valid_prop p = true -> valid_prop q = true -> prop_hash p = prop_hash q -> p = q.
Proof. intros H Hp Hq Vp Vq E. apply prop_bytes_inj; auto. Qed.

(** ** The index after each operation *)

Lemma index_mn_lookup mn u h :
  index_mn mn u !! h = if decide (h ∈ prop_hash <$> props mn) then Some mn.(proTxHash) else u !! h.
Proof.
  unfold index_mn. case_decide as H.
  - apply list_elem_of_fmap in H as (p & -> & Hp).
    destruct (foldl_insert_in prop_hash (fun _ => proTxHash mn) (props mn) u (prop_hash p)) as (q & _ & _ & E);
      [by exists p|exact E].
  - apply (foldl_insert_out prop_hash (fun _ => proTxHash mn)). intros p Hp E. apply H.
    apply list_elem_of_fmap. by exists p.
Qed.

Lemma unindex_mn_lookup mn u h :
  unindex_mn mn u !! h = if decide (h ∈ prop_hash <$> props mn) then None else u !! h.
Proof. apply (foldl_delete_lookup prop_hash). Qed.

Lemma elem_props_hash p mn : p ∈ props mn -> prop_hash p ∈ prop_hash <$> props mn.
Proof. intros H. apply list_elem_of_fmap. by exists p. Qed.

Lemma WF_empty h n c : WF (set_total (list_at h n) c).
Proof. split; cbn; intros *; rewrite ?lookup_empty; done. Qed.

Lemma WF_set_total l c : WF l -> WF (set_total l c).
Proof. intros [H1 H2 H3 H4]. by split. Qed.

(** Adding a masternode whose properties are all free. *)
Lemma WF_AddMNInPlace l mn : WF l -> valid_mn mn = true ->
  l.(mnMap) !! mn.(proTxHash) = None ->
  (forall p, p ∈ props mn -> l.(mnUniquePropertyMap) !! prop_hash p = None) ->
  WF (AddMNInPlace l mn).
Proof.
  intros [H1 H2 H3 H4] Hv Hid Hfree. split; cbn [AddMNInPlace with_maps mnMap mnUniquePropertyMap].
  - intros k mn' [[<- <-]|[_ Hl]]%lookup_insert_Some; auto.
  - intros k mn' [[<- <-]|[_ Hl]]%lookup_insert_Some; eauto.
  - intros k mn' p [[<- <-]|[Hk Hl]]%lookup_insert_Some Hp; rewrite index_mn_lookup.
    + rewrite decide_True; [done|]. by apply elem_props_hash.
    + rewrite decide_False; [eauto|]. intros (q & E & Hq)%list_elem_of_fmap.
      pose proof (H3 k mn' p Hl Hp) as E'. by rewrite E, Hfree in E'.
  - intros h k. rewrite index_mn_lookup. case_decide as Hin.
    + intros [= <-]. apply list_elem_of_fmap in Hin as (p & -> & Hp).
      exists mn, p. by rewrite lookup_insert_eq.
    + intros Hl. destruct (H4 h k Hl) as (mn' & p & Hm & Hp & Hh). exists mn', p.
      rewrite lookup_insert_ne; [done|]. intros <-. by rewrite Hid in Hm.
Qed.

Lemma WF_AddMN l mn : WF l -> valid_mn mn = true ->
  l.(mnMap) !! mn.(proTxHash) = None ->
  (forall p, p ∈ props mn -> l.(mnUniquePropertyMap) !! prop_hash p = None) ->
  WF (AddMN l mn).
Proof. intros. by apply WF_set_total, WF_AddMNInPlace. Qed.

Lemma WF_RemoveMN l id : WF l -> WF (RemoveMN l id).
Proof.
  intros WFl. unfold RemoveMN, GetMN. destruct (mnMap l !! id) as [mn|] eqn:Hid; [|done].
  destruct WFl as [H1 H2 H3 H4]. split; cbn [with_maps mnMap mnUniquePropertyMap].
  - intros k mn' [_ Hl]%lookup_delete_Some; auto.
  - intros k mn' [_ Hl]%lookup_delete_Some; eauto.
  - intros k mn' p [Hk Hl]%lookup_delete_Some Hp. rewrite unindex_mn_lookup.
    rewrite decide_False; [eauto|]. intros (q & E & Hq)%list_elem_of_fmap. apply Hk.
    pose proof (H3 k mn' p Hl Hp) as E1. rewrite E, (H3 id mn q Hid Hq) in E1. by inv E1.
  - intros h k. rewrite unindex_mn_lookup. case_decide as Hin; [done|]. intros Hl.
    destruct (H4 h k Hl) as (mn' & p & Hm & Hp & Hh). exists mn', p. rewrite lookup_delete_ne; [done|].
    intros <-. rewrite Hid in Hm. inv Hm. apply Hin. by apply elem_props_hash.
Qed.

Lemma WF_BatchRemoveMNs l ids : WF l -> WF (BatchRemoveMNs l ids).
Proof.
  unfold BatchRemoveMNs. revert l. induction ids as [|i ids IH]; intros l H; [done|].
  cbn [foldl]. by apply IH, WF_RemoveMN.
Qed.

(** The index after a sequence of [erase(old)], [map[new] = id]. *)
Lemma reindex_lookup id cs u h :
  (forall c c', c ∈ cs -> c' ∈ cs -> prop_hash c.2 = prop_hash c'.1 -> c = c') ->
  foldl (reindex id) u cs !! h
  = if decide (h ∈ (prop_hash ∘ snd) <$> cs) then Some id
    else if decide (h ∈ (prop_hash ∘ fst) <$> cs) then None else u !! h.
Proof.
  revert u. induction cs as [|c cs IH]; intros u Hx; [done|]. cbn [foldl].
  rewrite IH by (intros; apply Hx; try apply list_elem_of_further; done). cbn [fmap list_fmap].
  destruct (decide (h ∈ (prop_hash ∘ snd) <$> cs)) as [Hn|Hn].
  { rewrite decide_True; [done|]. by apply list_elem_of_further. }
  destruct (decide (h = prop_hash c.2)) as [->|Hne].
  - trans (Some id); [|symmetry; by rewrite decide_True by apply list_elem_of_here].
    rewrite decide_False; [apply lookup_insert_eq|].
    intros (c' & E & Hc')%list_elem_of_fmap. apply Hn. apply list_elem_of_fmap. exists c'. split; [|done].
    cbn. rewrite (Hx c c'); auto using list_elem_of_here, list_elem_of_further.
  - assert (h ∉ (prop_hash ∘ snd) c :: ((prop_hash ∘ snd) <$> cs)) as Hn' by (rewrite elem_of_cons; cbn; tauto).
    rewrite (decide_False (P := h ∈ (prop_hash ∘ snd) c :: _)) by done.
    destruct (decide (h ∈ (prop_hash ∘ fst) <$> cs)) as [Ho|Ho].
    { rewrite decide_True; [done|]. by apply list_elem_of_further. }
    unfold reindex. rewrite lookup_insert_ne by done. destruct (decide (h = prop_hash c.1)) as [->|Hno].
    + rewrite decide_True by apply list_elem_of_here. apply lookup_delete_eq.
    + rewrite decide_False by (rewrite elem_of_cons; cbn; tauto). by apply lookup_delete_ne.
Qed.

(** ** Updates *)

(** The state changes that consensus makes keep the owner key. *)
Definition keeps_owner (mn : CDeterministicMN) (s : CDeterministicMNState) : Prop :=
  s.(keyIDOwner) = mn.(mn_state).(keyIDOwner).

Lemma changes_spec mn s : valid_mn mn = true -> valid_mn (set_state mn s) = true -> keeps_owner mn s ->
  (forall c, c ∈ changes mn.(mn_state) s ->
     c.1 ∈ props mn /\ c.2 ∈ props (set_state mn s) /\ c.1 ∉ props (set_state mn s)) /\
  (forall p, p ∈ props mn -> p ∈ props (set_state mn s) \/ p ∈ fst <$> changes mn.(mn_state) s) /\
  (forall p, p ∈ props (set_state mn s) -> p ∈ props mn \/ p ∈ snd <$> changes mn.(mn_state) s).
Proof.
  intros V V' Ho. unfold keeps_owner in Ho.
  assert (CService.valid mn.(mn_state).(mn_addr) = true /\ CService.valid s.(mn_addr) = true) as [Va Va'].
  { split; [apply (valid_mn_props _ (PAddr mn.(mn_state).(mn_addr)) V)
           |apply (valid_mn_props _ (PAddr s.(mn_addr)) V')]; cbn; set_solver. }
  unfold changes, props, set_state. cbn [mn_state collateralOutpoint]. rewrite Ho.
  pose proof (CService_eqb_spec _ _ Va Va') as Ea.
  pose proof (Z.eqb_spec mn.(mn_state).(keyIDVoting) s.(keyIDVoting)) as Ev.
  pose proof (bytes_eq_spec mn.(mn_state).(vchOperatorPubKey) s.(vchOperatorPubKey)) as Eo.
  destruct (CService.eqb _ _); [apply proj1 in Ea; specialize (Ea eq_refl); rewrite <- Ea|
    assert (mn_addr (mn_state mn) <> mn_addr s) by (intros E; by apply Ea in E)]; clear Ea.
  all: destruct Ev as [<-|].
  all: destruct (bytes_eq _ _); [apply proj1 in Eo; specialize (Eo eq_refl); rewrite <- Eo|
    assert (vchOperatorPubKey (mn_state mn) <> vchOperatorPubKey s) by (intros E; by apply Eo in E)]; clear Eo.
  all: cbn [app fmap list_fmap fst snd]; split_and!; intros ?; rewrite ?elem_of_cons, ?elem_of_nil;
    intros; repeat (match goal with H : _ \/ _ |- _ => destruct H end); subst; cbn [fst snd] in *;
    try done; rewrite ?elem_of_cons, ?elem_of_nil; intuition congruence.
Qed.

(** The update with its index changes, when nothing conflicts. *)
Definition apply_update (l : CDeterministicMNList) (mn : CDeterministicMN) (s : CDeterministicMNState)
  : CDeterministicMNList :=
  with_maps l (<[mn.(proTxHash) := set_state mn s]> l.(mnMap))
    (foldl (reindex mn.(proTxHash)) l.(mnUniquePropertyMap) (changes mn.(mn_state) s)).

Lemma no_conflict_other u id cs c k :
  wouldConflict u id cs = false -> c ∈ cs -> u !! prop_hash c.2 = Some k -> k = id.
Proof.
  unfold wouldConflict. intros H Hc Hu.
  destruct (Z.eq_dec k id) as [|Hne]; [done|]. exfalso.
  assert (existsb (fun c => owned_by_other u (prop_hash c.2) id) cs = true) as E; [|by rewrite E in H].
  apply existsb_exists. exists c. split; [by apply list_elem_of_In|].
  unfold owned_by_other. rewrite Hu. by apply negb_true_iff, Z.eqb_neq.
Qed.

Lemma changes_cross l mn s : WF l -> l.(mnMap) !! mn.(proTxHash) = Some mn ->
  valid_mn (set_state mn s) = true -> keeps_owner mn s ->
  collision_free (props mn ++ props (set_state mn s)) ->
  forall p q, p ∈ props (set_state mn s) -> q ∈ props mn -> prop_hash p = prop_hash q -> p = q.
Proof.
  intros WFl Hl V' Ho Hcf p q Hp Hq. apply (prop_hash_inj _ p q Hcf).
  - apply elem_of_app. by right.
  - apply elem_of_app. by left.
  - by eapply valid_mn_props.
  - eapply valid_mn_props; [by eapply (wf_valid l)|done].
Qed.

Lemma WF_apply_update l mn s : WF l -> l.(mnMap) !! mn.(proTxHash) = Some mn ->
  valid_mn (set_state mn s) = true -> keeps_owner mn s ->
  collision_free (props mn ++ props (set_state mn s)) ->
  wouldConflict l.(mnUniquePropertyMap) mn.(proTxHash) (changes mn.(mn_state) s) = false ->
  WF (apply_update l mn s).
Proof.
  intros WFl Hl V' Ho Hcf Hnc. pose proof (changes_cross l mn s WFl Hl V' Ho Hcf) as Hx.
  destruct (changes_spec mn s) as (Hc & Hold & Hnew); [by eapply (wf_valid l)|done|done|].
  set (cs := changes (mn_state mn) s) in *. set (id := proTxHash mn) in *.
  assert (forall h, foldl (reindex id) l.(mnUniquePropertyMap) cs !! h
    = if decide (h ∈ (prop_hash ∘ snd) <$> cs) then Some id
      else if decide (h ∈ (prop_hash ∘ fst) <$> cs) then None else l.(mnUniquePropertyMap) !! h) as HU.
  { intros h. apply reindex_lookup. intros c c' Hcc Hcc' E. exfalso.
    destruct (Hc c Hcc) as (_ & C2 & _), (Hc c' Hcc') as (C1 & _ & C3).
    apply C3. by rewrite <- (Hx _ _ C2 C1 E). }
  destruct WFl as [H1 H2 H3 H4]. unfold apply_update. fold cs id.
  split; cbn [with_maps mnMap mnUniquePropertyMap].
  - intros k mn' [[<- <-]|[_ H]]%lookup_insert_Some; auto.
  - intros k mn' [[<- <-]|[_ H]]%lookup_insert_Some; eauto.
  - intros k mn' p [[<- <-]|[Hk H]]%lookup_insert_Some Hp; rewrite HU.
    + case_decide as Hn; [done|]. destruct (Hnew p Hp) as [Hpo|Hpn]; cycle 1.
      { exfalso. apply Hn. apply list_elem_of_fmap in Hpn as (c & -> & Hcc). apply list_elem_of_fmap. by exists c. }
      rewrite decide_False; [by eapply H3|]. intros (c & E & Hcc)%list_elem_of_fmap.
      destruct (Hc c Hcc) as (C1 & _ & C3). apply C3. by rewrite <- (Hx p _ Hp C1 E).
    + pose proof (H3 k mn' p H Hp) as Hu. rewrite !decide_False; [done| |].
      * intros (c & E & Hcc)%list_elem_of_fmap. destruct (Hc c Hcc) as (C1 & _).
        cbn in E. rewrite E, (H3 id mn _ Hl C1) in Hu. apply Hk. by inv Hu.
      * intros (c & E & Hcc)%list_elem_of_fmap. cbn in E. rewrite E in Hu.
        apply Hk. symmetry. by eapply no_conflict_other.
  - intros h k. rewrite HU. case_decide as Hn.
    { intros [= <-]. apply list_elem_of_fmap in Hn as (c & -> & Hcc).
      exists (set_state mn s), c.2. rewrite lookup_insert_eq. destruct (Hc c Hcc) as (_ & C2 & _). done. }
    case_decide as Ho'; [done|]. intros Hu. destruct (H4 h k Hu) as (mn' & p & Hm & Hp & <-).
    destruct (decide (k = id)) as [->|Hk].
    + rewrite Hl in Hm. inv Hm. exists (set_state mn' s), p. rewrite lookup_insert_eq.
      destruct (Hold p Hp) as [|Hpo]; [done|]. exfalso. apply Ho'.
      apply list_elem_of_fmap in Hpo as (c & -> & Hcc). apply list_elem_of_fmap. by exists c.
    + exists mn', p. by rewrite lookup_insert_ne.
Qed.

Lemma UpdateMN_cases l id s : WF l ->
  (exists mn, GetMN l id = Some mn /\ UpdateMN l id s = apply_update l mn s /\
     wouldConflict l.(mnUniquePropertyMap) id (changes mn.(mn_state) s) = false)
  \/ UpdateMN l id s = l.
Proof.
  intros WFl. unfold UpdateMN. destruct (GetMN l id) as [mn|] eqn:E; [|by right].
  destruct (wouldConflict _ _ _) eqn:Ec; [by right|]. left. exists mn. split; [done|].
  unfold apply_update. rewrite (wf_id l WFl id mn E). done.
Qed.

Lemma WF_UpdateMN l id s : WF l ->
  (forall mn, GetMN l id = Some mn -> valid_mn (set_state mn s) = true /\ keeps_owner mn s /\
     collision_free (props mn ++ props (set_state mn s))) ->
  WF (UpdateMN l id s).
Proof.
  intros WFl H. destruct (UpdateMN_cases l id s WFl) as [(mn & E & -> & Hc)| ->]; [|done].
  destruct (H mn E) as (V & Ho & Hcf). pose proof (wf_id l WFl id mn E) as Hid.
  apply WF_apply_update; auto; by rewrite Hid.
Qed.

(** Updates that leave the unique properties alone never conflict. *)
Lemma bytes_eq_refl b : bytes_eq b b = true.
Proof. by apply bytes_eq_spec. Qed.

Lemma changes_same mn s : props (set_state mn s) = props mn -> changes mn.(mn_state) s = [].
Proof.
  unfold props, changes, set_state. cbn. intros E. injection E as Ea _ Ev Ek. rewrite Ea, Ev, Ek.
  unfold CService.eqb, CNetAddr.eqb. by rewrite !bytes_eq_refl, !Z.eqb_refl.
Qed.

Lemma UpdateMN_same l id mn s : GetMN l id = Some mn -> props (set_state mn s) = props mn ->
  UpdateMN l id s = with_maps l (<[id := set_state mn s]> l.(mnMap)) l.(mnUniquePropertyMap).
Proof. intros E Hp. unfold UpdateMN. by rewrite E, changes_same. Qed.

Lemma WF_UpdateMN_same l id s : WF l ->
  (forall mn, GetMN l id = Some mn -> props (set_state mn s) = props mn) -> WF (UpdateMN l id s).
Proof.
  intros WFl H. destruct (GetMN l id) as [mn|] eqn:E; cycle 1.
  { unfold UpdateMN. by rewrite E. }
  pose proof (H mn eq_refl) as Hp. rewrite (UpdateMN_same l id mn) by done. unfold GetMN in E.
  assert (valid_mn (set_state mn s) = true) as V.
  { unfold valid_mn. rewrite Hp. cbn. by eapply (wf_valid l). }
  destruct WFl as [H1 H2 H3 H4]. split; cbn [with_maps mnMap mnUniquePropertyMap].
  - intros k mn' [[<- <-]|[_ Hl]]%lookup_insert_Some; [|auto]. cbn. by apply H1.
  - intros k mn' [[<- <-]|[_ Hl]]%lookup_insert_Some; eauto.
  - intros k mn' p [[<- <-]|[_ Hl]]%lookup_insert_Some Hin; [|eauto]. rewrite Hp in Hin. eauto.
  - intros h k Hu. destruct (H4 h k Hu) as (mn' & p & Hm & Hin & Hh).
    destruct (decide (k = id)) as [->|Hk]; [|exists mn', p; by rewrite lookup_insert_ne].
    assert (mn' = mn) as -> by congruence. exists (set_state mn s), p. by rewrite lookup_insert_eq, Hp.
Qed.

(** ** Copying a list *)

Lemma elem_of_mns l mn : WF l -> mn ∈ mns l <-> l.(mnMap) !! mn.(proTxHash) = Some mn.
Proof.
  intros WFl. unfold mns. rewrite list_elem_of_fmap. split.
  - intros ([k mn'] & -> & H). apply elem_of_map_entries in H. cbn. by rewrite (wf_id l WFl k mn' H).
  - intros H. exists (mn.(proTxHash), mn). split; [done|]. by apply elem_of_map_entries.
Qed.

Lemma copy_maps L l0 :
  (foldl AddMNInPlace l0 L).(mnMap) = foldl (fun m mn => <[mn.(proTxHash) := mn]> m) l0.(mnMap) L /\
  (foldl AddMNInPlace l0 L).(mnUniquePropertyMap) = foldl (fun u mn => index_mn mn u) l0.(mnUniquePropertyMap) L /\
  (foldl AddMNInPlace l0 L).(nTotalRegisteredCount) = l0.(nTotalRegisteredCount) /\
  (foldl AddMNInPlace l0 L).(blockHash) = l0.(blockHash) /\
  (foldl AddMNInPlace l0 L).(nHeight) = l0.(nHeight).
Proof.
  revert l0. induction L as [|mn L IH]; intros l0; [done|]. cbn [foldl].
  destruct (IH (AddMNInPlace l0 mn)) as (-> & -> & -> & -> & ->). done.
Qed.

Lemma index_all_out L u h : (forall mn, mn ∈ L -> h ∉ prop_hash <$> props mn) ->
  foldl (fun u mn => index_mn mn u) u L !! h = u !! h.
Proof.
  revert u. induction L as [|x L IH]; intros u E; [done|]. cbn [foldl].
  rewrite IH by (intros; apply E; by right). rewrite index_mn_lookup, decide_False; [done|].
  apply E. by left.
Qed.

Lemma index_all_lookup L u h :
  (exists mn, mn ∈ L /\ h ∈ prop_hash <$> props mn) ->
  exists mn, mn ∈ L /\ h ∈ prop_hash <$> props mn /\
    foldl (fun u mn => index_mn mn u) u L !! h = Some mn.(proTxHash).
Proof.
  revert u. induction L as [|mn L IH]; intros u (mn' & Hin & Hh); [by apply elem_of_nil in Hin|].
  cbn [foldl]. destruct (decide (Exists (fun mn => h ∈ prop_hash <$> props mn) L)) as [E|E].
  - apply Exists_exists in E. destruct (IH (index_mn mn u) E) as (mn2 & ? & ? & ?).
    exists mn2. split; [by apply list_elem_of_further|]. done.
  - apply not_Exists_Forall in E; [|apply _]. rewrite Forall_forall in E.
    apply elem_of_cons in Hin as [->|Hin]; [|by destruct (E mn' Hin)].
    exists mn. split; [apply list_elem_of_here|]. split; [done|].
    by rewrite index_all_out, index_mn_lookup, decide_True.
Qed.

(** Re-adding every masternode of a well-formed list to an empty one gives the list back. *)
Lemma copy_list l h n c : WF l ->
  foldl AddMNInPlace (set_total (list_at h n) c) (mns l)
  = MkList h n c l.(mnMap) l.(mnUniquePropertyMap).
Proof.
  intros WFl. destruct (copy_maps (mns l) (set_total (list_at h n) c)) as (E1 & E2 & E3 & E4 & E5).
  destruct (foldl AddMNInPlace _ _) as [bh nh nt m u]. cbn in *. subst. f_equal.
  - apply map_eq. intros k. destruct (mnMap l !! k) as [mn|] eqn:E.
    + pose proof (wf_id l WFl k mn E) as Hk.
      destruct (foldl_insert_in proTxHash (fun mn => mn) (mns l) ∅ k) as (mn' & Hin & Hk' & ->).
      { exists mn. rewrite elem_of_mns by done. by rewrite Hk. }
      apply elem_of_mns in Hin; [|done]. rewrite Hk', E in Hin. by inv Hin.
    + rewrite (foldl_insert_out proTxHash (fun mn => mn)); [by rewrite lookup_empty|].
      intros mn Hin Hk. apply elem_of_mns in Hin; [|done]. by rewrite Hk, E in Hin.
  - apply map_eq. intros h'. destruct (mnUniquePropertyMap l !! h') as [k|] eqn:E.
    + destruct (wf_owned l WFl h' k E) as (mn & p & Hm & Hp & <-).
      destruct (index_all_lookup (mns l) ∅ (prop_hash p)) as (mn' & Hin & Hh & ->).
      { exists mn. rewrite elem_of_mns by done. rewrite (wf_id l WFl k mn Hm). split; [done|]. by apply elem_props_hash. }
      apply list_elem_of_fmap in Hh as (q & Eq & Hq). apply elem_of_mns in Hin; [|done].
      pose proof (wf_indexed l WFl _ mn' q Hin Hq) as Ei. rewrite <- Eq, E in Ei. by inv Ei.
    + rewrite index_all_out; [by rewrite lookup_empty|]. intros mn Hin (p & -> & Hp)%list_elem_of_fmap.
      apply elem_of_mns in Hin; [|done]. by rewrite (wf_indexed l WFl _ mn p Hin Hp) in E.
Qed.

(** ** Lookups through the index *)

Definition all_props (l : CDeterministicMNList) : list prop := mjoin (props <$> mns l).

Lemma elem_of_all_props l p : p ∈ all_props l <-> exists mn, mn ∈ mns l /\ p ∈ props mn.
Proof.
  unfold all_props. rewrite list_elem_of_join. split.
  - intros (ps & Hp & Hin). apply list_elem_of_fmap in Hin as (mn & -> & Hin). eauto.
  - intros (mn & Hin & Hp). exists (props mn). split; [done|]. apply list_elem_of_fmap. eauto.
Qed.

(** A lookup by collateral, address or operator key finds a masternode exactly
    when the masternode is in the list and has that property. *)
Lemma GetMNByProp_spec l p mn : WF l -> valid_prop p = true -> collision_free (p :: all_props l) ->
  GetMNByProp l p = Some mn <-> mn ∈ mns l /\ p ∈ props mn.
Proof.
  intros WFl Vp Hcf. unfold GetMNByProp, GetMN. rewrite elem_of_mns by done. split.
  - intros (k & Hu & Hm)%bind_Some. pose proof (wf_id l WFl k mn Hm) as Hk. rewrite Hk. split; [done|].
    destruct (wf_owned l WFl _ _ Hu) as (mn' & q & Hm' & Hq & Hh).
    assert (mn' = mn) as -> by congruence.
    assert (q = p) as <-; [|done]. apply (prop_hash_inj _ q p Hcf).
    + right. apply elem_of_all_props. exists mn. rewrite elem_of_mns by done. by rewrite Hk.
    + left.
    + eapply valid_mn_props; [by eapply (wf_valid l)|done].
    + done.
    + done.
  - intros [Hm Hp]. by rewrite (wf_indexed l WFl _ mn p Hm Hp).
Qed.

(** ** Payment *)

(** The score as a number: the hash of the masternode, the block and the time
    since its last payment, divided by its tier weight. *)
Definition score (mn : CDeterministicMN) (bh : uint256) (h : Z) : Z :=
  hash256 (score_preimage mn bh h) / GetTierWeight mn.(mn_state).(nTier).

Lemma GetTierWeight_cases t : GetTierWeight t = 1 \/ GetTierWeight t = 10 \/ GetTierWeight t = 100.
Proof. unfold GetTierWeight. repeat case_match; auto. Qed.

Lemma CalcScore_value mn bh h :
  exists s, CalcScore mn bh h = Some s /\ ArithUint256.wf s /\ ArithUint256.lval s = score mn bh h.
Proof.
  unfold CalcScore, score. set (x := hash256 (score_preimage mn bh h)).
  assert (0 <= x < 2 ^ 256) as Hx by (apply in_u_spec, hash256_range).
  pose proof (ArithUint256.UintToArith256_wf x) as Hwf.
  pose proof (ArithUint256.lval_UintToArith256 x Hx) as Hv.
  destruct (Z.ltb_spec 1 (GetTierWeight (nTier (mn_state mn)))) as [Hw|Hw]; cycle 1.
  - exists (ArithUint256.UintToArith256 x). split_and!; [done|done|].
    destruct (GetTierWeight_cases (nTier (mn_state mn))) as [E|[E|E]]; rewrite E in *; lia.
  - set (w := GetTierWeight (nTier (mn_state mn))) in *.
    assert (ArithUint256.lval (ArithUint256.of_uint64 w) = w) as Ew.
    { apply ArithUint256.lval_of_uint64. destruct (GetTierWeight_cases (nTier (mn_state mn))); lia. }
    destruct (ArithUint256.div_spec (ArithUint256.UintToArith256 x) (ArithUint256.of_uint64 w))
      as (q & -> & Hq & Eq); [done|apply ArithUint256.of_uint64_wf|lia|].
    exists q. split_and!; [done|done|]. by rewrite Eq, Hv, Ew.
Qed.

(** The payment order: lower score first, then lower registration hash. *)
Definition pays_before (bh : uint256) (h : Z) (a b : CDeterministicMN) : Prop :=
  score a bh h < score b bh h \/ (score a bh h = score b bh h /\ a.(proTxHash) <= b.(proTxHash)).

Definition best_of (bh : uint256) (h : Z) (L : list CDeterministicMN)
  (acc : option (CDeterministicMN * ArithUint256.limbs)) : Prop :=
  match acc with
  | None => L = []
  | Some (w, s) => w ∈ L /\ ArithUint256.wf s /\ ArithUint256.lval s = score w bh h /\
      forall mn, mn ∈ L -> pays_before bh h w mn
  end.

Lemma limbs_eq_spec a b : ArithUint256.wf a -> ArithUint256.wf b ->
  bytes_eq a b = (ArithUint256.lval a =? ArithUint256.lval b).
Proof.
  intros Ha Hb. apply eq_true_iff_eq. rewrite bytes_eq_spec, Z.eqb_eq.
  split; [by intros ->|]. by apply ArithUint256.wf_inj.
Qed.

Lemma compare_lt_spec a b : ArithUint256.wf a -> ArithUint256.wf b ->
  (ArithUint256.CompareTo a b <? 0) = (ArithUint256.lval a <? ArithUint256.lval b).
Proof.
  intros Ha Hb. rewrite ArithUint256.CompareTo_spec by done.
  destruct (Z.compare_spec (ArithUint256.lval a) (ArithUint256.lval b)); lia.
Qed.

Lemma payee_step_best bh h L acc mn : best_of bh h L acc ->
  (forall m, m ∈ mn :: L -> in_u 256 m.(proTxHash) = true) ->
  best_of bh h (L ++ [mn]) (payee_step bh h acc mn).
Proof.
  intros Hb Hid. unfold payee_step. destruct (CalcScore_value mn bh h) as (s & -> & Hs & Es).
  destruct acc as [[w lo]|]; cbn [best_of] in *; cycle 1.
  { subst L. split_and!; [by apply list_elem_of_singleton|done|done|].
    intros m ->%list_elem_of_singleton. right. lia. }
  destruct Hb as (Hw & Hlo & Elo & Hmin).
  assert (0 <= proTxHash mn < 2 ^ 256 /\ 0 <= proTxHash w < 2 ^ 256) as [Im Iw].
  { split; apply in_u_spec, Hid; [left|by right]. }
  rewrite limbs_eq_spec, !compare_lt_spec by (auto using ArithUint256.UintToArith256_wf).
  rewrite !ArithUint256.lval_UintToArith256, Es, Elo by done.
  destruct (_ || _) eqn:E; cbn [best_of].
  - split_and!; [apply elem_of_app; right; by apply list_elem_of_singleton|done|done|].
    intros m [Hm|Hm]%elem_of_app; [|apply list_elem_of_singleton in Hm as ->; right; lia].
    specialize (Hmin m Hm). unfold pays_before in *. lia.
  - split_and!; [apply elem_of_app; by left|done|done|].
    intros m [Hm|Hm]%elem_of_app; [by apply Hmin|]. apply list_elem_of_singleton in Hm as ->.
    unfold pays_before. lia.
Qed.

Lemma payee_fold_best bh h L : (forall m, m ∈ L -> in_u 256 m.(proTxHash) = true) ->
  best_of bh h L (foldl (payee_step bh h) None L).
Proof.
  induction L as [|mn L IH] using rev_ind; intros Hid; [done|].
  rewrite foldl_app. cbn [foldl]. apply payee_step_best.
  - apply IH. intros m Hm. apply Hid, elem_of_app. by left.
  - intros m [->|Hm]%elem_of_cons; apply Hid, elem_of_app; [right; by apply list_elem_of_singleton|by left].
Qed.

(** ** Batches *)

Lemma GetMN_UpdateMN_same l id s id' mn : WF l -> (forall mn, GetMN l id = Some mn -> props (set_state mn s) = props mn) ->
  GetMN (UpdateMN l id s) id' = Some mn -> exists mn0, GetMN l id' = Some mn0 /\ props mn = props mn0.
Proof.
  intros WFl Hp. destruct (GetMN l id) as [mn1|] eqn:E; cycle 1.
  { unfold UpdateMN. rewrite E. eauto. }
  rewrite (UpdateMN_same l id mn1) by auto. unfold GetMN. cbn.
  intros [[-> <-]|[_ Hl]]%lookup_insert_Some; [|eauto]. exists mn1. split; [done|]. by apply Hp.
Qed.

Lemma WF_BatchUpdateMNStates l updates : WF l ->
  (forall id s mn, (id, s) ∈ updates -> GetMN l id = Some mn -> props (set_state mn s) = props mn) ->
  WF (BatchUpdateMNStates l updates).
Proof.
  unfold BatchUpdateMNStates. revert l. induction updates as [|[id s] us IH]; intros l WFl Hs; [done|].
  assert (forall mn, GetMN l id = Some mn -> props (set_state mn s) = props mn) as Hid.
  { intros mn. apply Hs. left. }
  cbn [foldl fst snd]. apply IH; [by apply WF_UpdateMN_same|].
  intros id' s' mn Hin Hmn. destruct (GetMN_UpdateMN_same l id s id' mn WFl Hid Hmn) as (mn0 & E0 & Ep).
  pose proof (Hs id' s' mn0 (list_elem_of_further _ _ _ Hin) E0) as Ep'.
  rewrite Ep, <- Ep'. unfold props in *. cbn in *. congruence.
Qed.

(** In a well-formed list a property has one holder, and the index finds it. *)
Lemma WF_unique l a b p : WF l -> a ∈ mns l -> b ∈ mns l -> p ∈ props a -> p ∈ props b -> a = b /\ GetMNByProp l p = Some a.
Proof.
  intros WFl Ha Hb Hpa Hpb. apply elem_of_mns in Ha, Hb; try done.
  pose proof (wf_indexed l WFl _ a p Ha Hpa) as Ea. pose proof (wf_indexed l WFl _ b p Hb Hpb) as Eb.
  assert (a = b) as -> by congruence. split; [done|]. unfold GetMNByProp, GetMN. by rewrite Ea.
Qed.

(** The guard that [AddMN] only logs is needed: a property taken over is no
    longer indexed for its holder. *)
Lemma AddMN_guard l mn : WF l -> GetMN l mn.(proTxHash) = None -> WF (AddMN l mn) ->
  forall p, p ∈ props mn -> HasUniqueProperty l (prop_hash p) = false.
Proof.
  intros WFl Hid WF' p Hp. unfold HasUniqueProperty. destruct (mnUniquePropertyMap l !! prop_hash p) as [k|] eqn:E; [|done].
  exfalso. destruct (wf_owned l WFl _ k E) as (mn' & q & Hm & Hq & Hh). unfold GetMN in Hid.
  assert (proTxHash mn <> k) as Hk by (intros <-; congruence).
  pose proof (wf_indexed _ WF' k mn' q) as Hi. unfold AddMN, AddMNInPlace in Hi.
  cbn [with_maps set_total mnMap mnUniquePropertyMap] in Hi. rewrite lookup_insert_ne, index_mn_lookup, Hh in Hi by done.
  specialize (Hi Hm Hq). rewrite decide_True in Hi by (by apply elem_props_hash). congruence.
Qed.

(** ** Properties *)

(** C10. Which operations keep the addresses and keys unique.  Say that a list is
    well-formed when its masternodes are stored under their registration hashes with
    fields of the right width and the index holds exactly their properties.  Then no
    two masternodes share a collateral, a service address, an owner, voting or operator
    key, and the index finds the one that has it.  The empty list is well-formed.
    Removing masternodes keeps the list well-formed, and so does [UpdateMN] for every
    new state of valid fields with the same owner key, barring collisions of the
    hash on the old and new properties: a state that claims what another
    masternode has is refused.  [AddMN] has no such guard: adding a valid masternode
    under a new hash keeps the list well-formed exactly when all its properties are free. *)
Theorem unique_properties_kept (l : CDeterministicMNList) : WF l ->
  WF empty_list
  /\ (forall a b p, a ∈ mns l -> b ∈ mns l -> p ∈ props a -> p ∈ props b -> a = b /\ GetMNByProp l p = Some a)
  /\ (forall ids, WF (BatchRemoveMNs l ids))
  /\ (forall id s, (forall mn, GetMN l id = Some mn -> valid_mn (set_state mn s) = true /\ keeps_owner mn s
                     /\ collision_free (props mn ++ props (set_state mn s))) -> WF (UpdateMN l id s))
  /\ (forall mn, valid_mn mn = true -> GetMN l mn.(proTxHash) = None ->
       WF (AddMN l mn) <-> forall p, p ∈ props mn -> HasUniqueProperty l (prop_hash p) = false).
Proof.
  intros WFl. split_and!; [apply (WF_empty 0 (-1) 0)|by intros; apply WF_unique|intros; by apply WF_BatchRemoveMNs
    |intros; by apply WF_UpdateMN|].
  intros mn V Hid. split; [by apply AddMN_guard|]. intros Hfree. apply WF_AddMN; [done..|].
  intros p Hp. specialize (Hfree p Hp). unfold HasUniqueProperty in Hfree. by case_match.
Qed.

(** [GetMNByCollateral], [GetMNByService] and [GetMNByOperatorKey] find a
    masternode exactly when it is in the list and has the property asked for,
    unless the hash function collides on the properties involved. *)
Theorem lookup_by_property_exact (l : CDeterministicMNList) (p : prop) (mn : CDeterministicMN) :
  WF l -> valid_prop p = true -> collision_free (p :: all_props l) ->
  GetMNByProp l p = Some mn <-> mn ∈ mns l /\ p ∈ props mn.
Proof. apply GetMNByProp_spec. Qed.

(** An update that would claim an address or key indexed for another
    masternode leaves the list unchanged; any other update of a masternode in
    the list installs the new state, keeps the rest of the list, and indexes
    the new address and keys for that masternode. *)
Theorem UpdateMN_effect (l : CDeterministicMNList) (mn : CDeterministicMN) (s : CDeterministicMNState) :
  WF l -> mn ∈ mns l -> valid_mn (set_state mn s) = true ->
  keeps_owner mn s -> collision_free (props mn ++ props (set_state mn s)) ->
  let l' := UpdateMN l mn.(proTxHash) s in
  if existsb (fun p => owned_by_other l.(mnUniquePropertyMap) (prop_hash p) mn.(proTxHash))
       (snd <$> changes mn.(mn_state) s)
  then l' = l
  else GetMN l' mn.(proTxHash) = Some (set_state mn s) /\
    (forall k, k <> mn.(proTxHash) -> GetMN l' k = GetMN l k) /\
    (forall p, p ∈ props (set_state mn s) -> GetMNByProp l' p = Some (set_state mn s)).
Proof.
  intros WFl Hin V Ho Hcf. cbn zeta.
  apply elem_of_mns in Hin; [|done].
  assert (UpdateMN l (proTxHash mn) s = if wouldConflict (mnUniquePropertyMap l) (proTxHash mn)
    (changes (mn_state mn) s) then l else apply_update l mn s) as ->.
  { unfold UpdateMN, GetMN. by rewrite Hin. }
  assert (existsb (fun p => owned_by_other (mnUniquePropertyMap l) (prop_hash p) (proTxHash mn))
    (snd <$> changes (mn_state mn) s) = wouldConflict (mnUniquePropertyMap l) (proTxHash mn) (changes (mn_state mn) s)) as ->.
  { unfold wouldConflict. induction (changes (mn_state mn) s) as [|c cs IH]; cbn; [done|]. by rewrite IH. }
  destruct (wouldConflict _ _ _) eqn:Ec; [done|].
  pose proof (WF_apply_update l mn s WFl Hin V Ho Hcf Ec) as WF'.
  assert (mnMap (apply_update l mn s) !! proTxHash mn = Some (set_state mn s)) as E by apply lookup_insert_eq.
  split_and!; [exact E|intros k Hk; unfold GetMN; by apply lookup_insert_ne|].
  intros p Hp. unfold GetMNByProp, GetMN. by rewrite (wf_indexed _ WF' _ _ _ E Hp).
Qed.

(** C35. The payee of a well-formed list is the eligible masternode that comes first in the payment
    order (lowest tier-weighted score, then lowest registration hash),
    whatever the order of iteration over the map, and there is a payee exactly
    when some masternode is eligible: valid, of a nonzero tier and registered
    for the required number of confirmations. *)
Theorem GetMNPayee_minimum (cp : Params) (l : CDeterministicMNList) (bh : uint256) (h : Z) :
  WF l ->
  match GetMNPayee cp l bh h with
  | Some w => w ∈ mns l /\ payment_eligible cp h w = true /\
      forall mn, mn ∈ mns l -> payment_eligible cp h mn = true -> pays_before bh h w mn
  | None => forall mn, mn ∈ mns l -> payment_eligible cp h mn = false
  end.
Proof.
  intros WFl. unfold GetMNPayee, GetValidMNsForPayment.
  set (L := filter (fun mn => payment_eligible cp h mn = true) (mns l)).
  assert (forall mn, mn ∈ L <-> payment_eligible cp h mn = true /\ mn ∈ mns l) as HL.
  { intros mn. unfold L. by rewrite list_elem_of_filter. }
  assert (forall m, m ∈ L -> in_u 256 m.(proTxHash) = true) as Hid.
  { intros m [_ Hm]%HL. apply elem_of_mns in Hm; [|done].
    pose proof (wf_valid l WFl _ m Hm) as V. unfold valid_mn in V. by apply andb_true_iff in V as [? _]. }
  pose proof (payee_fold_best bh h L Hid) as Hb.
  destruct (foldl (payee_step bh h) None L) as [[w s]|]; cbn [fmap option_fmap option_map fst best_of] in *.
  - destruct Hb as (Hw & _ & _ & Hmin). apply HL in Hw as [He Hw]. split_and!; auto.
    intros mn Hm He'. apply Hmin, HL. done.
  - intros mn Hm. destruct (payment_eligible cp h mn) eqn:E; [|done]. exfalso.
    assert (mn ∈ L) as Hin by (by apply HL). rewrite Hb in Hin. by apply elem_of_nil in Hin.
Qed.

(** The list a block starts from, rebuilt by re-adding every masternode of
    the previous list, is the previous list with the new block's hash and
    height: nothing is lost or renumbered by the copy. *)
Theorem copy_preserves_list (l : CDeterministicMNList) (h : uint256) (n : Z) :
  WF l ->
  foldl AddMNInPlace (set_total (list_at h n) l.(nTotalRegisteredCount)) (mns l)
  = MkList h n l.(nTotalRegisteredCount) l.(mnMap) l.(mnUniquePropertyMap).
Proof. apply copy_list. Qed.

End ListFacts.

(** ** A concrete list *)

Module Demo.

#[local] Existing Instance Poly.poly_hash.

Definition service (last : Z) : CService := MkService (MkNetAddr (pchIPv4 ++ [8; 8; 4; last]) 0) 8770.
Definition demo_state (n : Z) : CDeterministicMNState :=
  MkState 10 0 0 (-1) (-1) 0 1 0 0 n [n; 1; 2] (n + 1) (service n) [n] [].
Definition demo_mn (n : Z) : CDeterministicMN := MkMN n (MkOutPoint (n + 100) 0) 0 (demo_state n) n.
Definition demo_list : CDeterministicMNList := AddMN (AddMN empty_list (demo_mn 1)) (demo_mn 2).

Lemma demo_free (l : CDeterministicMNList) mn :
  forallb (fun p => negb (HasUniqueProperty l (prop_hash p))) (props mn) = true ->
  forall p, p ∈ props mn -> HasUniqueProperty l (prop_hash p) = false.
Proof.
  rewrite forallb_forall. intros H p Hp. apply negb_true_iff, H. by apply list_elem_of_In.
Qed.

Lemma demo_add (l : CDeterministicMNList) mn : WF l -> valid_mn mn = true -> GetMN l mn.(proTxHash) = None ->
  forallb (fun p => negb (HasUniqueProperty l (prop_hash p))) (props mn) = true -> WF (AddMN l mn).
Proof.
  intros WFl V Hid Hf. apply WF_AddMN; [done..|]. intros p Hp. pose proof (demo_free l mn Hf p Hp) as H.
  unfold HasUniqueProperty in H. by case_match.
Qed.
Lemma demo_WF : WF demo_list.
Proof.
  apply demo_add; [apply demo_add; [apply (WF_empty 0 (-1) 0)|..]|..]; vm_compute; reflexivity.
Qed.

Lemma demo_mns : mns demo_list = [demo_mn 1; demo_mn 2].
Proof. vm_compute. reflexivity. Qed.

Lemma demo_in : demo_mn 1 ∈ mns demo_list /\ demo_mn 2 ∈ mns demo_list.
Proof. rewrite demo_mns. set_solver. Qed.

(** Masternode 2 is found by its address, and masternode 3 cannot be added with it. *)
Definition demo_copy : CDeterministicMN := MkMN 3 (MkOutPoint 103 0) 0 (demo_state 2) 3.
Lemma unique_properties_kept_witness :
  GetMNByProp demo_list (PAddr (service 2)) = Some (demo_mn 2) /\ ~ WF (AddMN demo_list demo_copy).
Proof.
  destruct (unique_properties_kept demo_list demo_WF) as (_ & Hu & _ & _ & Ha). split.
  - apply (Hu (demo_mn 2) (demo_mn 2)); [exact (proj2 demo_in)|exact (proj2 demo_in)|right; left|right; left].
  - intros W. assert (HasUniqueProperty demo_list (prop_hash (PAddr (service 2))) = true) as H by (vm_compute; reflexivity).
    rewrite (proj1 (Ha demo_copy ltac:(vm_compute; reflexivity) ltac:(vm_compute; reflexivity)) W) in H; [discriminate|right; left].
Defined.

Lemma lookup_by_property_exact_witness :
  GetMNByProp demo_list (PAddr (service 2)) = Some (demo_mn 2) <->
  demo_mn 2 ∈ mns demo_list /\ PAddr (service 2) ∈ props (demo_mn 2).
Proof.
  apply lookup_by_property_exact; [exact demo_WF|reflexivity|].
  apply collision_free_b_spec. vm_compute. reflexivity.
Defined.

(** Masternode 1 moves to a free address; then it tries the address of masternode 2. *)
Definition moved (n : Z) : CDeterministicMNState :=
  MkState 10 0 0 (-1) (-1) 0 1 50 0 1 [1; 1; 2] 2 (service n) [1] [].

Lemma UpdateMN_effect_witness :
  let l' := UpdateMN demo_list 1 (moved 77) in
  if existsb (fun p => owned_by_other demo_list.(mnUniquePropertyMap) (prop_hash p) 1)
       (snd <$> changes (demo_state 1) (moved 77))
  then l' = demo_list
  else GetMN l' 1 = Some (set_state (demo_mn 1) (moved 77)) /\
    (forall k, k <> 1 -> GetMN l' k = GetMN demo_list k) /\
    (forall p, p ∈ props (set_state (demo_mn 1) (moved 77)) ->
       GetMNByProp l' p = Some (set_state (demo_mn 1) (moved 77))).
Proof.
  apply (UpdateMN_effect demo_list (demo_mn 1) (moved 77)).
  - exact demo_WF.
  - exact (proj1 demo_in).
  - vm_compute. reflexivity.
  - reflexivity.
  - apply collision_free_b_spec. vm_compute. reflexivity.
Defined.

Lemma GetMNPayee_minimum_witness :
  match GetMNPayee regtest_params demo_list 7 60 with
  | Some w => w ∈ mns demo_list /\ payment_eligible regtest_params 60 w = true /\
      forall mn, mn ∈ mns demo_list -> payment_eligible regtest_params 60 mn = true ->
        pays_before 7 60 w mn
  | None => forall mn, mn ∈ mns demo_list -> payment_eligible regtest_params 60 mn = false
  end.
Proof. apply GetMNPayee_minimum. exact demo_WF. Defined.

Lemma copy_preserves_list_witness :
  foldl AddMNInPlace (set_total (list_at 9 60) 2) (mns demo_list)
  = MkList 9 60 2 demo_list.(mnMap) demo_list.(mnUniquePropertyMap).
Proof. apply (copy_preserves_list demo_list 9 60 demo_WF). Defined.

End Demo.
