(* ===== verification/Chain.v ===== *)
(** The block index and the active chain (chain.h, chain.cpp, and the
    construction of index entries in validation.cpp): the skip list behind
    [GetAncestor], the chain container, forks and locators, and the work a
    block proves.  Entries are compared by block hash, the key under which
    each is stored once.  The theorems show that the skip list finds exactly
    the ancestor that walking back would, that setting the tip makes the
    container the path to it, that forks are found, and that the proof of a
    block is 2^256 / (target + 1) rounded down. *)

From S2P Require Import Prelude ArithUint256.

#[warnings="-register-all"]
Inductive CBlockIndex := MkIndex {
  bi_hash : uint256;
  bi_height : Z;
  bi_version : Z;
  nTime : Z;
  nBits : Z;
  nChainWork : ArithUint256.limbs;
  nTimeMax : Z;
  pprev : option CBlockIndex;
  pskip : option CBlockIndex;
}.

Definition same (a b : CBlockIndex) : bool := a.(bi_hash) =? b.(bi_hash).
Definition GetBlockTime (p : CBlockIndex) : Z := p.(nTime).
Definition GetBlockTimeMax (p : CBlockIndex) : Z := p.(nTimeMax).

(** ** Ancestors *)

Definition InvertLowestOne (n : Z) : Z := Z.land n (n - 1).
Definition GetSkipHeight (height : Z) : Z :=
  if height <? 2 then 0
  else if negb (Z.land height 1 =? 0)
  then InvertLowestOne (InvertLowestOne (height - 1)) + 1
  else InvertLowestOne height.

(** [while (heightWalk > height)]; each step goes down by at least one, so the
    starting height is enough fuel.  A missing predecessor is the failed
    assertion. *)
Fixpoint ancestor_loop (fuel : nat) (pindexWalk : CBlockIndex) (heightWalk height : Z) : option CBlockIndex :=
  if heightWalk <=? height then Some pindexWalk
  else match fuel with
  | O => None
  | S fuel' =>
    let heightSkip := GetSkipHeight heightWalk in
    let heightSkipPrev := GetSkipHeight (heightWalk - 1) in
    let follow := (heightSkip =? height) ||
      ((height <? heightSkip) && negb ((heightSkipPrev <? heightSkip - 2) && (height <=? heightSkipPrev))) in
    match pindexWalk.(pskip) with
    | Some s =>
      if follow then ancestor_loop fuel' s heightSkip height
      else q ← pindexWalk.(pprev); ancestor_loop fuel' q (heightWalk - 1) height
    | None => q ← pindexWalk.(pprev); ancestor_loop fuel' q (heightWalk - 1) height
    end
  end.

Definition GetAncestor (p : CBlockIndex) (height : Z) : option CBlockIndex :=
  if (p.(bi_height) <? height) || (height <? 0) then None
  else ancestor_loop (Z.to_nat p.(bi_height)) p p.(bi_height) height.

(** The skip pointer [BuildSkip] stores. *)
Definition BuildSkip (prev : option CBlockIndex) (nHeight : Z) : option CBlockIndex :=
  q ← prev; GetAncestor q (GetSkipHeight nHeight).

(** ** Work *)

Definition GetBlockProof (bits : Z) : option ArithUint256.limbs :=
  let '(bnTarget, fNegative, fOverflow) := ArithUint256.SetCompact bits in
  if fNegative || fOverflow || ArithUint256.EqualTo bnTarget 0 then Some ArithUint256.zero
  else
    q ← ArithUint256.div (ArithUint256.not_ bnTarget)
          (ArithUint256.add bnTarget (ArithUint256.of_uint64 1));
    Some (ArithUint256.add q (ArithUint256.of_uint64 1)).

(** [None] is the division by a proof of zero, which throws. *)
Definition GetBlockProofEquivalentTime (to from tip : CBlockIndex) (nPowTargetSpacing : Z) : option Z :=
  let '(r, sign) :=
    if 0 <? ArithUint256.CompareTo to.(nChainWork) from.(nChainWork)
    then (ArithUint256.sub to.(nChainWork) from.(nChainWork), 1)
    else (ArithUint256.sub from.(nChainWork) to.(nChainWork), -1) in
  proof ← GetBlockProof tip.(nBits);
  r ← ArithUint256.div (ArithUint256.mul r (ArithUint256.of_uint64 nPowTargetSpacing)) proof;
  if 63 <? ArithUint256.bits r then Some (sign * (2 ^ 63 - 1))
  else Some (sign * ArithUint256.GetLow64 r).

(** ** New entries *)

(** The fields [AddToBlockIndex] computes for a header that is not yet known. *)
Definition AddToBlockIndex (hash : uint256) (version time bits : Z) (prev : option CBlockIndex) : option CBlockIndex :=
  proof ← GetBlockProof bits;
  Some match prev with
  | None => MkIndex hash 0 version time bits (ArithUint256.add (ArithUint256.of_uint64 0) proof) time None None
  | Some q =>
    let nHeight := q.(bi_height) + 1 in
    MkIndex hash nHeight version time bits (ArithUint256.add q.(nChainWork) proof) (Z.max q.(nTimeMax) time)
      prev (BuildSkip prev nHeight)
  end.

(** The times of the last [n] blocks, [pmedian] before sorting. *)
Fixpoint last_times (n : nat) (p : option CBlockIndex) : list Z :=
  match n, p with
  | S n', Some q => GetBlockTime q :: last_times n' q.(pprev)
  | _, _ => []
  end.
Definition GetMedianTimePast (p : CBlockIndex) : Z :=
  let sorted := merge_sort Z.le (last_times 11 (Some p)) in
  sorted !!! (length sorted / 2)%nat.

(** ** The active chain *)

(** [vChain]; an entry is null only between [resize] and the end of [SetTip]. *)
Abbreviation CChain := (list (option CBlockIndex)).

Definition Height (c : CChain) : Z := Z.of_nat (length c) - 1.
Definition at_height (c : CChain) (nHeight : Z) : option CBlockIndex :=
  if (nHeight <? 0) || (Z.of_nat (length c) <=? nHeight) then None else c !!! Z.to_nat nHeight.
Definition Genesis (c : CChain) : option CBlockIndex := if (0 <? length c)%nat then c !!! 0%nat else None.
Definition Tip (c : CChain) : option CBlockIndex :=
  if (0 <? length c)%nat then c !!! (length c - 1)%nat else None.
Definition points_to (o : option CBlockIndex) (p : CBlockIndex) : bool :=
  match o with Some q => same q p | None => false end.
Definition Contains (c : CChain) (p : CBlockIndex) : bool := points_to (at_height c p.(bi_height)) p.
Definition Next (c : CChain) (p : CBlockIndex) : option CBlockIndex :=
  if Contains c p then at_height c (p.(bi_height) + 1) else None.

(** [while (pindex && vChain[pindex->nHeight] != pindex)]: goes down one height
    per iteration. *)
Fixpoint set_tip_loop (fuel : nat) (c : CChain) (p : option CBlockIndex) : CChain :=
  match fuel, p with
  | S fuel', Some q =>
    if points_to (c !!! Z.to_nat q.(bi_height)) q then c
    else set_tip_loop fuel' (<[Z.to_nat q.(bi_height) := Some q]> c) q.(pprev)
  | _, _ => c
  end.
Definition SetTip (c : CChain) (pindex : option CBlockIndex) : CChain :=
  match pindex with
  | None => []
  | Some p =>
    let n := Z.to_nat (p.(bi_height) + 1) in
    set_tip_loop n (resize n None c) (Some p)
  end.

Fixpoint fork_loop (fuel : nat) (c : CChain) (p : option CBlockIndex) : option CBlockIndex :=
  match fuel, p with
  | S fuel', Some q => if Contains c q then Some q else fork_loop fuel' c q.(pprev)
  | _, _ => None
  end.
Definition FindFork (c : CChain) (pindex : option CBlockIndex) : option CBlockIndex :=
  p ← pindex;
  let p' := if Height c <? p.(bi_height) then GetAncestor p (Height c) else Some p in
  q ← p'; fork_loop (S (Z.to_nat q.(bi_height))) c (Some q).

Fixpoint locator_loop (fuel : nat) (c : CChain) (p : option CBlockIndex) (nStep : Z) (vHave : list uint256)
  : list uint256 :=
  match fuel, p with
  | S fuel', Some q =>
    let vHave := vHave ++ [q.(bi_hash)] in
    if q.(bi_height) =? 0 then vHave
    else
      let nHeight := Z.max (q.(bi_height) - nStep) 0 in
      let next := if Contains c q then at_height c nHeight else GetAncestor q nHeight in
      locator_loop fuel' c next (if (10 <? length vHave)%nat then nStep * 2 else nStep) vHave
  | _, _ => vHave
  end.
Definition GetLocator (c : CChain) (pindex : option CBlockIndex) : list uint256 :=
  let start := match pindex with Some p => Some p | None => Tip c end in
  match start with
  | Some p => locator_loop (S (Z.to_nat p.(bi_height))) c start 1 []
  | None => []
  end.

(** [std::lower_bound] on [nTimeMax]: the first entry not below the time. *)
Fixpoint FindEarliestAtLeast (c : CChain) (time : Z) : option CBlockIndex :=
  match c with
  | Some p :: c' => if GetBlockTimeMax p <? time then FindEarliestAtLeast c' time else Some p
  | _ => None
  end.

(** The loop of [LastCommonAncestor]; [None] is the failed assertion, or null
    where both chains end. *)
Fixpoint common_loop (fuel : nat) (pa pb : option CBlockIndex) : option CBlockIndex :=
  match pa, pb with
  | Some a, Some b =>
    if same a b then Some a
    else match fuel with O => None | S fuel' => common_loop fuel' a.(pprev) b.(pprev) end
  | _, _ => None
  end.
Definition LastCommonAncestor (pa pb : CBlockIndex) : option CBlockIndex :=
  let a := if pb.(bi_height) <? pa.(bi_height) then GetAncestor pa pb.(bi_height) else Some pa in
  let b := if pa.(bi_height) <? pb.(bi_height) then GetAncestor pb pa.(bi_height) else Some pb in
  common_loop (Z.to_nat (Z.min pa.(bi_height) pb.(bi_height))) a b.

(** ** Chains of entries *)

(** An entry built by [AddToBlockIndex], with all its predecessors. *)
Inductive chained : CBlockIndex -> Prop :=
| chained_genesis p : p.(pprev) = None -> p.(pskip) = None -> p.(bi_height) = 0 -> chained p
| chained_next p q :
    chained q -> p.(pprev) = Some q -> p.(bi_height) = q.(bi_height) + 1 ->
    p.(pskip) = BuildSkip (Some q) p.(bi_height) -> chained p.

(** Reference: [n] steps back. *)
Fixpoint walk (n : nat) (p : CBlockIndex) : option CBlockIndex :=
  match n with
  | O => Some p
  | S n' => q ← p.(pprev); walk n' q
  end.

Lemma AddToBlockIndex_chained hash version time bits prev p :
  match prev with Some q => chained q | None => True end ->
  AddToBlockIndex hash version time bits prev = Some p -> chained p.
Proof.
  intros Hq. unfold AddToBlockIndex. destruct (GetBlockProof bits) as [w|]; [|done].
  intros [= <-]. destruct prev as [q|]; [|by apply chained_genesis].
  by apply (chained_next _ q).
Qed.

Lemma chained_nonneg p : chained p -> 0 <= bi_height p.
Proof. induction 1; lia. Qed.

Lemma chained_prev p : chained p -> 0 < bi_height p ->
  exists q, pprev p = Some q /\ chained q /\ bi_height p = bi_height q + 1 /\
    pskip p = BuildSkip (Some q) (bi_height p).
Proof. intros [p' _ _ E|p' q Hq Hp Hh Hs] Hpos; [lia|]. by exists q. Qed.

Lemma walk_height n p : chained p -> Z.of_nat n <= bi_height p ->
  exists a, walk n p = Some a /\ chained a /\ bi_height a = bi_height p - Z.of_nat n.
Proof.
  revert p. induction n as [|n IH]; intros p Hp Hn; [exists p; split_and!; [done..|lia]|].
  destruct (chained_prev p Hp) as (q & E & Hq & Hh & _); [lia|]. cbn [walk]. rewrite E. cbn [mbind option_bind].
  destruct (IH q Hq) as (a & Ha & Hc & Hah); [lia|]. exists a. split_and!; [done..|lia].
Qed.

Lemma walk_add n k p : walk (n + k) p = q ← walk n p; walk k q.
Proof.
  revert p. induction n as [|n IH]; intros p; [done|]. cbn [walk plus].
  destruct (pprev p); [apply IH|done].
Qed.

Lemma land_le n b : 0 <= b -> 0 <= Z.land n b <= b.
Proof.
  intros Hb. apply Z.ldiff_le; [done|]. apply Z.bits_inj'. intros i Hi.
  rewrite Z.ldiff_spec, Z.land_spec, Z.bits_0. by destruct (Z.testbit n i), (Z.testbit b i).
Qed.
Lemma InvertLowestOne_lt n : 1 <= n -> 0 <= InvertLowestOne n < n.
Proof. intros Hn. unfold InvertLowestOne. pose proof (land_le n (n - 1)). lia. Qed.

(** Skip pointers go strictly down. *)
Lemma GetSkipHeight_lt h : 1 <= h -> 0 <= GetSkipHeight h < h.
Proof.
  intros Hh. unfold GetSkipHeight. destruct (h <? 2) eqn:E; [lia|].
  destruct (Z.land h 1 =? 0) eqn:Odd; cbn [negb]; [apply InvertLowestOne_lt; lia|].
  pose proof (InvertLowestOne_lt (h - 1) ltac:(lia)) as H1.
  destruct (Z.eq_dec (InvertLowestOne (h - 1)) 0) as [E0|E0]; [rewrite E0; change (InvertLowestOne 0) with 0; lia|].
  pose proof (InvertLowestOne_lt (InvertLowestOne (h - 1)) ltac:(lia)). lia.
Qed.

Lemma ancestor_loop_walk n : forall p h fuel, bi_height p <= Z.of_nat n -> chained p ->
  0 <= h <= bi_height p -> bi_height p - h <= Z.of_nat fuel ->
  ancestor_loop fuel p (bi_height p) h = walk (Z.to_nat (bi_height p - h)) p.
Proof.
  induction n as [|n IH]; intros p h fuel Hn Hp Hh Hf.
  { replace (bi_height p - h) with 0 by lia. destruct fuel; cbn [ancestor_loop];
      (destruct (bi_height p <=? h) eqn:E; [done|lia]). }
  destruct fuel as [|fuel]; cbn [ancestor_loop].
  { replace (bi_height p - h) with 0 by lia. destruct (bi_height p <=? h) eqn:E; [done|lia]. }
  destruct (bi_height p <=? h) eqn:Ele.
  { by replace (bi_height p - h) with 0 by lia. }
  destruct (chained_prev p Hp) as (q & Eq & Hq & Hhq & Hs); [lia|].
  pose proof (GetSkipHeight_lt (bi_height p)) as Hsk. set (sk := GetSkipHeight (bi_height p)) in *.
  assert (ancestor_loop fuel q (bi_height p - 1) h = walk (Z.to_nat (bi_height p - h)) p) as Hprev.
  { replace (Z.to_nat (bi_height p - h)) with (S (Z.to_nat (bi_height q - h))) by lia.
    cbn [walk]. rewrite Eq. replace (bi_height p - 1) with (bi_height q) by lia. apply IH; (done || lia). }
  rewrite Hs, Eq. cbn [BuildSkip mbind option_bind]. fold sk. unfold GetAncestor.
  rewrite (proj2 (orb_false_iff _ _)) by lia. rewrite (IH q sk) by (done || lia).
  destruct (walk_height (Z.to_nat (bi_height q - sk)) q Hq) as (s & Ws & Cs & Hhs); [lia|].
  rewrite Ws. destruct ((sk =? h) || _) eqn:Ef; [|exact Hprev].
  replace sk with (bi_height s) at 1 by lia. rewrite (IH s h) by (done || lia).
  replace (Z.to_nat (bi_height p - h))
    with (S (Z.to_nat (bi_height q - sk) + Z.to_nat (bi_height s - h)))%nat by lia.
  cbn [walk]. rewrite Eq. cbn [mbind option_bind]. by rewrite walk_add, Ws.
Qed.

Lemma GetAncestor_walk p h : chained p ->
  GetAncestor p h = if (0 <=? h) && (h <=? bi_height p) then walk (Z.to_nat (bi_height p - h)) p else None.
Proof.
  intros Hp. pose proof (chained_nonneg p Hp). unfold GetAncestor. destruct (_ || _) eqn:E.
  - by rewrite (proj2 (andb_false_iff _ _)) by lia.
  - rewrite (proj2 (andb_true_iff _ _)) by lia. apply (ancestor_loop_walk (Z.to_nat (bi_height p))); (done || lia).
Qed.

(** *** The active chain as a path *)

(** The chain that ends at [p]. *)
Definition path (p : CBlockIndex) : CChain :=
  (fun i => walk (Z.to_nat (bi_height p) - i) p) <$> seq 0 (S (Z.to_nat (bi_height p))).

(** The entries reached from [p] and [q] are identified by their hashes. *)
Definition hash_unique (p q : CBlockIndex) : Prop :=
  forall i j a b, walk i p = Some a -> walk j q = Some b -> bi_hash a = bi_hash b -> a = b.

Lemma length_path p : length (path p) = S (Z.to_nat (bi_height p)).
Proof. unfold path. by rewrite length_fmap, length_seq. Qed.

Lemma path_lookup p i : (i <= Z.to_nat (bi_height p))%nat ->
  path p !!! i = walk (Z.to_nat (bi_height p) - i) p.
Proof.
  intros Hi. apply list_lookup_total_correct. unfold path.
  rewrite list_lookup_fmap, lookup_seq_lt by lia. done.
Qed.

Lemma walk_inv n p a : chained p -> walk n p = Some a ->
  chained a /\ bi_height a = bi_height p - Z.of_nat n /\ Z.of_nat n <= bi_height p.
Proof.
  revert p. induction n as [|n IH]; intros p Hp Hw; cbn in Hw.
  { injection Hw as <-. pose proof (chained_nonneg p Hp). split_and!; [done|lia|lia]. }
  destruct (pprev p) as [q|] eqn:E; [|done]. cbn in Hw.
  destruct Hp as [p Hn _ _|p q' Hq Hpr Hh _]; [congruence|].
  assert (q' = q) as -> by congruence. destruct (IH q Hq Hw) as (H1 & H2 & H3). split_and!; [done|lia|lia].
Qed.

(** Below an entry of the path to [p], the path is the path to that entry. *)
Lemma walk_below p a i j : chained p -> walk i p = Some a -> (j <= Z.to_nat (bi_height a))%nat ->
  walk (Z.to_nat (bi_height p) - j) p = walk (Z.to_nat (bi_height a) - j) a.
Proof.
  intros Hp Hw Hj. destruct (walk_inv i p a Hp Hw) as (_ & Hh & Hi).
  replace (Z.to_nat (bi_height p) - j)%nat with (i + (Z.to_nat (bi_height a) - j))%nat by lia.
  rewrite walk_add, Hw. done.
Qed.

Lemma points_to_spec o p : points_to o p = true -> exists q, o = Some q /\ bi_hash q = bi_hash p.
Proof. destruct o as [q|]; [|done]. cbn. unfold same. intros H. exists q. split; [done|lia]. Qed.

(** Loop invariant of [SetTip]: wherever the old contents agree with the path
    to [r] at one height, they agree with it below. *)
Lemma set_tip_loop_path fuel : forall c r, chained r -> (Z.to_nat (bi_height r) < fuel)%nat ->
  (Z.to_nat (bi_height r) < length c)%nat ->
  (forall i a, (i <= Z.to_nat (bi_height r))%nat -> walk (Z.to_nat (bi_height r) - i) r = Some a ->
     points_to (c !!! i) a = true ->
     forall j, (j <= i)%nat -> c !!! j = walk (Z.to_nat (bi_height r) - j) r) ->
  let c' := set_tip_loop fuel c (Some r) in
  length c' = length c /\
  (forall j, (j <= Z.to_nat (bi_height r))%nat -> c' !!! j = walk (Z.to_nat (bi_height r) - j) r) /\
  (forall j, (Z.to_nat (bi_height r) < j)%nat -> c' !!! j = c !!! j).
Proof.
  induction fuel as [|fuel IH]; intros c r Hr Hf Hl Hold; [lia|]. cbn [set_tip_loop]. cbn zeta.
  set (h := Z.to_nat (bi_height r)) in *.
  destruct (points_to (c !!! h) r) eqn:Ept.
  { split_and!; [done| |done]. apply (Hold h r); [lia|by rewrite Nat.sub_diag|done]. }
  destruct (pprev r) as [q|] eqn:Eq; cycle 1.
  { assert (h = 0%nat) as ->.
    { destruct Hr as [r _ _ E|r q' _ Hp _ _]; [unfold h; lia|congruence]. }
    replace (set_tip_loop fuel _ None) with (<[0%nat := Some r]> c) by (by destruct fuel).
    rewrite length_insert. split_and!; [done| |].
    - intros j Hj. replace j with 0%nat by lia. rewrite list_lookup_total_insert_eq by lia. done.
    - intros j Hj. by rewrite list_lookup_total_insert_ne by lia. }
  destruct (chained_prev r Hr) as (q' & Eq' & Hq & Hh & _).
  { destruct Hr as [r Hn _ _|r q' Hq' Hp Hh _]; [congruence|]. pose proof (chained_nonneg q' Hq'). lia. }
  assert (q' = q) as -> by congruence. pose proof (chained_nonneg q Hq) as Hq0.
  assert (h = S (Z.to_nat (bi_height q))) as Eh by (unfold h; lia).
  assert (forall j, (j <= Z.to_nat (bi_height q))%nat -> walk (h - j) r = walk (Z.to_nat (bi_height q) - j) q) as Hw.
  { intros j Hj. replace (h - j)%nat with (S (Z.to_nat (bi_height q) - j)) by lia. cbn [walk]. by rewrite Eq. }
  destruct (IH (<[h := Some r]> c) q Hq) as (I1 & I2 & I3); [lia|rewrite length_insert; lia| |].
  { intros i a Hi Ha. rewrite list_lookup_total_insert_ne by lia. intros Hp j Hj.
    rewrite list_lookup_total_insert_ne, <- Hw by lia. apply (Hold i a); [lia| |done|done].
    rewrite Hw by lia. done. }
  rewrite I1, length_insert. split_and!; [done| |].
  - intros j Hj. destruct (decide (j = h)) as [->|Hne].
    + rewrite I3, list_lookup_total_insert_eq, Nat.sub_diag by lia. done.
    + rewrite I2, Hw by lia. done.
  - intros j Hj. rewrite I3, list_lookup_total_insert_ne by lia. done.
Qed.

Lemma SetTip_path_gen c p : chained p ->
  (c = [] \/ exists q, chained q /\ c = path q /\ hash_unique q p) -> SetTip c (Some p) = path p.
Proof.
  intros Hp Hc. pose proof (chained_nonneg p Hp) as Hp0. unfold SetTip.
  replace (Z.to_nat (bi_height p + 1)) with (S (Z.to_nat (bi_height p))) by lia.
  set (n := S (Z.to_nat (bi_height p))).
  destruct (set_tip_loop_path n (resize n None c) p Hp) as (I1 & I2 & _); [lia|rewrite length_resize; lia| |].
  { intros i a Hi Ha (b & Hb & Hab)%points_to_spec j Hj.
    destruct Hc as [->|(q & Hq & -> & Hu)].
    { rewrite resize_nil, lookup_total_replicate_2 in Hb by lia. done. }
    assert (i < length (path q))%nat as Hlq.
    { destruct (decide (i < length (path q))%nat) as [|Hn]; [done|].
      rewrite list_lookup_total_alt, lookup_resize_new in Hb by lia. done. }
    rewrite length_path in Hlq. pose proof (chained_nonneg q Hq) as Hq0.
    assert (forall k, (k <= i)%nat -> resize n None (path q) !!! k = walk (Z.to_nat (bi_height q) - k) q) as Hres.
    { intros k Hk. rewrite list_lookup_total_alt, lookup_resize by (rewrite ?length_path; lia).
      rewrite <- list_lookup_total_alt. apply path_lookup. lia. }
    rewrite Hres in Hb by lia. assert (b = a) as -> by (eapply Hu; eauto).
    rewrite Hres by lia.
    destruct (walk_inv _ p a Hp Ha) as (_ & Hah & _).
    rewrite (walk_below q a _ j Hq Hb), (walk_below p a _ j Hp Ha) by lia. done. }
  apply list_eq_same_length with n; [by rewrite length_path|by rewrite I1, length_resize|].
  intros i x y Hi Hx Hy. apply list_lookup_total_correct in Hx, Hy. subst x y.
  rewrite I2, path_lookup by lia. done.
Qed.

Lemma at_height_path t h : chained t ->
  at_height (path t) h = if (0 <=? h) && (h <=? bi_height t) then walk (Z.to_nat (bi_height t - h)) t else None.
Proof.
  intros Ht. pose proof (chained_nonneg t Ht). unfold at_height. rewrite length_path.
  destruct ((h <? 0) || _) eqn:E.
  - by rewrite (proj2 (andb_false_iff _ _)) by lia.
  - rewrite (proj2 (andb_true_iff _ _)) by lia. rewrite path_lookup by lia. f_equal. lia.
Qed.

Lemma Contains_path t p : chained t -> hash_unique t p ->
  Contains (path t) p = true <-> exists j, walk j t = Some p.
Proof.
  intros Ht Hu. unfold Contains. rewrite at_height_path by done. split.
  - intros (q & Hq & Hh)%points_to_spec. destruct (_ && _) eqn:E; [|done].
    exists (Z.to_nat (bi_height t - bi_height p)). rewrite Hq. f_equal.
    exact (Hu _ 0%nat q p Hq eq_refl Hh).
  - intros [j Hj]. destruct (walk_inv j t p Ht Hj) as (Hc & Hh & Hj').
    pose proof (chained_nonneg p Hc). rewrite (proj2 (andb_true_iff _ _)) by lia.
    replace (Z.to_nat (bi_height t - bi_height p)) with j by lia. rewrite Hj. cbn. unfold same. lia.
Qed.

(** [f] is the last block common to the chains of [p] and [t]. *)
Definition last_common (p t : CBlockIndex) (f : option CBlockIndex) : Prop :=
  match f with
  | Some f => (exists i, walk i p = Some f) /\ (exists j, walk j t = Some f) /\
      forall i j a, walk i p = Some a -> walk j t = Some a -> bi_height a <= bi_height f
  | None => forall i j a, walk i p = Some a -> walk j t = Some a -> False
  end.

Lemma hash_unique_walk t p q i : hash_unique t p -> walk i p = Some q -> hash_unique t q.
Proof.
  intros Hu Hw i' j a b Ha Hb. apply (Hu i' (i + j)%nat a b Ha). by rewrite walk_add, Hw.
Qed.

(** A common block of [p] and [t] not above [q] is one of [q] and [t]. *)
Lemma walk_from p q i k a : chained p -> walk i p = Some q -> walk k p = Some a ->
  bi_height a <= bi_height q -> exists m, walk m q = Some a.
Proof.
  intros Hp Hq Ha Hle. destruct (walk_inv i p q Hp Hq) as (_ & H1 & _), (walk_inv k p a Hp Ha) as (_ & H2 & _).
  exists (k - i)%nat. replace k with (i + (k - i))%nat in Ha by lia. by rewrite walk_add, Hq in Ha.
Qed.

Lemma fork_loop_spec t fuel : forall q, chained t -> chained q -> hash_unique t q ->
  (Z.to_nat (bi_height q) < fuel)%nat -> last_common q t (fork_loop fuel (path t) (Some q)).
Proof.
  induction fuel as [|fuel IH]; intros q Ht Hq Hu Hf; [lia|]. cbn [fork_loop].
  pose proof (Contains_path t q Ht Hu) as HC. destruct (Contains (path t) q) eqn:E.
  - destruct (proj1 HC eq_refl) as [j Hj]. split_and!; [by exists 0%nat|by exists j|].
    intros i k a Ha _. destruct (walk_inv i q a Hq Ha) as (_ & ? & _). lia.
  - assert (forall i j a, walk i q = Some a -> walk j t = Some a -> exists r m, pprev q = Some r /\ walk m r = Some a) as Hup.
    { intros i j a Hi Hj. destruct i as [|i].
      - injection Hi as <-. destruct HC as [_ HC]. discriminate HC; eauto.
      - cbn in Hi. destruct (pprev q) as [r|]; [|done]. by exists r, i. }
    destruct (pprev q) as [r|] eqn:Er; cycle 1.
    { destruct fuel; cbn; intros i j a Hi Hj; destruct (Hup i j a Hi Hj) as (? & ? & ? & ?); done. }
    destruct (chained_prev q Hq) as (r' & Er' & Hr & Hh & _).
    { destruct Hq as [q Hn _ _|q r' Hr' Hp Hh _]; [congruence|]. pose proof (chained_nonneg r' Hr'). lia. }
    assert (r' = r) as -> by congruence. pose proof (chained_nonneg r Hr).
    assert (walk 1 q = Some r) as W1 by (cbn; by rewrite Er).
    pose proof (IH r Ht Hr (hash_unique_walk t q r 1 Hu W1) ltac:(lia)) as I.
    destruct (fork_loop fuel (path t) (Some r)) as [f|]; cbn in I |- *.
    + destruct I as ([i Hi] & Hj & Hmax). split_and!; [exists (S i); cbn; by rewrite Er|done|].
      intros i' j' a Ha Hb. destruct (Hup i' j' a Ha Hb) as (r' & m & E' & Hm). assert (r' = r) as -> by congruence. eauto.
    + intros i' j' a Ha Hb. destruct (Hup i' j' a Ha Hb) as (r' & m & E' & Hm). assert (r' = r) as -> by congruence. eauto.
Qed.

(** *** Work *)

Lemma EqualTo_0 a : ArithUint256.wf a -> ArithUint256.EqualTo a 0 = (ArithUint256.lval a =? 0).
Proof.
  intros Hwf. destruct (ArithUint256.wf_destruct a Hwf)
    as (a0 & a1 & a2 & a3 & a4 & a5 & a6 & a7 & -> & H0 & H1 & H2 & H3 & H4 & H5 & H6 & H7).
  unfold ArithUint256.limb_ok, ArithUint256.EqualTo, ArithUint256.lval in *.
  cbn [drop forallb foldr]. change (Z.shiftr 0 32) with 0. change (Z.land 0 4294967295) with 0.
  change ([a0; a1; a2; a3; a4; a5; a6; a7] !!! 1%nat) with a1.
  change ([a0; a1; a2; a3; a4; a5; a6; a7] !!! 0%nat) with a0. lia.
Qed.

(** No compact value is the greatest 256-bit number. *)
Lemma compact_value_not_max c : 0 <= c < 2 ^ 32 -> ArithUint256.compact_value c <> 2 ^ 256 - 1.
Proof.
  intros Hc. unfold ArithUint256.compact_value.
  pose proof (Z.mod_pos_bound c (2 ^ 23) ltac:(lia)) as Hw.
  assert (0 <= c / 2 ^ 24) as Hs by (apply Z.div_pos; lia).
  destruct (Z.leb_spec (c / 2 ^ 24) 3).
  - assert (0 < 256 ^ (3 - c / 2 ^ 24)) by (apply Z.pow_pos_nonneg; lia).
    assert (c mod 2 ^ 23 / 256 ^ (3 - c / 2 ^ 24) <= c mod 2 ^ 23) by (apply Z.div_le_upper_bound; nia). lia.
  - replace (c / 2 ^ 24 - 3) with (1 + (c / 2 ^ 24 - 4)) by lia. rewrite Z.pow_add_r by lia.
    intros E. assert ((2 ^ 256 - 1) mod 256 = 0) as Hm; [|vm_compute in Hm; done].
    rewrite <- E. replace (c mod 2 ^ 23 * (256 ^ 1 * 256 ^ (c / 2 ^ 24 - 4)))
      with (c mod 2 ^ 23 * 256 ^ (c / 2 ^ 24 - 4) * 256) by lia. apply Z.mod_mul. lia.
Qed.

(** ** Properties *)

(** C23. The skip list finds exactly the ancestor that walking back block by
    block would: for every entry of the index and every height from 0 to its
    own, [GetAncestor] returns that ancestor (so it terminates and its
    assertion never fails), and for any other height nothing. *)
Theorem GetAncestor_exact (p : CBlockIndex) (height : Z) :
  chained p ->
  if (0 <=? height) && (height <=? bi_height p)
  then exists a, GetAncestor p height = Some a /\ walk (Z.to_nat (bi_height p - height)) p = Some a /\
         bi_height a = height
  else GetAncestor p height = None.
Proof.
  intros Hp. pose proof (GetAncestor_walk p height Hp) as E. pose proof (chained_nonneg p Hp).
  destruct (_ && _) eqn:R; [|done].
  destruct (walk_height (Z.to_nat (bi_height p - height)) p Hp) as (a & Ha & _ & Hh); [lia|].
  exists a. rewrite E. split_and!; [done..|lia].
Qed.

(** A chain of nine blocks. *)
Definition extend (p : CBlockIndex) (n : Z) : CBlockIndex :=
  default p (AddToBlockIndex n 0x20000000 (1000 + 60 * n) 0x207fffff (Some p)).
Definition demo_genesis : CBlockIndex := default (MkIndex 0 0 0 0 0 [] 0 None None) (AddToBlockIndex 1 0x20000000 1060 0x207fffff None).
Definition demo_chain : CBlockIndex := foldl extend demo_genesis [2; 3; 4; 5; 6; 7; 8; 9].

Lemma extend_chained p n : chained p -> chained (extend p n).
Proof.
  intros Hp. unfold extend. destruct (AddToBlockIndex _ _ _ _ _) as [q|] eqn:E; [|done].
  exact (AddToBlockIndex_chained _ _ _ _ (Some p) q Hp E).
Qed.
Lemma demo_genesis_chained : chained demo_genesis.
Proof. apply chained_genesis; vm_compute; reflexivity. Qed.
Lemma demo_chained : chained demo_chain.
Proof. unfold demo_chain. cbn [foldl]. repeat apply extend_chained. exact demo_genesis_chained. Qed.

Lemma GetAncestor_exact_witness :
  if (0 <=? 3) && (3 <=? bi_height demo_chain)
  then exists a, GetAncestor demo_chain 3 = Some a /\
         walk (Z.to_nat (bi_height demo_chain - 3)) demo_chain = Some a /\ bi_height a = 3
  else GetAncestor demo_chain 3 = None.
Proof. apply (GetAncestor_exact demo_chain 3 demo_chained). Defined.

(** Setting the tip of an empty chain, or of the chain of any other entry,
    makes the container the path from the genesis block to the new tip: the
    early exit where the old contents already agree is sound. *)
Theorem SetTip_path (c : CChain) (p : CBlockIndex) :
  chained p -> (c = [] \/ exists q, chained q /\ c = path q /\ hash_unique q p) ->
  SetTip c (Some p) = path p.
Proof. apply SetTip_path_gen. Qed.

(** A fork of the demonstration chain after its fourth block. *)
Definition demo_fork : CBlockIndex :=
  foldl extend (foldl extend demo_genesis [2; 3; 4]) [15; 16].

(** Every entry reached from [p], nearest first. *)
Fixpoint entries (n : nat) (p : CBlockIndex) : list CBlockIndex :=
  match n with
  | O => [p]
  | S n' => p :: match pprev p with Some q => entries n' q | None => [] end
  end.
Lemma walk_entries n p i a : chained p -> bi_height p <= Z.of_nat n -> walk i p = Some a -> a ∈ entries n p.
Proof.
  revert p i. induction n as [|n IH]; intros p i Hp Hn Hi.
  - destruct (walk_inv i p a Hp Hi) as (Ha & Hh & Hl). assert (i = 0%nat) as -> by lia.
    injection Hi as <-. left.
  - cbn [entries]. destruct i as [|i]; [injection Hi as <-; left|]. right. cbn in Hi.
    destruct (pprev p) as [q|] eqn:E; [|done].
    destruct Hp as [p Hx _ _|p q' Hq Hp Hh _]; [congruence|]. assert (q' = q) as -> by congruence.
    apply (IH q i Hq); [lia|done].
Qed.

Lemma demo_fork_chained : chained demo_fork.
Proof. unfold demo_fork. cbn [foldl]. repeat apply extend_chained. exact demo_genesis_chained. Qed.

(** Equal hashes in the two demonstration chains are the same entries. *)
Lemma demo_unique : hash_unique demo_chain demo_fork.
Proof.
  intros i j a b Ha Hb Hh.
  apply (walk_entries 9) in Ha; [|exact demo_chained|vm_compute; discriminate].
  apply (walk_entries 9) in Hb; [|exact demo_fork_chained|vm_compute; discriminate].
  revert a b Ha Hb Hh.
  assert (Forall (fun a => Forall (fun b => bi_hash a = bi_hash b -> a = b) (entries 9 demo_fork))
            (entries 9 demo_chain)) as HF.
  { vm_compute. repeat constructor; intros H; (discriminate H || reflexivity). }
  rewrite Forall_forall in HF. intros a b Ha Hb. specialize (HF a Ha). rewrite Forall_forall in HF. auto.
Qed.

Lemma SetTip_path_witness : SetTip (path demo_chain) (Some demo_fork) = path demo_fork.
Proof.
  apply (SetTip_path (path demo_chain) demo_fork); [exact demo_fork_chained|].
  right. exists demo_chain. split_and!; [exact demo_chained|reflexivity|exact demo_unique].
Defined.

(** [FindFork] returns the last block that an entry's chain and the active
    chain have in common, and nothing exactly when they share no block. *)
Theorem FindFork_last_common (t p : CBlockIndex) :
  chained t -> chained p -> hash_unique t p -> last_common p t (FindFork (path t) (Some p)).
Proof.
  intros Ht Hp Hu. unfold FindFork. cbn [mbind option_bind].
  pose proof (chained_nonneg t Ht) as Ht0. pose proof (chained_nonneg p Hp) as Hp0.
  assert (Height (path t) = bi_height t) as EH by (unfold Height; rewrite length_path; lia).
  rewrite EH. destruct (bi_height t <? bi_height p) eqn:E; [|apply fork_loop_spec; (done || lia)].
  rewrite GetAncestor_walk, (proj2 (andb_true_iff _ _)) by (done || lia).
  destruct (walk_height (Z.to_nat (bi_height p - bi_height t)) p Hp) as (q & Hw & Hq & Hh); [lia|].
  rewrite Hw. cbn [mbind option_bind].
  pose proof (fork_loop_spec t (S (Z.to_nat (bi_height q))) q Ht Hq (hash_unique_walk t p q _ Hu Hw) ltac:(lia)) as I.
  assert (forall i j a, walk i p = Some a -> walk j t = Some a -> exists m, walk m q = Some a) as Hdown.
  { intros i j a Ha Hb. destruct (walk_inv j t a Ht Hb) as (_ & ? & _).
    apply (walk_from p q _ i a Hp Hw Ha). lia. }
  destruct (fork_loop _ _ _) as [f|]; cbn in I |- *.
  - destruct I as ([i Hi] & Hj & Hmax).
    split_and!; [eexists; by rewrite walk_add, Hw|done|]. intros i' j' a Ha Hb.
    destruct (Hdown i' j' a Ha Hb) as [m Hm]. eauto.
  - intros i' j' a Ha Hb. destruct (Hdown i' j' a Ha Hb) as [m Hm]. eauto.
Qed.

Lemma FindFork_last_common_witness :
  last_common demo_fork demo_chain (FindFork (path demo_chain) (Some demo_fork)).
Proof. apply (FindFork_last_common demo_chain demo_fork demo_chained demo_fork_chained demo_unique). Defined.

(** The work of a block is [2^256 / (target + 1)] rounded down for a valid
    target, and zero for a negative, overflowing or zero one: the rewriting
    around the unrepresentable 2^256 is exact and never divides by zero. *)
Theorem GetBlockProof_exact (bits : Z) :
  0 <= bits < 2 ^ 32 ->
  let '(_, fNegative, fOverflow) := ArithUint256.SetCompact bits in
  let t := ArithUint256.compact_value bits in
  exists w, GetBlockProof bits = Some w /\ ArithUint256.wf w /\
    ArithUint256.lval w = if fNegative || fOverflow || (t =? 0) then 0 else 2 ^ 256 / (t + 1).
Proof.
  intros Hb. unfold GetBlockProof. pose proof (ArithUint256.SetCompact_val bits Hb) as [Hwf Hv].
  pose proof (ArithUint256.SetCompact_overflow bits Hb) as Ho.
  pose proof (compact_value_not_max bits Hb) as Hmax. pose proof (ArithUint256.wf_bound _ Hwf) as HB.
  destruct (ArithUint256.SetCompact bits) as [[v n] o]. cbn [fst snd] in *. rewrite EqualTo_0 by done.
  cbn zeta. set (t := ArithUint256.compact_value bits) in *.
  destruct n; cbn [orb]; [eexists; split_and!; [done|apply ArithUint256.zero_wf|apply ArithUint256.lval_zero]|].
  destruct o; cbn [orb]; [eexists; split_and!; [done|apply ArithUint256.zero_wf|apply ArithUint256.lval_zero]|].
  assert (0 <= t) by (unfold t, ArithUint256.compact_value; case_match;
    [apply Z.div_pos; [apply Z.mod_pos_bound; lia|apply Z.pow_pos_nonneg; lia]|
     apply Z.mul_nonneg_nonneg; [apply Z.mod_pos_bound; lia|apply Z.pow_nonneg; lia]]).
  rewrite Z.mod_small in Hv by lia. rewrite Hv.
  destruct (t =? 0) eqn:Et; [eexists; split_and!; [done|apply ArithUint256.zero_wf|apply ArithUint256.lval_zero]|].
  pose proof (ArithUint256.of_uint64_wf 1) as W1. pose proof (ArithUint256.add_wf v _ Hwf W1) as Wa.
  pose proof (ArithUint256.lval_add v _ Hwf W1) as Va. rewrite ArithUint256.lval_of_uint64, Hv, Z.mod_small in Va by lia.
  destruct (ArithUint256.not_val v (proj2 Hwf)) as [Fn Vn]. rewrite (proj1 Hwf), Hv in Vn.
  change (2 ^ (32 * Z.of_nat ArithUint256.WIDTH)) with (2 ^ 256) in Vn.
  assert (ArithUint256.wf (ArithUint256.not_ v)) as Wn.
  { split; [|done]. unfold ArithUint256.not_. rewrite length_fmap. exact (proj1 Hwf). }
  destruct (ArithUint256.div_spec _ _ Wn Wa) as (q & Eq & Wq & Vq); [lia|]. rewrite Eq. cbn [mbind option_bind].
  eexists. split_and!; [done|by apply ArithUint256.add_wf|].
  rewrite ArithUint256.lval_add, Vq, Vn, Va, ArithUint256.lval_of_uint64 by (done || lia).
  replace (2 ^ 256) with ((2 ^ 256 - 1 - t) + 1 * (t + 1)) at 3 by lia.
  rewrite Z.div_add by lia. rewrite Z.mod_small; [done|].
  assert (0 <= (2 ^ 256 - 1 - t) / (t + 1) <= 2 ^ 256 - 3); [|lia].
  split; [apply Z.div_pos; lia|]. apply Z.div_le_upper_bound; nia.
Qed.

Lemma GetBlockProof_exact_witness :
  let '(_, fNegative, fOverflow) := ArithUint256.SetCompact 0x1d00ffff in
  let t := ArithUint256.compact_value 0x1d00ffff in
  exists w, GetBlockProof 0x1d00ffff = Some w /\ ArithUint256.wf w /\
    ArithUint256.lval w = if fNegative || fOverflow || (t =? 0) then 0 else 2 ^ 256 / (t + 1).
Proof. apply GetBlockProof_exact. lia. Defined.
