(* ===== verification/VersionBits.v ===== *)
(** versionbits.cpp: the state of a deployment (BIP 9) at a block, computed over
    the periods of the chain with a cache, its statistics and the height since
    which it holds, and the block versions that signal.  The theorems show that
    the cached computation is the plain recursion over the periods, that the
    state machine only moves forward, and that an active deployment was
    signalled by enough blocks in time. *)

From S2P Require Import Prelude ArithUint256 Chain.

Inductive ThresholdState :=
| THRESHOLD_DEFINED | THRESHOLD_STARTED | THRESHOLD_LOCKED_IN | THRESHOLD_ACTIVE | THRESHOLD_FAILED.

#[export] Instance ThresholdState_eq_dec : EqDecision ThresholdState.
Proof. solve_decision. Defined.

Definition state_eqb (a b : ThresholdState) : bool := bool_decide (a = b).

(** The virtual methods of [AbstractThresholdConditionChecker], for given
    consensus parameters. *)
Record ConditionChecker := MkConditionChecker {
  Condition : CBlockIndex -> bool; BeginTime : Z; EndTime : Z; Period : Z; Threshold : Z;
}.

(** A pointer to an index entry as a key: its hash, or null. *)
Definition key_of (p : option CBlockIndex) : option uint256 := bi_hash <$> p.
Abbreviation ThresholdConditionCache := (gmap (option uint256) ThresholdState).

Record BIP9Stats := MkStats {
  st_period : Z; st_threshold : Z; st_elapsed : Z; st_count : Z; st_possible : bool;
}.

Section Checker.
Context (c : ConditionChecker).

(** [pindexPrev->GetAncestor(pindexPrev->nHeight - ((pindexPrev->nHeight + 1) % nPeriod))]:
    the last block of the previous period. *)
Definition period_end (p : CBlockIndex) : option CBlockIndex :=
  GetAncestor p (p.(bi_height) - Z.rem (p.(bi_height) + 1) c.(Period)).

(** The counting loop: [n] blocks back from [pindexCount]; [None] is the null
    pointer that is dereferenced. *)
Fixpoint count_loop (n : nat) (pindexCount : option CBlockIndex) (count : Z) : option Z :=
  match n with
  | O => Some count
  | S n' =>
    p ← pindexCount;
    count_loop n' p.(pprev) (if c.(Condition) p then count + 1 else count)
  end.

(** The switch on the state of the period before. *)
Definition next_state (state : ThresholdState) (p : CBlockIndex) : option ThresholdState :=
  match state with
  | THRESHOLD_DEFINED =>
    Some (if c.(EndTime) <=? GetMedianTimePast p then THRESHOLD_FAILED
          else if c.(BeginTime) <=? GetMedianTimePast p then THRESHOLD_STARTED
          else state)
  | THRESHOLD_STARTED =>
    if c.(EndTime) <=? GetMedianTimePast p then Some THRESHOLD_FAILED
    else
      count ← count_loop (Z.to_nat c.(Period)) (Some p) 0;
      Some (if c.(Threshold) <=? count then THRESHOLD_LOCKED_IN else state)
  | THRESHOLD_LOCKED_IN => Some THRESHOLD_ACTIVE
  | THRESHOLD_FAILED | THRESHOLD_ACTIVE => Some state
  end.

(** The walk back to a block whose state is known: the block, the cache and
    [vToCompute], last pushed first. *)
Fixpoint find_known (fuel : nat) (pindexPrev : option CBlockIndex) (cache : ThresholdConditionCache)
  (vToCompute : list CBlockIndex) : option (option CBlockIndex * ThresholdConditionCache * list CBlockIndex) :=
  match fuel with
  | O => None
  | S fuel' =>
    match cache !! key_of pindexPrev, pindexPrev with
    | Some _, _ => Some (pindexPrev, cache, vToCompute)
    | None, None => Some (pindexPrev, <[key_of pindexPrev := THRESHOLD_DEFINED]> cache, vToCompute)
    | None, Some p =>
      if GetMedianTimePast p <? c.(BeginTime)
      then Some (pindexPrev, <[key_of pindexPrev := THRESHOLD_DEFINED]> cache, vToCompute)
      else find_known fuel' (GetAncestor p (p.(bi_height) - c.(Period))) cache (p :: vToCompute)
    end
  end.

(** The walk forward over [vToCompute]. *)
Fixpoint compute_states (vToCompute : list CBlockIndex) (state : ThresholdState) (cache : ThresholdConditionCache)
  : option (ThresholdState * ThresholdConditionCache) :=
  match vToCompute with
  | [] => Some (state, cache)
  | p :: l =>
    stateNext ← next_state state p;
    compute_states l stateNext (<[Some p.(bi_hash) := stateNext]> cache)
  end.

(** The height of the block bounds the number of periods. *)
Definition GetStateFor (pindexPrev : option CBlockIndex) (cache : ThresholdConditionCache)
  : option (ThresholdState * ThresholdConditionCache) :=
  let pindexPrev := p ← pindexPrev; period_end p in
  let fuel := match pindexPrev with Some p => Z.to_nat (p.(bi_height) + 2) | None => 1%nat end in
  '(pindexPrev, cache, vToCompute) ← find_known fuel pindexPrev cache [];
  state ← cache !! key_of pindexPrev;
  compute_states vToCompute state cache.

Fixpoint stats_loop (fuel : nat) (currentIndex : option CBlockIndex) (nHeight count : Z) : option Z :=
  p ← currentIndex;
  if p.(bi_height) =? nHeight then Some count
  else
    match fuel with
    | O => None
    | S fuel' => stats_loop fuel' p.(pprev) nHeight (if c.(Condition) p then count + 1 else count)
    end.

(** [None] is the null pointer that is dereferenced in the first period. *)
Definition GetStateStatisticsFor (pindex : option CBlockIndex) : option BIP9Stats :=
  match pindex with
  | None => Some (MkStats c.(Period) c.(Threshold) 0 0 false)
  | Some p =>
    e ← period_end p;
    let elapsed := p.(bi_height) - e.(bi_height) in
    count ← stats_loop (Z.to_nat p.(bi_height)) pindex e.(bi_height) 0;
    Some (MkStats c.(Period) c.(Threshold) elapsed count (elapsed - count <=? c.(Period) - c.(Threshold)))
  end.

(** The loop of [GetStateSinceHeightFor] over the periods before. *)
Fixpoint since_loop (fuel : nat) (initialState : ThresholdState) (pindexPrev : CBlockIndex)
  (cache : ThresholdConditionCache) : option (Z * ThresholdConditionCache) :=
  match fuel with
  | O => None
  | S fuel' =>
    match GetAncestor pindexPrev (pindexPrev.(bi_height) - c.(Period)) with
    | None => Some (pindexPrev.(bi_height) + 1, cache)
    | Some previousPeriodParent =>
      '(state, cache) ← GetStateFor (Some previousPeriodParent) cache;
      if state_eqb state initialState then since_loop fuel' initialState previousPeriodParent cache
      else Some (pindexPrev.(bi_height) + 1, cache)
    end
  end.

Definition GetStateSinceHeightFor (pindexPrev : option CBlockIndex) (cache : ThresholdConditionCache)
  : option (Z * ThresholdConditionCache) :=
  '(initialState, cache) ← GetStateFor pindexPrev cache;
  if state_eqb initialState THRESHOLD_DEFINED then Some (0, cache)
  else
    p ← pindexPrev;
    p ← period_end p;
    since_loop (Z.to_nat (p.(bi_height) + 1)) initialState p cache.

End Checker.

(** ** Deployments *)

Record BIP9Deployment := MkDeployment {
  bit : Z; nStartTime : Z; nTimeout : Z;
  nOverrideMinerConfirmationWindow : Z; nOverrideRuleChangeActivationThreshold : Z;
}.

Abbreviation VERSIONBITS_TOP_BITS := 0x20000000%Z (only parsing).
Abbreviation VERSIONBITS_TOP_BITS_ASSETS := 0x30000000%Z (only parsing).
Abbreviation VERSIONBITS_TOP_MASK := (-536870912)%Z (only parsing).

Section Deployments.
(** [Consensus::Params]: the deployments in the order of [DeploymentPos]. *)
Context (vDeployments : list BIP9Deployment) (nMinerConfirmationWindow nRuleChangeActivationThreshold : Z).

Definition Mask (d : BIP9Deployment) : Z := wrapu 32 (Z.shiftl 1 d.(bit)).

(** [pindex->nVersion & Mask(params)]: the signed version converts to unsigned. *)
Definition VersionBitsConditionChecker (d : BIP9Deployment) : ConditionChecker := {|
  Condition := fun pindex => negb (Z.land (wrapu 32 pindex.(bi_version)) (Mask d) =? 0);
  BeginTime := d.(nStartTime);
  EndTime := d.(nTimeout);
  Period := if 0 <? d.(nOverrideMinerConfirmationWindow) then d.(nOverrideMinerConfirmationWindow)
            else nMinerConfirmationWindow;
  Threshold := if 0 <? d.(nOverrideRuleChangeActivationThreshold) then d.(nOverrideRuleChangeActivationThreshold)
               else nRuleChangeActivationThreshold;
|}.

(** [VersionBitsCache]: one cache per deployment. *)
Abbreviation VersionBitsCache := (list ThresholdConditionCache).

Definition VersionBitsState (pindexPrev : option CBlockIndex) (pos : nat) (caches : VersionBitsCache)
  : option (ThresholdState * VersionBitsCache) :=
  d ← vDeployments !! pos;
  cache ← caches !! pos;
  '(state, cache) ← GetStateFor (VersionBitsConditionChecker d) pindexPrev cache;
  Some (state, <[pos := cache]> caches).

Definition VersionBitsStatistics (pindexPrev : option CBlockIndex) (pos : nat) : option BIP9Stats :=
  d ← vDeployments !! pos;
  GetStateStatisticsFor (VersionBitsConditionChecker d) pindexPrev.

Definition VersionBitsStateSinceHeight (pindexPrev : option CBlockIndex) (pos : nat) (caches : VersionBitsCache)
  : option (Z * VersionBitsCache) :=
  d ← vDeployments !! pos;
  cache ← caches !! pos;
  '(height, cache) ← GetStateSinceHeightFor (VersionBitsConditionChecker d) pindexPrev cache;
  Some (height, <[pos := cache]> caches).

Definition VersionBitsCache_Clear (caches : VersionBitsCache) : VersionBitsCache := (fun _ => ∅) <$> caches.

(** The loop of [ComputeBlockVersion] over the deployments. *)
Fixpoint version_loop (n : nat) (i : nat) (pindexPrev : option CBlockIndex) (caches : VersionBitsCache) (nVersion : Z)
  : option (Z * VersionBitsCache) :=
  match n with
  | O => Some (nVersion, caches)
  | S n' =>
    d ← vDeployments !! i;
    '(state, caches) ← VersionBitsState pindexPrev i caches;
    let nVersion :=
      if state_eqb state THRESHOLD_LOCKED_IN || state_eqb state THRESHOLD_STARTED
      then wraps 32 (Z.lor (wrapu 32 nVersion) (Mask d)) else nVersion in
    version_loop n' (S i) pindexPrev caches nVersion
  end.

(** [assetsDeployed] is the value of [AreAssetsDeployed()]. *)
Definition ComputeBlockVersion (assetsDeployed : bool) (pindexPrev : option CBlockIndex) (caches : VersionBitsCache)
  : option (Z * VersionBitsCache) :=
  let nVersion := if assetsDeployed then VERSIONBITS_TOP_BITS_ASSETS else VERSIONBITS_TOP_BITS in
  version_loop (length vDeployments) 0 pindexPrev caches nVersion.

End Deployments.

(** ** The median time does not go back *)

Definition median (l : list Z) : Z := merge_sort Z.le l !!! (length (merge_sort Z.le l) / 2)%nat.
Definition below (x : Z) (l : list Z) : nat := length (filter (fun y => y < x) l).

Lemma below_app x l l' : below x (l ++ l') = (below x l + below x l')%nat.
Proof. unfold below. by rewrite filter_app, length_app. Qed.

Lemma below_all x l : Forall (fun y => y < x) l -> below x l = length l.
Proof. induction 1 as [|y l Hy _ IH]; [done|]. unfold below in *. rewrite filter_cons_True by done. cbn. lia. Qed.

Lemma below_none x l : Forall (fun y => x <= y) l -> below x l = 0%nat.
Proof. induction 1 as [|y l Hy _ IH]; [done|]. unfold below in *. rewrite filter_cons_False by lia. done. Qed.

Lemma below_sort x l : below x (merge_sort Z.le l) = below x l.
Proof. unfold below. by rewrite merge_sort_Permutation. Qed.

(** In a sorted list the elements below the one at [k] are before it. *)
Lemma sorted_split (l : list Z) k : StronglySorted Z.le l -> (k < length l)%nat ->
  exists a b, l = a ++ l !!! k :: b /\ length a = k /\ Forall (fun y => y <= l !!! k) a /\ Forall (fun y => l !!! k <= y) b.
Proof.
  intros Hs. revert k. induction Hs as [|x l Hs IH Hx]; intros k Hk; [cbn in Hk; lia|].
  destruct k as [|k].
  - exists [], l. split_and!; [done|done|constructor|done].
  - destruct (IH k ltac:(cbn in Hk; lia)) as (a & b & E & Ha & H1 & H2).
    exists (x :: a), b. change ((x :: l) !!! S k) with (l !!! k). split_and!; [by rewrite E at 1|cbn; lia| |done].
    constructor; [|done]. rewrite E in Hx. apply Forall_app in Hx as [_ Hx]. by apply Forall_cons in Hx as [? _].
Qed.

Lemma sorted_sort l : StronglySorted Z.le (merge_sort Z.le l).
Proof. apply StronglySorted_merge_sort; [intros ???; lia|intros ??; lia]. Qed.

Lemma median_below l : l <> [] -> (below (median l) l <= length l / 2)%nat.
Proof.
  intros Hne. rewrite <- (below_sort (median l) l). assert (length (merge_sort Z.le l) = length l) as El by (by rewrite merge_sort_Permutation).
  destruct (sorted_split (merge_sort Z.le l) (length l / 2) (sorted_sort l)) as (a & b & E & Ha & _ & Hb).
  { rewrite El. apply Nat.div_lt; [destruct l; [done|cbn; lia]|lia]. }
  unfold median. rewrite El. rewrite E at 2. rewrite below_app, (below_none _ (_ :: b)) by (constructor; [lia|done]).
  unfold below. pose proof (length_filter (fun y => y < merge_sort Z.le l !!! (length l / 2)%nat) a). lia.
Qed.

Lemma median_ge x l : l <> [] -> (below x l <= length l / 2)%nat -> x <= median l.
Proof.
  intros Hne H. rewrite <- below_sort in H. assert (length (merge_sort Z.le l) = length l) as El by (by rewrite merge_sort_Permutation).
  destruct (sorted_split (merge_sort Z.le l) (length l / 2) (sorted_sort l)) as (a & b & E & Ha & H1 & _).
  { rewrite El. apply Nat.div_lt; [destruct l; [done|cbn; lia]|lia]. }
  unfold median. rewrite El. set (m := merge_sort Z.le l !!! _) in *. clearbody m. destruct (Z.le_gt_cases x m) as [|Hgt]; [done|].
  rewrite E, below_app, (below_all x a) in H by (eapply Forall_impl; [exact H1|cbn; intros; lia]).
  unfold below in H. rewrite filter_cons_True in H by lia. cbn [length] in H. lia.
Qed.

Lemma last_times_snoc n : forall p, exists e, last_times (S n) p = last_times n p ++ e /\ (length e <= 1)%nat /\
  (e = [] \/ length (last_times n p) = n).
Proof.
  induction n as [|n IH]; intros p.
  - destruct p as [q|]; [exists [GetBlockTime q]|exists []]; cbn; split_and!; auto.
  - destruct p as [q|]; [|exists []; cbn; split_and!; auto].
    destruct (IH (pprev q)) as (e & E & He & Hc). exists e. cbn [last_times]. cbn [last_times] in E. rewrite E.
    split_and!; [done|done|]. destruct Hc as [->|Hc]; [by left|right; cbn; lia].
Qed.

(** A block whose time is past the median time of its parent keeps the order. *)
Lemma GetMedianTimePast_step p q : pprev p = Some q -> GetMedianTimePast q < nTime p ->
  GetMedianTimePast q <= GetMedianTimePast p.
Proof.
  intros Hp Ht. change (GetMedianTimePast p) with (median (last_times 11 (Some p))).
  change (GetMedianTimePast q) with (median (last_times 11 (Some q))) in *.
  destruct (last_times_snoc 10 (Some q)) as (e & E & He & Hc).
  assert (last_times 11 (Some p) = nTime p :: last_times 10 (Some q)) as -> by (cbn [last_times]; by rewrite Hp).
  pose proof (median_below (last_times 11 (Some q)) ltac:(done)) as Hm. set (m := median (last_times 11 (Some q))) in *.
  apply median_ge; [done|]. unfold below at 1. rewrite filter_cons_False by lia. fold (below m (last_times 10 (Some q))).
  rewrite E, below_app, length_app in Hm. cbn [length].
  destruct Hc as [->|Hc]; cbn [length] in *; [lia|]. rewrite Hc in *. destruct e as [|? [|? ?]]; cbn in *; lia.
Qed.

(** ** The plain recursion over the periods *)

(** Entries of one block index: built from genesis, identified by their hash,
    each later than the median time of its parent (the rule [time-too-old]). *)
Record index (U : CBlockIndex -> Prop) : Prop := {
  ix_chained : forall p, U p -> chained p;
  ix_prev : forall p q, U p -> pprev p = Some q -> U q;
  ix_unique : forall p q, U p -> U q -> bi_hash p = bi_hash q -> p = q;
  ix_time : forall p q, U p -> pprev p = Some q -> GetMedianTimePast q < nTime p;
}.

Section Periods.
Context (c : ConditionChecker) (Hper : 0 < Period c) (Htimes : BeginTime c <= EndTime c).
Context (U : CBlockIndex -> Prop) (HU : index U).

(** The last block of a period. *)
Definition ends_period (p : CBlockIndex) : Prop := (bi_height p + 1) mod Period c = 0.

(** The state after the block [p] that ends a period, from the state a period
    before; [n] bounds the number of periods. *)
Fixpoint periods (n : nat) (p : option CBlockIndex) : option ThresholdState :=
  match n, p with
  | S n', Some q => s ← periods n' (walk (Z.to_nat (Period c)) q); next_state c s q
  | _, _ => Some THRESHOLD_DEFINED
  end.
Definition state_after (p : option CBlockIndex) : option ThresholdState :=
  match p with Some q => periods (Z.to_nat (bi_height q + 1)) p | None => Some THRESHOLD_DEFINED end.

Lemma index_walk n : forall p a, U p -> walk n p = Some a -> U a.
Proof.
  induction n as [|n IH]; intros p a Hp; cbn [walk]; [by intros [= <-]|].
  destruct (pprev p) as [q|] eqn:E; [|done]. apply IH. by eapply (ix_prev U HU).
Qed.

Lemma median_walk n : forall p a, U p -> walk n p = Some a -> GetMedianTimePast a <= GetMedianTimePast p.
Proof.
  induction n as [|n IH]; intros p a Hp; cbn [walk]; [intros [= <-]; lia|].
  destruct (pprev p) as [q|] eqn:E; [|done]. intros Hw.
  pose proof (IH q a (ix_prev U HU p q Hp E) Hw). pose proof (GetMedianTimePast_step p q E (ix_time U HU p q Hp E)). lia.
Qed.

(** The block a period before. *)
Lemma ancestor_period p : chained p -> GetAncestor p (bi_height p - Period c) = walk (Z.to_nat (Period c)) p.
Proof.
  intros Hp. rewrite GetAncestor_walk by done. pose proof (chained_nonneg p Hp).
  destruct (Z.le_gt_cases (Period c) (bi_height p)).
  - replace (_ && _) with true by lia. f_equal. lia.
  - replace (_ && _) with false by lia. symmetry. destruct (walk _ p) as [a|] eqn:E; [|done].
    apply walk_inv in E; [|done]. lia.
Qed.

Lemma ends_period_walk p a : chained p -> ends_period p -> walk (Z.to_nat (Period c)) p = Some a ->
  ends_period a /\ bi_height a = bi_height p - Period c.
Proof.
  intros Hp He Hw. apply walk_inv in Hw as (_ & Hh & _); [|done]. rewrite Z2Nat.id in Hh by lia. split; [|done].
  unfold ends_period in *. rewrite Hh. replace (bi_height p - Period c + 1) with (bi_height p + 1 + (-1) * Period c) by ring.
  by rewrite Z.mod_add by lia.
Qed.

(** More periods than there are change nothing. *)
Lemma periods_enough n : forall p, chained p -> (Z.to_nat (bi_height p + 1) <= n)%nat ->
  periods n (Some p) = periods (Z.to_nat (bi_height p + 1)) (Some p).
Proof.
  induction n as [n IH] using lt_wf_ind. intros p Hp Hn. pose proof (chained_nonneg p Hp).
  destruct n as [|n]; [lia|]. replace (Z.to_nat (bi_height p + 1)) with (S (Z.to_nat (bi_height p))) in * by lia.
  cbn [periods]. destruct (walk _ p) as [a|] eqn:E; [|by destruct n, (Z.to_nat (bi_height p))].
  apply walk_inv in E as (Ha & Hh & _); [|done]. pose proof (chained_nonneg a Ha).
  rewrite (IH n) by (lia || done). rewrite (IH (Z.to_nat (bi_height p))) by (lia || done). done.
Qed.

(** The recursion, one period at a time. *)
Lemma state_after_step p : chained p ->
  state_after (Some p) = s ← state_after (walk (Z.to_nat (Period c)) p); next_state c s p.
Proof.
  intros Hp. pose proof (chained_nonneg p Hp). cbn [state_after].
  replace (Z.to_nat (bi_height p + 1)) with (S (Z.to_nat (bi_height p))) by lia. cbn [periods].
  destruct (walk _ p) as [a|] eqn:E; [|by destruct (Z.to_nat (bi_height p))].
  apply walk_inv in E as (Ha & Hh & _); [|done]. cbn [state_after].
  by rewrite periods_enough by (done || lia).
Qed.

(** Before the start time every block is defined. *)
Lemma state_before p : U p -> GetMedianTimePast p < BeginTime c -> state_after (Some p) = Some THRESHOLD_DEFINED.
Proof.
  remember (Z.to_nat (bi_height p)) as n eqn:Hn. revert p Hn. induction n as [n IH] using lt_wf_ind. intros p -> Hp Ht.
  pose proof (ix_chained U HU p Hp) as Hc. rewrite state_after_step by done.
  assert (state_after (walk (Z.to_nat (Period c)) p) = Some THRESHOLD_DEFINED) as ->.
  { destruct (walk _ p) as [a|] eqn:E; [|done]. pose proof (median_walk _ p a Hp E). pose proof (walk_inv _ p a Hc E) as (Ha & Hh & _).
    pose proof (chained_nonneg a Ha). apply (IH (Z.to_nat (bi_height a))); [lia|done|by eapply index_walk|lia]. }
  cbn [mbind option_bind next_state]. replace (EndTime c <=? _) with false by lia. by replace (BeginTime c <=? _) with false by lia.
Qed.

(** *** The cached computation *)

Definition cache_ok (cache : ThresholdConditionCache) : Prop :=
  forall key s, cache !! key = Some s ->
    match key with
    | None => s = THRESHOLD_DEFINED
    | Some h => forall p, U p -> bi_hash p = h -> state_after (Some p) = Some s
    end.

Definition known (p : option CBlockIndex) : Prop := match p with Some q => U q | None => True end.

Lemma cache_ok_lookup cache p s : cache_ok cache -> known p -> cache !! key_of p = Some s -> state_after p = Some s.
Proof. intros Hc Hp Hl. apply Hc in Hl. destruct p as [q|]; cbn in *; [by apply Hl|by subst]. Qed.

Lemma known_cache_insert cache p s : cache_ok cache -> known p -> state_after p = Some s -> cache_ok (<[key_of p := s]> cache).
Proof.
  intros Hc Hp Hs key s' [[<- <-]|[_ Hl]]%lookup_insert_Some; [|by apply Hc].
  destruct p as [q|]; cbn in *; [|congruence]. intros q' Hq' E. by rewrite (ix_unique U HU q' q Hq' Hp E).
Qed.

Lemma count_loop_total n : forall p count, chained p -> Z.of_nat n <= bi_height p + 1 ->
  exists k, count_loop c n (Some p) count = Some k.
Proof.
  induction n as [|n IH]; intros p count Hp Hn; [by exists count|]. cbn [count_loop mbind option_bind].
  destruct (pprev p) as [q|] eqn:E.
  - destruct Hp as [p Hp' _ _|p q' Hq Hp' Hh _]; [congruence|]. assert (q' = q) as -> by congruence. apply IH; [done|lia].
  - destruct n as [|n]; [by eexists|]. destruct Hp as [p _ _ Hh|p q' Hq Hp' Hh _]; [lia|congruence].
Qed.

Lemma ends_period_height p : chained p -> ends_period p -> Period c <= bi_height p + 1.
Proof.
  intros Hp He. pose proof (chained_nonneg p Hp). unfold ends_period in He.
  destruct (Z.le_gt_cases (Period c) (bi_height p + 1)); [done|]. rewrite Z.mod_small in He by lia. lia.
Qed.

Lemma next_state_total s p : chained p -> ends_period p -> exists s', next_state c s p = Some s'.
Proof.
  intros Hp He. pose proof (ends_period_height p Hp He). unfold next_state.
  destruct s; try by eexists. destruct (_ <=? _); [by eexists|].
  destruct (count_loop_total (Z.to_nat (Period c)) p 0 Hp ltac:(lia)) as [k ->]. by eexists.
Qed.

(** Blocks that end the periods between [p'] and [p]. *)
Fixpoint ladder (p' : option CBlockIndex) (l : list CBlockIndex) (p : option CBlockIndex) : Prop :=
  match l with
  | [] => p' = p
  | q :: l' => U q /\ ends_period q /\ walk (Z.to_nat (Period c)) q = p' /\ ladder (Some q) l' p
  end.

Lemma ladder_snoc l : forall p' q, U q -> ends_period q -> ladder p' l (walk (Z.to_nat (Period c)) q) ->
  ladder p' (l ++ [q]) (Some q).
Proof.
  induction l as [|x l IH]; intros p' q Hq He; cbn [ladder app]; [by intros ->|].
  intros (Hx & Hex & Hw & Hl). split_and!; auto.
Qed.

Definition boundary (p : option CBlockIndex) : Prop := match p with Some q => ends_period q | None => True end.

Lemma find_known_spec fuel : forall p cache l, known p -> boundary p -> cache_ok cache ->
  (match p with Some q => Z.to_nat (bi_height q + 2) | None => 1 end <= fuel)%nat ->
  exists p' cache' l' s, find_known c fuel p cache l = Some (p', cache', l' ++ l) /\ known p' /\ cache_ok cache' /\
    cache' !! key_of p' = Some s /\ ladder p' l' p.
Proof.
  induction fuel as [|fuel IH]; intros p cache l Hp Hb Hc Hf.
  { destruct p as [q|]; [pose proof (chained_nonneg q (ix_chained U HU q Hp))|]; lia. }
  cbn [find_known]. destruct (cache !! key_of p) as [s|] eqn:E; [by exists p, cache, [], s|].
  assert (forall s, state_after p = Some s -> exists p' cache' l' s0,
    Some (p, <[key_of p := s]> cache, l) = Some (p', cache', l' ++ l) /\ known p' /\ cache_ok cache' /\
    cache' !! key_of p' = Some s0 /\ ladder p' l' p) as Hstop.
  { intros s Hs. exists p, (<[key_of p := s]> cache), [], s.
    split_and!; [done|done|by apply known_cache_insert|by rewrite lookup_insert_eq|done]. }
  destruct p as [q|]; [|by apply (Hstop THRESHOLD_DEFINED)]. cbn in Hp, Hb.
  destruct (Z.ltb_spec (GetMedianTimePast q) (BeginTime c)) as [Ht|Ht].
  { apply (Hstop THRESHOLD_DEFINED). by apply state_before. }
  pose proof (ix_chained U HU q Hp) as Hq. rewrite ancestor_period by done.
  destruct (IH (walk (Z.to_nat (Period c)) q) cache (q :: l)) as (p' & cache' & l' & s & -> & H1 & H2 & H3 & H4).
  - destruct (walk _ q) as [a|] eqn:Ew; [by eapply index_walk|done].
  - destruct (walk _ q) as [a|] eqn:Ew; [by eapply ends_period_walk|done].
  - done.
  - destruct (walk _ q) as [a|] eqn:Ew; [|pose proof (chained_nonneg q Hq); lia].
    apply walk_inv in Ew as (Ha & Hh & _); [|done]. pose proof (chained_nonneg a Ha). lia.
  - exists p', cache', (l' ++ [q]), s. rewrite <- app_assoc. split_and!; auto using ladder_snoc.
Qed.

Lemma compute_states_spec l : forall p' p s cache, ladder p' l p -> state_after p' = Some s -> cache_ok cache ->
  exists s' cache', compute_states c l s cache = Some (s', cache') /\ state_after p = Some s' /\ cache_ok cache'.
Proof.
  induction l as [|q l IH]; intros p' p s cache; cbn [ladder compute_states]; [intros -> ? ?; eauto|].
  intros (Hq & He & Hw & Hl) Hs Hc. pose proof (ix_chained U HU q Hq) as Hcq.
  destruct (next_state_total s q Hcq He) as [s' Hs']. rewrite Hs'. cbn [mbind option_bind].
  assert (state_after (Some q) = Some s') as Hsq by (by rewrite state_after_step, Hw, Hs).
  apply (IH (Some q) p); [done|done|]. by apply (known_cache_insert cache (Some q)).
Qed.

(** The state of the period of the block after [p], without cache. *)
Definition last_end (q : CBlockIndex) : option CBlockIndex := walk (Z.to_nat ((bi_height q + 1) mod Period c)) q.
Definition state_of (p : option CBlockIndex) : option ThresholdState := state_after (q ← p; last_end q).

Lemma period_end_walk q : chained q -> period_end c q = last_end q /\ boundary (last_end q).
Proof.
  intros Hq. pose proof (chained_nonneg q Hq). unfold period_end, last_end.
  pose proof (Z.mod_pos_bound (bi_height q + 1) (Period c) ltac:(lia)) as Hm.
  pose proof (Z.mod_le (bi_height q + 1) (Period c) ltac:(lia) ltac:(lia)).
  rewrite Z.rem_mod_nonneg, GetAncestor_walk by (done || lia). set (r := (bi_height q + 1) mod Period c) in *. split.
  - destruct (Z.le_gt_cases r (bi_height q)).
    + replace (_ && _) with true by lia. f_equal. lia.
    + replace (_ && _) with false by lia. symmetry. destruct (walk _ q) as [a|] eqn:E; [|done]. apply walk_inv in E; [lia|done].
  - destruct (walk _ q) as [a|] eqn:E; [|done]. apply walk_inv in E as (_ & Hh & _); [|done]. cbn. unfold ends_period.
    rewrite Hh, Z2Nat.id by lia. pose proof (Z.div_mod (bi_height q + 1) (Period c) ltac:(lia)) as Hd. fold r in Hd.
    replace (bi_height q - r + 1) with ((bi_height q + 1) / Period c * Period c) by lia. apply Z.mod_mul. lia.
Qed.

Lemma GetStateFor_spec p cache : known p -> cache_ok cache ->
  exists s cache', GetStateFor c p cache = Some (s, cache') /\ state_of p = Some s /\ cache_ok cache'.
Proof.
  intros Hp Hc. unfold GetStateFor, state_of.
  assert ((q ← p; period_end c q) = (q ← p; last_end q) /\ known (q ← p; last_end q) /\ boundary (q ← p; last_end q)) as (-> & Hk & Hb).
  { destruct p as [q|]; [|done]. cbn [mbind option_bind]. pose proof (ix_chained U HU q Hp) as Hq.
    destruct (period_end_walk q Hq) as [-> Hb]. split_and!; [done| |done]. unfold last_end in *.
    destruct (walk _ q) eqn:E; [by eapply index_walk|done]. }
  destruct (find_known_spec _ (q ← p; last_end q) cache [] Hk Hb Hc (le_n _)) as (p' & cache' & l' & s & E & H1 & H2 & H3 & H4).
  rewrite E. cbn [mbind option_bind]. rewrite H3, app_nil_r. cbn [mbind option_bind].
  eapply compute_states_spec; [exact H4|by eapply cache_ok_lookup|done].
Qed.

(** *** The periods of a chain *)

(** The block that ends the [j]-th period of the chain of [q]. *)
Definition end_of (q : CBlockIndex) (j : nat) : option CBlockIndex :=
  walk (Z.to_nat (bi_height q + 1 - Z.of_nat j * Period c)) q.
Definition periods_of (q : CBlockIndex) : nat := Z.to_nat ((bi_height q + 1) / Period c).

Lemma periods_of_bound q j : chained q -> (j <= periods_of q)%nat -> 0 <= Z.of_nat j * Period c <= bi_height q + 1.
Proof.
  intros Hq Hj. pose proof (chained_nonneg q Hq). unfold periods_of in Hj.
  pose proof (Z.div_pos (bi_height q + 1) (Period c) ltac:(lia) Hper).
  pose proof (Z.mul_div_le (bi_height q + 1) (Period c) Hper). nia.
Qed.

Lemma end_of_zero q : chained q -> end_of q 0 = None.
Proof.
  intros Hq. unfold end_of. pose proof (chained_nonneg q Hq). destruct (walk _ q) as [a|] eqn:E; [|done].
  apply walk_inv in E; [lia|done].
Qed.

Lemma end_of_succ q j : U q -> (S j <= periods_of q)%nat ->
  exists b, end_of q (S j) = Some b /\ U b /\ ends_period b /\ walk (Z.to_nat (Period c)) b = end_of q j.
Proof.
  intros Hu Hj. pose proof (ix_chained U HU q Hu) as Hq. pose proof (periods_of_bound q (S j) Hq Hj) as Hb.
  destruct (walk_height (Z.to_nat (bi_height q + 1 - Z.of_nat (S j) * Period c)) q Hq) as (b & E & Hcb & Hh); [nia|].
  exists b. unfold end_of. split_and!; [done|by eapply index_walk| |].
  - unfold ends_period. rewrite Hh, Z2Nat.id by lia.
    replace (_ - _ + 1) with (Z.of_nat (S j) * Period c) by ring. apply Z.mod_mul. lia.
  - replace (Z.to_nat (bi_height q + 1 - Z.of_nat j * Period c))
      with (Z.to_nat (bi_height q + 1 - Z.of_nat (S j) * Period c) + Z.to_nat (Period c))%nat by lia.
    by rewrite walk_add, E.
Qed.

Lemma last_end_of q : chained q -> last_end q = end_of q (periods_of q).
Proof.
  intros Hq. pose proof (chained_nonneg q Hq). unfold last_end, end_of, periods_of.
  rewrite Z2Nat.id by (apply Z.div_pos; lia). do 2 f_equal. rewrite Z.mod_eq by lia. ring.
Qed.

Lemma end_of_ancestor q p m j : chained q -> walk m q = Some p -> (j <= periods_of p)%nat ->
  end_of p j = end_of q j /\ (periods_of p <= periods_of q)%nat.
Proof.
  intros Hq Hw Hj. destruct (walk_inv m q p Hq Hw) as (Hp & Hh & Hm). pose proof (periods_of_bound p j Hp Hj). split.
  - unfold end_of. replace (Z.to_nat (bi_height q + 1 - _)) with (m + Z.to_nat (bi_height p + 1 - Z.of_nat j * Period c))%nat by lia.
    by rewrite walk_add, Hw.
  - unfold periods_of. pose proof (chained_nonneg p Hp).
    pose proof (Z.div_le_mono (bi_height p + 1) (bi_height q + 1) (Period c) Hper ltac:(lia)). lia.
Qed.

(** The moves of the state machine. *)
Inductive bip9_step : ThresholdState -> ThresholdState -> Prop :=
| step_start : bip9_step THRESHOLD_DEFINED THRESHOLD_STARTED
| step_lock : bip9_step THRESHOLD_STARTED THRESHOLD_LOCKED_IN
| step_activate : bip9_step THRESHOLD_LOCKED_IN THRESHOLD_ACTIVE
| step_expire : bip9_step THRESHOLD_DEFINED THRESHOLD_FAILED
| step_timeout : bip9_step THRESHOLD_STARTED THRESHOLD_FAILED.

(** The blocks of the period that [b] ends signalled in time. *)
Definition signalled (b : CBlockIndex) : Prop :=
  ends_period b /\ BeginTime c <= GetMedianTimePast b < EndTime c /\
  exists count, count_loop c (Z.to_nat (Period c)) (Some b) 0 = Some count /\ Threshold c <= count.

Lemma next_state_cases s b s' : next_state c s b = Some s' ->
  (s' = s \/ bip9_step s s') /\
  (s' = THRESHOLD_STARTED -> BeginTime c <= GetMedianTimePast b \/ s = THRESHOLD_STARTED) /\
  (s' = THRESHOLD_LOCKED_IN -> s = THRESHOLD_STARTED /\ GetMedianTimePast b < EndTime c /\
     exists count, count_loop c (Z.to_nat (Period c)) (Some b) 0 = Some count /\ Threshold c <= count) /\
  (s' = THRESHOLD_ACTIVE -> s = THRESHOLD_LOCKED_IN \/ s = THRESHOLD_ACTIVE).
Proof.
  unfold next_state. destruct s.
  - destruct (Z.leb_spec (EndTime c) (GetMedianTimePast b)); [intros [= <-]; split_and!; try done; right; constructor|].
    destruct (Z.leb_spec (BeginTime c) (GetMedianTimePast b)); intros [= <-]; split_and!; try done; auto. right. constructor.
  - destruct (Z.leb_spec (EndTime c) (GetMedianTimePast b)); [intros [= <-]; split_and!; try done; right; constructor|].
    destruct (count_loop _ _ _ _) as [k|]; [|done]. cbn [mbind option_bind].
    destruct (Z.leb_spec (Threshold c) k); intros [= <-]; split_and!; try done; auto; [right; constructor|].
    intros _. split_and!; eauto.
  - intros [= <-]. split_and!; try done; auto. right. constructor.
  - intros [= <-]. split_and!; try done; auto.
  - intros [= <-]. split_and!; try done; auto.
Qed.

(** What the states of the periods of a chain mean. *)
Definition meaning (q : CBlockIndex) (j : nat) (s : ThresholdState) : Prop :=
  (s = THRESHOLD_STARTED -> exists b, end_of q j = Some b /\ BeginTime c <= GetMedianTimePast b) /\
  (s = THRESHOLD_LOCKED_IN \/ s = THRESHOLD_ACTIVE -> exists i b, (i <= j)%nat /\ end_of q i = Some b /\ signalled b).

Lemma state_end_of q j : U q -> (j <= periods_of q)%nat ->
  exists s, state_after (end_of q j) = Some s /\ meaning q j s /\
    forall i, (i <= j)%nat -> exists s0, state_after (end_of q i) = Some s0 /\ rtc bip9_step s0 s.
Proof.
  intros Hu. pose proof (ix_chained U HU q Hu) as Hq. induction j as [|j IH]; intros Hj.
  { exists THRESHOLD_DEFINED. rewrite end_of_zero by done. split_and!; [done|by split; [|intros [?|?]]|].
    intros i Hi. replace i with 0%nat by lia. rewrite end_of_zero by done. by exists THRESHOLD_DEFINED. }
  destruct (IH ltac:(lia)) as (s & Hs & [Hm1 Hm2] & Hall). destruct (end_of_succ q j Hu Hj) as (b & Eb & Hub & Heb & Hwb).
  pose proof (ix_chained U HU b Hub) as Hcb. destruct (next_state_total s b Hcb Heb) as (s' & Hs').
  assert (state_after (Some b) = Some s') as Hb by (by rewrite state_after_step, Hwb, Hs).
  destruct (next_state_cases s b s' Hs') as (Hstep & H1 & H2 & H3). exists s'. rewrite Eb.
  assert (s = THRESHOLD_STARTED -> BeginTime c <= GetMedianTimePast b) as Hbegin.
  { intros E. destruct (Hm1 E) as (a & Ea & Ha). rewrite <- Hwb in Ea. pose proof (median_walk _ b a Hub Ea). lia. }
  split_and!; [done|split|].
  - intros E. exists b. split; [done|]. destruct (H1 E); auto.
  - intros [E|E].
    + destruct (H2 E) as (Es & Ht & Hk). exists (S j), b. split_and!; [lia|done|]. split_and!; auto.
    + destruct (Hm2 (H3 E)) as (i & a & Hi & Ha & Hsa). exists i, a. split_and!; [lia|done|done].
  - intros i Hi. destruct (decide (i = S j)) as [->|]; [rewrite Eb; by exists s'|].
    destruct (Hall i ltac:(lia)) as (s0 & H0 & Hr). exists s0. split; [done|].
    destruct Hstep as [->|Hstep]; [done|]. eapply rtc_r; eauto.
Qed.

(** *** Since when *)

Lemma end_of_height q j b : U q -> (j <= periods_of q)%nat -> end_of q j = Some b ->
  bi_height b + 1 = Z.of_nat j * Period c /\ last_end b = Some b /\ U b.
Proof.
  intros Hu Hj E. pose proof (ix_chained U HU q Hu) as Hq. pose proof (periods_of_bound q j Hq Hj).
  pose proof (index_walk _ q b Hu E) as Hb. apply walk_inv in E as (_ & Hh & _); [|done].
  assert (bi_height b + 1 = Z.of_nat j * Period c) as Eh by lia. split_and!; [done| |done].
  unfold last_end. rewrite Eh, Z.mod_mul by lia. done.
Qed.

Lemma since_loop_spec q s0 : U q -> forall j b cache fuel, (1 <= j <= periods_of q)%nat -> end_of q j = Some b ->
  state_after (Some b) = Some s0 -> s0 <> THRESHOLD_DEFINED -> cache_ok cache -> (j <= fuel)%nat ->
  exists i cache', since_loop c fuel s0 b cache = Some (Z.of_nat i * Period c, cache') /\ cache_ok cache' /\
    (1 <= i <= j)%nat /\ (forall k, (i <= k <= j)%nat -> state_after (end_of q k) = Some s0) /\
    state_after (end_of q (i - 1)) <> Some s0.
Proof.
  intros Hu j. pose proof (ix_chained U HU q Hu) as Hq. induction j as [|j IH]; intros b cache fuel Hj Eb Hs Hd Hc Hf; [lia|].
  destruct fuel as [|fuel]; [lia|]. cbn [since_loop].
  destruct (end_of_height q (S j) b Hu ltac:(lia) Eb) as (Hh & _ & Hub).
  destruct (end_of_succ q j Hu ltac:(lia)) as (b' & Eb' & _ & _ & Hw). assert (b' = b) as -> by congruence.
  rewrite ancestor_period, Hw, Hh by (by apply (ix_chained U HU)).
  assert (forall cache, cache_ok cache -> state_after (end_of q j) <> Some s0 -> exists i cache',
    Some (Z.of_nat (S j) * Period c, cache) = Some (Z.of_nat i * Period c, cache') /\ cache_ok cache' /\
    (1 <= i <= S j)%nat /\ (forall k, (i <= k <= S j)%nat -> state_after (end_of q k) = Some s0) /\
    state_after (end_of q (i - 1)) <> Some s0) as Hstop.
  { intros cache0 Hc0 Hne. exists (S j), cache0. split_and!; [done|done|lia|lia| |by replace (S j - 1)%nat with j by lia].
    intros k Hk. replace k with (S j) by lia. by rewrite Eb. }
  destruct (end_of q j) as [a|] eqn:Ea.
  - assert (1 <= j)%nat by (destruct j; [rewrite end_of_zero in Ea by done; done|lia]).
    destruct (end_of_height q j a Hu ltac:(lia) Ea) as (_ & Hla & Hua).
    destruct (GetStateFor_spec (Some a) cache Hua Hc) as (s & cache' & -> & Es & Hc').
    unfold state_of in Es. cbn [mbind option_bind] in *. rewrite Hla in Es. unfold state_eqb.
    case_bool_decide as E; [|apply Hstop; [done|]; congruence]. subst s.
    destruct (IH a cache' fuel ltac:(lia) eq_refl Es Hd Hc' ltac:(lia)) as (i & cache2 & H1 & H2 & H3 & H4 & H5).
    exists i, cache2. split_and!; [done|done|lia|lia| |done]. intros k Hk.
    destruct (decide (k = S j)) as [->|]; [by rewrite Eb|]. apply H4. lia.
  - apply Hstop; [done|]. cbn. congruence.
Qed.

End Periods.

(** ** The theorems *)

Section Theorems.
Context (c : ConditionChecker) (U : CBlockIndex -> Prop).

(** C24. The cached computation of a deployment's state, which stops at the first
    period whose state is known and at the first block before the start time,
    gives the state of the recursion over all periods, and leaves a cache whose
    entries are right; no null pointer is dereferenced. *)
Theorem GetStateFor_exact (p : option CBlockIndex) (cache : ThresholdConditionCache) :
  0 < Period c -> BeginTime c <= EndTime c -> index U -> known U p -> cache_ok c U cache ->
  exists s cache', GetStateFor c p cache = Some (s, cache') /\ state_of c p = Some s /\ cache_ok c U cache'.
Proof. intros Hp Ht HU. by apply GetStateFor_spec. Qed.

(** Along a chain the state of a deployment only moves forward: defined,
    started, locked in, active, or failed from one of the first two; active and
    failed are final, and a deployment is locked in or active only when enough
    blocks of one period of the chain signalled between the start time and the
    timeout. *)
Theorem deployment_forward (p q : CBlockIndex) (m : nat) :
  0 < Period c -> BeginTime c <= EndTime c -> index U -> U q -> walk m q = Some p ->
  exists s s', state_of c (Some p) = Some s /\ state_of c (Some q) = Some s' /\ rtc bip9_step s s' /\
    (s = THRESHOLD_ACTIVE \/ s = THRESHOLD_FAILED -> s' = s) /\
    (s' = THRESHOLD_LOCKED_IN \/ s' = THRESHOLD_ACTIVE -> exists n b, walk n q = Some b /\ signalled c b).
Proof.
  intros Hp Ht HU Hq Hw. pose proof (ix_chained U HU q Hq) as Hcq. pose proof (walk_inv m q p Hcq Hw) as (Hcp & _).
  destruct (end_of_ancestor c Hp q p m _ Hcq Hw (le_n _)) as [He Hle].
  destruct (state_end_of c Hp U HU q (periods_of c q) Hq (le_n _)) as (s' & Hs' & [_ Hm] & Hall).
  destruct (Hall _ Hle) as (s & Hs & Hr). exists s, s'. unfold state_of. cbn [mbind option_bind].
  rewrite !last_end_of by done. rewrite He. split_and!; [done|done|done| |].
  - intros [-> | ->]; (inversion Hr as [|? y ? H1 H2]; subst; [done|inversion H1]).
  - intros H. destruct (Hm H) as (i & b & _ & Hb & Hsig). exists (Z.to_nat (bi_height q + 1 - Z.of_nat i * Period c)), b. done.
Qed.

(** [GetStateSinceHeightFor] returns the first height of the run of periods
    with the present state: every period from there to the present has the state
    and the one before has another; it is 0 for the initial state. *)
Theorem GetStateSinceHeightFor_exact (q : CBlockIndex) (cache : ThresholdConditionCache) :
  0 < Period c -> BeginTime c <= EndTime c -> index U -> U q -> cache_ok c U cache ->
  exists r cache' s, GetStateSinceHeightFor c (Some q) cache = Some (r, cache') /\ cache_ok c U cache' /\
    state_of c (Some q) = Some s /\
    if state_eqb s THRESHOLD_DEFINED then r = 0
    else exists i, r = Z.of_nat i * Period c /\ (1 <= i <= periods_of c q)%nat /\
      (forall k, (i <= k <= periods_of c q)%nat -> state_after c (end_of c q k) = Some s) /\
      state_after c (end_of c q (i - 1)) <> Some s.
Proof.
  intros Hp Ht HU Hq Hc. pose proof (ix_chained U HU q Hq) as Hcq. unfold GetStateSinceHeightFor.
  destruct (GetStateFor_spec c Hp Ht U HU (Some q) cache Hq Hc) as (s & cache' & -> & Es & Hc').
  cbn [mbind option_bind]. unfold state_eqb at 1. case_bool_decide as Ed.
  { exists 0, cache', s. unfold state_eqb. rewrite bool_decide_eq_true_2 by done. done. }
  pose proof Es as Es'. unfold state_of in Es'. cbn [mbind option_bind] in Es'.
  destruct (period_end_walk c Hp q Hcq) as [-> _]. rewrite last_end_of in * by done.
  destruct (end_of c q (periods_of c q)) as [b|] eqn:Eb; [|cbn in Es'; congruence]. cbn [mbind option_bind].
  assert (1 <= periods_of c q)%nat as Hj.
  { destruct (periods_of c q); [rewrite end_of_zero in Eb by done; done|lia]. }
  destruct (end_of_height c Hp U HU q _ b Hq (le_n _) Eb) as (Hh & _ & _).
  destruct (since_loop_spec c Hp Ht U HU q s Hq (periods_of c q) b cache' (Z.to_nat (bi_height b + 1)))
    as (i & cache2 & H1 & H2 & H3 & H4 & H5); [lia|done|done|done|done|nia|].
  exists (Z.of_nat i * Period c), cache2, s. split_and!; [done|done|done|]. unfold state_eqb. rewrite bool_decide_eq_false_2 by done. eauto.
Qed.

End Theorems.

(** ** Statistics *)

Lemma stats_loop_count c n : forall fuel p k, chained p -> Z.of_nat n <= bi_height p -> (n <= fuel)%nat ->
  stats_loop c fuel (Some p) (bi_height p - Z.of_nat n) k = count_loop c n (Some p) k.
Proof.
  induction n as [|n IH]; intros fuel p k Hp Hn Hf.
  { destruct fuel; cbn [stats_loop mbind option_bind count_loop]; by replace (_ =? _) with true by lia. }
  destruct fuel as [|fuel]; [lia|]. cbn [stats_loop mbind option_bind count_loop]. replace (_ =? _) with false by lia.
  destruct (chained_prev p Hp) as (q & E & Hq & Hh & _); [lia|]. rewrite E.
  replace (bi_height p - Z.of_nat (S n)) with (bi_height q - Z.of_nat n) by lia. apply IH; [done|lia|lia].
Qed.

(** The statistics of the present period: the blocks since its start and how many
    of them signal.  In the first period there is no block before its start, and
    the call dereferences a null pointer. *)
Lemma GetStateStatisticsFor_exact c p : 0 < Period c -> chained p ->
  let r := (bi_height p + 1) mod Period c in
  GetStateStatisticsFor c (Some p)
  = if Period c <=? bi_height p + 1
    then k ← count_loop c (Z.to_nat r) (Some p) 0; Some (MkStats (Period c) (Threshold c) r k (r - k <=? Period c - Threshold c))
    else None.
Proof.
  intros Hper Hp r. pose proof (chained_nonneg p Hp). cbn [GetStateStatisticsFor].
  destruct (period_end_walk c Hper p Hp) as [-> _]. unfold last_end. fold r.
  pose proof (Z.mod_pos_bound (bi_height p + 1) (Period c) Hper) as Hr. fold r in Hr.
  destruct (Z.leb_spec (Period c) (bi_height p + 1)).
  - destruct (walk_height (Z.to_nat r) p Hp) as (e & -> & _ & He); [lia|]. cbn [mbind option_bind].
    rewrite He. rewrite stats_loop_count by (done || lia). destruct (count_loop _ _ _ _); [|done]. cbn [mbind option_bind].
    replace (bi_height p - (bi_height p - Z.of_nat (Z.to_nat r))) with r by lia. done.
  - assert (r = bi_height p + 1) as Er by (unfold r; apply Z.mod_small; lia). destruct (walk _ p) as [a|] eqn:E; [|done].
    apply walk_inv in E; [lia|done].
Qed.

(** ** Signalling *)

Section Signals.
Context (vDeployments : list BIP9Deployment) (nMinerConfirmationWindow nRuleChangeActivationThreshold : Z).
Context (U : CBlockIndex -> Prop).
Let checker := VersionBitsConditionChecker nMinerConfirmationWindow nRuleChangeActivationThreshold.

(** Deployments that the parameters of a network may have. *)
Definition deployment_ok (d : BIP9Deployment) : Prop :=
  0 <= d.(bit) < 32 /\ 0 < Period (checker d) /\ d.(nStartTime) <= d.(nTimeout).

Definition caches_ok (caches : list ThresholdConditionCache) : Prop :=
  Forall2 (fun d cache => cache_ok (checker d) U cache) vDeployments caches.

(** The deployments that a block after [p] signals. *)
Definition signals (p : option CBlockIndex) (d : BIP9Deployment) : bool :=
  match state_of (checker d) p with
  | Some s => state_eqb s THRESHOLD_LOCKED_IN || state_eqb s THRESHOLD_STARTED
  | None => false
  end.

Lemma VersionBitsState_spec p i d caches : index U -> known U p -> vDeployments !! i = Some d -> deployment_ok d ->
  caches_ok caches ->
  exists s caches', VersionBitsState vDeployments nMinerConfirmationWindow nRuleChangeActivationThreshold p i caches = Some (s, caches') /\
    state_of (checker d) p = Some s /\ caches_ok caches'.
Proof.
  intros HU Hp Hd (_ & Hper & Ht) Hc. unfold VersionBitsState. rewrite Hd. cbn [mbind option_bind].
  destruct (Forall2_lookup_l _ _ _ i d Hc Hd) as (cache & Ec & Hk). rewrite Ec. cbn [mbind option_bind].
  destruct (GetStateFor_spec (checker d) Hper Ht U HU p cache Hp Hk) as (s & cache' & Eg & Es & Hk').
  fold checker. rewrite Eg. cbn [mbind option_bind]. exists s, (<[i := cache']> caches). split_and!; [done|done|].
  unfold caches_ok. apply Forall2_lookup. intros k.
  destruct (decide (k = i)) as [->|Hne].
  - rewrite list_lookup_insert_eq by (by eapply lookup_lt_Some). rewrite Hd. by constructor.
  - rewrite list_lookup_insert_ne by done. by apply Forall2_lookup.
Qed.

Lemma wrapu_bits x b : 0 <= b < 32 -> Z.testbit (wrapu 32 x) b = Z.testbit x b.
Proof. intros Hb. unfold wrapu. by rewrite Z.mod_pow2_bits_low by lia. Qed.

Lemma wrapu_wraps x : wrapu 32 (wraps 32 x) = wrapu 32 x.
Proof. unfold wrapu, wraps. rewrite Zminus_mod_idemp_l. f_equal. ring. Qed.

Lemma mask_bits d b : 0 <= bit d < 32 -> 0 <= b < 32 -> Z.testbit (Mask d) b = (bit d =? b).
Proof.
  intros Hd Hb. unfold Mask. rewrite wrapu_bits, Z.shiftl_1_l by done. destruct (Z.eqb_spec (bit d) b) as [->|].
  - apply Z.pow2_bits_true. lia.
  - apply Z.pow2_bits_false. lia.
Qed.

Lemma version_loop_spec p b : index U -> known U p -> Forall deployment_ok vDeployments -> 0 <= b < 32 ->
  forall n i caches v, (i + n = length vDeployments)%nat -> caches_ok caches ->
  exists v' caches', version_loop vDeployments nMinerConfirmationWindow nRuleChangeActivationThreshold n i p caches v = Some (v', caches') /\
    caches_ok caches' /\
    Z.testbit (wrapu 32 v') b = Z.testbit (wrapu 32 v) b || existsb (fun d => (bit d =? b) && signals p d) (drop i vDeployments).
Proof.
  intros HU Hp Hds Hb n. induction n as [|n IH]; intros i caches v Hn Hc; cbn [version_loop].
  { exists v, caches. rewrite drop_ge by lia. cbn. rewrite orb_false_r. done. }
  destruct (vDeployments !! i) as [d|] eqn:Ed; [|apply lookup_ge_None in Ed; lia]. cbn [mbind option_bind].
  pose proof (Forall_lookup_1 _ _ _ _ Hds Ed) as Hd.
  destruct (VersionBitsState_spec p i d caches HU Hp Ed Hd Hc) as (s & caches' & -> & Es & Hc'). cbn [mbind option_bind].
  set (v1 := if state_eqb s THRESHOLD_LOCKED_IN || state_eqb s THRESHOLD_STARTED
             then wraps 32 (Z.lor (wrapu 32 v) (Mask d)) else v). destruct (IH (S i) caches' v1 ltac:(lia) Hc') as (v' & caches2 & H1 & H2 & H3).
  exists v', caches2. split_and!; [done|done|]. rewrite H3, (drop_S _ d i Ed). cbn [existsb]. rewrite orb_assoc. f_equal.
  unfold signals, v1. rewrite Es. destruct (_ || _); [|by rewrite andb_false_r, orb_false_r].
  destruct Hd as [Hd _]. rewrite andb_true_r, wrapu_wraps, wrapu_bits, Z.lor_spec, mask_bits by done. done.
Qed.

(** The version that [ComputeBlockVersion] gives a new block has the bit of a
    deployment exactly when a deployment with that bit is started or locked in
    after the block's parent, or the bit belongs to the fixed top bits; this is
    what the condition of the deployment tests in the block.  The block index and
    the caches are assumed consistent and the deployments to have a bit of the 32-bit version,
    a positive period and a start no later than the timeout. *)
Theorem block_version_signals (assetsDeployed : bool) (p : option CBlockIndex) (caches : list ThresholdConditionCache) :
  index U -> known U p -> Forall deployment_ok vDeployments -> caches_ok caches ->
  let top := if assetsDeployed then VERSIONBITS_TOP_BITS_ASSETS else VERSIONBITS_TOP_BITS in
  forall d block, d ∈ vDeployments ->
  exists v caches', ComputeBlockVersion vDeployments nMinerConfirmationWindow nRuleChangeActivationThreshold assetsDeployed p caches
    = Some (v, caches') /\ caches_ok caches' /\
    (bi_version block = v ->
     Condition (checker d) block = Z.testbit top (bit d) || existsb (fun d' => (bit d' =? bit d) && signals p d') vDeployments).
Proof.
  intros HU Hp Hds Hc top d block Hd. pose proof (proj1 (Forall_forall _ _) Hds d Hd) as Hdk. destruct Hdk as [Hbit _].
  unfold ComputeBlockVersion. fold top.
  destruct (version_loop_spec p (bit d) HU Hp Hds Hbit (length vDeployments) 0 caches top eq_refl Hc) as (v & caches' & -> & Hc' & Hv).
  exists v, caches'. split_and!; [done|done|]. intros Eb. cbn [checker VersionBitsConditionChecker Condition]. rewrite Eb.
  rewrite drop_0, (wrapu_bits top) in Hv by done. rewrite <- Hv. unfold Mask. rewrite Z.shiftl_1_l.
  assert (0 < 2 ^ bit d < 2 ^ 32) by (split; [lia|apply Z.pow_lt_mono_r; lia]). rewrite (wrapu_id 32 (2 ^ bit d)) by lia.
  apply land_pow2_testbit. lia.
Qed.

End Signals.

(** ** A deployment on a chain of twelve blocks *)

Module Deployed.

(** Blocks one minute apart; those of the second period signal the bit 6. *)
Definition extend (p : CBlockIndex) (n : Z) : CBlockIndex :=
  default p (AddToBlockIndex n (if (4 <=? n) && (n <=? 6) then 0x20000040 else 0x20000000) (1000 + 60 * n) 0x207fffff (Some p)).
Definition genesis : CBlockIndex :=
  default (MkIndex 0 0 0 0 0 [] 0 None None) (AddToBlockIndex 1 0x20000000 1060 0x207fffff None).
Definition middle : CBlockIndex := Eval vm_compute in foldl extend genesis [2; 3; 4; 5; 6; 7].
Definition tip : CBlockIndex := Eval vm_compute in foldl extend middle [8; 9; 10; 11; 12].
Definition deployment : BIP9Deployment := MkDeployment 6 1000 9000 3 3.
Definition checker : ConditionChecker := VersionBitsConditionChecker 2016 1613 deployment.

(** The index that holds the chain of [tip]. *)
Definition U (p : CBlockIndex) : Prop := exists n, walk n tip = Some p.

Lemma extend_keeps p n : chained p -> chained (extend p n).
Proof.
  intros Hp. unfold extend. destruct (AddToBlockIndex _ _ _ _ _) as [q|] eqn:E; [|done].
  exact (AddToBlockIndex_chained _ _ _ _ (Some p) q Hp E).
Qed.

Lemma tip_chained : chained tip.
Proof.
  change tip with (foldl extend (foldl extend genesis [2; 3; 4; 5; 6; 7]) [8; 9; 10; 11; 12]).
  cbn [foldl]. repeat apply extend_keeps. apply chained_genesis; vm_compute; reflexivity.
Qed.

Definition entry_ok (p : CBlockIndex) : bool :=
  (bi_hash p =? bi_height p + 1) &&
  match pprev p with Some q => GetMedianTimePast q <? nTime p | None => true end.

Lemma index_U : index U.
Proof.
  assert (forall p, U p -> entry_ok p = true) as H.
  { intros p [n Hn]. apply (walk_entries 12) in Hn; [|exact tip_chained|vm_compute; discriminate].
    assert (forallb entry_ok (entries 12 tip) = true) as HF by (vm_compute; reflexivity).
    rewrite forallb_forall in HF. apply HF. by apply list_elem_of_In. }
  split.
  - intros p [n Hn]. by apply walk_inv in Hn as (? & _); [|exact tip_chained].
  - intros p q [n Hn] Hq. exists (n + 1)%nat. rewrite walk_add, Hn. cbn. by rewrite Hq.
  - intros p q Hp Hq E. pose proof (H p Hp) as H1. pose proof (H q Hq) as H2. unfold entry_ok in H1, H2.
    destruct Hp as [n Hn], Hq as [m Hm]. pose proof (walk_inv n tip p tip_chained Hn). pose proof (walk_inv m tip q tip_chained Hm).
    replace m with n in Hm by lia. congruence.
  - intros p q Hp E. pose proof (H p Hp) as H1. unfold entry_ok in H1. rewrite E in H1. lia.
Qed.

Lemma U_tip : U tip.
Proof. by exists 0%nat. Qed.

Lemma empty_ok c : cache_ok c U ∅.
Proof. intros key s H. by rewrite lookup_empty in H. Qed.

Lemma GetStateFor_exact_witness : exists s cache', GetStateFor checker (Some tip) ∅ = Some (s, cache') /\
  state_of checker (Some tip) = Some s /\ cache_ok checker U cache'.
Proof.
  apply (GetStateFor_exact checker U (Some tip) ∅);
    [vm_compute; reflexivity|vm_compute; discriminate|exact index_U|exact U_tip|exact (empty_ok checker)].
Defined.

(** The deployment is locked in by the second period and active after the third. *)
Example deployment_active : (fst <$> GetStateFor checker (Some middle) ∅) = Some THRESHOLD_LOCKED_IN /\
  (fst <$> GetStateFor checker (Some tip) ∅) = Some THRESHOLD_ACTIVE.
Proof. vm_compute. auto. Qed.

Lemma deployment_forward_witness : exists s s', state_of checker (Some middle) = Some s /\ state_of checker (Some tip) = Some s' /\
  rtc bip9_step s s' /\ (s = THRESHOLD_ACTIVE \/ s = THRESHOLD_FAILED -> s' = s) /\
  (s' = THRESHOLD_LOCKED_IN \/ s' = THRESHOLD_ACTIVE -> exists n b, walk n tip = Some b /\ signalled checker b).
Proof.
  apply (deployment_forward checker U middle tip 5);
    [vm_compute; reflexivity|vm_compute; discriminate|exact index_U|exact U_tip|vm_compute; reflexivity].
Defined.

Lemma GetStateSinceHeightFor_exact_witness :
  exists r cache' s, GetStateSinceHeightFor checker (Some tip) ∅ = Some (r, cache') /\ cache_ok checker U cache' /\
    state_of checker (Some tip) = Some s /\
    if state_eqb s THRESHOLD_DEFINED then r = 0
    else exists i, r = Z.of_nat i * Period checker /\ (1 <= i <= periods_of checker tip)%nat /\
      (forall k, (i <= k <= periods_of checker tip)%nat -> state_after checker (end_of checker tip k) = Some s) /\
      state_after checker (end_of checker tip (i - 1)) <> Some s.
Proof.
  apply (GetStateSinceHeightFor_exact checker U tip ∅);
    [vm_compute; reflexivity|vm_compute; discriminate|exact index_U|exact U_tip|exact (empty_ok checker)].
Defined.

(** The next block after [middle], with the version computed for it: it signals bit 6. *)
Definition voting : CBlockIndex := default middle (AddToBlockIndex 8 0x20000040 1480 0x207fffff (Some middle)).
Lemma voting_version : (fst <$> ComputeBlockVersion [deployment] 2016 1613 false (Some middle) [∅]) = Some (bi_version voting).
Proof. vm_compute. reflexivity. Qed.

Lemma block_version_signals_witness :
  exists caches', ComputeBlockVersion [deployment] 2016 1613 false (Some middle) [∅] = Some (bi_version voting, caches') /\
    Condition checker voting = true.
Proof.
  destruct (block_version_signals [deployment] 2016 1613 U false (Some middle) [∅]) with (d := deployment) (block := voting)
    as (v & caches' & E & _ & Hc).
  - exact index_U.
  - by exists 5%nat.
  - apply Forall_singleton. split_and!; vm_compute; done.
  - apply Forall2_cons_2; [exact (empty_ok checker)|apply Forall2_nil_2].
  - by left.
  - pose proof voting_version as Hv. rewrite E in Hv. apply (inj Some) in Hv. cbn [fst] in Hv. subst v.
    exists caches'. split; [exact E|]. etransitivity; [exact (Hc eq_refl)|]. vm_compute. reflexivity.
Defined.

End Deployed.
