(* ===== verification/ProviderTx.v ===== *)
(** Provider transactions (evo/providertx.h, evo/providertx.cpp,
    evo/specialtx.h, and the parts of bls/bls.cpp and pubkey.cpp they call): the
    payloads and their wire formats, the signature and proof-of-possession
    hashes, every check of each transaction type with its reject reason, and
    the loop over a block with the list of registrations seen so far.  The
    pairing library, the curve operations of secp256k1 and HASH160 are the
    class [Crypto].  The theorems show that payloads decode only from their
    own encoding, that an accepted transaction carries the authorisation its
    type requires and binds the inputs it was signed for, and that the
    registrations of an accepted block can all be added to the list. *)

From S2P Require Import Prelude Serialize Sha256 NetAddress Script Primitives Params Coins MNList Chain.

(** ** Cryptography *)

(** blst, libsecp256k1 and HASH160. *)
Class Crypto := {
  P1 : Type;
  P2 : Type;
  p1_uncompress : bytes -> option P1;
  p1_in_g1 : P1 -> bool;
  p1_add : P1 -> P1 -> P1;
  p1_compress : P1 -> bytes;
  p2_uncompress : bytes -> option P2;
  p2_in_g2 : P2 -> bool;
  (** [blst_core_verify_pk_in_g1] with a message and a domain separation tag. *)
  core_verify : P1 -> P2 -> bytes -> bytes -> bool;
  (** [parse_compact] and [recover] of a 64-byte signature with its recovery
      id, and the serialization of the key (compressed or not). *)
  ecdsa_recover : uint256 -> Z -> bytes -> bool -> option bytes;
  Hash160 : bytes -> uint160;
}.

Definition BLS_PUBLIC_KEY_SIZE : nat := 48.
Definition BLS_SIGNATURE_SIZE : nat := 96.

Section Bls.
Context `{CR : Crypto}.

(** A key or signature object: its bytes when [fValid], [None] otherwise. *)
Definition PublicKey_SetBytes (bs : bytes) : option bytes :=
  if negb (length bs =? BLS_PUBLIC_KEY_SIZE)%nat then None
  else match p1_uncompress bs with
  | None => None
  | Some p => if p1_in_g1 p then Some bs else None
  end.
Definition Signature_SetBytes (bs : bytes) : option bytes :=
  if negb (length bs =? BLS_SIGNATURE_SIZE)%nat then None
  else match p2_uncompress bs with
  | None => None
  | Some p => if p2_in_g2 p then Some bs else None
  end.

(** The loop of [AggregatePublicKeys], from the point summed so far. *)
Fixpoint aggregate_loop (agg : option P1) (pks : list (option bytes)) : option P1 :=
  match pks with
  | [] => agg
  | None :: _ => None
  | Some bs :: pks' =>
    match p1_uncompress bs with
    | None => None
    | Some p => aggregate_loop (Some (match agg with None => p | Some a => p1_add a p end)) pks'
    end
  end.
Definition AggregatePublicKeys (pks : list (option bytes)) : option bytes :=
  match pks with
  | [] => None
  | [pk] => pk
  | _ => agg ← aggregate_loop None pks; PublicKey_SetBytes (p1_compress agg)
  end.

Definition DST_PREFIX : string := "BLS_SIG_BLS12381G2_XMD:SHA-256_SSWU_RO_".
(** For a domain that is not empty, as both domains are. *)
Definition VerifyWithDomain (sig pk : option bytes) (hash : uint256) (domain : string) : bool :=
  match sig, pk with
  | Some sig, Some pk =>
    match p1_uncompress pk, p2_uncompress sig with
    | Some p, Some s => core_verify p s (le_bytes 32 hash) (str DST_PREFIX ++ str domain)
    | _, _ => false
    end
  | _, _ => false
  end.

Definition OPERATOR_KEY : string := "MYNTA_BLS_operator_v1".
Definition QUORUM : string := "MYNTA_BLS_quorum_v1".

(** The serialized key recovered from a compact signature. *)
Definition RecoverCompact (hash : uint256) (vchSig : bytes) : option bytes :=
  if negb (length vchSig =? 65)%nat then None
  else
    let v := vchSig !!! 0%nat - 27 in
    ecdsa_recover hash (Z.land v 3) (drop 1 vchSig) (negb (Z.land v 4 =? 0)).

(** [CheckSignature] of the payloads signed by the owner. *)
Definition check_owner_sig (hash : uint256) (vchSig : bytes) (keyID : uint160) : bool :=
  match RecoverCompact hash vchSig with None => false | Some pubkey => Hash160 pubkey =? keyID end.
End Bls.

(** ** Transaction types *)

Inductive TxType :=
| TRANSACTION_NORMAL
| TRANSACTION_PROVIDER_REGISTER
| TRANSACTION_PROVIDER_UPDATE_SERVICE
| TRANSACTION_PROVIDER_UPDATE_REGISTRAR
| TRANSACTION_PROVIDER_UPDATE_REVOKE
| TRANSACTION_QUORUM_COMMITMENT
| TRANSACTION_OTHER (n : Z).

Definition tx_type_code (t : TxType) : Z :=
  match t with
  | TRANSACTION_NORMAL => 0
  | TRANSACTION_PROVIDER_REGISTER => 1
  | TRANSACTION_PROVIDER_UPDATE_SERVICE => 2
  | TRANSACTION_PROVIDER_UPDATE_REGISTRAR => 3
  | TRANSACTION_PROVIDER_UPDATE_REVOKE => 4
  | TRANSACTION_QUORUM_COMMITMENT => 5
  | TRANSACTION_OTHER n => n
  end.
(** [static_cast<TxType>]. *)
Definition to_tx_type (n : Z) : TxType :=
  if n =? 0 then TRANSACTION_NORMAL
  else if n =? 1 then TRANSACTION_PROVIDER_REGISTER
  else if n =? 2 then TRANSACTION_PROVIDER_UPDATE_SERVICE
  else if n =? 3 then TRANSACTION_PROVIDER_UPDATE_REGISTRAR
  else if n =? 4 then TRANSACTION_PROVIDER_UPDATE_REVOKE
  else if n =? 5 then TRANSACTION_QUORUM_COMMITMENT
  else TRANSACTION_OTHER n.
Definition TxTypeToString (t : TxType) : string :=
  match t with
  | TRANSACTION_NORMAL => "NORMAL"
  | TRANSACTION_PROVIDER_REGISTER => "PROVIDER_REGISTER"
  | TRANSACTION_PROVIDER_UPDATE_SERVICE => "PROVIDER_UPDATE_SERVICE"
  | TRANSACTION_PROVIDER_UPDATE_REGISTRAR => "PROVIDER_UPDATE_REGISTRAR"
  | TRANSACTION_PROVIDER_UPDATE_REVOKE => "PROVIDER_UPDATE_REVOKE"
  | TRANSACTION_QUORUM_COMMITMENT => "QUORUM_COMMITMENT"
  | TRANSACTION_OTHER _ => "UNKNOWN"
  end.
Definition IsTxTypeSpecial (tx : CTransaction) : bool := (3 <=? tx.(nVersion)) && negb (tx.(nType) =? 0).
Definition GetTxType (tx : CTransaction) : TxType :=
  if (tx.(nVersion) <? 3) || (tx.(nType) =? 0) then TRANSACTION_NORMAL else to_tx_type tx.(nType).

(** ** Payloads *)

Record CProRegTx := MkProReg {
  pr_nVersion : Z; pr_nType : Z; pr_nMode : Z;
  pr_collateralOutpoint : COutPoint;
  pr_addr : CService;
  pr_keyIDOwner : uint160;
  pr_vchOperatorPubKey : bytes;
  pr_keyIDVoting : uint160;
  pr_nOperatorReward : Z;
  pr_scriptPayout : CScript;
  pr_inputsHash : uint256;
  pr_vchSig : bytes;
  pr_vchOperatorPoP : bytes;
}.
Record CProUpServTx := MkUpServ {
  us_nVersion : Z; us_proTxHash : uint256; us_addr : CService;
  us_scriptOperatorPayout : CScript; us_inputsHash : uint256; us_vchSig : bytes;
}.
Record CProUpRegTx := MkUpReg {
  ur_nVersion : Z; ur_proTxHash : uint256; ur_nMode : Z;
  ur_vchOperatorPubKey : bytes; ur_keyIDVoting : uint160; ur_scriptPayout : CScript;
  ur_inputsHash : uint256; ur_vchSig : bytes; ur_vchOperatorPoP : bytes;
}.
Record CProUpRevTx := MkUpRev {
  rv_nVersion : Z; rv_proTxHash : uint256; rv_nReason : Z; rv_inputsHash : uint256; rv_vchSig : bytes;
}.
Record CQuorumCommitmentTx := MkQC {
  qc_nVersion : Z; qc_llmqType : Z; qc_quorumHash : uint256; qc_quorumHeight : Z;
  qc_signers : bytes; qc_validMembers : bytes; qc_vchQuorumPublicKey : bytes;
  qc_quorumVvec : list bytes; qc_vchMembersSig : bytes;
}.

(** A field present only under a condition on the fields before it. *)
Definition depc {A B} (CA : Codec A) (f : A -> Codec B) : Codec (A * B) :=
  {| ser := fun p => ser CA p.1 ++ ser (f p.1) p.2; de := a ← de CA; b ← de (f a); mret (a, b) |}.
Definition optc {A} (present : bool) (C : Codec A) (absent : A) : Codec A :=
  if present then C else {| ser := fun _ => []; de := mret absent |}.

Infix "⊗" := pairc (at level 35, right associativity) : mynta_scope.
Local Open Scope mynta_scope.

(** The fields before the signature: what [SER_GETHASH] leaves, up to the proof
    of possession. *)
Definition c_proreg_head :=
  u16 ⊗ u16 ⊗ u16 ⊗ c_outpoint ⊗ CService.codec ⊗ blob 20 ⊗ bytevec ⊗ blob 20 ⊗ u16 ⊗ bytevec ⊗ blob 32.
Definition proreg_head (p : CProRegTx) :=
  (p.(pr_nVersion), (p.(pr_nType), (p.(pr_nMode), (p.(pr_collateralOutpoint), (p.(pr_addr), (p.(pr_keyIDOwner),
   (p.(pr_vchOperatorPubKey), (p.(pr_keyIDVoting), (p.(pr_nOperatorReward), (p.(pr_scriptPayout), p.(pr_inputsHash))))))))))).
Definition c_proreg : Codec CProRegTx :=
  isoc (depc (c_proreg_head ⊗ bytevec) (fun h => optc (2 <=? h.1.1) bytevec []))
    (fun '(((v, (t, (m, (c, (a, (o, (k, (g, (r, (s, i)))))))))), sig), pop) =>
       MkProReg v t m c a o k g r s i sig pop)
    (fun p => ((proreg_head p, p.(pr_vchSig)), p.(pr_vchOperatorPoP))).

Definition c_upserv_head := u16 ⊗ blob 32 ⊗ CService.codec ⊗ bytevec ⊗ blob 32.
Definition upserv_head (p : CProUpServTx) :=
  (p.(us_nVersion), (p.(us_proTxHash), (p.(us_addr), (p.(us_scriptOperatorPayout), p.(us_inputsHash))))).
Definition c_upserv : Codec CProUpServTx :=
  isoc (c_upserv_head ⊗ bytevec) (fun '((v, (h, (a, (s, i)))), sig) => MkUpServ v h a s i sig)
    (fun p => (upserv_head p, p.(us_vchSig))).

Definition c_upreg_head := u16 ⊗ blob 32 ⊗ u16 ⊗ bytevec ⊗ blob 20 ⊗ bytevec ⊗ blob 32.
Definition upreg_head (p : CProUpRegTx) :=
  (p.(ur_nVersion), (p.(ur_proTxHash), (p.(ur_nMode), (p.(ur_vchOperatorPubKey), (p.(ur_keyIDVoting),
   (p.(ur_scriptPayout), p.(ur_inputsHash))))))).
Definition upreg_pop (version : Z) (key : bytes) : bool := (2 <=? version) && negb (bytes_eq key []).
Definition c_upreg : Codec CProUpRegTx :=
  isoc (depc (c_upreg_head ⊗ bytevec) (fun h => optc (upreg_pop h.1.1 h.1.2.2.2.1) bytevec []))
    (fun '(((v, (h, (m, (k, (g, (s, i)))))), sig), pop) => MkUpReg v h m k g s i sig pop)
    (fun p => ((upreg_head p, p.(ur_vchSig)), p.(ur_vchOperatorPoP))).

Definition c_uprev_head := u16 ⊗ blob 32 ⊗ u16 ⊗ blob 32.
Definition uprev_head (p : CProUpRevTx) :=
  (p.(rv_nVersion), (p.(rv_proTxHash), (p.(rv_nReason), p.(rv_inputsHash)))).
Definition c_uprev : Codec CProUpRevTx :=
  isoc (c_uprev_head ⊗ bytevec) (fun '((v, (h, (r, i))), sig) => MkUpRev v h r i sig)
    (fun p => (uprev_head p, p.(rv_vchSig))).

Definition c_qc_head := u16 ⊗ u8 ⊗ blob 32 ⊗ i32 ⊗ bytevec ⊗ bytevec ⊗ bytevec ⊗ vec bytevec.
Definition qc_head (p : CQuorumCommitmentTx) :=
  (p.(qc_nVersion), (p.(qc_llmqType), (p.(qc_quorumHash), (p.(qc_quorumHeight), (p.(qc_signers),
   (p.(qc_validMembers), (p.(qc_vchQuorumPublicKey), p.(qc_quorumVvec)))))))).
Definition c_qc : Codec CQuorumCommitmentTx :=
  isoc (c_qc_head ⊗ bytevec)
    (fun '((v, (t, (h, (n, (s, (m, (k, w))))))), sig) => MkQC v t h n s m k w sig)
    (fun p => (qc_head p, p.(qc_vchMembersSig))).

(** The stream must be used up. *)
Definition GetTxPayload {A} (C : Codec A) (tx : CTransaction) : option A :=
  match de C tx.(vExtraPayload) with
  | Ok (obj, []) => Some obj
  | _ => None
  end.
Definition SetTxPayload {A} (C : Codec A) (tx : CTransaction) (obj : A) : CTransaction :=
  MkTransaction tx.(vin) tx.(vout) tx.(nVersion) tx.(nType) tx.(nLockTime) (ser C obj).

(** ** Hashes that are signed *)

Section Hashes.
Context `{HH : Hash256}.

Definition ProReg_GetSignatureHash (p : CProRegTx) : uint256 :=
  hash256 (ser c_proreg_head (proreg_head p) ++ ser (optc (2 <=? p.(pr_nVersion)) bytevec []) p.(pr_vchOperatorPoP)).
Definition UpServ_GetSignatureHash (p : CProUpServTx) : uint256 := hash256 (ser c_upserv_head (upserv_head p)).
Definition UpReg_GetSignatureHash (p : CProUpRegTx) : uint256 :=
  hash256 (ser c_upreg_head (upreg_head p)
           ++ ser (optc (upreg_pop p.(ur_nVersion) p.(ur_vchOperatorPubKey)) bytevec []) p.(ur_vchOperatorPoP)).
Definition UpRev_GetSignatureHash (p : CProUpRevTx) : uint256 := hash256 (ser c_uprev_head (uprev_head p)).
Definition QC_GetSignatureHash (p : CQuorumCommitmentTx) : uint256 := hash256 (ser c_qc_head (qc_head p)).

Definition ProReg_GetPoPSignatureHash (p : CProRegTx) : uint256 :=
  hash256 (ser bytevec (str "MYNTA_POP_PROREG") ++ ser bytevec p.(pr_vchOperatorPubKey)
           ++ ser c_outpoint p.(pr_collateralOutpoint) ++ ser (blob 20) p.(pr_keyIDOwner)).
Definition UpReg_GetPoPSignatureHash (p : CProUpRegTx) : uint256 :=
  hash256 (ser bytevec (str "MYNTA_POP_PROUPREG") ++ ser bytevec p.(ur_vchOperatorPubKey)
           ++ ser (blob 32) p.(ur_proTxHash)).

Definition inputs_preimage (tx : CTransaction) : bytes := mjoin ((fun i => ser c_outpoint i.(prevout)) <$> tx.(vin)).
Definition CalcTxInputsHash (tx : CTransaction) : uint256 := hash256 (inputs_preimage tx).
End Hashes.

(** ** Checks *)

(** What [CValidationState::DoS] records; the debug message is not modelled. *)
Record reject := MkReject { nDoS : Z; chRejectCode : Z; strRejectReason : string }.
Definition REJECT_INVALID : Z := 0x10.
Definition REJECT_DUPLICATE : Z := 0x12.
Definition DoS := MkReject.

(** [if (p) { ... }] on a pointer. *)
Definition with_ptr {A} (p : option A) (f : A -> result reject unit) : result reject unit :=
  match p with Some a => f a | None => Ok tt end.
(** [if (b) { ... }]. *)
Definition when (b : bool) (k : result reject unit) : result reject unit := if b then k else Ok tt.
(** [if (!obj) return state.DoS(...)]. *)
Definition get {A} (p : option A) (e : reject) : result reject A :=
  match p with Some a => Ok a | None => Err e end.
Definition is_some {A} (x : option A) : bool := match x with Some _ => true | None => false end.

Definition PROREG_MIN_VERSION : Z := 2.
Definition PROREG_CURRENT_VERSION : Z := 2.
Definition UPSERV_CURRENT_VERSION : Z := 1.
Definition UPREG_MIN_VERSION : Z := 2.
Definition UPREG_CURRENT_VERSION : Z := 2.
Definition UPREV_CURRENT_VERSION : Z := 1.
Definition REASON_CHANGE_OF_KEYS : Z := 3.
Definition QC_CURRENT_VERSION : Z := 1.

Section Checks.
Context `{HH : Hash256} `{CR : Crypto}.
Context (cp : Params).
(** [deterministicMNManager], by its [GetListForBlock]. *)
Context (manager : option (CBlockIndex -> option CDeterministicMNList)).
(** [pCoinsView ? pCoinsView : pcoinsTip], by its [AccessCoin]. *)
Context (coins : option (COutPoint -> Coin)).

Definition ProReg_VerifyProofOfPossession (p : CProRegTx) : bool :=
  if negb (length p.(pr_vchOperatorPubKey) =? 48)%nat then false
  else if p.(pr_nVersion) <? 2 then false
  else if negb (length p.(pr_vchOperatorPoP) =? 96)%nat then false
  else match PublicKey_SetBytes p.(pr_vchOperatorPubKey) with
  | None => false
  | opPubKey =>
    match Signature_SetBytes p.(pr_vchOperatorPoP) with
    | None => false
    | popSig => VerifyWithDomain popSig opPubKey (ProReg_GetPoPSignatureHash p) OPERATOR_KEY
    end
  end.
Definition UpReg_VerifyProofOfPossession (p : CProUpRegTx) : bool :=
  if bytes_eq p.(ur_vchOperatorPubKey) [] then true
  else if negb (length p.(ur_vchOperatorPubKey) =? 48)%nat then false
  else if p.(ur_nVersion) <? 2 then false
  else if negb (length p.(ur_vchOperatorPoP) =? 96)%nat then false
  else match PublicKey_SetBytes p.(ur_vchOperatorPubKey) with
  | None => false
  | opPubKey =>
    match Signature_SetBytes p.(ur_vchOperatorPoP) with
    | None => false
    | popSig => VerifyWithDomain popSig opPubKey (UpReg_GetPoPSignatureHash p) OPERATOR_KEY
    end
  end.

Definition CheckInputsHash (tx : CTransaction) (expectedInputsHash : uint256) : result reject unit :=
  require (CalcTxInputsHash tx =? expectedInputsHash) (DoS 100 REJECT_INVALID "bad-protx-inputs-hash").

Definition payout_ok (s : CScript) : bool := IsPayToPublicKeyHash s || IsPayToScriptHash s.

(** The height of the block being checked. *)
Definition next_height (p : CBlockIndex) : Z := p.(bi_height) + 1.

(** The address checks shared by registration and service update. *)
Definition check_addr (a : CService) : result reject unit :=
  _ ← require (CNetAddr.IsValid a.(addr)) (DoS 10 REJECT_INVALID "bad-protx-addr");
  require (cp.(fMineBlocksOnDemand) || CNetAddr.IsRoutable a.(addr)) (DoS 10 REJECT_INVALID "bad-protx-addr-not-routable").

(** The block on the collateral coin. *)
Definition check_collateral (pindexPrev : option CBlockIndex) (o : COutPoint) : result reject unit :=
  access ← get coins (DoS 100 REJECT_INVALID "bad-protx-utxo-unavailable");
  let collateralCoin := access o in
  _ ← require (negb (IsSpent collateralCoin)) (DoS 100 REJECT_INVALID "bad-protx-collateral-not-found");
  let nextBlockHeight := match pindexPrev with Some p => next_height p | None => 0 end in
  _ ← require (IsValidCollateralAmount cp collateralCoin.(out).(nValue) nextBlockHeight)
        (DoS 100 REJECT_INVALID "bad-protx-collateral-amount");
  let confirmations := nextBlockHeight - collateralCoin.(coin_nHeight) in
  require (cp.(nMasternodeCollateralConfirmations) <=? confirmations)
    (DoS 10 REJECT_INVALID "bad-protx-collateral-immature").

(** The five duplicate checks of a registration against one list. *)
Definition check_duplicates (l : CDeterministicMNList) (proTx : CProRegTx)
  (dup_addr dup_owner dup_collateral dup_voting dup_operator : string) : result reject unit :=
  _ ← require (negb (HasUniqueProperty l (prop_hash (PAddr proTx.(pr_addr))))) (DoS 100 REJECT_DUPLICATE dup_addr);
  _ ← require (negb (HasUniqueProperty l (prop_hash (POwner proTx.(pr_keyIDOwner))))) (DoS 100 REJECT_DUPLICATE dup_owner);
  _ ← require (negb (is_some (GetMNByCollateral l proTx.(pr_collateralOutpoint)))) (DoS 100 REJECT_DUPLICATE dup_collateral);
  _ ← require (negb (HasUniqueProperty l (prop_hash (PVoting proTx.(pr_keyIDVoting))))) (DoS 100 REJECT_DUPLICATE dup_voting);
  require (negb (HasUniqueProperty l (prop_hash (POperator proTx.(pr_vchOperatorPubKey))))) (DoS 100 REJECT_DUPLICATE dup_operator).

Definition CheckProRegTx (tx : CTransaction) (pindexPrev : option CBlockIndex)
  (pExtraList : option CDeterministicMNList) : result reject unit :=
  _ ← require (tx.(nType) =? tx_type_code TRANSACTION_PROVIDER_REGISTER) (DoS 100 REJECT_INVALID "bad-protx-type");
  proTx ← get (GetTxPayload c_proreg tx) (DoS 100 REJECT_INVALID "bad-protx-payload");
  _ ← require (negb ((proTx.(pr_nVersion) <? PROREG_MIN_VERSION) || (PROREG_CURRENT_VERSION <? proTx.(pr_nVersion))))
        (DoS 100 REJECT_INVALID "bad-protx-version");
  _ ← require (proTx.(pr_nMode) =? 0) (DoS 100 REJECT_INVALID "bad-protx-mode");
  _ ← require (proTx.(pr_nOperatorReward) <=? 10000) (DoS 100 REJECT_INVALID "bad-protx-operator-reward");
  _ ← check_addr proTx.(pr_addr);
  _ ← with_ptr pindexPrev (fun p => when (cp.(nMNv2MigrationHeight) <=? next_height p)
        (require (negb (proTx.(pr_addr).(port) =? 0)) (DoS 10 REJECT_INVALID "bad-protx-addr-port-zero")));
  _ ← require (length proTx.(pr_vchOperatorPubKey) =? 48)%nat (DoS 100 REJECT_INVALID "bad-protx-operator-key-size");
  _ ← with_ptr pindexPrev (fun p => when (cp.(nMNv2MigrationHeight) <=? next_height p)
        (require (is_some (PublicKey_SetBytes proTx.(pr_vchOperatorPubKey)))
           (DoS 100 REJECT_INVALID "bad-protx-operator-key-invalid")));
  _ ← require (ProReg_VerifyProofOfPossession proTx) (DoS 100 REJECT_INVALID "bad-protx-operator-pop");
  _ ← require (payout_ok proTx.(pr_scriptPayout)) (DoS 100 REJECT_INVALID "bad-protx-payout-script");
  _ ← with_ptr pindexPrev (fun p => require
        (negb ((cp.(nMNv2MigrationHeight) <=? next_height p)
               && (MAX_SCRIPT_ELEMENT_SIZE <? Z.of_nat (length proTx.(pr_scriptPayout)))))
        (DoS 100 REJECT_INVALID "bad-protx-payout-script-size"));
  _ ← CheckInputsHash tx proTx.(pr_inputsHash);
  _ ← with_ptr pindexPrev (fun p => require (IsMasternodeActivationHeight cp (next_height p))
        (DoS 10 REJECT_INVALID "bad-protx-not-active"));
  _ ← check_collateral pindexPrev proTx.(pr_collateralOutpoint);
  _ ← require (check_owner_sig (ProReg_GetSignatureHash proTx) proTx.(pr_vchSig) proTx.(pr_keyIDOwner))
        (DoS 100 REJECT_INVALID "bad-protx-sig");
  _ ← with_ptr pindexPrev (fun p => with_ptr manager (fun getList => with_ptr (getList p) (fun mnList =>
        check_duplicates mnList proTx "bad-protx-dup-addr" "bad-protx-dup-owner-key" "bad-protx-dup-collateral"
          "bad-protx-dup-voting-key" "bad-protx-dup-operator-key")));
  with_ptr pExtraList (fun extra => with_ptr pindexPrev (fun p => when (cp.(nTieredMNActivationHeight) <=? next_height p)
    (check_duplicates extra proTx "bad-protx-dup-addr-intrablock" "bad-protx-dup-owner-key-intrablock"
       "bad-protx-dup-collateral-intrablock" "bad-protx-dup-voting-key-intrablock" "bad-protx-dup-operator-key-intrablock"))).

(** The operator's signature over [signHash], with the key the list records. *)
Definition check_operator_sig (key vchSig : bytes) (signHash : uint256) : result reject unit :=
  operatorPubKey ← get (PublicKey_SetBytes key) (DoS 100 REJECT_INVALID "bad-protx-operator-key-invalid");
  sig ← get (Signature_SetBytes vchSig) (DoS 100 REJECT_INVALID "bad-protx-sig-invalid");
  require (VerifyWithDomain (Some sig) (Some operatorPubKey) signHash OPERATOR_KEY)
    (DoS 100 REJECT_INVALID "bad-protx-sig-verify-failed").

(** An address in [l] that is not the one of [proTxHash]. *)
Definition addr_taken (l : CDeterministicMNList) (a : CService) (id : uint256) : bool :=
  HasUniqueProperty l (prop_hash (PAddr a))
  && match GetMNByService l a with Some mn => negb (mn.(proTxHash) =? id) | None => true end.

(** The list and the masternode an update refers to. *)
Definition find_mn (getList : CBlockIndex -> option CDeterministicMNList) (p : CBlockIndex) (id : uint256)
  : result reject (CDeterministicMNList * CDeterministicMN) :=
  mnList ← get (getList p) (DoS 10 REJECT_INVALID "bad-protx-no-mn-list");
  mn ← get (GetMN mnList id) (DoS 100 REJECT_INVALID "bad-protx-hash");
  Ok (mnList, mn).

(** The cooldown since the last update of its kind. *)
Definition cooling (p : CBlockIndex) (last cooldown : Z) : bool :=
  (cp.(nTieredMNActivationHeight) <=? next_height p) && (0 <? last) && (next_height p - last <? cooldown).

Definition CheckProUpServTx (tx : CTransaction) (pindexPrev : option CBlockIndex)
  (pExtraList : option CDeterministicMNList) : result reject unit :=
  _ ← require (tx.(nType) =? tx_type_code TRANSACTION_PROVIDER_UPDATE_SERVICE) (DoS 100 REJECT_INVALID "bad-protx-type");
  proTx ← get (GetTxPayload c_upserv tx) (DoS 100 REJECT_INVALID "bad-protx-payload");
  _ ← require (proTx.(us_nVersion) =? UPSERV_CURRENT_VERSION) (DoS 100 REJECT_INVALID "bad-protx-version");
  _ ← check_addr proTx.(us_addr);
  _ ← CheckInputsHash tx proTx.(us_inputsHash);
  with_ptr pindexPrev (fun p => with_ptr manager (fun getList =>
    '(mnList, mn) ← find_mn getList p proTx.(us_proTxHash);
    _ ← require (negb (cooling p mn.(mn_state).(nLastServiceUpdateHeight) cp.(nProUpServCooldown)))
          (DoS 10 REJECT_INVALID "bad-protx-service-cooldown");
    _ ← require (negb (addr_taken mnList proTx.(us_addr) proTx.(us_proTxHash))) (DoS 100 REJECT_DUPLICATE "bad-protx-dup-addr");
    _ ← require (negb ((cp.(nMNv2MigrationHeight) <=? next_height p) && (proTx.(us_addr).(port) =? 0)))
          (DoS 10 REJECT_INVALID "bad-protx-addr-port-zero");
    _ ← with_ptr pExtraList (fun extra => when (cp.(nTieredMNActivationHeight) <=? next_height p)
          (require (negb (addr_taken extra proTx.(us_addr) proTx.(us_proTxHash)))
             (DoS 100 REJECT_DUPLICATE "bad-protx-dup-addr-intrablock")));
    check_operator_sig mn.(mn_state).(vchOperatorPubKey) proTx.(us_vchSig) (UpServ_GetSignatureHash proTx))).

(** A voting or operator key that the update changes. *)
Definition voting_changes (proTx : CProUpRegTx) (mn : CDeterministicMN) : bool :=
  negb (proTx.(ur_keyIDVoting) =? 0) && negb (proTx.(ur_keyIDVoting) =? mn.(mn_state).(keyIDVoting)).
Definition operator_changes (proTx : CProUpRegTx) (mn : CDeterministicMN) : bool :=
  negb (bytes_eq proTx.(ur_vchOperatorPubKey) [])
  && negb (bytes_eq proTx.(ur_vchOperatorPubKey) mn.(mn_state).(vchOperatorPubKey)).

Definition CheckProUpRegTx (tx : CTransaction) (pindexPrev : option CBlockIndex)
  (pExtraList : option CDeterministicMNList) : result reject unit :=
  _ ← require (tx.(nType) =? tx_type_code TRANSACTION_PROVIDER_UPDATE_REGISTRAR) (DoS 100 REJECT_INVALID "bad-protx-type");
  proTx ← get (GetTxPayload c_upreg tx) (DoS 100 REJECT_INVALID "bad-protx-payload");
  _ ← require (negb ((proTx.(ur_nVersion) <? UPREG_MIN_VERSION) || (UPREG_CURRENT_VERSION <? proTx.(ur_nVersion))))
        (DoS 100 REJECT_INVALID "bad-protx-version");
  _ ← require (bytes_eq proTx.(ur_vchOperatorPubKey) [] || (length proTx.(ur_vchOperatorPubKey) =? 48)%nat)
        (DoS 100 REJECT_INVALID "bad-protx-operator-key-size");
  _ ← require (bytes_eq proTx.(ur_scriptPayout) [] || payout_ok proTx.(ur_scriptPayout))
        (DoS 100 REJECT_INVALID "bad-protx-payout-script");
  _ ← CheckInputsHash tx proTx.(ur_inputsHash);
  with_ptr pindexPrev (fun p => with_ptr manager (fun getList =>
    '(mnList, mn) ← find_mn getList p proTx.(ur_proTxHash);
    _ ← require (negb (cooling p mn.(mn_state).(nLastRegistrarUpdateHeight) cp.(nProUpRegCooldown)))
          (DoS 10 REJECT_INVALID "bad-protx-registrar-cooldown");
    _ ← require (check_owner_sig (UpReg_GetSignatureHash proTx) proTx.(ur_vchSig) mn.(mn_state).(keyIDOwner))
          (DoS 100 REJECT_INVALID "bad-protx-sig");
    _ ← when (voting_changes proTx mn)
          (require (negb (HasUniqueProperty mnList (prop_hash (PVoting proTx.(ur_keyIDVoting)))))
             (DoS 100 REJECT_DUPLICATE "bad-protx-dup-voting-key"));
    _ ← when (operator_changes proTx mn)
          (_ ← require (negb (HasUniqueProperty mnList (prop_hash (POperator proTx.(ur_vchOperatorPubKey)))))
                 (DoS 100 REJECT_DUPLICATE "bad-protx-dup-operator-key");
           _ ← get (PublicKey_SetBytes proTx.(ur_vchOperatorPubKey)) (DoS 100 REJECT_INVALID "bad-protx-new-operator-key-invalid");
           _ ← require (is_some (PublicKey_SetBytes proTx.(ur_vchOperatorPubKey)))
                 (DoS 100 REJECT_INVALID "bad-protx-new-operator-key-null");
           require (UpReg_VerifyProofOfPossession proTx) (DoS 100 REJECT_INVALID "bad-protx-new-operator-pop"));
    with_ptr pExtraList (fun extra => when (cp.(nTieredMNActivationHeight) <=? next_height p)
      (_ ← when (voting_changes proTx mn)
             (require (negb (HasUniqueProperty extra (prop_hash (PVoting proTx.(ur_keyIDVoting)))))
                (DoS 100 REJECT_DUPLICATE "bad-protx-dup-voting-key-intrablock"));
       when (operator_changes proTx mn)
         (require (negb (HasUniqueProperty extra (prop_hash (POperator proTx.(ur_vchOperatorPubKey)))))
            (DoS 100 REJECT_DUPLICATE "bad-protx-dup-operator-key-intrablock")))))).

Definition CheckProUpRevTx (tx : CTransaction) (pindexPrev : option CBlockIndex) : result reject unit :=
  _ ← require (tx.(nType) =? tx_type_code TRANSACTION_PROVIDER_UPDATE_REVOKE) (DoS 100 REJECT_INVALID "bad-protx-type");
  proTx ← get (GetTxPayload c_uprev tx) (DoS 100 REJECT_INVALID "bad-protx-payload");
  _ ← require (proTx.(rv_nVersion) =? UPREV_CURRENT_VERSION) (DoS 100 REJECT_INVALID "bad-protx-version");
  _ ← require (proTx.(rv_nReason) <=? REASON_CHANGE_OF_KEYS) (DoS 100 REJECT_INVALID "bad-protx-reason");
  _ ← CheckInputsHash tx proTx.(rv_inputsHash);
  with_ptr pindexPrev (fun p => with_ptr manager (fun getList =>
    '(mnList, mn) ← find_mn getList p proTx.(rv_proTxHash);
    _ ← require (negb (IsBanned mn.(mn_state))) (DoS 10 REJECT_INVALID "bad-protx-already-banned");
    check_operator_sig mn.(mn_state).(vchOperatorPubKey) proTx.(rv_vchSig) (UpRev_GetSignatureHash proTx))).

(** ** Quorum commitments *)

Definition count_set (v : bytes) : nat := length (filter (fun x => negb (x =? 0) = true) v).
Definition CountSigners (q : CQuorumCommitmentTx) : nat := count_set q.(qc_signers).
Definition CountValidMembers (q : CQuorumCommitmentTx) : nat := count_set q.(qc_validMembers).

(** The keys of the members whose signer byte is set; [None] when one does not parse. *)
Fixpoint signer_keys (signers : bytes) (memberPubKeys : list bytes) : option (list (option bytes)) :=
  match signers, memberPubKeys with
  | s :: signers', k :: ks =>
    if s =? 0 then signer_keys signers' ks
    else pk ← PublicKey_SetBytes k; rest ← signer_keys signers' ks; Some (Some pk :: rest)
  | _, _ => Some []
  end.

Definition QC_Verify (q : CQuorumCommitmentTx) (memberPubKeys : list bytes) : bool :=
  if negb (length q.(qc_signers) =? length memberPubKeys)%nat then false
  else if negb (length q.(qc_validMembers) =? length memberPubKeys)%nat then false
  else if negb (length q.(qc_vchQuorumPublicKey) =? 48)%nat then false
  else if negb (length q.(qc_vchMembersSig) =? 96)%nat then false
  else if negb (is_some (PublicKey_SetBytes q.(qc_vchQuorumPublicKey))) then false
  else match Signature_SetBytes q.(qc_vchMembersSig) with
  | None => false
  | membersSig =>
    match signer_keys q.(qc_signers) memberPubKeys with
    | None | Some [] => false
    | Some signerPks =>
      match AggregatePublicKeys signerPks with
      | None => false
      | aggPk => VerifyWithDomain membersSig aggPk (QC_GetSignatureHash q) QUORUM
      end
    end
  end.

(** [ForEachMN(true, ...)]. *)
Definition member_keys (l : CDeterministicMNList) : list bytes :=
  (fun mn => mn.(mn_state).(vchOperatorPubKey)) <$> filter (fun mn => IsValid mn = true) (mns l).

(** The source dereferences the manager without a test; [no_manager] stands for
    the crash. *)
Definition no_manager : reject := DoS 0 0 "null-manager".

Definition CheckQuorumCommitmentTx (tx : CTransaction) (pindexPrev : option CBlockIndex) : result reject unit :=
  _ ← require (tx.(nType) =? tx_type_code TRANSACTION_QUORUM_COMMITMENT) (DoS 100 REJECT_INVALID "bad-qc-type");
  qcTx ← get (GetTxPayload c_qc tx) (DoS 100 REJECT_INVALID "bad-qc-payload");
  _ ← require (qcTx.(qc_nVersion) =? QC_CURRENT_VERSION) (DoS 100 REJECT_INVALID "bad-qc-version");
  _ ← with_ptr pindexPrev (fun p => require (qcTx.(qc_quorumHeight) <=? p.(bi_height))
        (DoS 100 REJECT_INVALID "bad-qc-future-height"));
  with_ptr pindexPrev (fun p =>
    pindexQuorum ← get (GetAncestor p qcTx.(qc_quorumHeight)) (DoS 100 REJECT_INVALID "bad-qc-height-not-found");
    _ ← require (pindexQuorum.(bi_hash) =? qcTx.(qc_quorumHash)) (DoS 100 REJECT_INVALID "bad-qc-hash-mismatch");
    getList ← get manager no_manager;
    mnList ← get (getList pindexQuorum) (DoS 10 REJECT_INVALID "bad-qc-no-mn-list");
    let memberPubKeys := member_keys mnList in
    let minSigners := ((length memberPubKeys * 60 + 99) / 100)%nat in
    _ ← require (minSigners <=? CountSigners qcTx)%nat (DoS 100 REJECT_INVALID "bad-qc-not-enough-signers");
    require (QC_Verify qcTx memberPubKeys) (DoS 100 REJECT_INVALID "bad-qc-sig-verify-failed")).

(** ** Any special transaction *)

Definition CheckSpecialTx (tx : CTransaction) (pindexPrev : option CBlockIndex)
  (pExtraList : option CDeterministicMNList) : result reject unit :=
  if negb (IsTxTypeSpecial tx) then Ok tt
  else match GetTxType tx with
  | TRANSACTION_PROVIDER_REGISTER => CheckProRegTx tx pindexPrev pExtraList
  | TRANSACTION_PROVIDER_UPDATE_SERVICE => CheckProUpServTx tx pindexPrev pExtraList
  | TRANSACTION_PROVIDER_UPDATE_REGISTRAR => CheckProUpRegTx tx pindexPrev pExtraList
  | TRANSACTION_PROVIDER_UPDATE_REVOKE => CheckProUpRevTx tx pindexPrev
  | TRANSACTION_QUORUM_COMMITMENT => CheckQuorumCommitmentTx tx pindexPrev
  | _ => Err (DoS 100 REJECT_INVALID "bad-tx-type-unknown")
  end.

(** ** A block *)

(** The masternode a registration creates at a height; the tier field keeps
    its default without a coins view. *)
Definition registered_mn (tx : CTransaction) (proTx : CProRegTx) (height id : Z) : CDeterministicMN :=
  MkMN (GetHash tx) proTx.(pr_collateralOutpoint) proTx.(pr_nOperatorReward)
    (MkState height 0 0 (-1) (-1) 0
       match coins with
       | Some access => GetMasternodeTier cp (access proTx.(pr_collateralOutpoint)).(out).(nValue) height
       | None => 1
       end 0 0
       proTx.(pr_keyIDOwner) proTx.(pr_vchOperatorPubKey) proTx.(pr_keyIDVoting) proTx.(pr_addr)
       proTx.(pr_scriptPayout) []) id.

(** The states an update writes into the intra-block list. *)
Definition intra_service (s : CDeterministicMNState) (p : CProUpServTx) : CDeterministicMNState :=
  MkState s.(nRegisteredHeight) s.(nLastPaidHeight) s.(nPoSePenalty) s.(nPoSeRevivedHeight) s.(nPoSeBanHeight)
    s.(nRevocationReason) s.(nTier) s.(nLastServiceUpdateHeight) s.(nLastRegistrarUpdateHeight) s.(keyIDOwner)
    s.(vchOperatorPubKey) s.(keyIDVoting) p.(us_addr) s.(scriptPayout) s.(scriptOperatorPayout).
Definition intra_registrar (s : CDeterministicMNState) (p : CProUpRegTx) : CDeterministicMNState :=
  MkState s.(nRegisteredHeight) s.(nLastPaidHeight) s.(nPoSePenalty) s.(nPoSeRevivedHeight) s.(nPoSeBanHeight)
    s.(nRevocationReason) s.(nTier) s.(nLastServiceUpdateHeight) s.(nLastRegistrarUpdateHeight) s.(keyIDOwner)
    (if bytes_eq p.(ur_vchOperatorPubKey) [] then s.(vchOperatorPubKey) else p.(ur_vchOperatorPubKey))
    (if p.(ur_keyIDVoting) =? 0 then s.(keyIDVoting) else p.(ur_keyIDVoting))
    s.(mn_addr)
    (if bytes_eq p.(ur_scriptPayout) [] then s.(scriptPayout) else p.(ur_scriptPayout)) s.(scriptOperatorPayout).
Definition intra_revoke (s : CDeterministicMNState) (p : CProUpRevTx) (height : Z) : CDeterministicMNState :=
  MkState s.(nRegisteredHeight) s.(nLastPaidHeight) s.(nPoSePenalty) s.(nPoSeRevivedHeight) height
    p.(rv_nReason) s.(nTier) s.(nLastServiceUpdateHeight) s.(nLastRegistrarUpdateHeight) s.(keyIDOwner)
    s.(vchOperatorPubKey) s.(keyIDVoting) s.(mn_addr) s.(scriptPayout) s.(scriptOperatorPayout).

(** An update of a masternode that the intra-block list knows. *)
Definition intra_update (l : CDeterministicMNList) (id : uint256) (f : CDeterministicMNState -> CDeterministicMNState)
  : CDeterministicMNList :=
  match GetMN l id with Some mn => UpdateMN l id (f mn.(mn_state)) | None => l end.

(** The effects of a checked transaction on the intra-block list. *)
Definition intra_effect (height : Z) (l : CDeterministicMNList) (tx : CTransaction) : CDeterministicMNList :=
  if negb (IsTxTypeSpecial tx) then l
  else match GetTxType tx with
  | TRANSACTION_PROVIDER_REGISTER =>
    match GetTxPayload c_proreg tx with
    | Some p => AddMN l (registered_mn tx p height l.(nTotalRegisteredCount))
    | None => l
    end
  | TRANSACTION_PROVIDER_UPDATE_SERVICE =>
    match GetTxPayload c_upserv tx with
    | Some p => intra_update l p.(us_proTxHash) (fun s => intra_service s p)
    | None => l
    end
  | TRANSACTION_PROVIDER_UPDATE_REGISTRAR =>
    match GetTxPayload c_upreg tx with
    | Some p => intra_update l p.(ur_proTxHash) (fun s => intra_registrar s p)
    | None => l
    end
  | TRANSACTION_PROVIDER_UPDATE_REVOKE =>
    match GetTxPayload c_uprev tx with
    | Some p => intra_update l p.(rv_proTxHash) (fun s => intra_revoke s p height)
    | None => l
    end
  | _ => l
  end.

Definition MAX_SPECIAL_TXS_PER_BLOCK : nat := 50.

(** [ProcessSpecialTxsInBlock] up to the call of [ProcessBlock]: the check of
    every transaction, with the intra-block list at the end. *)
Definition check_block_txs (pindex : CBlockIndex) (vtx : list CTransaction) : result reject CDeterministicMNList :=
  let nSpecialTxCount := length (filter (fun tx => IsTxTypeSpecial tx = true) vtx) in
  _ ← require (negb ((cp.(nMNv2MigrationHeight) <=? pindex.(bi_height)) && (MAX_SPECIAL_TXS_PER_BLOCK <? nSpecialTxCount)%nat))
        (DoS 100 REJECT_INVALID "bad-blk-too-many-special-txs");
  foldM (fun l tx => _ ← CheckSpecialTx tx pindex.(pprev) (Some l); Ok (intra_effect pindex.(bi_height) l tx))
    (list_at pindex.(bi_hash) pindex.(bi_height)) vtx.

End Checks.

(** ** Codec laws *)

Definition valid_dep {A B} (va : A -> bool) (vb : A -> B -> bool) (p : A * B) : bool := va p.1 && vb p.1 p.2.
Definition valid_opt (present : bool) (valid : bytes -> bool) (v : bytes) : bool :=
  if present then valid v else bytes_eq v [].

Lemma depc_ok {A B} (CA : Codec A) (f : A -> Codec B) va vb `{!CodecOk CA va} :
  (forall a, CodecOk (f a) (vb a)) -> CodecOk (depc CA f) (valid_dep va vb).
Proof.
  intros Hf [a b] rest [Ha Hb]%andb_true_iff. cbn [de ser depc fst snd] in *. rewrite <- app_assoc.
  erewrite bind_ok by (by apply de_ser). by erewrite bind_ok by (by apply (Hf a)).
Qed.

Lemma depc_exact {A B} (CA : Codec A) (f : A -> Codec B) va vb `{!CodecExact CA va} :
  (forall a, CodecExact (f a) (vb a)) -> CodecExact (depc CA f) (valid_dep va vb).
Proof.
  intros Hf s [a b] rest Hs H. cbn [de ser depc fst snd] in *.
  apply bind_inv in H as (a' & s1 & H1 & H). apply bind_inv in H as (b' & s2 & H2 & H).
  apply mret_inv in H as [[= <- <-] <-]. apply ser_de in H1 as [-> Ha]; [|done].
  rewrite all_bytes_app in Hs. apply andb_true_iff in Hs as [_ Hs].
  apply (Hf a') in H2 as [-> Hb]; [|done]. rewrite <- app_assoc.
  unfold valid_dep. cbn. by rewrite Ha, Hb.
Qed.

Lemma optc_ok b : CodecOk (optc b bytevec []) (valid_opt b valid_bytes).
Proof.
  destruct b; [apply _|]. intros v rest H. cbn in *. destruct v; [done|done].
Qed.

Lemma optc_exact b : CodecExact (optc b bytevec []) (valid_opt b valid_bytes).
Proof. destruct b; [apply _|]. intros s v rest _ [<- <-]%mret_inv. done. Qed.

Definition valid_proreg_head : _ -> bool :=
  valid_pair (in_u 16) (valid_pair (in_u 16) (valid_pair (in_u 16) (valid_pair valid_outpoint (valid_pair CService.valid
   (valid_pair (in_u 160) (valid_pair valid_bytes (valid_pair (in_u 160) (valid_pair (in_u 16)
     (valid_pair valid_bytes (in_u 256)))))))))).
Definition valid_proreg (p : CProRegTx) : bool :=
  valid_proreg_head (proreg_head p) && valid_bytes p.(pr_vchSig)
  && valid_opt (2 <=? p.(pr_nVersion)) valid_bytes p.(pr_vchOperatorPoP).
Definition valid_upserv_head : _ -> bool :=
  valid_pair (in_u 16) (valid_pair (in_u 256) (valid_pair CService.valid (valid_pair valid_bytes (in_u 256)))).
Definition valid_upserv (p : CProUpServTx) : bool := valid_upserv_head (upserv_head p) && valid_bytes p.(us_vchSig).
Definition valid_upreg_head : _ -> bool :=
  valid_pair (in_u 16) (valid_pair (in_u 256) (valid_pair (in_u 16) (valid_pair valid_bytes
    (valid_pair (in_u 160) (valid_pair valid_bytes (in_u 256)))))).
Definition valid_upreg (p : CProUpRegTx) : bool :=
  valid_upreg_head (upreg_head p) && valid_bytes p.(ur_vchSig)
  && valid_opt (upreg_pop p.(ur_nVersion) p.(ur_vchOperatorPubKey)) valid_bytes p.(ur_vchOperatorPoP).
Definition valid_uprev_head : _ -> bool :=
  valid_pair (in_u 16) (valid_pair (in_u 256) (valid_pair (in_u 16) (in_u 256))).
Definition valid_uprev (p : CProUpRevTx) : bool := valid_uprev_head (uprev_head p) && valid_bytes p.(rv_vchSig).
Definition valid_qc_head : _ -> bool :=
  valid_pair (in_u 16) (valid_pair (in_u 8) (valid_pair (in_u 256) (valid_pair (in_s 32) (valid_pair valid_bytes
    (valid_pair valid_bytes (valid_pair valid_bytes (valid_vec valid_bytes))))))).
Definition valid_qc (p : CQuorumCommitmentTx) : bool := valid_qc_head (qc_head p) && valid_bytes p.(qc_vchMembersSig).

#[export] Instance proreg_ok : CodecOk c_proreg valid_proreg.
Proof.
  eapply isoc_ok; [apply depc_ok; [unfold c_proreg_head; apply _|intros; apply optc_ok]|].
  intros []; done.
Qed.
#[export] Instance proreg_exact : CodecExact c_proreg valid_proreg.
Proof.
  eapply isoc_exact; [apply depc_exact; [unfold c_proreg_head; apply _|intros; apply optc_exact]|].
  intros [[[v [t [m [c [a [o [k [g [r [s i]]]]]]]]]] sig] pop]; done.
Qed.
#[export] Instance upserv_ok : CodecOk c_upserv valid_upserv.
Proof. eapply isoc_ok; [unfold c_upserv_head; apply _|]. intros []; done. Qed.
#[export] Instance upserv_exact : CodecExact c_upserv valid_upserv.
Proof. eapply isoc_exact; [unfold c_upserv_head; apply _|]. intros [[v [h [a [s i]]]] sig]; done. Qed.
#[export] Instance upreg_ok : CodecOk c_upreg valid_upreg.
Proof.
  eapply isoc_ok; [apply depc_ok; [unfold c_upreg_head; apply _|intros; apply optc_ok]|].
  intros []; done.
Qed.
#[export] Instance upreg_exact : CodecExact c_upreg valid_upreg.
Proof.
  eapply isoc_exact; [apply depc_exact; [unfold c_upreg_head; apply _|intros; apply optc_exact]|].
  intros [[[v [h [m [k [g [s i]]]]]] sig] pop]; done.
Qed.
#[export] Instance uprev_ok : CodecOk c_uprev valid_uprev.
Proof. eapply isoc_ok; [unfold c_uprev_head; apply _|]. intros []; done. Qed.
#[export] Instance uprev_exact : CodecExact c_uprev valid_uprev.
Proof. eapply isoc_exact; [unfold c_uprev_head; apply _|]. intros [[v [h [r i]]] sig]; done. Qed.
#[export] Instance qc_ok : CodecOk c_qc valid_qc.
Proof. eapply isoc_ok; [unfold c_qc_head; apply _|]. intros []; done. Qed.
#[export] Instance qc_exact : CodecExact c_qc valid_qc.
Proof. eapply isoc_exact; [unfold c_qc_head; apply _|]. intros [[v [t [h [n [s [m [k w]]]]]]] sig]; done. Qed.

(** A payload is read exactly when the bytes are its own encoding. *)
Lemma GetTxPayload_spec {A} (C : Codec A) va `{!CodecOk C va, !CodecExact C va} tx p :
  all_bytes tx.(vExtraPayload) = true ->
  GetTxPayload C tx = Some p <-> tx.(vExtraPayload) = ser C p /\ va p = true.
Proof.
  intros Hb. unfold GetTxPayload. split.
  - destruct (de C (vExtraPayload tx)) as [[q [|]]|] eqn:E; try done. intros [= ->].
    apply ser_de in E as [E ?]; [|done]. by rewrite app_nil_r in E.
  - intros [-> Hv]. pose proof (de_ser p [] Hv) as E. rewrite app_nil_r in E. by rewrite E.
Qed.

(** ** Inverting checks *)

Lemma get_Ok {A} (p : option A) e a : get p e = Ok a <-> p = Some a.
Proof. destruct p; cbn; naive_solver. Qed.

(** Splits an accepted check into the facts its guards established. *)
Ltac accepted H :=
  repeat match type of H with
  | _ ≫= _ = Ok _ => let a := fresh "a" in let H1 := fresh "HA" in
      apply bind_Ok in H as (a & H1 & H); accepted H1
  | require _ _ = Ok _ => apply require_Ok in H
  | get _ _ = Ok _ => apply get_Ok in H
  | CheckInputsHash _ _ = Ok _ => apply require_Ok in H; apply Z.eqb_eq in H
  end.

Section Authorisation.
Context `{HH : Hash256} `{CR : Crypto}.
Context (cp : Params) (getList : CBlockIndex -> option CDeterministicMNList) (coins : option (COutPoint -> Coin)).

(** ** What acceptance promises *)

(** The compact signature recovers to the key with this id. *)
Definition owner_signed (hash : uint256) (sig : bytes) (keyID : uint160) : Prop :=
  exists pubkey, RecoverCompact hash sig = Some pubkey /\ Hash160 pubkey = keyID.

(** The pairing check holds, in the domain, for points of the right groups. *)
Definition bls_signed (key sig : bytes) (hash : uint256) (domain : string) : Prop :=
  exists p s, length key = 48%nat /\ p1_uncompress key = Some p /\ p1_in_g1 p = true
  /\ length sig = 96%nat /\ p2_uncompress sig = Some s /\ p2_in_g2 s = true
  /\ core_verify p s (le_bytes 32 hash) (str DST_PREFIX ++ str domain) = true.

(** An unspent coin of a collateral amount that is deep enough. *)
Definition collateral_backed (p : CBlockIndex) (o : COutPoint) : Prop :=
  exists access, coins = Some access /\ IsSpent (access o) = false
  /\ IsValidCollateralAmount cp (access o).(out).(nValue) (next_height p) = true
  /\ (access o).(coin_nHeight) + cp.(nMasternodeCollateralConfirmations) <= next_height p.

(** Members of [l] whose byte is set, at least 60% of all, signed the commitment. *)
Definition quorum_signed (q : CQuorumCommitmentTx) (l : CDeterministicMNList) : Prop :=
  exists pks agg, (length (member_keys l) * 60 <= CountSigners q * 100)%nat
  /\ length q.(qc_signers) = length (member_keys l)
  /\ signer_keys q.(qc_signers) (member_keys l) = Some pks
  /\ AggregatePublicKeys pks = Some agg
  /\ VerifyWithDomain (Some q.(qc_vchMembersSig)) (Some agg) (QC_GetSignatureHash q) QUORUM = true.

Definition authorised (p : CBlockIndex) (l : CDeterministicMNList) (tx : CTransaction) : Prop :=
  match GetTxType tx with
  | TRANSACTION_PROVIDER_REGISTER => exists q, GetTxPayload c_proreg tx = Some q
      /\ q.(pr_inputsHash) = CalcTxInputsHash tx
      /\ owner_signed (ProReg_GetSignatureHash q) q.(pr_vchSig) q.(pr_keyIDOwner)
      /\ bls_signed q.(pr_vchOperatorPubKey) q.(pr_vchOperatorPoP) (ProReg_GetPoPSignatureHash q) OPERATOR_KEY
      /\ collateral_backed p q.(pr_collateralOutpoint)
  | TRANSACTION_PROVIDER_UPDATE_SERVICE => exists q mn, GetTxPayload c_upserv tx = Some q
      /\ q.(us_inputsHash) = CalcTxInputsHash tx /\ GetMN l q.(us_proTxHash) = Some mn
      /\ bls_signed mn.(mn_state).(vchOperatorPubKey) q.(us_vchSig) (UpServ_GetSignatureHash q) OPERATOR_KEY
  | TRANSACTION_PROVIDER_UPDATE_REGISTRAR => exists q mn, GetTxPayload c_upreg tx = Some q
      /\ q.(ur_inputsHash) = CalcTxInputsHash tx /\ GetMN l q.(ur_proTxHash) = Some mn
      /\ owner_signed (UpReg_GetSignatureHash q) q.(ur_vchSig) mn.(mn_state).(keyIDOwner)
      /\ (operator_changes q mn = true ->
          bls_signed q.(ur_vchOperatorPubKey) q.(ur_vchOperatorPoP) (UpReg_GetPoPSignatureHash q) OPERATOR_KEY)
  | TRANSACTION_PROVIDER_UPDATE_REVOKE => exists q mn, GetTxPayload c_uprev tx = Some q
      /\ q.(rv_inputsHash) = CalcTxInputsHash tx /\ GetMN l q.(rv_proTxHash) = Some mn
      /\ IsBanned mn.(mn_state) = false
      /\ bls_signed mn.(mn_state).(vchOperatorPubKey) q.(rv_vchSig) (UpRev_GetSignatureHash q) OPERATOR_KEY
  | TRANSACTION_QUORUM_COMMITMENT => exists q b lq, GetTxPayload c_qc tx = Some q
      /\ GetAncestor p q.(qc_quorumHeight) = Some b /\ b.(bi_hash) = q.(qc_quorumHash)
      /\ getList b = Some lq /\ quorum_signed q lq
  | _ => False
  end.

Lemma check_owner_sig_spec hash sig key : check_owner_sig hash sig key = true -> owner_signed hash sig key.
Proof. unfold check_owner_sig, owner_signed. case_match; [|done]. intros ?%Z.eqb_eq. eauto. Qed.

Lemma PublicKey_SetBytes_spec k pk : PublicKey_SetBytes k = Some pk ->
  pk = k /\ length k = 48%nat /\ exists p, p1_uncompress k = Some p /\ p1_in_g1 p = true.
Proof.
  unfold PublicKey_SetBytes, BLS_PUBLIC_KEY_SIZE. destruct (Nat.eqb_spec (length k) 48); [|done]. cbn [negb].
  destruct (p1_uncompress k) as [p|]; [|done]. destruct (p1_in_g1 p) eqn:E; [|done].
  intros [= <-]. eauto.
Qed.

Lemma Signature_SetBytes_spec k sg : Signature_SetBytes k = Some sg ->
  sg = k /\ length k = 96%nat /\ exists p, p2_uncompress k = Some p /\ p2_in_g2 p = true.
Proof.
  unfold Signature_SetBytes, BLS_SIGNATURE_SIZE. destruct (Nat.eqb_spec (length k) 96); [|done]. cbn [negb].
  destruct (p2_uncompress k) as [p|]; [|done]. destruct (p2_in_g2 p) eqn:E; [|done].
  intros [= <-]. eauto.
Qed.

Lemma VerifyWithDomain_signed k pk s sg hash domain :
  PublicKey_SetBytes k = Some pk -> Signature_SetBytes s = Some sg ->
  VerifyWithDomain (Some sg) (Some pk) hash domain = true -> bls_signed k s hash domain.
Proof.
  intros (->&?&p&Hp&?)%PublicKey_SetBytes_spec (->&?&q&Hq&?)%Signature_SetBytes_spec.
  unfold VerifyWithDomain. rewrite Hp, Hq. intros. exists p, q. split_and!; done.
Qed.

Lemma check_operator_sig_spec key sig hash u : check_operator_sig key sig hash = Ok u ->
  bls_signed key sig hash OPERATOR_KEY.
Proof. unfold check_operator_sig. intros H. accepted H. by eapply VerifyWithDomain_signed. Qed.

Lemma ProReg_pop_spec q : ProReg_VerifyProofOfPossession q = true ->
  bls_signed q.(pr_vchOperatorPubKey) q.(pr_vchOperatorPoP) (ProReg_GetPoPSignatureHash q) OPERATOR_KEY.
Proof.
  unfold ProReg_VerifyProofOfPossession. repeat (case_match; [done|]).
  destruct (PublicKey_SetBytes _) eqn:E1; [|done]. destruct (Signature_SetBytes _) eqn:E2; [|done].
  by apply VerifyWithDomain_signed.
Qed.

Lemma UpReg_pop_spec q : bytes_eq q.(ur_vchOperatorPubKey) [] = false -> UpReg_VerifyProofOfPossession q = true ->
  bls_signed q.(ur_vchOperatorPubKey) q.(ur_vchOperatorPoP) (UpReg_GetPoPSignatureHash q) OPERATOR_KEY.
Proof.
  unfold UpReg_VerifyProofOfPossession. intros ->. repeat (case_match; [done|]).
  destruct (PublicKey_SetBytes _) eqn:E1; [|done]. destruct (Signature_SetBytes _) eqn:E2; [|done].
  by apply VerifyWithDomain_signed.
Qed.

Lemma check_collateral_spec p o u : check_collateral cp coins (Some p) o = Ok u -> collateral_backed p o.
Proof.
  unfold check_collateral. intros H. accepted H. exists a. apply negb_true_iff in HA0.
  split_and!; try done. lia.
Qed.

Lemma find_mn_spec p id l l' mn : getList p = Some l -> find_mn getList p id = Ok (l', mn) ->
  l' = l /\ GetMN l id = Some mn.
Proof. unfold find_mn. intros Hl H. accepted H. rewrite Hl in HA. injection HA as <-. by inv H. Qed.

Lemma QC_Verify_spec q l : QC_Verify q (member_keys l) = true ->
  ((length (member_keys l) * 60 + 99) / 100 <= CountSigners q)%nat -> quorum_signed q l.
Proof.
  unfold QC_Verify. intros H Hn. repeat (case_match; [done|]).
  destruct (Signature_SetBytes _) as [sg|] eqn:E2; [|done].
  destruct (signer_keys _ _) as [[|pk pks]|] eqn:E3; [done| |done].
  destruct (AggregatePublicKeys _) as [agg|] eqn:E4; [|done].
  apply Signature_SetBytes_spec in E2 as (->&_). exists (pk :: pks), agg.
  split_and!; try done.
  - pose proof (Nat.div_mod (length (member_keys l) * 60 + 99) 100). 
    pose proof (Nat.mod_upper_bound (length (member_keys l) * 60 + 99) 100). lia.
  - by apply Nat.eqb_eq, negb_false_iff.
Qed.

(** The masternode an accepted update found. *)
Ltac found Hl mn Hmn :=
  match goal with Hf : find_mn _ _ _ = Ok ?x |- _ =>
    destruct x as [? mn]; apply (find_mn_spec _ _ _ _ _ Hl) in Hf as [-> Hmn]; cbn beta iota in * end.

(** Facts of one accepted check. *)
Lemma CheckProRegTx_facts tx p extra : CheckProRegTx cp (Some getList) coins tx (Some p) extra = Ok tt ->
  exists q, GetTxPayload c_proreg tx = Some q
  /\ CalcTxInputsHash tx = q.(pr_inputsHash)
  /\ ProReg_VerifyProofOfPossession q = true
  /\ check_owner_sig (ProReg_GetSignatureHash q) q.(pr_vchSig) q.(pr_keyIDOwner) = true
  /\ check_collateral cp coins (Some p) q.(pr_collateralOutpoint) = Ok tt
  /\ (forall l, getList p = Some l -> exists a b c d e, check_duplicates l q a b c d e = Ok tt)
  /\ (forall l, extra = Some l -> cp.(nTieredMNActivationHeight) <= next_height p ->
       exists a b c d e, check_duplicates l q a b c d e = Ok tt).
Proof.
  unfold CheckProRegTx. intros H. accepted H. exists a0. destruct a13. split_and!; try done.
  - intros l Hl. cbn [with_ptr] in HA15. rewrite Hl in HA15. destruct a15. cbn [with_ptr] in HA15. eauto 10.
  - intros l -> Hh. cbn [with_ptr when] in H. rewrite (proj2 (Z.leb_le _ _)) in H by done. eauto 10.
Qed.

Lemma CheckProUpRegTx_pop tx p extra l q mn : CheckProUpRegTx cp (Some getList) tx (Some p) extra = Ok tt ->
  getList p = Some l -> GetTxPayload c_upreg tx = Some q -> GetMN l q.(ur_proTxHash) = Some mn ->
  q.(ur_inputsHash) = CalcTxInputsHash tx
  /\ owner_signed (UpReg_GetSignatureHash q) q.(ur_vchSig) mn.(mn_state).(keyIDOwner)
  /\ (operator_changes q mn = true -> UpReg_VerifyProofOfPossession q = true).
Proof.
  unfold CheckProUpRegTx. intros H Hl Hq Hmn. accepted H.
  assert (a0 = q) as -> by congruence. cbn [with_ptr] in H. accepted H.
  found Hl mn' Hmn'. assert (mn' = mn) as -> by congruence. accepted H.
  split_and!; [done|by apply check_owner_sig_spec|].
  intros Hc. rewrite Hc in HA8. cbn [when] in HA8. by accepted HA8.
Qed.

Lemma accepted_facts (tx : CTransaction) (p : CBlockIndex) (extra : option CDeterministicMNList)
  (l : CDeterministicMNList) :
  getList p = Some l -> IsTxTypeSpecial tx = true ->
  CheckSpecialTx cp (Some getList) coins tx (Some p) extra = Ok tt -> authorised p l tx.
Proof.
  intros Hl Hs. unfold CheckSpecialTx, authorised. rewrite Hs. cbn [negb].
  destruct (GetTxType tx); try done; intros H.
  - apply CheckProRegTx_facts in H as (q&?&?&?&?&?&_).
    exists q. split_and!; [done|done|by apply check_owner_sig_spec|by apply ProReg_pop_spec|].
    by eapply check_collateral_spec.
  - unfold CheckProUpServTx in H. accepted H. cbn [with_ptr] in H. accepted H. found Hl mn Hmn. accepted H.
    exists a0, mn. split_and!; try done. by eapply check_operator_sig_spec.
  - assert (exists q mn, GetTxPayload c_upreg tx = Some q /\ GetMN l q.(ur_proTxHash) = Some mn) as (q&mn&Hq&Hmn).
    { unfold CheckProUpRegTx in H. accepted H. cbn [with_ptr] in H. accepted H. found Hl mn Hmn. eauto. }
    destruct (CheckProUpRegTx_pop _ _ _ _ _ _ H Hl Hq Hmn) as (?&?&Hpop).
    exists q, mn. split_and!; try done. intros Hc. apply UpReg_pop_spec; [|by apply Hpop].
    unfold operator_changes in Hc. apply andb_true_iff in Hc as [Hc _]. by apply negb_true_iff in Hc.
  - unfold CheckProUpRevTx in H. accepted H. cbn [with_ptr] in H. accepted H. found Hl mn Hmn. accepted H.
    exists a0, mn. split_and!; try done; [by apply negb_true_iff|by eapply check_operator_sig_spec].
  - unfold CheckQuorumCommitmentTx in H. accepted H. cbn [with_ptr] in H. accepted H.
    injection HA5 as <-. apply Z.eqb_eq in HA4. apply Nat.leb_le in HA7.
    exists a0, a3, a6. split_and!; try done. by apply QC_Verify_spec.
Qed.

(** ** The registrations of a block *)

Definition registration (tx : CTransaction) : option CProRegTx :=
  if IsTxTypeSpecial tx then
    match GetTxType tx with TRANSACTION_PROVIDER_REGISTER => GetTxPayload c_proreg tx | _ => None end
  else None.

(** The masternodes that the registrations among [vtx] add to a list. *)
Definition add_registration (height : Z) (l : CDeterministicMNList) (tx : CTransaction) : CDeterministicMNList :=
  match registration tx with
  | Some q => AddMN l (registered_mn cp coins tx q height l.(nTotalRegisteredCount))
  | None => l
  end.
Definition add_registrations (height : Z) (l : CDeterministicMNList) (vtx : list CTransaction) : CDeterministicMNList :=
  foldl (add_registration height) l vtx.

Definition registered_ids (vtx : list CTransaction) : list uint256 :=
  GetHash <$> filter (fun tx => is_some (registration tx) = true) vtx.

(** The list [L] is [l] with what the intra-block list [I] holds. *)
Record overlay (l I L : CDeterministicMNList) : Prop := {
  ov_wf : WF L;
  ov_intra : WF I;
  ov_map : forall k, L.(mnMap) !! k = None <-> l.(mnMap) !! k = None /\ I.(mnMap) !! k = None;
  ov_index : forall h, L.(mnUniquePropertyMap) !! h = None
             <-> l.(mnUniquePropertyMap) !! h = None /\ I.(mnUniquePropertyMap) !! h = None;
}.

Lemma HasUniqueProperty_free l h : negb (HasUniqueProperty l h) = true -> l.(mnUniquePropertyMap) !! h = None.
Proof. unfold HasUniqueProperty. by case_match. Qed.

Lemma check_duplicates_free l q a b c d e tx height id : WF l -> check_duplicates l q a b c d e = Ok tt ->
  forall pr, pr ∈ props (registered_mn cp coins tx q height id) -> l.(mnUniquePropertyMap) !! prop_hash pr = None.
Proof.
  intros WFl H. unfold check_duplicates in H. accepted H.
  assert (l.(mnUniquePropertyMap) !! prop_hash (PCollateral q.(pr_collateralOutpoint)) = None) as Hc.
  { unfold GetMNByCollateral, GetMNByProp, GetMN in HA1.
    destruct (mnUniquePropertyMap l !! _) as [k|] eqn:E; [|done].
    destruct (wf_owned l WFl _ _ E) as (mn&pr&Hm&_). cbn in HA1. by rewrite Hm in HA1. }
  intros pr. unfold props, registered_mn. cbn. rewrite !elem_of_cons, elem_of_nil.
  intros [->|[->|[->|[->|[->|[]]]]]]; auto using HasUniqueProperty_free.
Qed.

Lemma valid_registered tx q height id : valid_proreg q = true -> valid_mn (registered_mn cp coins tx q height id) = true.
Proof.
  unfold valid_proreg, valid_proreg_head, valid_pair, proreg_head. cbn [fst snd]. intros H.
  repeat match goal with H : _ && _ = true |- _ => apply andb_true_iff in H as [? ?] end.
  apply andb_true_iff. split; [apply hash256_range|]. unfold props, registered_mn. cbn [forallb valid_prop collateralOutpoint
    mn_state mn_addr keyIDOwner keyIDVoting vchOperatorPubKey].
  repeat match goal with H : ?b = true |- context [?b] => rewrite H; clear H end. done.
Qed.

Lemma AddMN_map_None l mn k : (AddMN l mn).(mnMap) !! k = None <-> l.(mnMap) !! k = None /\ k <> mn.(proTxHash).
Proof. unfold AddMN, AddMNInPlace. cbn. rewrite lookup_insert_None. naive_solver. Qed.

Lemma AddMN_index_None l mn h : (AddMN l mn).(mnUniquePropertyMap) !! h = None
  <-> l.(mnUniquePropertyMap) !! h = None /\ h ∉ prop_hash <$> props mn.
Proof. unfold AddMN, AddMNInPlace. cbn. rewrite index_mn_lookup. case_decide; naive_solver. Qed.

(** The properties of a registered masternode do not depend on its id. *)
Lemma props_registered tx q height id id' :
  props (registered_mn cp coins tx q height id) = props (registered_mn cp coins tx q height id').
Proof. done. Qed.

Lemma overlay_add l I L tx q height : overlay l I L -> valid_proreg q = true ->
  L.(mnMap) !! GetHash tx = None ->
  (forall pr, pr ∈ props (registered_mn cp coins tx q height 0) ->
     l.(mnUniquePropertyMap) !! prop_hash pr = None /\ I.(mnUniquePropertyMap) !! prop_hash pr = None) ->
  overlay l (AddMN I (registered_mn cp coins tx q height I.(nTotalRegisteredCount)))
    (AddMN L (registered_mn cp coins tx q height L.(nTotalRegisteredCount))).
Proof.
  intros [HL HI Hm Hx] Hv Hk Hfree.
  split.
  - apply WF_AddMN; [done|by apply valid_registered|done|]. intros pr Hpr. apply Hx, Hfree. done.
  - apply WF_AddMN; [done|by apply valid_registered|by apply Hm in Hk as [_ ?]|]. intros pr Hpr. by apply Hfree.
  - intros k. rewrite !AddMN_map_None, Hm. cbn. naive_solver.
  - intros h. rewrite !AddMN_index_None, Hx. rewrite (props_registered _ _ _ _ 0), (props_registered _ _ _ (nTotalRegisteredCount I) 0).
    naive_solver.
Qed.

(** Updates accepted on top of [l] name a masternode of [l], so they leave an
    intra-block list that shares none with it alone. *)
Lemma intra_update_id l I id f : (forall k, l.(mnMap) !! k <> None -> I.(mnMap) !! k = None) ->
  GetMN l id <> None -> intra_update I id f = I.
Proof. intros Hd Hid. unfold intra_update, GetMN in *. by rewrite Hd. Qed.

Lemma intra_effect_accepted p l I tx height : getList p = Some l ->
  (forall k, l.(mnMap) !! k <> None -> I.(mnMap) !! k = None) ->
  CheckSpecialTx cp (Some getList) coins tx (Some p) (Some I) = Ok tt ->
  intra_effect cp coins height I tx = add_registration height I tx.
Proof.
  intros Hl Hd H. unfold intra_effect, add_registration, registration.
  destruct (IsTxTypeSpecial tx) eqn:Es; [|done]. cbn [negb].
  pose proof (accepted_facts tx p (Some I) l Hl Es H) as Ha. unfold authorised in Ha.
  destruct (GetTxType tx); try done.
  - destruct Ha as (q&mn&->&_&Hmn&_). by rewrite (intra_update_id l) by (try done; by rewrite Hmn).
  - destruct Ha as (q&mn&->&_&Hmn&_). by rewrite (intra_update_id l) by (try done; by rewrite Hmn).
  - destruct Ha as (q&mn&->&_&Hmn&_). by rewrite (intra_update_id l) by (try done; by rewrite Hmn).
Qed.

Lemma registered_ids_cons tx vtx : registered_ids (tx :: vtx) =
  match registration tx with Some _ => GetHash tx :: registered_ids vtx | None => registered_ids vtx end.
Proof. unfold registered_ids. rewrite filter_cons. destruct (registration tx); done. Qed.

Lemma registration_proreg tx q : all_bytes tx.(vExtraPayload) = true -> registration tx = Some q ->
  IsTxTypeSpecial tx = true /\ GetTxType tx = TRANSACTION_PROVIDER_REGISTER
  /\ GetTxPayload c_proreg tx = Some q /\ valid_proreg q = true.
Proof.
  intros Hb. unfold registration. destruct (IsTxTypeSpecial tx), (GetTxType tx); try done. intros Hq.
  split_and!; try done. by apply (GetTxPayload_spec c_proreg valid_proreg) in Hq as [_ ?].
Qed.

Lemma registration_free p l I tx q height id : getList p = Some l -> WF l -> WF I ->
  cp.(nTieredMNActivationHeight) <= next_height p -> all_bytes tx.(vExtraPayload) = true ->
  CheckSpecialTx cp (Some getList) coins tx (Some p) (Some I) = Ok tt -> registration tx = Some q ->
  forall pr, pr ∈ props (registered_mn cp coins tx q height id) ->
    l.(mnUniquePropertyMap) !! prop_hash pr = None /\ I.(mnUniquePropertyMap) !! prop_hash pr = None.
Proof.
  intros Hl WFl WFI Ht Hb H Hq. apply registration_proreg in Hq as (Es&Et&Hq&_); [|done].
  unfold CheckSpecialTx in H. rewrite Es, Et in H. cbn [negb] in H.
  apply CheckProRegTx_facts in H as (q'&Hq'&_&_&_&_&Hd&Hd'). assert (q' = q) as -> by congruence.
  destruct (Hd l Hl) as (?&?&?&?&?&H1). destruct (Hd' I eq_refl Ht) as (?&?&?&?&?&H2).
  intros pr Hpr. split; [by eapply (check_duplicates_free l)|by eapply (check_duplicates_free I)].
Qed.

Lemma check_loop p l height vtx : getList p = Some l -> WF l ->
  cp.(nTieredMNActivationHeight) <= next_height p -> Forall (fun tx => all_bytes tx.(vExtraPayload) = true) vtx ->
  forall I L I', overlay l I L -> (forall k, l.(mnMap) !! k <> None -> I.(mnMap) !! k = None) ->
  NoDup (registered_ids vtx) -> Forall (fun k => L.(mnMap) !! k = None) (registered_ids vtx) ->
  foldM (fun l tx => _ ← CheckSpecialTx cp (Some getList) coins tx (Some p) (Some l); Ok (intra_effect cp coins height l tx)) I vtx = Ok I' ->
  overlay l I' (add_registrations height L vtx).
Proof.
  intros Hl WFl Ht. induction vtx as [|tx vtx IH]; intros Hb I L I' Ho Hd Hnd Hnew H; [by inv H|].
  apply Forall_cons in Hb as [Hb1 Hb]. cbn [foldM] in H. apply bind_Ok in H as (I1&H1&H).
  apply bind_Ok in H1 as ([]&Hc&[= <-]). rewrite (intra_effect_accepted p l) in H by done.
  rewrite registered_ids_cons in Hnd, Hnew. cbn [add_registrations foldl].
  pose proof (registration_free p l I tx) as Hfree. unfold add_registration in H |- * at 2.
  destruct (registration tx) as [q|] eqn:Eq; [|by apply (IH Hb I)].
  apply NoDup_cons in Hnd as [Hni Hnd]. apply Forall_cons in Hnew as [Hid Hnew].
  assert (Hadd := overlay_add l I L tx q height Ho).
  eapply (IH Hb); [| |done| |exact H].
  - apply Hadd; [by eapply registration_proreg|done|]. intros pr. by eapply Hfree; try done; apply Ho.
  - intros k Hk. apply AddMN_map_None. split; [by apply Hd|]. intros ->.
    by apply (ov_map _ _ _ Ho) in Hid as [? _].
  - apply Forall_forall. intros k Hk. apply AddMN_map_None.
    split; [by apply (proj1 (Forall_forall _ _) Hnew)|]. by intros ->.
Qed.

Lemma overlay_start l h n : WF l -> overlay l (list_at h n) l.
Proof.
  intros WFl. split; [done|apply (WF_empty h n 0)| |]; intros k; cbn; rewrite lookup_empty; naive_solver.
Qed.

Lemma AddMN_lookup l mn k : GetMN (AddMN l mn) k = if decide (k = mn.(proTxHash)) then Some mn else GetMN l k.
Proof.
  unfold GetMN, AddMN, AddMNInPlace. cbn. case_decide; [subst; by rewrite lookup_insert_eq|by rewrite lookup_insert_ne].
Qed.

Lemma add_registrations_other height vtx : forall L k, k ∉ registered_ids vtx ->
  GetMN (add_registrations height L vtx) k = GetMN L k.
Proof.
  induction vtx as [|tx vtx IH]; intros L k Hk; [done|]. rewrite registered_ids_cons in Hk.
  cbn [add_registrations foldl]. unfold add_registration at 2. destruct (registration tx) as [q|].
  - apply not_elem_of_cons in Hk as [Hk1 Hk]. fold (add_registrations height).
    transitivity (GetMN (AddMN L (registered_mn cp coins tx q height (nTotalRegisteredCount L))) k); [by apply IH|].
    rewrite AddMN_lookup. by rewrite decide_False.
  - by apply IH.
Qed.

Lemma add_registrations_new height vtx : forall L tx q, NoDup (registered_ids vtx) ->
  tx ∈ vtx -> registration tx = Some q ->
  exists id, GetMN (add_registrations height L vtx) (GetHash tx) = Some (registered_mn cp coins tx q height id).
Proof.
  induction vtx as [|tx0 vtx IH]; intros L tx q Hnd Hin Hq; [by apply elem_of_nil in Hin|].
  rewrite registered_ids_cons in Hnd. apply elem_of_cons in Hin as [<-|Hin].
  - rewrite Hq in Hnd. apply NoDup_cons in Hnd as [Hni _]. cbn [add_registrations foldl].
    unfold add_registration at 2. rewrite Hq. eexists.
    transitivity (GetMN (AddMN L (registered_mn cp coins tx q height (nTotalRegisteredCount L))) (GetHash tx));
      [by apply add_registrations_other|]. rewrite AddMN_lookup. by rewrite decide_True.
  - apply IH; [|done..]. destruct (registration tx0); [by apply NoDup_cons in Hnd as [_ ?]|done].
Qed.

(** ** Properties *)

(** The registrations of a block that passes the special transaction
    checks fit the list of the previous block: added in order, they keep every
    collateral, address and key unique, each registered masternode is in the
    result as its payload describes it, and no other masternode changes. *)
Theorem accepted_registrations_fit (pindex p : CBlockIndex) (vtx : list CTransaction) (l I : CDeterministicMNList) :
  check_block_txs cp (Some getList) coins pindex vtx = Ok I ->
  pindex.(pprev) = Some p -> pindex.(bi_height) = next_height p ->
  cp.(nTieredMNActivationHeight) <= pindex.(bi_height) ->
  getList p = Some l -> WF l ->
  Forall (fun tx => all_bytes tx.(vExtraPayload) = true) vtx ->
  NoDup (registered_ids vtx) -> Forall (fun k => GetMN l k = None) (registered_ids vtx) ->
  let L := add_registrations pindex.(bi_height) l vtx in
  WF L
  /\ (forall tx q, tx ∈ vtx -> registration tx = Some q ->
       exists id, GetMN L (GetHash tx) = Some (registered_mn cp coins tx q pindex.(bi_height) id))
  /\ (forall k, k ∉ registered_ids vtx -> GetMN L k = GetMN l k).
Proof.
  intros H Hp Hh Ht Hl WFl Hb Hnd Hnew L. split_and!.
  - unfold check_block_txs in H. rewrite Hp in H. apply bind_Ok in H as (?&_&H).
    refine (ov_wf _ _ _ (check_loop p l _ vtx Hl WFl _ Hb _ l I (overlay_start l _ _ WFl) _ Hnd Hnew H)); [lia|].
    intros k _. apply lookup_empty.
  - intros tx q. by apply add_registrations_new.
  - intros k. apply add_registrations_other.
Qed.

(** C5. A special transaction that passes validation on top of a block carries
    the authorisation its type requires: a registration is signed by the
    owner key it names, proves possession of its operator key and locks a
    mature collateral; an update is signed by the owner or operator the list
    records, with a proof of possession for a changed operator key; a
    commitment is signed by at least 60% of the valid masternodes of the
    ancestor it names; and each provider payload commits to the inputs of its
    transaction. *)
Theorem accepted_is_authorised (tx : CTransaction) (p : CBlockIndex) (extra : option CDeterministicMNList)
  (l : CDeterministicMNList) :
  getList p = Some l -> IsTxTypeSpecial tx = true ->
  CheckSpecialTx cp (Some getList) coins tx (Some p) extra = Ok tt -> authorised p l tx.
Proof. apply accepted_facts. Qed.

End Authorisation.

(** Each payload is read exactly from its own encoding: every valid payload
    decodes back from the bytes [SetTxPayload] writes, and no other byte
    string, longer, shorter or differently encoded, is read as it. *)
Theorem payload_canonical (tx : CTransaction) : all_bytes tx.(vExtraPayload) = true ->
  (forall q, GetTxPayload c_proreg tx = Some q <-> tx.(vExtraPayload) = ser c_proreg q /\ valid_proreg q = true)
  /\ (forall q, GetTxPayload c_upserv tx = Some q <-> tx.(vExtraPayload) = ser c_upserv q /\ valid_upserv q = true)
  /\ (forall q, GetTxPayload c_upreg tx = Some q <-> tx.(vExtraPayload) = ser c_upreg q /\ valid_upreg q = true)
  /\ (forall q, GetTxPayload c_uprev tx = Some q <-> tx.(vExtraPayload) = ser c_uprev q /\ valid_uprev q = true)
  /\ (forall q, GetTxPayload c_qc tx = Some q <-> tx.(vExtraPayload) = ser c_qc q /\ valid_qc q = true).
Proof.
  intros Hb. split_and!; intros q.
  - by apply (GetTxPayload_spec c_proreg valid_proreg).
  - by apply (GetTxPayload_spec c_upserv valid_upserv).
  - by apply (GetTxPayload_spec c_upreg valid_upreg).
  - by apply (GetTxPayload_spec c_uprev valid_uprev).
  - by apply (GetTxPayload_spec c_qc valid_qc).
Qed.

Lemma outpoints_inj (a b : list COutPoint) : forallb valid_outpoint a = true -> forallb valid_outpoint b = true ->
  mjoin (ser c_outpoint <$> a) = mjoin (ser c_outpoint <$> b) -> a = b.
Proof.
  revert b. induction a as [|x a IH]; intros [|y b] Ha Hb E; try done.
  cbn [forallb] in *. apply andb_true_iff in Ha as [Hx Ha], Hb as [Hy Hb]. cbn in E.
  apply (ser_app_inj c_outpoint valid_outpoint) in E as [-> E]; [|done..]. f_equal. by apply IH.
Qed.

Lemma inputs_preimage_inj tx tx' :
  forallb valid_outpoint (prevout <$> tx.(vin)) = true -> forallb valid_outpoint (prevout <$> tx'.(vin)) = true ->
  inputs_preimage tx = inputs_preimage tx' -> prevout <$> tx.(vin) = prevout <$> tx'.(vin).
Proof.
  intros H H' E. apply outpoints_inj; [done..|]. unfold inputs_preimage in E.
  rewrite <- !list_fmap_compose. exact E.
Qed.

(** The inputs hash that an accepted provider transaction carries. *)
Definition carried_hash (tx : CTransaction) : option uint256 :=
  match GetTxType tx with
  | TRANSACTION_PROVIDER_REGISTER => pr_inputsHash <$> GetTxPayload c_proreg tx
  | TRANSACTION_PROVIDER_UPDATE_SERVICE => us_inputsHash <$> GetTxPayload c_upserv tx
  | TRANSACTION_PROVIDER_UPDATE_REGISTRAR => ur_inputsHash <$> GetTxPayload c_upreg tx
  | TRANSACTION_PROVIDER_UPDATE_REVOKE => rv_inputsHash <$> GetTxPayload c_uprev tx
  | _ => None
  end.

Section Replay.
Context `{HH : Hash256} `{CR : Crypto}.
Context (cp : Params) (manager : option (CBlockIndex -> option CDeterministicMNList)) (coins : option (COutPoint -> Coin)).

Lemma accepted_carries tx prev extra : IsTxTypeSpecial tx = true ->
  GetTxType tx <> TRANSACTION_QUORUM_COMMITMENT ->
  CheckSpecialTx cp manager coins tx prev extra = Ok tt -> carried_hash tx = Some (CalcTxInputsHash tx).
Proof.
  intros Hs Hq H. unfold CheckSpecialTx in H. rewrite Hs in H. cbn [negb] in H. unfold carried_hash.
  destruct (GetTxType tx); try done.
  - unfold CheckProRegTx in H. accepted H. rewrite HA0. cbn. congruence.
  - unfold CheckProUpServTx in H. accepted H. rewrite HA0. cbn. congruence.
  - unfold CheckProUpRegTx in H. accepted H. rewrite HA0. cbn. congruence.
  - unfold CheckProUpRevTx in H. accepted H. rewrite HA0. cbn. congruence.
Qed.

(** C34. A signed provider payload cannot be replayed: two accepted provider
    transactions of the same type with the same payload spend the same inputs
    in the same order, unless the hash of their inputs collides; so at most
    one of them can ever be in a chain. *)
Theorem payload_not_replayable (tx tx' : CTransaction) (prev prev' : option CBlockIndex)
  (extra extra' : option CDeterministicMNList) :
  IsTxTypeSpecial tx = true -> IsTxTypeSpecial tx' = true ->
  GetTxType tx = GetTxType tx' -> GetTxType tx <> TRANSACTION_QUORUM_COMMITMENT ->
  tx.(vExtraPayload) = tx'.(vExtraPayload) ->
  CheckSpecialTx cp manager coins tx prev extra = Ok tt ->
  CheckSpecialTx cp manager coins tx' prev' extra' = Ok tt ->
  forallb valid_outpoint (prevout <$> tx.(vin)) = true -> forallb valid_outpoint (prevout <$> tx'.(vin)) = true ->
  (CalcTxInputsHash tx = CalcTxInputsHash tx' -> inputs_preimage tx = inputs_preimage tx') ->
  prevout <$> tx.(vin) = prevout <$> tx'.(vin).
Proof.
  intros Hs Hs' Ht Hq Hp H H' Hv Hv' Hcol.
  apply accepted_carries in H; [|done..]. apply accepted_carries in H'; [|done|congruence].
  apply inputs_preimage_inj; [done..|]. apply Hcol.
  assert (carried_hash tx = carried_hash tx') as E by (unfold carried_hash, GetTxPayload; by rewrite Ht, Hp).
  rewrite H, H' in E. by injection E.
Qed.
End Replay.

(** ** A concrete block *)

Module Sample.

#[local] Existing Instance Poly.poly_hash.

(** A stand-in for the libraries, in which a signature names the message and
    the key. *)
#[export] Instance toy_crypto : Crypto := {|
  P1 := bytes; P2 := bytes;
  p1_uncompress := fun b => Some b; p1_in_g1 := fun _ => true;
  p1_add := fun a b => a; p1_compress := fun p => p;
  p2_uncompress := fun b => Some b; p2_in_g2 := fun _ => true;
  core_verify := fun p s m _ => bytes_eq (take 32 s) m && (s !!! 32%nat =? p !!! 0%nat);
  ecdsa_recover := fun h _ s _ => if bytes_eq (take 32 s) (le_bytes 32 h) then Some (drop 32 s) else None;
  Hash160 := fun k => le_val (take 20 k);
|}.

Definition op_key (n : Z) : bytes := n :: replicate 47 0.
Definition bls_sig (n : Z) (h : uint256) : bytes := le_bytes 32 h ++ [n] ++ replicate 63 0.
Definition ecdsa_sig (key : Z) (h : uint256) : bytes := 31 :: le_bytes 32 h ++ le_bytes 32 key.
Definition service (last : Z) : CService := MkService (MkNetAddr (pchIPv4 ++ [8; 8; 4; last]) 0) 8770.
Definition p2pkh : CScript := [OP_DUP; OP_HASH160; 20] ++ replicate 20 7 ++ [OP_EQUALVERIFY; OP_CHECKSIG].
Definition base_tx (type n : Z) : CTransaction :=
  MkTransaction [MkTxIn (MkOutPoint (1000 + n) 0) [] 0 []] [MkTxOut 1 [0x51]] 3 type 0 [].

(** A registration of the [n]-th masternode at the address ending in [last]. *)
Definition reg_payload (n last : Z) (pop sig : bytes) : CProRegTx :=
  MkProReg 2 0 0 (MkOutPoint n 0) (service last) (n + 500) (op_key n) (n + 600) 0 p2pkh
    (CalcTxInputsHash (base_tx 1 n)) sig pop.
Definition reg_tx (n last : Z) : CTransaction :=
  let pop := bls_sig n (ProReg_GetPoPSignatureHash (reg_payload n last [] [])) in
  let sig := ecdsa_sig (n + 500) (ProReg_GetSignatureHash (reg_payload n last pop [])) in
  SetTxPayload c_proreg (base_tx 1 n) (reg_payload n last pop sig).

(** A move of masternode [n], known under [id], to another address. *)
Definition serv_payload (id : uint256) (n last : Z) (sig : bytes) : CProUpServTx :=
  MkUpServ 1 id (service last) [] (CalcTxInputsHash (base_tx 2 (n + 50))) sig.
Definition serv_tx (id : uint256) (n last : Z) : CTransaction :=
  SetTxPayload c_upserv (base_tx 2 (n + 50))
    (serv_payload id n last (bls_sig n (UpServ_GetSignatureHash (serv_payload id n last [])))).

Definition block_at (hash height : Z) (prev : option CBlockIndex) : CBlockIndex :=
  MkIndex hash height 0 0 0 [] 0 prev None.
Definition tip : CBlockIndex := block_at 77 100 None.
Definition block : CBlockIndex := block_at 78 101 (Some tip).
Definition coins (o : COutPoint) : Coin := MkCoin (MkTxOut (100 * COIN) p2pkh) false 5.
(** Masternode 1 is registered already. *)
Definition first : CTransaction := Eval vm_compute in reg_tx 1 1.
Definition known : CDeterministicMNList := add_registrations regtest_params (Some coins) 60 (list_at 77 100) [first].
Definition getList (p : CBlockIndex) : option CDeterministicMNList :=
  if p.(bi_hash) =? 77 then Some known else None.

Definition txs : list CTransaction := Eval vm_compute in
  [base_tx 0 9; reg_tx 2 2; serv_tx (GetHash first) 1 9; reg_tx 3 3].
(** Two claims to one address in a block. *)
Definition conflicting : list CTransaction := Eval vm_compute in
  [serv_tx (GetHash first) 1 8; reg_tx 2 8].

(** *** Hypotheses as computations *)

Lemma bytes_b txs : forallb (fun tx => all_bytes tx.(vExtraPayload)) txs = true ->
  Forall (fun tx => all_bytes tx.(vExtraPayload) = true) txs.
Proof. rewrite forallb_forall. intros H. apply Forall_forall. intros tx Htx. by apply H, list_elem_of_In. Qed.

Lemma nodup_b (l : list Z) : bool_decide (NoDup l) = true -> NoDup l.
Proof. apply bool_decide_eq_true_1. Qed.

Lemma absent_b l ks : forallb (fun k => negb (is_some (GetMN l k))) ks = true -> Forall (fun k => GetMN l k = None) ks.
Proof.
  rewrite forallb_forall. intros H. apply Forall_forall. intros k Hk%list_elem_of_In.
  specialize (H k Hk). by destruct (GetMN l k).
Qed.

Lemma one_WF cp coins height h n tx : is_some (registration tx) = true -> all_bytes tx.(vExtraPayload) = true ->
  WF (add_registrations cp coins height (list_at h n) [tx]).
Proof.
  intros Hr Hb. unfold add_registrations, add_registration. cbn [foldl].
  destruct (registration tx) as [q|] eqn:E; [|done].
  apply registration_proreg in E as (_&_&_&Hv); [|done].
  apply WF_AddMN; [apply (WF_empty h n 0)|by apply valid_registered|apply lookup_empty|].
  intros p _. apply lookup_empty.
Qed.

Lemma is_ok_inv {E A} (r : result E A) : is_ok r = true -> exists a, r = Ok a.
Proof. destruct r; [eauto|done]. Qed.

Lemma known_WF : WF known.
Proof. apply one_WF; vm_compute; reflexivity. Qed.

Lemma accepted_registrations_fit_witness : exists I,
  check_block_txs regtest_params (Some getList) (Some coins) block txs = Ok I
  /\ WF (add_registrations regtest_params (Some coins) 101 known txs).
Proof.
  destruct (is_ok_inv (check_block_txs regtest_params (Some getList) (Some coins) block txs)) as [I E].
  { vm_compute. reflexivity. }
  exists I. split; [exact E|].
  refine (proj1 (accepted_registrations_fit regtest_params getList (Some coins) block tip txs known I
    E eq_refl eq_refl _ eq_refl known_WF (bytes_b _ _) (nodup_b _ _) (absent_b _ _ _)));
    [vm_compute; discriminate|vm_compute; reflexivity..].
Defined.

Definition reg2 : CTransaction := Eval vm_compute in reg_tx 2 2.

Lemma accepted_is_authorised_witness : IsTxTypeSpecial reg2 = true /\ authorised regtest_params getList (Some coins) tip known reg2.
Proof.
  split; [reflexivity|].
  apply (accepted_is_authorised regtest_params getList (Some coins) reg2 tip None known eq_refl eq_refl).
  vm_compute. reflexivity.
Defined.

Lemma payload_canonical_witness : exists q, reg2.(vExtraPayload) = ser c_proreg q /\ valid_proreg q = true.
Proof.
  destruct (payload_canonical reg2) as [H _]; [vm_compute; reflexivity|].
  destruct (GetTxPayload c_proreg reg2) as [q|] eqn:E; [exists q; by apply H|].
  exfalso. revert E. vm_compute. discriminate.
Defined.

(** The same payload over the same input, with another output. *)
Definition reg2' : CTransaction :=
  MkTransaction reg2.(vin) [MkTxOut 2 [0x52]] reg2.(nVersion) reg2.(nType) reg2.(nLockTime) reg2.(vExtraPayload).

Lemma payload_not_replayable_witness : reg2 <> reg2' /\ prevout <$> reg2.(vin) = prevout <$> reg2'.(vin).
Proof.
  split; [discriminate|].
  apply (payload_not_replayable regtest_params (Some getList) (Some coins) reg2 reg2' (Some tip) (Some tip) None None);
    [reflexivity|reflexivity|reflexivity|discriminate|reflexivity|vm_compute; reflexivity|vm_compute; reflexivity|reflexivity|reflexivity|intros _; reflexivity].
Defined.

(** An update and a registration may claim one address in the same block: the
    intra-block list records neither the update nor its address, because the
    masternode is not a registration of this block. *)
Example same_block_address_claims :
  is_ok (check_block_txs regtest_params (Some getList) (Some coins) block conflicting) = true.
Proof. vm_compute. reflexivity. Qed.

End Sample.
