(* ===== verification/Pow.v ===== *)
(** Proof of work (pow.cpp): the two retargeting rules and the check of a
    block hash against its claimed target, over the 256-bit arithmetic and
    the block index.  The theorems show that on parameters whose limit leaves
    room (the main network) the gravity wave computes the intended rational
    rule with no overflow and never exceeds the limit, and that the check
    accepts exactly the hashes at or below a valid target; on the test
    network's limit the multiplication overflows. *)

From S2P Require Import Prelude ArithUint256 Primitives Params Chain.

Definition IsDGWActive (p : Params) (nBlockNumber : Z) : bool := p.(nDGWActivationBlock) <=? nBlockNumber.

(** ** DarkGravityWave *)

Definition nPastBlocks : Z := 180.

(** The averaging loop, from [nCountBlocks] over [n] more blocks; [None] is a
    failed assertion or a division by zero. *)
Fixpoint dgw_loop (kawpowTime : Z) (n : nat) (nCountBlocks : Z) (pindex : CBlockIndex)
  (avg : ArithUint256.limbs) (found : Z) : option (CBlockIndex * ArithUint256.limbs * Z) :=
  match n with
  | O => Some (pindex, avg, found)
  | S n' =>
    let bnTarget := (ArithUint256.SetCompact pindex.(nBits)).1.1 in
    avg ← if nCountBlocks =? 1 then Some bnTarget
          else ArithUint256.div (ArithUint256.add (ArithUint256.mul32 avg nCountBlocks) bnTarget)
                 (ArithUint256.of_uint64 (nCountBlocks + 1));
    let found := if kawpowTime <=? pindex.(nTime) then found + 1 else found in
    if nCountBlocks =? nPastBlocks then Some (pindex, avg, found)
    else q ← pindex.(pprev); dgw_loop kawpowTime n' (nCountBlocks + 1) q avg found
  end.

Definition clamp (lo hi x : Z) : Z :=
  let x := if x <? lo then lo else x in if hi <? x then hi else x.

Definition DarkGravityWave (params : Params) (pindexLast : CBlockIndex) (blockTime : Z) : option Z :=
  let bnPowLimit := ArithUint256.UintToArith256 params.(powLimit) in
  nProofOfWorkLimit ← ArithUint256.GetCompact bnPowLimit false;
  if pindexLast.(bi_height) <? nPastBlocks then ArithUint256.GetCompact bnPowLimit false
  else if params.(fPowAllowMinDifficultyBlocks)
          && (GetBlockTime pindexLast + params.(nPowTargetSpacing) * 2 <? blockTime)
  then Some nProofOfWorkLimit
  else
    '(pindex, bnNew, nKAWPOWBlocksFound) ←
      dgw_loop params.(nKawPowActivationTime) (Z.to_nat nPastBlocks) 1 pindexLast ArithUint256.zero 0;
    if (params.(nKawPowActivationTime) <=? blockTime) && negb (nKAWPOWBlocksFound =? nPastBlocks)
    then ArithUint256.GetCompact (ArithUint256.UintToArith256 params.(kawpowLimit)) false
    else
      let nTargetTimespan := nPastBlocks * params.(nPowTargetSpacing) in
      let nActualTimespan := clamp (Z.quot nTargetTimespan 3) (nTargetTimespan * 3)
                               (GetBlockTime pindexLast - GetBlockTime pindex) in
      (* the multiplication takes a [uint32_t] *)
      let bnNew := ArithUint256.mul32 bnNew (wrapu 32 nActualTimespan) in
      bnNew ← ArithUint256.div bnNew (ArithUint256.of_uint64 nTargetTimespan);
      let bnNew := if 0 <? ArithUint256.CompareTo bnNew bnPowLimit then bnPowLimit else bnNew in
      ArithUint256.GetCompact bnNew false.

(** ** The interval rule *)

Definition CalculateNextWorkRequired (params : Params) (pindexLast : CBlockIndex) (nFirstBlockTime : Z) : option Z :=
  if params.(fPowNoRetargeting) then Some pindexLast.(nBits)
  else
    let nActualTimespan := clamp (Z.quot params.(nPowTargetTimespan) 4) (params.(nPowTargetTimespan) * 4)
                             (GetBlockTime pindexLast - nFirstBlockTime) in
    let bnPowLimit := ArithUint256.UintToArith256 params.(powLimit) in
    let bnNew := (ArithUint256.SetCompact pindexLast.(nBits)).1.1 in
    let bnNew := ArithUint256.mul32 bnNew (wrapu 32 nActualTimespan) in
    bnNew ← ArithUint256.div bnNew (ArithUint256.of_uint64 params.(nPowTargetTimespan));
    let bnNew := if 0 <? ArithUint256.CompareTo bnNew bnPowLimit then bnPowLimit else bnNew in
    ArithUint256.GetCompact bnNew false.

(** The last block that was not mined under the minimum difficulty rule. *)
Fixpoint last_regular (fuel : nat) (interval limit : Z) (pindex : CBlockIndex) : CBlockIndex :=
  match fuel with
  | O => pindex
  | S fuel' =>
    match pindex.(pprev) with
    | Some q =>
      if negb (Z.rem pindex.(bi_height) interval =? 0) && (pindex.(nBits) =? limit)
      then last_regular fuel' interval limit q
      else pindex
    | None => pindex
    end
  end.

Definition GetNextWorkRequiredBTC (params : Params) (pindexLast : CBlockIndex) (blockTime : Z) : option Z :=
  nProofOfWorkLimit ← ArithUint256.GetCompact (ArithUint256.UintToArith256 params.(powLimit)) false;
  let interval := DifficultyAdjustmentInterval params in
  if negb (Z.rem (pindexLast.(bi_height) + 1) interval =? 0) then
    if params.(fPowAllowMinDifficultyBlocks) then
      if GetBlockTime pindexLast + params.(nPowTargetSpacing) * 2 <? blockTime then Some nProofOfWorkLimit
      else Some (last_regular (Z.to_nat pindexLast.(bi_height)) interval nProofOfWorkLimit pindexLast).(nBits)
    else Some pindexLast.(nBits)
  else
    let nHeightFirst := pindexLast.(bi_height) - (interval - 1) in
    if nHeightFirst <? 0 then None
    else
      pindexFirst ← GetAncestor pindexLast nHeightFirst;
      CalculateNextWorkRequired params pindexLast (GetBlockTime pindexFirst).

Definition GetNextWorkRequired (params : Params) (pindexLast : CBlockIndex) (blockTime : Z) : option Z :=
  if IsDGWActive params (pindexLast.(bi_height) + 1)
  then DarkGravityWave params pindexLast blockTime
  else GetNextWorkRequiredBTC params pindexLast blockTime.

Definition CheckProofOfWork (params : Params) (hash : uint256) (bits : Z) : bool :=
  let '(bnTarget, fNegative, fOverflow) := ArithUint256.SetCompact bits in
  if fNegative || ArithUint256.EqualTo bnTarget 0 || fOverflow
     || (0 <? ArithUint256.CompareTo bnTarget (ArithUint256.UintToArith256 params.(powLimit)))
  then false
  else negb (0 <? ArithUint256.CompareTo (ArithUint256.UintToArith256 hash) bnTarget).

(** ** Reference rule over the integers *)

(** The last [n] blocks, newest first. *)
Fixpoint past (n : nat) (p : CBlockIndex) : list CBlockIndex :=
  match n with
  | O => []
  | S n' => p :: match pprev p with Some q => past n' q | None => [] end
  end.

Definition target (p : CBlockIndex) : Z := ArithUint256.compact_value p.(nBits).

(** The running combination of targets: not an average, as the source notes. *)
Fixpoint running_avg (count avg : Z) (ts : list Z) : Z :=
  match ts with
  | [] => avg
  | t :: ts' => running_avg (count + 1) (if count =? 1 then t else (avg * count + t) / (count + 1)) ts'
  end.

Definition oldest_time (p : CBlockIndex) : Z :=
  match walk 179 p with Some q => GetBlockTime q | None => 0 end.
Definition kawpow_blocks (params : Params) (p : CBlockIndex) : Z :=
  Z.of_nat (length (filter (fun b => params.(nKawPowActivationTime) <= b.(nTime)) (past 180 p))).

Definition dgw_target (params : Params) (p : CBlockIndex) (blockTime : Z) : Z :=
  if p.(bi_height) <? 180 then params.(powLimit)
  else if params.(fPowAllowMinDifficultyBlocks)
          && (GetBlockTime p + params.(nPowTargetSpacing) * 2 <? blockTime) then params.(powLimit)
  else if (params.(nKawPowActivationTime) <=? blockTime) && negb (kawpow_blocks params p =? 180)
  then params.(kawpowLimit)
  else
    let timespan := 180 * params.(nPowTargetSpacing) in
    Z.min params.(powLimit)
      (running_avg 1 0 (target <$> past 180 p)
       * clamp (timespan / 3) (timespan * 3) (GetBlockTime p - oldest_time p) / timespan).

(** The limit leaves room for the intermediate products. *)
Definition room (params : Params) : Prop :=
  0 < params.(nPowTargetSpacing) /\ 540 * params.(nPowTargetSpacing) < 2 ^ 32 /\
  0 <= params.(powLimit) /\ params.(powLimit) * 181 < 2 ^ 256 /\
  params.(powLimit) * (540 * params.(nPowTargetSpacing)) < 2 ^ 256 /\
  0 <= params.(kawpowLimit) < 2 ^ 256.

Definition good_bits (params : Params) (p : CBlockIndex) : Prop :=
  0 <= p.(nBits) < 2 ^ 32 /\ target p <= params.(powLimit).

(** ** Lemmas *)

Lemma compare_gt a b : ArithUint256.wf a -> ArithUint256.wf b ->
  (0 <? ArithUint256.CompareTo a b) = (ArithUint256.lval b <? ArithUint256.lval a).
Proof.
  intros Ha Hb. rewrite ArithUint256.CompareTo_spec by done.
  destruct (Z.compare_spec (ArithUint256.lval a) (ArithUint256.lval b)); lia.
Qed.

Lemma compact_nonneg c : 0 <= ArithUint256.compact_value c.
Proof.
  unfold ArithUint256.compact_value. pose proof (Z.mod_pos_bound c (2 ^ 23) ltac:(lia)). case_match.
  - apply Z.div_pos; [lia|]. apply Z.pow_pos_nonneg; lia.
  - apply Z.mul_nonneg_nonneg; [lia|]. apply Z.pow_nonneg. lia.
Qed.

Lemma SetCompact_small c : 0 <= c < 2 ^ 32 -> ArithUint256.compact_value c < 2 ^ 256 ->
  ArithUint256.wf (ArithUint256.SetCompact c).1.1 /\
  ArithUint256.lval (ArithUint256.SetCompact c).1.1 = ArithUint256.compact_value c.
Proof.
  intros Hc Hv. destruct (ArithUint256.SetCompact_val c Hc) as [W V]. split; [done|].
  rewrite V. apply Z.mod_small. pose proof (compact_nonneg c). lia.
Qed.

Lemma lval_eq_Uint a v : ArithUint256.wf a -> ArithUint256.lval a = v -> a = ArithUint256.UintToArith256 v.
Proof.
  intros W <-. apply ArithUint256.wf_inj; [done|apply ArithUint256.UintToArith256_wf|].
  rewrite ArithUint256.lval_UintToArith256; [done|]. by apply ArithUint256.wf_bound.
Qed.

(** One averaging step is exact and stays at or below the limit. *)
Lemma average_step L avg t k : ArithUint256.wf avg -> ArithUint256.wf t -> 0 <= L -> L * 181 < 2 ^ 256 ->
  ArithUint256.lval avg <= L -> ArithUint256.lval t <= L -> 1 <= k <= 180 ->
  exists q, ArithUint256.div (ArithUint256.add (ArithUint256.mul32 avg k) t) (ArithUint256.of_uint64 (k + 1)) = Some q /\
    ArithUint256.wf q /\ ArithUint256.lval q = (ArithUint256.lval avg * k + ArithUint256.lval t) / (k + 1) /\
    ArithUint256.lval q <= L.
Proof.
  intros Wa Wt HL HL' Ha Ht Hk. pose proof (ArithUint256.wf_bound _ Wa). pose proof (ArithUint256.wf_bound _ Wt).
  assert (ArithUint256.limb_ok k) as Ok by (unfold ArithUint256.limb_ok; lia).
  pose proof (ArithUint256.mul32_wf avg k Wa Ok) as Wm.
  assert (ArithUint256.lval (ArithUint256.mul32 avg k) = ArithUint256.lval avg * k) as Vm.
  { rewrite ArithUint256.lval_mul32 by done. apply Z.mod_small. nia. }
  pose proof (ArithUint256.add_wf _ _ Wm Wt) as Ws.
  assert (ArithUint256.lval (ArithUint256.add (ArithUint256.mul32 avg k) t)
          = ArithUint256.lval avg * k + ArithUint256.lval t) as Vs.
  { rewrite ArithUint256.lval_add, Vm by done. apply Z.mod_small. nia. }
  destruct (ArithUint256.div_spec _ (ArithUint256.of_uint64 (k + 1)) Ws) as (q & E & W & V);
    [apply ArithUint256.of_uint64_wf|rewrite ArithUint256.lval_of_uint64; lia|].
  rewrite Vs, ArithUint256.lval_of_uint64 in V by lia. exists q. split_and!; [done..|].
  rewrite V. apply Z.div_le_upper_bound; nia.
Qed.

Lemma dgw_loop_spec params n : forall k p avg found,
  0 <= params.(powLimit) -> params.(powLimit) * 181 < 2 ^ 256 ->
  chained p -> Z.of_nat n + k = 181 -> 1 <= k <= 180 -> Z.of_nat n <= bi_height p + 1 ->
  Forall (good_bits params) (past n p) -> ArithUint256.wf avg -> ArithUint256.lval avg <= params.(powLimit) ->
  exists q a, dgw_loop params.(nKawPowActivationTime) n k p avg found
    = Some (q, a, found + Z.of_nat (length (filter (fun b => params.(nKawPowActivationTime) <= nTime b) (past n p)))) /\
    walk (n - 1) p = Some q /\ ArithUint256.wf a /\
    ArithUint256.lval a = running_avg k (ArithUint256.lval avg) (target <$> past n p) /\
    ArithUint256.lval a <= params.(powLimit).
Proof.
  induction n as [|n IH]; intros k p avg found HL HL' Hp Hnk Hk Hh Hg Wa Ha; [lia|].
  cbn [dgw_loop past]. cbn [past] in Hg. apply Forall_cons in Hg as [[Hb Ht] Hg].
  destruct (SetCompact_small (nBits p) Hb) as [Wt Vt]; [unfold target in Ht; lia|].
  fold (target p) in Vt.
  assert (exists a1, (if k =? 1 then Some (ArithUint256.SetCompact (nBits p)).1.1 else
      ArithUint256.div (ArithUint256.add (ArithUint256.mul32 avg k) (ArithUint256.SetCompact (nBits p)).1.1)
        (ArithUint256.of_uint64 (k + 1))) = Some a1 /\ ArithUint256.wf a1 /\
    ArithUint256.lval a1 = (if k =? 1 then target p else (ArithUint256.lval avg * k + target p) / (k + 1)) /\
    ArithUint256.lval a1 <= params.(powLimit)) as (a1 & -> & W1 & V1 & L1).
  { destruct (k =? 1) eqn:Ek; [eexists; split_and!; [done..|lia]|].
    rewrite <- Vt. apply average_step; (done || lia). }
  cbn [mbind option_bind].
  set (f1 := if params.(nKawPowActivationTime) <=? nTime p then found + 1 else found).
  assert (forall L, found + Z.of_nat (length (filter (fun b => params.(nKawPowActivationTime) <= nTime b) (p :: L)))
    = f1 + Z.of_nat (length (filter (fun b => params.(nKawPowActivationTime) <= nTime b) L))) as Hcount.
  { intros L. rewrite filter_cons. unfold f1. case_decide; destruct (Z.leb_spec params.(nKawPowActivationTime) (nTime p));
      cbn [length]; lia. }
  destruct (k =? nPastBlocks) eqn:Ek.
  - unfold nPastBlocks in Ek. assert (n = 0%nat) as -> by lia.
    assert (match pprev p with Some q => past 0 q | None => [] end = []) as -> by (by destruct (pprev p)).
    exists p, a1. rewrite Hcount. cbn [filter list_filter length fmap list_fmap running_avg].
    split_and!; [do 3 f_equal; lia|done|done|by rewrite V1|done].
  - destruct (chained_prev p Hp) as (q & Eq & Hq & Hhq & _); [unfold nPastBlocks in Ek; lia|].
    rewrite Eq in Hg |- *. cbn [mbind option_bind]. unfold nPastBlocks in Ek.
    destruct (IH (k + 1) q a1 f1) as (r & a & E & Wk & W & V & L); [done..|lia|lia|lia|done|done|done|].
    exists r, a. rewrite E, Hcount. split_and!; [done| |done| |done].
    + destruct n as [|n]; [lia|]. cbn [walk]. replace (S (S n) - 1)%nat with (S n) by lia. cbn [walk].
      rewrite Eq. cbn [mbind option_bind]. by replace (S n - 1)%nat with n in Wk by lia.
    + rewrite V. cbn [fmap list_fmap running_avg]. by rewrite V1.
Qed.

Lemma clamp_range lo hi x : lo <= hi -> lo <= clamp lo hi x <= hi.
Proof. intros H. unfold clamp. destruct (Z.ltb_spec x lo); case_match; lia. Qed.

Lemma retarget_exact L a ts T : ArithUint256.wf a -> 0 <= L < 2 ^ 256 -> ArithUint256.lval a <= L ->
  0 <= ts < 2 ^ 32 -> L * ts < 2 ^ 256 -> 0 < T < 2 ^ 64 ->
  exists q, ArithUint256.div (ArithUint256.mul32 a (wrapu 32 ts)) (ArithUint256.of_uint64 T) = Some q /\
    (if 0 <? ArithUint256.CompareTo q (ArithUint256.UintToArith256 L) then ArithUint256.UintToArith256 L else q)
    = ArithUint256.UintToArith256 (Z.min L (ArithUint256.lval a * ts / T)).
Proof.
  intros W HL Ha Hts Hp HT. pose proof (ArithUint256.wf_bound _ W) as HB.
  rewrite wrapu_id by done.
  assert (ArithUint256.lval (ArithUint256.mul32 a ts) = ArithUint256.lval a * ts) as Vm.
  { rewrite ArithUint256.lval_mul32 by done. apply Z.mod_small. nia. }
  destruct (ArithUint256.div_spec (ArithUint256.mul32 a ts) (ArithUint256.of_uint64 T)) as (q & E & Wq & V);
    [by apply ArithUint256.mul32_wf|apply ArithUint256.of_uint64_wf|rewrite ArithUint256.lval_of_uint64; lia|].
  rewrite Vm, ArithUint256.lval_of_uint64 in V by lia. exists q. split; [done|].
  rewrite compare_gt by (done || apply ArithUint256.UintToArith256_wf).
  rewrite ArithUint256.lval_UintToArith256, V by done.
  destruct (Z.ltb_spec L (ArithUint256.lval a * ts / T)).
  - by rewrite Z.min_l by lia.
  - rewrite Z.min_r by lia. by apply lval_eq_Uint.
Qed.

(** ** Properties *)

(** C22. Where the limit leaves room for the intermediate products, the gravity
    wave computes the reference rule over the integers on every branch: no
    multiplication overflows, no assertion fails, and the result encodes a
    target at or below the limit in force. *)
Theorem DarkGravityWave_exact (params : Params) (p : CBlockIndex) (blockTime : Z) :
  room params -> chained p -> Forall (good_bits params) (past 180 p) ->
  DarkGravityWave params p blockTime
  = ArithUint256.GetCompact (ArithUint256.UintToArith256 (dgw_target params p blockTime)) false /\
  dgw_target params p blockTime <= Z.max params.(powLimit) params.(kawpowLimit).
Proof.
  intros (Hs & Hs' & HL & HL' & HL'' & HK) Hp Hg. unfold DarkGravityWave, dgw_target.
  destruct (ArithUint256.GetCompact_total (ArithUint256.UintToArith256 params.(powLimit))) as [c Ec];
    [apply ArithUint256.UintToArith256_wf|]. rewrite Ec. cbn [mbind option_bind]. unfold nPastBlocks.
  destruct (bi_height p <? 180) eqn:Eh; [split; [done|lia]|].
  destruct (fPowAllowMinDifficultyBlocks params && _) eqn:Em; [split; [done|lia]|].
  destruct (dgw_loop_spec params 180 1 p ArithUint256.zero 0) as (q & a & E & Wk & W & V & L);
    [done..|lia|lia|lia|done|apply ArithUint256.zero_wf|rewrite ArithUint256.lval_zero; lia|].
  change (Z.to_nat 180) with 180%nat. rewrite E. cbn [mbind option_bind]. rewrite Z.add_0_l.
  fold (kawpow_blocks params p). destruct (_ && negb _) eqn:Ek; [split; [done|lia]|].
  unfold oldest_time. change (180 - 1)%nat with 179%nat in Wk. rewrite Wk.
  rewrite Z.quot_div_nonneg by lia. rewrite ArithUint256.lval_zero in V. rewrite <- V.
  pose proof (clamp_range (180 * nPowTargetSpacing params / 3) (180 * nPowTargetSpacing params * 3)
    (GetBlockTime p - GetBlockTime q)) as Hc.
  assert (0 <= 180 * nPowTargetSpacing params / 3 <= 180 * nPowTargetSpacing params * 3).
  { split; [apply Z.div_pos; lia|]. apply Z.div_le_upper_bound; lia. }
  destruct (retarget_exact params.(powLimit) a
    (clamp (180 * nPowTargetSpacing params / 3) (180 * nPowTargetSpacing params * 3) (GetBlockTime p - GetBlockTime q))
    (180 * nPowTargetSpacing params)) as (r & Er & Emin); [done|lia|done|lia|nia|lia|].
  rewrite Er. cbn [mbind option_bind]. rewrite Emin. split; [done|lia].
Qed.

Lemma main_room : room main_params.
Proof. unfold room. cbn. lia. Qed.

(** [n] blocks a minute apart at the given difficulty. *)
Fixpoint steady (n : nat) (bits : Z) : CBlockIndex :=
  match n with
  | O => MkIndex 0 0 0x20000000 1769000000 bits ArithUint256.zero 0 None None
  | S n' =>
    let q := steady n' bits in
    MkIndex (Z.of_nat n) (Z.of_nat n) 0x20000000 (q.(nTime) + 60) bits ArithUint256.zero 0 (Some q)
      (BuildSkip (Some q) (Z.of_nat n))
  end.
Lemma steady_height n bits : bi_height (steady n bits) = Z.of_nat n.
Proof. by destruct n. Qed.
Lemma steady_chained n bits : chained (steady n bits).
Proof.
  induction n as [|n IH]; [by apply chained_genesis|].
  apply (chained_next _ (steady n bits)); [done|done| |done]. rewrite !steady_height. lia.
Qed.
Lemma steady_good params bits n k : 0 <= bits < 2 ^ 32 -> ArithUint256.compact_value bits <= params.(powLimit) ->
  Forall (good_bits params) (past k (steady n bits)).
Proof.
  intros Hb Ht. revert n. induction k as [|k IH]; intros n; [constructor|]. cbn [past].
  constructor; [by destruct n|]. destruct n; [constructor|apply IH].
Qed.

Lemma DarkGravityWave_exact_witness :
  DarkGravityWave main_params (steady 200 0x1d00ffff) 1769100000
  = ArithUint256.GetCompact (ArithUint256.UintToArith256 (dgw_target main_params (steady 200 0x1d00ffff) 1769100000)) false /\
  dgw_target main_params (steady 200 0x1d00ffff) 1769100000 <= Z.max main_params.(powLimit) main_params.(kawpowLimit).
Proof.
  apply (DarkGravityWave_exact main_params (steady 200 0x1d00ffff) 1769100000).
  - exact main_room.
  - apply steady_chained.
  - apply steady_good; [lia|]. vm_compute. discriminate.
Defined.

(** On the test network the limit leaves no room: 180 blocks at the limit, each
    exactly on time, call for a target near the limit, but the product
    overflows and the required target is less than a quarter of it. *)
Example testnet_retarget_overflows :
  ~ room testnet_params /\
  (let p := steady 200 0x1f0fffff in
   4 * default 0 (ArithUint256.compact_value <$> DarkGravityWave testnet_params p (p.(nTime) + 60))
   < dgw_target testnet_params p (p.(nTime) + 60)).
Proof.
  split; [unfold room; cbn; lia|]. vm_compute. reflexivity.
Qed.

(** [CheckProofOfWork] accepts a hash exactly when the claimed target is not
    negative, is positive and at most the limit, and the hash does not exceed
    it; an overflowing target is rejected. *)
Theorem CheckProofOfWork_exact (params : Params) (hash bits : Z) :
  0 <= hash < 2 ^ 256 -> 0 <= bits < 2 ^ 32 -> 0 <= params.(powLimit) < 2 ^ 256 ->
  CheckProofOfWork params hash bits = true <->
  (ArithUint256.SetCompact bits).1.2 = false /\
  0 < ArithUint256.compact_value bits <= params.(powLimit) /\ hash <= ArithUint256.compact_value bits.
Proof.
  intros Hh Hb HL. unfold CheckProofOfWork.
  pose proof (ArithUint256.SetCompact_val bits Hb) as [W V]. pose proof (ArithUint256.SetCompact_overflow bits Hb) as O.
  pose proof (compact_nonneg bits) as H0.
  destruct (ArithUint256.SetCompact bits) as [[v n] o]. cbn [fst snd] in *.
  rewrite EqualTo_0, !compare_gt by (done || apply ArithUint256.UintToArith256_wf).
  rewrite !ArithUint256.lval_UintToArith256, O, V by done.
  destruct (Z.leb_spec (2 ^ 256) (ArithUint256.compact_value bits)).
  - rewrite orb_true_r. split; [done|lia].
  - rewrite Z.mod_small by lia. destruct n; [split; [done|intros [? _]; done]|]. cbn [orb].
    destruct (_ || _) eqn:E; split; [done|lia|lia|lia].
Qed.

Lemma CheckProofOfWork_exact_witness :
  CheckProofOfWork main_params (2 ^ 200) 0x1d00ffff = true <->
  (ArithUint256.SetCompact 0x1d00ffff).1.2 = false /\
  0 < ArithUint256.compact_value 0x1d00ffff <= main_params.(powLimit) /\
  2 ^ 200 <= ArithUint256.compact_value 0x1d00ffff.
Proof. apply CheckProofOfWork_exact; cbn; lia. Defined.

(** The interval rule likewise: on the main network's parameters it
    computes the clamped rational rule exactly and never exceeds the limit. *)
Theorem CalculateNextWorkRequired_exact (params : Params) (p : CBlockIndex) (first : Z) :
  params.(fPowNoRetargeting) = false ->
  0 < params.(nPowTargetTimespan) -> params.(nPowTargetTimespan) * 4 < 2 ^ 32 ->
  0 <= params.(powLimit) -> params.(powLimit) * (params.(nPowTargetTimespan) * 4) < 2 ^ 256 ->
  good_bits params p ->
  CalculateNextWorkRequired params p first
  = ArithUint256.GetCompact (ArithUint256.UintToArith256 (Z.min params.(powLimit)
      (target p * clamp (params.(nPowTargetTimespan) / 4) (params.(nPowTargetTimespan) * 4)
                    (GetBlockTime p - first) / params.(nPowTargetTimespan)))) false.
Proof.
  intros Hr HT HT' HL HL' [Hb Ht]. unfold CalculateNextWorkRequired. rewrite Hr.
  destruct (SetCompact_small (nBits p) Hb) as [W V]; [unfold target in Ht; nia|]. fold (target p) in V.
  rewrite Z.quot_div_nonneg by lia. set (T := params.(nPowTargetTimespan)) in *.
  assert (0 <= T / 4 <= T * 4) by (split; [apply Z.div_pos; lia|apply Z.div_le_upper_bound; lia]).
  pose proof (clamp_range (T / 4) (T * 4) (GetBlockTime p - first)) as Hc.
  destruct (retarget_exact params.(powLimit) _ (clamp (T / 4) (T * 4) (GetBlockTime p - first)) T W)
    as (q & Eq & Emin); [nia|lia|lia|nia|lia|].
  rewrite Eq. cbn [mbind option_bind]. by rewrite Emin, V.
Qed.

Lemma CalculateNextWorkRequired_exact_witness :
  CalculateNextWorkRequired main_params (steady 20 0x1d00ffff) 1769000000
  = ArithUint256.GetCompact (ArithUint256.UintToArith256 (Z.min main_params.(powLimit)
      (target (steady 20 0x1d00ffff) * clamp (main_params.(nPowTargetTimespan) / 4) (main_params.(nPowTargetTimespan) * 4)
                    (GetBlockTime (steady 20 0x1d00ffff) - 1769000000) / main_params.(nPowTargetTimespan)))) false.
Proof.
  apply CalculateNextWorkRequired_exact; cbn [main_params fPowNoRetargeting nPowTargetTimespan powLimit]; try lia.
  split; [cbn; lia|]. vm_compute. discriminate.
Defined.
