(* ===== verification/EvoDB.v ===== *)
(** The evolution database (dbwrapper.h, dbwrapper.cpp, evo/evodb.h,
    evo/evodb.cpp): the typed view of a key/value store with its value
    obfuscation, batches, iteration, and the write-batching transactions of
    [CEvoDB].  The store underneath (LevelDB) is the map its interface
    documents: sorted by key, batches applied atomically and in order; I/O
    errors are not modelled.  The theorems show that reads return what was
    written, and that a transaction is invisible until it commits, then atomic. *)

From S2P Require Import Prelude Serialize.

(** ** [CDataStream::Xor] *)

(** The key is cycled over the data; [key] is the part not used yet of the
    current pass over [full]. *)
Fixpoint xor_loop (full key data : bytes) : bytes :=
  match data with
  | [] => []
  | b :: data' =>
    match key with
    | k :: key' => Z.lxor b k :: xor_loop full (match key' with [] => full | _ => key' end) data'
    | [] => b :: xor_loop full key data'
    end
  end.
Definition Xor (key data : bytes) : bytes :=
  match key with [] => data | _ => xor_loop key key data end.

(** ** [CDBWrapper] *)

Record CDBWrapper := MkDB { pdb : gmap bytes bytes; obfuscate_key : bytes }.

(** The operations queued in a [CDBBatch], on the stored representations. *)
Inductive batch_op :=
| Put (slKey slValue : bytes)
| Delete (slKey : bytes).
Definition CDBBatch : Type := list batch_op.

Definition apply_op (m : gmap bytes bytes) (o : batch_op) : gmap bytes bytes :=
  match o with
  | Put k v => <[k := v]> m
  | Delete k => delete k m
  end.

Section Typed.
Context {K V : Type} (CK : Codec K) (CV : Codec V).

Definition Batch_Write (db : CDBWrapper) (b : CDBBatch) (key : K) (value : V) : CDBBatch :=
  b ++ [Put (ser CK key) (Xor db.(obfuscate_key) (ser CV value))].
Definition Batch_Erase (b : CDBBatch) (key : K) : CDBBatch := b ++ [Delete (ser CK key)].

Definition WriteBatch (db : CDBWrapper) (b : CDBBatch) : CDBWrapper :=
  MkDB (foldl apply_op db.(pdb) b) db.(obfuscate_key).

(** Decoding a stored value; a value that does not decode reads as absent. *)
Definition decode_value (db : CDBWrapper) (slValue : bytes) : option V :=
  match de CV (Xor db.(obfuscate_key) slValue) with Ok (v, _) => Some v | Err _ => None end.
Definition decode_key (slKey : bytes) : option K :=
  match de CK slKey with Ok (k, _) => Some k | Err _ => None end.

Definition Db_Read (db : CDBWrapper) (key : K) : option V :=
  slValue ← db.(pdb) !! ser CK key; decode_value db slValue.
Definition Db_Exists (db : CDBWrapper) (key : K) : bool :=
  match db.(pdb) !! ser CK key with Some _ => true | None => false end.
Definition Db_Write (db : CDBWrapper) (key : K) (value : V) : CDBWrapper :=
  WriteBatch db (Batch_Write db [] key value).
Definition Db_Erase (db : CDBWrapper) (key : K) : CDBWrapper := WriteBatch db (Batch_Erase [] key).

End Typed.

(** The stored entries in iteration order (bytewise order of the keys). *)
Definition raw_le (a b : bytes * bytes) : Prop := bytes_le a.1 b.1 = true.
#[export] Instance raw_le_dec a b : Decision (raw_le a b) := bool_eq_dec _ _.
Definition Db_entries (db : CDBWrapper) : list (bytes * bytes) := merge_sort raw_le (map_to_list db.(pdb)).

(** A cursor after [Seek(key)]: the entries from the first key not below it. *)
Definition Seek (db : CDBWrapper) (key : bytes) : list (bytes * bytes) :=
  filter (fun e => bytes_le key e.1 = true) (Db_entries db).

(** [while (Valid() && GetKey(key) && key.first == prefix)]: the keys under a
    string prefix, with their stored values. *)
Definition c_str : Codec bytes := bytevec.
Fixpoint scan_while (prefix : bytes) (es : list (bytes * bytes)) : list (uint256 * bytes) :=
  match es with
  | [] => []
  | (k, v) :: es' =>
    match decode_key (pairc c_str (blob 32)) k with
    | Some (p, h) => if bytes_eq p prefix then (h, v) :: scan_while prefix es' else []
    | None => []
    end
  end.
Definition scan (db : CDBWrapper) (prefix : bytes) : list (uint256 * bytes) :=
  scan_while prefix (Seek db (ser (pairc c_str (blob 32)) (prefix, 0))).

(** ** [CEvoDB] *)

(** [hasTransaction] is the presence of [curDBTransaction]. *)
Record CEvoDB := MkEvoDB { evo_db : CDBWrapper; curDBTransaction : option CDBBatch }.

Definition HasTransaction (e : CEvoDB) : bool :=
  match e.(curDBTransaction) with Some _ => true | None => false end.

(** [None] is the failed assertion. *)
Definition BeginTransaction (e : CEvoDB) : option CEvoDB :=
  if HasTransaction e then None else Some (MkEvoDB e.(evo_db) (Some [])).
Definition CommitTransaction (e : CEvoDB) : option CEvoDB :=
  b ← e.(curDBTransaction); Some (MkEvoDB (WriteBatch e.(evo_db) b) None).
Definition RollbackTransaction (e : CEvoDB) : option CEvoDB :=
  _ ← e.(curDBTransaction); Some (MkEvoDB e.(evo_db) None).

Section EvoOps.
Context {K V : Type} (CK : Codec K) (CV : Codec V).

Definition Read (e : CEvoDB) (key : K) : option V := Db_Read CK CV e.(evo_db) key.
Definition Exists (e : CEvoDB) (key : K) : bool := Db_Exists CK e.(evo_db) key.
Definition Write (e : CEvoDB) (key : K) (value : V) : CEvoDB :=
  match e.(curDBTransaction) with
  | Some b => MkEvoDB e.(evo_db) (Some (Batch_Write CK CV e.(evo_db) b key value))
  | None => MkEvoDB (Db_Write CK CV e.(evo_db) key value) None
  end.
Definition Erase (e : CEvoDB) (key : K) : CEvoDB :=
  match e.(curDBTransaction) with
  | Some b => MkEvoDB e.(evo_db) (Some (Batch_Erase CK b key))
  | None => MkEvoDB (Db_Erase CK e.(evo_db) key) None
  end.

End EvoOps.

Definition empty_evodb : CEvoDB := MkEvoDB (MkDB ∅ (replicate 8 0)) None.

(** ** Lemmas *)

Lemma xor_loop_involutive full key data : key <> [] -> full <> [] ->
  xor_loop full key (xor_loop full key data) = data.
Proof.
  intros Hk Hf. revert key Hk. induction data as [|b data IH]; intros key Hk; [done|].
  destruct key as [|k key]; [done|]. cbn [xor_loop]. rewrite IH by (by destruct key).
  by rewrite Z.lxor_assoc, Z.lxor_nilpotent, Z.lxor_0_r.
Qed.

Lemma Xor_involutive key data : Xor key (Xor key data) = data.
Proof. unfold Xor. destruct key as [|k key]; [done|]. by apply xor_loop_involutive. Qed.

Lemma ser_bytes {A} (C : Codec A) va `{!CodecOk C va} a : va a = true -> de C (ser C a) = Ok (a, []).
Proof. intros H. rewrite <- (app_nil_r (ser C a)). by apply de_ser. Qed.

Lemma decode_value_ser {V} (CV : Codec V) vv `{!CodecOk CV vv} db v : vv v = true ->
  decode_value CV db (Xor db.(obfuscate_key) (ser CV v)) = Some v.
Proof. intros Hv. unfold decode_value. by rewrite Xor_involutive, (ser_bytes CV vv). Qed.

Lemma decode_key_ser {K} (CK : Codec K) vk `{!CodecOk CK vk} k : vk k = true ->
  decode_key CK (ser CK k) = Some k.
Proof. intros Hk. unfold decode_key. by rewrite (ser_bytes CK vk). Qed.

(** Raw bytes as a codec: every typed operation is a raw one on the encodings. *)
Definition raw : Codec bytes := {| ser := fun b => b; de := fun s => Ok (s, []) |}.
Inductive evo_op :=
| OWrite (k v : bytes)
| OErase (k : bytes).
Definition run_op (e : CEvoDB) (o : evo_op) : CEvoDB :=
  match o with OWrite k v => Write raw raw e k v | OErase k => Erase raw e k end.
Definition op_batch (key : bytes) (o : evo_op) : batch_op :=
  match o with OWrite k v => Put k (Xor key v) | OErase k => Delete k end.

Lemma run_ops_batch ops db b :
  foldl run_op (MkEvoDB db (Some b)) ops
  = MkEvoDB db (Some (b ++ (op_batch db.(obfuscate_key) <$> ops))).
Proof.
  revert b. induction ops as [|o ops IH]; intros b; [by rewrite app_nil_r|].
  cbn [foldl fmap list_fmap]. replace (run_op (MkEvoDB db (Some b)) o)
    with (MkEvoDB db (Some (b ++ [op_batch db.(obfuscate_key) o]))) by (by destruct o).
  rewrite IH, <- app_assoc. done.
Qed.

Lemma run_ops_direct ops db :
  foldl run_op (MkEvoDB db None) ops
  = MkEvoDB (WriteBatch db (op_batch db.(obfuscate_key) <$> ops)) None.
Proof.
  revert db. induction ops as [|o ops IH]; intros db; [by destruct db|].
  cbn [foldl fmap list_fmap].
  replace (run_op (MkEvoDB db None) o)
    with (MkEvoDB (WriteBatch db [op_batch db.(obfuscate_key) o]) None) by (by destruct o).
  by rewrite IH.
Qed.

(** *** Iteration under a prefix *)

Lemma bytes_le_trans a b c : bytes_le a b = true -> bytes_le b c = true -> bytes_le a c = true.
Proof.
  revert b c. induction a as [|x a IH]; intros [|y b] [|z c]; cbn; try done.
  intros H1 H2. apply orb_true_iff in H1, H2.
  destruct H1 as [H1|[H1 H1']%andb_true_iff], H2 as [H2|[H2 H2']%andb_true_iff];
    apply orb_true_iff; try (left; lia).
  right. rewrite (IH b c) by done. lia.
Qed.
Lemma bytes_le_total a b : bytes_le a b = true \/ bytes_le b a = true.
Proof.
  revert b. induction a as [|x a IH]; intros [|y b]; cbn; auto.
  destruct (Z.lt_trichotomy x y) as [?|[->|?]]; [left; lia| |right; lia].
  rewrite !Z.eqb_refl, !Z.ltb_irrefl. apply IH.
Qed.
Lemma bytes_le_refl a : bytes_le a a = true.
Proof. by destruct (bytes_le_total a a). Qed.
Lemma bytes_le_app p a b : bytes_le (p ++ a) (p ++ b) = bytes_le a b.
Proof. induction p as [|x p IH]; [done|]. cbn. rewrite Z.ltb_irrefl, Z.eqb_refl. done. Qed.
Lemma bytes_le_between p x k y : bytes_le (p ++ x) k = true -> bytes_le k (p ++ y) = true ->
  exists z, k = p ++ z.
Proof.
  revert k. induction p as [|b p IH]; intros k H1 H2; [by exists k|].
  destruct k as [|c k]; [done|]. cbn in H1, H2.
  assert (c = b) as -> by lia. rewrite Z.ltb_irrefl, Z.eqb_refl in H1, H2.
  destruct (IH k) as [z ->]; [done..|]. by exists z.
Qed.
Lemma bytes_le_zero n x : bytes_le (le_bytes n 0) (le_bytes n x) = true.
Proof.
  revert x. induction n as [|n IH]; intros x; [done|]. cbn. rewrite IH.
  pose proof (Z.mod_pos_bound x 256). lia.
Qed.

Lemma Db_entries_sorted db : StronglySorted raw_le (Db_entries db).
Proof.
  apply Sorted_StronglySorted.
  - intros a b c. apply bytes_le_trans.
  - apply Sorted_merge_sort. intros a b. apply bytes_le_total.
Qed.

Lemma sorted_filter {A} (R : A -> A -> Prop) (P : A -> Prop) `{!forall x, Decision (P x)} l :
  StronglySorted R l -> StronglySorted R (filter P l).
Proof.
  induction 1 as [|x l Hs IH Hx]; [constructor|]. rewrite filter_cons. case_decide; [|done].
  constructor; [done|]. rewrite Forall_forall in *. intros y [_ Hy]%list_elem_of_filter. auto.
Qed.

(** The keys are byte strings, and those that start with the encoding of the
    string [prefix] are exactly encodings of pairs with a hash. *)
Definition typed_prefix (db : CDBWrapper) (prefix : bytes) : Prop :=
  forall k v, db.(pdb) !! k = Some v -> all_bytes k = true /\
    forall z, k = ser c_str prefix ++ z -> exists h, in_u 256 h = true /\ k = ser (pairc c_str (blob 32)) (prefix, h).

Lemma decode_key_prefix k p h : all_bytes k = true -> decode_key (pairc c_str (blob 32)) k = Some (p, h) ->
  exists z, k = ser c_str p ++ z.
Proof.
  unfold decode_key. intros Hb H. destruct (de _ k) as [[[p' h'] r]|] eqn:E; [|done]. injection H as -> ->.
  apply (ser_de (CodecExact := pairc_exact c_str (blob 32) valid_bytes (in_u 256))) in E as [-> _]; [|done].
  exists (ser (blob 32) h ++ r). cbn. by rewrite <- app_assoc.
Qed.

(** An entry without the prefix ends the loop. *)
Lemma scan_while_stop prefix k w es : all_bytes k = true -> ~ (exists z, k = ser c_str prefix ++ z) ->
  scan_while prefix ((k, w) :: es) = [].
Proof.
  intros Hb Hn. cbn [scan_while]. destruct (decode_key _ k) as [[p h]|] eqn:D; [|done].
  destruct (bytes_eq p prefix) eqn:Ep; [|done]. apply bytes_eq_spec in Ep as ->.
  destruct Hn. by apply (decode_key_prefix k prefix h).
Qed.

Lemma scan_while_step prefix h w es : valid_bytes prefix = true -> in_u 256 h = true ->
  scan_while prefix ((ser (pairc c_str (blob 32)) (prefix, h), w) :: es) = (h, w) :: scan_while prefix es.
Proof.
  intros Hp Hh. cbn [scan_while].
  rewrite (decode_key_ser (pairc c_str (blob 32)) (valid_pair valid_bytes (in_u 256)))
    by (unfold valid_pair; cbn [fst snd]; by rewrite Hp, Hh).
  by rewrite (proj2 (bytes_eq_spec prefix prefix) eq_refl).
Qed.

Lemma has_prefix_dec (p k : bytes) : Decision (exists z, k = p ++ z).
Proof.
  destruct (decide (take (length p) k = p)) as [E|E].
  - left. exists (drop (length p) k). rewrite <- E at 1. by rewrite take_drop.
  - right. intros [z ->]. apply E. by rewrite take_app_length.
Qed.

Lemma scan_while_exact prefix es h v : valid_bytes prefix = true ->
  StronglySorted raw_le es ->
  (forall k w, (k, w) ∈ es -> bytes_le (ser (pairc c_str (blob 32)) (prefix, 0)) k = true /\ all_bytes k = true /\
     forall z, k = ser c_str prefix ++ z ->
       exists h, in_u 256 h = true /\ k = ser (pairc c_str (blob 32)) (prefix, h)) ->
  (h, v) ∈ scan_while prefix es <-> in_u 256 h = true /\ (ser (pairc c_str (blob 32)) (prefix, h), v) ∈ es.
Proof.
  intros Hp Hs. induction Hs as [|[k w] es Hs IH Hle]; intros Hes; [rewrite !elem_of_nil; tauto|].
  destruct (Hes k w ltac:(left)) as (Hlo & Hb & Hk).
  specialize (IH (fun k' w' H => Hes k' w' (list_elem_of_further _ _ _ H))).
  destruct (has_prefix_dec (ser c_str prefix) k) as [[z Hz]|Hn].
  - destruct (Hk z Hz) as (h1 & V1 & ->). rewrite scan_while_step, !elem_of_cons, IH by done. split.
    + intros [[= -> ->]|[? ?]]; auto.
    + intros [V [H|H]]; [left|auto]. injection H as H ->. f_equal.
      apply (ser_inj (blob 32) (in_u 256)); [done..|]. cbn [pairc ser fst snd] in H.
      by apply app_inv_head in H.
  - rewrite scan_while_stop by done. split; [by intros ?%elem_of_nil|]. intros [V Hin]. destruct Hn.
    apply (bytes_le_between _ (ser (blob 32) 0) k (ser (blob 32) h)); [exact Hlo|].
    apply elem_of_cons in Hin as [Heq|Hin].
    + injection Heq as <- _. apply bytes_le_refl.
    + rewrite Forall_forall in Hle. exact (Hle _ Hin).
Qed.

Lemma scan_exact db prefix h v : valid_bytes prefix = true -> typed_prefix db prefix ->
  (h, v) ∈ scan db prefix <-> in_u 256 h = true /\ db.(pdb) !! ser (pairc c_str (blob 32)) (prefix, h) = Some v.
Proof.
  intros Hp Ht. unfold scan.
  assert (forall k w, (k, w) ∈ Seek db (ser (pairc c_str (blob 32)) (prefix, 0)) <->
    bytes_le (ser (pairc c_str (blob 32)) (prefix, 0)) k = true /\ db.(pdb) !! k = Some w) as Hin.
  { intros k w. unfold Seek, Db_entries.
    rewrite list_elem_of_filter, merge_sort_Permutation, elem_of_map_to_list. done. }
  rewrite scan_while_exact; [|done| |].
  - rewrite Hin. split; [tauto|]. intros [V H]. split_and!; [done| |done].
    cbn [pairc ser fst snd]. rewrite bytes_le_app. apply bytes_le_zero.
  - apply sorted_filter, Db_entries_sorted.
  - intros k w [Hle Hk]%Hin. destruct (Ht k w Hk). auto.
Qed.

(** *** Operations outside a transaction *)

Lemma Write_idle {K V} (CK : Codec K) (CV : Codec V) e k v : curDBTransaction e = None ->
  Write CK CV e k v = MkEvoDB (MkDB (<[ser CK k := Xor (obfuscate_key (evo_db e)) (ser CV v)]> (pdb (evo_db e)))
                                 (obfuscate_key (evo_db e))) None.
Proof. intros H. unfold Write. rewrite H. done. Qed.
Lemma Erase_idle {K} (CK : Codec K) e k : curDBTransaction e = None ->
  Erase CK e k = MkEvoDB (MkDB (delete (ser CK k) (pdb (evo_db e))) (obfuscate_key (evo_db e))) None.
Proof. intros H. unfold Erase. rewrite H. done. Qed.

Lemma typed_prefix_insert m o prefix k v : typed_prefix (MkDB m o) prefix -> all_bytes k = true ->
  (forall z, k = ser c_str prefix ++ z ->
     exists h, in_u 256 h = true /\ k = ser (pairc c_str (blob 32)) (prefix, h)) ->
  typed_prefix (MkDB (<[k := v]> m) o) prefix.
Proof.
  intros Ht Hb Hk k' v' Hl. cbn in Hl. apply lookup_insert_Some in Hl as [[<- <-]|[_ Hl]]; [done|].
  by apply (Ht k' v').
Qed.
Lemma typed_prefix_delete m o prefix k : typed_prefix (MkDB m o) prefix ->
  typed_prefix (MkDB (delete k m) o) prefix.
Proof.
  intros Ht k' v' Hl. cbn in Hl. apply lookup_delete_Some in Hl as [_ Hl]. by apply (Ht k' v').
Qed.

(** ** Properties *)

(** Outside a transaction a value written under a key is read back, and
    reads under keys with other encodings are unaffected, through the value
    obfuscation and whatever the codecs. *)
Theorem evodb_read_write {K V} (CK : Codec K) (CV : Codec V) (vv : V -> bool) (e : CEvoDB)
  (k k' : K) (v : V) :
  CodecOk CV vv -> vv v = true -> curDBTransaction e = None ->
  Read CK CV (Write CK CV e k v) k = Some v /\
  (ser CK k' <> ser CK k -> Read CK CV (Write CK CV e k v) k' = Read CK CV e k') /\
  Read CK CV (Erase CK (Write CK CV e k v) k) k = None.
Proof.
  intros HC Hv He. unfold Read, Write, Erase, Db_Read, Db_Write, Db_Erase. rewrite He.
  cbn [evo_db curDBTransaction WriteBatch Batch_Write Batch_Erase pdb obfuscate_key app foldl apply_op].
  rewrite lookup_insert_eq, lookup_delete_eq. cbn. split_and!.
  - exact (decode_value_ser CV vv (WriteBatch (evo_db e) []) v Hv).
  - intros Hne. rewrite lookup_insert_ne by done. done.
  - done.
Qed.

Lemma evodb_read_write_witness :
  let e := Write (pairc c_str (blob 32)) i32 empty_evodb ([1; 2], 7) 42 in
  Read (pairc c_str (blob 32)) i32 e ([1; 2], 7) = Some 42 /\
  (ser (pairc c_str (blob 32)) ([1; 2], 8) <> ser (pairc c_str (blob 32)) ([1; 2], 7) ->
   Read (pairc c_str (blob 32)) i32 e ([1; 2], 8)
   = Read (pairc c_str (blob 32)) i32 empty_evodb ([1; 2], 8)) /\
  Read (pairc c_str (blob 32)) i32 (Erase (pairc c_str (blob 32)) e ([1; 2], 7)) ([1; 2], 7) = None.
Proof. apply (evodb_read_write _ _ (in_s 32)); [apply _|reflexivity|reflexivity]. Defined.

(** A transaction is atomic: whatever is written and erased after
    [BeginTransaction], reads see the database as it was; rolling back
    restores it; committing has the effect of the same operations performed
    directly, in order. *)
Theorem evodb_transaction_atomic (e : CEvoDB) (ops : list evo_op) :
  curDBTransaction e = None ->
  exists e1, BeginTransaction e = Some e1 /\
    let e2 := foldl run_op e1 ops in
    evo_db e2 = evo_db e /\
    RollbackTransaction e2 = Some e /\
    CommitTransaction e2 = Some (foldl run_op e ops).
Proof.
  destruct e as [db t]. cbn. intros ->. eexists. split; [done|].
  cbn zeta. rewrite run_ops_batch, run_ops_direct. cbn. done.
Qed.

Lemma evodb_transaction_atomic_witness :
  exists e1, BeginTransaction empty_evodb = Some e1 /\
    let e2 := foldl run_op e1 [OWrite [1] [2]; OErase [3]] in
    evo_db e2 = evo_db empty_evodb /\
    RollbackTransaction e2 = Some empty_evodb /\
    CommitTransaction e2 = Some (foldl run_op empty_evodb [OWrite [1] [2]; OErase [3]]).
Proof. apply evodb_transaction_atomic. reflexivity. Defined.
