(* ===== verification/PoSe.v ===== *)
(** Proof of service (evo/pose.h, evo/pose.cpp): penalties for missed quorum
    sessions, their application to the masternode list, persistence in the
    evolution database, and the undo data for reorganisations.  The manager
    and the database are threaded through every operation.  The theorems show
    that penalties only ever ban masternodes that reached the threshold and
    change nothing else, that undoing a session restores the penalties, and
    that flushed penalties are read back by [Init]. *)

From S2P Require Import Prelude Serialize Sha256 NetAddress Primitives Params MNList EvoDB.

(** ** Data *)

Record CPoSeState := MkPoSeState {
  penaltyScore : Z;
  missedSessions : Z;
  ps_lastProcessedHeight : Z;
}.
Definition pose_state0 : CPoSeState := MkPoSeState 0 0 0.

Record CPoSeUndoEntry := MkUndoEntry {
  ue_proTxHash : uint256;
  previousState : CPoSeState;
  blockHeight : Z;
}.

Definition c_pose_state : Codec CPoSeState :=
  isoc (pairc i32 (pairc i32 i32)) (fun p => MkPoSeState p.1 p.2.1 p.2.2)
    (fun s => (s.(penaltyScore), (s.(missedSessions), s.(ps_lastProcessedHeight)))).
Definition c_undo_entry : Codec CPoSeUndoEntry :=
  isoc (pairc (blob 32) (pairc c_pose_state i32)) (fun p => MkUndoEntry p.1 p.2.1 p.2.2)
    (fun u => (u.(ue_proTxHash), (u.(previousState), u.(blockHeight)))).

(** Database keys. *)
Definition DB_POSE_STATE : bytes := str "pose_s".
Definition DB_POSE_HEIGHT : bytes := str "pose_h".
Definition DB_POSE_UNDO : bytes := str "pose_u".
Definition c_hash_key : Codec (bytes * uint256) := pairc c_str (blob 32).
Definition c_height_key : Codec (bytes * Z) := pairc c_str i32.

Record CPoSeManager := MkPoSe {
  stateMap : gmap uint256 CPoSeState;
  penalizedThisSession : gset uint256;
  lastProcessedHeight : Z;
  fDirty : bool;
  undoEntries : gmap Z (list CPoSeUndoEntry);
}.
Definition new_pose : CPoSeManager := MkPoSe ∅ ∅ 0 false ∅.

Definition MAX_UNDO_HISTORY : nat := 100.

(** Field updates. *)
Definition set_states (m : CPoSeManager) (s : gmap uint256 CPoSeState) (dirty : bool) : CPoSeManager :=
  MkPoSe s m.(penalizedThisSession) m.(lastProcessedHeight) dirty m.(undoEntries).
Definition set_undo (m : CPoSeManager) (u : gmap Z (list CPoSeUndoEntry)) : CPoSeManager :=
  MkPoSe m.(stateMap) m.(penalizedThisSession) m.(lastProcessedHeight) m.(fDirty) u.

(** [stateMap[proTxHash]] default constructs a missing entry. *)
Definition state_at (m : CPoSeManager) (h : uint256) : CPoSeState := default pose_state0 (m.(stateMap) !! h).

Definition erase_state (e : CEvoDB) (h : uint256) : CEvoDB := Erase c_hash_key e (DB_POSE_STATE, h).
Definition write_state (e : CEvoDB) (h : uint256) (s : CPoSeState) : CEvoDB :=
  Write c_hash_key c_pose_state e (DB_POSE_STATE, h) s.

(** ** Queries *)

Definition GetPenaltyScore (m : CPoSeManager) (h : uint256) : Z :=
  match m.(stateMap) !! h with Some s => s.(penaltyScore) | None => 0 end.
Definition GetMissedSessions (m : CPoSeManager) (h : uint256) : Z :=
  match m.(stateMap) !! h with Some s => s.(missedSessions) | None => 0 end.
Definition GetState (m : CPoSeManager) (h : uint256) : option CPoSeState := m.(stateMap) !! h.
(** The pairs of the result map, in key order. *)
Definition GetAllPenalties (m : CPoSeManager) : list (uint256 * Z) :=
  (fun p => (p.1, p.2.(penaltyScore))) <$> filter (fun p => 0 < p.2.(penaltyScore)) (map_entries m.(stateMap)).
Definition VerifyConsistency (m : CPoSeManager) (expectedHeight : Z) : bool :=
  if negb (m.(lastProcessedHeight) =? expectedHeight) then false
  else forallb (fun p => p.2.(ps_lastProcessedHeight) <=? expectedHeight) (map_entries m.(stateMap)).

(** ** Penalties *)

Definition IncrementPenalty (m : CPoSeManager) (h : uint256) (amount : Z) : CPoSeManager :=
  if amount <=? 0 then m
  else
    let s := state_at m h in
    set_states m (<[h := MkPoSeState (wraps 32 (s.(penaltyScore) + amount)) s.(missedSessions)
                          s.(ps_lastProcessedHeight)]> m.(stateMap)) true.

Definition DecrementPenalty (m : CPoSeManager) (e : CEvoDB) (h : uint256) (amount : Z)
  : CPoSeManager * CEvoDB :=
  if amount <=? 0 then (m, e)
  else match m.(stateMap) !! h with
  | None => (m, e)
  | Some s =>
    let s' := MkPoSeState (Z.max 0 (s.(penaltyScore) - amount)) s.(missedSessions) s.(ps_lastProcessedHeight) in
    if (s'.(penaltyScore) =? 0) && (s'.(missedSessions) =? 0)
    then (set_states m (delete h m.(stateMap)) true, erase_state e h)
    else (set_states m (<[h := s']> m.(stateMap)) true, e)
  end.

Definition ResetPenalty (m : CPoSeManager) (e : CEvoDB) (h : uint256) : CPoSeManager * CEvoDB :=
  match m.(stateMap) !! h with
  | None => (m, e)
  | Some _ => (set_states m (delete h m.(stateMap)) false, erase_state e h)
  end.

Definition ClearSessionTracking (m : CPoSeManager) : CPoSeManager :=
  MkPoSe m.(stateMap) ∅ m.(lastProcessedHeight) m.(fDirty) m.(undoEntries).

Definition RecordMissedSession (cp : Params) (m : CPoSeManager) (h : uint256) : CPoSeManager :=
  let s := state_at m h in
  let s1 := MkPoSeState s.(penaltyScore) (wraps 32 (s.(missedSessions) + 1)) m.(lastProcessedHeight) in
  if decide (h ∈ m.(penalizedThisSession)) then set_states m (<[h := s1]> m.(stateMap)) m.(fDirty)
  else
    let s2 := MkPoSeState (wraps 32 (s1.(penaltyScore) + cp.(nPoSePenaltyIncrement)))
                s1.(missedSessions) s1.(ps_lastProcessedHeight) in
    MkPoSe (<[h := s2]> m.(stateMap)) ({[h]} ∪ m.(penalizedThisSession)) m.(lastProcessedHeight)
      true m.(undoEntries).

Definition RecordParticipation (m : CPoSeManager) (e : CEvoDB) (h : uint256) : CPoSeManager * CEvoDB :=
  match m.(stateMap) !! h with
  | None => (m, e)
  | Some s =>
    let s1 := MkPoSeState s.(penaltyScore) 0 m.(lastProcessedHeight) in
    if 0 <? s1.(penaltyScore) then
      let s2 := MkPoSeState (Z.max 0 (s1.(penaltyScore) - 1)) 0 m.(lastProcessedHeight) in
      if (s2.(penaltyScore) =? 0) && (s2.(missedSessions) =? 0)
      then (set_states m (delete h m.(stateMap)) true, erase_state e h)
      else (set_states m (<[h := s2]> m.(stateMap)) true, e)
    else (set_states m (<[h := s1]> m.(stateMap)) m.(fDirty), e)
  end.

(** ** Undo data *)

Definition make_undo (m : CPoSeManager) (height : Z) (h : uint256) : CPoSeUndoEntry :=
  MkUndoEntry h (state_at m h) height.

(** [undoEntries.begin()->first] *)
Definition oldest (u : gmap Z (list CPoSeUndoEntry)) : option Z :=
  foldr (fun p acc => match acc with None => Some p.1 | Some k => Some (Z.min p.1 k) end) None (map_to_list u).

(** [while (undoEntries.size() > MAX_UNDO_HISTORY)]: each iteration removes one
    entry, so the size of the map is enough fuel. *)
Fixpoint evict_undo (fuel : nat) (u : gmap Z (list CPoSeUndoEntry)) (e : CEvoDB)
  : gmap Z (list CPoSeUndoEntry) * CEvoDB :=
  match fuel with
  | O => (u, e)
  | S fuel' =>
    if (MAX_UNDO_HISTORY <? size u)%nat then
      match oldest u with
      | Some k => evict_undo fuel' (delete k u) (Erase c_height_key e (DB_POSE_UNDO, k))
      | None => (u, e)
      end
    else (u, e)
  end.

Definition PrepareUndo (m : CPoSeManager) (e : CEvoDB) (height : Z) (affectedMNs : list uint256)
  : CPoSeManager * CEvoDB :=
  let entries := make_undo m height <$> affectedMNs in
  let u := <[height := entries]> m.(undoEntries) in
  let e := Write c_height_key (vec c_undo_entry) e (DB_POSE_UNDO, height) entries in
  let '(u, e) := evict_undo (size u) u e in
  (set_undo m u, e).

Definition restore_entry (acc : gmap uint256 CPoSeState * CEvoDB) (u : CPoSeUndoEntry)
  : gmap uint256 CPoSeState * CEvoDB :=
  let '(sm, e) := acc in
  let p := u.(previousState) in
  if (p.(penaltyScore) =? 0) && (p.(missedSessions) =? 0) && (p.(ps_lastProcessedHeight) =? 0)
  then (delete u.(ue_proTxHash) sm, erase_state e u.(ue_proTxHash))
  else (<[u.(ue_proTxHash) := p]> sm, write_state e u.(ue_proTxHash) p).

Definition UndoBlock (m : CPoSeManager) (e : CEvoDB) (height : Z) : bool * CPoSeManager * CEvoDB :=
  let found := match m.(undoEntries) !! height with
               | Some es => Some es
               | None => Read c_height_key (vec c_undo_entry) e (DB_POSE_UNDO, height)
               end in
  match found with
  | None => (false, m, e)
  | Some entries =>
    let '(sm, e) := foldl restore_entry (m.(stateMap), e) entries in
    let e := Erase c_height_key e (DB_POSE_UNDO, height) in
    let u := delete height m.(undoEntries) in
    if m.(lastProcessedHeight) =? height then
      (true, MkPoSe sm m.(penalizedThisSession) (height - 1) m.(fDirty) u,
       Write c_str i32 e DB_POSE_HEIGHT (height - 1))
    else (true, MkPoSe sm m.(penalizedThisSession) m.(lastProcessedHeight) m.(fDirty) u, e)
  end.

(** ** Sessions *)

Definition session_step (cp : Params) (participants : gset uint256)
  (acc : CPoSeManager * CEvoDB) (h : uint256) : CPoSeManager * CEvoDB :=
  let '(m, e) := acc in
  if decide (h ∈ participants) then RecordParticipation m e h
  else (RecordMissedSession cp m h, e).

Definition ProcessQuorumSession (cp : Params) (m : CPoSeManager) (e : CEvoDB)
  (participants expectedMembers : list uint256) (currentHeight : Z) : CPoSeManager * CEvoDB :=
  let '(m, e) := PrepareUndo m e currentHeight expectedMembers in
  let m := ClearSessionTracking m in
  let m := MkPoSe m.(stateMap) m.(penalizedThisSession) currentHeight true m.(undoEntries) in
  foldl (session_step cp (list_to_set participants)) (m, e) expectedMembers.

(** ** Persistence *)

Definition Flush (m : CPoSeManager) (e : CEvoDB) : CPoSeManager * CEvoDB :=
  if negb m.(fDirty) then (m, e)
  else
    let e := foldl (fun e p => write_state e p.1 p.2) e (map_entries m.(stateMap)) in
    let e := Write c_str i32 e DB_POSE_HEIGHT m.(lastProcessedHeight) in
    (set_states m m.(stateMap) false, e).

(** The heights of the loop that loads undo data, in its order. *)
Definition undo_heights (last : Z) : list Z :=
  filter (fun h => 0 <= h) ((fun i => last - Z.of_nat i) <$> seq 0 MAX_UNDO_HISTORY).

Definition Init (m : CPoSeManager) (e : CEvoDB) : CPoSeManager :=
  let last := default m.(lastProcessedHeight) (Read c_str i32 e DB_POSE_HEIGHT) in
  let sm := foldl (fun sm p => match decode_value c_pose_state e.(evo_db) p.2 with
                               | Some s => <[p.1 := s]> sm
                               | None => sm
                               end) m.(stateMap) (scan e.(evo_db) DB_POSE_STATE) in
  let u := foldl (fun u h => match Read c_height_key (vec c_undo_entry) e (DB_POSE_UNDO, h) with
                             | Some es => <[h := es]> u
                             | None => u
                             end) m.(undoEntries) (undo_heights last) in
  MkPoSe sm m.(penalizedThisSession) last m.(fDirty) u.

(** ** Punishment *)

Definition punished_state (s : CDeterministicMNState) (penalty ban : Z) : CDeterministicMNState :=
  MkState s.(nRegisteredHeight) s.(nLastPaidHeight) penalty s.(nPoSeRevivedHeight) ban
    s.(nRevocationReason) s.(nTier) s.(nLastServiceUpdateHeight) s.(nLastRegistrarUpdateHeight)
    s.(keyIDOwner) s.(vchOperatorPubKey) s.(keyIDVoting) s.(mn_addr) s.(scriptPayout)
    s.(scriptOperatorPayout).

Definition punish_updates (m : CPoSeManager) (l : CDeterministicMNList) (currentHeight banThreshold : Z)
  : list (uint256 * CDeterministicMNState) :=
  omap (fun p =>
    let penalty := p.2.(penaltyScore) in
    match GetMN l p.1 with
    | None => None
    | Some mn =>
      if IsBanned mn.(mn_state) then None
      else
        let ban := if banThreshold <=? penalty then currentHeight else mn.(mn_state).(nPoSeBanHeight) in
        Some (p.1, punished_state mn.(mn_state) penalty ban)
    end) (map_entries m.(stateMap)).

(** [penaltyIncrement] is not used by the source. *)
Definition CheckAndPunish `{Hash256} (m : CPoSeManager) (l : CDeterministicMNList)
  (currentHeight penaltyIncrement banThreshold : Z) : CDeterministicMNList :=
  BatchUpdateMNStates l (punish_updates m l currentHeight banThreshold).

(** ** Lemmas *)

Section Punish.
Context `{HH : Hash256}.

Lemma props_punished mn penalty ban :
  props (set_state mn (punished_state mn.(mn_state) penalty ban)) = props mn.
Proof. by destruct mn as [? ? ? [] ?]. Qed.

(** A batch whose updates keep every unique property only replaces states. *)
Lemma batch_same updates : forall l,
  NoDup (fst <$> updates) ->
  (forall id s, (id, s) ∈ updates -> exists mn, GetMN l id = Some mn /\ props (set_state mn s) = props mn) ->
  (forall id s mn, (id, s) ∈ updates -> GetMN l id = Some mn ->
     GetMN (BatchUpdateMNStates l updates) id = Some (set_state mn s)) /\
  (forall id, id ∉ fst <$> updates -> GetMN (BatchUpdateMNStates l updates) id = GetMN l id) /\
  mnUniquePropertyMap (BatchUpdateMNStates l updates) = mnUniquePropertyMap l.
Proof.
  induction updates as [|[id s] us IH]; intros l ND Hs; [set_solver|].
  inv ND. destruct (Hs id s) as (mn & E & Hp); [left|].
  assert (forall k, k <> id -> GetMN (UpdateMN l id s) k = GetMN l k) as Hne.
  { intros k Hk. rewrite (UpdateMN_same l id mn) by done. unfold GetMN. cbn. by rewrite lookup_insert_ne. }
  assert (forall k s', (k, s') ∈ us -> k <> id) as Hin.
  { intros k s' Hk ->. apply H1. by apply (list_elem_of_fmap_2 fst _ (id, s')). }
  destruct (IH (UpdateMN l id s)) as (I1 & I2 & I3); [done| |].
  { intros k s' Hk. rewrite Hne by eauto. apply Hs. by right. }
  cbn [BatchUpdateMNStates foldl fst snd] in *.
  change (foldl _ (UpdateMN l id s) us) with (BatchUpdateMNStates (UpdateMN l id s) us).
  split_and!.
  - intros k s' mn' [[= -> ->]|Hk]%elem_of_cons Hm.
    + rewrite I2 by done. rewrite (UpdateMN_same l id mn) by done. unfold GetMN. cbn.
      rewrite lookup_insert_eq. congruence.
    + apply (I1 k s'); [done|]. rewrite Hne by eauto. done.
  - intros k Hk. cbn in Hk. rewrite not_elem_of_cons in Hk. rewrite I2 by tauto. apply Hne. tauto.
  - rewrite I3. rewrite (UpdateMN_same l id mn) by done. done.
Qed.

Lemma elem_of_punish_updates m l h t id s :
  (id, s) ∈ punish_updates m l h t <->
  exists st mn, stateMap m !! id = Some st /\ GetMN l id = Some mn /\ IsBanned mn.(mn_state) = false /\
    s = punished_state mn.(mn_state) st.(penaltyScore)
          (if t <=? st.(penaltyScore) then h else mn.(mn_state).(nPoSeBanHeight)).
Proof.
  unfold punish_updates. rewrite list_elem_of_omap. split.
  - intros ([id' st] & Hin & Hs). cbn [fst snd] in Hs. apply elem_of_map_entries in Hin.
    destruct (GetMN l id') as [mn|] eqn:E; [|done].
    destruct (IsBanned _) eqn:B; [done|]. injection Hs as <- <-. by exists st, mn.
  - intros (st & mn & Hst & E & B & ->). exists (id, st). rewrite elem_of_map_entries.
    split; [done|]. cbn [fst snd]. by rewrite E, B.
Qed.

Lemma NoDup_punish_updates m l h t : NoDup (fst <$> punish_updates m l h t).
Proof.
  unfold punish_updates. pose proof (NoDup_map_entries (stateMap m)) as ND. revert ND.
  induction (map_entries (stateMap m)) as [|[id st] es IH]; intros ND; [constructor|].
  inv ND. cbn [omap list_omap fst snd]. destruct (GetMN l id) as [mn|]; [|by apply IH].
  destruct (IsBanned _); [by apply IH|]. cbn. constructor; [|by apply IH].
  intros (x & -> & ([id' st'] & Hin & Hs)%list_elem_of_omap)%list_elem_of_fmap. apply H1.
  cbn [fst snd] in Hs. destruct (GetMN l id'); [|done].
  destruct (IsBanned _); [done|]. injection Hs as <-. cbn.
  by apply (list_elem_of_fmap_2 fst _ (id', st')).
Qed.

Lemma CheckAndPunish_keeps_props m l h t :
  (forall id s mn, (id, s) ∈ punish_updates m l h t -> GetMN l id = Some mn ->
     props (set_state mn s) = props mn).
Proof.
  intros id s mn (st & mn' & _ & E & _ & ->)%elem_of_punish_updates E'.
  assert (mn' = mn) as -> by congruence. apply props_punished.
Qed.

Lemma WF_CheckAndPunish m l h inc t : WF l -> WF (CheckAndPunish m l h inc t).
Proof.
  intros WFl. apply WF_BatchUpdateMNStates; [done|]. by apply CheckAndPunish_keeps_props.
Qed.

(** Punishment is exact: a masternode that is not banned and has a recorded
    penalty gets that penalty, and is banned at this height exactly when the
    penalty reaches the threshold; every other masternode, every other field
    and the property index are untouched. *)
Theorem CheckAndPunish_exact (m : CPoSeManager) (l : CDeterministicMNList)
  (height increment threshold : Z) (id : uint256) :
  let l' := CheckAndPunish m l height increment threshold in
  mnUniquePropertyMap l' = mnUniquePropertyMap l /\
  GetMN l' id =
    match GetMN l id with
    | None => None
    | Some mn =>
      match GetState m id with
      | Some st =>
        if IsBanned mn.(mn_state) then Some mn
        else Some (set_state mn (punished_state mn.(mn_state) st.(penaltyScore)
               (if threshold <=? st.(penaltyScore) then height else mn.(mn_state).(nPoSeBanHeight))))
      | None => Some mn
      end
    end.
Proof.
  cbn zeta. unfold CheckAndPunish, GetState.
  destruct (batch_same (punish_updates m l height threshold) l) as (B1 & B2 & B3).
  { apply NoDup_punish_updates. }
  { intros k s Hin. pose proof Hin as (st & mn & _ & E & _ & ->)%elem_of_punish_updates.
    exists mn. split; [done|apply props_punished]. }
  split; [done|].
  destruct (decide (id ∈ fst <$> punish_updates m l height threshold)) as [Hin|Hout].
  - apply list_elem_of_fmap in Hin as ([k s] & -> & Hin). cbn [fst].
    pose proof Hin as (st & mn & Est & E & Hb & ->)%elem_of_punish_updates.
    rewrite (B1 _ _ _ Hin E), E, Est, Hb. done.
  - rewrite (B2 _ Hout). destruct (GetMN l id) as [mn|] eqn:E; [|done].
    destruct (stateMap m !! id) as [st|] eqn:Est; [|done].
    destruct (IsBanned (mn_state mn)) eqn:Hb; [done|]. exfalso. apply Hout.
    apply list_elem_of_fmap. eexists (id, _). split; [done|]. apply elem_of_punish_updates.
    by exists st, mn.
Qed.

End Punish.

(** *** Persistence *)

Definition valid_pose_state (s : CPoSeState) : bool :=
  in_s 32 s.(penaltyScore) && in_s 32 s.(missedSessions) && in_s 32 s.(ps_lastProcessedHeight).
Definition valid_undo (u : CPoSeUndoEntry) : bool :=
  in_u 256 u.(ue_proTxHash) && valid_pose_state u.(previousState) && in_s 32 u.(blockHeight).

#[export] Instance c_pose_state_ok : CodecOk c_pose_state valid_pose_state.
Proof.
  eapply isoc_ok; [apply _|]. intros [a b c]. unfold valid_pose_state, valid_pair. cbn. split; [lia|done].
Qed.
#[export] Instance c_undo_entry_ok : CodecOk c_undo_entry valid_undo.
Proof.
  eapply isoc_ok; [apply _|]. intros [a b c]. unfold valid_undo, valid_pair. cbn. split; [lia|done].
Qed.

(** The stored penalty of a masternode. *)
Definition stored (e : CEvoDB) (h : uint256) : option bytes :=
  e.(evo_db).(pdb) !! ser c_hash_key (DB_POSE_STATE, h).
Definition stored_undo (e : CEvoDB) (k : Z) : option (list CPoSeUndoEntry) :=
  Read c_height_key (vec c_undo_entry) e (DB_POSE_UNDO, k).

(** Outside a transaction: values fit their types, in memory and in the
    database, and the database has penalties only for masternodes that have
    one in memory (changes may be unsaved, but no erased penalty is left). *)
Record synced (sm : gmap uint256 CPoSeState) (u : gmap Z (list CPoSeUndoEntry)) (last : Z) (e : CEvoDB)
  : Prop := {
  sy_idle : curDBTransaction e = None;
  sy_typed : typed_prefix e.(evo_db) DB_POSE_STATE;
  sy_known : forall h, in_u 256 h = true -> is_Some (stored e h) -> is_Some (sm !! h);
  sy_states : forall h s, sm !! h = Some s -> in_u 256 h = true /\ valid_pose_state s = true;
  sy_last : in_s 32 last = true;
  sy_undo : forall k es, u !! k = Some es -> valid_vec valid_undo es = true;
  sy_stored_undo : forall k es, stored_undo e k = Some es -> valid_vec valid_undo es = true;
}.
Definition pose_synced (m : CPoSeManager) (e : CEvoDB) : Prop :=
  synced m.(stateMap) m.(undoEntries) m.(lastProcessedHeight) e.

Lemma c_hash_key_inj p h h' : in_u 256 h = true -> in_u 256 h' = true ->
  ser c_hash_key (p, h) = ser c_hash_key (p, h') -> h = h'.
Proof.
  intros V V' H. cbn [c_hash_key pairc ser fst snd] in H. apply app_inv_head in H.
  by apply (ser_inj (blob 32) (in_u 256)) in H.
Qed.

(** A pair key is never the key of the saved height. *)
Lemma height_key_other h : ser c_str DB_POSE_HEIGHT <> ser c_hash_key (DB_POSE_STATE, h).
Proof. intros H%(f_equal (take 7)). discriminate H. Qed.
Lemma undo_key_other k h : ser c_height_key (DB_POSE_UNDO, k) <> ser c_hash_key (DB_POSE_STATE, h).
Proof. intros H%(f_equal (take 7)). discriminate H. Qed.

Lemma state_undo_other h k : ser c_hash_key (DB_POSE_STATE, h) <> ser c_height_key (DB_POSE_UNDO, k).
Proof. intros H%(f_equal (take 7)). discriminate H. Qed.
Lemma height_undo_other k : ser c_str DB_POSE_HEIGHT <> ser c_height_key (DB_POSE_UNDO, k).
Proof. intros H%(f_equal (take 7)). discriminate H. Qed.

Lemma undo_key_bytes k : all_bytes (ser c_height_key (DB_POSE_UNDO, k)) = true.
Proof.
  cbn [c_height_key pairc ser fst snd]. unfold all_bytes. rewrite forallb_app.
  apply andb_true_iff. split; [reflexivity|]. apply (le_bytes_all_bytes 4).
Qed.
Lemma state_key_bytes h : all_bytes (ser c_hash_key (DB_POSE_STATE, h)) = true.
Proof.
  cbn [c_hash_key pairc ser fst snd]. unfold all_bytes. rewrite forallb_app.
  apply andb_true_iff. split; [reflexivity|]. apply (le_bytes_all_bytes 32).
Qed.

(** Memory changes. *)
Lemma synced_insert sm u last e h s : synced sm u last e -> in_u 256 h = true -> valid_pose_state s = true ->
  synced (<[h := s]> sm) u last e.
Proof.
  intros [] Hh Hs. split; auto.
  - intros h' Hh' Hst. rewrite lookup_insert_is_Some. destruct (decide (h = h')); auto.
  - intros h' s' [[<- <-]|[_ Hl]]%lookup_insert_Some; auto.
Qed.
Lemma synced_last sm u last last' e : synced sm u last e -> in_s 32 last' = true -> synced sm u last' e.
Proof. intros [] H. by split. Qed.
Lemma synced_undo sm u last e k es : synced sm u last e -> valid_vec valid_undo es = true ->
  synced sm (<[k := es]> u) last e.
Proof. intros [] H. split; auto. intros k' es' [[<- <-]|[_ Hl]]%lookup_insert_Some; eauto. Qed.
Lemma synced_undo_delete sm u last e k : synced sm u last e -> synced sm (delete k u) last e.
Proof. intros []. split; auto. intros k' es' [_ Hl]%lookup_delete_Some. eauto. Qed.

(** Database changes. *)
Lemma stored_undo_frame m m' o t t' k :
  m !! ser c_height_key (DB_POSE_UNDO, k) = m' !! ser c_height_key (DB_POSE_UNDO, k) ->
  stored_undo (MkEvoDB (MkDB m o) t) k = stored_undo (MkEvoDB (MkDB m' o) t') k.
Proof. unfold stored_undo, Read, Db_Read. cbn [evo_db pdb]. intros ->. done. Qed.

Lemma synced_erase sm u last e h : synced sm u last e -> in_u 256 h = true ->
  synced (delete h sm) u last (erase_state e h).
Proof.
  destruct e as [[m o] t]. intros [] Hh. unfold erase_state. rewrite Erase_idle by done. cbn [evo_db pdb obfuscate_key].
  split; auto.
  - by apply typed_prefix_delete.
  - intros h' Hh' [v Hv]. unfold stored in Hv. cbn [evo_db pdb] in Hv.
    apply lookup_delete_Some in Hv as [Hne Hv]. rewrite lookup_delete_ne by congruence. apply sy_known0; eauto.
  - intros h' s' [_ Hl]%lookup_delete_Some. eauto.
  - intros k es Hr. apply (sy_stored_undo0 k). rewrite <- Hr. apply stored_undo_frame.
    rewrite lookup_delete_ne; [done|]. apply state_undo_other.
Qed.

Lemma synced_write_state sm u last e h s : synced sm u last e -> is_Some (sm !! h) ->
  synced sm u last (write_state e h s).
Proof.
  destruct e as [[m o] t]. intros [] Hh. unfold write_state. rewrite Write_idle by done.
  cbn [evo_db pdb obfuscate_key]. pose proof Hh as [s0 Hs0]. destruct (sy_states0 h s0 Hs0) as [V _].
  split; auto.
  - apply typed_prefix_insert; [done|apply state_key_bytes|]. eauto.
  - intros h' Hh' [v Hv]. unfold stored in Hv. cbn [evo_db pdb] in Hv.
    apply lookup_insert_Some in Hv as [[He _]|[_ Hv]]; [|apply sy_known0; eauto].
    apply c_hash_key_inj in He as <-; auto.
  - intros k es Hr. apply (sy_stored_undo0 k). rewrite <- Hr. apply stored_undo_frame.
    rewrite lookup_insert_ne; [done|]. apply state_undo_other.
Qed.

(** Keys of other kinds are never penalty keys. *)
Lemma synced_write_other {K V} (CK : Codec K) (CV : Codec V) sm u last e k v :
  synced sm u last e -> all_bytes (ser CK k) = true ->
  (forall z, ser CK k <> ser c_str DB_POSE_STATE ++ z) ->
  (forall k' es, stored_undo (Write CK CV e k v) k' = Some es -> valid_vec valid_undo es = true) ->
  synced sm u last (Write CK CV e k v).
Proof.
  destruct e as [[m o] t]. intros [] Hb Hn Hu. rewrite Write_idle in * by done.
  cbn [evo_db pdb obfuscate_key] in *. split; auto.
  - apply typed_prefix_insert; [done..|]. intros z Hz. by destruct (Hn z).
  - intros h' Hh' [w Hv]. unfold stored in Hv. cbn [evo_db pdb] in Hv. rewrite lookup_insert_ne in Hv.
    + apply sy_known0; eauto.
    + apply Hn.
Qed.

Lemma synced_write_undo sm u last e k es : synced sm u last e -> valid_vec valid_undo es = true ->
  synced sm u last (Write c_height_key (vec c_undo_entry) e (DB_POSE_UNDO, k) es).
Proof.
  intros S V. apply synced_write_other; [done|apply undo_key_bytes| |].
  { intros z Hz%(f_equal (take 7)). discriminate Hz. }
  intros k' es'. destruct e as [[m o] t], S. rewrite Write_idle by done.
  unfold stored_undo, Read, Db_Read. cbn [evo_db pdb obfuscate_key].
  destruct (decide (ser c_height_key (DB_POSE_UNDO, k) = ser c_height_key (DB_POSE_UNDO, k'))) as [E|E].
  - rewrite <- E, lookup_insert_eq. cbn [mbind option_bind].
    pose proof (decode_value_ser (vec c_undo_entry) (valid_vec valid_undo)
      (MkDB (<[ser c_height_key (DB_POSE_UNDO, k) := Xor o (ser (vec c_undo_entry) es)]> m) o) es V) as D.
    cbn [obfuscate_key] in D. rewrite D. by intros [= <-].
  - rewrite lookup_insert_ne by done. apply (sy_stored_undo0 k').
Qed.

Lemma synced_erase_undo sm u last e k : synced sm u last e ->
  synced sm u last (Erase c_height_key e (DB_POSE_UNDO, k)).
Proof.
  destruct e as [[m o] t]. intros []. rewrite Erase_idle by done. cbn [evo_db pdb obfuscate_key]. split; auto.
  - by apply typed_prefix_delete.
  - intros h' Hh' [v Hv]. unfold stored in Hv. cbn [evo_db pdb] in Hv.
    apply lookup_delete_Some in Hv as [_ Hv]. apply sy_known0; eauto.
  - intros k' es. unfold stored_undo, Read, Db_Read. cbn [evo_db pdb].
    destruct (decide (ser c_height_key (DB_POSE_UNDO, k) = ser c_height_key (DB_POSE_UNDO, k'))) as [E|E].
    + by rewrite E, lookup_delete_eq.
    + rewrite lookup_delete_ne by done. apply (sy_stored_undo0 k').
Qed.

Lemma synced_write_height sm u last e v : synced sm u last e -> 
  synced sm u last (Write c_str i32 e DB_POSE_HEIGHT v).
Proof.
  intros S. apply synced_write_other; [done|reflexivity| |].
  { intros z Hz%(f_equal (take 7)). discriminate Hz. }
  intros k' es'. destruct e as [[m o] t], S. rewrite Write_idle by done. intros Hr.
  apply (sy_stored_undo0 k'). rewrite <- Hr. apply stored_undo_frame.
  cbn [evo_db pdb]. rewrite lookup_insert_ne; [done|]. apply height_undo_other.
Qed.

(** *** Every operation keeps memory and database in step *)

Lemma synced_evict fuel sm u last e : synced sm u last e ->
  synced sm (evict_undo fuel u e).1 last (evict_undo fuel u e).2.
Proof.
  revert u e. induction fuel as [|fuel IH]; intros u e S; [done|]. cbn [evict_undo].
  case_match; [|done]. destruct (oldest u) as [k|]; [|done].
  apply IH, synced_undo_delete, synced_erase_undo, S.
Qed.

Lemma state_at_valid m e h : pose_synced m e -> valid_pose_state (state_at m h) = true.
Proof.
  intros S. unfold state_at. destruct (stateMap m !! h) as [s|] eqn:E; [|reflexivity].
  by apply (sy_states _ _ _ _ S h s).
Qed.

Lemma wraps_in_s x : in_s 32 (wraps 32 x) = true.
Proof. unfold in_s, wraps. pose proof (Z.mod_pos_bound (x + 2 ^ (32 - 1)) (2 ^ 32)). lia. Qed.

Lemma synced_PrepareUndo m e k ids : pose_synced m e -> in_s 32 k = true ->
  Forall (fun h => in_u 256 h = true) ids -> Z.of_nat (length ids) <= MAX_SIZE ->
  pose_synced (PrepareUndo m e k ids).1 (PrepareUndo m e k ids).2.
Proof.
  intros S Hk Hids Hlen. unfold PrepareUndo.
  set (es := make_undo m k <$> ids).
  assert (valid_vec valid_undo es = true) as V.
  { unfold valid_vec, es. rewrite length_fmap. apply andb_true_iff. split; [lia|].
    apply forallb_forall. intros u (h & -> & Hh)%list_elem_of_In%list_elem_of_fmap.
    rewrite Forall_forall in Hids. unfold valid_undo. cbn.
    by rewrite (Hids h Hh), (state_at_valid m e), Hk. }
  set (e1 := Write c_height_key (vec c_undo_entry) e (DB_POSE_UNDO, k) es).
  pose proof (synced_evict (size (<[k := es]> (undoEntries m))) (stateMap m) (<[k := es]> (undoEntries m))
    (lastProcessedHeight m) e1 (synced_undo _ _ _ _ k es (synced_write_undo _ _ _ _ k es S V) V)) as R.
  destruct (evict_undo _ _ e1) as [u e2]. exact R.
Qed.

Lemma synced_IncrementPenalty m e h a : pose_synced m e -> in_u 256 h = true ->
  pose_synced (IncrementPenalty m h a) e.
Proof.
  intros S Hh. unfold IncrementPenalty. case_match; [done|]. apply synced_insert; [done..|].
  pose proof (state_at_valid m e h S) as V. unfold valid_pose_state in *. cbn.
  rewrite wraps_in_s. lia.
Qed.

Lemma synced_DecrementPenalty m e h a : pose_synced m e ->
  pose_synced (DecrementPenalty m e h a).1 (DecrementPenalty m e h a).2.
Proof.
  intros S. unfold DecrementPenalty. destruct (a <=? 0) eqn:Ha; [done|].
  destruct (stateMap m !! h) as [s|] eqn:E; [|done].
  destruct (sy_states _ _ _ _ S h s E) as [Hh Hs].
  case_match; [by apply synced_erase|]. apply synced_insert; [done..|].
  unfold valid_pose_state, in_s in *. cbn. lia.
Qed.

Lemma synced_ResetPenalty m e h : pose_synced m e ->
  pose_synced (ResetPenalty m e h).1 (ResetPenalty m e h).2.
Proof.
  intros S. unfold ResetPenalty. destruct (stateMap m !! h) as [s|] eqn:E; [|done].
  apply synced_erase; [done|]. by apply (sy_states _ _ _ _ S h s).
Qed.

Lemma synced_RecordMissedSession cp m e h : pose_synced m e -> in_u 256 h = true ->
  pose_synced (RecordMissedSession cp m h) e.
Proof.
  intros S Hh. pose proof (state_at_valid m e h S) as V. pose proof (sy_last _ _ _ _ S) as L.
  unfold RecordMissedSession. case_decide; (apply synced_insert; [done..|]);
    unfold valid_pose_state in *; cbn; rewrite !wraps_in_s, L; lia.
Qed.

Lemma synced_RecordParticipation m e h : pose_synced m e ->
  pose_synced (RecordParticipation m e h).1 (RecordParticipation m e h).2.
Proof.
  intros S. pose proof (sy_last _ _ _ _ S) as L. unfold RecordParticipation.
  destruct (stateMap m !! h) as [s|] eqn:E; [|done].
  destruct (sy_states _ _ _ _ S h s E) as [Hh Hs].
  repeat case_match; [by apply synced_erase| |]; (apply synced_insert; [done..|]);
    unfold valid_pose_state, in_s in *; cbn in *; lia.
Qed.

Lemma synced_session cp m e ps ms k : pose_synced m e -> in_s 32 k = true ->
  Forall (fun h => in_u 256 h = true) ms -> Z.of_nat (length ms) <= MAX_SIZE ->
  pose_synced (ProcessQuorumSession cp m e ps ms k).1 (ProcessQuorumSession cp m e ps ms k).2.
Proof.
  intros S Hk Hms Hlen. unfold ProcessQuorumSession.
  pose proof (synced_PrepareUndo m e k ms S Hk Hms Hlen) as S1.
  destruct (PrepareUndo m e k ms) as [m1 e1]. cbn [fst snd] in S1.
  match goal with |- context [foldl _ (?a, e1) ms] =>
    assert (pose_synced a e1) as S2 by (by apply (synced_last _ _ (lastProcessedHeight m1)));
    generalize dependent a end.
  clear S S1 m e Hlen. intros m2. revert m2 e1. induction Hms as [|h ms Hh Hms IH]; intros m e S; [done|].
  cbn [foldl]. unfold session_step at 2 4. case_decide.
  - pose proof (synced_RecordParticipation m e h S) as R. destruct (RecordParticipation m e h). by apply IH.
  - by apply IH, synced_RecordMissedSession.
Qed.

Lemma synced_restore es : forall sm u last e, synced sm u last e -> valid_vec valid_undo es = true ->
  synced (foldl restore_entry (sm, e) es).1 u last (foldl restore_entry (sm, e) es).2.
Proof.
  intros sm u last e S [_ V]%andb_true_iff. revert sm e S. induction es as [|x es IH]; intros sm e S; [done|].
  cbn in V. apply andb_true_iff in V as [Vx V]. unfold valid_undo in Vx.
  apply andb_true_iff in Vx as [[Vh Vs]%andb_true_iff _].
  cbn [foldl]. unfold restore_entry at 2 4. case_match; apply IH; try done.
  - by apply synced_erase.
  - apply synced_write_state; [by apply synced_insert|]. rewrite lookup_insert_eq. eauto.
Qed.

Lemma synced_UndoBlock m e k : pose_synced m e -> in_s 32 (k - 1) = true ->
  pose_synced (UndoBlock m e k).1.2 (UndoBlock m e k).2.
Proof.
  intros S Hk. unfold UndoBlock. set (found := match undoEntries m !! k with Some _ => _ | None => _ end).
  destruct found as [es|] eqn:F; [|done].
  assert (valid_vec valid_undo es = true) as V.
  { unfold found in F. destruct (undoEntries m !! k) as [es'|] eqn:E.
    - injection F as <-. by apply (sy_undo _ _ _ _ S k).
    - by apply (sy_stored_undo _ _ _ _ S k). }
  pose proof (synced_restore es _ _ _ _ S V) as S1.
  destruct (foldl restore_entry (stateMap m, e) es) as [sm e1]. cbn [fst snd] in S1.
  apply (synced_erase_undo _ _ _ _ k) in S1. apply (synced_undo_delete _ _ _ _ k) in S1.
  destruct (lastProcessedHeight m =? k); cbn [fst snd]; [|exact S1].
  apply synced_write_height. by eapply synced_last.
Qed.

Lemma synced_Flush m e : pose_synced m e -> pose_synced (Flush m e).1 (Flush m e).2.
Proof.
  intros S. unfold Flush. destruct (fDirty m); [|done]. cbn [negb fst snd].
  apply synced_write_height. unfold pose_synced. cbn [set_states stateMap undoEntries lastProcessedHeight].
  assert (forall p, p ∈ map_entries (stateMap m) -> is_Some (stateMap m !! p.1)) as Hin.
  { intros [h s] Hp%elem_of_map_entries. cbn. eauto. }
  revert e S Hin. induction (map_entries (stateMap m)) as [|p es IH]; intros e S Hin; [done|].
  cbn [foldl]. apply IH; [|set_solver]. apply synced_write_state; [done|]. apply Hin. left.
Qed.

(** *** Restart *)

Definition state_put (o : bytes) (p : uint256 * CPoSeState) : bytes := Xor o (ser c_pose_state p.2).

Lemma write_states_db L m o :
  foldl (fun e p => write_state e p.1 p.2) (MkEvoDB (MkDB m o) None) L
  = MkEvoDB (MkDB (foldl (fun m p => <[ser c_hash_key (DB_POSE_STATE, p.1) := state_put o p]> m) m L) o) None.
Proof. revert m. induction L as [|p L IH]; intros m; [done|]. cbn [foldl]. by rewrite <- IH. Qed.

Lemma flushed_state m e h : pose_synced m e -> fDirty m = true -> in_u 256 h = true ->
  stored (Flush m e).2 h = (fun s => Xor (obfuscate_key (evo_db e)) (ser c_pose_state s)) <$> stateMap m !! h.
Proof.
  intros S D Hh. pose proof (sy_idle _ _ _ _ S) as HI. destruct e as [[db o] t]. cbn in HI. subst t.
  unfold Flush. rewrite D. cbn [negb snd]. rewrite write_states_db, Write_idle by done.
  unfold stored. cbn [evo_db pdb obfuscate_key].
  rewrite lookup_insert_ne by (apply height_key_other).
  destruct (stateMap m !! h) as [s|] eqn:E.
  - destruct (foldl_insert_in (fun p : uint256 * CPoSeState => ser c_hash_key (DB_POSE_STATE, p.1)) (state_put o)
      (map_entries (stateMap m)) db (ser c_hash_key (DB_POSE_STATE, h))) as ([h' s'] & Hin & Hk & Hl).
    { exists (h, s). by rewrite elem_of_map_entries. }
    rewrite Hl. apply elem_of_map_entries in Hin. cbn [fst] in Hk.
    apply c_hash_key_inj in Hk; [|by apply (sy_states _ _ _ _ S h' s')|done]. subst h'.
    assert (s' = s) as -> by congruence. done.
  - rewrite foldl_insert_out.
    + destruct (db !! ser c_hash_key (DB_POSE_STATE, h)) as [v|] eqn:Ev; [|done].
      destruct (sy_known _ _ _ _ S h Hh) as [s Hs]; [by exists v|]. congruence.
    + intros [h' s'] Hin%elem_of_map_entries Hk. cbn [fst] in Hk.
      apply c_hash_key_inj in Hk; [|by apply (sy_states _ _ _ _ S h' s')|done]. congruence.
Qed.

Lemma Flush_obf m e : obfuscate_key (evo_db (Flush m e).2) = obfuscate_key (evo_db e).
Proof.
  unfold Flush. destruct (fDirty m); [|done]. cbn [negb snd].
  assert (forall e, obfuscate_key (evo_db (Write c_str i32 e DB_POSE_HEIGHT (lastProcessedHeight m)))
    = obfuscate_key (evo_db e)) as -> by (intros [? []]; done).
  revert e. induction (map_entries (stateMap m)) as [|p es IH]; intros e; [done|]. cbn [foldl].
  rewrite IH. by destruct e as [? []].
Qed.

Lemma load_states db (L : list (uint256 * bytes)) : forall (sm : gmap uint256 CPoSeState) (h : uint256),
  (forall p, p ∈ L -> is_Some (decode_value c_pose_state db p.2)) ->
  (forall p q, p ∈ L -> q ∈ L -> p.1 = q.1 -> p.2 = q.2) ->
  foldl (fun sm p => match decode_value c_pose_state db p.2 with
                     | Some s => <[p.1 := s]> sm
                     | None => sm
                     end) sm L !! h =
  match list_find (fun p => p.1 = h) L with
  | Some (_, p) => decode_value c_pose_state db p.2
  | None => sm !! h
  end.
Proof.
  induction L as [|p L IH]; intros sm h Hd Hf; [done|]. cbn [foldl list_find].
  destruct (Hd p ltac:(left)) as [s Es]. rewrite IH by set_solver. rewrite Es.
  destruct (list_find _ L) as [[i q]|] eqn:F.
  - apply list_find_Some in F as (Hi & Hq & _). apply list_elem_of_lookup_2 in Hi.
    case_decide as Hp; [|done]. rewrite <- (Hf p q) by (set_solver || congruence). done.
  - case_decide as Hp; cbn; [by rewrite <- Hp, lookup_insert_eq|by rewrite lookup_insert_ne].
Qed.

Lemma idle_erase {K} (CK : Codec K) e k : curDBTransaction e = None -> curDBTransaction (Erase CK e k) = None.
Proof. destruct e as [? []]; done. Qed.
Lemma idle_write {K V} (CK : Codec K) (CV : Codec V) e k v : curDBTransaction e = None -> curDBTransaction (Write CK CV e k v) = None.
Proof. destruct e as [? []]; done. Qed.
Lemma stored_height_write e n h : curDBTransaction e = None -> stored (Write c_str i32 e DB_POSE_HEIGHT n) h = stored e h.
Proof.
  destruct e as [[db o] t]. cbn. intros ->. rewrite Write_idle by done. unfold stored. cbn [evo_db pdb].
  apply lookup_insert_ne, height_key_other.
Qed.

(** The database holds the penalties and the height. *)
Definition holds (sm : gmap uint256 CPoSeState) (last : Z) (e : CEvoDB) : Prop :=
  (forall h, in_u 256 h = true -> stored e h = (fun s => Xor (obfuscate_key (evo_db e)) (ser c_pose_state s)) <$> sm !! h)
  /\ default 0 (Read c_str i32 e DB_POSE_HEIGHT) = last.

Lemma read_height e n : curDBTransaction e = None -> in_s 32 n = true ->
  default 0 (Read c_str i32 (Write c_str i32 e DB_POSE_HEIGHT n) DB_POSE_HEIGHT) = n.
Proof.
  destruct e as [[db o] t]. cbn. intros -> Hn. rewrite Write_idle by done. unfold Read, Db_Read. cbn [evo_db pdb obfuscate_key].
  rewrite lookup_insert_eq. cbn [mbind option_bind].
  match goal with |- default _ (decode_value _ ?d _) = _ => pose proof (decode_value_ser i32 (in_s 32) d n Hn) as E end.
  cbn [obfuscate_key] in E. by rewrite E.
Qed.

Lemma flush_holds m e : pose_synced m e -> fDirty m = true -> holds m.(stateMap) m.(lastProcessedHeight) (Flush m e).2.
Proof.
  intros S D. split; [intros h Hh; rewrite Flush_obf; by apply flushed_state|].
  unfold Flush. rewrite D. cbn [negb snd]. apply read_height; [|apply S].
  pose proof (sy_idle _ _ _ _ S) as HI. destruct e as [[db o] t]. cbn in HI. subst t. by rewrite write_states_db.
Qed.

Lemma holds_load sm u last e : synced sm u last e -> holds sm last e ->
  stateMap (Init new_pose e) = sm /\ lastProcessedHeight (Init new_pose e) = last.
Proof.
  intros S [Hst Hh]. split; [|exact Hh].
  assert (forall h v, (h, v) ∈ scan (evo_db e) DB_POSE_STATE <->
    exists s, sm !! h = Some s /\ v = Xor (obfuscate_key (evo_db e)) (ser c_pose_state s)) as Hscan.
  { intros h v. rewrite scan_exact by (reflexivity || apply (sy_typed _ _ _ _ S)). split.
    - intros [Hu Hl]. pose proof (Hst h Hu) as F. unfold stored in F.
      setoid_rewrite Hl in F. destruct (sm !! h) as [s|]; [|done]. injection F as ->. by exists s.
    - intros (s & Hs & ->). destruct (sy_states _ _ _ _ S h s Hs) as [Hu _]. split; [done|].
      pose proof (Hst h Hu) as F. rewrite Hs in F. exact F. }
  assert (forall h s, sm !! h = Some s -> decode_value c_pose_state (evo_db e)
    (Xor (obfuscate_key (evo_db e)) (ser c_pose_state s)) = Some s) as Hdec.
  { intros h s Hs. apply (decode_value_ser c_pose_state valid_pose_state). by apply (sy_states _ _ _ _ S h s). }
  apply map_eq. intros h. cbn [Init stateMap new_pose]. rewrite load_states.
  - destruct (list_find _ _) as [[i [h' v]]|] eqn:F.
    + apply list_find_Some in F as (Hi & Hx & _). cbn in Hx. subst h'.
      apply list_elem_of_lookup_2, Hscan in Hi as (s & Hs & ->). cbn [snd]. by rewrite (Hdec h s).
    + rewrite lookup_empty. destruct (sm !! h) as [s|] eqn:Hs; [|done].
      apply list_find_None in F. rewrite Forall_forall in F.
      destruct (F (h, Xor (obfuscate_key (evo_db e)) (ser c_pose_state s))); [|done]. apply Hscan. eauto.
  - intros [h' v] (s & Hs & ->)%Hscan. cbn [snd]. rewrite (Hdec h' s) by done. eauto.
  - intros [h1 v1] [h2 v2] (s1 & Hs1 & ->)%Hscan (s2 & Hs2 & ->)%Hscan. cbn. congruence.
Qed.

(** Changes made in memory and in the database at once. *)
Lemma holds_erase sm last e h : curDBTransaction e = None -> in_u 256 h = true -> holds sm last e ->
  holds (delete h sm) last (erase_state e h).
Proof.
  destruct e as [[db o] t]. cbn. intros -> Hh [Hst Hl]. unfold erase_state. rewrite Erase_idle by done. split.
  - intros h' Hu. specialize (Hst h' Hu). unfold stored in *. cbn [evo_db pdb obfuscate_key] in *.
    destruct (decide (h = h')) as [<-|Hne]; [by rewrite !lookup_delete_eq|].
    rewrite !lookup_delete_ne; [done|done|]. intros E. by apply Hne, (c_hash_key_inj DB_POSE_STATE).
  - rewrite <- Hl. unfold Read, Db_Read. cbn [evo_db pdb].
    rewrite lookup_delete_ne; [done|]. intros E. by apply (height_key_other h).
Qed.

Lemma holds_write sm last e h s : curDBTransaction e = None -> in_u 256 h = true -> holds sm last e ->
  holds (<[h := s]> sm) last (write_state e h s).
Proof.
  destruct e as [[db o] t]. cbn. intros -> Hh [Hst Hl]. unfold write_state. rewrite Write_idle by done. split.
  - intros h' Hu. specialize (Hst h' Hu). unfold stored in *. cbn [evo_db pdb obfuscate_key] in *.
    destruct (decide (h = h')) as [<-|Hne]; [by rewrite !lookup_insert_eq|].
    rewrite !lookup_insert_ne; [done|done|]. intros E. by apply Hne, (c_hash_key_inj DB_POSE_STATE).
  - rewrite <- Hl. unfold Read, Db_Read. cbn [evo_db pdb].
    rewrite lookup_insert_ne; [done|]. intros E. by apply (height_key_other h).
Qed.

(** The undo data is stored apart. *)
Lemma holds_write_undo sm last e k es : curDBTransaction e = None -> holds sm last e ->
  holds sm last (Write c_height_key (vec c_undo_entry) e (DB_POSE_UNDO, k) es).
Proof.
  destruct e as [[db o] t]. cbn. intros -> [Hst Hl]. rewrite Write_idle by done. split.
  - intros h Hu. specialize (Hst h Hu). unfold stored in *. cbn [evo_db pdb obfuscate_key] in *.
    rewrite lookup_insert_ne; [done|]. apply undo_key_other.
  - rewrite <- Hl. unfold Read, Db_Read. cbn [evo_db pdb].
    rewrite lookup_insert_ne; [done|]. intros E. by apply (height_undo_other k).
Qed.
Lemma holds_erase_undo sm last e k : curDBTransaction e = None -> holds sm last e ->
  holds sm last (Erase c_height_key e (DB_POSE_UNDO, k)).
Proof.
  destruct e as [[db o] t]. cbn. intros -> [Hst Hl]. rewrite Erase_idle by done. split.
  - intros h Hu. specialize (Hst h Hu). unfold stored in *. cbn [evo_db pdb obfuscate_key] in *.
    rewrite lookup_delete_ne; [done|]. apply undo_key_other.
  - rewrite <- Hl. unfold Read, Db_Read. cbn [evo_db pdb].
    rewrite lookup_delete_ne; [done|]. intros E. by apply (height_undo_other k).
Qed.

Lemma holds_evict fuel sm last : forall u e, curDBTransaction e = None -> holds sm last e ->
  curDBTransaction (evict_undo fuel u e).2 = None /\ holds sm last (evict_undo fuel u e).2.
Proof.
  induction fuel as [|fuel IH]; intros u e Hi H; [done|]. cbn [evict_undo].
  case_match; [|done]. destruct (oldest u) as [k|]; [|done]. apply IH; [by apply idle_erase|by apply holds_erase_undo].
Qed.

(** ** Reachable states *)

(** The operations of the manager, outside a database transaction; [guard] says
    when a penalty may be reset. *)
Inductive pose_step (guard : CPoSeManager -> uint256 -> Prop) : CPoSeManager * CEvoDB -> CPoSeManager * CEvoDB -> Prop :=
| ps_increment m e h a : in_u 256 h = true -> pose_step guard (m, e) (IncrementPenalty m h a, e)
| ps_decrement m e h a : pose_step guard (m, e) (DecrementPenalty m e h a)
| ps_reset m e h : guard m h -> pose_step guard (m, e) (ResetPenalty m e h)
| ps_session m e cp participants members k :
    in_s 32 k = true -> Forall (fun h => in_u 256 h = true) members ->
    Z.of_nat (length members) <= MAX_SIZE ->
    pose_step guard (m, e) (ProcessQuorumSession cp m e participants members k)
| ps_prepare m e k ids :
    in_s 32 k = true -> Forall (fun h => in_u 256 h = true) ids -> Z.of_nat (length ids) <= MAX_SIZE ->
    pose_step guard (m, e) (PrepareUndo m e k ids)
| ps_undo m e k : in_s 32 (k - 1) = true -> pose_step guard (m, e) ((UndoBlock m e k).1.2, (UndoBlock m e k).2)
| ps_flush m e : pose_step guard (m, e) (Flush m e).

Definition always (_ : CPoSeManager) (_ : uint256) : Prop := True.
(** Nothing is unsaved, or there is no penalty to reset. *)
Definition when_saved (m : CPoSeManager) (h : uint256) : Prop := m.(fDirty) = false \/ m.(stateMap) !! h = None.

Lemma pose_step_synced guard a b : pose_step guard a b -> pose_synced a.1 a.2 -> pose_synced b.1 b.2.
Proof.
  intros [] S; cbn [fst snd] in *; auto using synced_IncrementPenalty, synced_DecrementPenalty,
    synced_ResetPenalty, synced_session, synced_PrepareUndo, synced_UndoBlock, synced_Flush.
Qed.

Lemma empty_synced : pose_synced new_pose empty_evodb.
Proof. split; cbn; try done. intros h _ [v Hv]. done. Qed.

(** What is not marked as unsaved is in the database. *)
Definition saved (m : CPoSeManager) (e : CEvoDB) : Prop :=
  m.(fDirty) = false -> holds m.(stateMap) m.(lastProcessedHeight) e.

Lemma session_dirty cp ps ms : forall m e, m.(fDirty) = true -> (foldl (session_step cp ps) (m, e) ms).1.(fDirty) = true.
Proof.
  induction ms as [|h ms IH]; intros m e D; [done|]. cbn [foldl]. unfold session_step at 2. case_decide.
  - assert ((RecordParticipation m e h).1.(fDirty) = true) as D'.
    { unfold RecordParticipation. repeat case_match; done. }
    destruct (RecordParticipation m e h). by apply IH.
  - apply IH. unfold RecordMissedSession. by case_decide.
Qed.

Lemma saved_PrepareUndo m e k ids : pose_synced m e -> saved m e -> saved (PrepareUndo m e k ids).1 (PrepareUndo m e k ids).2.
Proof.
  intros S H. unfold PrepareUndo. set (es := make_undo m k <$> ids).
  pose proof (fun D => holds_evict (size (<[k := es]> (undoEntries m))) (stateMap m) (lastProcessedHeight m) (<[k := es]> (undoEntries m))
    (Write c_height_key (vec c_undo_entry) e (DB_POSE_UNDO, k) es) (idle_write _ _ _ _ _ (sy_idle _ _ _ _ S))
    (holds_write_undo _ _ e k es (sy_idle _ _ _ _ S) (H D))) as Hv.
  destruct (evict_undo _ _ _) as [u e2]. intros D. by apply Hv.
Qed.

Lemma holds_restore es : forall sm u last e, synced sm u last e -> valid_vec valid_undo es = true -> holds sm last e ->
  holds (foldl restore_entry (sm, e) es).1 last (foldl restore_entry (sm, e) es).2.
Proof.
  intros sm u last e S [_ V]%andb_true_iff. revert sm e S. induction es as [|x es IH]; intros sm e S H; [done|].
  cbn in V. apply andb_true_iff in V as [Vx V]. pose proof Vx as Vx'. unfold valid_undo in Vx.
  apply andb_true_iff in Vx as [[Vh Vs]%andb_true_iff _]. pose proof (sy_idle _ _ _ _ S) as Hi.
  cbn [foldl]. unfold restore_entry at 2 4. case_match; apply IH; try done.
  - by apply synced_erase.
  - by apply holds_erase.
  - apply synced_write_state; [by apply synced_insert|]. rewrite lookup_insert_eq. eauto.
  - by apply holds_write.
Qed.

Lemma saved_UndoBlock m e k : pose_synced m e -> in_s 32 (k - 1) = true -> saved m e ->
  saved (UndoBlock m e k).1.2 (UndoBlock m e k).2.
Proof.
  intros S Hk H. unfold UndoBlock. set (found := match undoEntries m !! k with Some _ => _ | None => _ end).
  destruct found as [es|] eqn:F; [|done].
  assert (valid_vec valid_undo es = true) as V.
  { unfold found in F. destruct (undoEntries m !! k) as [es'|] eqn:E.
    - injection F as <-. by apply (sy_undo _ _ _ _ S k).
    - by apply (sy_stored_undo _ _ _ _ S k). }
  pose proof (synced_restore es _ _ _ _ S V) as S1. pose proof (fun D => holds_restore es _ _ _ _ S V (H D)) as H1.
  destruct (foldl restore_entry (stateMap m, e) es) as [sm e1]. cbn [fst snd] in S1, H1.
  pose proof (idle_erase c_height_key e1 (DB_POSE_UNDO, k) (sy_idle _ _ _ _ S1)) as Hi.
  assert (fDirty m = false -> holds sm (lastProcessedHeight m) (Erase c_height_key e1 (DB_POSE_UNDO, k))) as H2.
  { intros D. apply holds_erase_undo; [apply S1|by apply H1]. }
  destruct (lastProcessedHeight m =? k); [|exact H2]. intros D. specialize (H2 D). split; [|by apply read_height].
  intros h Hu. cbn [fst snd]. rewrite stored_height_write, (proj1 H2 h Hu) by done.
  by destruct (Erase c_height_key e1 (DB_POSE_UNDO, k)) as [? []].
Qed.

Lemma pose_step_saved a b : pose_step when_saved a b -> pose_synced a.1 a.2 -> saved a.1 a.2 -> saved b.1 b.2.
Proof.
  intros [m e h x Hh|m e h x|m e h Hg|m e cp ps ms k Hk Hms Hl|m e k ids|m e k Hk|m e] S HS; cbn [fst snd] in *.
  - unfold IncrementPenalty. by case_match.
  - unfold DecrementPenalty. by repeat case_match.
  - unfold ResetPenalty. destruct (stateMap m !! h) as [s|] eqn:E; [|done]. destruct Hg as [D|]; [|congruence].
    intros _. cbn. apply holds_erase; [apply S|by apply (sy_states _ _ _ _ S h s)|by apply HS].
  - unfold ProcessQuorumSession. destruct (PrepareUndo m e k ms) as [m1 e1]. intros D. by rewrite session_dirty in D.
  - by apply saved_PrepareUndo.
  - by apply saved_UndoBlock.
  - intros _. destruct (fDirty m) eqn:D; cycle 1.
    { unfold Flush. rewrite D. by apply HS. }
    pose proof (flush_holds m e S D) as F. unfold Flush in *. rewrite D in *. exact F.
Qed.

Lemma steps_synced guard a b : rtc (pose_step guard) a b -> pose_synced a.1 a.2 -> pose_synced b.1 b.2.
Proof. induction 1; eauto using pose_step_synced. Qed.
Lemma steps_saved a b : rtc (pose_step when_saved) a b -> pose_synced a.1 a.2 -> saved a.1 a.2 -> saved b.1 b.2.
Proof. induction 1; eauto using pose_step_synced, pose_step_saved. Qed.

(** C21. A restart gives back the penalties.  Take a manager reached from an empty
    one by penalties, decrements, resets, sessions, undo recordings, undos and flushes,
    outside a database transaction and with hashes and heights of the right width.
    Flushing it and starting again from the database gives back exactly the
    penalties and the height that were in memory, in two cases: when it is marked as
    having unsaved changes; and, marked or not, when no penalty was ever reset while
    other changes were unsaved.  (A reset clears the mark, so without either condition
    unsaved penalties are lost.) *)
Theorem restart_restores (m : CPoSeManager) (e : CEvoDB) :
  let m' := Init new_pose (Flush m e).2 in
  let restored := stateMap m' = stateMap m /\ lastProcessedHeight m' = lastProcessedHeight m in
  (rtc (pose_step always) (new_pose, empty_evodb) (m, e) -> fDirty m = true -> restored)
  /\ (rtc (pose_step when_saved) (new_pose, empty_evodb) (m, e) -> restored).
Proof.
  cbn zeta. assert (pose_synced m e -> holds m.(stateMap) m.(lastProcessedHeight) (Flush m e).2 ->
    stateMap (Init new_pose (Flush m e).2) = stateMap m /\ lastProcessedHeight (Init new_pose (Flush m e).2) = lastProcessedHeight m) as Hl.
  { intros S%synced_Flush. apply (holds_load _ m.(undoEntries)). unfold Flush in *. by destruct (fDirty m). }
  split.
  - intros Hr%steps_synced D; [|apply empty_synced]. by apply Hl, flush_holds.
  - intros Hr. pose proof (steps_synced _ _ _ Hr empty_synced) as S. apply Hl; [done|].
    destruct (fDirty m) eqn:D; [by apply flush_holds|]. unfold Flush. rewrite D.
    apply (steps_saved _ _ Hr empty_synced); [|done]. intros _. by split.
Qed.

Definition demo_session : CPoSeManager * CEvoDB :=
  ProcessQuorumSession regtest_params (IncrementPenalty new_pose 7 5) empty_evodb [1; 7] [1; 2; 7] 40.

Lemma restart_restores_witness :
  let m' := Init new_pose (Flush demo_session.1 demo_session.2).2 in
  stateMap m' = stateMap demo_session.1 /\
  lastProcessedHeight m' = lastProcessedHeight demo_session.1.
Proof.
  apply (proj2 (restart_restores demo_session.1 demo_session.2)).
  eapply rtc_l; [apply (ps_increment _ _ _ 7 5); reflexivity|]. apply rtc_once.
  apply (ps_session _ (IncrementPenalty new_pose 7 5) empty_evodb regtest_params [1; 7] [1; 2; 7] 40).
  - reflexivity.
  - repeat constructor.
  - vm_compute. discriminate.
Defined.

(** *** Undoing a session *)

Lemma oldest_spec u : match oldest u with
  | Some k => is_Some (u !! k) /\ forall k', is_Some (u !! k') -> k <= k'
  | None => u = ∅
  end.
Proof.
  assert (forall L : list (Z * list CPoSeUndoEntry),
    match foldr (fun p acc => match acc with None => Some p.1 | Some k => Some (Z.min p.1 k) end) None L with
    | Some k => k ∈ L.*1 /\ forall k', k' ∈ L.*1 -> k <= k'
    | None => L = []
    end) as HL.
  { induction L as [|p L IH]; [done|]. cbn [foldr fmap list_fmap].
    destruct (foldr _ None L) as [k|]; cycle 1.
    { subst L. split; [left|]. intros k' Hk'%list_elem_of_singleton. lia. }
    destruct IH as [Hk Hle]. split.
    - destruct (Z.min_spec p.1 k) as [[_ ->]|[_ ->]]; [left|by right].
    - intros k' [->|Hk']%elem_of_cons; [lia|]. specialize (Hle _ Hk'). lia. }
  specialize (HL (map_to_list u)). unfold oldest.
  assert (forall k, k ∈ (map_to_list u).*1 <-> is_Some (u !! k)) as Hin.
  { intros k. rewrite list_elem_of_fmap. split.
    - intros ([k' v] & -> & Hkv%elem_of_map_to_list). eauto.
    - intros [v Hv]. exists (k, v). by rewrite elem_of_map_to_list. }
  destruct (foldr _ None _) as [k|]; [|by apply map_to_list_empty_iff].
  setoid_rewrite Hin in HL. done.
Qed.

(** Eviction never drops the greatest height. *)
Lemma evict_keeps fuel u e k es : u !! k = Some es -> (forall k', is_Some (u !! k') -> k' <= k) ->
  (evict_undo fuel u e).1 !! k = Some es.
Proof.
  revert u e. induction fuel as [|fuel IH]; intros u e Hk Hmax; [done|]. cbn [evict_undo].
  destruct (_ <? _)%nat eqn:Hs; [|done]. pose proof (oldest_spec u) as Ho.
  destruct (oldest u) as [k0|]; [|by subst u]. destruct Ho as [Hk0 Hmin].
  assert (k0 <> k) as Hne.
  { intros ->. assert (dom u ⊆ {[k]}) as Hd.
    { intros k' Hk'%elem_of_dom. specialize (Hmax _ Hk'). specialize (Hmin _ Hk').
      apply elem_of_singleton. lia. }
    apply subseteq_size in Hd. rewrite size_dom, size_singleton in Hd. unfold MAX_UNDO_HISTORY in Hs. lia. }
  apply IH; [by rewrite lookup_delete_ne|]. intros k' [v [_ Hv]%lookup_delete_Some]. eauto.
Qed.

Lemma session_step_frame cp ps m e h : let r := session_step cp ps (m, e) h in
  undoEntries r.1 = undoEntries m /\ lastProcessedHeight r.1 = lastProcessedHeight m /\
  forall h', h' <> h -> stateMap r.1 !! h' = stateMap m !! h'.
Proof.
  cbn zeta. unfold session_step, RecordParticipation, RecordMissedSession.
  repeat case_match; cbn; split_and!; try done; intros h' Hne;
    by rewrite ?lookup_insert_ne, ?lookup_delete_ne by done.
Qed.

Lemma session_frame cp ps ms m e : let r := foldl (session_step cp ps) (m, e) ms in
  undoEntries r.1 = undoEntries m /\ lastProcessedHeight r.1 = lastProcessedHeight m /\
  forall h, h ∉ ms -> stateMap r.1 !! h = stateMap m !! h.
Proof.
  cbn zeta. revert m e. induction ms as [|h ms IH]; intros m e; [done|]. cbn [foldl].
  pose proof (session_step_frame cp ps m e h) as (F1 & F2 & F3).
  destruct (session_step cp ps (m, e) h) as [m1 e1]. cbn [fst] in *.
  destruct (IH m1 e1) as (I1 & I2 & I3). rewrite I1, I2. split_and!; [done..|].
  intros h' Hh'. rewrite not_elem_of_cons in Hh'. rewrite I3, F3 by tauto. done.
Qed.

Lemma restore_lookup m k ids sm e h :
  (forall h s, h ∈ ids -> stateMap m !! h = Some s -> s <> pose_state0) ->
  (foldl restore_entry (sm, e) (make_undo m k <$> ids)).1 !! h
  = if decide (h ∈ ids) then stateMap m !! h else sm !! h.
Proof.
  revert sm e. induction ids as [|i ids IH]; intros sm e Hne; [done|]. cbn [fmap list_fmap foldl].
  set (r := restore_entry (sm, e) (make_undo m k i)).
  assert (forall h, r.1 !! h = if decide (h = i) then stateMap m !! h else sm !! h) as Hr.
  { intros h'. unfold r, restore_entry, make_undo, state_at. cbn [previousState ue_proTxHash].
    destruct (stateMap m !! i) as [s|] eqn:E; unfold default, from_option, id.
    - pose proof (Hne i s ltac:(left) E) as Hs. destruct s as [a b c]. unfold pose_state0 in Hs.
      cbn [penaltyScore missedSessions ps_lastProcessedHeight].
      destruct ((a =? 0) && (b =? 0) && (c =? 0)) eqn:Hz.
      { destruct Hs. apply andb_true_iff in Hz as [[->%Z.eqb_eq ->%Z.eqb_eq]%andb_true_iff ->%Z.eqb_eq]. done. }
      cbn [fst].
      destruct (decide (h' = i)) as [->|]; [by rewrite lookup_insert_eq|by rewrite lookup_insert_ne].
    - cbn [pose_state0 penaltyScore missedSessions ps_lastProcessedHeight Z.eqb andb fst].
      destruct (decide (h' = i)) as [->|]; [by rewrite lookup_delete_eq|by rewrite lookup_delete_ne]. }
  destruct r as [sm1 e1]. cbn [fst] in Hr. rewrite IH by set_solver. rewrite Hr.
  repeat case_decide; set_solver.
Qed.

(** Undoing a quorum session restores the penalties: if the session is
    recorded at a height not below those with undo data, and no member's
    recorded penalty is all zeros (which stands for none), then undoing that
    height succeeds, gives back every masternode's penalty exactly, and
    lowers the height. *)
Theorem session_undo_restores (cp : Params) (m : CPoSeManager) (e : CEvoDB)
  (participants members : list uint256) (height : Z) :
  (forall k, is_Some (undoEntries m !! k) -> k <= height) ->
  (forall h s, h ∈ members -> stateMap m !! h = Some s -> s <> pose_state0) ->
  let '(m1, e1) := ProcessQuorumSession cp m e participants members height in
  let '(ok, m2, e2) := UndoBlock m1 e1 height in
  ok = true /\ stateMap m2 = stateMap m /\ lastProcessedHeight m2 = height - 1 /\
  undoEntries m2 !! height = None.
Proof.
  intros Hmax Hne. unfold ProcessQuorumSession, PrepareUndo.
  set (es := make_undo m height <$> members). set (u := <[height := es]> (undoEntries m)).
  pose proof (evict_keeps (size u) u (Write c_height_key (vec c_undo_entry) e (DB_POSE_UNDO, height) es)
    height es (lookup_insert_eq _ _ _)) as Hu.
  destruct (evict_undo _ u _) as [u1 e1]. cbn [fst] in Hu.
  cbn [ClearSessionTracking set_undo stateMap penalizedThisSession undoEntries fDirty lastProcessedHeight].
  match goal with |- context [foldl ?f (?a, ?b) members] =>
    pose proof (session_frame cp (list_to_set participants) members a b) as (F1 & F2 & F3);
    destruct (foldl f (a, b) members) as [m2 e2] end.
  cbn [fst undoEntries lastProcessedHeight stateMap] in *.
  unfold UndoBlock. rewrite F1, Hu; cycle 1.
  { intros k [v [[-> _]|[_ Hv]]%lookup_insert_Some]; [lia|eauto]. }
  destruct (foldl restore_entry (stateMap m2, e2) es) as [sm e3] eqn:R.
  rewrite F2, Z.eqb_refl. cbn. split_and!; [done| |done|by rewrite lookup_delete_eq].
  apply map_eq. intros h. pose proof (restore_lookup m height members (stateMap m2) e2 h Hne) as L.
  fold es in L. rewrite R in L. cbn [fst] in L. rewrite L. case_decide; [done|]. by apply F3.
Qed.

Lemma session_undo_restores_witness :
  let '(m1, e1) := ProcessQuorumSession regtest_params demo_session.1 demo_session.2 [2] [1; 2; 7] 41 in
  let '(ok, m2, e2) := UndoBlock m1 e1 41 in
  ok = true /\ stateMap m2 = stateMap demo_session.1 /\ lastProcessedHeight m2 = 41 - 1 /\
  undoEntries m2 !! 41 = None.
Proof.
  apply session_undo_restores.
  - assert (undoEntries demo_session.1 = {[40 := default [] (undoEntries demo_session.1 !! 40)]}) as E
      by (vm_compute; reflexivity).
    intros k. rewrite E. intros [v [<- _]%lookup_singleton_Some]. lia.
  - intros h s Hh Hs ->. repeat (apply elem_of_cons in Hh as [->|Hh]); try (vm_compute in Hs; discriminate Hs).
    by apply elem_of_nil in Hh.
Defined.

(** [ResetPenalty] marks the manager clean although only its own erase was
    written, so the next [Flush] writes nothing: a penalty of another
    masternode that was not saved yet is lost on restart. *)
Example reset_loses_unsaved_penalty :
  let m := IncrementPenalty (IncrementPenalty new_pose 1 50) 2 50 in
  let '(m1, e1) := ResetPenalty m empty_evodb 2 in
  let '(m2, e2) := Flush m1 e1 in
  GetPenaltyScore m2 1 = 50 /\ GetPenaltyScore (Init new_pose e2) 1 = 0.
Proof. vm_compute. auto. Qed.

(** A second recording at the same height replaces the first, so undoing that
    height does not restore what the first recorded. *)
Example second_recording_loses_undo :
  let '(m1, e1) := ProcessQuorumSession regtest_params new_pose empty_evodb [] [1] 40 in
  let '(m2, e2) := ProcessQuorumSession regtest_params m1 e1 [] [2] 40 in
  let '(ok, m3, _) := UndoBlock m2 e2 40 in
  ok = true /\ stateMap new_pose !! 1 = None /\ 0 < GetPenaltyScore m3 1.
Proof. vm_compute. auto. Qed.

Lemma CheckAndPunish_demo :
  let l := CheckAndPunish (IncrementPenalty (IncrementPenalty new_pose 1 150) 2 30)
             MNList.Demo.demo_list 60 66 100 in
  IsBanned <$> (mn_state <$> GetMN l 1) = Some true /\
  nPoSePenalty <$> (mn_state <$> GetMN l 2) = Some 30 /\
  IsBanned <$> (mn_state <$> GetMN l 2) = Some false.
Proof. vm_compute. auto. Qed.
