(* ===== verification/MNManager.v ===== *)
(** The masternode list manager (the second half of evo/deterministicmns.cpp,
    the serialization in evo/deterministicmns.h, and the entry points of
    evo/providertx.cpp that call it): processing a block into the next list,
    undoing one, the cache of lists, the snapshots in the database, and the
    rebuild of a missing list by replaying blocks.  The theorems show that
    rebuilding terminates, that the list of a processed block keeps every
    property unique and no masternode whose collateral the block spends, and
    that a processed block's list is what the cache, the tip and the database
    then hold. *)

From S2P Require Import Prelude Serialize Sha256 NetAddress Script Primitives Params Coins MNList Chain ProviderTx EvoDB PoSe.

(** ** Wire format of lists *)

Local Open Scope mynta_scope.

(** [std::map]: the size, then the pairs in key order; reading inserts pairs
    and keeps the first of equal keys. *)
Definition mapc {V} (C : Codec V) : Codec (gmap uint256 V) :=
  isoc (vec (blob 32 ⊗ C)) (fun ps => foldr (fun p m => <[p.1 := p.2]> m) ∅ ps) map_entries.

Definition c_state : Codec CDeterministicMNState :=
  isoc (i32 ⊗ i32 ⊗ i32 ⊗ i32 ⊗ i32 ⊗ u16 ⊗ blob 20 ⊗ bytevec ⊗ blob 20 ⊗ CService.codec ⊗ bytevec ⊗ bytevec
        ⊗ u8 ⊗ i32 ⊗ i32)
    (fun '(r, (p, (pe, (re, (ba, (rv, (ow, (op, (vo, (ad, (sp, (so, (ti, (su, ru)))))))))))))) =>
       MkState r p pe re ba rv ti su ru ow op vo ad sp so)
    (fun s => (s.(nRegisteredHeight), (s.(nLastPaidHeight), (s.(nPoSePenalty), (s.(nPoSeRevivedHeight),
       (s.(nPoSeBanHeight), (s.(nRevocationReason), (s.(keyIDOwner), (s.(vchOperatorPubKey), (s.(keyIDVoting),
       (s.(mn_addr), (s.(scriptPayout), (s.(scriptOperatorPayout), (s.(nTier),
       (s.(nLastServiceUpdateHeight), s.(nLastRegistrarUpdateHeight)))))))))))))))).
Definition c_mn : Codec CDeterministicMN :=
  isoc (blob 32 ⊗ c_outpoint ⊗ u16 ⊗ c_state ⊗ u64)
    (fun '(h, (c, (r, (s, i)))) => MkMN h c r s i)
    (fun mn => (mn.(proTxHash), (mn.(collateralOutpoint), (mn.(nOperatorReward), (mn.(mn_state), mn.(internalId)))))).
Definition c_list : Codec CDeterministicMNList :=
  isoc (blob 32 ⊗ i32 ⊗ u64 ⊗ mapc c_mn ⊗ mapc (blob 32))
    (fun '(h, (n, (c, (m, u)))) => MkList h n c m u)
    (fun l => (l.(blockHash), (l.(nHeight), (l.(nTotalRegisteredCount), (l.(mnMap), l.(mnUniquePropertyMap)))))).

(** ** The manager and what it shares with its surroundings *)

Definition DB_LIST_SNAPSHOT : bytes := str "dmn_S".
Definition DB_MN_VERSION : bytes := str "dmn_ver".
Definition CURRENT_DB_VERSION : Z := 3.
Definition MAX_CACHE_SIZE : nat := 100.

(** The manager's cache and tip, the global PoSe manager (null or not) and the
    database. *)
Record world := MkWorld {
  mnListsCache : gmap uint256 CDeterministicMNList;
  tipList : option CDeterministicMNList;
  poseManager : option CPoSeManager;
  evoDb : CEvoDB;
}.
Definition set_cache (w : world) (c : gmap uint256 CDeterministicMNList) : world :=
  MkWorld c w.(tipList) w.(poseManager) w.(evoDb).
Definition set_tip (w : world) (l : CDeterministicMNList) : world :=
  MkWorld w.(mnListsCache) (Some l) w.(poseManager) w.(evoDb).
Definition set_db (w : world) (p : option CPoSeManager) (e : CEvoDB) : world :=
  MkWorld w.(mnListsCache) w.(tipList) p e.

Definition SaveListToDb (e : CEvoDB) (l : CDeterministicMNList) : CEvoDB :=
  Write c_hash_key c_list e (DB_LIST_SNAPSHOT, l.(blockHash)) l.
Definition LoadListFromDb (e : CEvoDB) (h : uint256) : option CDeterministicMNList :=
  Read c_hash_key c_list e (DB_LIST_SNAPSHOT, h).

(** [evoDb.Read(DB_MN_VERSION, storedVersion)] leaves 0 when there is no version. *)
Definition Init (w : world) : world :=
  let storedVersion := default 0 (Read c_str i32 w.(evoDb) DB_MN_VERSION) in
  if storedVersion <? CURRENT_DB_VERSION then
    let keys := fst <$> scan w.(evoDb).(evo_db) DB_LIST_SNAPSHOT in
    let e := foldl (fun e h => Erase c_hash_key e (DB_LIST_SNAPSHOT, h)) w.(evoDb) keys in
    MkWorld ∅ (Some empty_list) w.(poseManager) (Write c_str i32 e DB_MN_VERSION CURRENT_DB_VERSION)
  else set_tip w empty_list.

(** *** [CleanupCache] *)

(** The entry of least height, the first in key order among equals. *)
Definition lowest (c : gmap uint256 CDeterministicMNList) : option (uint256 * Z) :=
  foldl (fun acc p => let h := p.2.(nHeight) in
           match acc with
           | None => if h <? 2 ^ 31 - 1 then Some (p.1, h) else None
           | Some (_, low) => if h <? low then Some (p.1, h) else acc
           end) None (map_entries c).

(** [while (mnListsCache.size() > MAX_CACHE_SIZE)]: each iteration removes an
    entry or stops, so the size of the cache is enough fuel. *)
Fixpoint evict (fuel : nat) (c : gmap uint256 CDeterministicMNList) : gmap uint256 CDeterministicMNList :=
  match fuel with
  | O => c
  | S fuel' =>
    if (MAX_CACHE_SIZE <? size c)%nat then
      match lowest c with Some (k, _) => evict fuel' (delete k c) | None => c end
    else c
  end.
Definition CleanupCache (w : world) : world := set_cache w (evict (size w.(mnListsCache)) w.(mnListsCache)).

(** ** Processing a block *)

(** Why a run stops without a result: a failed assertion, or the fuel of the model. *)
Inductive stop := AssertFailed | OutOfFuel.

Definition assert (b : bool) : result stop unit := require b AssertFailed.
Definition get_or_assert {A} (o : option A) : result stop A :=
  match o with Some a => Ok a | None => Err AssertFailed end.

Section Manager.
Context `{HH : Hash256}.
Context (cp : Params).
(** [pcoinsTip->AccessCoin] and [ReadBlockFromDisk]. *)
Context (coins : COutPoint -> Coin) (ReadBlockFromDisk : CBlockIndex -> option (list CTransaction)).

(** *** Special transactions *)

Definition updated_service (s : CDeterministicMNState) (q : CProUpServTx) (height : Z) : CDeterministicMNState :=
  MkState s.(nRegisteredHeight) s.(nLastPaidHeight) s.(nPoSePenalty) s.(nPoSeRevivedHeight) s.(nPoSeBanHeight)
    s.(nRevocationReason) s.(nTier) height s.(nLastRegistrarUpdateHeight) s.(keyIDOwner)
    s.(vchOperatorPubKey) s.(keyIDVoting) q.(us_addr) s.(scriptPayout)
    (if bytes_eq q.(us_scriptOperatorPayout) [] then s.(scriptOperatorPayout) else q.(us_scriptOperatorPayout)).

Definition updated_registrar (s : CDeterministicMNState) (q : CProUpRegTx) (height : Z) : CDeterministicMNState :=
  let reset := negb (bytes_eq q.(ur_vchOperatorPubKey) s.(vchOperatorPubKey)) && (s.(nRevocationReason) =? 0) in
  MkState s.(nRegisteredHeight) s.(nLastPaidHeight)
    (if reset then 0 else s.(nPoSePenalty))
    (if reset then height else s.(nPoSeRevivedHeight))
    (if reset then -1 else s.(nPoSeBanHeight))
    s.(nRevocationReason) s.(nTier) s.(nLastServiceUpdateHeight) height s.(keyIDOwner)
    (if bytes_eq q.(ur_vchOperatorPubKey) [] then s.(vchOperatorPubKey) else q.(ur_vchOperatorPubKey))
    (if q.(ur_keyIDVoting) =? 0 then s.(keyIDVoting) else q.(ur_keyIDVoting))
    s.(mn_addr)
    (if bytes_eq q.(ur_scriptPayout) [] then s.(scriptPayout) else q.(ur_scriptPayout)) s.(scriptOperatorPayout).

Definition bad_payload : reject := DoS 100 REJECT_INVALID "bad-protx-payload".
Definition bad_hash : reject := DoS 100 REJECT_INVALID "bad-protx-hash".

(** The update of the masternode a payload names. *)
Definition update_named (l : CDeterministicMNList) (id : uint256) (f : CDeterministicMNState -> CDeterministicMNState)
  : result reject CDeterministicMNList :=
  mn ← get (GetMN l id) bad_hash;
  Ok (UpdateMN l id (f mn.(mn_state))).

(** One iteration of the loop over special transactions. *)
Definition apply_special (height : Z) (l : CDeterministicMNList) (tx : CTransaction) : result reject CDeterministicMNList :=
  if negb (IsTxTypeSpecial tx) then Ok l
  else match GetTxType tx with
  | TRANSACTION_PROVIDER_REGISTER =>
    q ← get (GetTxPayload c_proreg tx) bad_payload;
    Ok (AddMN l (registered_mn cp (Some coins) tx q height l.(nTotalRegisteredCount)))
  | TRANSACTION_PROVIDER_UPDATE_SERVICE =>
    q ← get (GetTxPayload c_upserv tx) bad_payload;
    update_named l q.(us_proTxHash) (fun s => updated_service s q height)
  | TRANSACTION_PROVIDER_UPDATE_REGISTRAR =>
    q ← get (GetTxPayload c_upreg tx) bad_payload;
    update_named l q.(ur_proTxHash) (fun s => updated_registrar s q height)
  | TRANSACTION_PROVIDER_UPDATE_REVOKE =>
    q ← get (GetTxPayload c_uprev tx) bad_payload;
    update_named l q.(rv_proTxHash) (fun s => intra_revoke s q height)
  | _ => Ok l
  end.

(** *** Passes over the whole list *)

(** The outpoints a block spends, but for coinbases. *)
Definition spent_outpoints (vtx : list CTransaction) : list COutPoint :=
  mjoin ((fun tx => prevout <$> tx.(vin)) <$> filter (fun tx => IsCoinBase tx = false) vtx).
Definition collateral_spent (l : CDeterministicMNList) (vtx : list CTransaction) : list uint256 :=
  omap (fun o => proTxHash <$> GetMNByCollateral l o) (spent_outpoints vtx).
Definition remove_spent (vtx : list CTransaction) (l : CDeterministicMNList) : CDeterministicMNList :=
  BatchRemoveMNs l (collateral_spent l vtx).

Definition tier_mismatches (height : Z) (l : CDeterministicMNList) : list uint256 :=
  fst <$> filter (fun p =>
    let c := coins p.2.(collateralOutpoint) in
    let expectedTier := GetMasternodeTier cp c.(out).(nValue) height in
    negb (IsSpent c) && ((expectedTier =? 0) || negb (expectedTier =? p.2.(mn_state).(nTier))) = true)
    (map_entries l.(mnMap)).

Definition paid_state (s : CDeterministicMNState) (height : Z) : CDeterministicMNState :=
  MkState s.(nRegisteredHeight) height s.(nPoSePenalty) s.(nPoSeRevivedHeight) s.(nPoSeBanHeight)
    s.(nRevocationReason) s.(nTier) s.(nLastServiceUpdateHeight) s.(nLastRegistrarUpdateHeight) s.(keyIDOwner)
    s.(vchOperatorPubKey) s.(keyIDVoting) s.(mn_addr) s.(scriptPayout) s.(scriptOperatorPayout).

(** [nLastPaidHeight] of the payee of the previous list. *)
Definition pay (pindex : CBlockIndex) (prevList l : CDeterministicMNList) : result stop CDeterministicMNList :=
  match pindex.(pprev) with
  | Some prev =>
    if 0 <? GetValidMNsCount prevList then
      _ ← assert (prev.(bi_hash) =? prevList.(blockHash));
      Ok match GetMNPayee cp prevList prev.(bi_hash) pindex.(bi_height) with
         | Some payee =>
           match GetMN l payee.(proTxHash) with
           | Some paidMN => UpdateMN l payee.(proTxHash) (paid_state paidMN.(mn_state) pindex.(bi_height))
           | None => l
           end
         | None => l
         end
    else Ok l
  | None => Ok l
  end.

(** Banned, not revoked, and banned long enough. *)
Definition due (height : Z) (s : CDeterministicMNState) : bool :=
  IsBanned s && (s.(nRevocationReason) =? 0) && (cp.(nPoSeRevivalHeight) <=? height - s.(nPoSeBanHeight)).
Definition due_ids (height : Z) (l : CDeterministicMNList) : list uint256 :=
  fst <$> filter (fun p => due height p.2.(mn_state) = true) (map_entries l.(mnMap)).

(** Undo data and punishment, when there is a PoSe manager. *)
Definition punish (height : Z) (l : CDeterministicMNList) (p : option CPoSeManager) (e : CEvoDB)
  : CDeterministicMNList * option CPoSeManager * CEvoDB :=
  match p with
  | None => (l, None, e)
  | Some m =>
    let affectedMNs := (fst <$> GetAllPenalties m) ++ due_ids height l in
    let '(m, e) := match affectedMNs with [] => (m, e) | _ => PrepareUndo m e height affectedMNs end in
    (CheckAndPunish m l height cp.(nPoSePenaltyIncrement) cp.(nPoSeBanThreshold), Some m, e)
  end.

Definition revived_state (s : CDeterministicMNState) (height : Z) : CDeterministicMNState :=
  MkState s.(nRegisteredHeight) height 0 height (-1)
    s.(nRevocationReason) s.(nTier) s.(nLastServiceUpdateHeight) s.(nLastRegistrarUpdateHeight) s.(keyIDOwner)
    s.(vchOperatorPubKey) s.(keyIDVoting) s.(mn_addr) s.(scriptPayout) s.(scriptOperatorPayout).
Definition revive_one (height : Z) (acc : CDeterministicMNList * option CPoSeManager * CEvoDB) (id : uint256)
  : CDeterministicMNList * option CPoSeManager * CEvoDB :=
  let '(l, p, e) := acc in
  match GetMN l id with
  | None => acc
  | Some mn =>
    let l := UpdateMN l id (revived_state mn.(mn_state) height) in
    match p with
    | None => (l, None, e)
    | Some m => let '(m, e) := ResetPenalty m e id in (l, Some m, e)
    end
  end.
Definition revive (height : Z) (l : CDeterministicMNList) (p : option CPoSeManager) (e : CEvoDB)
  : CDeterministicMNList * option CPoSeManager * CEvoDB :=
  foldl (revive_one height) (l, p, e) (due_ids height l).

(** *** The block *)

Definition IsMigrationBlock (pindex : CBlockIndex) : bool := pindex.(bi_height) =? cp.(nMNv2MigrationHeight).

(** The copy of the previous list, wiped at the migration height, without the
    masternodes whose collateral the block spends. *)
Definition start_list (pindex : CBlockIndex) (vtx : list CTransaction) (prevList : CDeterministicMNList)
  : CDeterministicMNList :=
  if IsMigrationBlock pindex then list_at pindex.(bi_hash) pindex.(bi_height)
  else remove_spent vtx
    (foldl AddMNInPlace (set_total (list_at pindex.(bi_hash) pindex.(bi_height)) prevList.(nTotalRegisteredCount))
       (mns prevList)).

(** The passes after the special transactions. *)
Definition finish_list (pindex : CBlockIndex) (vtx : list CTransaction) (prevList l : CDeterministicMNList)
  (p : option CPoSeManager) (e : CEvoDB) : result stop (CDeterministicMNList * option CPoSeManager * CEvoDB) :=
  if IsMigrationBlock pindex then Ok (l, p, e)
  else
    let l := remove_spent vtx l in
    let l := BatchRemoveMNs l (tier_mismatches pindex.(bi_height) l) in
    l ← pay pindex prevList l;
    let '(l, p, e) := punish pindex.(bi_height) l p e in
    Ok (revive pindex.(bi_height) l p e).

(** The writes, as one transaction; what throws is not modelled. *)
Definition commit (w : world) (pindex : CBlockIndex) (newList : CDeterministicMNList) (p : option CPoSeManager) (e : CEvoDB)
  : result stop world :=
  e ← get_or_assert (BeginTransaction e);
  let e := SaveListToDb e newList in
  let '(p, e) := match p with Some m => let '(m, e) := Flush m e in (Some m, e) | None => (None, e) end in
  e ← get_or_assert (CommitTransaction e);
  Ok (CleanupCache (MkWorld (<[pindex.(bi_hash) := newList]> w.(mnListsCache)) (Some newList) p e)).

(** [ProcessBlock], over the lookup of the previous list; the world is kept
    when the block is rejected. *)
Definition process_with (getList : world -> CBlockIndex -> result stop (world * CDeterministicMNList))
  (w : world) (vtx : list CTransaction) (pindex : CBlockIndex) (fJustCheck : bool)
  : result stop (world * result reject unit) :=
  '(w, prevList) ← match pindex.(pprev) with Some prev => getList w prev | None => Ok (w, empty_list) end;
  match foldM (apply_special pindex.(bi_height)) (start_list pindex vtx prevList) vtx with
  | Err r => Ok (w, Err r)
  | Ok l =>
    '(newList, p, e) ← finish_list pindex vtx prevList l w.(poseManager) w.(evoDb);
    if fJustCheck then Ok (set_db w p e, Ok tt)
    else w ← commit w pindex newList p e; Ok (w, Ok tt)
  end.

(** ** The list of a block *)

(** The walk back to an ancestor with a list in the cache or the database: the
    world, that list, and the blocks after it, oldest first. *)
Fixpoint walk_back (w : world) (cursor : CBlockIndex) (replay : list CBlockIndex)
  : world * option CDeterministicMNList * list CBlockIndex :=
  match w.(mnListsCache) !! cursor.(bi_hash) with
  | Some l => (w, Some l, replay)
  | None =>
    match LoadListFromDb w.(evoDb) cursor.(bi_hash) with
    | Some l => (set_cache w (<[cursor.(bi_hash) := l]> w.(mnListsCache)), Some l, replay)
    | None =>
      match cursor.(pprev) with
      | Some prev => walk_back w prev (cursor :: replay)
      | None => (w, None, cursor :: replay)
      end
    end
  end.

(** The replay; a block that cannot be read ends it. *)
Fixpoint replay_blocks (process : world -> list CTransaction -> CBlockIndex -> result stop (world * result reject unit))
  (w : world) (baseList : CDeterministicMNList) (bs : list CBlockIndex) : result stop (world * CDeterministicMNList) :=
  match bs with
  | [] => Ok (w, baseList)
  | b :: bs' =>
    match ReadBlockFromDisk b with
    | None => Ok (w, baseList)
    | Some vtx =>
      '(w, _) ← process w vtx b;
      replay_blocks process w (default baseList (w.(mnListsCache) !! b.(bi_hash))) bs'
    end
  end.

(** Replayed blocks look up the list of their own predecessor; [fuel] bounds
    that nesting. *)
Fixpoint GetListForBlock (fuel : nat) (w : world) (pindex : CBlockIndex) : result stop (world * CDeterministicMNList) :=
  match fuel with
  | O => Err OutOfFuel
  | S fuel' =>
    if pindex.(bi_height) <? GetMasternodeActivationHeight cp then Ok (w, list_at pindex.(bi_hash) pindex.(bi_height))
    else match w.(mnListsCache) !! pindex.(bi_hash) with
    | Some l => Ok (w, l)
    | None =>
      match LoadListFromDb w.(evoDb) pindex.(bi_hash) with
      | Some l => Ok (set_cache w (<[pindex.(bi_hash) := l]> w.(mnListsCache)), l)
      | None =>
        let '(w, base, replay) := walk_back w pindex [] in
        '(w, baseList) ← replay_blocks (fun w vtx b => process_with (GetListForBlock fuel') w vtx b false)
                           w (default empty_list base) replay;
        Ok (w, default baseList (w.(mnListsCache) !! pindex.(bi_hash)))
      end
    end
  end.

(** The number of blocks up to [p]; one more than that is enough fuel. *)
Fixpoint depth (p : CBlockIndex) : nat :=
  match p.(pprev) with Some q => S (depth q) | None => 1 end.

Definition list_for (w : world) (p : CBlockIndex) : result stop (world * CDeterministicMNList) :=
  GetListForBlock (depth p) w p.

(** ** Entry points *)

Definition ProcessBlock (w : world) (vtx : list CTransaction) (pindex : CBlockIndex) (fJustCheck : bool)
  : result stop (world * result reject unit) := process_with list_for w vtx pindex fJustCheck.

Definition UndoBlock (w : world) (pindex : CBlockIndex) : result stop world :=
  let w := MkWorld (delete pindex.(bi_hash) w.(mnListsCache)) w.(tipList) w.(poseManager)
             (Erase c_hash_key w.(evoDb) (DB_LIST_SNAPSHOT, pindex.(bi_hash))) in
  match pindex.(pprev) with
  | Some prev => '(w, l) ← list_for w prev; Ok (set_tip w l)
  | None => Ok (set_tip w empty_list)
  end.

Definition GetListAtChainTip (w : world) : CDeterministicMNList := default empty_list w.(tipList).
Definition Manager_GetMN (w : world) (id : uint256) : option CDeterministicMN := l ← w.(tipList); GetMN l id.
Definition HasMN (w : world) (id : uint256) : bool := is_some (Manager_GetMN w id).
Definition Manager_GetMNByCollateral (w : world) (o : COutPoint) : option CDeterministicMN :=
  l ← w.(tipList); GetMNByCollateral l o.
Definition IsProTxWithCollateral (w : world) (o : COutPoint) : bool := is_some (Manager_GetMNByCollateral w o).
Definition Manager_GetMNPayee (w : world) (pindex : option CBlockIndex) : result stop (world * option CDeterministicMN) :=
  match pindex with
  | None => Ok (w, None)
  | Some p =>
    '(w, l) ← list_for w p;
    Ok (w, GetMNPayee cp l p.(bi_hash) (p.(bi_height) + 1))
  end.
Definition UpdatedBlockTip (w : world) (pindexNew : CBlockIndex) (pindexFork : option CBlockIndex)
  (fInitialDownload : bool) : result stop world :=
  if fInitialDownload || match pindexFork with Some f => same pindexNew f | None => false end then Ok w
  else '(w, l) ← list_for w pindexNew; Ok (set_tip w l).

(** The checks of the block, then [ProcessBlock].  The checks look lists up
    through [getList], and their coins view agrees with the tip's: no output of
    the block is created or spent before they run. *)
Definition ProcessSpecialTxsInBlock `{CR : Crypto} (getList : CBlockIndex -> option CDeterministicMNList)
  (w : world) (vtx : list CTransaction) (pindex : CBlockIndex) (fJustCheck : bool)
  : result stop (world * result reject unit) :=
  match check_block_txs cp (Some getList) (Some coins) pindex vtx with
  | Err r => Ok (w, Err r)
  | Ok _ => if fJustCheck then Ok (w, Ok tt) else ProcessBlock w vtx pindex fJustCheck
  end.

(** The call for PoSe ignores its result. *)
Definition UndoSpecialTxsInBlock (w : world) (pindex : CBlockIndex) : result stop world :=
  let w := match w.(poseManager) with
           | Some m => let '(_, m, e) := PoSe.UndoBlock m w.(evoDb) pindex.(bi_height) in set_db w (Some m) e
           | None => w
           end in
  UndoBlock w pindex.

(** ** Termination *)

Lemma walk_back_depth p : forall w replay w' base bs, walk_back w p replay = (w', base, bs) ->
  forall b, b ∈ bs -> b ∈ replay \/ (depth b <= depth p)%nat.
Proof.
  assert (Hgo : forall n p, (depth p <= n)%nat -> forall w replay w' base bs, walk_back w p replay = (w', base, bs) ->
    forall b, b ∈ bs -> b ∈ replay \/ (depth b <= depth p)%nat).
  { induction n as [|n IH]; intros [h hh ver t nb cw tm prev sk] Hn w replay w' base bs E b Hb;
      [destruct prev; simpl in Hn; lia|].
    cbn [walk_back bi_hash pprev] in E. destruct (mnListsCache w !! h); [inv E; auto|].
    destruct (LoadListFromDb (evoDb w) h); [inv E; auto|]. destruct prev as [q|].
    - cbn [depth pprev] in Hn. destruct (IH q ltac:(lia) _ _ _ _ _ E b Hb) as [[->|?]%elem_of_cons|?]; auto.
      right. cbn [depth pprev]. lia.
    - inv E. apply elem_of_cons in Hb as [->|?]; auto. }
  intros. by eapply Hgo.
Qed.

Lemma replay_blocks_ext f g bs : forall w base,
  (forall w vtx b, b ∈ bs -> f w vtx b = g w vtx b) -> replay_blocks f w base bs = replay_blocks g w base bs.
Proof.
  induction bs as [|b bs IH]; intros w base H; [done|]. cbn [replay_blocks].
  destruct (ReadBlockFromDisk b) as [vtx|]; [|done]. rewrite H by apply list_elem_of_here.
  destruct (g w vtx b) as [[w' r]|]; [|done]. cbn. apply IH. intros. apply H. by apply list_elem_of_further.
Qed.

Lemma process_with_ext f g w vtx b c :
  (forall q, b.(pprev) = Some q -> f w q = g w q) -> process_with f w vtx b c = process_with g w vtx b c.
Proof. intros H. unfold process_with. destruct (pprev b) as [q|]; [by rewrite H|done]. Qed.

(** Any two amounts of fuel that cover the chain below agree. *)
Lemma fuel_irrelevant n : forall f g w p, (depth p <= n)%nat -> (depth p <= f)%nat -> (depth p <= g)%nat ->
  GetListForBlock f w p = GetListForBlock g w p.
Proof.
  induction n as [|n IH]; intros f g w p Hn Hf Hg; [destruct p as [? ? ? ? ? ? ? [|]]; simpl in Hn; lia|].
  destruct f as [|f]; [destruct p as [? ? ? ? ? ? ? [|]]; simpl in Hf; lia|].
  destruct g as [|g]; [destruct p as [? ? ? ? ? ? ? [|]]; simpl in Hg; lia|].
  cbn [GetListForBlock]. repeat (case_match; [done|]).
  destruct (walk_back w p []) as [[w1 base] bs] eqn:Ew.
  rewrite (replay_blocks_ext (fun w vtx b => process_with (GetListForBlock f) w vtx b false)
             (fun w vtx b => process_with (GetListForBlock g) w vtx b false)); [done|].
  intros w2 vtx b Hb. apply process_with_ext. intros q Hq.
  destruct (walk_back_depth p w [] w1 base bs Ew b Hb) as [[]%elem_of_nil|Hd].
  destruct b as [? ? ? ? ? ? ? prev]. cbn in Hq. subst prev. cbn [depth pprev] in Hd. apply IH; lia.
Qed.

(** Runs that do not end for lack of fuel. *)
Definition runs {A} (r : result stop A) : Prop := r <> Err OutOfFuel.

Lemma runs_bind {A B} (r : result stop A) (f : A -> result stop B) :
  runs r -> (forall a, r = Ok a -> runs (f a)) -> runs (r ≫= f).
Proof. destruct r as [a|e]; cbn; [intros _ H; by apply H|intros H _ [= ->]; by apply H]. Qed.

Lemma get_or_assert_runs {A} (o : option A) : runs (get_or_assert o).
Proof. by destruct o. Qed.

Lemma pay_runs pindex prevList l : runs (pay pindex prevList l).
Proof.
  unfold pay. destruct (pprev pindex); [|done]. case_match; [|done].
  apply runs_bind; [unfold assert, require; by case_match|done].
Qed.

Lemma commit_runs w pindex l p e : runs (commit w pindex l p e).
Proof.
  unfold commit. apply runs_bind; [apply get_or_assert_runs|]. intros e1 _.
  destruct p as [m|]; [destruct (Flush m (SaveListToDb e1 l)) as [m' e2]|]; (apply runs_bind; [apply get_or_assert_runs|done]).
Qed.

Lemma finish_runs pindex vtx prevList l p e : runs (finish_list pindex vtx prevList l p e).
Proof.
  unfold finish_list. destruct (IsMigrationBlock pindex); [done|]. apply runs_bind; [apply pay_runs|].
  intros l1 _. by destruct (punish (bi_height pindex) l1 p e) as [[? ?] ?].
Qed.

Lemma process_runs f w vtx b c : (forall q, b.(pprev) = Some q -> runs (f w q)) -> runs (process_with f w vtx b c).
Proof.
  intros H. unfold process_with. apply runs_bind; [destruct (pprev b); [by apply H|done]|].
  intros [w1 prevList] _. case_match; [|done]. apply runs_bind; [apply finish_runs|].
  intros [[newList p] e] _. destruct c; [done|]. apply runs_bind; [apply commit_runs|done].
Qed.

Lemma replay_runs f bs : (forall w vtx b, b ∈ bs -> runs (f w vtx b)) -> forall w base, runs (replay_blocks f w base bs).
Proof.
  induction bs as [|b bs IH]; intros H w base; [done|]. cbn [replay_blocks].
  destruct (ReadBlockFromDisk b) as [vtx|]; [|done]. apply runs_bind; [apply H, list_elem_of_here|].
  intros [w1 r] _. apply IH. intros. apply H. by apply list_elem_of_further.
Qed.

Lemma GetListForBlock_runs n : forall w p, (depth p <= n)%nat -> runs (GetListForBlock n w p).
Proof.
  induction n as [|n IH]; intros w p Hn; [destruct p as [? ? ? ? ? ? ? [|]]; simpl in Hn; lia|].
  cbn [GetListForBlock]. repeat (case_match; [done|]).
  destruct (walk_back w p []) as [[w1 base] bs] eqn:Ew. apply runs_bind; [|by intros []].
  apply replay_runs. intros w2 vtx b Hb. apply process_runs. intros q Hq.
  destruct (walk_back_depth p w [] w1 base bs Ew b Hb) as [[]%elem_of_nil|Hd].
  destruct b as [? ? ? ? ? ? ? prev]. cbn in Hq. subst prev. cbn [depth pprev] in Hd. apply IH. lia.
Qed.

(** ** What the passes keep *)

(** [l'] is [l] with masternodes removed and states changed. *)
Record shrinks (l l' : CDeterministicMNList) : Prop := {
  sh_hash : l'.(blockHash) = l.(blockHash);
  sh_height : l'.(nHeight) = l.(nHeight);
  sh_sub : forall k mn', GetMN l' k = Some mn' ->
    exists mn, GetMN l k = Some mn /\ mn'.(collateralOutpoint) = mn.(collateralOutpoint);
}.

#[local] Instance shrinks_preorder : PreOrder shrinks.
Proof.
  split; [by intros l; split; eauto|]. intros a b c [Ha Hh Hs] [Hb Hh' Hs']. split; [congruence..|].
  intros k mn'' (mn'&H'&E')%Hs'. destruct (Hs k mn' H') as (mn&H&E). exists mn. split; [done|congruence].
Qed.

Lemma shrinks_UpdateMN l id s : shrinks l (UpdateMN l id s).
Proof.
  unfold UpdateMN. destruct (GetMN l id) as [mn|] eqn:E; [|done]. case_match; [done|]. split; [done..|].
  intros k mn'. unfold GetMN in *. cbn. intros [[<- <-]|[_ Hl]]%lookup_insert_Some; eauto.
Qed.

Lemma GetMN_RemoveMN l id k : GetMN (RemoveMN l id) k = if decide (k = id) then None else GetMN l k.
Proof.
  unfold RemoveMN. destruct (GetMN l id) as [mn|] eqn:E.
  - unfold GetMN in *. cbn. case_decide; [subst; by rewrite lookup_delete_eq|by rewrite lookup_delete_ne].
  - case_decide; [by subst|done].
Qed.

Lemma GetMN_BatchRemoveMNs ids : forall l k,
  GetMN (BatchRemoveMNs l ids) k = if decide (k ∈ ids) then None else GetMN l k.
Proof.
  unfold BatchRemoveMNs. induction ids as [|id ids IH]; intros l k; [done|]. cbn [foldl].
  rewrite IH, GetMN_RemoveMN. destruct (decide (k ∈ ids)); [by rewrite decide_True by (by apply list_elem_of_further)|].
  destruct (decide (k = id)) as [->|].
  - by rewrite decide_True by apply list_elem_of_here.
  - by rewrite decide_False by (by intros [|]%elem_of_cons).
Qed.

Lemma shrinks_BatchRemoveMNs ids : forall l, shrinks l (BatchRemoveMNs l ids).
Proof.
  intros l. split; [| |intros k mn; rewrite GetMN_BatchRemoveMNs; case_decide; [done|eauto]];
    unfold BatchRemoveMNs; revert l; induction ids as [|id ids IH]; intros l; try done; cbn [foldl];
    rewrite IH; unfold RemoveMN; by case_match.
Qed.

Lemma shrinks_Batch us : forall l, shrinks l (BatchUpdateMNStates l us).
Proof.
  unfold BatchUpdateMNStates. induction us as [|u us IH]; intros l; [done|]. cbn [foldl].
  etransitivity; [apply shrinks_UpdateMN|apply IH].
Qed.

(** A pass that keeps lists well formed. *)
Definition tidy (l l' : CDeterministicMNList) : Prop := shrinks l l' /\ (WF l -> WF l').

#[local] Instance tidy_preorder : PreOrder tidy.
Proof.
  split; [by intros l|]. intros a b c [? ?] [? ?]. split; [by etransitivity|auto].
Qed.

Lemma tidy_remove l ids : tidy l (BatchRemoveMNs l ids).
Proof. split; [apply shrinks_BatchRemoveMNs|apply WF_BatchRemoveMNs]. Qed.

Lemma tidy_update l id s mn : GetMN l id = Some mn -> props (set_state mn s) = props mn -> tidy l (UpdateMN l id s).
Proof.
  intros E Hp. split; [apply shrinks_UpdateMN|]. intros WFl. apply WF_UpdateMN_same; [done|].
  intros mn' E'. rewrite E in E'. by injection E' as <-.
Qed.

Lemma pay_tidy pindex prevList l l' : pay pindex prevList l = Ok l' -> tidy l l'.
Proof.
  unfold pay. destruct (pprev pindex) as [prev|]; [|by intros [= <-]]. case_match; [|by intros [= <-]].
  intros ([]&_&[= <-])%bind_Ok. destruct (GetMNPayee _ _ _ _) as [payee|]; [|done].
  destruct (GetMN l (proTxHash payee)) as [mn|] eqn:E; [|done].
  apply (tidy_update _ _ _ mn); [done|]. by destruct mn as [? ? ? [] ?].
Qed.

Lemma punish_tidy height l p e : tidy l (punish height l p e).1.1.
Proof.
  unfold punish. destruct p as [m|]; [|done].
  destruct (match _ with [] => _ | _ => _ end) as [m' e']. cbn.
  split; [apply shrinks_Batch|apply WF_CheckAndPunish].
Qed.

Lemma revive_one_tidy height acc id : tidy acc.1.1 (revive_one height acc id).1.1.
Proof.
  destruct acc as [[l p] e]. unfold revive_one. destruct (GetMN l id) as [mn|] eqn:E; [|done].
  assert (tidy l (UpdateMN l id (revived_state mn.(mn_state) height))) as Ht.
  { apply (tidy_update _ _ _ mn); [done|]. by destruct mn as [? ? ? [] ?]. }
  destruct p as [m|]; [|exact Ht]. by destruct (ResetPenalty m e id).
Qed.

Lemma revive_tidy height l p e : tidy l (revive height l p e).1.1.
Proof.
  unfold revive. change l with ((l, p, e).1.1) at 1. generalize (l, p, e).
  induction (due_ids height l) as [|id ids IH]; intros acc; [done|]. cbn [foldl].
  etransitivity; [apply revive_one_tidy|apply IH].
Qed.

(** The passes after the spent collaterals are gone. *)
Lemma finish_tidy pindex vtx prevList l p e r : IsMigrationBlock pindex = false ->
  finish_list pindex vtx prevList l p e = Ok r -> tidy (remove_spent vtx l) r.1.1.
Proof.
  unfold finish_list. intros ->. intros (l1&H1&H)%bind_Ok. apply pay_tidy in H1.
  generalize (punish_tidy (bi_height pindex) l1 p e). destruct (punish (bi_height pindex) l1 p e) as [[l2 p2] e2].
  intros H2. injection H as <-. etransitivity; [apply tidy_remove|]. etransitivity; [exact H1|].
  etransitivity; [exact H2|apply revive_tidy].
Qed.

(** No masternode is left whose collateral the block spends. *)
Lemma remove_spent_none vtx l k mn : WF l -> GetMN (remove_spent vtx l) k = Some mn ->
  mn.(collateralOutpoint) ∉ spent_outpoints vtx.
Proof.
  intros WFl. unfold remove_spent. rewrite GetMN_BatchRemoveMNs. case_decide as Hk; [done|]. intros Hmn Hin.
  apply Hk. unfold collateral_spent. apply list_elem_of_omap. exists (collateralOutpoint mn). split; [done|].
  assert (GetMNByCollateral l (collateralOutpoint mn) = Some mn) as ->.
  { unfold GetMNByCollateral, GetMNByProp.
    rewrite (wf_indexed l WFl k mn (PCollateral (collateralOutpoint mn)) Hmn) by (apply list_elem_of_here). done. }
  cbn. by rewrite (wf_id l WFl k mn Hmn).
Qed.

(** ** Special transactions *)

(** What a special transaction needs of the list it is applied to: a
    registration, that its id and properties are free; an update, that the
    properties it swaps do not collide under the hash. *)
Definition special_ok (height : Z) (l : CDeterministicMNList) (tx : CTransaction) : Prop :=
  all_bytes tx.(vExtraPayload) = true
  /\ (forall q, registration tx = Some q -> GetMN l (GetHash tx) = None
        /\ forall pr, pr ∈ props (registered_mn cp (Some coins) tx q height 0) ->
             l.(mnUniquePropertyMap) !! prop_hash pr = None)
  /\ (forall q mn, GetTxType tx = TRANSACTION_PROVIDER_UPDATE_SERVICE -> GetTxPayload c_upserv tx = Some q ->
        GetMN l q.(us_proTxHash) = Some mn ->
        collision_free (props mn ++ props (set_state mn (updated_service mn.(mn_state) q height))))
  /\ (forall q mn, GetTxType tx = TRANSACTION_PROVIDER_UPDATE_REGISTRAR -> GetTxPayload c_upreg tx = Some q ->
        GetMN l q.(ur_proTxHash) = Some mn ->
        collision_free (props mn ++ props (set_state mn (updated_registrar mn.(mn_state) q height)))).

Fixpoint specials_ok (height : Z) (l : CDeterministicMNList) (vtx : list CTransaction) : Prop :=
  match vtx with
  | [] => True
  | tx :: vtx' => special_ok height l tx /\ forall l', apply_special height l tx = Ok l' -> specials_ok height l' vtx'
  end.

Lemma valid_mn_update mn s : valid_mn mn = true -> CService.valid s.(mn_addr) = true ->
  s.(keyIDOwner) = mn.(mn_state).(keyIDOwner) -> in_u 160 s.(keyIDVoting) = true ->
  valid_bytes s.(vchOperatorPubKey) = true -> valid_mn (set_state mn s) = true.
Proof.
  intros V Ha Ho Hv Hk. unfold valid_mn in *. apply andb_true_iff in V as [V1 V]. unfold props in *.
  cbn [forallb valid_prop set_state collateralOutpoint mn_state proTxHash] in *.
  repeat match goal with H : _ && _ = true |- _ => apply andb_true_iff in H as [? ?] end.
  rewrite Ho. repeat match goal with H : ?b = true |- context [?b] => rewrite H; clear H end. done.
Qed.

Lemma valid_mn_fields mn : valid_mn mn = true ->
  CService.valid mn.(mn_state).(mn_addr) = true /\ in_u 160 mn.(mn_state).(keyIDVoting) = true
  /\ valid_bytes mn.(mn_state).(vchOperatorPubKey) = true.
Proof.
  intros V. split_and!; [apply (valid_mn_props mn (PAddr (mn_addr (mn_state mn))) V)
    |apply (valid_mn_props mn (PVoting (keyIDVoting (mn_state mn))) V)
    |apply (valid_mn_props mn (POperator (vchOperatorPubKey (mn_state mn))) V)];
    unfold props; rewrite !elem_of_cons; tauto.
Qed.

Lemma WF_update_named l id f l' : WF l -> update_named l id f = Ok l' ->
  (forall mn, GetMN l id = Some mn -> valid_mn (set_state mn (f mn.(mn_state))) = true
     /\ keeps_owner mn (f mn.(mn_state)) /\ collision_free (props mn ++ props (set_state mn (f mn.(mn_state))))) ->
  WF l' /\ l'.(blockHash) = l.(blockHash).
Proof.
  intros WFl H Hf. unfold update_named in H. accepted H. injection H as <-.
  split; [|apply shrinks_UpdateMN]. apply WF_UpdateMN; [done|]. intros mn Hmn.
  assert (mn = a) as -> by congruence. by apply Hf.
Qed.

Lemma WF_apply_special height l tx l' : WF l -> special_ok height l tx -> apply_special height l tx = Ok l' ->
  WF l' /\ l'.(blockHash) = l.(blockHash).
Proof.
  intros WFl (Hb&Hreg&Hs&Hr) H. unfold apply_special in H. unfold registration in Hreg.
  destruct (IsTxTypeSpecial tx); [|by inv H]. cbn [negb] in H.
  destruct (GetTxType tx); try (by inv H); accepted H.
  - injection H as <-. split; [|done]. destruct (Hreg _ HA) as [Hid Hfree].
    apply (GetTxPayload_spec c_proreg valid_proreg) in HA as [_ Hv]; [|done].
    apply WF_AddMN; [done|by apply valid_registered|done|exact Hfree].
  - pose proof (proj1 (GetTxPayload_spec c_upserv valid_upserv tx _ Hb) HA) as [_ Hv].
    unfold valid_upserv, valid_upserv_head, upserv_head, valid_pair in Hv. cbn [fst snd] in Hv.
    repeat match goal with H : _ && _ = true |- _ => apply andb_true_iff in H as [? ?] end.
    apply (WF_update_named l (us_proTxHash a) (fun s => updated_service s a height)); [done..|]. intros mn Hmn.
    pose proof (wf_valid l WFl _ _ Hmn) as V. destruct (valid_mn_fields mn V) as (?&?&?).
    split_and!; [by apply valid_mn_update|done|by eapply Hs].
  - pose proof (proj1 (GetTxPayload_spec c_upreg valid_upreg tx _ Hb) HA) as [_ Hv].
    unfold valid_upreg, valid_upreg_head, upreg_head, valid_pair in Hv. cbn [fst snd] in Hv.
    repeat match goal with H : _ && _ = true |- _ => apply andb_true_iff in H as [? ?] end.
    apply (WF_update_named l (ur_proTxHash a) (fun s => updated_registrar s a height)); [done..|]. intros mn Hmn.
    pose proof (wf_valid l WFl _ _ Hmn) as V. destruct (valid_mn_fields mn V) as (?&?&?).
    split_and!; [|done|by eapply Hr].
    apply valid_mn_update; try done; unfold updated_registrar; cbn [keyIDVoting vchOperatorPubKey]; by case_match.
  - unfold update_named in H. accepted H. injection H as <-.
    destruct (tidy_update l (rv_proTxHash a) (intra_revoke a0.(mn_state) a height) a0 HA0) as [Hsh Hwf];
      [by destruct a0 as [? ? ? [] ?]|]. split; [auto|apply Hsh].
Qed.

Lemma WF_specials height vtx : forall l l', WF l -> specials_ok height l vtx ->
  foldM (apply_special height) l vtx = Ok l' -> WF l' /\ l'.(blockHash) = l.(blockHash).
Proof.
  induction vtx as [|tx vtx IH]; intros l l' WFl Hok H; [by inv H|]. destruct Hok as [Htx Hok].
  cbn [foldM] in H. apply bind_Ok in H as (l1&H1&H). destruct (WF_apply_special _ _ _ _ WFl Htx H1) as [WF1 E1].
  destruct (IH l1 l' WF1 (Hok l1 H1) H) as [? ->]. done.
Qed.

Lemma WF_start pindex vtx prevList : WF prevList ->
  WF (start_list pindex vtx prevList) /\ (start_list pindex vtx prevList).(blockHash) = pindex.(bi_hash).
Proof.
  intros WFp. unfold start_list. destruct (IsMigrationBlock pindex); [split; [apply (WF_empty _ _ 0)|done]|].
  rewrite copy_list by done. unfold remove_spent. set (l := MkList _ _ _ _ _).
  assert (WF l) as WFl by (destruct WFp as [? ? ? ?]; by split).
  split; [by apply WF_BatchRemoveMNs|apply (shrinks_BatchRemoveMNs _ l)].
Qed.

(** The list a successful run builds. *)
Lemma built_list pindex vtx prevList l p e r : WF prevList ->
  specials_ok pindex.(bi_height) (start_list pindex vtx prevList) vtx ->
  foldM (apply_special pindex.(bi_height)) (start_list pindex vtx prevList) vtx = Ok l ->
  finish_list pindex vtx prevList l p e = Ok r ->
  WF r.1.1 /\ r.1.1.(blockHash) = pindex.(bi_hash)
  /\ (IsMigrationBlock pindex = false -> forall k mn, GetMN r.1.1 k = Some mn ->
       mn.(collateralOutpoint) ∉ spent_outpoints vtx).
Proof.
  intros WFp Hok Hsp Hfin. destruct (WF_start pindex vtx prevList WFp) as [WFs Es].
  destruct (WF_specials _ _ _ _ WFs Hok Hsp) as [WFl El]. destruct (IsMigrationBlock pindex) eqn:Em.
  - unfold finish_list in Hfin. rewrite Em in Hfin. injection Hfin as <-. cbn. split_and!; [done|congruence|done].
  - pose proof (finish_tidy _ _ _ _ _ _ _ Em Hfin) as [Hsh Hwf].
    pose proof (tidy_remove l (collateral_spent l vtx)) as [Hsh0 Hwf0]. fold (remove_spent vtx l) in Hsh0, Hwf0.
    split_and!; [auto|rewrite (sh_hash _ _ Hsh), (sh_hash _ _ Hsh0); congruence|].
    intros _ k mn Hmn. destruct (sh_sub _ _ Hsh k mn Hmn) as (mn0&Hmn0&->). by apply (remove_spent_none vtx l k).
Qed.

(** The list belongs to the block, whatever it contains. *)
Lemma apply_special_hash height l tx l' : apply_special height l tx = Ok l' -> l'.(blockHash) = l.(blockHash).
Proof.
  assert (forall id f l', update_named l id f = Ok l' -> l'.(blockHash) = l.(blockHash)) as Hu.
  { intros id f l1 H. unfold update_named in H. accepted H. injection H as <-. apply shrinks_UpdateMN. }
  unfold apply_special. intros H. destruct (IsTxTypeSpecial tx); [|by inv H]. cbn [negb] in H.
  destruct (GetTxType tx); try (by inv H); accepted H; eauto. by injection H as <-.
Qed.

Lemma built_hash pindex vtx prevList l p e r :
  foldM (apply_special pindex.(bi_height)) (start_list pindex vtx prevList) vtx = Ok l ->
  finish_list pindex vtx prevList l p e = Ok r -> r.1.1.(blockHash) = pindex.(bi_hash).
Proof.
  intros Hsp Hfin. assert (l.(blockHash) = pindex.(bi_hash)) as Hl.
  { assert ((start_list pindex vtx prevList).(blockHash) = pindex.(bi_hash)) as <-.
    { unfold start_list. destruct (IsMigrationBlock pindex); [done|].
      unfold remove_spent. rewrite (sh_hash _ _ (shrinks_BatchRemoveMNs _ _)). apply copy_maps. }
    revert Hsp. generalize (start_list pindex vtx prevList). clear Hfin.
    generalize vtx at 1. intros txs. induction txs as [|tx txs IH]; intros l0 H; [by inv H|].
    cbn [foldM] in H. apply bind_Ok in H as (l1&H1&H). rewrite (IH l1 H). by eapply apply_special_hash. }
  destruct (IsMigrationBlock pindex) eqn:Em.
  - unfold finish_list in Hfin. rewrite Em in Hfin. by injection Hfin as <-.
  - destruct (finish_tidy _ _ _ _ _ _ _ Em Hfin) as [Hsh _]. rewrite (sh_hash _ _ Hsh).
    unfold remove_spent. by rewrite (sh_hash _ _ (shrinks_BatchRemoveMNs _ l)).
Qed.

(** A run that commits, in its parts. *)
Lemma process_inv getList w vtx pindex w' : process_with getList w vtx pindex false = Ok (w', Ok tt) ->
  exists w1 prevList l newList p e,
    match pindex.(pprev) with Some prev => getList w prev | None => Ok (w, empty_list) end = Ok (w1, prevList)
    /\ foldM (apply_special pindex.(bi_height)) (start_list pindex vtx prevList) vtx = Ok l
    /\ finish_list pindex vtx prevList l w1.(poseManager) w1.(evoDb) = Ok (newList, p, e)
    /\ commit w1 pindex newList p e = Ok w'.
Proof.
  unfold process_with. intros ([w1 prevList]&H1&H)%bind_Ok. cbn beta iota in H.
  destruct (foldM _ _ _) as [l|] eqn:Hf; [|done]. apply bind_Ok in H as ([[newList p] e]&H2&H).
  cbn beta iota in H. apply bind_Ok in H as (w2&H3&[= <-]). exists w1, prevList, l, newList, p, e. done.
Qed.

Lemma commit_tip w pindex l p e w' : commit w pindex l p e = Ok w' -> w'.(tipList) = Some l.
Proof.
  unfold commit. intros (e1&_&H)%bind_Ok. destruct p as [m|].
  - destruct (Flush m (SaveListToDb e1 l)) as [m' e2]. by apply bind_Ok in H as (e3&_&[= <-]).
  - by apply bind_Ok in H as (e3&_&[= <-]).
Qed.

(** ** Accepted blocks *)

(** The addresses and keys that an update asks for, and those of a registration. *)
Definition claimed (tx : CTransaction) : list prop :=
  if negb (IsTxTypeSpecial tx) then []
  else match GetTxType tx with
  | TRANSACTION_PROVIDER_UPDATE_SERVICE =>
    match GetTxPayload c_upserv tx with Some q => [PAddr q.(us_addr)] | None => [] end
  | TRANSACTION_PROVIDER_UPDATE_REGISTRAR =>
    match GetTxPayload c_upreg tx with
    | Some q => (if q.(ur_keyIDVoting) =? 0 then [] else [PVoting q.(ur_keyIDVoting)])
                ++ (if bytes_eq q.(ur_vchOperatorPubKey) [] then [] else [POperator q.(ur_vchOperatorPubKey)])
    | None => []
    end
  | _ => []
  end.
Definition registered_props (tx : CTransaction) : list prop :=
  match registration tx with Some q => props (registered_mn cp (Some coins) tx q 0 0) | None => [] end.

(** No registration of the block has an address or key that an update of the
    block asks for. *)
Definition claims_apart (vtx : list CTransaction) : Prop :=
  forall tx pr, tx ∈ vtx -> pr ∈ registered_props tx -> prop_hash pr ∉ prop_hash <$> mjoin (claimed <$> vtx).
(** The properties that meet in a block. *)
Definition involved (l : CDeterministicMNList) (vtx : list CTransaction) : list prop :=
  all_props l ++ mjoin ((fun tx => registered_props tx ++ claimed tx) <$> vtx).

(** What is free in [l] and in [I] is free in [L], unless an update asked for it;
    the masternodes of [L] have no other properties than [P]. *)
Record covered (M : list uint256) (P : list prop) (l I L : CDeterministicMNList) : Prop := {
  cv_map : forall k, l.(mnMap) !! k = None -> I.(mnMap) !! k = None -> L.(mnMap) !! k = None;
  cv_index : forall h, h ∉ M -> l.(mnUniquePropertyMap) !! h = None -> I.(mnUniquePropertyMap) !! h = None ->
    L.(mnUniquePropertyMap) !! h = None;
  cv_props : forall k mn pr, L.(mnMap) !! k = Some mn -> pr ∈ props mn -> pr ∈ P;
}.

Lemma RemoveMN_index_None l id h : l.(mnUniquePropertyMap) !! h = None -> (RemoveMN l id).(mnUniquePropertyMap) !! h = None.
Proof.
  unfold RemoveMN. destruct (GetMN l id); [|done]. cbn. rewrite unindex_mn_lookup. by case_decide.
Qed.

Lemma BatchRemove_index_None ids h : forall l, l.(mnUniquePropertyMap) !! h = None ->
  (BatchRemoveMNs l ids).(mnUniquePropertyMap) !! h = None.
Proof.
  unfold BatchRemoveMNs. induction ids as [|id ids IH]; intros l Hl; [done|]. apply IH. by apply RemoveMN_index_None.
Qed.

Lemma covered_start M pindex vtx prevList : WF prevList ->
  covered M (involved prevList vtx) prevList (list_at pindex.(bi_hash) pindex.(bi_height)) (start_list pindex vtx prevList).
Proof.
  intros WFp. unfold start_list. destruct (IsMigrationBlock pindex); [by split|].
  rewrite copy_list by done. unfold remove_spent. set (l := MkList _ _ _ _ _).
  assert (forall k, (BatchRemoveMNs l (collateral_spent l vtx)).(mnMap) !! k
    = if decide (k ∈ collateral_spent l vtx) then None else prevList.(mnMap) !! k) as E.
  { intros k. pose proof (GetMN_BatchRemoveMNs (collateral_spent l vtx) l k) as E. unfold GetMN in E. by rewrite E. }
  split.
  - intros k Hk _. rewrite E. by case_decide.
  - intros h _ Hk _. by apply BatchRemove_index_None.
  - intros k mn pr. rewrite E. case_decide; [done|]. intros Hm Hp. apply elem_of_app. left. apply elem_of_all_props.
    exists mn. split; [|done]. apply elem_of_mns; [done|]. by rewrite (wf_id _ WFp _ _ Hm).
Qed.

(** Changed properties were asked for. *)
Lemma reindex_None id cs h : forall u, u !! h = None -> h ∉ prop_hash <$> (snd <$> cs) -> foldl (reindex id) u cs !! h = None.
Proof.
  induction cs as [|c cs IH]; intros u Hu Hh; [done|]. cbn in Hh. apply not_elem_of_cons in Hh as [Hc Hh]. cbn [foldl].
  apply IH; [|done]. unfold reindex. rewrite lookup_insert_ne by done. by apply lookup_delete_None; right.
Qed.

Lemma covered_update M P l I L L' id f : covered M P l I L -> update_named L id f = Ok L' ->
  (forall mn, L.(mnMap) !! id = Some mn ->
     (forall pr, pr ∈ snd <$> changes mn.(mn_state) (f mn.(mn_state)) -> prop_hash pr ∈ M)
     /\ forall pr, pr ∈ props (set_state mn (f mn.(mn_state))) -> pr ∈ props mn \/ pr ∈ P) ->
  covered M P l I L'.
Proof.
  intros [Hm Hx Hp] H Hf. unfold update_named in H. accepted H. injection H as <-. unfold GetMN in HA.
  destruct (Hf _ HA) as [Hc Hn]. unfold UpdateMN, GetMN. rewrite HA. destruct (wouldConflict _ _ _); [by split|].
  split; cbn [with_maps mnMap mnUniquePropertyMap].
  - intros k Hl HI. apply lookup_insert_None. split; [by apply Hm|]. intros <-. by rewrite Hm in HA.
  - intros h HM Hl HI. apply reindex_None; [by apply Hx|]. intros (pr & -> & Hpr)%list_elem_of_fmap. by apply HM, Hc.
  - intros k mn pr [[<- <-]|[_ Hk]]%lookup_insert_Some Hpr; [|by eapply Hp]. destruct (Hn pr Hpr); [by eapply Hp|done].
Qed.

Lemma service_claims s q height : snd <$> changes s (updated_service s q height) ⊆ [PAddr q.(us_addr)].
Proof.
  unfold changes, updated_service. cbn [mn_addr keyIDVoting vchOperatorPubKey]. rewrite Z.eqb_refl, bytes_eq_refl.
  destruct (CService.eqb _ _); cbn; set_solver.
Qed.
Lemma registrar_claims s q height : snd <$> changes s (updated_registrar s q height)
  ⊆ (if q.(ur_keyIDVoting) =? 0 then [] else [PVoting q.(ur_keyIDVoting)])
    ++ (if bytes_eq q.(ur_vchOperatorPubKey) [] then [] else [POperator q.(ur_vchOperatorPubKey)]).
Proof.
  unfold changes, updated_registrar. cbn [mn_addr keyIDVoting vchOperatorPubKey].
  unfold CService.eqb, CNetAddr.eqb. rewrite !bytes_eq_refl, !Z.eqb_refl. cbn [andb app].
  destruct (ur_keyIDVoting q =? 0); [rewrite Z.eqb_refl|]; destruct (bytes_eq (ur_vchOperatorPubKey q) []);
    rewrite ?bytes_eq_refl; repeat case_match; cbn; set_solver.
Qed.

Lemma service_props mn q height pr : pr ∈ props (set_state mn (updated_service mn.(mn_state) q height)) ->
  pr ∈ props mn \/ pr ∈ [PAddr q.(us_addr)].
Proof. unfold props, updated_service. cbn. rewrite !elem_of_cons. tauto. Qed.
Lemma registrar_props mn q height pr : pr ∈ props (set_state mn (updated_registrar mn.(mn_state) q height)) ->
  pr ∈ props mn \/ pr ∈ (if q.(ur_keyIDVoting) =? 0 then [] else [PVoting q.(ur_keyIDVoting)])
                        ++ (if bytes_eq q.(ur_vchOperatorPubKey) [] then [] else [POperator q.(ur_vchOperatorPubKey)]).
Proof.
  unfold props, updated_registrar. cbn. destruct (ur_keyIDVoting q =? 0); destruct (bytes_eq (ur_vchOperatorPubKey q) []);
    cbn [app]; rewrite !elem_of_cons; tauto.
Qed.

Lemma covered_apply M P height l I L L' tx : covered M P l I L ->
  (forall pr, pr ∈ claimed tx -> prop_hash pr ∈ M /\ pr ∈ P) -> (forall pr, pr ∈ registered_props tx -> pr ∈ P) ->
  apply_special height L tx = Ok L' -> covered M P l (add_registration cp (Some coins) height I tx) L'.
Proof.
  intros Hc HM HP H. unfold apply_special in H. unfold claimed in HM. unfold registered_props in HP.
  unfold add_registration, registration in *.
  destruct (IsTxTypeSpecial tx); [|by inv H]. cbn [negb] in *.
  destruct (GetTxType tx); try done; try (by inv H); accepted H.
  - injection H as <-. rewrite HA in HP |- *. destruct Hc as [Hm Hx Hp]. split.
    + intros k Hl. rewrite !AddMN_map_None. cbn. naive_solver.
    + intros h HhM Hl. rewrite !AddMN_index_None, (props_registered cp (Some coins) _ _ _ _ 0),
        (props_registered cp (Some coins) _ _ _ (nTotalRegisteredCount L) 0). naive_solver.
    + intros k mn pr. unfold AddMN, AddMNInPlace. cbn [set_total with_maps mnMap].
      intros [[<- <-]|[_ Hk]]%lookup_insert_Some Hpr; [by apply HP|by eapply Hp].
  - rewrite HA in HM. eapply covered_update; [done..|]. intros mn Hmn.
    split; [intros pr Hpr%service_claims; by apply HM|]. intros pr [|Hpr]%service_props; [by left|right; by apply HM].
  - rewrite HA in HM. eapply covered_update; [done..|]. intros mn Hmn.
    split; [intros pr Hpr%registrar_claims; by apply HM|]. intros pr [|Hpr]%registrar_props; [by left|right; by apply HM].
  - eapply covered_update; [done..|]. intros mn Hmn. rewrite (changes_same mn) by (by destruct mn as [? ? ? [] ?]).
    split; [by intros pr ?%elem_of_nil|]. intros pr Hpr. left. by destruct mn as [? ? ? [] ?].
Qed.

Lemma covered_free M P l I L k mn s : collision_free P -> covered M P l I L -> GetMN L k = Some mn ->
  (forall pr, pr ∈ props (set_state mn s) -> pr ∈ props mn \/ pr ∈ P) -> collision_free (props mn ++ props (set_state mn s)).
Proof.
  intros Hcf Hc Hmn Hs. apply (collision_free_sub P); [|done]. intros pr [Hpr|Hpr]%elem_of_app; [by eapply (cv_props _ _ _ _ _ Hc)|].
  destruct (Hs pr Hpr); [by eapply (cv_props _ _ _ _ _ Hc)|done].
Qed.

Lemma normal_type tx : IsTxTypeSpecial tx = false -> GetTxType tx = TRANSACTION_NORMAL.
Proof. unfold IsTxTypeSpecial, GetTxType. destruct (nType tx =? 0); rewrite ?orb_true_r; [done|]. by case_match; [|lia]. Qed.
Lemma update_special tx : GetTxType tx <> TRANSACTION_NORMAL -> IsTxTypeSpecial tx = true.
Proof. intros H. destruct (IsTxTypeSpecial tx) eqn:E; [done|]. by apply normal_type in E. Qed.

Context `{CR : Crypto}.
Context (getList : CBlockIndex -> option CDeterministicMNList).

Lemma specials_accepted M P p l height vtx : getList p = Some l -> WF l ->
  cp.(nTieredMNActivationHeight) <= next_height p -> collision_free P ->
  Forall (fun tx => all_bytes tx.(vExtraPayload) = true) vtx ->
  Forall (fun tx => (forall pr, pr ∈ claimed tx -> prop_hash pr ∈ M /\ pr ∈ P)
                    /\ forall pr, pr ∈ registered_props tx -> prop_hash pr ∉ M /\ pr ∈ P) vtx ->
  forall I L I', WF I -> covered M P l I L -> (forall k, l.(mnMap) !! k <> None -> I.(mnMap) !! k = None) ->
  NoDup (registered_ids vtx) -> Forall (fun k => l.(mnMap) !! k = None /\ I.(mnMap) !! k = None) (registered_ids vtx) ->
  foldM (fun l tx => _ ← CheckSpecialTx cp (Some getList) (Some coins) tx (Some p) (Some l);
                     Ok (intra_effect cp (Some coins) height l tx)) I vtx = Ok I' ->
  specials_ok height L vtx.
Proof.
  intros Hl WFl Ht Hcf. induction vtx as [|tx vtx IH]; intros Hb HMP I L I' WFI Hc Hd Hnd Hnew H; [done|].
  apply Forall_cons in Hb as [Hb1 Hb], HMP as [[HM1 HR1] HMP]. cbn [foldM] in H. apply bind_Ok in H as (I1&H1&H).
  apply bind_Ok in H1 as ([]&Hck&[= <-]). rewrite (intra_effect_accepted cp getList (Some coins) p l) in H by done.
  rewrite registered_ids_cons in Hnd, Hnew.
  pose proof (fun q id => registration_free cp getList (Some coins) p l I tx q height id Hl WFl WFI Ht Hb1 Hck) as Hfree.
  assert (forall L', apply_special height L tx = Ok L' -> covered M P l (add_registration cp (Some coins) height I tx) L') as Hc'.
  { intros L'. apply covered_apply; [done..|]. intros pr Hpr. by apply HR1. }
  split.
  - split_and!; [done| | |].
    2, 3: intros q mn Et Eq Hmn; pose proof (update_special tx ltac:(by rewrite Et)) as Es;
      unfold claimed in HM1; rewrite Es, Et, Eq in HM1; eapply covered_free; [done..|].
    2: { intros pr [|Hpr]%service_props; [by left|right; by apply HM1]. }
    2: { intros pr [|Hpr]%registrar_props; [by left|right; by apply HM1]. }
    intros q Hq. rewrite Hq in Hnew. apply Forall_cons in Hnew as [[? ?] _]. split; [by apply (cv_map _ _ _ _ _ Hc)|].
    intros pr Hpr. destruct (Hfree q 0 Hq pr Hpr). apply (cv_index _ _ _ _ _ Hc); [|done..].
    apply HR1. unfold registered_props. by rewrite Hq.
  - intros L' HL'. specialize (Hc' L' HL').
    unfold add_registration in H, Hc'. destruct (registration tx) as [q|] eqn:Eq; [|by eapply (IH Hb HMP)].
    apply NoDup_cons in Hnd as [Hni Hnd]. apply Forall_cons in Hnew as [[Hid HidI] Hnew].
    eapply (IH Hb HMP); [|exact Hc'| |done| |exact H].
    + apply WF_AddMN; [done| |done|intros pr Hpr; by destruct (Hfree q _ eq_refl pr Hpr)].
      apply valid_registered. by eapply registration_proreg.
    + intros k Hk. apply AddMN_map_None. split; [by apply Hd|]. by intros ->.
    + apply Forall_forall. intros k Hk. destruct (proj1 (Forall_forall _ _) Hnew k Hk). split; [done|].
      apply AddMN_map_None. split; [done|]. by intros ->.
Qed.

(** The checks establish what processing needs. *)
Lemma accepted_specials vtx pindex p prevList I :
  check_block_txs cp (Some getList) (Some coins) pindex vtx = Ok I ->
  pindex.(pprev) = Some p -> pindex.(bi_height) = next_height p -> cp.(nTieredMNActivationHeight) <= pindex.(bi_height) ->
  getList p = Some prevList -> WF prevList ->
  Forall (fun tx => all_bytes tx.(vExtraPayload) = true) vtx -> claims_apart vtx -> collision_free (involved prevList vtx) ->
  NoDup (registered_ids vtx) -> Forall (fun k => GetMN prevList k = None) (registered_ids vtx) ->
  specials_ok pindex.(bi_height) (start_list pindex vtx prevList) vtx.
Proof.
  intros Hck Hpp Hh Ht Hl WFp Hb Hap Hcf Hnd Hnew.
  unfold check_block_txs in Hck. rewrite Hpp in Hck. apply bind_Ok in Hck as (?&_&Hck).
  eapply (specials_accepted (prop_hash <$> mjoin (claimed <$> vtx)) (involved prevList vtx) p prevList _ vtx Hl WFp);
    [lia|done|done| | | | |done| |exact Hck].
  - apply Forall_forall. intros tx Hin.
    assert (forall pr, pr ∈ registered_props tx ++ claimed tx -> pr ∈ involved prevList vtx) as Hinv.
    { intros pr Hpr. apply elem_of_app. right. apply list_elem_of_join. exists (registered_props tx ++ claimed tx).
      split; [done|]. apply list_elem_of_fmap. by exists tx. }
    split; intros pr Hpr; (split; [|apply Hinv, elem_of_app; auto]); [|by eapply Hap].
    apply list_elem_of_fmap. exists pr. split; [done|]. apply list_elem_of_join. exists (claimed tx). split; [done|].
    apply list_elem_of_fmap. by exists tx.
  - apply (WF_empty _ _ 0).
  - by apply covered_start.
  - intros k _. apply lookup_empty.
  - apply (Forall_impl _ _ _ Hnew). intros k Hk. split; [done|apply lookup_empty].
Qed.

(** ** Properties *)

(** The previous list that [ProcessBlock] starts from. *)
Definition prev_list (w : world) (pindex : CBlockIndex) : result stop (world * CDeterministicMNList) :=
  match pindex.(pprev) with Some prev => list_for w prev | None => Ok (w, empty_list) end.

(** C3. A block that is accepted, checks and processing together, leaves a list that
    belongs to it, in which no two masternodes share a collateral, address or key
    (the list is well-formed), and, except at the migration height, no masternode
    has a collateral that the block spends.  It is assumed that the height is at
    least that of the tiered masternodes, from which on the registrations of a block are
    compared with each other; that the list of the previous block, which the checks and the
    processing both find, is well-formed; that the registrations have new and distinct
    hashes and payloads of bytes; that the hash of properties does not collide on those that
    meet in the block; and that no registration has an address or key which an update
    of the same block asks for, since nothing compares these. *)
Theorem accepted_block_keeps_unique (w w1 w' : world) (vtx : list CTransaction) (pindex p : CBlockIndex)
  (prevList : CDeterministicMNList) :
  ProcessSpecialTxsInBlock getList w vtx pindex false = Ok (w', Ok tt) ->
  pindex.(pprev) = Some p -> pindex.(bi_height) = next_height p -> cp.(nTieredMNActivationHeight) <= pindex.(bi_height) ->
  getList p = Some prevList -> prev_list w pindex = Ok (w1, prevList) -> WF prevList ->
  Forall (fun tx => all_bytes tx.(vExtraPayload) = true) vtx -> claims_apart vtx -> collision_free (involved prevList vtx) ->
  NoDup (registered_ids vtx) -> Forall (fun k => GetMN prevList k = None) (registered_ids vtx) ->
  exists l, w'.(tipList) = Some l /\ WF l /\ l.(blockHash) = pindex.(bi_hash)
  /\ (forall a b pr, a ∈ mns l -> b ∈ mns l -> pr ∈ props a -> pr ∈ props b -> a = b)
  /\ (pindex.(bi_height) <> cp.(nMNv2MigrationHeight) -> forall k mn, GetMN l k = Some mn ->
       mn.(collateralOutpoint) ∉ spent_outpoints vtx).
Proof.
  unfold ProcessSpecialTxsInBlock. destruct (check_block_txs _ _ _ _ _) as [I|] eqn:Hck; [|by intros].
  intros H Hpp Hh Ht Hl Hp WFp Hb Hap Hcf Hnd Hnew. apply process_inv in H as (w1'&prevList'&l&newList&po&e&Hp'&Hsp&Hfin&Hc).
  unfold prev_list in Hp. rewrite Hp in Hp'. injection Hp' as <- <-.
  pose proof (accepted_specials vtx pindex p prevList I Hck Hpp Hh Ht Hl WFp Hb Hap Hcf Hnd Hnew) as Hok.
  destruct (built_list _ _ _ _ _ _ _ WFp Hok Hsp Hfin) as (W&?&Hs).
  exists newList. split_and!; [by eapply commit_tip|done..| |].
  - intros a b pr Ha Hb' Hpa Hpb. by apply (WF_unique newList a b pr W).
  - intros Hm. apply Hs. by apply Z.eqb_neq.
Qed.

(** C33. Looking up or rebuilding the list of a block always comes to an end:
    nested rebuilds go strictly down the chain, so the number of blocks below
    bounds them, and a larger bound changes nothing; the same holds for
    processing a block. *)
Theorem rebuild_terminates (w : world) (p : CBlockIndex) (vtx : list CTransaction) (fJustCheck : bool) (fuel : nat) :
  (depth p <= fuel)%nat ->
  GetListForBlock fuel w p = list_for w p /\ list_for w p <> Err OutOfFuel
  /\ ProcessBlock w vtx p fJustCheck <> Err OutOfFuel.
Proof.
  intros Hf. split_and!.
  - by apply (fuel_irrelevant (depth p)).
  - by apply GetListForBlock_runs.
  - apply process_runs. intros q _. by apply GetListForBlock_runs.
Qed.

End Manager.

(** ** Persistence *)

Definition valid_map {V} (vv : V -> bool) (m : gmap uint256 V) : bool :=
  valid_vec (valid_pair (in_u 256) vv) (map_entries m).
Definition valid_state (s : CDeterministicMNState) : bool :=
  forallb (in_s 32) [s.(nRegisteredHeight); s.(nLastPaidHeight); s.(nPoSePenalty); s.(nPoSeRevivedHeight);
    s.(nPoSeBanHeight); s.(nLastServiceUpdateHeight); s.(nLastRegistrarUpdateHeight)]
  && in_u 16 s.(nRevocationReason) && in_u 8 s.(nTier) && in_u 160 s.(keyIDOwner) && in_u 160 s.(keyIDVoting)
  && valid_bytes s.(vchOperatorPubKey) && CService.valid s.(mn_addr) && valid_bytes s.(scriptPayout)
  && valid_bytes s.(scriptOperatorPayout).
Definition valid_entry (mn : CDeterministicMN) : bool :=
  in_u 256 mn.(proTxHash) && valid_outpoint mn.(collateralOutpoint) && in_u 16 mn.(nOperatorReward)
  && valid_state mn.(mn_state) && in_u 64 mn.(internalId).
Definition valid_list (l : CDeterministicMNList) : bool :=
  in_u 256 l.(blockHash) && in_s 32 l.(nHeight) && in_u 64 l.(nTotalRegisteredCount)
  && valid_map valid_entry l.(mnMap) && valid_map (in_u 256) l.(mnUniquePropertyMap).

(** Rewrites every boolean known to be true. *)
Ltac use_true := repeat match goal with H : ?b = true |- context [?b] => rewrite H; clear H end.

Lemma mapc_ok {V} (C : Codec V) vv `{!CodecOk C vv} : CodecOk (mapc C) (valid_map vv).
Proof.
  unfold mapc. eapply isoc_ok; [apply _|]. intros m Hm. split; [exact Hm|].
  change (foldr _ ∅ (map_entries m)) with (list_to_map (map_entries m) : gmap uint256 V).
  transitivity (list_to_map (map_to_list m) : gmap uint256 V); [|apply list_to_map_to_list].
  apply list_to_map_proper; [apply NoDup_map_entries|].
  unfold map_entries. apply merge_sort_Permutation.
Qed.

#[local] Instance state_ok : CodecOk c_state valid_state.
Proof.
  eapply isoc_ok; [apply _|]. intros []. unfold valid_state, valid_pair.
  cbn -[in_u in_s valid_bytes CService.valid].
  intros H. repeat match goal with H : _ && _ = true |- _ => apply andb_true_iff in H as [? ?] end.
  split; [|done]. by use_true.
Qed.
#[local] Instance mn_ok : CodecOk c_mn valid_entry.
Proof.
  eapply isoc_ok; [apply _|]. intros []. unfold valid_entry, valid_pair.
  cbn -[in_u valid_outpoint valid_state].
  intros H. repeat match goal with H : _ && _ = true |- _ => apply andb_true_iff in H as [? ?] end.
  split; [|done]. by use_true.
Qed.
#[local] Instance list_ok : CodecOk c_list valid_list.
Proof.
  assert (CodecOk (mapc c_mn) (valid_map valid_entry)) by (apply mapc_ok; apply _).
  assert (CodecOk (mapc (blob 32)) (valid_map (in_u 256))) by (apply mapc_ok; apply _).
  eapply isoc_ok; [apply _|]. intros []. unfold valid_list, valid_pair.
  cbn -[in_u in_s valid_map].
  intros Hv. repeat match goal with H : _ && _ = true |- _ => apply andb_true_iff in H as [? ?] end.
  split; [|done]. by use_true.
Qed.

(** The database with the pending writes of a transaction applied. *)
Definition eff (e : CEvoDB) : CDBWrapper :=
  match e.(curDBTransaction) with Some b => WriteBatch e.(evo_db) b | None => e.(evo_db) end.

Lemma eff_Write {K V} (CK : Codec K) (CV : Codec V) e k v :
  eff (Write CK CV e k v)
  = MkDB (<[ser CK k := Xor (eff e).(obfuscate_key) (ser CV v)]> (eff e).(pdb)) (eff e).(obfuscate_key).
Proof.
  unfold eff, Write. destruct e as [db [b|]]; cbn; [|done]. unfold Batch_Write, WriteBatch. by rewrite foldl_app.
Qed.

Lemma eff_Erase {K} (CK : Codec K) e k :
  eff (Erase CK e k) = MkDB (delete (ser CK k) (eff e).(pdb)) (eff e).(obfuscate_key).
Proof.
  unfold eff, Erase. destruct e as [db [b|]]; cbn; [|done]. unfold Batch_Erase, WriteBatch. by rewrite foldl_app.
Qed.

Definition snap_key (h : uint256) : bytes := ser c_hash_key (DB_LIST_SNAPSHOT, h).

Lemma snap_key_inj h h' : in_u 256 h = true -> in_u 256 h' = true -> snap_key h = snap_key h' -> h = h'.
Proof.
  intros Hh Hh' E. apply (ser_inj c_hash_key (valid_pair valid_bytes (in_u 256))) in E; [by inv E|..];
    unfold valid_pair; cbn [fst snd]; by rewrite ?Hh, ?Hh'.
Qed.

(** [e'] has the snapshots of [e], and a transaction when [e] has one. *)
Record frame (e e' : CEvoDB) : Prop := {
  fr_obf : (eff e').(obfuscate_key) = (eff e).(obfuscate_key);
  fr_tx : HasTransaction e' = HasTransaction e;
  fr_snap : forall h, (eff e').(pdb) !! snap_key h = (eff e).(pdb) !! snap_key h;
}.

#[local] Instance frame_preorder : PreOrder frame.
Proof. split; [by intros e|]. intros a b c [? ? ?] [? ? ?]. split; [congruence..|]. intros h. congruence. Qed.

Lemma frame_Write {K V} (CK : Codec K) (CV : Codec V) e k v :
  (forall h, ser CK k <> snap_key h) -> frame e (Write CK CV e k v).
Proof.
  intros Hk. split; rewrite ?eff_Write; cbn [pdb obfuscate_key]; [done|by destruct e as [? []]|].
  intros h. by rewrite lookup_insert_ne.
Qed.
Lemma frame_Erase {K} (CK : Codec K) e k : (forall h, ser CK k <> snap_key h) -> frame e (Erase CK e k).
Proof.
  intros Hk. split; rewrite ?eff_Erase; cbn [pdb obfuscate_key]; [done|by destruct e as [? []]|].
  intros h. by rewrite lookup_delete_ne.
Qed.

(** The keys of the PoSe manager are other keys. *)
Lemma pose_state_key x h : ser c_hash_key (DB_POSE_STATE, x) <> snap_key h.
Proof. unfold snap_key. cbn. discriminate. Qed.
Lemma pose_undo_key x h : ser c_height_key (DB_POSE_UNDO, x) <> snap_key h.
Proof. unfold snap_key. cbn. discriminate. Qed.
Lemma pose_height_key h : ser c_str DB_POSE_HEIGHT <> snap_key h.
Proof. unfold snap_key. cbn. discriminate. Qed.

Lemma frame_evict fuel : forall u e, frame e (evict_undo fuel u e).2.
Proof.
  induction fuel as [|f IH]; intros u e; [done|]. cbn [evict_undo]. case_match; [|done].
  destruct (oldest u) as [k|]; [|done].
  etransitivity; [apply (frame_Erase c_height_key _ (DB_POSE_UNDO, k)), pose_undo_key|apply IH].
Qed.

Lemma frame_PrepareUndo m e height ids : frame e (PrepareUndo m e height ids).2.
Proof.
  unfold PrepareUndo. set (es := make_undo m height <$> ids).
  generalize (frame_evict (size (<[height := es]> (undoEntries m))) (<[height := es]> (undoEntries m))
    (Write c_height_key (vec c_undo_entry) e (DB_POSE_UNDO, height) es)).
  destruct (evict_undo _ _ _) as [u e']. cbn. intros H. etransitivity; [|exact H].
  apply frame_Write, pose_undo_key.
Qed.

Lemma frame_ResetPenalty m e h : frame e (ResetPenalty m e h).2.
Proof.
  unfold ResetPenalty. destruct (stateMap m !! h); [|done]. apply frame_Erase, pose_state_key.
Qed.

Lemma frame_Flush m e : frame e (Flush m e).2.
Proof.
  unfold Flush. destruct (fDirty m); cbn; [|done].
  etransitivity; [|apply frame_Write, pose_height_key].
  generalize e. induction (map_entries (stateMap m)) as [|p l IH]; intros e0; [done|]. cbn [foldl].
  etransitivity; [|apply IH]. apply frame_Write, pose_state_key.
Qed.

Lemma frame_punish `{Hash256} cp height l p e : frame e (punish cp height l p e).2.
Proof.
  unfold punish. destruct p as [m|]; [|done]. destruct (_ ++ _) as [|x xs]; [done|].
  generalize (frame_PrepareUndo m e height (x :: xs)). destruct (PrepareUndo m e height (x :: xs)). done.
Qed.

Lemma frame_revive `{Hash256} cp height l p e : frame e (revive cp height l p e).2.
Proof.
  unfold revive. change e with ((l, p, e).2) at 1. generalize (l, p, e).
  induction (due_ids cp height l) as [|id ids IH]; intros acc; [done|]. cbn [foldl].
  etransitivity; [|apply IH]. destruct acc as [[l0 p0] e0]. unfold revive_one. destruct (GetMN l0 id); [|done].
  destruct p0 as [m|]; [|done]. generalize (frame_ResetPenalty m e0 id). by destruct (ResetPenalty m e0 id).
Qed.

Lemma frame_finish `{Hash256} cp coins pindex vtx prevList l p e r :
  finish_list cp coins pindex vtx prevList l p e = Ok r -> frame e r.2.
Proof.
  unfold finish_list. destruct (IsMigrationBlock cp pindex); [by intros [= <-]|].
  intros (l1&_&Hf)%bind_Ok. generalize (frame_punish cp (bi_height pindex) l1 p e).
  destruct (punish cp (bi_height pindex) l1 p e) as [[l2 p2] e2]. injection Hf as <-. intros Hp.
  etransitivity; [exact Hp|apply frame_revive].
Qed.

(** ** Loading snapshots *)

Lemma load_eff e h : HasTransaction e = false ->
  LoadListFromDb e h = v ← (eff e).(pdb) !! snap_key h; decode_value c_list (eff e) v.
Proof. destruct e as [db [|]]; done. Qed.

Lemma decode_obf db db' v : db'.(obfuscate_key) = db.(obfuscate_key) -> decode_value c_list db' v = decode_value c_list db v.
Proof. unfold decode_value. by intros ->. Qed.

Lemma load_frame e e' h : frame e e' -> HasTransaction e = false -> LoadListFromDb e' h = LoadListFromDb e h.
Proof.
  intros [Ho Ht Hs] H. rewrite !load_eff by congruence. rewrite Hs.
  destruct (pdb (eff e) !! snap_key h); [|done]. by apply decode_obf.
Qed.

(** What a commit leaves in the database: the new snapshot and the old ones. *)
Record committed (e : CEvoDB) (l : CDeterministicMNList) (e' : CEvoDB) : Prop := {
  cm_idle : HasTransaction e' = false;
  cm_new : valid_list l = true -> LoadListFromDb e' l.(blockHash) = Some l;
  cm_old : forall h, snap_key h <> snap_key l.(blockHash) -> LoadListFromDb e' h = LoadListFromDb e h;
}.

Lemma committed_flush e l e2 : HasTransaction e = false ->
  frame (SaveListToDb (MkEvoDB e.(evo_db) (Some [])) l) e2 -> committed e l (MkEvoDB (eff e2) None).
Proof.
  intros Hi [Ho Ht Hs]. unfold SaveListToDb in *. rewrite eff_Write in Ho, Hs. cbn [pdb obfuscate_key] in Ho, Hs.
  assert (eff (MkEvoDB e.(evo_db) (Some [])) = eff e) as E by (by destruct e as [[] [|]]). rewrite E in Ho, Hs.
  split; [done|..].
  - intros Hv. rewrite load_eff by done. cbn [eff curDBTransaction evo_db]. rewrite Hs, lookup_insert_eq. cbn.
    rewrite <- Ho. by apply (decode_value_ser c_list valid_list).
  - intros h Hh. rewrite !load_eff by done. cbn [eff curDBTransaction evo_db]. fold (eff e2).
    rewrite Hs, lookup_insert_ne by (intros E'; by apply Hh).
    destruct (pdb (eff e) !! snap_key h); [|done]. by apply decode_obf.
Qed.

Lemma evict_sub fuel : forall c k (l : CDeterministicMNList), evict fuel c !! k = Some l -> c !! k = Some l.
Proof.
  induction fuel as [|f IH]; intros c k l; [done|]. cbn [evict]. case_match; [|done].
  destruct (lowest c) as [[k' h]|]; [|done]. intros Hl%IH. by apply lookup_delete_Some in Hl as [_ ?].
Qed.

Lemma commit_spec w pindex l p e w' : commit w pindex l p e = Ok w' ->
  HasTransaction e = false /\ committed e l w'.(evoDb)
  /\ (forall k x, w'.(mnListsCache) !! k = Some x -> k <> pindex.(bi_hash) -> w.(mnListsCache) !! k = Some x).
Proof.
  unfold commit. intros (e1&H1&H)%bind_Ok.
  assert (HasTransaction e = false /\ e1 = MkEvoDB e.(evo_db) (Some [])) as [Hi ->].
  { unfold BeginTransaction in H1. destruct (HasTransaction e); [done|]. by injection H1 as <-. }
  split; [done|].
  assert (exists p2 e2 e3, frame (SaveListToDb (MkEvoDB e.(evo_db) (Some [])) l) e2 /\ CommitTransaction e2 = Some e3
    /\ w' = CleanupCache (MkWorld (<[pindex.(bi_hash) := l]> w.(mnListsCache)) (Some l) p2 e3)) as (p2&e2&e3&Hf&Hc&->).
  { destruct p as [m|].
    - generalize (frame_Flush m (SaveListToDb (MkEvoDB e.(evo_db) (Some [])) l)).
      destruct (Flush m _) as [m2 e2]. cbn [snd]. intros Hf. apply bind_Ok in H as (e3&Hc&[= <-]).
      unfold get_or_assert in Hc. destruct (CommitTransaction e2) eqn:Ec; [|done]. injection Hc as <-. by exists (Some m2), e2, c.
    - apply bind_Ok in H as (e3&Hc&[= <-]). unfold get_or_assert in Hc.
      destruct (CommitTransaction _) eqn:Ec; [|done]. injection Hc as <-. by eexists None, _, c. }
  split.
  - cbn [evoDb CleanupCache set_cache]. unfold CommitTransaction in Hc.
    destruct e2 as [db [b|]] eqn:E2; [|done]. injection Hc as <-. by apply (committed_flush e l (MkEvoDB db (Some b))).
  - intros k x Hx Hk. cbn [mnListsCache CleanupCache set_cache] in Hx. apply evict_sub in Hx.
    by rewrite lookup_insert_ne in Hx.
Qed.

Section Reorg.
Context `{HH : Hash256}.
Context (cp : Params) (coins : COutPoint -> Coin) (ReadBlockFromDisk : CBlockIndex -> option (list CTransaction)).

(** The world has the list [l] for the block [p]. *)
Definition has_list (w : world) (p : CBlockIndex) (l : CDeterministicMNList) : Prop :=
  LoadListFromDb w.(evoDb) p.(bi_hash) = Some l
  /\ forall x, w.(mnListsCache) !! p.(bi_hash) = Some x -> x = l.

Lemma list_for_hit w p l : cp.(nMasternodeActivationHeight) <= p.(bi_height) -> has_list w p l ->
  exists w1, list_for cp coins ReadBlockFromDisk w p = Ok (w1, l) /\ w1.(evoDb) = w.(evoDb)
  /\ w1.(poseManager) = w.(poseManager) /\ has_list w1 p l
  /\ (forall k x, w1.(mnListsCache) !! k = Some x -> k <> p.(bi_hash) -> w.(mnListsCache) !! k = Some x).
Proof.
  intros Hh [Hdb Hc]. unfold list_for. assert (exists n, depth p = S n) as [n ->] by (destruct p as [? ? ? ? ? ? ? [|]]; eauto).
  cbn [GetListForBlock]. unfold GetMasternodeActivationHeight. rewrite (proj2 (Z.ltb_ge _ _)) by done.
  destruct (mnListsCache w !! bi_hash p) as [x|] eqn:E.
  - assert (x = l) as -> by (by apply Hc). exists w. split_and!; try done; split; [done|intros; congruence].
  - rewrite Hdb. eexists. split; [done|]. split_and!; try done.
    + split; [done|]. intros x. cbn. rewrite lookup_insert_eq. congruence.
    + intros k x Hx Hk. cbn in Hx. by rewrite lookup_insert_ne in Hx.
Qed.

(** C20. A processed block's list becomes the tip and its snapshot reads back as
    that list; undoing the block then restores the previous list as the tip and
    leaves no list of the undone block, neither cached nor stored. *)
Theorem process_undo_restores (w w' : world) (vtx : list CTransaction) (pindex p : CBlockIndex) (l : CDeterministicMNList) :
  pindex.(pprev) = Some p -> cp.(nMasternodeActivationHeight) <= p.(bi_height) ->
  in_u 256 p.(bi_hash) = true -> in_u 256 pindex.(bi_hash) = true -> p.(bi_hash) <> pindex.(bi_hash) ->
  has_list w p l ->
  ProcessBlock cp coins ReadBlockFromDisk w vtx pindex false = Ok (w', Ok tt) ->
  (exists newList, w'.(tipList) = Some newList
     /\ (valid_list newList = true -> LoadListFromDb w'.(evoDb) pindex.(bi_hash) = Some newList))
  /\ exists w'', UndoBlock cp coins ReadBlockFromDisk w' pindex = Ok w'' /\ w''.(tipList) = Some l
     /\ w''.(mnListsCache) !! pindex.(bi_hash) = None /\ LoadListFromDb w''.(evoDb) pindex.(bi_hash) = None.
Proof.
  intros Hpp Hh Hu Hu' Hne Hl H.
  apply process_inv in H as (w1&prevList&l1&newList&po&e&Hp&Hsp&Hfin&Hc). rewrite Hpp in Hp.
  destruct (list_for_hit w p l Hh Hl) as (w1'&E1&He1&Hpo1&Hl1&Hc1). rewrite E1 in Hp. injection Hp as <- <-.
  pose proof (built_hash _ _ _ _ _ _ _ _ _ Hsp Hfin) as Hbh. cbn [fst] in Hbh.
  pose proof (frame_finish _ _ _ _ _ _ _ _ _ Hfin) as Hfr. cbn [snd] in Hfr.
  pose proof (commit_tip _ _ _ _ _ _ Hc) as Htip. apply commit_spec in Hc as (Hi&Hcm&Hcc).
  assert (HasTransaction w1'.(evoDb) = false) as Hi1 by (by rewrite <- (fr_tx _ _ Hfr)).
  assert (snap_key p.(bi_hash) <> snap_key pindex.(bi_hash)) as Hk.
  { intros E. apply Hne. by apply snap_key_inj. }
  assert (has_list w' p l) as Hl'.
  { split.
    - rewrite (cm_old _ _ _ Hcm) by (by rewrite Hbh). rewrite (load_frame _ _ _ Hfr Hi1). apply Hl1.
    - intros x Hx. apply Hl1. by apply Hcc. }
  split; [exists newList; split; [done|]; rewrite <- Hbh; apply Hcm|].
  unfold UndoBlock. rewrite Hpp. set (w2 := MkWorld _ _ _ _).
  assert (forall h, LoadListFromDb (evoDb w2) h = if decide (snap_key h = snap_key pindex.(bi_hash)) then None
    else LoadListFromDb (evoDb w') h) as Hload.
  { intros h. cbn [evoDb w2]. pose proof (cm_idle _ _ _ Hcm) as Hidle. 
    rewrite !load_eff by (try done; by destruct (evoDb w') as [? [|]]). rewrite eff_Erase. cbn [pdb].
    fold (snap_key pindex.(bi_hash)). case_decide as Hd; [rewrite Hd; by rewrite lookup_delete_eq|].
    rewrite lookup_delete_ne by congruence. destruct (pdb (eff (evoDb w')) !! snap_key h); [|done]. by apply decode_obf. }
  destruct (list_for_hit w2 p l Hh) as (w3&E3&He3&_&_&Hc3).
  { split; [by rewrite Hload, decide_False; [apply Hl'|]|]. cbn. intros x. rewrite lookup_delete_ne by congruence. apply Hl'. }
  exists (set_tip w3 l). rewrite E3. split_and!; [done..| |].
  - cbn [mnListsCache set_tip]. destruct (mnListsCache w3 !! bi_hash pindex) as [x|] eqn:Ex; [|done].
    apply Hc3 in Ex; [|congruence]. cbn in Ex. by rewrite lookup_delete_eq in Ex.
  - cbn [evoDb set_tip]. rewrite He3, Hload. by rewrite decide_True.
Qed.

End Reorg.

(** ** Concrete runs *)

Module Run.

#[local] Existing Instance Poly.poly_hash.
Import ProviderTx.Sample.

Definition no_blocks (_ : CBlockIndex) : option (list CTransaction) := None.
Definition spend (o : COutPoint) : CTransaction := MkTransaction [MkTxIn o [] 0 []] [MkTxOut 1 [0x51]] 2 0 0 [].
(** Two registrations, and the end of masternode 1. *)
Definition vtx : list CTransaction := Eval vm_compute in
  [base_tx 0 9; spend (MkOutPoint 1 0); reg_tx 2 2; reg_tx 3 3].
(** The list of the tip is cached and stored. *)
Definition stored_known : CEvoDB := SaveListToDb empty_evodb known.
Definition w0 : world := MkWorld {[77 := known]} None (Some new_pose) stored_known.
Definition process (b : CBlockIndex) (txs : list CTransaction) : result stop (world * result reject unit) :=
  ProcessBlock regtest_params coins no_blocks w0 txs b false.
Definition commits (r : result stop (world * result reject unit)) : bool :=
  match r with Ok (_, Ok _) => true | _ => false end.

Lemma commits_inv r : commits r = true -> exists w, r = Ok (w, Ok tt).
Proof. destruct r as [[w [[]|]]|]; try done. eauto. Qed.

Lemma prev_known : prev_list regtest_params coins no_blocks w0 block = Ok (w0, known).
Proof. vm_compute. reflexivity. Qed.

Lemma vtx_commits : exists w, process block vtx = Ok (w, Ok tt).
Proof. apply commits_inv. vm_compute. reflexivity. Qed.

Lemma process_checked cp' coins' read get' w txs b I : check_block_txs cp' (Some get') (Some coins') b txs = Ok I ->
  ProcessSpecialTxsInBlock cp' coins' read get' w txs b false = ProcessBlock cp' coins' read w txs b false.
Proof. intros H. unfold ProcessSpecialTxsInBlock. by rewrite H. Qed.

Definition claims_apart_b (txs : list CTransaction) : bool :=
  forallb (fun tx => forallb (fun pr => bool_decide (prop_hash pr ∉ prop_hash <$> mjoin (claimed <$> txs)))
                       (registered_props regtest_params coins tx)) txs.
Lemma claims_apart_spec txs : claims_apart_b txs = true -> claims_apart regtest_params coins txs.
Proof.
  unfold claims_apart_b. rewrite forallb_forall. intros H tx pr Htx Hpr. specialize (H tx (proj1 (list_elem_of_In _ _) Htx)).
  rewrite forallb_forall in H. apply (bool_decide_eq_true_1 _). by apply H, list_elem_of_In.
Qed.

(** A block that updates the service of masternode 1, to a free address, and registers two. *)
Definition vtx2 : list CTransaction := Eval vm_compute in
  [base_tx 0 9; serv_tx (GetHash first) 1 9; reg_tx 2 2; reg_tx 3 3].
Lemma vtx2_accepted : exists I, check_block_txs regtest_params (Some getList) (Some coins) block vtx2 = Ok I.
Proof. apply is_ok_inv. vm_compute. reflexivity. Qed.
Lemma vtx2_commits : exists w, process block vtx2 = Ok (w, Ok tt).
Proof. apply commits_inv. vm_compute. reflexivity. Qed.

Lemma accepted_block_keeps_unique_witness : exists w l,
  ProcessSpecialTxsInBlock regtest_params coins no_blocks getList w0 vtx2 block false = Ok (w, Ok tt)
  /\ w.(tipList) = Some l /\ forall a b pr, a ∈ mns l -> b ∈ mns l -> pr ∈ props a -> pr ∈ props b -> a = b.
Proof.
  destruct vtx2_accepted as [I HI]. destruct vtx2_commits as [w Hw].
  pose proof (eq_trans (process_checked _ _ no_blocks _ w0 _ _ _ HI) Hw) as H.
  destruct (accepted_block_keeps_unique regtest_params coins no_blocks getList w0 w0 w vtx2 block tip known
    H eq_refl eq_refl) as (l&Hl&_&_&Hu&_);
    [vm_compute; discriminate|exact eq_refl|exact prev_known|exact known_WF|apply bytes_b; vm_compute; reflexivity
    |apply claims_apart_spec; vm_compute; reflexivity|apply collision_free_b_spec; vm_compute; reflexivity
    |apply nodup_b; vm_compute; reflexivity|apply absent_b; vm_compute; reflexivity|].
  exists w, l. split; [exact H|]. split; [exact Hl|exact Hu].
Defined.

Lemma rebuild_terminates_witness : exists r, list_for regtest_params coins no_blocks w0 block = Ok r.
Proof.
  destruct (rebuild_terminates regtest_params coins no_blocks w0 block vtx true 5) as (<-&_&_); [vm_compute; lia|].
  apply is_ok_inv. vm_compute. reflexivity.
Defined.

Lemma known_stored : has_list w0 tip known.
Proof.
  split; [vm_compute; reflexivity|]. intros x. cbn [mnListsCache w0]. rewrite lookup_singleton_eq. intros E. exact (eq_sym (inj Some _ _ E)).
Qed.

Lemma process_undo_restores_witness : exists w w2, process block vtx = Ok (w, Ok tt)
  /\ UndoBlock regtest_params coins no_blocks w block = Ok w2 /\ w2.(tipList) = Some known.
Proof.
  destruct vtx_commits as [w Hw].
  destruct (process_undo_restores regtest_params coins no_blocks w0 w vtx block tip known eq_refl
    ltac:(vm_compute; discriminate) eq_refl eq_refl ltac:(vm_compute; discriminate) known_stored Hw) as (_&w2&Hu&Ht&_).
  exists w, w2. split; [exact Hw|]. split; [exact Hu|exact Ht].
Defined.

(** ** Behaviours that the comments rule out *)

(** A masternode's collateral is spent in the block that updates its service:
    every check passes, and processing rejects the block. *)
Definition late : list CTransaction := Eval vm_compute in [spend (MkOutPoint 1 0); serv_tx (GetHash first) 1 9].
Example checks_accept_what_processing_rejects :
  is_ok (check_block_txs regtest_params (Some getList) (Some coins) block late) = true
  /\ exists w, process block late = Ok (w, Err bad_hash).
Proof.
  split; [vm_compute; reflexivity|].
  assert (match process block late with
          | Ok (_, Err r) => (nDoS r =? 100) && String.eqb (strRejectReason r) "bad-protx-hash" && (chRejectCode r =? 0x10)
          | _ => false end = true) as H by (vm_compute; reflexivity).
  destruct (process block late) as [[w [|[d c s]]]|]; try done. exists w. do 2 f_equal.
  apply andb_true_iff in H as [[Hd%Z.eqb_eq Hs%String.eqb_eq]%andb_true_iff Hc%Z.eqb_eq]. cbn in Hd, Hs, Hc.
  unfold bad_hash, DoS, REJECT_INVALID. by rewrite Hd, Hs, Hc.
Qed.

(** An update and a registration of one block may claim the same address. *)
Example one_address_two_masternodes : exists w l a b, process block conflicting = Ok (w, Ok tt)
  /\ w.(tipList) = Some l /\ a ∈ mns l /\ b ∈ mns l /\ a.(proTxHash) <> b.(proTxHash)
  /\ a.(mn_state).(mn_addr) = b.(mn_state).(mn_addr).
Proof.
  assert (match process block conflicting with
          | Ok (w, Ok _) => match mns <$> w.(tipList) with
                            | Some [a; b] => negb (a.(proTxHash) =? b.(proTxHash))
                                             && bool_decide (a.(mn_state).(mn_addr) = b.(mn_state).(mn_addr))
                            | _ => false end
          | _ => false end = true) as H by (vm_compute; reflexivity).
  destruct (process block conflicting) as [[w [[]|]]|]; try done. destruct (tipList w) as [l|] eqn:El; [|done]. cbn in H.
  destruct (mns l) as [|a [|b [|]]] eqn:Em; try done. apply andb_true_iff in H as [Hne He].
  exists w, l, a, b. rewrite Em. apply negb_true_iff, Z.eqb_neq in Hne. apply bool_decide_eq_true in He.
  split_and!; try done; set_solver.
Qed.

(** A rebuild whose result is evicted at once: the cache is full of higher
    blocks, so the replayed list is dropped before it is looked up, and the
    lookup answers with the empty list of no block. *)
Definition old : CBlockIndex := block_at 5 100 None.
Definition full : gmap uint256 CDeterministicMNList :=
  foldr (fun n c => <[1000 + Z.of_nat n := list_at (1000 + Z.of_nat n) (500 + Z.of_nat n)]> c) ∅ (seq 0 100).
Lemma heights_b (r : result stop (world * CDeterministicMNList)) h x y :
  match r with
  | Ok (w, l) => (l.(nHeight) =? x) && match LoadListFromDb w.(evoDb) h with Some l' => l'.(nHeight) =? y | None => false end
  | Err _ => false
  end = true ->
  exists w l l', r = Ok (w, l) /\ l.(nHeight) = x /\ LoadListFromDb w.(evoDb) h = Some l' /\ l'.(nHeight) = y.
Proof.
  destruct r as [[w l]|]; [|done]. destruct (LoadListFromDb (evoDb w) h) as [l'|] eqn:E; [|by rewrite andb_false_r].
  intros [?%Z.eqb_eq ?%Z.eqb_eq]%andb_true_iff. by exists w, l, l'.
Qed.

Example rebuilt_list_evicted : exists w l l',
  list_for regtest_params coins (fun _ => Some []) (MkWorld full None None empty_evodb) old = Ok (w, l)
  /\ l.(nHeight) = -1 /\ LoadListFromDb w.(evoDb) old.(bi_hash) = Some l' /\ l'.(nHeight) = old.(bi_height).
Proof. apply (heights_b _ old.(bi_hash) (-1) old.(bi_height)). vm_compute. reflexivity. Qed.

End Run.

(** A registrar update that leaves the operator key alone lifts a ban. *)
Lemma unchanged_key_lifts_ban s q height : q.(ur_vchOperatorPubKey) = [] -> s.(vchOperatorPubKey) <> [] ->
  s.(nRevocationReason) = 0 ->
  IsBanned (updated_registrar s q height) = false /\ (updated_registrar s q height).(nPoSePenalty) = 0
  /\ (updated_registrar s q height).(vchOperatorPubKey) = s.(vchOperatorPubKey).
Proof.
  intros Hq Hs Hr. unfold updated_registrar. rewrite Hq, Hr. by destruct (vchOperatorPubKey s).
Qed.

(** A revocation without a reason is due for revival like any ban. *)
Lemma unspecified_revocation_expires cp s q height : q.(rv_nReason) = 0 -> 0 <= height ->
  due cp (height + cp.(nPoSeRevivalHeight)) (intra_revoke s q height) = true.
Proof.
  intros Hq Hh. unfold due, IsBanned, intra_revoke. cbn. rewrite Hq.
  rewrite (proj2 (Z.eqb_neq height (-1))) by lia. cbn. lia.
Qed.
