(* ===== verification/Rewards.v ===== *)
(** Block rewards: the subsidy schedule and the coinbase rules of ConnectBlock
    and ContextualCheckBlock (validation.cpp), the development allocation
    (consensus/devalloc.h, consensus/devalloc.cpp), and the coinbase that
    BlockAssembler::CreateNewBlock builds (miner.cpp).  The theorems bound what
    accepted coinbases can ever create, and relate what the miner builds to
    what the validator accepts. *)

From S2P Require Import Prelude Serialize NetAddress Script Primitives Params Coins MNList ProviderTx.

(** ** Subsidy *)

Definition GetBlockSubsidy (cp : Params) (nHeight : Z) : Z :=
  let halvings := Z.quot nHeight cp.(nSubsidyHalvingInterval) in
  if 64 <=? halvings then 0 else Z.shiftr (5000 * COIN) halvings.

(** ** Development allocation *)

Module Consensus.

Definition DEV_FEE_PERCENT : Z := 3.
Definition DEV_MULTISIG_ENFORCEMENT_HEIGHT : Z := 2100000.

Definition GENESIS_DEV_PUBKEY_BYTES : bytes :=
  [0x02; 0xe9; 0xfe; 0x9e; 0x70; 0x2c; 0x1c; 0x60; 0x70; 0xcc; 0xc5; 0x7a; 0x10; 0xca; 0x25; 0xcd;
   0x5f; 0xdd; 0x1a; 0x1b; 0x04; 0xd9; 0x42; 0x7b; 0xb0; 0xcc; 0x08; 0x3a; 0x29; 0x51; 0x53; 0x16; 0x2c].
Definition WALLET_DEV_PUBKEY_BYTES : bytes :=
  [0x03; 0xb7; 0x03; 0x9b; 0xad; 0x8e; 0x50; 0x6d; 0x66; 0x73; 0xf4; 0xaa; 0xb2; 0x41; 0x93; 0xf0;
   0x6f; 0xfe; 0x2f; 0x31; 0xc9; 0x7f; 0xc0; 0xb8; 0xd8; 0x61; 0xe5; 0x0a; 0x06; 0x50; 0x78; 0xeb; 0x6c].
Definition DEV_MULTISIG_SCRIPT_PUBKEY : bytes :=
  [0xa9; 0x14; 0x03; 0xe4; 0x25; 0x52; 0x60; 0x85; 0x73; 0x29; 0x27; 0xdd; 0xc5; 0xd6; 0xeb; 0x77; 0xd8; 0xcb;
   0x8d; 0xd2; 0xc9; 0x32; 0x87].

(** [script << pubkey << OP_CHECKSIG]; the opcode is in range. *)
Definition GetGenesisDevScript : CScript := default [] (push_op (push_bytes [] GENESIS_DEV_PUBKEY_BYTES) OP_CHECKSIG).
Definition GetWalletDevScript : CScript := default [] (push_op (push_bytes [] WALLET_DEV_PUBKEY_BYTES) OP_CHECKSIG).
Definition GetDevScriptPlaceholder : CScript := GetWalletDevScript.
Definition IsDevScriptMultisigInitialized : bool := true.
Definition GetDevScriptMultisig : CScript := DEV_MULTISIG_SCRIPT_PUBKEY.

Definition GetDevAllocation (nHeight nBlockSubsidy : Z) : Z := Z.quot (wraps 64 (nBlockSubsidy * DEV_FEE_PERCENT)) 100.

Definition GetDevScriptForHeight (nHeight : Z) : CScript :=
  if nHeight =? 0 then GetGenesisDevScript
  else if DEV_MULTISIG_ENFORCEMENT_HEIGHT <=? nHeight then GetDevScriptMultisig
  else GetWalletDevScript.

Definition IsValidDevScript (script : CScript) (nHeight : Z) : bool :=
  if nHeight =? 0 then bytes_eq script GetGenesisDevScript
  else if DEV_MULTISIG_ENFORCEMENT_HEIGHT <=? nHeight then
    if negb IsDevScriptMultisigInitialized then false else bytes_eq script GetDevScriptMultisig
  else bytes_eq script GetWalletDevScript.

End Consensus.
Import Consensus.

Section Coinbase.
Context (cp : Params).

(** ** Validation *)

(** Amounts are [int64_t]. *)
Definition masternode_payment (nBlockSubsidy : Z) : Z :=
  Z.quot (wraps 64 (nBlockSubsidy * cp.(nMasternodeRewardPercent))) 100.
Definition operator_share (total : Z) (payee : CDeterministicMN) : Z :=
  Z.quot (wraps 64 (total * payee.(nOperatorReward))) 10000.
Definition has_operator_payout (payee : CDeterministicMN) : bool :=
  (0 <? payee.(nOperatorReward)) && negb (bytes_eq payee.(mn_state).(scriptOperatorPayout) []).

(** An output of at least [amount] to [script]. *)
Definition pays (script : CScript) (amount : Z) (o : CTxOut) : bool :=
  bytes_eq o.(scriptPubKey) script && (amount <=? o.(nValue)).

(** The height at the start of the coinbase; [CheckBlock] has made sure that
    there is an input. *)
Definition check_cb_height (nBIP34Enabled : bool) (nHeight : Z) (coinbase : CTransaction) : result reject unit :=
  let expect := push_int64 [] nHeight in
  let sig := match coinbase.(vin) with i :: _ => i.(scriptSig) | [] => [] end in
  when nBIP34Enabled
    (require (negb ((length sig <? length expect)%nat || negb (bytes_eq (take (length expect) sig) expect)))
       (DoS 100 REJECT_INVALID "bad-cb-height")).

(** The masternode payment; [expectedPayee] is what [GetMNPayee(pindexPrev)]
    returns, null when there is no manager or no previous block. *)
Definition check_mn_payment (nHeight : Z) (expectedPayee : option CDeterministicMN) (coinbase : CTransaction)
  : result reject unit :=
  when (IsMasternodePaymentEnforced cp nHeight) (with_ptr expectedPayee (fun payee =>
    let expectedMNPayment := masternode_payment (GetBlockSubsidy cp nHeight) in
    _ ← require (existsb (pays payee.(mn_state).(scriptPayout) expectedMNPayment) coinbase.(vout))
          (DoS 100 REJECT_INVALID "bad-cb-mn-payment");
    let operatorPayment := operator_share expectedMNPayment payee in
    when (has_operator_payout payee && (0 <? operatorPayment))
      (require (existsb (pays payee.(mn_state).(scriptOperatorPayout) operatorPayment) coinbase.(vout)
                || negb (cp.(nTieredMNActivationHeight) <=? nHeight))
         (DoS 100 REJECT_INVALID "bad-cb-mn-operator-payment")))).

(** The sum of the outputs may throw. *)
Inductive cb_error := Thrown | Rejected (r : reject).

Definition check_dev_allocation (nHeight : Z) (coinbase : CTransaction) : result cb_error unit :=
  let nRequiredDevAllocation := GetDevAllocation nHeight (GetBlockSubsidy cp nHeight) in
  match List.find (fun o => IsValidDevScript o.(scriptPubKey) nHeight) coinbase.(vout) with
  | None => Err (Rejected (DoS 100 REJECT_INVALID "bad-cb-missing-devalloc"))
  | Some o => require (o.(nValue) =? nRequiredDevAllocation) (Rejected (DoS 100 REJECT_INVALID "bad-cb-devalloc-amount"))
  end.

(** The limit on the coinbase and the development allocation, in [ConnectBlock]. *)
Definition check_block_reward (fEnforced : bool) (nHeight nFees : Z) (coinbase : CTransaction) : result cb_error unit :=
  let blockReward := wraps 64 (nFees + GetBlockSubsidy cp nHeight) in
  match GetValueOut fEnforced coinbase with
  | None => Err Thrown
  | Some v =>
    _ ← require (v <=? blockReward) (Rejected (DoS 100 REJECT_INVALID "bad-cb-amount"));
    check_dev_allocation nHeight coinbase
  end.

(** ** The miner *)

Definition coinbase_outputs (nHeight nFees : Z) (payee : option CDeterministicMN) (scriptPubKeyIn : CScript) : list CTxOut :=
  let nBlockSubsidy := GetBlockSubsidy cp nHeight in
  let nDevAllocation := GetDevAllocation nHeight nBlockSubsidy in
  let devScript := GetDevScriptForHeight nHeight in
  let reward paid := wraps 64 (nBlockSubsidy - nDevAllocation - paid + nFees) in
  match (if IsMasternodePaymentEnforced cp nHeight then payee else None) with
  | None => [MkTxOut (reward 0) scriptPubKeyIn; MkTxOut nDevAllocation devScript]
  | Some mn =>
    let nTotalMNPayment := masternode_payment nBlockSubsidy in
    let nOperatorPayment := if has_operator_payout mn then operator_share nTotalMNPayment mn else 0 in
    let nMasternodePayment := nTotalMNPayment - nOperatorPayment in
    [MkTxOut (reward (nMasternodePayment + nOperatorPayment)) scriptPubKeyIn; MkTxOut nDevAllocation devScript;
     MkTxOut nMasternodePayment mn.(mn_state).(scriptPayout)]
    ++ (if 0 <? nOperatorPayment then [MkTxOut nOperatorPayment mn.(mn_state).(scriptOperatorPayout)] else [])
  end.

(** The witness commitment that is added unless an output already is one. *)
Definition is_commitment (s : CScript) : bool :=
  (38 <=? length s)%nat && bytes_eq (take 6 s) [OP_RETURN; 0x24; 0xaa; 0x21; 0xa9; 0xed].
Definition commitment_output (hash : uint256) : CTxOut :=
  MkTxOut 0 ([OP_RETURN; 0x24; 0xaa; 0x21; 0xa9; 0xed] ++ le_bytes 32 hash).
Definition GenerateCoinbaseCommitment (nSegwitEnabled : bool) (hash : uint256) (outs : list CTxOut) : list CTxOut :=
  if nSegwitEnabled && negb (existsb (fun o => is_commitment o.(scriptPubKey)) outs)
  then outs ++ [commitment_output hash] else outs.

(** The coinbase of the template; its witness does not matter here. *)
Definition coinbase_tx (nHeight nFees : Z) (payee : option CDeterministicMN) (scriptPubKeyIn : CScript)
  (nSegwitEnabled : bool) (hash : uint256) : CTransaction :=
  MkTransaction [MkTxIn outpoint_null (default [] (push_op (push_int64 [] nHeight) OP_0)) SEQUENCE_FINAL []]
    (GenerateCoinbaseCommitment nSegwitEnabled hash (coinbase_outputs nHeight nFees payee scriptPubKeyIn)) 2 0 0 [].

(** ** Arithmetic *)

Lemma subsidy_div nHeight : 0 < cp.(nSubsidyHalvingInterval) -> 0 <= nHeight ->
  GetBlockSubsidy cp nHeight = 5000 * COIN / 2 ^ (nHeight / cp.(nSubsidyHalvingInterval)).
Proof.
  intros HI Hh. unfold GetBlockSubsidy. rewrite Z.quot_div_nonneg by lia.
  pose proof (Z.div_pos nHeight _ Hh HI). destruct (Z.leb_spec 64 (nHeight / nSubsidyHalvingInterval cp)) as [Hq|Hq].
  - symmetry. apply Z.div_small. split; [vm_compute; discriminate|].
    apply Z.lt_le_trans with (2 ^ 64); [unfold COIN; lia|]. apply Z.pow_le_mono_r; lia.
  - by rewrite Z.shiftr_div_pow2.
Qed.

Lemma subsidy_range nHeight : 0 < cp.(nSubsidyHalvingInterval) -> 0 <= nHeight ->
  0 <= GetBlockSubsidy cp nHeight <= 5000 * COIN.
Proof.
  intros HI Hh. rewrite subsidy_div by done. set (q := nHeight / nSubsidyHalvingInterval cp).
  assert (0 < 2 ^ q) by (apply Z.pow_pos_nonneg; [lia|]; by apply Z.div_pos).
  split; [by apply Z.div_pos|]. apply Z.div_le_upper_bound; [done|].
  assert (0 <= 5000 * COIN) by (vm_compute; discriminate). nia.
Qed.

(** Once its inputs are bounded, no product of an amount wraps. *)
Lemma share_exact total n d : 0 <= total <= 5000 * COIN -> 0 <= n <= 10000 -> 0 < d ->
  Z.quot (wraps 64 (total * n)) d = total * n / d.
Proof.
  intros Ht Hn Hd. assert (5000 * COIN * 10000 < 2 ^ 63) by (vm_compute; reflexivity).
  rewrite wraps_id by nia. apply Z.quot_div_nonneg; nia.
Qed.

Lemma share_bound total n d : 0 <= total -> 0 <= n <= d -> 0 < d -> 0 <= total * n / d <= total.
Proof. intros. split; [apply Z.div_pos; nia|apply Z.div_le_upper_bound; nia]. Qed.

(** ** Supply *)

(** What the blocks below a height may create in subsidies. *)
Fixpoint total_subsidy (n : nat) : Z :=
  match n with O => 0 | S n' => total_subsidy n' + GetBlockSubsidy cp (Z.of_nat n') end.

Lemma halving_step I S q r : 0 < I -> 0 <= S -> 0 <= q -> 0 <= r < I ->
  let s k := S / 2 ^ k in
  s q + (2 * I - (q * I + r + 1) mod I) * s ((q * I + r + 1) / I) <= (2 * I - r) * s q.
Proof.
  intros HI HS Hq Hr s. destruct (decide (r + 1 = I)) as [E|NE].
  - replace (q * I + r + 1) with ((q + 1) * I) by lia. rewrite Z.mod_mul, Z.div_mul by lia.
    assert (2 * s (q + 1) <= s q); [|nia].
    unfold s. rewrite Z.pow_add_r, Z.pow_1_r, <- Z.div_div by lia. exact (Z.mul_div_le (S / 2 ^ q) 2 ltac:(lia)).
  - replace (q * I + r + 1) with (r + 1 + q * I) by lia.
    rewrite Z.mod_add, Z.div_add, Z.mod_small, Z.div_small, Z.add_0_l by lia.
    apply Z.eq_le_incl. ring.
Qed.

Lemma total_subsidy_bound n : 0 < cp.(nSubsidyHalvingInterval) ->
  total_subsidy n <= 2 * cp.(nSubsidyHalvingInterval) * (5000 * COIN).
Proof.
  intros HI. set (I := nSubsidyHalvingInterval cp) in *. set (S := 5000 * COIN).
  assert (0 <= S) as HS by (vm_compute; discriminate).
  enough (total_subsidy n + (2 * I - Z.of_nat n mod I) * (S / 2 ^ (Z.of_nat n / I)) <= 2 * I * S) as H.
  { pose proof (Z.mod_pos_bound (Z.of_nat n) I HI).
    assert (0 <= S / 2 ^ (Z.of_nat n / I)) by (apply Z.div_pos; [done|apply Z.pow_pos_nonneg; [lia|apply Z.div_pos; lia]]).
    nia. }
  induction n as [|n IH]; cbn [total_subsidy].
  { change (Z.of_nat 0) with 0. rewrite Z.mod_0_l, Z.div_0_l, Z.div_1_r by lia. lia. }
  rewrite subsidy_div by (done || lia). fold I S.
  pose proof (Z.div_mod (Z.of_nat n) I ltac:(lia)) as Hdm. pose proof (Z.mod_pos_bound (Z.of_nat n) I HI) as Hmod.
  pose proof (Z.div_pos (Z.of_nat n) I ltac:(lia) HI) as Hq.
  pose proof (halving_step I S _ _ HI HS Hq Hmod) as Hstep. cbn zeta in Hstep.
  replace (Z.of_nat n / I * I + Z.of_nat n mod I + 1) with (Z.of_nat (Datatypes.S n)) in Hstep by lia. lia.
Qed.

(** An accepted coinbase creates no more than the subsidy of its height. *)
Lemma reward_limit fEnforced nHeight nFees coinbase :
  0 < cp.(nSubsidyHalvingInterval) -> 0 <= nHeight -> MoneyRange nFees = true ->
  check_block_reward fEnforced nHeight nFees coinbase = Ok tt ->
  exists v, GetValueOut fEnforced coinbase = Some v /\ v - nFees <= GetBlockSubsidy cp nHeight.
Proof.
  intros HI Hh Hf H. unfold check_block_reward in H. destruct (GetValueOut fEnforced coinbase) as [v|]; [|done].
  exists v. split; [done|]. apply bind_Ok in H as (u&Hv&_). apply require_Ok, Z.leb_le in Hv.
  pose proof (subsidy_range nHeight HI Hh). unfold MoneyRange, MAX_MONEY, COIN in *. rewrite wraps_id in Hv by lia. lia.
Qed.

(** What a chain of coinbases creates beyond the fees it collects. *)
Definition created (fEnforced : bool) (blocks : list (Z * CTransaction)) : Z :=
  foldr (fun b acc => default 0 (GetValueOut fEnforced b.2) - b.1 + acc) 0 blocks.

Lemma created_snoc fEnforced bs nFees coinbase : created fEnforced (bs ++ [(nFees, coinbase)])
  = created fEnforced bs + (default 0 (GetValueOut fEnforced coinbase) - nFees).
Proof. unfold created. induction bs as [|b bs IH]; cbn [foldr app fst snd]; [|rewrite IH]; lia. Qed.

Lemma created_bound fEnforced blocks : 0 < cp.(nSubsidyHalvingInterval) ->
  (forall i nFees coinbase, blocks !! i = Some (nFees, coinbase) -> MoneyRange nFees = true
     /\ check_block_reward fEnforced (Z.of_nat i + 1) nFees coinbase = Ok tt) ->
  created fEnforced blocks <= total_subsidy (S (length blocks)).
Proof.
  intros HI. induction blocks as [|[nFees coinbase] bs IH] using rev_ind; intros H.
  { cbn [created foldr length total_subsidy]. pose proof (subsidy_range (Z.of_nat 0) HI ltac:(lia)). lia. }
  rewrite created_snoc, length_app. destruct (H (length bs) nFees coinbase) as [Hf Hr].
  { by rewrite lookup_app_r, Nat.sub_diag by lia. }
  destruct (reward_limit fEnforced (Z.of_nat (length bs) + 1) nFees coinbase HI ltac:(lia) Hf Hr) as (v&Ev&Hv). rewrite Ev. cbn [default].
  assert (created fEnforced bs <= total_subsidy (S (length bs))) as IH'.
  { apply IH. intros i f c Hi. apply (H i f c). apply lookup_app_l_Some, Hi. }
  replace (S (length bs + length [(nFees, coinbase)])) with (S (S (length bs))) by (cbn; lia).
  change (total_subsidy (S (S (length bs)))) with (total_subsidy (S (length bs)) + GetBlockSubsidy cp (Z.of_nat (S (length bs)))).
  replace (Z.of_nat (S (length bs))) with (Z.of_nat (length bs) + 1) by lia. cbn [default id] in *. lia.
Qed.

(** ** What the miner builds *)

Lemma dev_script_valid nHeight : IsValidDevScript (GetDevScriptForHeight nHeight) nHeight = true.
Proof. unfold IsValidDevScript, GetDevScriptForHeight. by repeat case_match. Qed.

(** Skipping asset outputs can only lower the sum. *)
Lemma value_out_le fEnforced outs acc : MoneyRange acc = true -> forallb (fun o => MoneyRange o.(nValue)) outs = true ->
  acc + sum_out outs <= MAX_MONEY -> exists v, value_out fEnforced outs acc = Some v /\ v <= acc + sum_out outs.
Proof.
  assert (MAX_MONEY < 2 ^ 62) as Hm by (unfold MAX_MONEY, COIN; lia).
  revert acc. induction outs as [|o outs IH]; intros acc Ha Ho Hs; cbn [value_out sum_out foldr forallb] in *.
  { exists acc. split; [done|lia]. }
  fold (sum_out outs) in *. apply andb_true_iff in Ho as [Ho1 Ho]. pose proof (sum_out_nonneg outs Ho).
  unfold MoneyRange in Ha, Ho1. case_match.
  - destruct (IH acc) as (v&?&?); [unfold MoneyRange; lia|done|lia|]. exists v. split; [done|lia].
  - rewrite wraps_id by lia. assert (MoneyRange (nValue o) = true /\ MoneyRange (acc + nValue o) = true) as [-> E]
      by (unfold MoneyRange; lia). rewrite E. cbn [negb orb].
    destruct (IH (acc + nValue o)) as (v&?&?); [done|done|lia|]. exists v. split; [done|lia].
Qed.

(** The operator's part of the payment in a template. *)
Definition operator_payment (nHeight : Z) (mn : CDeterministicMN) : Z :=
  if has_operator_payout mn then operator_share (masternode_payment (GetBlockSubsidy cp nHeight)) mn else 0.

Section Template.
Hypothesis HI : 0 < cp.(nSubsidyHalvingInterval).
Hypothesis Hpct : 0 <= cp.(nMasternodeRewardPercent) <= 97.
Context (nHeight nFees : Z) (scriptPubKeyIn : CScript) (payee : option CDeterministicMN).
Hypothesis Hh : 0 <= nHeight.
Hypothesis Hfees : 0 <= nFees <= MAX_MONEY - 5000 * COIN.
Hypothesis Hreward : forall mn, payee = Some mn -> 0 <= mn.(nOperatorReward) <= 10000.

Let subsidy := GetBlockSubsidy cp nHeight.
Let dev := GetDevAllocation nHeight subsidy.
Let total := masternode_payment subsidy.

Lemma shares_fit : 0 <= dev /\ 0 <= total /\ dev + total <= subsidy.
Proof.
  pose proof (subsidy_range nHeight HI Hh) as Hs. fold subsidy in Hs.
  unfold dev, total, GetDevAllocation, masternode_payment, DEV_FEE_PERCENT. rewrite !share_exact by lia.
  pose proof (share_bound subsidy 3 100). pose proof (share_bound subsidy (nMasternodeRewardPercent cp) 100).
  pose proof (Z.mul_div_le (subsidy * 3) 100). pose proof (Z.mul_div_le (subsidy * nMasternodeRewardPercent cp) 100). nia.
Qed.

Lemma operator_payment_range mn : payee = Some mn -> 0 <= operator_payment nHeight mn <= total.
Proof.
  intros Hp. specialize (Hreward mn Hp). pose proof shares_fit. pose proof (subsidy_range nHeight HI Hh) as Hs. fold subsidy in Hs.
  unfold operator_payment. fold subsidy total. case_match; [|lia]. unfold operator_share. rewrite share_exact by lia.
  apply share_bound; lia.
Qed.

(** The outputs are amounts, and add up to the subsidy and the fees. *)
Lemma template_sums nSegwitEnabled hash :
  let outs := (coinbase_tx nHeight nFees payee scriptPubKeyIn nSegwitEnabled hash).(vout) in
  forallb (fun o => MoneyRange o.(nValue)) outs = true /\ sum_out outs = subsidy + nFees.
Proof.
  pose proof shares_fit. pose proof (subsidy_range nHeight HI Hh) as Hs. fold subsidy in Hs.
  assert (5000 * COIN + MAX_MONEY < 2 ^ 63) by (vm_compute; reflexivity).
  cut (forallb (fun o => MoneyRange o.(nValue)) (coinbase_outputs nHeight nFees payee scriptPubKeyIn) = true
       /\ sum_out (coinbase_outputs nHeight nFees payee scriptPubKeyIn) = subsidy + nFees).
  { intros [Hr Hsum]. cbn [coinbase_tx vout]. unfold GenerateCoinbaseCommitment. case_match; [|done].
    rewrite forallb_app, Hr. split; [done|]. unfold sum_out in *. rewrite foldr_app. exact Hsum. }
  unfold coinbase_outputs. fold subsidy dev. destruct (if IsMasternodePaymentEnforced cp nHeight then payee else None) as [mn|] eqn:Ep.
  - assert (payee = Some mn) as Hp by (by destruct (IsMasternodePaymentEnforced cp nHeight)).
    pose proof (operator_payment_range mn Hp) as Ho. fold total. fold (operator_payment nHeight mn).
    unfold operator_payment in Ho. fold subsidy total in Ho. set (op := if has_operator_payout mn then _ else 0) in *.
    rewrite wraps_id by lia. clearbody op. 
    destruct (Z.ltb_spec 0 op); cbn [app forallb sum_out foldr nValue]; unfold MoneyRange; split; lia.
  - rewrite wraps_id by lia. cbn [forallb sum_out foldr nValue]. unfold MoneyRange. split; lia.
Qed.

Lemma template_reward fEnforced nSegwitEnabled hash : IsValidDevScript scriptPubKeyIn nHeight = false ->
  check_block_reward fEnforced nHeight nFees (coinbase_tx nHeight nFees payee scriptPubKeyIn nSegwitEnabled hash) = Ok tt.
Proof.
  intros Hdev. destruct (template_sums nSegwitEnabled hash) as [Hr Hsum]. set (cb := coinbase_tx _ _ _ _ _ _) in *.
  pose proof (subsidy_range nHeight HI Hh) as Hs. fold subsidy in Hs.
  assert (5000 * COIN + MAX_MONEY < 2 ^ 63) by (vm_compute; reflexivity).
  destruct (value_out_le fEnforced cb.(vout) 0 eq_refl Hr) as (v&Hv&Hle); [lia|].
  unfold check_block_reward, GetValueOut. rewrite Hv. fold subsidy. rewrite wraps_id by lia.
  rewrite (proj2 (Z.leb_le v (nFees + subsidy))) by lia. cbn [require mbind result_bind].
  unfold check_dev_allocation. fold subsidy dev.
  assert (List.find (fun o => IsValidDevScript o.(scriptPubKey) nHeight) cb.(vout)
          = Some (MkTxOut dev (GetDevScriptForHeight nHeight))) as ->; [|cbn [nValue]; by rewrite Z.eqb_refl].
  unfold cb, coinbase_tx, coinbase_outputs, GenerateCoinbaseCommitment. cbn [vout]. fold subsidy dev.
  destruct (if IsMasternodePaymentEnforced cp nHeight then payee else None); case_match; cbn [app List.find scriptPubKey];
    by rewrite Hdev, dev_script_valid.
Qed.

Lemma template_height nBIP34Enabled nSegwitEnabled hash :
  check_cb_height nBIP34Enabled nHeight (coinbase_tx nHeight nFees payee scriptPubKeyIn nSegwitEnabled hash) = Ok tt.
Proof.
  unfold check_cb_height. cbn [coinbase_tx vin scriptSig]. set (e := push_int64 [] nHeight).
  change (default [] (push_op e OP_0)) with (e ++ [OP_0]).
  rewrite take_app_length, length_app, (proj2 (bytes_eq_spec e e) eq_refl), (proj2 (Nat.ltb_ge _ _)) by lia.
  by destruct nBIP34Enabled.
Qed.

(** Only the third output can pay the owner. *)
Lemma template_pays_owner mn nSegwitEnabled hash :
  IsMasternodePaymentEnforced cp nHeight = true -> payee = Some mn ->
  mn.(mn_state).(scriptPayout) <> scriptPubKeyIn -> mn.(mn_state).(scriptPayout) <> GetDevScriptForHeight nHeight ->
  mn.(mn_state).(scriptPayout) <> mn.(mn_state).(scriptOperatorPayout) -> is_commitment mn.(mn_state).(scriptPayout) = false ->
  existsb (pays mn.(mn_state).(scriptPayout) total)
    (coinbase_tx nHeight nFees payee scriptPubKeyIn nSegwitEnabled hash).(vout) = (operator_payment nHeight mn <=? 0).
Proof.
  intros He Hp N1 N2 N3 N4. cbn [coinbase_tx vout]. unfold GenerateCoinbaseCommitment, coinbase_outputs. rewrite He, Hp.
  fold subsidy dev total. fold (operator_payment nHeight mn). change (if has_operator_payout mn then operator_share total mn else 0)
    with (operator_payment nHeight mn). set (op := operator_payment nHeight mn). set (pay := scriptPayout (mn_state mn)) in *.
  assert (forall v x, x <> pay -> pays pay total (MkTxOut v x) = false) as Hno.
  { intros v x Hx. unfold pays. cbn [scriptPubKey]. destruct (bytes_eq x pay) eqn:E; [|done]. by apply bytes_eq_spec in E. }
  assert (pays pay total (commitment_output hash) = false) as Hc.
  { apply Hno. intros E. rewrite <- E in N4. unfold is_commitment in N4. by rewrite length_app, length_le_bytes in N4. }
  assert (pays pay total (MkTxOut (total - op) pay) = (op <=? 0)) as Ho.
  { unfold pays. cbn [scriptPubKey nValue]. rewrite (proj2 (bytes_eq_spec pay pay) eq_refl). cbn [andb].
    apply eq_true_iff_eq. rewrite !Z.leb_le. lia. }
  case_match; rewrite ?existsb_app; cbn [existsb app]; rewrite ?existsb_app, ?Hno, ?Ho, ?Hc by done;
    cbn [existsb orb]; destruct (0 <? op); cbn [existsb app]; rewrite ?Hno by done; by rewrite ?orb_false_r.
Qed.

Lemma template_payment nSegwitEnabled hash :
  (forall mn, payee = Some mn -> mn.(mn_state).(scriptPayout) <> scriptPubKeyIn
     /\ mn.(mn_state).(scriptPayout) <> GetDevScriptForHeight nHeight
     /\ mn.(mn_state).(scriptPayout) <> mn.(mn_state).(scriptOperatorPayout)
     /\ is_commitment mn.(mn_state).(scriptPayout) = false) ->
  check_mn_payment nHeight payee (coinbase_tx nHeight nFees payee scriptPubKeyIn nSegwitEnabled hash)
  = when (IsMasternodePaymentEnforced cp nHeight) (with_ptr payee (fun mn =>
      require (operator_payment nHeight mn <=? 0) (DoS 100 REJECT_INVALID "bad-cb-mn-payment"))).
Proof.
  intros Hd. unfold check_mn_payment, with_ptr, when.
  destruct (IsMasternodePaymentEnforced cp nHeight) eqn:He; [|done]. destruct payee as [mn|] eqn:Ep; [|done].
  destruct (Hd mn eq_refl) as (?&?&?&?). fold subsidy total. rewrite <- Ep, template_pays_owner by done.
  destruct (Z.leb_spec (operator_payment nHeight mn) 0) as [Ho|Ho]; [|done]. cbn [require mbind result_bind].
  destruct (has_operator_payout mn) eqn:Eo; [|done].
  unfold operator_payment in Ho. rewrite Eo in Ho. fold subsidy total in Ho. by rewrite (proj2 (Z.ltb_ge _ _)).
Qed.

End Template.

(** ** Properties *)

(** However many blocks are accepted, their coinbases never create more than
    the money supply limit beyond the fees they collect. *)
Theorem supply_bounded (fEnforced : bool) (blocks : list (Z * CTransaction)) :
  0 < cp.(nSubsidyHalvingInterval) <= 2100000 ->
  (forall i nFees coinbase, blocks !! i = Some (nFees, coinbase) -> MoneyRange nFees = true
     /\ check_block_reward fEnforced (Z.of_nat i + 1) nFees coinbase = Ok tt) ->
  created fEnforced blocks <= MAX_MONEY.
Proof.
  intros HI H. pose proof (created_bound fEnforced blocks ltac:(lia) H).
  pose proof (total_subsidy_bound (S (length blocks)) ltac:(lia)). unfold MAX_MONEY, COIN in *. lia.
Qed.

(** C32. The coinbase that the miner builds passes the height, reward and
    development allocation checks of the validator for every payee; it passes
    the masternode payment check exactly when the payee has no operator payment,
    since the validator asks for the whole payment in the owner's output, which
    the miner has reduced by the operator's part.  Assumed are a halving interval that
    is positive, a masternode part of at most 97 percent, a height that is not negative,
    fees that leave room for the subsidy below the money limit, an operator reward of at
    most 100 percent, that the miner does not mine to a development script (such a
    template is rejected), and that the payee's script differs from the miner's, from
    the development script, from the operator's and from a witness commitment. *)
Theorem template_checked (nHeight nFees : Z) (scriptPubKeyIn : CScript) (payee : option CDeterministicMN)
  (fEnforced nBIP34Enabled nSegwitEnabled : bool) (hash : uint256) :
  0 < cp.(nSubsidyHalvingInterval) -> 0 <= cp.(nMasternodeRewardPercent) <= 97 -> 0 <= nHeight ->
  0 <= nFees <= MAX_MONEY - 5000 * COIN -> IsValidDevScript scriptPubKeyIn nHeight = false ->
  (forall mn, payee = Some mn -> 0 <= mn.(nOperatorReward) <= 10000
     /\ mn.(mn_state).(scriptPayout) <> scriptPubKeyIn /\ mn.(mn_state).(scriptPayout) <> GetDevScriptForHeight nHeight
     /\ mn.(mn_state).(scriptPayout) <> mn.(mn_state).(scriptOperatorPayout)
     /\ is_commitment mn.(mn_state).(scriptPayout) = false) ->
  let coinbase := coinbase_tx nHeight nFees payee scriptPubKeyIn nSegwitEnabled hash in
  check_cb_height nBIP34Enabled nHeight coinbase = Ok tt
  /\ check_block_reward fEnforced nHeight nFees coinbase = Ok tt
  /\ check_mn_payment nHeight payee coinbase
     = when (IsMasternodePaymentEnforced cp nHeight) (with_ptr payee (fun mn =>
         require (operator_payment nHeight mn <=? 0) (DoS 100 REJECT_INVALID "bad-cb-mn-payment"))).
Proof.
  intros HI Hpct Hh Hf Hdev Hp coinbase. pose proof (fun mn E => proj1 (Hp mn E)) as Hr.
  split_and!; [by apply template_height|by apply template_reward|].
  apply template_payment; try done. intros mn E. by apply Hp.
Qed.

End Coinbase.

(** ** On the main network *)

Module MainNet.

Definition script (n : Z) : CScript := [OP_DUP; OP_HASH160; 0x14] ++ le_bytes 20 n ++ [OP_EQUALVERIFY; OP_CHECKSIG].
(** A masternode whose operator takes a part of the reward, in hundredths of a percent. *)
Definition masternode (nOperatorReward : Z) (scriptOperatorPayout : CScript) : CDeterministicMN :=
  MkMN 7 (MkOutPoint 1 0) nOperatorReward
    (MkState 100 0 0 (-1) (-1) 0 1 0 0 1 [] 2 CService.Init (script 1) scriptOperatorPayout) 0.
Definition template (nHeight : Z) (payee : option CDeterministicMN) : CTransaction :=
  coinbase_tx main_params nHeight 1000 payee (script 2) true 5.

Lemma supply_bounded_witness :
  created true [(1000, template 1 None); (1000, template 2 None)] = 2 * 5000 * COIN
  /\ created true [(1000, template 1 None); (1000, template 2 None)] <= MAX_MONEY.
Proof.
  split; [vm_compute; reflexivity|]. apply (supply_bounded main_params); [vm_compute; split; [reflexivity|discriminate]|].
  intros [|[|i]] nFees coinbase [= <- <-]; split; vm_compute; reflexivity.
Defined.

Lemma template_checked_witness :
  check_block_reward main_params true 200000 1000 (template 200000 (Some (masternode 500 []))) = Ok tt
  /\ check_mn_payment main_params 200000 (Some (masternode 500 [])) (template 200000 (Some (masternode 500 []))) = Ok tt.
Proof.
  destruct (template_checked main_params 200000 1000 (script 2) (Some (masternode 500 [])) true true true 5) as (_&Hr&Hm).
  1: vm_compute; reflexivity.
  1: vm_compute; split; discriminate.
  1: discriminate.
  1: vm_compute; split; discriminate.
  1: vm_compute; reflexivity.
  - intros mn [= <-]. vm_compute. repeat split; discriminate.
  - split; [exact Hr|exact (eq_trans Hm eq_refl)].
Defined.

(** A payee with an operator payment: the miner's own template is rejected. *)
Example operator_payment_blocks_template :
  check_mn_payment main_params 200000 (Some (masternode 500 (script 3))) (template 200000 (Some (masternode 500 (script 3))))
  = Err (DoS 100 REJECT_INVALID "bad-cb-mn-payment").
Proof. vm_compute. reflexivity. Qed.

(** Mining to the development script itself is rejected, since only the first
    output to it is compared with the allocation. *)
Example mining_to_dev_script_rejected :
  check_block_reward main_params true 1 1000 (coinbase_tx main_params 1 1000 None GetWalletDevScript true 5)
  = Err (Rejected (DoS 100 REJECT_INVALID "bad-cb-devalloc-amount")).
Proof. vm_compute. reflexivity. Qed.

(** Before the enforcement height the multisig script is not accepted, and the
    script in use pays to a public key, not to its hash. *)
Example epoch0_dev_script : IsValidDevScript GetDevScriptMultisig 1 = false
  /\ IsPayToPublicKeyHash (GetDevScriptForHeight 1) = false /\ IsPayToPublicKey (GetDevScriptForHeight 1) = true.
Proof. vm_compute. repeat split. Qed.

End MainNet.
