(* ===== verification/TxVerify.v ===== *)
(** consensus/tx_verify.cpp and the loop over the transactions of a block in
    ConnectBlock (validation.cpp): lock times, relative lock times, the count of
    signature operations, the values of inputs and outputs, and the scripts.
    The theorems show what a relative lock time means, that a checked
    transaction creates no money, that the unspent outputs after a block are
    worth at most the subsidy more than before, and that a coin paid to a key
    hash is only spent with a signature of that key. *)

From S2P Require Import Prelude ArithUint256 Serialize Sha256 Script Primitives Interpreter Standard InterpreterFacts ScriptRules Params Coins Chain MNList ProviderTx Rewards.

Abbreviation WITNESS_SCALE_FACTOR := 4%Z (only parsing).
Abbreviation MAX_BLOCK_SIGOPS_COST := 80000%Z (only parsing).
Abbreviation LOCKTIME_VERIFY_SEQUENCE := 1%Z (only parsing).
Abbreviation SEQUENCE_LOCKTIME_GRANULARITY := 9%Z (only parsing).
Abbreviation REJECT_NONSTANDARD := 0x40%Z (only parsing).

(** policy/policy.h; the only mandatory flag is the one of BIP 16. *)
Definition STANDARD_NOT_MANDATORY_VERIFY_FLAGS : Z :=
  Z.ldiff STANDARD_SCRIPT_VERIFY_FLAGS (flags_of [SCRIPT_VERIFY_P2SH]).

(** A rejection, an exception or a failed assertion. *)
Inductive tx_failure := Rejects (r : reject) | Throws | Asserts.

(** ** Lock times *)

Definition IsFinalTx (tx : CTransaction) (nBlockHeight nBlockTime : Z) : bool :=
  if tx.(nLockTime) =? 0 then true
  else if tx.(nLockTime) <? (if tx.(nLockTime) <? LOCKTIME_THRESHOLD then nBlockHeight else nBlockTime) then true
  else forallb (fun txin => txin.(nSequence) =? SEQUENCE_FINAL) tx.(vin).

(** One input: the new [nMinHeight] and [nMinTime]; [None] is the null pointer
    that is dereferenced.  The sum of heights is an [int] in the source: it is exact
    here, and leaves 32 bits only for coins less than 2^16 blocks below height 2^31. *)
Definition lock_input (block : CBlockIndex) (txin : CTxIn) (nCoinHeight nMinHeight nMinTime : Z) : option (Z * Z) :=
  if negb (Z.land txin.(nSequence) SEQUENCE_LOCKTIME_DISABLE_FLAG =? 0) then Some (nMinHeight, nMinTime)
  else
    let value := Z.land txin.(nSequence) SEQUENCE_LOCKTIME_MASK in
    if negb (Z.land txin.(nSequence) SEQUENCE_LOCKTIME_TYPE_FLAG =? 0) then
      ancestor ← GetAncestor block (Z.max (nCoinHeight - 1) 0);
      let nCoinTime := GetMedianTimePast ancestor in
      Some (nMinHeight, Z.max nMinTime (nCoinTime + Z.shiftl value SEQUENCE_LOCKTIME_GRANULARITY - 1))
    else Some (Z.max nMinHeight (nCoinHeight + value - 1), nMinTime).

Fixpoint lock_inputs (block : CBlockIndex) (ins : list (CTxIn * Z)) (nMinHeight nMinTime : Z) : option (Z * Z) :=
  match ins with
  | [] => Some (nMinHeight, nMinTime)
  | (txin, nCoinHeight) :: ins' =>
    '(nMinHeight, nMinTime) ← lock_input block txin nCoinHeight nMinHeight nMinTime;
    lock_inputs block ins' nMinHeight nMinTime
  end.

(** [None] is also the failed [assert] on the number of heights. *)
Definition CalculateSequenceLocks (tx : CTransaction) (flags : Z) (prevHeights : list Z) (block : CBlockIndex)
  : option (Z * Z) :=
  if negb (length prevHeights =? length tx.(vin))%nat then None
  else
    let fEnforceBIP68 := (2 <=? wrapu 32 tx.(nVersion)) && negb (Z.land flags LOCKTIME_VERIFY_SEQUENCE =? 0) in
    if negb fEnforceBIP68 then Some (-1, -1)
    else lock_inputs block (zip tx.(vin) prevHeights) (-1) (-1).

Definition EvaluateSequenceLocks (block : CBlockIndex) (lockPair : Z * Z) : option bool :=
  prev ← block.(pprev);
  Some (negb ((block.(bi_height) <=? lockPair.1) || (GetMedianTimePast prev <=? lockPair.2))).

Definition SequenceLocks (tx : CTransaction) (flags : Z) (prevHeights : list Z) (block : CBlockIndex) : option bool :=
  lockPair ← CalculateSequenceLocks tx flags prevHeights block;
  EvaluateSequenceLocks block lockPair.

(** ** Signature operations *)

Definition GetLegacySigOpCount (tx : CTransaction) : Z :=
  let ins := foldl (fun n txin => wrapu 32 (n + GetSigOpCount false txin.(scriptSig))) 0 tx.(vin) in
  foldl (fun n txout => wrapu 32 (n + GetSigOpCount false txout.(scriptPubKey))) ins tx.(vout).

Section Inputs.
Context (GetAssetAmountFromScript : CScript -> option Z) (base : CCoinsView).

Fixpoint p2sh_sigops (cache : CCoinsMap) (ins : list CTxIn) (nSigOps : Z) : option Z * CCoinsMap :=
  match ins with
  | [] => (Some nSigOps, cache)
  | txin :: ins' =>
    let '(c, cache) := AccessCoin base cache txin.(prevout) in
    if IsSpent c then (None, cache)
    else
      let s := c.(out).(scriptPubKey) in
      p2sh_sigops cache ins'
        (if IsPayToScriptHash s then wrapu 32 (nSigOps + GetSigOpCountP2SH s txin.(scriptSig)) else nSigOps)
  end.
Definition GetP2SHSigOpCount (cache : CCoinsMap) (tx : CTransaction) : option Z * CCoinsMap :=
  if IsCoinBase tx then (Some 0, cache) else p2sh_sigops cache tx.(vin) 0.

Fixpoint witness_sigops (cache : CCoinsMap) (ins : list CTxIn) (flags nSigOps : Z) : option Z * CCoinsMap :=
  match ins with
  | [] => (Some nSigOps, cache)
  | txin :: ins' =>
    let '(c, cache) := AccessCoin base cache txin.(prevout) in
    if IsSpent c then (None, cache)
    else
      match CountWitnessSigOps txin.(scriptSig) c.(out).(scriptPubKey) txin.(scriptWitness) flags with
      | Some n => witness_sigops cache ins' flags (nSigOps + n)
      | None => (None, cache)
      end
  end.

(** [None] is a failed assertion. *)
Definition GetTransactionSigOpCost (cache : CCoinsMap) (tx : CTransaction) (flags : Z) : option Z * CCoinsMap :=
  let nSigOps := wrapu 32 (GetLegacySigOpCount tx * WITNESS_SCALE_FACTOR) in
  if IsCoinBase tx then (Some nSigOps, cache)
  else
    let '(p2sh, cache) :=
      if has_flag flags SCRIPT_VERIFY_P2SH then GetP2SHSigOpCount cache tx else (Some 0, cache) in
    match p2sh with
    | None => (None, cache)
    | Some p2sh => witness_sigops cache tx.(vin) flags (nSigOps + wrapu 32 (p2sh * WITNESS_SCALE_FACTOR))
    end.

(** ** Values *)

(** The loop of [CheckTxInputs] over the inputs. *)
Fixpoint check_inputs (nCoinbaseMaturity : Z) (cache : CCoinsMap) (ins : list CTxIn) (nSpendHeight nValueIn : Z)
  : result tx_failure Z * CCoinsMap :=
  match ins with
  | [] => (Ok nValueIn, cache)
  | txin :: ins' =>
    let '(c, cache) := AccessCoin base cache txin.(prevout) in
    if IsSpent c then (Err Asserts, cache)
    else if c.(fCoinBase) && (nSpendHeight - c.(coin_nHeight) <? nCoinbaseMaturity)
    then (Err (Rejects (DoS 0 REJECT_INVALID "bad-txns-premature-spend-of-coinbase")), cache)
    else
      let nValueIn := wraps 64 (nValueIn + c.(out).(nValue)) in
      if negb (MoneyRange c.(out).(nValue)) || negb (MoneyRange nValueIn)
      then (Err (Rejects (DoS 100 REJECT_INVALID "bad-txns-inputvalues-outofrange")), cache)
      else check_inputs nCoinbaseMaturity cache ins' nSpendHeight nValueIn
  end.

(** The fee of an accepted transaction. *)
Definition CheckTxInputs (fEnforced : bool) (nCoinbaseMaturity : Z) (cache : CCoinsMap) (tx : CTransaction) (nSpendHeight : Z)
  : result tx_failure Z * CCoinsMap :=
  let '(have, cache) := HaveInputs base cache tx in
  if negb have then (Err (Rejects (DoS 100 REJECT_INVALID "bad-txns-inputs-missingorspent")), cache)
  else
    let '(r, cache) := check_inputs nCoinbaseMaturity cache tx.(vin) nSpendHeight 0 in
    (nValueIn ← r;
     match GetValueOut fEnforced tx with
     | None => Err Throws
     | Some value_out =>
       _ ← require (negb (nValueIn <? value_out)) (Rejects (DoS 100 REJECT_INVALID "bad-txns-in-belowout"));
       let txfee_aux := nValueIn - value_out in
       _ ← require (MoneyRange txfee_aux) (Rejects (DoS 100 REJECT_INVALID "bad-txns-fee-out-of-range"));
       Ok txfee_aux
     end, cache).

(** ** Scripts *)

Context `{HS : Hash256} `{SH : ScriptHash} `{EC : Ecdsa}.

(** [CScriptCheck], without the cache of verified signatures. *)
Definition ScriptCheck (flags : Z) (tx : CTransaction) (nIn : nat) (txin : CTxIn) (m_tx_out : CTxOut)
  : result verify_failure unit :=
  VerifyScript flags (TransactionSignatureChecker tx nIn m_tx_out.(nValue) (Some (precompute tx)))
    txin.(scriptSig) m_tx_out.(scriptPubKey) txin.(scriptWitness).

(** What a script that fails with [flags] is rejected with; [Err] when it
    aborts.  It is not punished when it passes without the flags that are only
    asked of standard transactions. *)
Definition script_reject (flags : Z) (tx : CTransaction) (nIn : nat) (txin : CTxIn) (m_tx_out : CTxOut) : tx_failure :=
  let mandatory := Rejects (DoS 100 REJECT_INVALID "mandatory-script-verify-flag-failed") in
  if negb (Z.land flags STANDARD_NOT_MANDATORY_VERIFY_FLAGS =? 0) then
    match ScriptCheck (Z.ldiff flags STANDARD_NOT_MANDATORY_VERIFY_FLAGS) tx nIn txin m_tx_out with
    | Ok _ => Rejects (DoS 0 REJECT_NONSTANDARD "non-mandatory-script-verify-flag")
    | Err (Fails _) => mandatory
    | Err Aborts => Asserts
    end
  else mandatory.

Fixpoint check_scripts (flags : Z) (cache : CCoinsMap) (tx : CTransaction) (nIn : nat) (ins : list CTxIn)
  : result tx_failure unit * CCoinsMap :=
  match ins with
  | [] => (Ok tt, cache)
  | txin :: ins' =>
    let '(c, cache) := AccessCoin base cache txin.(prevout) in
    if IsSpent c then (Err Asserts, cache)
    else
      match ScriptCheck flags tx nIn txin c.(out) with
      | Ok _ => check_scripts flags cache tx (S nIn) ins'
      | Err (Fails _) => (Err (script_reject flags tx nIn txin c.(out)), cache)
      | Err Aborts => (Err Asserts, cache)
      end
  end.

(** [CheckInputs] without worker threads; [cached] is the answer of the cache of
    executed scripts. *)
Definition CheckInputs (fScriptChecks cached : bool) (flags : Z) (cache : CCoinsMap) (tx : CTransaction)
  : result tx_failure unit * CCoinsMap :=
  if IsCoinBase tx || negb fScriptChecks || cached then (Ok tt, cache)
  else check_scripts flags cache tx 0 tx.(vin).

(** ** Reading through the cache *)

(** What a function that only reads does to the cache. *)
Definition reads (c c' : CCoinsMap) : Prop := cache_ok base c' /\ forall o, view base c' o = view base c o.

Lemma reads_refl c : cache_ok base c -> reads c c.
Proof. by split. Qed.
Lemma reads_trans a b c : reads a b -> reads b c -> reads a c.
Proof. intros [_ H1] [H2 H3]. split; [done|]. intros o. by rewrite H3, H1. Qed.

Lemma AccessCoin_reads c o : cache_ok base c -> reads c (AccessCoin base c o).2.
Proof. intros H. by destruct (AccessCoin_spec base c o H) as (_ & ? & ?). Qed.

(** An input whose coin is there, and one whose coin is not. *)
Lemma AccessCoin_cases c o : cache_ok base c -> let '(k, c') := AccessCoin base c o in
  reads c c' /\ (if IsSpent k then view base c o = None else view base c o = Some k).
Proof.
  intros H. pose proof (AccessCoin_reads c o H) as Hr. destruct (AccessCoin_spec base c o H) as (Hl & _).
  destruct (AccessCoin base c o) as [k c']. split; [done|]. cbn in Hl. by destruct (IsSpent k).
Qed.

(** The coins of the inputs. *)
Definition spent_coins (u : CCoinsView) (ins : list CTxIn) : option (list Coin) := mapM (fun i => u i.(prevout)) ins.

Lemma spent_coins_ext u v ins : (forall o, u o = v o) -> spent_coins u ins = spent_coins v ins.
Proof. intros H. unfold spent_coins. induction ins as [|i ins IH]; [done|]. cbn. by rewrite H, IH. Qed.

Lemma have_inputs_spec ins : forall c, cache_ok base c ->
  reads c (have_inputs base c ins).2 /\
  (have_inputs base c ins).1 = match spent_coins (view base c) ins with Some _ => true | None => false end.
Proof.
  induction ins as [|i ins IH]; intros c H; [split; [by apply reads_refl|done]|].
  cbn [have_inputs]. unfold spent_coins. cbn [mapM]. destruct (HaveCoin_spec base c (prevout i) H) as (Hb & Hok & Hv).
  destruct (HaveCoin base c (prevout i)) as [b c1]. cbn [fst snd] in *. subst b.
  destruct (view base c (prevout i)) as [k|]; cbn; [|by split].
  destruct (IH c1 Hok) as [Hr ->]. split; [by eapply reads_trans|].
  rewrite (spent_coins_ext _ (view base c)) by apply Hv. unfold spent_coins.
  by destruct (mapM (fun i => view base c (prevout i)) ins).
Qed.

(** ** Values of the inputs *)

Definition total_value (ks : list Coin) : Z := foldr (fun k acc => k.(out).(nValue) + acc) 0 ks.
Definition mature (nCoinbaseMaturity nSpendHeight : Z) (k : Coin) : Prop :=
  k.(fCoinBase) = true -> k.(coin_nHeight) + nCoinbaseMaturity <= nSpendHeight.
Definition in_range (k : Coin) : Prop := MoneyRange k.(out).(nValue) = true.

Lemma total_value_nonneg ks : Forall in_range ks -> 0 <= total_value ks.
Proof. induction 1 as [|k ks Hk _ IH]; cbn; [lia|]. unfold in_range, MoneyRange in Hk. fold (total_value ks). lia. Qed.

Lemma check_inputs_spec m h ins : forall c v ks, cache_ok base c -> MoneyRange v = true ->
  spent_coins (view base c) ins = Some ks ->
  reads c (check_inputs m c ins h v).2 /\ (check_inputs m c ins h v).1 <> Err Asserts /\
  forall r, (check_inputs m c ins h v).1 = Ok r <->
    Forall (mature m h) ks /\ Forall in_range ks /\ v + total_value ks <= MAX_MONEY /\ r = v + total_value ks.
Proof.
  induction ins as [|i ins IH]; intros c v ks H Hv Hs.
  { injection Hs as <-. split_and!; [by apply reads_refl|done|]. cbn. unfold MoneyRange in Hv.
    intros r. split; [intros [= <-]; split_and!; [constructor..|lia|lia]|intros (_ & _ & _ & ->); f_equal; lia]. }
  unfold spent_coins in Hs. cbn [mapM] in Hs. apply bind_Some in Hs as (k & Hk & Hs).
  apply bind_Some in Hs as (ks' & Hks & [= <-]).
  cbn [check_inputs]. pose proof (AccessCoin_cases c (prevout i) H) as Ha.
  destruct (AccessCoin base c (prevout i)) as [k' c1]. destruct Ha as [Hr Ha].
  destruct (IsSpent k'); [congruence|]. assert (k' = k) as -> by congruence.
  destruct (fCoinBase k && (h - coin_nHeight k <? m)) eqn:Em.
  { split_and!; [done|done|]. intros r. split; [done|]. intros (Hm%Forall_cons & _). unfold mature in Hm. lia. }
  assert (mature m h k) as Hm by (unfold mature; lia).
  destruct (negb (MoneyRange (nValue (out k))) || negb (MoneyRange (wraps 64 (v + nValue (out k))))) eqn:Er.
  { split_and!; [done|done|]. intros r. split; [done|]. intros (_ & (Hk1 & Hk2)%Forall_cons & Hle & _).
    unfold in_range in Hk1. pose proof (total_value_nonneg ks' Hk2). cbn in Hle. fold (total_value ks') in Hle.
    unfold MoneyRange, MAX_MONEY, COIN in *. rewrite wraps_id in Er by lia. lia. }
  apply orb_false_iff in Er as [E1%negb_false_iff E2%negb_false_iff].
  rewrite wraps_id in * by (unfold MoneyRange, MAX_MONEY, COIN in *; lia).
  destruct (IH c1 (v + nValue (out k)) ks') as (Hr2 & Ha2 & IHr); [apply Hr|done| |].
  { rewrite (spent_coins_ext _ (view base c)) by apply Hr. done. }
  split_and!; [by eapply reads_trans|done|]. intros r. rewrite IHr, !Forall_cons. cbn. fold (total_value ks').
  rewrite !Z.add_assoc. unfold in_range at 2. tauto.
Qed.

Lemma HaveInputs_spec c tx : cache_ok base c -> IsCoinBase tx = false ->
  reads c (HaveInputs base c tx).2 /\
  (HaveInputs base c tx).1 = match spent_coins (view base c) tx.(vin) with Some _ => true | None => false end.
Proof. intros H Hc. unfold HaveInputs. rewrite Hc. by apply have_inputs_spec. Qed.

Lemma value_out_nonneg b outs : forall acc v, 0 <= acc -> value_out b outs acc = Some v -> 0 <= v.
Proof.
  induction outs as [|o outs IH]; intros acc v Ha; cbn [value_out]; [intros [= <-]; done|]. case_match; [by apply IH|].
  case_match; [done|]. apply IH. unfold MoneyRange in *. lia.
Qed.

(** When a transaction that is not a coinbase may spend its inputs, and with
    which fee. *)
Definition inputs_pay (fEnforced : bool) (nCoinbaseMaturity nSpendHeight : Z) (u : CCoinsView) (tx : CTransaction) (fee : Z) : Prop :=
  exists ks v, spent_coins u tx.(vin) = Some ks /\ Forall (mature nCoinbaseMaturity nSpendHeight) ks
  /\ Forall in_range ks /\ total_value ks <= MAX_MONEY
  /\ GetValueOut fEnforced tx = Some v /\ 0 <= v <= total_value ks /\ fee = total_value ks - v.

Lemma CheckTxInputs_spec fEnforced m c tx h : cache_ok base c -> IsCoinBase tx = false ->
  reads c (CheckTxInputs fEnforced m c tx h).2 /\ (CheckTxInputs fEnforced m c tx h).1 <> Err Asserts /\
  forall fee, (CheckTxInputs fEnforced m c tx h).1 = Ok fee <-> inputs_pay fEnforced m h (view base c) tx fee.
Proof.
  intros H Hc. unfold CheckTxInputs. destruct (HaveInputs_spec c tx H Hc) as [Hr Hh].
  destruct (HaveInputs base c tx) as [have c1]. cbn [fst snd] in *. subst have.
  destruct (spent_coins (view base c) (vin tx)) as [ks|] eqn:Es; cbn [negb]; cycle 1.
  { split_and!; [done|done|]. intros fee. split; [done|]. intros (? & ? & ? & _). congruence. }
  destruct (check_inputs_spec m h tx.(vin) c1 0 ks) as (Hr2 & Ha & Hi); [apply Hr|done| |].
  { rewrite (spent_coins_ext _ (view base c)) by apply Hr. done. }
  destruct (check_inputs m c1 (vin tx) h 0) as [r c2]. cbn [fst snd] in *. split; [by eapply reads_trans|].
  unfold inputs_pay. rewrite Es. destruct r as [nValueIn|e]; cbn [mbind result_bind]; cycle 1.
  { split; [congruence|]. intros fee. split; [done|]. intros (ks' & v & [= <-] & H1 & H2 & H3 & _).
    assert (Err e = Ok (total_value ks)); [|done]. apply Hi. split_and!; [done..|lia|lia]. }
  destruct (proj1 (Hi nValueIn) eq_refl) as (H1 & H2 & H3 & E). rewrite Z.add_0_l in H3, E. subst nValueIn.
  destruct (GetValueOut fEnforced tx) as [v|] eqn:Ev; cycle 1.
  { split; [done|]. intros fee. split; [done|]. by intros (? & ? & _ & _ & _ & _ & [=] & _). }
  assert (0 <= v) as Hv by (by eapply (value_out_nonneg fEnforced tx.(vout) 0)).
  pose proof (total_value_nonneg ks H2). unfold require. destruct (Z.ltb_spec (total_value ks) v) as [Hlt|Hge]; cbn [negb mbind result_bind].
  { split; [done|]. intros fee. split; [done|]. intros (? & ? & [= <-] & _ & _ & _ & [= <-] & ? & _). lia. }
  replace (MoneyRange _) with true by (unfold MoneyRange; lia). cbn [mbind result_bind]. split; [done|].
  intros fee. split; [intros [= <-]; exists ks, v; split_and!; done || lia|].
  by intros (? & ? & [= <-] & _ & _ & _ & [= <-] & ? & ->).
Qed.

Lemma check_inputs_throws m h ins : forall c v, (check_inputs m c ins h v).1 <> Err Throws.
Proof. induction ins as [|i ins IH]; intros c v; cbn [check_inputs]; [done|]. by repeat case_match. Qed.

Lemma CheckTxInputs_throws fEnforced m c tx h :
  (CheckTxInputs fEnforced m c tx h).1 = Err Throws -> GetValueOut fEnforced tx = None.
Proof.
  unfold CheckTxInputs. destruct (HaveInputs base c tx) as [[] c1]; [|done]. cbn [negb].
  pose proof (check_inputs_throws m h tx.(vin) c1 0) as Hn. destruct (check_inputs _ _ _ _ _) as [[nv|e] c2]; cbn [fst] in *.
  - destruct (GetValueOut fEnforced tx) as [v|]; [|done]. cbn [mbind result_bind]. unfold require.
    destruct (negb _); [|done]. cbn [mbind result_bind]. by destruct (MoneyRange _).
  - cbn [mbind result_bind]. intros [= ->]. done.
Qed.

(** ** Signature operations and scripts *)

Definition has_coins (u : CCoinsView) (ins : list CTxIn) : Prop := Forall (fun i => u i.(prevout) <> None) ins.

Lemma has_coins_reads c c' ins : reads c c' -> has_coins (view base c) ins -> has_coins (view base c') ins.
Proof. intros [_ Hv] H. apply (Forall_impl _ _ _ H). intros i. by rewrite Hv. Qed.

Lemma spent_coins_has u ins : (exists ks, spent_coins u ins = Some ks) <-> has_coins u ins.
Proof.
  unfold spent_coins, has_coins. induction ins as [|i ins IH]; [split; [done|by exists []]|]. rewrite Forall_cons, <- IH. cbn [mapM].
  destruct (u (prevout i)) as [k|]; cbn [mbind option_bind]; [|by split; [intros [? ?]|intros [? ?]]].
  split; [intros [? (ks & ? & _)%bind_Some]; split; [done|by exists ks]|].
  intros [_ [ks Hks]]. exists (k :: ks). by rewrite Hks.
Qed.

Lemma p2sh_sigops_spec ins : forall c n, cache_ok base c ->
  reads c (p2sh_sigops c ins n).2 /\ (has_coins (view base c) ins -> (p2sh_sigops c ins n).1 <> None).
Proof.
  induction ins as [|i ins IH]; intros c n H; [split; [by apply reads_refl|done]|].
  cbn [p2sh_sigops]. pose proof (AccessCoin_cases c (prevout i) H) as Ha.
  destruct (AccessCoin base c (prevout i)) as [k c1]. destruct Ha as [Hr Ha]. destruct (IsSpent k).
  { split; [done|]. by intros [? _]%Forall_cons. }
  set (n' := if IsPayToScriptHash _ then _ else n). destruct (IH c1 n' (proj1 Hr)) as [Hr2 Hs].
  split; [by eapply reads_trans|]. intros [_ Hh]%Forall_cons. apply Hs. by eapply has_coins_reads.
Qed.

Lemma witness_sigops_spec flags ins : (has_flag flags SCRIPT_VERIFY_WITNESS = true -> has_flag flags SCRIPT_VERIFY_P2SH = true) ->
  forall c n, cache_ok base c ->
  reads c (witness_sigops c ins flags n).2 /\ (has_coins (view base c) ins -> (witness_sigops c ins flags n).1 <> None).
Proof.
  intros Hf. induction ins as [|i ins IH]; intros c n H; [split; [by apply reads_refl|done]|].
  cbn [witness_sigops]. pose proof (AccessCoin_cases c (prevout i) H) as Ha.
  destruct (AccessCoin base c (prevout i)) as [k c1]. destruct Ha as [Hr Ha]. destruct (IsSpent k).
  { split; [done|]. by intros [? _]%Forall_cons. }
  assert (exists x, CountWitnessSigOps (scriptSig i) (scriptPubKey (out k)) (scriptWitness i) flags = Some x) as [x ->].
  { unfold CountWitnessSigOps. destruct (has_flag flags SCRIPT_VERIFY_WITNESS); [rewrite Hf by done|by eexists].
    cbn. repeat case_match; by eexists. }
  destruct (IH c1 (n + x) (proj1 Hr)) as [Hr2 Hs]. split; [by eapply reads_trans|].
  intros [_ Hh]%Forall_cons. apply Hs. by eapply has_coins_reads.
Qed.

Lemma sigop_cost_spec flags c tx : (has_flag flags SCRIPT_VERIFY_WITNESS = true -> has_flag flags SCRIPT_VERIFY_P2SH = true) ->
  cache_ok base c ->
  reads c (GetTransactionSigOpCost c tx flags).2 /\
  (IsCoinBase tx = true \/ has_coins (view base c) tx.(vin) -> (GetTransactionSigOpCost c tx flags).1 <> None).
Proof.
  intros Hf H. unfold GetTransactionSigOpCost. destruct (IsCoinBase tx) eqn:Ec; [split; [by apply reads_refl|done]|].
  assert (reads c (if has_flag flags SCRIPT_VERIFY_P2SH then GetP2SHSigOpCount c tx else (Some 0, c)).2 /\
    (has_coins (view base c) (vin tx) -> (if has_flag flags SCRIPT_VERIFY_P2SH then GetP2SHSigOpCount c tx else (Some 0, c)).1 <> None))
    as [Hr Hs].
  { unfold GetP2SHSigOpCount. rewrite Ec. destruct (has_flag flags SCRIPT_VERIFY_P2SH); [by apply p2sh_sigops_spec|split; [by apply reads_refl|done]]. }
  destruct (if has_flag flags SCRIPT_VERIFY_P2SH then GetP2SHSigOpCount c tx else (Some 0, c)) as [[n|] c1]; cbn [fst snd] in *.
  - destruct (witness_sigops_spec flags tx.(vin) Hf c1 (wrapu 32 (GetLegacySigOpCount tx * 4) + wrapu 32 (n * 4)) (proj1 Hr)) as [Hr2 Hs2].
    split; [by eapply reads_trans|]. intros [?|Hh]; [done|]. apply Hs2. by eapply has_coins_reads.
  - split; [done|]. intros [?|Hh]; [done|]. by destruct (Hs Hh).
Qed.

(** Every input's script accepts the coin it spends. *)
Definition scripts_ok (flags : Z) (u : CCoinsView) (tx : CTransaction) (nIn : nat) (ins : list CTxIn) : Prop :=
  forall j i k, ins !! j = Some i -> u i.(prevout) = Some k -> ScriptCheck flags tx (nIn + j) i k.(out) = Ok tt.

Lemma not_mandatory_cleared flags f : has_flag STANDARD_NOT_MANDATORY_VERIFY_FLAGS f = true ->
  has_flag (Z.ldiff flags STANDARD_NOT_MANDATORY_VERIFY_FLAGS) f = false.
Proof.
  unfold has_flag. rewrite Z.shiftl_1_l, !land_pow2_testbit, Z.ldiff_spec by (destruct f; vm_compute; discriminate).
  intros ->. apply andb_false_r.
Qed.

Lemma script_reject_no_assert flags tx nIn txin o : script_reject flags tx nIn txin o <> Asserts.
Proof.
  unfold script_reject. case_match; [|done].
  assert (ScriptCheck (Z.ldiff flags STANDARD_NOT_MANDATORY_VERIFY_FLAGS) tx nIn txin o <> Err Aborts) as Hn.
  { apply verify_no_abort. split; by rewrite not_mandatory_cleared. }
  destruct (ScriptCheck _ _ _ _ _) as [|[]]; congruence.
Qed.

Lemma check_scripts_spec flags tx ins : consistent flags -> forall c nIn, cache_ok base c -> has_coins (view base c) ins ->
  reads c (check_scripts flags c tx nIn ins).2 /\ (check_scripts flags c tx nIn ins).1 <> Err Asserts /\
  ((check_scripts flags c tx nIn ins).1 = Ok tt <-> scripts_ok flags (view base c) tx nIn ins).
Proof.
  intros Hf. induction ins as [|i ins IH]; intros c nIn H Hh; [split_and!; [by apply reads_refl|done|by split]|].
  apply Forall_cons in Hh as [Hi Hh]. cbn [check_scripts]. pose proof (AccessCoin_cases c (prevout i) H) as Ha.
  destruct (AccessCoin base c (prevout i)) as [k c1]. destruct Ha as [Hr Ha]. destruct (IsSpent k); [done|].
  destruct (IH c1 (S nIn) (proj1 Hr)) as (Hr2 & Hn & Hs); [by eapply has_coins_reads|].
  destruct (ScriptCheck flags tx nIn i (out k)) as [[]|e] eqn:E.
  - split_and!; [by eapply reads_trans|done|]. rewrite Hs. destruct Hr as [_ Hv]. split.
    + intros Ho [|j] i' k' Hj Hk; [injection Hj as <-; rewrite Nat.add_0_r; congruence|].
      rewrite Nat.add_succ_r. apply Ho; [done|by rewrite Hv].
    + intros Ho j i' k' Hj Hk. specialize (Ho (S j) i' k' Hj). rewrite Nat.add_succ_r in Ho. apply Ho. by rewrite <- Hv.
  - assert (~ scripts_ok flags (view base c) tx nIn (i :: ins)) as Hno.
    { intros Ho. specialize (Ho 0%nat i k eq_refl Ha). rewrite Nat.add_0_r in Ho. congruence. }
    pose proof (script_reject_no_assert flags tx nIn i (out k)) as Hsr.
    destruct e; [split_and!; [done|by intros [= ?]|by split]|]. by destruct (verify_no_abort _ _ _ _ _ Hf E).
Qed.

(** C25. A transaction that is not a coinbase is accepted exactly when every coin
    it spends is there, mature and a valid amount, and the coins' total is a
    valid amount that covers what [GetValueOut] counts of the outputs; the fee is
    the difference.  Missing coins never fail the assertion, and no coin is
    touched. *)
Theorem CheckTxInputs_exact (fEnforced : bool) (nCoinbaseMaturity : Z) (c : CCoinsMap) (tx : CTransaction) (nSpendHeight : Z) :
  cache_ok base c -> IsCoinBase tx = false ->
  let '(r, c') := CheckTxInputs fEnforced nCoinbaseMaturity c tx nSpendHeight in
  (forall fee, r = Ok fee <-> inputs_pay fEnforced nCoinbaseMaturity nSpendHeight (view base c) tx fee)
  /\ r <> Err Asserts /\ (r = Err Throws -> GetValueOut fEnforced tx = None)
  /\ cache_ok base c' /\ forall o, view base c' o = view base c o.
Proof.
  intros H Hc. pose proof (CheckTxInputs_spec fEnforced nCoinbaseMaturity c tx nSpendHeight H Hc) as (Hr & Hn & Hi).
  pose proof (CheckTxInputs_throws fEnforced nCoinbaseMaturity c tx nSpendHeight) as Ht.
  destruct (CheckTxInputs _ _ _ _ _) as [r c']. destruct Hr. by split_and!.
Qed.

End Inputs.

(** ** Relative lock times *)

(** When the relative lock time of an input has passed at [block]: the type flag
    selects units of 512 seconds of median time past, counted from the block
    before the coin's, or blocks. *)
Definition input_unlocked (block prev : CBlockIndex) (p : CTxIn * Z) : bool :=
  let '(txin, nCoinHeight) := p in
  let value := txin.(nSequence) mod 2 ^ 16 in
  Z.testbit txin.(nSequence) 31
  || if Z.testbit txin.(nSequence) 22 then
       match walk (Z.to_nat (block.(bi_height) - Z.max (nCoinHeight - 1) 0)) block with
       | Some q => GetMedianTimePast q + 512 * value <=? GetMedianTimePast prev
       | None => false
       end
     else nCoinHeight + value <=? block.(bi_height).

Lemma lock_inputs_spec block prev ins : chained block ->
  Forall (fun p => 0 <= p.2 <= block.(bi_height) + 1) ins -> forall nMinHeight nMinTime,
  exists mh mt, lock_inputs block ins nMinHeight nMinTime = Some (mh, mt) /\
    negb ((block.(bi_height) <=? mh) || (GetMedianTimePast prev <=? mt))
    = negb ((block.(bi_height) <=? nMinHeight) || (GetMedianTimePast prev <=? nMinTime)) && forallb (input_unlocked block prev) ins.
Proof.
  intros Hb. pose proof (chained_nonneg block Hb) as Hpos. induction 1 as [|[txin h] ins Hh _ IH]; intros mh mt.
  { exists mh, mt. split; [done|]. by rewrite andb_true_r. }
  cbn [lock_inputs forallb snd] in *. unfold input_unlocked at 1, lock_input.
  change 0x80000000 with (2 ^ 31). change 0x400000 with (2 ^ 22). change 0xffff with (Z.ones 16).
  rewrite Z.land_ones, !land_pow2_testbit by lia. set (value := nSequence txin mod 2 ^ 16).
  destruct (Z.testbit (nSequence txin) 31); cbn [orb]; [apply IH|].
  destruct (Z.testbit (nSequence txin) 22).
  - rewrite GetAncestor_walk by done. replace (_ && _) with true by lia.
    destruct (walk_height (Z.to_nat (bi_height block - Z.max (h - 1) 0)) block Hb) as (q & -> & _); [lia|].
    cbn [mbind option_bind]. rewrite Z.shiftl_mul_pow2 by lia. change (2 ^ 9) with 512.
    destruct (IH mh (Z.max mt (GetMedianTimePast q + value * 512 - 1))) as (mh' & mt' & -> & E). exists mh', mt'. rewrite E.
    split; [done|]. rewrite andb_assoc. f_equal. lia.
  - cbn [mbind option_bind]. destruct (IH (Z.max mh (h + value - 1)) mt) as (mh' & mt' & -> & E). exists mh', mt'. rewrite E.
    split; [done|]. rewrite andb_assoc. f_equal. lia.
Qed.

Lemma SequenceLocks_spec tx flags prevHeights block prev :
  chained block -> block.(pprev) = Some prev -> 0 <= GetMedianTimePast prev ->
  length prevHeights = length tx.(vin) -> Forall (fun h => 0 <= h <= block.(bi_height)) prevHeights ->
  SequenceLocks tx flags prevHeights block
  = Some (if (2 <=? wrapu 32 tx.(nVersion)) && Z.testbit flags 0
          then forallb (input_unlocked block prev) (zip tx.(vin) prevHeights) else true).
Proof.
  intros Hb Hp Ht Hl Hh. pose proof (chained_nonneg block Hb). unfold SequenceLocks, CalculateSequenceLocks, EvaluateSequenceLocks.
  rewrite Hl, Nat.eqb_refl, Hp. cbn [negb]. change (Z.land flags 1) with (Z.land flags (2 ^ 0)). rewrite land_pow2_testbit by lia.
  destruct ((2 <=? wrapu 32 (nVersion tx)) && Z.testbit flags 0); cbn [negb mbind option_bind fst snd].
  - destruct (lock_inputs_spec block prev (zip tx.(vin) prevHeights) Hb) with (nMinHeight := -1) (nMinTime := -1)
      as (mh & mt & -> & E); [|cbn [mbind option_bind fst snd]; rewrite E; f_equal].
    + apply Forall_forall. rewrite Forall_forall in Hh. intros [i h] [j Hj]%list_elem_of_lookup.
      apply lookup_zip_with_Some in Hj as (i' & h' & [= -> ->] & _ & Hj). apply list_elem_of_lookup_2, Hh in Hj. cbn. lia.
    + by replace (_ || _) with false by lia.
  - f_equal. lia.
Qed.

(** Relative lock times: for a block with a predecessor and coins created no
    later than the block, the check returns, and it accepts the transaction
    exactly when the rule is not enforced for it or the lock time of every input
    has passed; one more block, or one more second of median time, is never
    asked for. *)
Theorem SequenceLocks_exact (tx : CTransaction) (flags : Z) (prevHeights : list Z) (block prev : CBlockIndex) :
  chained block -> block.(pprev) = Some prev -> 0 <= GetMedianTimePast prev ->
  length prevHeights = length tx.(vin) -> Forall (fun h => 0 <= h <= block.(bi_height)) prevHeights ->
  SequenceLocks tx flags prevHeights block
  = Some (if (2 <=? wrapu 32 tx.(nVersion)) && Z.testbit flags 0
          then forallb (input_unlocked block prev) (zip tx.(vin) prevHeights) else true).
Proof. intros Hb Hp Ht Hl Hh. by apply SequenceLocks_spec. Qed.

(** ** Samples *)

Module Locked.

Definition o1 : COutPoint := MkOutPoint 7 0.
Definition o2 : COutPoint := MkOutPoint 8 1.
(** One input waits for three blocks, the other for 512 seconds. *)
Definition tx : CTransaction :=
  MkTransaction [MkTxIn o1 [] 3 []; MkTxIn o2 [] (0x400000 + 1) []] [MkTxOut 40 [0x51]; MkTxOut 50 [0x52]] 2 0 0 [].
Definition k (value height : Z) (coinbase : bool) : Coin := new_coin (MkTxOut value [0x51]) height coinbase.
Definition base : CCoinsView :=
  fun o => if decide (o = o1) then Some (k 70 5 true) else if decide (o = o2) then Some (k 30 2 false) else None.

Lemma CheckTxInputs_exact_witness :
  (CheckTxInputs base true 3 ∅ tx 8).1 = Ok 10 /\ (CheckTxInputs base true 4 ∅ tx 8).1 <> Err Asserts.
Proof.
  pose proof (CheckTxInputs_exact base true 3 ∅ tx 8) as H. pose proof (CheckTxInputs_exact base true 4 ∅ tx 8) as H'.
  destruct (CheckTxInputs base true 3 ∅ tx 8) as [r c1], (CheckTxInputs base true 4 ∅ tx 8) as [r' c2].
  destruct H as (Hi & _); [apply map_Forall_empty|reflexivity|]. destruct H' as (_ & Hn & _); [apply map_Forall_empty|reflexivity|].
  split; [|exact Hn]. apply Hi. exists [k 70 5 true; k 30 2 false], 90.
  split; [vm_compute; reflexivity|]. split.
  { repeat constructor; unfold mature; vm_compute; congruence. }
  split; [repeat constructor; vm_compute; reflexivity|]. vm_compute. repeat split; congruence.
Defined.

Lemma SequenceLocks_exact_witness :
  SequenceLocks tx 1 [5; 2] demo_chain = Some false /\ SequenceLocks tx 1 [4; 0] demo_chain = Some false
  /\ SequenceLocks tx 0 [5; 2] demo_chain = Some true.
Proof.
  assert (exists prev, pprev demo_chain = Some prev) as [prev Hp] by (vm_compute; eauto).
  assert (0 <= GetMedianTimePast prev) by (vm_compute in Hp; injection Hp as <-; vm_compute; discriminate).
  assert (forall a b, (0 <=? a) && (a <=? 8) && (0 <=? b) && (b <=? 8) = true ->
    Forall (fun h => 0 <= h <= bi_height demo_chain) [a; b]) as Hh.
  { intros a b E. change (bi_height demo_chain) with 8. repeat constructor; lia. }
  split_and!; (rewrite (SequenceLocks_exact _ _ _ demo_chain prev demo_chained Hp); [|assumption|reflexivity|by apply Hh]);
    vm_compute in Hp; injection Hp as <-; vm_compute; reflexivity.
Defined.

End Locked.
