(* ===== verification/AssetTx.v ===== *)
(** What a transaction has to look like, without looking at the chain:
    [CTransaction]'s asset methods (assets/assets.cpp) and [CheckTransaction]
    (consensus/tx_verify.cpp).  The theorems show that a transaction that is
    accepted keeps its money values in range and its inputs distinct, and that it
    creates assets only with the burn and the owner token that this takes. *)

From S2P Require Import Prelude Serialize Sha256 Script Primitives Interpreter Standard AssetNames Base58 BoolEE AssetTypes ProviderTx TxVerify.
From Stdlib Require Import Ascii.

Abbreviation MAX_BLOCK_WEIGHT_RIP2 := 8000000%Z (only parsing).

(** ** Text of errors *)

Definition text (b : bytes) : string := String.string_of_list_ascii ((fun c => ascii_of_N (Z.to_N c)) <$> b).
Definition quote : string := String (ascii_of_nat 34) EmptyString.

Definition verifier_reason (e : verifier_error) : string :=
  match e with
  | VerifierEmpty => ("Verifier string can not be empty. To default to true, use " ++ quote ++ "true" ++ quote)%string
  | VerifierTooLong => "Verifier string has length greater than 80 after whitespaces and '#' are removed"
  | VerifierBadName name => ("bad-txns-null-verifier-invalid-asset-name-" ++ text name)%string
  | VerifierSyntax _ => "bad-txns-null-verifier-failed-syntax-check"
  | VerifierWhitespace => "bad-txns-null-verifier-data-contained-whitespaces"
  | VerifierHash => "bad-txns-null-verifier-data-contained-qualifier-character-#"
  | VerifierUnserialize => "bad-txns-null-verifier-data-serialization"
  | VerifierUnknownQualifier => "bad-txns-null-verifier-contains-non-issued-qualifier"
  | VerifierAddress => "bad-txns-null-verifier-address-failed-verification"
  | VerifierContextSyntax _ => "bad-txns-null-verifier-failed-contexual-syntax-check"
  end.

(** A check that returns false and leaves [strError]. *)
Abbreviation check_result := (result string).

(** ** Checks that may fail *)

Definition get_or {A} (o : option A) (e : string) : check_result A := match o with Some a => Ok a | None => Err e end.
Definition bad {A} (reason : string) : result tx_failure A := Err (Rejects (DoS 100 REJECT_INVALID reason)).
(** [if (!check(strError)) return state.DoS(100, false, REJECT_INVALID, prefix + strError)] *)
Definition checked {A} (prefix : string) (r : check_result A) : result tx_failure A :=
  match r with Ok a => Ok a | Err e => bad (prefix ++ e)%string end.
Definition expect {A} (o : option A) (reason : string) : result tx_failure A :=
  match o with Some a => Ok a | None => bad reason end.
Definition must (b : bool) (reason : string) : result tx_failure unit := if b then Ok tt else bad reason.
Definition all_ok {A} (f : A -> result tx_failure unit) (l : list A) : result tx_failure unit := foldM (fun _ a => f a) tt l.

Lemma must_Ok b e u : must b e = Ok u <-> b = true.
Proof. unfold must, bad. destruct b, u; split; congruence. Qed.
Lemma expect_Ok {A} (o : option A) e a : expect o e = Ok a <-> o = Some a.
Proof. unfold expect, bad. destruct o; split; congruence. Qed.
Lemma get_or_Ok {A} (o : option A) e a : get_or o e = Ok a <-> o = Some a.
Proof. unfold get_or. destruct o; split; congruence. Qed.
Lemma checked_iff {A} e (r : check_result A) a : checked e r = Ok a <-> r = Ok a.
Proof. unfold checked, bad. destruct r; split; congruence. Qed.

Lemma all_ok_Ok {A} (f : A -> result tx_failure unit) l : all_ok f l = Ok tt <-> Forall (fun a => f a = Ok tt) l.
Proof.
  unfold all_ok. induction l as [|a l IH]; cbn [foldM]; [by split|]. rewrite bind_Ok, Forall_cons, <- IH.
  split; [by intros ([] & ? & ?)|intros [? ?]; by exists tt].
Qed.

(** What a check that passed has checked. *)
Ltac passed :=
  repeat match goal with
  | H : _ ≫= _ = Ok _ |- _ => apply bind_Ok in H as (? & ? & H)
  | H : must _ _ = Ok _ |- _ => apply must_Ok in H
  | H : require _ _ = Ok _ |- _ => apply require_Ok in H
  | H : expect _ _ = Ok _ |- _ => apply expect_Ok in H
  | H : get_or _ _ = Ok _ |- _ => apply get_or_Ok in H
  | H : checked _ _ = Ok _ |- _ => apply checked_iff in H
  | H : Ok _ = Ok _ |- _ => injection H as H; subst
  | H : (let '(_, _) := ?p in _) = Ok _ |- _ => is_var p; destruct p
  | u : unit |- _ => destruct u
  end.

(** A check that only fails by a rejection, never by an assertion. *)
Definition rejecting {A} (r : result tx_failure A) : Prop := forall e, r = Err e -> exists x, e = Rejects x.

Create HintDb rejecting.
Lemma rejecting_ok {A} (a : A) : rejecting (Ok a).
Proof. done. Qed.
Lemma rejecting_bad {A} e : rejecting (@bad A e).
Proof. intros e' [= <-]. by eexists. Qed.
Lemma rejecting_must b e : rejecting (must b e).
Proof. unfold must. destruct b; [apply rejecting_ok|apply rejecting_bad]. Qed.
Lemma rejecting_expect {A} (o : option A) e : rejecting (expect o e).
Proof. unfold expect. destruct o; [apply rejecting_ok|apply rejecting_bad]. Qed.
Lemma rejecting_checked {A} e (r : check_result A) : rejecting (checked e r).
Proof. unfold checked. destruct r; [apply rejecting_ok|apply rejecting_bad]. Qed.
Lemma rejecting_bind {A B} (m : result tx_failure A) (f : A -> result tx_failure B) :
  rejecting m -> (forall a, rejecting (f a)) -> rejecting (m ≫= f).
Proof. intros Hm Hf. destruct m as [a|e]; [apply Hf|]. intros e' [= <-]. by apply Hm. Qed.
Lemma rejecting_foldM {A S} (f : S -> A -> result tx_failure S) l : (forall s a, rejecting (f s a)) -> forall s, rejecting (foldM f s l).
Proof. intros Hf. induction l as [|a l IH]; intros s; cbn [foldM]; [apply rejecting_ok|]. by apply rejecting_bind. Qed.
#[export] Hint Resolve rejecting_ok rejecting_bad rejecting_must rejecting_expect rejecting_checked rejecting_bind rejecting_foldM : rejecting.
Ltac rejecting :=
  repeat first [progress eauto with rejecting | apply rejecting_bind; [|intros ?] | apply rejecting_foldM; intros ? ?
               | match goal with |- rejecting (match ?x with _ => _ end) => destruct x end].

Section AssetTx.
Context `{H : Hash256} `{SH : ScriptHash} (env : asset_env).
(** What an [AssetType] variable holds that is not written. *)
Context (junk : AssetType).

(** [AssetType t; IsAssetNameValid(name, t);] *)
Definition assetType_of (name : bytes) : AssetType := nc_type (CheckAssetName name junk).

(** ** Burns *)

Definition GetBurnAmount (type : AssetType) : Z :=
  let b := env.(e_burn) in
  match type with
  | ROOT => b.(nIssueAssetBurnAmount)
  | SUB => b.(nIssueSubAssetBurnAmount)
  | MSGCHANNEL => b.(nIssueMsgChannelAssetBurnAmount)
  | OWNER => 0
  | UNIQUE => b.(nIssueUniqueAssetBurnAmount)
  | VOTE => 0
  | REISSUE => b.(nReissueAssetBurnAmount)
  | QUALIFIER => b.(nIssueQualifierAssetBurnAmount)
  | SUB_QUALIFIER => b.(nIssueSubQualifierAssetBurnAmount)
  | RESTRICTED => b.(nIssueRestrictedAssetBurnAmount)
  | NULL_ADD_QUALIFIER => b.(nAddNullQualifierTagBurnAmount)
  | INVALID => 0
  end.

Definition GetBurnAddress (type : AssetType) : bytes :=
  let b := env.(e_burn) in
  match type with
  | ROOT => b.(strIssueAssetBurnAddress)
  | SUB => b.(strIssueSubAssetBurnAddress)
  | MSGCHANNEL => b.(strIssueMsgChannelAssetBurnAddress)
  | OWNER => []
  | UNIQUE => b.(strIssueUniqueAssetBurnAddress)
  | VOTE => []
  | REISSUE => b.(strReissueAssetBurnAddress)
  | QUALIFIER => b.(strIssueQualifierAssetBurnAddress)
  | SUB_QUALIFIER => b.(strIssueSubQualifierAssetBurnAddress)
  | RESTRICTED => b.(strIssueRestrictedAssetBurnAddress)
  | NULL_ADD_QUALIFIER => b.(strAddNullQualifierTagBurnAddress)
  | INVALID => []
  end.

(** The output is of the amount and pays to the address. *)
Definition pays_address (txOut : CTxOut) (address : bytes) : bool :=
  match ExtractDestination txOut.(scriptPubKey) with
  | None => false
  | Some destination =>
    IsValidDestination destination
    && bool_decide (default [] (EncodeDestination env.(e_prefixes) destination) = address)
  end.

Definition CheckIssueBurnTx (txOut : CTxOut) (type : AssetType) (numberIssued : Z) : bool :=
  if type_is type REISSUE || type_is type VOTE || type_is type OWNER || type_is type INVALID then false
  else
    let burnAmount := wraps 64 (GetBurnAmount type * numberIssued) in
    if negb (txOut.(nValue) =? burnAmount) then false else pays_address txOut (GetBurnAddress type).

Definition CheckReissueBurnTx (txOut : CTxOut) : bool :=
  if negb (txOut.(nValue) =? env.(e_burn).(nReissueAssetBurnAmount)) then false
  else pays_address txOut env.(e_burn).(strReissueAssetBurnAddress).

Definition CheckIssueDataTx (txOut : CTxOut) : bool := IsScriptNewAsset txOut.(scriptPubKey).
Definition CheckReissueDataTx (txOut : CTxOut) : bool := IsScriptReissueAsset txOut.(scriptPubKey).
Definition CheckOwnerDataTx (txOut : CTxOut) : bool := IsScriptOwnerAsset txOut.(scriptPubKey).

Definition found_burn (vout : list CTxOut) (type : AssetType) (n : Z) : bool :=
  existsb (fun out => CheckIssueBurnTx out type n) vout.

(** The search for a transfer of the token [name] among the outputs. *)
Definition found_transfer (vout : list CTxOut) (name : bytes) : bool :=
  existsb (fun out => match TransferAssetFromScript env out.(scriptPubKey) with
                      | Some (transfer, _) => bytes_eq name transfer.(t_name)
                      | None => false
                      end) vout.

(** [GetTxOutAssetTypes] *)
Record asset_counts := MkCounts { nIssues : Z; nReissues : Z; nTransfers : Z; nOwners : Z }.
Definition count_output (c : asset_counts) (out : CTxOut) : asset_counts :=
  match IsAssetScript3 out.(scriptPubKey) with
  | None => c
  | Some (type, fIsOwner, _) =>
    if (type =? TX_NEW_ASSET) && negb fIsOwner
    then MkCounts (c.(nIssues) + 1) c.(nReissues) c.(nTransfers) c.(nOwners)
    else if (type =? TX_NEW_ASSET) && fIsOwner
    then MkCounts c.(nIssues) c.(nReissues) c.(nTransfers) (c.(nOwners) + 1)
    else if type =? TX_TRANSFER_ASSET
    then MkCounts c.(nIssues) c.(nReissues) (c.(nTransfers) + 1) c.(nOwners)
    else if type =? TX_REISSUE_ASSET
    then MkCounts c.(nIssues) (c.(nReissues) + 1) c.(nTransfers) c.(nOwners)
    else c
  end.
Definition GetTxOutAssetTypes (vout : list CTxOut) : asset_counts := foldl count_output (MkCounts 0 0 0 0) vout.

#[local] Instance CTxOut_inhabited : Inhabited CTxOut := populate (MkTxOut (-1) []).
(** [vout[vout.size() - k]], of a transaction that has that many outputs. *)
Definition from_end (vout : list CTxOut) (k : nat) : CTxOut := vout !!! (length vout - k)%nat.

(** ** Kinds of transactions *)

Definition IsNewAsset (tx : CTransaction) : bool :=
  let vout := tx.(vout) in
  if (length vout <? 3)%nat then false
  else if negb (CheckIssueDataTx (from_end vout 1)) then false
  else if negb (CheckOwnerDataTx (from_end vout 2)) then false
  else
    let script := (from_end vout 1).(scriptPubKey) in
    negb (IsScriptNewUniqueAsset env script || IsScriptNewRestrictedAsset env script).

(** The other kinds: the last output issues an asset of the type. *)
Definition last_issues (is_kind : CScript -> bool) (tx : CTransaction) : bool :=
  let out := from_end tx.(vout) 1 in
  if negb (CheckIssueDataTx out) then false else is_kind out.(scriptPubKey).
Definition IsNewUniqueAsset : CTransaction -> bool := last_issues (IsScriptNewUniqueAsset env).
Definition IsNewMsgChannelAsset : CTransaction -> bool := last_issues (IsScriptNewMsgChannelAsset env).
Definition IsNewQualifierAsset : CTransaction -> bool := last_issues (IsScriptNewQualifierAsset env).
Definition IsNewRestrictedAsset : CTransaction -> bool := last_issues (IsScriptNewRestrictedAsset env).
Definition IsReissueAsset (tx : CTransaction) : bool := CheckReissueDataTx (from_end tx.(vout) 1).

(** [XFromTransaction]: the object of the last output, of a transaction of the kind. *)
Definition from_transaction {A} (is_kind : CTransaction -> bool) (read : CScript -> option A) (tx : CTransaction) : option A :=
  if negb (is_kind tx) then None else read (from_end tx.(vout) 1).(scriptPubKey).
Definition AssetFromTransaction := from_transaction IsNewAsset (AssetFromScript env).
Definition MsgChannelAssetFromTransaction := from_transaction IsNewMsgChannelAsset (MsgChannelAssetFromScript env).
Definition QualifierAssetFromTransaction := from_transaction IsNewQualifierAsset (QualifierAssetFromScript env).
Definition RestrictedAssetFromTransaction := from_transaction IsNewRestrictedAsset (RestrictedAssetFromScript env).
Definition ReissueAssetFromTransaction := from_transaction IsReissueAsset (ReissueAssetFromScript env).
Definition OwnerFromTransaction (tx : CTransaction) : option (bytes * bytes) :=
  if negb (IsNewAsset tx) then None else OwnerAssetFromScript env (from_end tx.(vout) 2).(scriptPubKey).

(** ** Issues *)

(** What the loop over the outputs of an issue of unique assets collects. *)
Record unique_state := MkUnique { setUniqueAssets : list bytes; assetRoot : bytes; assetOutpointCount : Z }.
Definition unique_output (st : unique_state) (out : CTxOut) : check_result unique_state :=
  if IsScriptNewUniqueAsset env out.(scriptPubKey) then
    '(asset, _) ← get_or (AssetFromScript env out.(scriptPubKey)) "bad-txns-issue-unique-asset-from-script";
    let root := GetParentName asset.(a_name) in
    let assetRoot := if bytes_eq st.(assetRoot) [] then root else st.(assetRoot) in
    _ ← require (bytes_eq assetRoot root) "bad-txns-issue-unique-asset-compare-failed"%string;
    _ ← require (negb (bool_decide (asset.(a_name) ∈ st.(setUniqueAssets))))
          "bad-txns-issue-unique-duplicate-name-in-same-tx"%string;
    Ok (MkUnique (asset.(a_name) :: st.(setUniqueAssets)) assetRoot (st.(assetOutpointCount) + 1))
  else Ok st.

Definition VerifyNewUniqueAsset (tx : CTransaction) : check_result unit :=
  let vout := tx.(vout) in
  _ ← require (negb (length vout <? 3)%nat) "bad-txns-unique-vout-size-to-small"%string;
  st ← foldM unique_output (MkUnique [] [] 0) vout;
  _ ← require (negb (st.(assetOutpointCount) =? 0)) "bad-txns-issue-unique-asset-bad-outpoint-count"%string;
  _ ← require (found_burn vout UNIQUE st.(assetOutpointCount)) "bad-txns-issue-unique-asset-burn-outpoints-not-found"%string;
  _ ← require (found_transfer vout (st.(assetRoot) ++ OWNER_TAG)) "bad-txns-issue-unique-asset-missing-owner-asset"%string;
  let c := GetTxOutAssetTypes vout in
  require (negb ((0 <? c.(nOwners)) || (0 <? c.(nReissues)) || negb (c.(nIssues) =? st.(assetOutpointCount))))
    "bad-txns-failed-unique-asset-formatting-check"%string.

Definition VerifyNewAsset (tx : CTransaction) : check_result unit :=
  let vout := tx.(vout) in
  _ ← require (negb (length vout <? 3)%nat) "bad-txns-issue-vout-size-to-small"%string;
  _ ← require (CheckIssueDataTx (from_end vout 1)) "bad-txns-issue-data-not-found"%string;
  _ ← require (CheckOwnerDataTx (from_end vout 2)) "bad-txns-issue-owner-data-not-found"%string;
  '(asset, _) ← get_or (AssetFromScript env (from_end vout 1).(scriptPubKey)) "bad-txns-issue-serialzation-failed";
  let assetType := assetType_of asset.(a_name) in
  '(strOwnerName, _) ← get_or (OwnerAssetFromScript env (from_end vout 2).(scriptPubKey)) "bad-txns-issue-owner-serialzation-failed";
  _ ← require (bytes_eq strOwnerName (asset.(a_name) ++ OWNER_TAG)) "bad-txns-issue-owner-name-doesn't-match"%string;
  _ ← require (found_burn vout assetType 1) "bad-txns-issue-burn-not-found"%string;
  _ ← (if type_is assetType SUB
       then require (found_transfer vout (GetParentName asset.(a_name) ++ OWNER_TAG))
              "bad-txns-issue-new-asset-missing-owner-asset"%string
       else Ok tt);
  let c := GetTxOutAssetTypes vout in
  require (negb (negb (c.(nOwners) =? 1) || negb (c.(nIssues) =? 1) || (0 <? c.(nReissues))))
    "bad-txns-failed-issue-asset-formatting-check"%string.

(** The last check of the kinds that create no owner token. *)
Definition one_issue (vout : list CTxOut) : bool :=
  let c := GetTxOutAssetTypes vout in
  negb (negb (c.(nOwners) =? 0) || negb (c.(nIssues) =? 1) || (0 <? c.(nReissues))).

Definition VerifyNewMsgChannelAsset (tx : CTransaction) : check_result unit :=
  let vout := tx.(vout) in
  _ ← require (negb (length vout <? 3)%nat) "bad-txns-issue-msgchannel-vout-size-to-small"%string;
  _ ← require (CheckIssueDataTx (from_end vout 1)) "bad-txns-issue-data-not-found"%string;
  '(asset, _) ← get_or (MsgChannelAssetFromScript env (from_end vout 1).(scriptPubKey)) "bad-txns-issue-msgchannel-serialzation-failed";
  _ ← require (found_burn vout MSGCHANNEL 1) "bad-txns-issue-msgchannel-burn-not-found"%string;
  _ ← require (found_transfer vout (GetParentName asset.(a_name) ++ OWNER_TAG))
        "bad-txns-issue-msg-channel-asset-bad-owner-asset"%string;
  require (one_issue vout) "bad-txns-failed-issue-msgchannel-asset-formatting-check"%string.

Definition VerifyNewQualfierAsset (tx : CTransaction) : check_result unit :=
  let vout := tx.(vout) in
  _ ← require (negb (length vout <? 2)%nat) "bad-txns-issue-qualifier-vout-size-to-small"%string;
  _ ← require (CheckIssueDataTx (from_end vout 1)) "bad-txns-issue-qualifider-data-not-found"%string;
  '(asset, _) ← get_or (QualifierAssetFromScript env (from_end vout 1).(scriptPubKey)) "bad-txns-issue-qualifier-serialzation-failed";
  let assetType := assetType_of asset.(a_name) in
  _ ← require (found_burn vout assetType 1) "bad-txns-issue-qualifier-burn-not-found"%string;
  _ ← (if type_is assetType SUB_QUALIFIER
       then require (found_transfer vout (GetParentName asset.(a_name)))
              "bad-txns-issue-sub-qualifier-parent-outpoint-not-found"%string
       else Ok tt);
  require (one_issue vout) "bad-txns-failed-issue-asset-formatting-check"%string.

(** ** Verifier strings *)

(** [GetVerifierStringFromTx]: the error and [fNotFound].  The text of the
    output that the second error ends with is left out. *)
Definition GetVerifierStringFromTx (tx : CTransaction) : result (string * bool) CNullAssetTxVerifierString :=
  found ← foldM (fun (found : option CNullAssetTxVerifierString) out =>
    if IsNullAssetVerifierTxDataScript out.(scriptPubKey) then
      match found, AssetNullVerifierDataFromScript out.(scriptPubKey) with
      | Some _, _ => Err ("Multiple verifier strings found in transaction"%string, false)
      | None, None => Err ("Failed to get verifier string from output: "%string, false)
      | None, Some verifier => Ok (Some verifier)
      end
    else Ok found) None tx.(vout);
  match found with
  | Some verifier => Ok verifier
  | None => Err ("Verifier string not found"%string, true)
  end.

Definition VerifyNewRestrictedAsset (tx : CTransaction) : check_result unit :=
  let vout := tx.(vout) in
  _ ← require (negb (length vout <? 4)%nat) "bad-txns-issue-restricted-vout-size-to-small"%string;
  _ ← require (CheckIssueDataTx (from_end vout 1)) "bad-txns-issue-restricted-data-not-found"%string;
  '(asset, _) ← get_or (RestrictedAssetFromScript env (from_end vout 1).(scriptPubKey)) "bad-txns-issue-restricted-serialization-failed";
  let assetType := assetType_of asset.(a_name) in
  _ ← require (found_burn vout assetType 1) "bad-txns-issue-restricted-burn-not-found"%string;
  let root := GetParentName asset.(a_name) in
  let strippedRoot := drop 1 root ++ OWNER_TAG in
  _ ← require (found_transfer vout strippedRoot) "bad-txns-issue-restricted-root-owner-token-outpoint-not-found"%string;
  _ ← match GetVerifierStringFromTx tx with Ok _ => Ok tt | Err e => Err e.1 end;
  require (one_issue vout) "bad-txns-failed-issue-asset-formatting-check"%string.

Definition VerifyReissueAsset (tx : CTransaction) : check_result unit :=
  let vout := tx.(vout) in
  _ ← require (negb (length vout <? 3)%nat) "bad-txns-vout-size-to-small"%string;
  _ ← require (CheckReissueDataTx (from_end vout 1)) "bad-txns-reissue-data-not-found"%string;
  '(reissue, _) ← get_or (ReissueAssetFromScript env (from_end vout 1).(scriptPubKey)) "bad-txns-reissue-serialization-failed";
  let asset_type := nc_type (CheckAssetName reissue.(r_name) INVALID) in
  let asset_name_to_check := if type_is asset_type RESTRICTED then drop 1 reissue.(r_name) else reissue.(r_name) in
  _ ← require (found_transfer vout (asset_name_to_check ++ OWNER_TAG)) "bad-txns-reissue-owner-outpoint-not-found"%string;
  _ ← require (existsb CheckReissueBurnTx vout) "bad-txns-reissue-burn-outpoint-not-found"%string;
  let c := GetTxOutAssetTypes vout in
  require (negb ((0 <? c.(nOwners)) || negb (c.(nReissues) =? 1) || (0 <? c.(nIssues))))
    "bad-txns-failed-reissue-asset-formatting-check"%string.

Definition CheckAddingTagBurnFee (tx : CTransaction) (count : Z) : bool := found_burn tx.(vout) NULL_ADD_QUALIFIER count.

(** ** The data of an issue *)

Definition IsNewOwnerTxValid (tx : CTransaction) (assetName address : bytes) : check_result unit :=
  '(ownerName, ownerAddress) ← get_or (OwnerFromTransaction tx) "bad-txns-bad-owner";
  _ ← require (bytes_eq ownerAddress address) "bad-txns-owner-address-mismatch"%string;
  _ ← require (negb (length ownerName <? 1 + MIN_ASSET_LENGTH)%nat) "bad-txns-owner-asset-length"%string;
  require (bytes_eq ownerName (assetName ++ OWNER_TAG)) "bad-txns-owner-name-mismatch"%string.

(** For the units 0 to 8 that are checked before. *)
Definition CheckAmountWithUnits (nAmount nUnits : Z) : bool := Z.rem nAmount (10 ^ (MAX_UNIT - nUnits)) =? 0.

Definition CheckNewAsset (asset : CNewAsset) : check_result unit :=
  assetType ← get_or (name_type asset.(a_name))
    "Invalid parameter: asset_name must only consist of valid characters and have a size between 3 and 30 characters. See help for more details.";
  _ ← (if type_is assetType UNIQUE || type_is assetType MSGCHANNEL then
         _ ← require (asset.(a_units) =? 0) "Invalid parameter: units must be 0"%string;
         _ ← require (asset.(a_amount) =? UNIQUE_ASSET_AMOUNT) "Invalid parameter: amount must be 100000000"%string;
         require (asset.(a_reissuable) =? 0) "Invalid parameter: reissuable must be 0"%string
       else Ok tt);
  _ ← (if type_is assetType QUALIFIER || type_is assetType SUB_QUALIFIER then
         _ ← require (asset.(a_units) =? 0) "Invalid parameter: units must be 0"%string;
         _ ← require (negb ((asset.(a_amount) <? QUALIFIER_ASSET_MIN_AMOUNT) || (QUALIFIER_ASSET_MAX_AMOUNT <? asset.(a_amount))))
               "Invalid parameter: amount must be between 100000000 - 1000000000"%string;
         require (asset.(a_reissuable) =? 0) "Invalid parameter: reissuable must be 0"%string
       else Ok tt);
  _ ← require (negb (IsAssetNameAnOwner asset.(a_name)))
        "Invalid parameters: asset_name can't have a '!' at the end of it. See help for more details."%string;
  _ ← require (negb (asset.(a_amount) <=? 0)) "Invalid parameter: asset amount can't be equal to or less than zero."%string;
  _ ← require (negb (MAX_MONEY <? asset.(a_amount))) "Invalid parameter: asset amount greater than max money: 21000000000"%string;
  _ ← require (negb ((asset.(a_units) <? 0) || (8 <? asset.(a_units)))) "Invalid parameter: units must be between 0-8."%string;
  _ ← require (CheckAmountWithUnits asset.(a_amount) asset.(a_units))
        "Invalid parameter: amount must be divisible by the smaller unit assigned to the asset"%string;
  _ ← require (negb (negb (asset.(a_reissuable) =? 0) && negb (asset.(a_reissuable) =? 1)))
        "Invalid parameter: reissuable must be 0 or 1"%string;
  require (negb (negb (asset.(a_hasipfs) =? 0) && negb (asset.(a_hasipfs) =? 1)))
    "Invalid parameter: has_ipfs must be 0 or 1."%string.

Definition CheckReissueAsset (asset : CReissueAsset) : check_result unit :=
  _ ← require (negb ((asset.(r_amount) <? 0) || (MAX_MONEY <=? asset.(r_amount))))
        "Unable to reissue asset: amount must be 0 or larger"%string;
  _ ← require (negb ((MAX_UNIT <? asset.(r_units)) || (asset.(r_units) <? -1)))
        "Unable to reissue asset: unit must be between 8 and -1"%string;
  let fSkip := env.(isTestnet)
               && ((bytes_eq asset.(r_name) (str "GAMINGWEB") && (asset.(r_reissuable) =? 109))
                   || (bytes_eq asset.(r_name) (str "UINT8") && (asset.(r_reissuable) =? -47))) in
  require (negb (negb fSkip && negb (asset.(r_reissuable) =? 0) && negb (asset.(r_reissuable) =? 1)))
    "Unable to reissue asset: reissuable must be 0 or 1"%string.

Definition VerifyNullAssetDataFlag (flag : Z) : check_result unit :=
  require (negb (negb (flag =? 0) && negb (flag =? 1))) "bad-txns-null-data-flag-must-be-0-or-1"%string.

Definition CheckVerifierAssetTxOut (txout : CTxOut) : result verifier_error unit :=
  match AssetNullVerifierDataFromScript txout.(scriptPubKey) with
  | None => Err VerifierUnserialize
  | Some verifier =>
    _ ← require (negb (bool_decide (ch " " ∈ verifier.(verifier_string)))) VerifierWhitespace;
    _ ← require (negb (bool_decide (ch "#" ∈ verifier.(verifier_string)))) VerifierHash;
    _ ← CheckVerifierString verifier.(verifier_string);
    Ok tt
  end.

(** ** [CheckTransaction] *)

(** The variables of the loop over the outputs.  A pair enters
    [mapNullDataTxCount] once: a second change of it is rejected. *)
Record outputs_state := MkOutputs {
  nValueOut : Z;
  setAssetTransferNames : list bytes;
  mapNullDataTxCount : list (bytes * bytes);
  setNullGlobalAssetChanges : list bytes;
  fContainsNullAssetVerifierTx : bool;
  nCountAddTagOuts : Z;
}.

Definition check_value (st : outputs_state) (txout : CTxOut) : result tx_failure outputs_state :=
  _ ← must (negb (txout.(nValue) <? 0)) "bad-txns-vout-negative";
  _ ← must (negb (MAX_MONEY <? txout.(nValue))) "bad-txns-vout-toolarge";
  let nValueOut := wraps 64 (st.(nValueOut) + txout.(nValue)) in
  _ ← must (MoneyRange nValueOut) "bad-txns-txouttotal-toolarge";
  Ok (MkOutputs nValueOut st.(setAssetTransferNames) st.(mapNullDataTxCount) st.(setNullGlobalAssetChanges)
        st.(fContainsNullAssetVerifierTx) st.(nCountAddTagOuts)).

(** Outputs that begin with OP_RVN_ASSET: tags, freezes and verifier strings. *)
Definition check_null (st : outputs_state) (txout : CTxOut) : result tx_failure outputs_state :=
  let s := txout.(scriptPubKey) in
  if IsNullAssetTxDataScript s then
    '(data, address) ← expect (AssetNullDataFromScript env s) "bad-txns-null-asset-data-serialization";
    _ ← checked "" (VerifyNullAssetDataFlag data.(d_flag));
    _ ← must (negb (bool_decide ((data.(d_name), address) ∈ st.(mapNullDataTxCount))))
          "bad-txns-null-data-only-one-change-per-asset-address";
    Ok (MkOutputs st.(nValueOut) st.(setAssetTransferNames) ((data.(d_name), address) :: st.(mapNullDataTxCount))
          st.(setNullGlobalAssetChanges) st.(fContainsNullAssetVerifierTx)
          (st.(nCountAddTagOuts) + (if IsAssetNameAQualifier data.(d_name) false && (data.(d_flag) =? 1) then 1 else 0)))
  else if IsNullGlobalRestrictionAssetTxDataScript s then
    data ← expect (GlobalAssetNullDataFromScript s) "bad-txns-null-global-asset-data-serialization";
    _ ← checked "" (VerifyNullAssetDataFlag data.(d_flag));
    _ ← must (negb (bool_decide (data.(d_name) ∈ st.(setNullGlobalAssetChanges))))
          "bad-txns-null-data-only-one-global-change-per-asset-name";
    Ok (MkOutputs st.(nValueOut) st.(setAssetTransferNames) st.(mapNullDataTxCount)
          (data.(d_name) :: st.(setNullGlobalAssetChanges)) st.(fContainsNullAssetVerifierTx) st.(nCountAddTagOuts))
  else if IsNullAssetVerifierTxDataScript s then
    _ ← match CheckVerifierAssetTxOut txout with Ok _ => Ok tt | Err e => bad (verifier_reason e) end;
    _ ← must (negb st.(fContainsNullAssetVerifierTx)) "bad-txns-null-data-only-one-verifier-per-tx";
    Ok (MkOutputs st.(nValueOut) st.(setAssetTransferNames) st.(mapNullDataTxCount)
          st.(setNullGlobalAssetChanges) true st.(nCountAddTagOuts))
  else Ok st.

Definition check_transfer (st : outputs_state) (txout : CTxOut) : result tx_failure outputs_state :=
  '(transfer, _) ← expect (TransferAssetFromScript env txout.(scriptPubKey)) "bad-txns-transfer-asset-bad-deserialize";
  assetType ← expect (name_type transfer.(t_name)) "bad-txns-transfer-asset-name-invalid";
  _ ← must (negb (IsAssetNameAnOwner transfer.(t_name)) || (transfer.(t_amount) =? OWNER_ASSET_AMOUNT))
        "bad-txns-transfer-owner-amount-was-not-1";
  _ ← must (negb (type_is assetType UNIQUE) || (transfer.(t_amount) =? UNIQUE_ASSET_AMOUNT))
        "bad-txns-transfer-unique-amount-was-not-1";
  _ ← must (negb (type_is assetType QUALIFIER || type_is assetType SUB_QUALIFIER)
            || negb ((transfer.(t_amount) <? QUALIFIER_ASSET_MIN_AMOUNT) || (QUALIFIER_ASSET_MAX_AMOUNT <? transfer.(t_amount))))
        "bad-txns-transfer-qualifier-amount-must be between 1 - 100";
  _ ← must (txout.(nValue) =? 0) "bad-txns-asset-transfer-amount-isn't-zero";
  Ok (MkOutputs st.(nValueOut) (transfer.(t_name) :: st.(setAssetTransferNames)) st.(mapNullDataTxCount)
        st.(setNullGlobalAssetChanges) st.(fContainsNullAssetVerifierTx) st.(nCountAddTagOuts)).

Definition check_asset_output (fMempoolCheck fBlockCheck : bool) (st : outputs_state) (txout : CTxOut)
  : result tx_failure outputs_state :=
  match IsAssetScript3 txout.(scriptPubKey) with
  | None => Ok st
  | Some (nType, _, _) =>
    if nType =? TX_TRANSFER_ASSET then check_transfer st txout
    else if nType =? TX_NEW_ASSET then
      _ ← must (txout.(nValue) =? 0) "bad-txns-asset-issued-amount-isn't-zero"; Ok st
    else if nType =? TX_REISSUE_ASSET then
      if env.(fEnforcedValuesIsActive) && fBlockCheck && negb (txout.(nValue) =? 0)
      then Err (Rejects (DoS 0 REJECT_INVALID "bad-txns-asset-reissued-amount-isn't-zero"))
      else if fMempoolCheck && negb (txout.(nValue) =? 0)
      then Err (Rejects (DoS 0 REJECT_INVALID "bad-mempool-txns-asset-reissued-amount-isn't-zero"))
      else Ok st
    else Err (Rejects (DoS 0 REJECT_INVALID "bad-asset-type-not-any-of-the-main-three"))
  end.

Definition check_output (fMempoolCheck fBlockCheck : bool) (st : outputs_state) (txout : CTxOut)
  : result tx_failure outputs_state :=
  st ← check_value st txout;
  st ← check_null st txout;
  check_asset_output fMempoolCheck fBlockCheck st txout.

(** The loops over the collected names, in the order of the map and the set.
    [front] of an empty string reads its terminator. *)
Definition pair_leP (a b : bytes * bytes) : Prop := bytes_leP (a.1) b.1 /\ (a.1 = b.1 -> bytes_leP a.2 b.2).
#[export] Instance pair_leP_dec a b : Decision (pair_leP a b).
Proof. unfold pair_leP. apply and_dec; [apply _|]. destruct (decide (a.1 = b.1)); [|left; intros ?; done].
  destruct (decide (bytes_leP a.2 b.2)); [by left|right; auto]. Defined.

Definition check_null_change (names : list bytes) (entry : bytes * bytes) : result tx_failure unit :=
  if hd 0 entry.1 =? ch "$" then
    must (bool_decide (drop 1 entry.1 ++ OWNER_TAG ∈ names))
      "bad-txns-tx-contains-restricted-asset-null-tx-without-asset-transfer"
  else
    must (bool_decide (entry.1 ∈ names)) "bad-txns-tx-contains-qualifier-asset-null-tx-without-asset-transfer".
Definition check_global_change (names : list bytes) (name : bytes) : result tx_failure unit :=
  _ ← must (negb (is_nil name)) "bad-txns-tx-contains-global-asset-null-tx-with-null-asset-name";
  must (bool_decide (drop 1 name ++ OWNER_TAG ∈ names)) "bad-txns-tx-contains-global-asset-null-tx-without-asset-transfer".
(** [CScript::Find] *)
Fixpoint find_op (fuel : nat) (op : Z) (pc : CScript) : Z :=
  match fuel with
  | O => 0
  | S fuel' =>
    match GetOp2 pc with
    | Some (opcode, _, pc') => (if opcode =? op then 1 else 0) + find_op fuel' op pc'
    | None => 0
    end
  end.
Definition Find (s : CScript) (op : Z) : Z := find_op (length s) op s.

Definition check_inputs_form (fCheckDuplicateInputs : bool) (tx : CTransaction) : result tx_failure unit :=
  _ ← must (negb fCheckDuplicateInputs || bool_decide (NoDup (prevout <$> tx.(vin)))) "bad-txns-inputs-duplicate";
  if IsCoinBase tx then
    let size := match tx.(vin) with i :: _ => length i.(scriptSig) | [] => O end in
    _ ← must (negb ((size <? 2)%nat || (100 <? size)%nat)) "bad-cb-length";
    if env.(fCheckCoinbaseAssetsIsActive)
       && existsb (fun o => IsAssetScript o.(scriptPubKey) || IsNullAsset o.(scriptPubKey)) tx.(vout)
    then Err (Rejects (DoS 0 REJECT_INVALID "bad-txns-coinbase-contains-asset-txes"))
    else Ok tt
  else if existsb (fun i => IsNullOutPoint i.(prevout)) tx.(vin)
  then Err (Rejects (DoS 10 REJECT_INVALID "bad-txns-prevout-null"))
  else Ok tt.

(** Outputs of a transaction that is of no issuing kind. *)
Definition check_plain_output (out : CTxOut) : result tx_failure unit :=
  match IsAssetScript3 out.(scriptPubKey) with
  | Some (nType, _, _) => must (nType =? TX_TRANSFER_ASSET) "bad-txns-bad-asset-transaction"
  | None =>
    must ((Find out.(scriptPubKey) OP_RVN_ASSET =? 0) || (at_ out.(scriptPubKey) 0 =? OP_RVN_ASSET))
      "bad-txns-op-rvn-asset-not-in-right-script-location"
  end.

Definition check_unique_output (out : CTxOut) : result tx_failure unit :=
  if IsScriptNewUniqueAsset env out.(scriptPubKey) then
    '(asset, _) ← expect (AssetFromScript env out.(scriptPubKey)) "bad-txns-check-transaction-issue-unique-asset-serialization";
    checked "bad-txns-issue-unique" (CheckNewAsset asset)
  else Ok tt.

(** The case analysis on the kind: [fContainsNewRestrictedAsset] and
    [fContainsRestrictedAssetReissue]. *)
Definition check_kind (tx : CTransaction) : result tx_failure (bool * bool) :=
  if IsNewAsset tx then
    _ ← checked "" (VerifyNewAsset tx);
    '(asset, strAddress) ← expect (AssetFromTransaction tx) "bad-txns-issue-asset-from-transaction";
    _ ← checked "" (IsNewOwnerTxValid tx asset.(a_name) strAddress);
    _ ← checked "" (CheckNewAsset asset);
    Ok (false, false)
  else if IsReissueAsset tx then
    _ ← checked "" (VerifyReissueAsset tx);
    '(reissue, _) ← expect (ReissueAssetFromTransaction tx) "bad-txns-reissue-asset";
    _ ← checked "" (CheckReissueAsset reissue);
    if type_is (assetType_of reissue.(r_name)) RESTRICTED then
      match GetVerifierStringFromTx tx with
      | Err (e, false) => bad ("bad-txns-reissue-restricted-verifier-" ++ e)%string
      | _ => Ok (false, true)
      end
    else Ok (false, false)
  else if IsNewUniqueAsset tx then
    _ ← checked "" (VerifyNewUniqueAsset tx);
    _ ← all_ok check_unique_output tx.(vout);
    Ok (false, false)
  else if IsNewMsgChannelAsset tx then
    _ ← checked "" (VerifyNewMsgChannelAsset tx);
    '(asset, _) ← expect (MsgChannelAssetFromTransaction tx) "bad-txns-issue-msgchannel-from-transaction";
    _ ← checked "bad-txns-issue-msgchannel" (CheckNewAsset asset);
    Ok (false, false)
  else if IsNewQualifierAsset tx then
    _ ← checked "" (VerifyNewQualfierAsset tx);
    '(asset, _) ← expect (QualifierAssetFromTransaction tx) "bad-txns-issue-qualifier-from-transaction";
    _ ← checked "bad-txns-issue-qualfier" (CheckNewAsset asset);
    Ok (false, false)
  else if IsNewRestrictedAsset tx then
    _ ← checked "" (VerifyNewRestrictedAsset tx);
    '(asset, _) ← expect (RestrictedAssetFromTransaction tx) "bad-txns-issue-restricted-from-transaction";
    _ ← checked "bad-txns-issue-restricted" (CheckNewAsset asset);
    _ ← match GetVerifierStringFromTx tx with
        | Ok _ => Ok tt
        | Err e => bad ("bad-txns-issue-restricted-verifier-search-" ++ e.1)%string
        end;
    Ok (true, false)
  else
    _ ← all_ok check_plain_output tx.(vout);
    Ok (false, false).

Definition no_outputs : outputs_state := MkOutputs 0 [] [] [] false 0.

Definition CheckTransaction (tx : CTransaction) (fCheckDuplicateInputs fMempoolCheck fBlockCheck : bool)
  : result tx_failure unit :=
  _ ← require (negb (is_nil tx.(vin))) (Rejects (DoS 10 REJECT_INVALID "bad-txns-vin-empty"));
  _ ← require (negb (is_nil tx.(vout))) (Rejects (DoS 10 REJECT_INVALID "bad-txns-vout-empty"));
  _ ← must (negb (MAX_BLOCK_WEIGHT_RIP2 <? Z.of_nat (length (SerializeTransaction false tx)) * WITNESS_SCALE_FACTOR))
        "bad-txns-oversize";
  st ← foldM (check_output fMempoolCheck fBlockCheck) no_outputs tx.(vout);
  _ ← must ((st.(nCountAddTagOuts) =? 0) || CheckAddingTagBurnFee tx st.(nCountAddTagOuts))
        "bad-txns-tx-doesn't-contain-required-burn-fee-for-adding-tags";
  _ ← all_ok (check_null_change st.(setAssetTransferNames)) (merge_sort pair_leP st.(mapNullDataTxCount));
  _ ← all_ok (check_global_change st.(setAssetTransferNames)) (merge_sort bytes_leP st.(setNullGlobalAssetChanges));
  _ ← check_inputs_form fCheckDuplicateInputs tx;
  '(fContainsNewRestrictedAsset, fContainsRestrictedAssetReissue) ← check_kind tx;
  _ ← must (negb (st.(fContainsNullAssetVerifierTx) && negb fContainsRestrictedAssetReissue && negb fContainsNewRestrictedAsset))
        "bad-txns-tx-cointains-verifier-string-without-restricted-asset-issuance-or-reissuance";
  must (negb (fContainsNewRestrictedAsset && negb st.(fContainsNullAssetVerifierTx)))
    "bad-txns-tx-cointains-restricted-asset-issuance-without-verifier".

(** ** Values *)

Definition total_out (l : list CTxOut) : Z := foldr (fun o acc => o.(nValue) + acc) 0 l.

Lemma check_null_value st o st' : check_null st o = Ok st' -> st'.(nValueOut) = st.(nValueOut).
Proof. unfold check_null. repeat case_match; intros; passed; done. Qed.

Lemma check_asset_value m b st o st' : check_asset_output m b st o = Ok st' -> st'.(nValueOut) = st.(nValueOut).
Proof. unfold check_asset_output, check_transfer. repeat case_match; intros; passed; done. Qed.

Lemma check_outputs_values m b l : forall st st', foldM (check_output m b) st l = Ok st' -> MoneyRange st.(nValueOut) = true ->
  Forall (fun o => MoneyRange o.(nValue) = true) l /\ st'.(nValueOut) = st.(nValueOut) + total_out l
  /\ MoneyRange st'.(nValueOut) = true.
Proof.
  induction l as [|o l IH]; intros st st' E Hr; cbn [foldM] in E.
  { injection E as <-. split_and!; [constructor|cbn; lia|done]. }
  passed. rename x into st1. unfold check_output in H0. passed. unfold check_value in H1. passed.
  apply check_null_value in H2. apply check_asset_value in H0. cbn [nValueOut] in H2.
  assert (st1.(nValueOut) = st.(nValueOut) + o.(nValue)) as E1.
  { rewrite H0, H2. apply wraps_id; [lia|]. unfold MoneyRange, MAX_MONEY, COIN in *. lia. }
  destruct (IH st1 st' E) as (HF & Hs & Hm); [by rewrite H0, H2|].
  split_and!; [|rewrite Hs, E1; cbn; fold (total_out l); lia|done].
  constructor; [|done]. unfold MoneyRange. lia.
Qed.

Lemma check_outputs_each m b l : forall st st', foldM (check_output m b) st l = Ok st' ->
  Forall (fun o => exists st1 st2, check_asset_output m b st1 o = Ok st2) l.
Proof.
  induction l as [|o l IH]; intros st st' E; cbn [foldM] in E; [constructor|]. apply bind_Ok in E as (st1 & E1 & E).
  constructor; [|by eapply IH]. unfold check_output in E1. passed. by eexists _, _.
Qed.

(** The asset outputs of an accepted transaction: a transfer reads and has a valid
    name, and only a reissue can carry coins. *)
Lemma CheckTransaction_assets tx d m b o : CheckTransaction tx d m b = Ok tt -> o ∈ tx.(vout) ->
  (forall t ad, TransferAssetFromScript env o.(scriptPubKey) = Some (t, ad) -> is_Some (name_type t.(t_name)))
  /\ (IsAssetScript o.(scriptPubKey) = true -> o.(nValue) = 0 \/ IsScriptReissueAsset o.(scriptPubKey) = true).
Proof.
  intros E Hin. unfold CheckTransaction in E. passed.
  match goal with Hf : foldM _ _ _ = Ok _ |- _ => apply check_outputs_each in Hf; rewrite Forall_forall in Hf; destruct (Hf o Hin) as (st1 & st2 & Ho) end.
  clear - Ho. unfold check_asset_output in Ho. unfold TransferAssetFromScript, IsAssetScript, IsScriptReissueAsset, IsScriptTransferAsset, asset_kind in *.
  destruct (IsAssetScript3 (scriptPubKey o)) as [[[ty ow] n]|] eqn:Es; [|split; done].
  destruct (ty =? TX_TRANSFER_ASSET) eqn:E1.
  - unfold check_transfer in Ho. apply bind_Ok in Ho as ([t1 ad1] & Et & Ho). passed. split.
    + intros t ad Ht. unfold TransferAssetFromScript, IsScriptTransferAsset, asset_kind in Et. rewrite Es, E1 in Et. rewrite Ht in Et.
      injection Et as <- <-. by eexists.
    + intros _. left. by apply Z.eqb_eq.
  - cbn [negb]. split; [done|]. intros _. destruct (ty =? TX_NEW_ASSET); passed; [left; by apply Z.eqb_eq|].
    destruct (ty =? TX_REISSUE_ASSET); [by right|done].
Qed.

(** What every accepted transaction looks like. *)
Definition well_formed (tx : CTransaction) : Prop :=
  tx.(vin) <> [] /\ tx.(vout) <> []
  /\ Z.of_nat (length (SerializeTransaction false tx)) * WITNESS_SCALE_FACTOR <= MAX_BLOCK_WEIGHT_RIP2
  /\ Forall (fun o => MoneyRange o.(nValue) = true) tx.(vout) /\ total_out tx.(vout) <= MAX_MONEY
  /\ NoDup (prevout <$> tx.(vin))
  /\ if IsCoinBase tx then exists i, tx.(vin) = [i] /\ (2 <= length i.(scriptSig) <= 100)%nat
     else Forall (fun i => IsNullOutPoint i.(prevout) = false) tx.(vin).

(** An output without asset data. *)
Definition plain (o : CTxOut) : Prop :=
  IsAssetScript o.(scriptPubKey) = false /\ IsNullAsset o.(scriptPubKey) = false /\ Find o.(scriptPubKey) OP_RVN_ASSET = 0.

Lemma coinbase_one tx : IsCoinBase tx = true -> exists i, tx.(vin) = [i].
Proof. unfold IsCoinBase. destruct (vin tx) as [|i [|]]; [done|eauto|done]. Qed.

Lemma existsb_false {A} (f : A -> bool) l : existsb f l = false <-> Forall (fun a => f a = false) l.
Proof.
  induction l as [|a l IH]; cbn; [by split|]. rewrite orb_false_iff, IH, Forall_cons. done.
Qed.

Lemma check_inputs_form_Ok tx : check_inputs_form true tx = Ok tt ->
  NoDup (prevout <$> tx.(vin)) /\
  if IsCoinBase tx then exists i, tx.(vin) = [i] /\ (2 <= length i.(scriptSig) <= 100)%nat
  else Forall (fun i => IsNullOutPoint i.(prevout) = false) tx.(vin).
Proof.
  unfold check_inputs_form. intros E. passed. cbn [negb orb] in *. rename H0 into Hnd. apply bool_decide_eq_true in Hnd.
  split; [done|]. destruct (IsCoinBase tx) eqn:Ec.
  - destruct (coinbase_one tx Ec) as [i Ei]. rewrite Ei in E. passed. exists i. split; [done|]. lia.
  - destruct (existsb _ _) eqn:Ex; [done|]. by apply existsb_false.
Qed.

Lemma CheckTransaction_form tx m b : CheckTransaction tx true m b = Ok tt -> well_formed tx.
Proof.
  unfold CheckTransaction. intros E. passed.
  match goal with Hf : foldM _ _ _ = Ok _, Hi : check_inputs_form _ _ = Ok _ |- _ =>
    apply check_outputs_values in Hf as (HF & Hs & Hm); [|done]; apply check_inputs_form_Ok in Hi as [Hnd Hi] end.
  cbn in Hs. unfold well_formed. split_and!; [by destruct (vin tx)|by destruct (vout tx)|lia|done| |done|done].
  unfold MoneyRange in Hm. lia.
Qed.

Lemma from_end_in l k : (0 < k <= length l)%nat -> from_end l k ∈ l.
Proof.
  intros Hk. unfold from_end. destruct (lookup_lt_is_Some_2 l (length l - k)) as [x Hx]; [lia|].
  rewrite (list_lookup_total_correct _ _ _ Hx). by eapply list_elem_of_lookup_2.
Qed.

Lemma not_asset_kind s f : IsAssetScript s = false -> asset_kind s f = false.
Proof. unfold IsAssetScript, asset_kind. by destruct (IsAssetScript3 s). Qed.

Lemma plain_kind tx : tx.(vout) <> [] -> Forall plain tx.(vout) -> check_kind tx = Ok (false, false).
Proof.
  intros Hne Hp. assert (plain (from_end tx.(vout) 1)) as (Ha & _).
  { rewrite Forall_forall in Hp. apply Hp, from_end_in. destruct (vout tx); [done|cbn; lia]. }
  unfold check_kind, IsNewAsset, IsReissueAsset, IsNewUniqueAsset, IsNewMsgChannelAsset, IsNewQualifierAsset, IsNewRestrictedAsset,
    last_issues, CheckIssueDataTx, CheckReissueDataTx, IsScriptNewAsset, IsScriptReissueAsset.
  rewrite !not_asset_kind by done. cbn [negb]. replace (if (length (vout tx) <? 3)%nat then false else false) with false by (by case_match).
  replace (all_ok check_plain_output (vout tx)) with (@Ok tx_failure unit tt); [done|].
  symmetry. apply all_ok_Ok. eapply Forall_impl; [exact Hp|]. intros o (H1 & _ & H3). unfold check_plain_output.
  unfold IsAssetScript in H1. destruct (IsAssetScript3 _); [done|]. by rewrite H3.
Qed.

Lemma plain_outputs m b l : forall v, 0 <= v -> Forall plain l -> Forall (fun o => MoneyRange o.(nValue) = true) l ->
  v + total_out l <= MAX_MONEY ->
  foldM (check_output m b) (MkOutputs v [] [] [] false 0) l = Ok (MkOutputs (v + total_out l) [] [] [] false 0).
Proof.
  induction l as [|o l IH]; intros v Hv Hp Hr Ht; cbn [foldM total_out foldr]; [by rewrite Z.add_0_r|].
  apply Forall_cons in Hp as [(Ha & Hn & _) Hp]. apply Forall_cons in Hr as [Ho Hr]. cbn [total_out foldr] in Ht. fold (total_out l) in *.
  assert (0 <= total_out l). { clear -Hr. induction Hr as [|x l Hx _ IH]; cbn; [lia|]. fold (total_out l). unfold MoneyRange in Hx. lia. }
  unfold MoneyRange in Ho. unfold check_output, check_value. cbn [nValueOut].
  rewrite wraps_id by (unfold MAX_MONEY, COIN in *; lia). replace (MoneyRange (v + nValue o)) with true by (unfold MoneyRange; lia).
  replace (nValue o <? 0) with false by lia. replace (MAX_MONEY <? nValue o) with false by lia. cbn [negb must mbind result_bind].
  unfold check_null. unfold IsNullAsset in Hn. apply orb_false_iff in Hn as [[-> ->]%orb_false_iff ->]. cbn [mbind result_bind].
  unfold check_asset_output. unfold IsAssetScript in Ha. destruct (IsAssetScript3 _); [done|].
  cbn [mbind result_bind setAssetTransferNames mapNullDataTxCount setNullGlobalAssetChanges fContainsNullAssetVerifierTx nCountAddTagOuts].
  rewrite IH by (done || lia). by rewrite Z.add_assoc.
Qed.

(** C26. Every transaction that [CheckTransaction], asked to look for duplicate
    inputs as for every block, accepts has inputs and
    outputs, fits a block, pays amounts that are each and in total between zero and
    the maximum of money, spends no output twice, and is a coinbase with a script
    of 2 to 100 bytes or has no null input.  For transactions without asset data
    this is exact: those are the only conditions. *)
Theorem transactions_checked tx fMempoolCheck fBlockCheck :
  (CheckTransaction tx true fMempoolCheck fBlockCheck = Ok tt -> well_formed tx) /\
  (Forall plain tx.(vout) -> CheckTransaction tx true fMempoolCheck fBlockCheck = Ok tt <-> well_formed tx).
Proof.
  split; [apply CheckTransaction_form|]. intros Hp. split; [apply CheckTransaction_form|].
  intros (Hi & Ho & Hsz & Hr & Ht & Hnd & Hc). unfold CheckTransaction, no_outputs, require, must.
  rewrite (plain_outputs _ _ _ 0) by (done || lia). rewrite (plain_kind tx) by done.
  replace (is_nil (vin tx)) with false by (by destruct (vin tx)). replace (is_nil (vout tx)) with false by (by destruct (vout tx)).
  replace (_ <? _) with false by lia. cbn -[check_inputs_form].
  assert (check_inputs_form true tx = Ok tt) as ->; [|done].
  unfold check_inputs_form, must. rewrite bool_decide_eq_true_2 by done. cbn [negb orb mbind result_bind].
  destruct (IsCoinBase tx).
  - destruct Hc as (i & Ei & Hl). rewrite Ei. replace (_ || _) with false by lia. cbn [negb mbind result_bind].
    replace (existsb _ _) with false; [by rewrite andb_false_r|]. symmetry. apply existsb_false.
    eapply Forall_impl; [exact Hp|]. intros o (H1 & H2 & _). cbn. by rewrite H1, H2.
  - by rewrite (proj2 (existsb_false _ _)).
Qed.

(** ** Outputs that create assets *)

Definition count_if (f : CScript -> bool) (l : list CTxOut) : Z :=
  foldr (fun o n => (if f o.(scriptPubKey) then 1 else 0) + n) 0 l.

Lemma count_if_nonneg f l : 0 <= count_if f l.
Proof. induction l as [|o l IH]; cbn; [lia|]. fold (count_if f l). case_match; lia. Qed.

Lemma count_if_zero f l o : count_if f l = 0 -> o ∈ l -> f o.(scriptPubKey) = false.
Proof.
  intros E Ho. induction l as [|x l IH]; [by apply not_elem_of_nil in Ho|]. cbn in E. fold (count_if f l) in E.
  pose proof (count_if_nonneg f l). destruct (f (scriptPubKey x)) eqn:Ex; [lia|].
  apply elem_of_cons in Ho as [->|Ho]; [done|]. apply IH; [lia|done].
Qed.

(** With a count of one, all such outputs are the same. *)
Lemma count_if_one f l a b : count_if f l = 1 -> a ∈ l -> b ∈ l -> f a.(scriptPubKey) = true -> f b.(scriptPubKey) = true -> a = b.
Proof.
  intros E Ha Hb Fa Fb. induction l as [|x l IH]; [by apply not_elem_of_nil in Ha|]. cbn in E. fold (count_if f l) in E.
  apply elem_of_cons in Ha, Hb. destruct (f (scriptPubKey x)) eqn:Ex.
  - assert (count_if f l = 0) as E0 by lia. destruct Ha as [->|Ha]; [|by rewrite (count_if_zero _ _ _ E0 Ha) in Fa].
    destruct Hb as [->|Hb]; [done|by rewrite (count_if_zero _ _ _ E0 Hb) in Fb].
  - destruct Ha as [->|Ha]; [congruence|]. destruct Hb as [->|Hb]; [congruence|]. apply IH; [lia|done..].
Qed.

(** With equal counts, the wider class is no wider. *)
Lemma count_if_equal f g l o : (forall s, f s = true -> g s = true) -> count_if f l = count_if g l -> o ∈ l ->
  g o.(scriptPubKey) = true -> f o.(scriptPubKey) = true.
Proof.
  intros Hfg E Ho Hg.
  assert (forall l, count_if f l <= count_if g l) as Hle.
  { clear -Hfg. induction l as [|x l IH]; cbn; [lia|]. fold (count_if f l) (count_if g l).
    destruct (f (scriptPubKey x)) eqn:Ex; [rewrite (Hfg _ Ex); lia|]. case_match; lia. }
  induction l as [|x l IH]; [by apply not_elem_of_nil in Ho|]. cbn in E. fold (count_if f l) (count_if g l) in E.
  specialize (Hle l). apply elem_of_cons in Ho as [->|Ho].
  - rewrite Hg in E. destruct (f (scriptPubKey x)); [done|lia].
  - apply IH; [|done]. destruct (f (scriptPubKey x)) eqn:Ex; [rewrite (Hfg _ Ex) in E; lia|]. case_match; lia.
Qed.

Lemma counts_spec l : let c := GetTxOutAssetTypes l in
  c.(nIssues) = count_if IsScriptNewAsset l /\ c.(nOwners) = count_if IsScriptOwnerAsset l
  /\ c.(nReissues) = count_if IsScriptReissueAsset l.
Proof.
  cbn. unfold GetTxOutAssetTypes. enough (forall c, let c' := foldl count_output c l in
    c'.(nIssues) = c.(nIssues) + count_if IsScriptNewAsset l /\ c'.(nOwners) = c.(nOwners) + count_if IsScriptOwnerAsset l
    /\ c'.(nReissues) = c.(nReissues) + count_if IsScriptReissueAsset l) as Hg by (apply (Hg (MkCounts 0 0 0 0))).
  induction l as [|o l IH]; intros c; [cbn; lia|]. cbn [foldl count_if foldr].
  fold (count_if IsScriptNewAsset l) (count_if IsScriptOwnerAsset l) (count_if IsScriptReissueAsset l).
  destruct (IH (count_output c o)) as (-> & -> & ->). clear IH. unfold count_output, IsScriptNewAsset, IsScriptOwnerAsset, IsScriptReissueAsset, asset_kind.
  destruct (IsAssetScript3 (scriptPubKey o)) as [[[ty ow] st]|]; [|cbn; lia].
  destruct (ty =? TX_NEW_ASSET) eqn:E1; [apply Z.eqb_eq in E1 as ->; destruct ow; cbn; lia|]. cbn [andb].
  destruct (ty =? TX_TRANSFER_ASSET) eqn:E2; [apply Z.eqb_eq in E2 as ->; cbn; lia|].
  destruct (ty =? TX_REISSUE_ASSET) eqn:E3; cbn; lia.
Qed.

Lemma assetType_of_valid name t : name_type name = Some t -> assetType_of name = t.
Proof. unfold name_type, assetType_of, CheckAssetName. destruct (40 <? length name)%nat; [done|]. case_match; congruence. Qed.

Lemma AssetFromScript_new s a addr : AssetFromScript env s = Some (a, addr) -> IsScriptNewAsset s = true.
Proof. unfold AssetFromScript. by destruct (IsScriptNewAsset s). Qed.

Lemma typed_spec types s : IsScriptNewTyped env types s = true <->
  exists a addr t, AssetFromScript env s = Some (a, addr) /\ name_type a.(a_name) = Some t /\ existsb (type_is t) types = true.
Proof.
  unfold IsScriptNewTyped. split.
  - destruct (IsAssetScript3 s); [|done]. destruct (AssetFromScript env s) as [[a addr]|]; [|done].
    destruct (name_type (a_name a)) as [t|] eqn:Et; [|done]. intros E. by exists a, addr, t.
  - intros (a & addr & t & E & Et & Ex). pose proof (AssetFromScript_new _ _ _ E) as En.
    unfold IsScriptNewAsset, asset_kind in En. destruct (IsAssetScript3 s); [|done]. by rewrite E, Et.
Qed.

Lemma typed_asset_spec types s a addr : typed_asset env (IsScriptNewTyped env types) s = Some (a, addr) ->
  AssetFromScript env s = Some (a, addr) /\ exists t, name_type a.(a_name) = Some t /\ existsb (type_is t) types = true.
Proof.
  unfold typed_asset. destruct (IsScriptNewTyped env types s) eqn:E; [|done]. cbn [negb]. intros Hr.
  apply typed_spec in E as (a' & addr' & t & Ea & Et & Ex). pose proof (AssetFromScript_new _ _ _ Ea) as En.
  assert (AssetFromScript env s = Some (a, addr)) as Ea2 by (unfold AssetFromScript; rewrite En; done).
  rewrite Ea2 in Ea. injection Ea as <- <-. eauto.
Qed.

Lemma type_is_true t u : type_is t u = true <-> t = u.
Proof. apply bool_decide_eq_true. Qed.

(** The token that issuing an asset takes.  A transaction that also creates an
    owner token is not asked for the one of a message channel or a subqualifier. *)
Definition authority (creates_owner : bool) (t : AssetType) (name : bytes) : option bytes :=
  match t with
  | SUB | UNIQUE => Some (GetParentName name ++ OWNER_TAG)
  | RESTRICTED => Some (drop 1 name ++ OWNER_TAG)
  | MSGCHANNEL => if creates_owner then None else Some (GetParentName name ++ OWNER_TAG)
  | SUB_QUALIFIER => if creates_owner then None else Some (GetParentName name)
  | _ => None
  end.

Definition issue_backed (tx : CTransaction) (out : CTxOut) : Prop :=
  exists a address t, AssetFromScript env out.(scriptPubKey) = Some (a, address)
  /\ name_type a.(a_name) = Some t /\ CheckNewAsset a = Ok tt
  /\ found_burn tx.(vout) t (if type_is t UNIQUE then count_if IsScriptNewAsset tx.(vout) else 1) = true
  /\ forall token, authority (IsNewAsset tx) t a.(a_name) = Some token -> found_transfer tx.(vout) token = true.

(** The owner token of what is reissued. *)
Definition owner_of (name : bytes) : bytes :=
  (if bool_decide (name_type name = Some RESTRICTED) then drop 1 name else name) ++ OWNER_TAG.
Definition reissue_backed (tx : CTransaction) (out : CTxOut) : Prop :=
  exists r address, ReissueAssetFromScript env out.(scriptPubKey) = Some (r, address) /\ CheckReissueAsset r = Ok tt
  /\ existsb CheckReissueBurnTx tx.(vout) = true /\ found_transfer tx.(vout) (owner_of r.(r_name)) = true.

(** An owner token is created with the asset it belongs to. *)
Definition owner_backed (tx : CTransaction) (out : CTxOut) : Prop :=
  exists issue a address address', issue ∈ tx.(vout) /\ AssetFromScript env issue.(scriptPubKey) = Some (a, address)
  /\ OwnerAssetFromScript env out.(scriptPubKey) = Some (a.(a_name) ++ OWNER_TAG, address').

Definition outputs_backed (tx : CTransaction) : Prop :=
  forall out, out ∈ tx.(vout) ->
    (IsScriptNewAsset out.(scriptPubKey) = true -> issue_backed tx out)
    /\ (IsScriptOwnerAsset out.(scriptPubKey) = true -> owner_backed tx out)
    /\ (IsScriptReissueAsset out.(scriptPubKey) = true -> reissue_backed tx out).

(** One issue in the last output, and neither owner nor reissue. *)
Lemma single_issue_backed tx a address t : tx.(vout) <> [] ->
  AssetFromScript env (from_end tx.(vout) 1).(scriptPubKey) = Some (a, address) -> name_type a.(a_name) = Some t ->
  CheckNewAsset a = Ok tt -> t <> UNIQUE -> found_burn tx.(vout) t 1 = true -> one_issue tx.(vout) = true ->
  (forall token, authority (IsNewAsset tx) t a.(a_name) = Some token -> found_transfer tx.(vout) token = true) ->
  outputs_backed tx.
Proof.
  intros Hne Ea Et Hc Hu Hb Ho Ht out Hin. unfold one_issue in Ho. destruct (counts_spec tx.(vout)) as (E1 & E2 & E3).
  rewrite E1, E2, E3 in Ho. pose proof (count_if_nonneg IsScriptReissueAsset tx.(vout)).
  assert (from_end (vout tx) 1 ∈ vout tx) as Hl by (apply from_end_in; destruct (vout tx); [done|cbn; lia]).
  split_and!.
  - intros Hi. assert (out = from_end (vout tx) 1) as ->.
    { apply (count_if_one IsScriptNewAsset tx.(vout)); [lia|done..|by eapply AssetFromScript_new]. }
    exists a, address, t. split_and!; [done..| |done]. replace (type_is t UNIQUE) with false; [done|].
    symmetry. apply not_true_iff_false. by rewrite type_is_true.
  - intros Hi. by rewrite (count_if_zero IsScriptOwnerAsset tx.(vout) out) in Hi by (done || lia).
  - intros Hi. by rewrite (count_if_zero IsScriptReissueAsset tx.(vout) out) in Hi by (done || lia).
Qed.

Lemma last_in tx : tx.(vout) <> [] -> from_end tx.(vout) 1 ∈ tx.(vout).
Proof. intros. apply from_end_in. destruct (vout tx); [done|cbn; lia]. Qed.

Lemma IsNewAsset_types tx a address t : IsNewAsset tx = true ->
  AssetFromScript env (from_end tx.(vout) 1).(scriptPubKey) = Some (a, address) -> name_type a.(a_name) = Some t ->
  t <> UNIQUE /\ t <> RESTRICTED.
Proof.
  unfold IsNewAsset. intros Hk Ha Et. repeat (case_match; [done|]). apply negb_true_iff, orb_false_iff in Hk as [Hk1 Hk2].
  split; intros ->; [apply not_true_iff_false in Hk1; apply Hk1|apply not_true_iff_false in Hk2; apply Hk2];
    apply typed_spec; by eexists _, _, _.
Qed.

Lemma new_backed tx a address : tx.(vout) <> [] -> IsNewAsset tx = true -> VerifyNewAsset tx = Ok tt ->
  AssetFromTransaction tx = Some (a, address) -> CheckNewAsset a = Ok tt -> outputs_backed tx.
Proof.
  intros Hne Hk Hv Ha Hc out Hin. unfold VerifyNewAsset in Hv. passed. rename l1 into address'.
  unfold AssetFromTransaction, from_transaction in Ha. rewrite Hk in Ha. cbn [negb] in Ha.
  rewrite Ha in H3. injection H3 as <- <-.
  apply bytes_eq_spec in H5. subst l0.
  destruct (counts_spec tx.(vout)) as (E1 & E2 & E3). rewrite E1, E2, E3 in Hv.
  pose proof (count_if_nonneg IsScriptReissueAsset tx.(vout)). pose proof (last_in tx Hne) as Hl.
  assert (exists t, name_type (a_name a) = Some t) as [t Et].
  { unfold CheckNewAsset in Hc. passed. eauto. }
  rewrite (assetType_of_valid _ _ Et) in *.
  destruct (IsNewAsset_types _ _ _ _ Hk Ha Et) as [Hu Hr].
  split_and!.
  - intros Hi. assert (out = from_end (vout tx) 1) as ->.
    { apply (count_if_one IsScriptNewAsset tx.(vout)); [lia|done..|by eapply AssetFromScript_new]. }
    exists a, address, t. split_and!; [done..| |].
    + replace (type_is t UNIQUE) with false; [done|]. symmetry. apply not_true_iff_false. by rewrite type_is_true.
    + intros token. rewrite Hk. destruct t; try done. intros [= <-]. by apply require_Ok in H7.
  - intros Hi. assert (out = from_end (vout tx) 2) as ->.
    { apply (count_if_one IsScriptOwnerAsset tx.(vout)); [lia|done| |done|done].
      apply from_end_in. lia. }
    by exists (from_end (vout tx) 1), a, address, address'.
  - intros Hi. by rewrite (count_if_zero IsScriptReissueAsset tx.(vout) out) in Hi by (done || lia).
Qed.

Lemma channel_backed tx a address : tx.(vout) <> [] -> VerifyNewMsgChannelAsset tx = Ok tt ->
  MsgChannelAssetFromTransaction tx = Some (a, address) -> CheckNewAsset a = Ok tt -> outputs_backed tx.
Proof.
  intros Hne Hv Ha Hc. unfold VerifyNewMsgChannelAsset in Hv. passed.
  unfold MsgChannelAssetFromTransaction, from_transaction in Ha. destruct (IsNewMsgChannelAsset tx); [|done]. cbn [negb] in Ha.
  rewrite Ha in H2. injection H2 as <- <-. apply typed_asset_spec in Ha as (Ea & t & Et & Ex).
  cbn [existsb] in Ex. rewrite orb_false_r in Ex. apply type_is_true in Ex as ->.
  apply (single_issue_backed tx a address MSGCHANNEL); try done. intros token. cbn. case_match; [done|]. by intros [= <-].
Qed.

Lemma qualifier_backed tx a address : tx.(vout) <> [] -> VerifyNewQualfierAsset tx = Ok tt ->
  QualifierAssetFromTransaction tx = Some (a, address) -> CheckNewAsset a = Ok tt -> outputs_backed tx.
Proof.
  intros Hne Hv Ha Hc. unfold VerifyNewQualfierAsset in Hv. passed.
  unfold QualifierAssetFromTransaction, from_transaction in Ha. destruct (IsNewQualifierAsset tx); [|done]. cbn [negb] in Ha.
  rewrite Ha in H2. injection H2 as <- <-. apply typed_asset_spec in Ha as (Ea & t & Et & Ex).
  rewrite (assetType_of_valid _ _ Et) in *.
  cbn [existsb] in Ex. rewrite orb_false_r in Ex. apply orb_true_iff in Ex. rewrite !type_is_true in Ex.
  apply (single_issue_backed tx a address t); try done; [by destruct Ex; subst|].
  intros token. destruct Ex; subst t; cbn; [done|]. destruct (IsNewAsset tx); [done|]. intros [= <-]. by apply require_Ok in H4.
Qed.

Lemma restricted_backed tx a address : tx.(vout) <> [] -> VerifyNewRestrictedAsset tx = Ok tt ->
  RestrictedAssetFromTransaction tx = Some (a, address) -> CheckNewAsset a = Ok tt -> outputs_backed tx.
Proof.
  intros Hne Hv Ha Hc. unfold VerifyNewRestrictedAsset in Hv. passed.
  unfold RestrictedAssetFromTransaction, from_transaction in Ha. destruct (IsNewRestrictedAsset tx); [|done]. cbn [negb] in Ha.
  rewrite Ha in H2. injection H2 as <- <-. apply typed_asset_spec in Ha as (Ea & t & Et & Ex).
  rewrite (assetType_of_valid _ _ Et) in *.
  cbn [existsb] in Ex. rewrite orb_false_r in Ex. apply type_is_true in Ex as ->.
  apply (single_issue_backed tx a address RESTRICTED); try done. intros token [= <-].
  unfold GetParentName in *. by rewrite Et in *.
Qed.

Lemma reissues_backed tx r address : tx.(vout) <> [] -> VerifyReissueAsset tx = Ok tt ->
  ReissueAssetFromTransaction tx = Some (r, address) -> CheckReissueAsset r = Ok tt -> outputs_backed tx.
Proof.
  intros Hne Hv Ha Hc out Hin. unfold VerifyReissueAsset in Hv. passed.
  unfold ReissueAssetFromTransaction, from_transaction in Ha. destruct (IsReissueAsset tx); [|done]. cbn [negb] in Ha.
  rewrite Ha in H2. injection H2 as <- <-. destruct (counts_spec tx.(vout)) as (E1 & E2 & E3). rewrite E1, E2, E3 in Hv.
  pose proof (count_if_nonneg IsScriptNewAsset tx.(vout)). pose proof (count_if_nonneg IsScriptOwnerAsset tx.(vout)).
  split_and!.
  - intros Hi. by rewrite (count_if_zero IsScriptNewAsset tx.(vout) out) in Hi by (done || lia).
  - intros Hi. by rewrite (count_if_zero IsScriptOwnerAsset tx.(vout) out) in Hi by (done || lia).
  - intros Hi. assert (out = from_end (vout tx) 1) as ->.
    { apply (count_if_one IsScriptReissueAsset tx.(vout)); [lia|done|by apply last_in|done|done]. }
    exists r, address. split_and!; [done..|]. unfold owner_of. unfold name_type.
    replace (bool_decide _) with (type_is (nc_type (CheckAssetName (r_name r) INVALID)) RESTRICTED); [done|].
    unfold type_is. destruct (nc_valid _) eqn:Ev.
    + apply bool_decide_ext. split; congruence.
    + rewrite (bool_decide_eq_false_2 (None = _)) by done. apply bool_decide_eq_false_2. revert Ev.
      unfold CheckAssetName, type_checked. repeat case_match; done.
Qed.

Lemma unique_script s : IsScriptNewUniqueAsset env s = true ->
  exists a addr, AssetFromScript env s = Some (a, addr) /\ name_type a.(a_name) = Some UNIQUE /\ GetParentName a.(a_name) <> [].
Proof.
  intros (a & addr & t & Ea & Et & Ex)%typed_spec. cbn [existsb] in Ex. rewrite orb_false_r in Ex. apply type_is_true in Ex as ->.
  exists a, addr. split_and!; [done..|]. apply name_type_spec in Et.
  destruct (parent_path _ _ Et) as [[Hp _]%path_chars _]; [auto|done].
Qed.

Lemma unique_outputs l : forall st st', foldM unique_output st l = Ok st' ->
  st'.(assetOutpointCount) = st.(assetOutpointCount) + count_if (IsScriptNewUniqueAsset env) l
  /\ (st.(assetRoot) <> [] -> st'.(assetRoot) = st.(assetRoot))
  /\ forall o, o ∈ l -> IsScriptNewUniqueAsset env o.(scriptPubKey) = true ->
     exists a addr, AssetFromScript env o.(scriptPubKey) = Some (a, addr) /\ GetParentName a.(a_name) = st'.(assetRoot).
Proof.
  induction l as [|o l IH]; intros st st' E; cbn [foldM] in E.
  { injection E as <-. split_and!; [cbn; lia|done|]. intros o Ho. by apply not_elem_of_nil in Ho. }
  passed. rename x into st1. destruct (IH st1 st' E) as (Hc & Hr & Ho). cbn [count_if foldr].
  fold (count_if (IsScriptNewUniqueAsset env) l). unfold unique_output in H0.
  destruct (IsScriptNewUniqueAsset env (scriptPubKey o)) eqn:Eu.
  - destruct (unique_script _ Eu) as (a & addr & Ea & _ & Hp). passed. rewrite Ea in H1. injection H1 as <- <-.
    cbn [assetRoot assetOutpointCount] in *. apply bytes_eq_spec in H2.
    assert (assetRoot st' = GetParentName (a_name a)) as Er.
    { rewrite Hr; [done|]. by rewrite H2. }
    split_and!; [lia| |].
    + intros Hne. rewrite Er, <- H2. destruct (bytes_eq (assetRoot st) []) eqn:E0; [by apply bytes_eq_spec in E0|done].
    + intros o' [->|Ho']%elem_of_cons; [eauto|by apply Ho].
  - passed. split_and!; [lia|done|]. intros o' [->|Ho']%elem_of_cons; [congruence|by apply Ho].
Qed.

Lemma uniques_backed tx : tx.(vout) <> [] -> VerifyNewUniqueAsset tx = Ok tt -> all_ok check_unique_output tx.(vout) = Ok tt ->
  outputs_backed tx.
Proof.
  intros Hne Hv Hall out Hin. unfold VerifyNewUniqueAsset in Hv. passed. destruct (unique_outputs _ _ _ H1) as (Hc & _ & Hr).
  cbn [assetOutpointCount] in Hc. rewrite Z.add_0_l in Hc. destruct (counts_spec tx.(vout)) as (E1 & E2 & E3).
  rewrite E1, E2, E3, Hc in Hv. rewrite Hc in H3.
  pose proof (count_if_nonneg IsScriptOwnerAsset tx.(vout)). pose proof (count_if_nonneg IsScriptReissueAsset tx.(vout)).
  split_and!.
  - intros Hi. assert (IsScriptNewUniqueAsset env (scriptPubKey out) = true) as Hu.
    { apply (count_if_equal _ IsScriptNewAsset tx.(vout)); [|lia|done|done].
      intros s0 (a & addr & Ea & _)%unique_script. by eapply AssetFromScript_new. }
    destruct (unique_script _ Hu) as (a & addr & Ea & Et & _). destruct (Hr out Hin Hu) as (a' & addr' & Ea' & Ep).
    rewrite Ea in Ea'. injection Ea' as <- <-. exists a, addr, UNIQUE. split_and!; [done|done| | |].
    + rewrite all_ok_Ok, Forall_forall in Hall. specialize (Hall out Hin). unfold check_unique_output in Hall. rewrite Hu, Ea in Hall.
      cbn [expect mbind result_bind] in Hall. by apply checked_iff in Hall.
    + change (type_is UNIQUE UNIQUE) with true. cbn [negb]. replace (count_if IsScriptNewAsset (vout tx)) with
        (count_if (IsScriptNewUniqueAsset env) (vout tx)) by lia. done.
    + intros token [= <-]. by rewrite Ep.
  - intros Hi. by rewrite (count_if_zero IsScriptOwnerAsset tx.(vout) out) in Hi by (done || lia).
  - intros Hi. by rewrite (count_if_zero IsScriptReissueAsset tx.(vout) out) in Hi by (done || lia).
Qed.

Lemma plain_backed tx : all_ok check_plain_output tx.(vout) = Ok tt -> outputs_backed tx.
Proof.
  intros Hall out Hin. rewrite all_ok_Ok, Forall_forall in Hall. specialize (Hall out Hin). unfold check_plain_output in Hall.
  unfold IsScriptNewAsset, IsScriptOwnerAsset, IsScriptReissueAsset, asset_kind.
  destruct (IsAssetScript3 (scriptPubKey out)) as [[[ty ow] n]|]; [|done]. passed. apply Z.eqb_eq in Hall as ->. done.
Qed.

Lemma CheckTransaction_kind tx d m b : CheckTransaction tx d m b = Ok tt -> tx.(vout) <> [] /\ exists r, check_kind tx = Ok r.
Proof.
  unfold CheckTransaction. intros E. passed. split; [by destruct (vout tx)|]. eauto.
Qed.

(** The issue is the last output, or one of several unique assets. *)
Lemma issue_position tx d m b out : CheckTransaction tx d m b = Ok tt -> out ∈ tx.(vout) -> IsScriptNewAsset out.(scriptPubKey) = true ->
  out = from_end tx.(vout) 1 \/
  IsNewAsset tx = false /\ IsReissueAsset tx = false /\ IsNewUniqueAsset tx = true /\ IsScriptNewUniqueAsset env out.(scriptPubKey) = true.
Proof.
  intros [Hne [r Ek]]%CheckTransaction_kind Hin Hi.
  assert (forall l : list CTxOut, l = tx.(vout) -> count_if IsScriptNewAsset l = 1 -> CheckIssueDataTx (from_end l 1) = true -> out = from_end l 1) as Hone.
  { intros l -> Hc Hl. apply (count_if_one IsScriptNewAsset tx.(vout)); [done..|by apply last_in|done|done]. }
  destruct (counts_spec tx.(vout)) as (E1 & E2 & E3). unfold check_kind in Ek.
  destruct (IsNewAsset tx) eqn:K1.
  { passed. unfold VerifyNewAsset in H0. passed. rewrite E1 in H0. left. apply Hone; [done|lia|done]. }
  destruct (IsReissueAsset tx) eqn:K2.
  { passed. unfold VerifyReissueAsset in H0. passed. rewrite E1 in H0. pose proof (count_if_nonneg IsScriptNewAsset tx.(vout)).
    rewrite (count_if_zero IsScriptNewAsset tx.(vout) out) in Hi; [done|lia|done]. }
  destruct (IsNewUniqueAsset tx) eqn:K3.
  { right. split_and!; [done..|]. passed. unfold VerifyNewUniqueAsset in H0. passed. destruct (unique_outputs _ _ _ H3) as (Hc & _).
    cbn [assetOutpointCount] in Hc. apply (count_if_equal _ IsScriptNewAsset tx.(vout)); [|lia|done|done].
    intros s0 (a & addr & Ea & _)%unique_script. by eapply AssetFromScript_new. }
  left. unfold one_issue in *.
  destruct (IsNewMsgChannelAsset tx).
  { passed. unfold VerifyNewMsgChannelAsset, one_issue in H0. passed. rewrite E1 in H0. apply Hone; [done|lia|done]. }
  destruct (IsNewQualifierAsset tx).
  { passed. unfold VerifyNewQualfierAsset, one_issue in H0. passed. rewrite E1 in H0. apply Hone; [done|lia|done]. }
  destruct (IsNewRestrictedAsset tx).
  { passed. unfold VerifyNewRestrictedAsset, one_issue in H0. passed. rewrite E1 in H0. apply Hone; [done|lia|done]. }
  passed. destruct (plain_backed tx H0 out Hin) as [Hb _]. destruct (Hb Hi) as (a & ad & t & Ea & _).
  rewrite all_ok_Ok, Forall_forall in H0. specialize (H0 out Hin). unfold check_plain_output, IsScriptNewAsset, asset_kind in *.
  destruct (IsAssetScript3 (scriptPubKey out)) as [[[ty ow] n]|]; [|done]. passed. apply Z.eqb_eq in H0 as ->. done.
Qed.

Lemma reissue_position tx d m b out : CheckTransaction tx d m b = Ok tt -> out ∈ tx.(vout) -> IsScriptReissueAsset out.(scriptPubKey) = true ->
  out = from_end tx.(vout) 1 /\ IsNewAsset tx = false /\ IsReissueAsset tx = true.
Proof.
  intros [Hne [r Ek]]%CheckTransaction_kind Hin Hi. destruct (counts_spec tx.(vout)) as (E1 & E2 & E3).
  pose proof (count_if_nonneg IsScriptReissueAsset tx.(vout)).
  assert (count_if IsScriptReissueAsset tx.(vout) <> 0) as Hnz.
  { intros E0. by rewrite (count_if_zero _ _ _ E0 Hin) in Hi. }
  unfold check_kind, one_issue in Ek.
  destruct (IsNewAsset tx). { passed. unfold VerifyNewAsset in H1. passed. lia. }
  destruct (IsReissueAsset tx) eqn:K2.
  { passed. unfold VerifyReissueAsset in H1. passed. rewrite E3 in H1. split_and!; [|done..].
    apply (count_if_one IsScriptReissueAsset tx.(vout)); [lia|done|by apply last_in|done|done]. }
  destruct (IsNewUniqueAsset tx). { passed. unfold VerifyNewUniqueAsset in H1. passed. lia. }
  destruct (IsNewMsgChannelAsset tx). { passed. unfold VerifyNewMsgChannelAsset, one_issue in H1. passed. lia. }
  destruct (IsNewQualifierAsset tx). { passed. unfold VerifyNewQualfierAsset, one_issue in H1. passed. lia. }
  destruct (IsNewRestrictedAsset tx). { passed. unfold VerifyNewRestrictedAsset, one_issue in H1. passed. lia. }
  passed. rewrite all_ok_Ok, Forall_forall in H1. specialize (H1 out Hin). unfold check_plain_output, IsScriptReissueAsset, asset_kind in *.
  destruct (IsAssetScript3 (scriptPubKey out)) as [[[ty ow] n]|]; [|done]. passed. apply Z.eqb_eq in H1 as ->. done.
Qed.

Lemma CheckTransaction_backed tx d m b : CheckTransaction tx d m b = Ok tt -> outputs_backed tx.
Proof.
  unfold CheckTransaction. intros E. passed.
  assert (tx.(vout) <> []) as Hne by (by destruct (vout tx)).
  match goal with Hk : check_kind tx = Ok _ |- _ => rename Hk into Ek end. clear -Hne Ek. unfold check_kind in Ek.
  destruct (IsNewAsset tx) eqn:E1; [passed; by eapply new_backed|].
  destruct (IsReissueAsset tx); [passed; by eapply reissues_backed|].
  destruct (IsNewUniqueAsset tx); [passed; by apply uniques_backed|].
  destruct (IsNewMsgChannelAsset tx); [passed; by eapply channel_backed|].
  destruct (IsNewQualifierAsset tx); [passed; by eapply qualifier_backed|].
  destruct (IsNewRestrictedAsset tx); [passed; by eapply restricted_backed|].
  passed. by apply plain_backed.
Qed.

End AssetTx.
