(* ===== verification/AssetRules.v ===== *)
(** The asset rules that look at the chain: the contextual checks of
    assets/assets.cpp and [CheckTxAssets] (consensus/tx_verify.cpp), over the
    unspent outputs and what the asset cache answers.  The theorems show that an
    accepted transaction moves every asset without creating or destroying units,
    as long as the totals fit 64 bits, and that the token an issue or a reissue
    takes is one that the transaction spends; and where the rules fall short. *)

From S2P Require Import Prelude Serialize Sha256 Script Primitives Interpreter Standard AssetNames Base58 BoolEE AssetTypes Coins ProviderTx TxVerify AssetTx.
From Stdlib Require Import Ascii.

(** What the asset cache answers to the rules. *)
Record asset_view := MkAssetView {
  CheckIfAssetExists : bytes -> bool;
  GetAssetMetaDataIfExists : bytes -> option CNewAsset;
  (* name, fSkipTempCache *)
  GetAssetVerifierStringIfExists : bytes -> bool -> option bytes;
  (* with fSkipTempCache: qualifier and address, asset and address, asset *)
  CheckForAddressQualifier : bytes -> bytes -> bool;
  CheckForAddressRestriction : bytes -> bytes -> bool;
  CheckForGlobalRestriction : bytes -> bool;
}.

(** ** Encoded hashes *)

Definition hexmap : bytes := str "0123456789abcdef".
Definition HexStr (v : bytes) : bytes := mjoin ((fun x => [hexmap !!! Z.to_nat (Z.shiftr x 4); hexmap !!! Z.to_nat (Z.land x 15)]) <$> v).
Definition HexDigit (c : Z) : Z :=
  if (48 <=? c) && (c <=? 57) then c - 48
  else if (65 <=? c) && (c <=? 70) then c - 65 + 10
  else if (97 <=? c) && (c <=? 102) then c - 97 + 10
  else -1.
Definition IsHex (s : bytes) : bool :=
  forallb (fun c => negb (HexDigit c <? 0)) s && (0 <? length s)%nat && (length s mod 2 =? 0)%nat.

Definition EncodeIPFS (decoded : bytes) : bytes := default [] (EncodeBase58 decoded).
Definition EncodeAssetData (decoded : bytes) : bytes :=
  if (length decoded =? 34)%nat then EncodeIPFS decoded
  else if (length decoded =? 32)%nat then HexStr decoded
  else [].

Section Rules.
Context `{H : Hash256} `{SH : ScriptHash} (env : asset_env) (cache : asset_view).
(** The names of the mempool's issues, [mapReissuedAssets] and [GetTime()]. *)
Context (mapAssetToHash : bytes -> bool) (mapReissuedAssets : gmap (list Z) uint256) (currentTime : Z).

Definition CheckEncoded (hash : bytes) : check_result unit :=
  let encodedStr := EncodeAssetData hash in
  if bytes_eq (take 2 encodedStr) (str "Qm") && (length encodedStr =? 46)%nat then Ok tt
  else if env.(fRip5IsActive) && IsHex encodedStr && (length encodedStr =? 64)%nat then Ok tt
  else Err "Invalid parameter: ipfs_hash is not valid, or txid hash is not the right length"%string.

(** ** Verifier strings *)

Definition ContextualCheckVerifierString (verifier check_address : bytes) : result verifier_error unit :=
  if bytes_eq verifier (str "true") then Ok tt
  else
    setFoundQualifiers ← CheckVerifierString verifier;
    _ ← require (forallb (fun qualifier => CheckIfAssetExists cache (ch "#" :: qualifier)) setFoundQualifiers)
          VerifierUnknownQualifier;
    if is_nil check_address then Ok tt
    else
      let vals : gmap (list Z) bool := list_to_map
        ((fun qualifier => (qualifier, CheckForAddressQualifier cache (ch "#" :: qualifier) check_address)) <$> setFoundQualifiers) in
      match Resolve verifier vals with
      | Ok ret => require ret VerifierAddress
      | Err e => Err (VerifierContextSyntax e)
      end.

Definition verifier_check (r : result verifier_error unit) : check_result unit :=
  match r with Ok _ => Ok tt | Err e => Err (verifier_reason e) end.

(** ** Tags, freezes and verifier outputs *)

Definition VerifyQualifierChange (data : CNullAssetTxData) (address : bytes) : check_result unit :=
  _ ← VerifyNullAssetDataFlag data.(d_flag);
  let fHasQualifier := CheckForAddressQualifier cache data.(d_name) address in
  if negb (data.(d_flag) =? 0)
  then require (negb fHasQualifier) "bad-txns-null-data-add-qualifier-when-already-assigned"%string
  else require fHasQualifier "bad-txns-null-data-removing-qualifier-when-not-assigned"%string.

Definition VerifyRestrictedAddressChange (data : CNullAssetTxData) (address : bytes) : check_result unit :=
  _ ← VerifyNullAssetDataFlag data.(d_flag);
  let fIsFrozen := CheckForAddressRestriction cache data.(d_name) address in
  if negb (data.(d_flag) =? 0)
  then require (negb fIsFrozen) "bad-txns-null-data-freeze-address-when-already-frozen"%string
  else require fIsFrozen "bad-txns-null-data-unfreeze-address-when-not-frozen"%string.

Definition VerifyGlobalRestrictedChange (data : CNullAssetTxData) : check_result unit :=
  _ ← VerifyNullAssetDataFlag data.(d_flag);
  let fIsGloballyFrozen := CheckForGlobalRestriction cache data.(d_name) in
  if negb (data.(d_flag) =? 0)
  then require (negb fIsGloballyFrozen) "bad-txns-null-data-global-freeze-when-already-frozen"%string
  else require fIsGloballyFrozen "bad-txns-null-data-global-unfreeze-when-not-frozen"%string.

Definition ContextualCheckNullAssetTxOut (txout : CTxOut) : check_result unit :=
  '(data, address) ← get_or (AssetNullDataFromScript env txout.(scriptPubKey)) "bad-txns-null-asset-data-serialization";
  if IsAssetNameAQualifier data.(d_name) false then VerifyQualifierChange data address
  else if IsAssetNameAnRestricted data.(d_name) then VerifyRestrictedAddressChange data address
  else Err "bad-txns-null-asset-data-on-non-restricted-or-qualifier-asset"%string.

Definition ContextualCheckGlobalAssetTxOut (txout : CTxOut) : check_result unit :=
  data ← get_or (GlobalAssetNullDataFromScript txout.(scriptPubKey)) "bad-txns-null-global-asset-data-serialization";
  VerifyGlobalRestrictedChange data.

(** The error of the inner check is written to a variable that hides [strError]. *)
Definition ContextualCheckVerifierAssetTxOut (txout : CTxOut) : check_result unit :=
  verifier ← get_or (AssetNullVerifierDataFromScript txout.(scriptPubKey)) "bad-txns-null-verifier-data-serialization";
  match ContextualCheckVerifierString verifier.(verifier_string) [] with Ok _ => Ok tt | Err _ => Err ""%string end.

(** ** Transfers *)

Definition ContextualCheckAgainstVerifyString (transfer : CAssetTransfer) (address : bytes) : check_result unit :=
  verifier ← get_or (GetAssetVerifierStringIfExists cache transfer.(t_name) true)
    ("Verifier String doesn't exist for asset: " ++ text transfer.(t_name))%string;
  verifier_check (ContextualCheckVerifierString verifier address).

Definition ContextualCheckTransferAsset (transfer : CAssetTransfer) (address : bytes) : check_result unit :=
  assetType ← get_or (name_type transfer.(t_name))
    "Invalid parameter: asset_name must only consist of valid characters and have a size between 3 and 30 characters. See help for more details.";
  _ ← require (negb (transfer.(t_amount) <=? 0)) "Invalid parameter: asset amount can't be equal to or less than zero."%string;
  _ ← (if env.(fRip5IsActive) then
         _ ← require (negb (is_nil transfer.(t_message) && (0 <? transfer.(t_expire))))
               "Invalid parameter: asset transfer expiration time requires a message to be attached to the transfer"%string;
         _ ← require (negb (transfer.(t_expire) <? 0)) "Invalid parameter: expiration time must be a positive value"%string;
         if is_nil transfer.(t_message) then Ok tt else CheckEncoded transfer.(t_message)
       else Ok tt);
  _ ← require (negb (type_is assetType MSGCHANNEL) || env.(fRip5IsActive))
        "bad-txns-transfer-msgchannel-before-messaging-is-active"%string;
  _ ← (if type_is assetType RESTRICTED then
         _ ← require env.(fRip5IsActive) "bad-txns-transfer-restricted-before-it-is-active"%string;
         _ ← require (negb (CheckForGlobalRestriction cache transfer.(t_name)))
               "bad-txns-transfer-restricted-asset-that-is-globally-restricted"%string;
         match ContextualCheckAgainstVerifyString transfer address with Ok _ => Ok tt | Err _ => Err ""%string end
       else Ok tt);
  require (negb (type_is assetType QUALIFIER || type_is assetType SUB_QUALIFIER) || env.(fRip5IsActive))
    "bad-txns-transfer-qualifier-before-it-is-active"%string.

(** ** Issues and reissues *)

Definition ContextualCheckNewAsset (asset : CNewAsset) (fCheckMempool : bool) : check_result unit :=
  _ ← require env.(fAssetsIsActive) "bad-txns-new-asset-when-assets-is-not-active"%string;
  _ ← CheckNewAsset asset;
  _ ← require (negb (CheckIfAssetExists cache asset.(a_name)))
        ("Invalid parameter: asset_name '" ++ text asset.(a_name) ++ "' has already been used")%string;
  _ ← require (negb (fCheckMempool && mapAssetToHash asset.(a_name))) "Asset with this name is already in the mempool"%string;
  _ ← require (negb (negb (asset.(a_hasipfs) =? 0) && negb (length asset.(a_ipfs) =? 34)%nat
                     && (negb env.(fRip5IsActive) || negb (length asset.(a_ipfs) =? 32)%nat)))
        "Invalid parameter: ipfs_hash must be 46 characters. Txid must be valid 64 character hash"%string;
  if negb (asset.(a_hasipfs) =? 0) then CheckEncoded asset.(a_ipfs) else Ok tt.

Definition ContextualCheckReissueAsset (reissue_asset : CReissueAsset) (tx : CTransaction) : check_result unit :=
  '(_, strAddress) ← get_or (ReissueAssetFromTransaction env tx) "bad-txns-reissue-asset-contextual-check";
  _ ← CheckReissueAsset env reissue_asset;
  prev_asset ← get_or (GetAssetMetaDataIfExists cache reissue_asset.(r_name))
    ("Unable to reissue asset: asset_name '" ++ text reissue_asset.(r_name) ++ "' doesn't exist in the database")%string;
  _ ← require (negb (prev_asset.(a_reissuable) =? 0)) "Unable to reissue asset: reissuable is set to false"%string;
  _ ← require (negb (MAX_MONEY <? wraps 64 (prev_asset.(a_amount) + reissue_asset.(r_amount))))
        ("Unable to reissue asset: asset_name '" ++ text reissue_asset.(r_name) ++ "' the amount trying to reissue is to large")%string;
  _ ← require (CheckAmountWithUnits reissue_asset.(r_amount) prev_asset.(a_units))
        "Unable to reissue asset: amount must be divisible by the smaller unit assigned to the asset"%string;
  _ ← require (negb ((reissue_asset.(r_units) <? prev_asset.(a_units)) && negb (reissue_asset.(r_units) =? -1)))
        "Unable to reissue asset: unit must be larger than current unit selection"%string;
  _ ← require (negb (negb (is_nil reissue_asset.(r_ipfs)) && negb (length reissue_asset.(r_ipfs) =? 34)%nat
                     && (env.(fRip5IsActive) && negb (length reissue_asset.(r_ipfs) =? 32)%nat)))
        "Invalid parameter: ipfs_hash must be 34 bytes, Txid must be 32 bytes"%string;
  _ ← (if is_nil reissue_asset.(r_ipfs) then Ok tt else CheckEncoded reissue_asset.(r_ipfs));
  if IsAssetNameAnRestricted reissue_asset.(r_name) then
    match GetVerifierStringFromTx tx with
    | Err (e, false) => Err e
    | Err (_, true) =>
      if 0 <? reissue_asset.(r_amount) then
        current_verifier ← get_or (GetAssetVerifierStringIfExists cache reissue_asset.(r_name) false)
          "failed to get verifier string from a restricted asset, database is out of sync. Reindex required. Please report this is to development team";
        verifier_check (ContextualCheckVerifierString current_verifier strAddress)
      else Ok tt
    | Ok new_verifier =>
      if 0 <? reissue_asset.(r_amount)
      then verifier_check (ContextualCheckVerifierString new_verifier.(verifier_string) strAddress)
      else Ok tt
    end
  else Ok tt.

Definition ContextualCheckUniqueAsset (unique_asset : CNewAsset) : check_result unit := ContextualCheckNewAsset unique_asset false.
Definition ContextualCheckUniqueAssetTx (tx : CTransaction) : check_result unit :=
  foldM (fun _ out =>
    if IsScriptNewUniqueAsset env out.(scriptPubKey) then
      '(asset, _) ← get_or (AssetFromScript env out.(scriptPubKey)) "bad-txns-issue-unique-serialization-failed";
      ContextualCheckUniqueAsset asset
    else Ok tt) tt tx.(vout).

(** ** [CheckTxAssets] *)

Abbreviation totals := (gmap (list Z) Z) (only parsing).

(** [totals.at(name) += nAmount] or an insertion. *)
Definition add_total (m : totals) (name : bytes) (nAmount : Z) : totals :=
  match m !! name with
  | Some n => <[name := wraps 64 (n + nAmount)]> m
  | None => <[name := nAmount]> m
  end.

(** The coins the transaction spends: what they hold and who held the first of
    each asset. *)
Definition asset_input (st : totals * gmap (list Z) bytes) (c : Coin) : result tx_failure (totals * gmap (list Z) bytes) :=
  if IsAssetScript c.(out).(scriptPubKey) then
    data ← expect (GetAssetData env c.(out).(scriptPubKey)) "bad-txns-failed-to-get-asset-from-script";
    let totalInputs := add_total st.1 data.(o_name) data.(o_amount) in
    let address := default [] (EncodeDestination env.(e_prefixes) data.(o_destination)) in
    let mapAddresses :=
      if env.(fRip5IsActive) then (match st.2 !! data.(o_name) with Some _ => st.2 | None => <[data.(o_name) := address]> st.2 end)
      else st.2 in
    _ ← must (negb (IsAssetNameAnRestricted data.(o_name) && CheckForAddressRestriction cache data.(o_name) address))
          "bad-txns-restricted-asset-transfer-from-frozen-address";
    Ok (totalInputs, mapAddresses)
  else Ok st.

Section Coins.
Context (base : CCoinsView).

Fixpoint asset_inputs (coins : CCoinsMap) (ins : list CTxIn) (st : totals * gmap (list Z) bytes)
  : result tx_failure (totals * gmap (list Z) bytes) * CCoinsMap :=
  match ins with
  | [] => (Ok st, coins)
  | txin :: ins' =>
    let '(c, coins) := AccessCoin base coins txin.(prevout) in
    if IsSpent c then (Err Asserts, coins)
    else match asset_input st c with
    | Ok st => asset_inputs coins ins' st
    | Err e => (Err e, coins)
    end
  end.

(** A message that a transfer publishes. *)
Record CMessage := MkMessage { m_out : COutPoint; m_name : bytes; m_ipfs : bytes; m_expired : Z; m_time : Z }.

(** The variables of the loop over the outputs. *)
Record rules_state := MkRules {
  totalOutputs : totals; vPairReissueAssets : list (bytes * uint256); setMessages : list CMessage; index : Z;
}.

(** Tags, freezes and verifier strings. *)
Definition rules_null (txout : CTxOut) : result tx_failure unit :=
  let s := txout.(scriptPubKey) in
  if IsNullAsset s then
    _ ← must env.(fRip5IsActive) "bad-tx-null-asset-data-before-restricted-assets-activated";
    if IsNullAssetTxDataScript s then checked "" (ContextualCheckNullAssetTxOut txout)
    else if IsNullGlobalRestrictionAssetTxDataScript s then checked "" (ContextualCheckGlobalAssetTxOut txout)
    else if IsNullAssetVerifierTxDataScript s then checked "" (ContextualCheckVerifierAssetTxOut txout)
    else bad "bad-tx-null-asset-data-unknown-type"
  else Ok tt.

(** Owner tokens come as one, other assets in their units. *)
Definition transfer_units (transfer : CAssetTransfer) : result tx_failure unit :=
  if IsAssetNameAnOwner transfer.(t_name)
  then must (transfer.(t_amount) =? OWNER_ASSET_AMOUNT) "bad-txns-transfer-owner-amount-was-not-1"
  else
    asset ← expect (GetAssetMetaDataIfExists cache transfer.(t_name)) "bad-txns-transfer-asset-not-exist";
    _ ← must (bytes_eq asset.(a_name) transfer.(t_name)) "bad-txns-asset-database-corrupted";
    must (CheckAmountWithUnits transfer.(t_amount) asset.(a_units)) "bad-txns-transfer-asset-amount-not-match-units".

(** Whether the transfer publishes a message: the sender sends to itself. *)
Definition publishes (fMessaging : bool) (mapAddresses : gmap (list Z) bytes) (transfer : CAssetTransfer) (address : bytes) : bool :=
  env.(fRip5IsActive) && fMessaging
  && (IsAssetNameAnOwner transfer.(t_name) || IsAssetNameAnMsgChannel transfer.(t_name))
  && negb (is_nil transfer.(t_message))
  && ((transfer.(t_expire) =? 0) || (currentTime <? transfer.(t_expire)))
  && bool_decide (mapAddresses !! transfer.(t_name) = Some address).

Definition rules_output (fMessaging : bool) (nBlocktime : Z) (txid : uint256) (mapAddresses : gmap (list Z) bytes)
  (st : rules_state) (txout : CTxOut) : result tx_failure rules_state :=
  let kind := IsAssetScript3 txout.(scriptPubKey) in
  let nType := match kind with Some (t, _, _) => t | None => 0 end in
  _ ← must (negb (is_some kind && negb env.(fAssetsIsActive))) "bad-txns-is-asset-and-asset-not-active";
  _ ← rules_null txout;
  if nType =? TX_TRANSFER_ASSET then
    '(transfer, address) ← expect (TransferAssetFromScript env txout.(scriptPubKey)) "bad-tx-asset-transfer-bad-deserialize";
    _ ← checked "" (ContextualCheckTransferAsset transfer address);
    _ ← transfer_units transfer;
    Ok (MkRules (add_total st.(totalOutputs) transfer.(t_name) transfer.(t_amount)) st.(vPairReissueAssets)
          (if publishes fMessaging mapAddresses transfer address
           then MkMessage (MkOutPoint txid st.(index)) transfer.(t_name) transfer.(t_message) transfer.(t_expire) nBlocktime :: st.(setMessages)
           else st.(setMessages)) (st.(index) + 1))
  else if nType =? TX_REISSUE_ASSET then
    '(reissue, _) ← expect (ReissueAssetFromScript env txout.(scriptPubKey)) "bad-tx-asset-reissue-bad-deserialize";
    match mapReissuedAssets !! reissue.(r_name) with
    | Some h =>
      _ ← must (h =? txid) "bad-tx-reissue-chaining-not-allowed";
      Ok (MkRules st.(totalOutputs) st.(vPairReissueAssets) st.(setMessages) (st.(index) + 1))
    | None => Ok (MkRules st.(totalOutputs) (st.(vPairReissueAssets) ++ [(reissue.(r_name), txid)]) st.(setMessages) (st.(index) + 1))
    end
  else Ok (MkRules st.(totalOutputs) st.(vPairReissueAssets) st.(setMessages) (st.(index) + 1)).

Definition rules_plain_output (out : CTxOut) : result tx_failure unit :=
  match IsAssetScript3 out.(scriptPubKey) with
  | Some (nType, _, _) => must (nType =? TX_TRANSFER_ASSET) "bad-txns-bad-asset-transaction"
  | None =>
    if Find out.(scriptPubKey) OP_RVN_ASSET =? 0 then Ok tt
    else if env.(fRip5IsActive)
    then must (at_ out.(scriptPubKey) 0 =? OP_RVN_ASSET) "bad-txns-op-rvn-asset-not-in-right-script-location"
    else bad "bad-txns-bad-asset-script"
  end.

(** The checks of the kind of the transaction. *)
Definition rules_kind (tx : CTransaction) (fCheckMempool : bool) : result tx_failure unit :=
  if IsNewAsset env tx then
    '(asset, _) ← expect (AssetFromScript env (from_end tx.(vout) 1).(scriptPubKey)) "bad-txns-issue-serialzation-failed";
    checked "" (ContextualCheckNewAsset asset fCheckMempool)
  else if IsReissueAsset tx then
    '(reissue_asset, _) ← expect (ReissueAssetFromScript env (from_end tx.(vout) 1).(scriptPubKey)) "bad-txns-reissue-serialzation-failed";
    checked "bad-txns-reissue-contextual-" (ContextualCheckReissueAsset reissue_asset tx)
  else if IsNewUniqueAsset env tx then
    checked "bad-txns-issue-unique-contextual-" (ContextualCheckUniqueAssetTx tx)
  else if IsNewMsgChannelAsset env tx then
    _ ← must env.(fRip5IsActive) "bad-txns-issue-msgchannel-before-messaging-is-active";
    '(asset, _) ← expect (MsgChannelAssetFromTransaction env tx) "bad-txns-issue-msgchannel-serialzation-failed";
    checked "bad-txns-issue-msgchannel-contextual-" (ContextualCheckNewAsset asset fCheckMempool)
  else if IsNewQualifierAsset env tx then
    _ ← must env.(fRip5IsActive) "bad-txns-issue-qualifier-before-it-is-active";
    '(asset, _) ← expect (QualifierAssetFromTransaction env tx) "bad-txns-issue-qualifier-serialzation-failed";
    checked "bad-txns-issue-qualfier-contextual" (ContextualCheckNewAsset asset fCheckMempool)
  else if IsNewRestrictedAsset env tx then
    _ ← must env.(fRip5IsActive) "bad-txns-issue-restricted-before-it-is-active";
    '(asset, strAddress) ← expect (RestrictedAssetFromTransaction env tx) "bad-txns-issue-restricted-serialzation-failed";
    _ ← checked "bad-txns-issue-restricted-contextual" (ContextualCheckNewAsset asset fCheckMempool);
    verifier ← match GetVerifierStringFromTx tx with
               | Ok v => Ok v
               | Err e => bad ("bad-txns-issue-restricted-verifier-search-" ++ e.1)%string
               end;
    checked "" (verifier_check (ContextualCheckVerifierString verifier.(verifier_string) strAddress))
  else all_ok rules_plain_output tx.(vout).

(** The comparison of the totals, in the order of the names. *)
Definition check_total (totalInputs : totals) (outValue : bytes * Z) : result tx_failure unit :=
  match totalInputs !! outValue.1 with
  | None => bad ("bad-tx-inputs-outputs-mismatch Bad Transaction - Trying to create outpoint for asset that you don't have: "
                 ++ text outValue.1)%string
  | Some n => must (n =? outValue.2)
                ("bad-tx-inputs-outputs-mismatch Bad Transaction - Assets would be burnt " ++ text outValue.1)%string
  end.
Definition name_leP (a b : bytes * Z) : Prop := bytes_leP a.1 b.1.
#[export] Instance name_leP_dec a b : Decision (name_leP a b) := bytes_leP_dec _ _.
Definition check_totals (totalInputs totalOutputs : totals) : result tx_failure unit :=
  _ ← all_ok (check_total totalInputs) (merge_sort name_leP (map_to_list totalOutputs));
  must (stdpp.base.size totalOutputs =? stdpp.base.size totalInputs)%nat "bad-tx-asset-inputs-size-does-not-match-outputs-size".

(** With the cache that is passed to it: the names that are reissued and the
    messages; the coins are read through the cache. *)
Definition CheckTxAssets (fCheckMempool fMessaging : bool) (nBlocktime : Z) (coins : CCoinsMap) (tx : CTransaction)
  : result tx_failure (list (bytes * uint256) * list CMessage) * CCoinsMap :=
  let '(have, coins) := HaveInputs base coins tx in
  if negb have then (bad "bad-txns-inputs-missing-or-spent", coins)
  else
    let '(r, coins) := asset_inputs coins tx.(vin) (∅, ∅) in
    ('(totalInputs, mapAddresses) ← r;
     st ← foldM (rules_output fMessaging nBlocktime (GetHash tx) mapAddresses) (MkRules ∅ [] [] 0) tx.(vout);
     _ ← rules_kind tx fCheckMempool;
     _ ← check_totals totalInputs st.(totalOutputs);
     Ok (st.(vPairReissueAssets), st.(setMessages)), coins).

(** ** Totals *)

(** What [totalInputs] and [totalOutputs] hold after adding the entries. *)
Definition tally (l : list (bytes * Z)) (m : totals) : totals := foldl (fun m p => add_total m p.1 p.2) m l.
Definition units (name : bytes) (l : list (bytes * Z)) : Z :=
  foldr (fun p acc => (if bool_decide (p.1 = name) then p.2 else 0) + acc) 0 l.
Definition names (l : list (bytes * Z)) : list bytes := l.*1.

Lemma wraps_add_l w a b : 0 < w -> wraps w (wraps w a + b) = wraps w (a + b).
Proof.
  intros Hw. unfold wraps at 1 3. f_equal. rewrite <- Z.add_assoc, <- (Z.add_mod_idemp_l (wraps w a)), wraps_mod by lia.
  rewrite Z.add_mod_idemp_l by lia. f_equal. lia.
Qed.

Lemma wraps_twice w a : 0 < w -> wraps w (wraps w a) = wraps w a.
Proof. intros Hw. pose proof (wraps_add_l w a 0 Hw) as E. by rewrite !Z.add_0_r in E. Qed.

Lemma units_out name l : name ∉ names l -> units name l = 0.
Proof.
  induction l as [|[n a] l IH]; intros Hn; [done|]. cbn in *. apply not_elem_of_cons in Hn as [H1 H2].
  rewrite bool_decide_eq_false_2 by done. fold (units name l). by rewrite (IH H2).
Qed.

Lemma tally_lookup l name : forall m, Forall (fun p => in_s 64 p.2 = true) l ->
  (forall n, m !! name = Some n -> wraps 64 n = n) ->
  tally l m !! name =
    if bool_decide (name ∈ names l) then Some (wraps 64 (default 0 (m !! name) + units name l)) else m !! name.
Proof.
  clear mapAssetToHash. induction l as [|[n a] l IH]; intros m Hr Hm; [done|]. apply Forall_cons in Hr as [Ha Hr]. cbn in Ha.
  assert (wraps 64 a = a) as Ea. { unfold in_s in Ha. rewrite wraps_id; lia. }
  change (tally ((n, a) :: l) m) with (tally l (add_total m n a)). rewrite IH; [|done|].
  - unfold add_total. cbn [names units foldr fst snd fmap list_fmap]. fold (units name l) (names l).
    destruct (decide (n = name)) as [->|Hne].
    + rewrite (bool_decide_eq_true_2 (name ∈ name :: _)) by (left). rewrite (bool_decide_eq_true_2 (name = name)) by done.
      destruct (m !! name) as [x|] eqn:Ex; rewrite lookup_insert_eq; cbn [default id].
      * rewrite wraps_add_l by lia. rewrite Z.add_assoc. case_bool_decide as Hin; [done|].
        rewrite (units_out name l Hin), Z.add_0_r. done.
      * case_bool_decide as Hin; [by rewrite Z.add_0_l|]. rewrite (units_out name l Hin), Z.add_0_r, Z.add_0_l. by rewrite Ea.
    + rewrite (bool_decide_eq_false_2 (n = name)) by done. rewrite Z.add_0_l.
      assert ((match m !! n with Some n0 => <[n := wraps 64 (n0 + a)]> m | None => <[n := a]> m end) !! name = m !! name) as ->
        by (destruct (m !! n); by rewrite lookup_insert_ne).
      assert (bool_decide (name ∈ n :: names l) = bool_decide (name ∈ names l)) as ->; [|done].
      apply bool_decide_ext. rewrite elem_of_cons. split; [by intros [->|?]|by right].
  - intros x. unfold add_total. destruct (decide (n = name)) as [->|Hne].
    + destruct (m !! name); rewrite lookup_insert_eq; intros [= <-]; [|done]. by apply wraps_twice.
    + destruct (m !! n); rewrite lookup_insert_ne by done; apply Hm.
Qed.

Lemma check_totals_Ok (ti to : totals) : check_totals ti to = Ok tt <-> ti = to.
Proof.
  unfold check_totals. rewrite seq_Ok, must_Ok, all_ok_Ok, merge_sort_Permutation, Forall_forall. split.
  - intros [Hall Hs]. symmetry. apply map_subseteq_size_eq; [|apply Nat.eqb_eq in Hs; lia].
    apply map_subseteq_spec. intros name n Hn. specialize (Hall (name, n)). rewrite elem_of_map_to_list in Hall.
    specialize (Hall Hn). unfold check_total in Hall. cbn [fst snd] in Hall. destruct (ti !! name) as [x|]; [|done].
    apply must_Ok, Z.eqb_eq in Hall. by subst.
  - intros ->. split; [|by rewrite Nat.eqb_refl]. intros [name n] Hn%elem_of_map_to_list. unfold check_total. cbn [fst snd].
    rewrite Hn. by rewrite Z.eqb_refl.
Qed.

(** ** What the transaction spends and what it moves *)

Definition coin_entry (k : Coin) : list (bytes * Z) :=
  if IsAssetScript k.(out).(scriptPubKey) then
    match GetAssetData env k.(out).(scriptPubKey) with Some d => [(d.(o_name), d.(o_amount))] | None => [] end
  else [].
Definition assets_in (ks : list Coin) : list (bytes * Z) := mjoin (coin_entry <$> ks).

Definition transfer_entry (o : CTxOut) : list (bytes * Z) :=
  match TransferAssetFromScript env o.(scriptPubKey) with Some (t, _) => [(t.(t_name), t.(t_amount))] | None => [] end.
Definition assets_out (vout : list CTxOut) : list (bytes * Z) := mjoin (transfer_entry <$> vout).

Lemma amount_range {A} (k : Z -> reader A) s r :
  (de i64 ≫= k) s = Ok r -> exists a s', in_s 64 a = true /\ k a s' = Ok r.
Proof.
  destruct r as [x rest]. intros (a & s' & E & Hk)%bind_inv. exists a, s'. split; [|done].
  cbn in E. unfold ser_readdata_signed in E. inv_reader. by apply wraps_range.
Qed.

Lemma transfer_range s t rest : de c_transfer s = Ok (t, rest) -> in_s 64 t.(t_amount) = true.
Proof.
  cbn [de c_transfer]. intros (n & s1 & _ & H1)%bind_inv. apply amount_range in H1 as (a & s2 & Ha & H2).
  apply bind_inv in H2 as (p & s3 & _ & H2). apply bind_inv in H2 as (e & s4 & _ & H2). by injection H2 as <- <-.
Qed.
Lemma newasset_range s t rest : de c_newasset s = Ok (t, rest) -> in_s 64 t.(a_amount) = true.
Proof.
  cbn [de c_newasset]. intros (n & s1 & _ & H1)%bind_inv. apply amount_range in H1 as (a & s2 & Ha & H2).
  do 4 (apply bind_inv in H2 as (? & ? & _ & H2)). by injection H2 as <- <-.
Qed.
Lemma reissue_range s t rest : de c_reissue s = Ok (t, rest) -> in_s 64 t.(r_amount) = true.
Proof.
  cbn [de c_reissue]. intros (n & s1 & _ & H1)%bind_inv. apply amount_range in H1 as (a & s2 & Ha & H2).
  do 3 (apply bind_inv in H2 as (? & ? & _ & H2)). by injection H2 as <- <-.
Qed.

Lemma read_from_range {A} (C : Codec A) (f : A -> Z) s n a :
  (forall s a rest, de C s = Ok (a, rest) -> in_s 64 (f a) = true) -> read_from C s n = Some a -> in_s 64 (f a) = true.
Proof. unfold read_from. intros HC. destruct (de C (drop n s)) as [[a' rest]|] eqn:E; [|done]. intros [= <-]. by eapply HC. Qed.

Lemma read_range {A} (C : Codec A) (f : A -> Z) b s n (address : bytes) a ad :
  (forall s a rest, de C s = Ok (a, rest) -> in_s 64 (f a) = true) ->
  (if negb b then None else x ← read_from C s n; Some (x, address)) = Some (a, ad) -> in_s 64 (f a) = true.
Proof.
  intros HC. destruct b; [|done]. cbn [negb]. intros (x & E & [= <- <-])%bind_Some. by eapply (read_from_range C f).
Qed.

Lemma asset_data_range s d : GetAssetData env s = Some d -> in_s 64 d.(o_amount) = true.
Proof.
  unfold GetAssetData. destruct (IsAssetScript3 s) as [[[ty ow] n]|]; [|done].
  destruct (_ && _).
  { intros ([a ad] & Ea & [= <-])%bind_Some. eapply (read_range c_newasset a_amount); [apply newasset_range|exact Ea]. }
  destruct (ty =? TX_TRANSFER_ASSET).
  { intros ([a ad] & Ea & [= <-])%bind_Some. eapply (read_range c_transfer t_amount); [apply transfer_range|exact Ea]. }
  destruct (_ && _). { by intros ([a ad] & Ea & [= <-])%bind_Some. }
  destruct (ty =? TX_REISSUE_ASSET); [|done].
  intros ([a ad] & Ea & [= <-])%bind_Some. eapply (read_range c_reissue r_amount); [apply reissue_range|exact Ea].
Qed.

Lemma entries_in_range ks : Forall (fun p => in_s 64 p.2 = true) (assets_in ks).
Proof.
  unfold assets_in. induction ks as [|k ks IH]; [constructor|]. cbn. apply Forall_app. split; [|done]. unfold coin_entry.
  destruct (IsAssetScript _); [|constructor]. destruct (GetAssetData _ _) eqn:E; [|constructor].
  constructor; [|constructor]. by eapply asset_data_range.
Qed.
Lemma entries_out_range l : Forall (fun p => in_s 64 p.2 = true) (assets_out l).
Proof.
  unfold assets_out. induction l as [|o l IH]; [constructor|]. cbn. apply Forall_app. split; [|done]. unfold transfer_entry.
  destruct (TransferAssetFromScript _ _) as [[t ad]|] eqn:E; [|constructor].
  constructor; [|constructor]. eapply (read_range c_transfer t_amount); [apply transfer_range|exact E].
Qed.

(** A coin of a restricted asset that is not frozen where it is held. *)
Definition not_frozen (k : Coin) : Prop :=
  IsAssetScript k.(out).(scriptPubKey) = true -> exists d, GetAssetData env k.(out).(scriptPubKey) = Some d
  /\ (IsAssetNameAnRestricted d.(o_name) = true ->
      CheckForAddressRestriction cache d.(o_name) (default [] (EncodeDestination env.(e_prefixes) d.(o_destination))) = false).

Lemma asset_input_spec st k :
  (exists r, asset_input st k = Err (Rejects r)) \/
  exists st', asset_input st k = Ok st' /\ st'.1 = tally (coin_entry k) st.1 /\ not_frozen k.
Proof.
  unfold asset_input, coin_entry, not_frozen. destruct (IsAssetScript _); [|right; by exists st].
  destruct (GetAssetData _ _) as [d|]; [|left; by eexists]. cbn [expect mbind result_bind].
  unfold must. destruct (negb _) eqn:E; [|left; by eexists]. cbn [mbind result_bind]. right. eexists. split; [done|].
  split; [done|]. intros _. exists d. split; [done|]. intros Hr. rewrite Hr in E. cbn in E. by apply negb_true_iff in E.
Qed.

Lemma asset_inputs_spec ins : forall c st ks, cache_ok base c -> spent_coins (view base c) ins = Some ks ->
  let r := asset_inputs c ins st in
  reads base c r.2 /\ r.1 <> Err Asserts /\ r.1 <> Err Throws /\
  forall st', r.1 = Ok st' -> st'.1 = tally (assets_in ks) st.1 /\ Forall not_frozen ks.
Proof.
  induction ins as [|i ins IH]; intros c st ks Hc Hs.
  { injection Hs as <-. split_and!; [by apply reads_refl|done|done|]. intros st' [= <-]. split; [done|constructor]. }
  unfold spent_coins in Hs. cbn [mapM] in Hs. apply bind_Some in Hs as (k & Hk & Hs).
  apply bind_Some in Hs as (ks' & Hks & [= <-]). cbn [asset_inputs].
  pose proof (AccessCoin_cases base c (prevout i) Hc) as Ha. destruct (AccessCoin base c (prevout i)) as [k' c1].
  destruct Ha as [Hr Ha]. destruct (IsSpent k'); [congruence|]. assert (k' = k) as -> by congruence.
  destruct (asset_input_spec st k) as [[r ->]|(st1 & -> & Et & Hf)]; [done|].
  destruct (IH c1 st1 ks') as (Hr2 & Ha2 & Ht2 & IHr); [apply Hr| |].
  { rewrite (spent_coins_ext _ (view base c)) by apply Hr. done. }
  cbn. split_and!; [by eapply reads_trans|done|done|]. intros st' E. destruct (IHr st' E) as [-> HF].
  split; [|by constructor]. rewrite Et. unfold assets_in, tally. cbn. by rewrite foldl_app.
Qed.

(** What the loop has checked of an output. *)
Definition output_allowed (o : CTxOut) : Prop :=
  (IsAssetScript o.(scriptPubKey) = true -> env.(fAssetsIsActive) = true) /\ rules_null o = Ok tt /\
  forall t address, TransferAssetFromScript env o.(scriptPubKey) = Some (t, address) ->
    ContextualCheckTransferAsset t address = Ok tt /\ transfer_units t = Ok tt.

Lemma transfer_kind s t ad : TransferAssetFromScript env s = Some (t, ad) -> exists o n, IsAssetScript3 s = Some (TX_TRANSFER_ASSET, o, n).
Proof.
  unfold TransferAssetFromScript, IsScriptTransferAsset, asset_kind. destruct (IsAssetScript3 s) as [[[ty ow] n]|]; [|done].
  destruct (ty =? _) eqn:E; [|done]. apply Z.eqb_eq in E as ->. eauto.
Qed.

Lemma rules_output_spec fm bt h ma st o st' : rules_output fm bt h ma st o = Ok st' ->
  st'.(totalOutputs) = tally (transfer_entry o) st.(totalOutputs) /\ output_allowed o.
Proof.
  unfold rules_output, output_allowed, transfer_entry. intros E. apply bind_Ok in E as ([] & Ha & E). apply must_Ok in Ha.
  apply bind_Ok in E as ([] & Hn & E). unfold IsAssetScript.
  destruct (IsAssetScript3 (scriptPubKey o)) as [[[ty ow] n]|] eqn:Es.
  - cbn [is_some andb] in Ha. assert (fAssetsIsActive env = true) as Hac by (by destruct (fAssetsIsActive env)).
    destruct (ty =? TX_TRANSFER_ASSET) eqn:E1.
    + passed. rewrite H0. split; [done|]. split_and!; [done..|]. by intros t address [= <- <-].
    + assert (TransferAssetFromScript env (scriptPubKey o) = None) as Et.
      { destruct (TransferAssetFromScript env (scriptPubKey o)) as [[t ad]|] eqn:Et; [|done].
        apply transfer_kind in Et as (o' & n' & Et). rewrite Es in Et. injection Et as -> _ _. done. }
      rewrite Et. split; [|done]. destruct (ty =? TX_REISSUE_ASSET); [|by injection E as <-]. passed. case_match; by passed.
  - assert (TransferAssetFromScript env (scriptPubKey o) = None) as Et.
    { destruct (TransferAssetFromScript env (scriptPubKey o)) as [[t ad]|] eqn:Et; [|done].
      apply transfer_kind in Et as (o' & n' & Et). congruence. }
    rewrite Et. split; [|done]. cbn in E. by injection E as <-.
Qed.

Lemma rules_outputs_spec fm bt h ma l : forall st st', foldM (rules_output fm bt h ma) st l = Ok st' ->
  st'.(totalOutputs) = tally (assets_out l) st.(totalOutputs) /\ Forall output_allowed l.
Proof.
  induction l as [|o l IH]; intros st st' E; cbn [foldM] in E; [injection E as <-; split; [done|constructor]|].
  apply bind_Ok in E as (st1 & E1 & E). apply rules_output_spec in E1 as [E1 Ho]. apply IH in E as [E HF].
  split; [|by constructor]. rewrite E, E1. unfold assets_out, tally. cbn. by rewrite foldl_app.
Qed.

Lemma rules_rejecting fm bt h ma st o : rejecting (rules_output fm bt h ma st o).
Proof. unfold rules_output, rules_null, transfer_units. rejecting. Qed.
Lemma rules_kind_rejecting tx m : rejecting (rules_kind tx m).
Proof. unfold rules_kind, rules_plain_output, all_ok. rejecting. Qed.
Lemma check_totals_rejecting ti to : rejecting (check_totals ti to).
Proof. unfold check_totals, check_total, all_ok. rejecting. Qed.

Lemma CheckTxAssets_spec fcm fm bt c tx : cache_ok base c -> IsCoinBase tx = false ->
  let r := CheckTxAssets fcm fm bt c tx in
  reads base c r.2 /\ rejecting r.1 /\
  (is_ok r.1 = true -> exists ks, spent_coins (view base c) tx.(vin) = Some ks
     /\ tally (assets_in ks) ∅ = tally (assets_out tx.(vout)) ∅ /\ Forall not_frozen ks
     /\ Forall output_allowed tx.(vout) /\ rules_kind tx fcm = Ok tt).
Proof.
  intros Hc Hcb. unfold CheckTxAssets. destruct (HaveInputs_spec base c tx Hc Hcb) as [Hr Hh].
  destruct (HaveInputs base c tx) as [have c1]. cbn [fst snd] in *. subst have.
  destruct (spent_coins (view base c) (vin tx)) as [ks|] eqn:Es; cbn [negb]; cycle 1.
  { split_and!; [done|apply rejecting_bad|done]. }
  destruct (asset_inputs_spec tx.(vin) c1 (∅, ∅) ks) as (Hr2 & Ha & Ht & Hi); [apply Hr| |].
  { rewrite (spent_coins_ext _ (view base c)) by apply Hr. done. }
  destruct (asset_inputs c1 (vin tx) (∅, ∅)) as [r c2]. cbn [fst snd] in *. split; [by eapply reads_trans|].
  destruct r as [[ti ma]|e]; cbn [mbind result_bind]; cycle 1.
  { split; [|done]. intros e' [= <-]. destruct e; [by eexists|done|done]. }
  destruct (Hi _ eq_refl) as [Et HF]. cbn [fst] in Et. split.
  { apply rejecting_bind; [apply rejecting_foldM; intros; apply rules_rejecting|]. intros st.
    apply rejecting_bind; [apply rules_kind_rejecting|]. intros _.
    apply rejecting_bind; [apply check_totals_rejecting|]. intros _. apply rejecting_ok. }
  destruct (foldM _ _ _) as [st|e] eqn:Ef; [|done]. cbn [mbind result_bind].
  apply rules_outputs_spec in Ef as [Eo HO]. cbn [totalOutputs] in Eo.
  destruct (rules_kind tx fcm) as [[]|e] eqn:Ek; [|done]. cbn [mbind result_bind].
  destruct (check_totals ti (totalOutputs st)) as [[]|e] eqn:Ec; [|done]. intros _.
  apply check_totals_Ok in Ec. exists ks. split_and!; [done| |done..]. by rewrite <- Et, <- Eo.
Qed.

(** Equal tallies: the same assets, and the same units up to the width of the totals. *)
Lemma tally_eq l l' : Forall (fun p => in_s 64 p.2 = true) l -> Forall (fun p => in_s 64 p.2 = true) l' ->
  tally l ∅ = tally l' ∅ -> forall name, (name ∈ names l <-> name ∈ names l') /\ wraps 64 (units name l) = wraps 64 (units name l').
Proof.
  intros Hl Hl' E name. assert (tally l ∅ !! name = tally l' ∅ !! name) as En by (by rewrite E).
  rewrite !tally_lookup, lookup_empty in En by done. cbn [default] in En. rewrite !Z.add_0_l in En.
  repeat case_bool_decide; try done; [split; [done|by injection En]|]. by rewrite !units_out.
Qed.

(** Assets are conserved.  A transaction that [CheckTxAssets] accepts spends
    coins that are all there, and for every asset name it spends that asset exactly
    when it transfers it, with the same number of units modulo 2^64; where both
    totals fit in 63 bits they are equal, so that no unit appears or disappears. *)
Theorem assets_conserved fcm fm bt c tx r coins' : cache_ok base c -> IsCoinBase tx = false ->
  CheckTxAssets fcm fm bt c tx = (Ok r, coins') ->
  exists ks, spent_coins (view base c) tx.(vin) = Some ks /\ forall name,
    let i := units name (assets_in ks) in let o := units name (assets_out tx.(vout)) in
    (name ∈ names (assets_in ks) <-> name ∈ names (assets_out tx.(vout))) /\
    wraps 64 i = wraps 64 o /\ (0 <= i < 2 ^ 63 -> 0 <= o < 2 ^ 63 -> i = o).
Proof.
  intros Hc Hcb E. destruct (CheckTxAssets_spec fcm fm bt c tx Hc Hcb) as (_ & _ & Hs).
  destruct Hs as (ks & Hks & Ht & _); [by rewrite E|]. exists ks. split; [done|]. intros name.
  destruct (tally_eq _ _ (entries_in_range ks) (entries_out_range tx.(vout)) Ht name) as [Hn Hw].
  split_and!; [done..|]. intros Hi Ho. rewrite !wraps_id in Hw by lia. done.
Qed.

Lemma found_transfer_out l token : found_transfer env l token = true -> token ∈ names (assets_out l).
Proof.
  unfold found_transfer, assets_out. induction l as [|o l IH]; [done|]. cbn. unfold names. rewrite fmap_app, elem_of_app.
  unfold transfer_entry at 1. intros [Ho|Hl]%orb_true_iff; [|right; by apply IH]. left.
  destruct (TransferAssetFromScript env (scriptPubKey o)) as [[t ad]|]; [|done]. apply bytes_eq_spec in Ho as ->. by left.
Qed.

(** The loop over unique issues checks each of them. *)
Lemma unique_each (f : CNewAsset -> check_result unit) l out a ad :
  foldM (fun _ out => if IsScriptNewUniqueAsset env out.(scriptPubKey)
                      then '(asset, _) ← get_or (AssetFromScript env out.(scriptPubKey)) "bad-txns-issue-unique-serialization-failed"; f asset
                      else Ok tt) tt l = Ok tt ->
  out ∈ l -> IsScriptNewUniqueAsset env out.(scriptPubKey) = true -> AssetFromScript env out.(scriptPubKey) = Some (a, ad) -> f a = Ok tt.
Proof.
  induction l as [|o l IH]; intros E Hin Hu Ea; [by apply not_elem_of_nil in Hin|]. cbn [foldM] in E.
  apply bind_Ok in E as ([] & E1 & E). apply elem_of_cons in Hin as [->|Hin]; [|by apply IH].
  rewrite Hu, Ea in E1. done.
Qed.

(** The names of issues are new, and reissues stay within the supply. *)
Lemma rules_issue_new fcm junk d m b tx out a ad : CheckTransaction env junk tx d m b = Ok tt -> rules_kind tx fcm = Ok tt ->
  out ∈ tx.(vout) -> AssetFromScript env out.(scriptPubKey) = Some (a, ad) ->
  CheckIfAssetExists cache a.(a_name) = false /\ env.(fAssetsIsActive) = true.
Proof.
  intros Hct Hk Hin Ea.
  assert (forall fcm, ContextualCheckNewAsset a fcm = Ok tt -> CheckIfAssetExists cache a.(a_name) = false /\ env.(fAssetsIsActive) = true) as Hnew.
  { intros f Hn. unfold ContextualCheckNewAsset in Hn. passed. split; [|done]. by apply negb_true_iff. }
  pose proof (AssetFromScript_new env _ _ _ Ea) as Hi.
  destruct (issue_position env junk tx d m b out Hct Hin Hi) as [->|(K1 & K2 & K3 & Hu)]; unfold rules_kind in Hk.
  - destruct (IsNewAsset env tx); [passed; rewrite Ea in H0; injection H0 as <- <-; by eapply Hnew|].
    destruct (IsReissueAsset tx) eqn:K2.
    { unfold IsReissueAsset, CheckReissueDataTx, IsScriptReissueAsset, IsScriptNewAsset, asset_kind in *.
      destruct (IsAssetScript3 _) as [[[ty ow] n]|]; [|done]. apply Z.eqb_eq in K2 as ->. done. }
    destruct (IsNewUniqueAsset env tx) eqn:K3.
    { passed. unfold ContextualCheckUniqueAssetTx in Hk. unfold IsNewUniqueAsset, last_issues in K3.
      destruct (negb _); [done|]. eapply Hnew. by eapply (unique_each (fun a => ContextualCheckUniqueAsset a)). }
    unfold MsgChannelAssetFromTransaction, QualifierAssetFromTransaction, RestrictedAssetFromTransaction, from_transaction in Hk.
    destruct (IsNewMsgChannelAsset env tx).
    { passed. apply typed_asset_spec in H1 as [H1 _]. rewrite Ea in H1. injection H1 as <- <-. by eapply Hnew. }
    destruct (IsNewQualifierAsset env tx).
    { passed. apply typed_asset_spec in H1 as [H1 _]. rewrite Ea in H1. injection H1 as <- <-. by eapply Hnew. }
    destruct (IsNewRestrictedAsset env tx).
    { passed. apply typed_asset_spec in H1 as [H1 _]. rewrite Ea in H1. injection H1 as <- <-. by eapply Hnew. }
    rewrite all_ok_Ok, Forall_forall in Hk. specialize (Hk _ Hin). unfold rules_plain_output, IsScriptNewAsset, asset_kind in *.
    destruct (IsAssetScript3 _) as [[[ty ow] n]|]; [|done]. passed. apply Z.eqb_eq in Hk as ->. done.
  - rewrite K1, K2, K3 in Hk. passed. eapply Hnew. by eapply (unique_each (fun a => ContextualCheckUniqueAsset a)).
Qed.

Lemma rules_reissue fcm junk d m b tx out r ad : CheckTransaction env junk tx d m b = Ok tt -> rules_kind tx fcm = Ok tt ->
  out ∈ tx.(vout) -> ReissueAssetFromScript env out.(scriptPubKey) = Some (r, ad) ->
  exists prev, GetAssetMetaDataIfExists cache r.(r_name) = Some prev /\ prev.(a_reissuable) <> 0
  /\ wraps 64 (prev.(a_amount) + r.(r_amount)) <= MAX_MONEY /\ CheckAmountWithUnits r.(r_amount) prev.(a_units) = true
  /\ (r.(r_units) = -1 \/ prev.(a_units) <= r.(r_units)).
Proof.
  intros Hct Hk Hin Er. assert (IsScriptReissueAsset (scriptPubKey out) = true) as Hi.
  { unfold ReissueAssetFromScript in Er. by destruct (IsScriptReissueAsset _). }
  destruct (reissue_position env junk tx d m b out Hct Hin Hi) as (-> & K1 & K2). unfold rules_kind in Hk. rewrite K1, K2 in Hk.
  passed. rewrite Er in H0. injection H0 as <- <-. unfold ContextualCheckReissueAsset in Hk. passed. eexists. split; [done|].
  split_and!; try done; lia.
Qed.

(** What the token of an authority, the burn and the name of every creation are. *)
Definition creation_ok (tx : CTransaction) (ks : list Coin) : Prop := forall out, out ∈ tx.(vout) ->
  (IsScriptNewAsset out.(scriptPubKey) = true -> exists a address t,
     AssetFromScript env out.(scriptPubKey) = Some (a, address) /\ name_type a.(a_name) = Some t
     /\ CheckIfAssetExists cache a.(a_name) = false /\ 0 < a.(a_amount) <= MAX_MONEY
     /\ found_burn env tx.(vout) t (if type_is t UNIQUE then count_if IsScriptNewAsset tx.(vout) else 1) = true
     /\ forall token, authority (IsNewAsset env tx) t a.(a_name) = Some token -> token ∈ names (assets_in ks)) /\
  (IsScriptReissueAsset out.(scriptPubKey) = true -> exists r address prev,
     ReissueAssetFromScript env out.(scriptPubKey) = Some (r, address)
     /\ GetAssetMetaDataIfExists cache r.(r_name) = Some prev /\ prev.(a_reissuable) <> 0
     /\ wraps 64 (prev.(a_amount) + r.(r_amount)) <= MAX_MONEY
     /\ existsb (CheckReissueBurnTx env) tx.(vout) = true
     /\ owner_of r.(r_name) ∈ names (assets_in ks)).

Lemma creation_spec junk d m b fcm fm bt c tx r coins' : cache_ok base c -> IsCoinBase tx = false ->
  CheckTransaction env junk tx d m b = Ok tt -> CheckTxAssets fcm fm bt c tx = (Ok r, coins') ->
  exists ks, spent_coins (view base c) tx.(vin) = Some ks /\ creation_ok tx ks.
Proof.
  intros Hc Hcb Hct E. destruct (CheckTxAssets_spec fcm fm bt c tx Hc Hcb) as (_ & _ & Hs).
  destruct Hs as (ks & Hks & Ht & _ & _ & Hk); [by rewrite E|]. exists ks. split; [done|]. intros out Hin.
  destruct (CheckTransaction_backed env junk tx d m b Hct out Hin) as (Hi & _ & Hr).
  assert (forall token, found_transfer env tx.(vout) token = true -> token ∈ names (assets_in ks)) as Hspent.
  { intros token Hf%found_transfer_out. by apply (tally_eq _ _ (entries_in_range ks) (entries_out_range tx.(vout)) Ht token). }
  split.
  - intros (a & ad & t & Ea & Et & Hn & Hb & Hau)%Hi. exists a, ad, t. split_and!; [done..| | | |done|auto].
    + by eapply rules_issue_new.
    + unfold CheckNewAsset in Hn. passed. lia.
    + unfold CheckNewAsset in Hn. passed. lia.
  - intros (x & ad & Er & Hn & Hb & Hau)%Hr. destruct (rules_reissue _ _ _ _ _ _ _ _ _ Hct Hk Hin Er) as (prev & Hp & Hre & Hm & _).
    exists x, ad, prev. split_and!; auto.
Qed.

(** Assets are created only with authority.  In a transaction that
    [CheckTransaction] and [CheckTxAssets] accept, every issue is of a name that does
    not exist, of an amount within the maximum of money, paid for by an output that
    burns the price of its type, and the owner token its parent demands is among the
    assets the transaction spends; every reissue is of an asset that exists and may be reissued, keeps the
    supply within the maximum, burns its price, and spends the owner token. *)
Theorem creation_authorised junk d m b fcm fm bt c tx r coins' : cache_ok base c -> IsCoinBase tx = false ->
  CheckTransaction env junk tx d m b = Ok tt -> CheckTxAssets fcm fm bt c tx = (Ok r, coins') ->
  exists ks, spent_coins (view base c) tx.(vin) = Some ks /\ creation_ok tx ks.
Proof. apply creation_spec. Qed.

(** The tags of an address satisfy a verifier string. *)
Definition verifier_holds (verifier address : bytes) : Prop :=
  verifier = str "true" \/ exists quals, CheckVerifierString verifier = Ok quals
  /\ (forall q, q ∈ quals -> CheckIfAssetExists cache (ch "#" :: q) = true)
  /\ (address = [] \/ Resolve verifier (list_to_map ((fun q => (q, CheckForAddressQualifier cache (ch "#" :: q) address)) <$> quals)) = Ok true).

Lemma ContextualCheckVerifierString_Ok verifier address : ContextualCheckVerifierString verifier address = Ok tt ->
  verifier_holds verifier address.
Proof.
  unfold ContextualCheckVerifierString, verifier_holds. destruct (bytes_eq verifier (str "true")) eqn:Et.
  { intros _. left. by apply bytes_eq_spec. }
  intros E. passed. right. exists x. split; [done|]. split.
  { rewrite forallb_forall in H1. intros q Hq. by apply H1, list_elem_of_In. }
  destruct (is_nil address) eqn:En; [left; by destruct address|]. right. destruct (Resolve _ _) as [[]|]; done.
Qed.

(** C17. Restricted assets move only where they may.  Take a transaction, not a
    coinbase, that [CheckTxAssets] accepts over a sound coins cache.  Every coin of a
    restricted asset that it spends is held by an address that is not frozen for the
    asset; all its transfers are of positive amounts; and every transfer of a restricted
    asset is of one that is not frozen as a whole and has a verifier string, to an
    address whose tags satisfy this string (or to an output that names no address). *)
Theorem restrictions_respected fcm fm bt c tx r coins' : cache_ok base c -> IsCoinBase tx = false ->
  CheckTxAssets fcm fm bt c tx = (Ok r, coins') ->
  exists ks, spent_coins (view base c) tx.(vin) = Some ks /\ Forall not_frozen ks /\
  forall out t address, out ∈ tx.(vout) -> TransferAssetFromScript env out.(scriptPubKey) = Some (t, address) ->
    0 < t.(t_amount) /\
    (name_type t.(t_name) = Some RESTRICTED ->
       CheckForGlobalRestriction cache t.(t_name) = false /\
       exists verifier, GetAssetVerifierStringIfExists cache t.(t_name) true = Some verifier /\ verifier_holds verifier address).
Proof.
  intros Hc Hcb E. destruct (CheckTxAssets_spec fcm fm bt c tx Hc Hcb) as (_ & _ & Hs).
  destruct Hs as (ks & Hks & _ & Hf & Ho & _); [by rewrite E|]. exists ks. split_and!; [done..|].
  intros out t address Hin Et. rewrite Forall_forall in Ho. destruct (Ho out Hin) as (_ & _ & Ht).
  destruct (Ht t address Et) as [Hck _]. unfold ContextualCheckTransferAsset in Hck. apply bind_Ok in Hck as (ty & Hty & Hck).
  apply get_or_Ok in Hty. apply bind_Ok in Hck as ([] & Ha & Hck). apply require_Ok in Ha. split; [lia|].
  rewrite Hty. intros [= ->]. apply bind_Ok in Hck as ([] & _ & Hck). apply bind_Ok in Hck as ([] & _ & Hck).
  change (type_is RESTRICTED RESTRICTED) with true in Hck. apply bind_Ok in Hck as ([] & Hck & _). passed.
  split; [by apply negb_true_iff|]. unfold ContextualCheckAgainstVerifyString in Hck.
  destruct (GetAssetVerifierStringIfExists cache (t_name t) true) as [v|]; [|done]. exists v. split; [done|].
  apply ContextualCheckVerifierString_Ok. cbn in Hck. unfold verifier_check in Hck.
  by destruct (ContextualCheckVerifierString v address) as [[]|].
Qed.

End Coins.

End Rules.

(** ** Example transactions *)

Module Market.

#[local] Existing Instance poly_script_hash.
#[local] Existing Instance Poly.poly_hash.

Definition alice : bytes := replicate 20 1.
Definition sink : bytes := replicate 20 0.
Definition pre : prefixes := MkPrefixes [50] [110].
Definition burn_address : bytes := default [] (EncodeDestination pre (CKeyID sink)).

(** The prices of the main network, burnt at one address. *)
Definition burns : burn_params :=
  let b := MainBurn in
  MkBurn b.(nIssueAssetBurnAmount) b.(nReissueAssetBurnAmount) b.(nIssueSubAssetBurnAmount) b.(nIssueUniqueAssetBurnAmount)
    b.(nIssueMsgChannelAssetBurnAmount) b.(nIssueQualifierAssetBurnAmount) b.(nIssueSubQualifierAssetBurnAmount)
    b.(nIssueRestrictedAssetBurnAmount) b.(nAddNullQualifierTagBurnAmount)
    burn_address burn_address burn_address burn_address burn_address burn_address burn_address burn_address burn_address.
Definition env : asset_env := MkAssetEnv pre true true true true true burns false.

Definition GOLD : CNewAsset := MkNewAsset (str "GOLD") 1000 8 1 0 [].
Definition gold_restricted : bytes := str "$GOLD".

(** The tag #KYC is on every address; $GOLD may be held by such addresses. *)
Definition known : asset_view := MkAssetView
  (fun name => bytes_eq name (str "GOLD") || bytes_eq name gold_restricted || bytes_eq name (str "#KYC"))
  (fun name => if bytes_eq name (str "GOLD") then Some GOLD
               else if bytes_eq name gold_restricted then Some (MkNewAsset gold_restricted 1000 8 1 0 []) else None)
  (fun name _ => if bytes_eq name gold_restricted then Some (str "KYC") else None)
  (fun q _ => bytes_eq q (str "#KYC")) (fun _ _ => false) (fun _ => false).

Definition send (name : bytes) (amount : Z) : CTxOut := MkTxOut 0 (ConstructTransfer (MkTransfer name amount [] 0) (pay_to alice)).
Definition o (n : Z) : COutPoint := MkOutPoint 7 n.
(** Alice's coins: 10 units of GOLD, the owner token, 5 units of $GOLD, money. *)
Definition coins : CCoinsView := fun x =>
  if decide (x = o 0) then Some (MkCoin (send (str "GOLD") 10) false 1)
  else if decide (x = o 1) then Some (MkCoin (send (str "GOLD!") 100000000) false 1)
  else if decide (x = o 2) then Some (MkCoin (send gold_restricted 5) false 1)
  else if decide (x = o 3) then Some (MkCoin (MkTxOut (1000 * COIN) (pay_to alice)) false 1)
  else None.

Definition make (ins : list Z) (outs : list CTxOut) : CTransaction :=
  MkTransaction ((fun n => MkTxIn (o n) [] SEQUENCE_FINAL []) <$> ins) outs 2 0 0 [].
Definition checks (tx : CTransaction) := CheckTransaction env ROOT tx true true true.
Definition rules (tx : CTransaction) := CheckTxAssets env known (fun _ => false) ∅ 0 coins false true 0 ∅ tx.

(** Ten units sent as three and seven; a subasset; restricted units; a channel. *)
Definition split_gold : CTransaction := make [0] [send (str "GOLD") 3; send (str "GOLD") 7].
Definition burn (amount : Z) : CTxOut := MkTxOut amount (pay_to sink).
Definition issue (a : CNewAsset) : list CTxOut := [MkTxOut 0 (ConstructOwner a (pay_to alice)); MkTxOut 0 (ConstructNewAsset a (pay_to alice))].
Definition BAR : CNewAsset := MkNewAsset (str "GOLD/BAR") 100 8 0 0 [].
Definition issue_bar : CTransaction := make [1; 3] ([burn (100 * COIN); send (str "GOLD!") 100000000] ++ issue BAR).
Definition move_restricted : CTransaction := make [2] [send gold_restricted 5].
Definition NEWS : CNewAsset := MkNewAsset (str "GOLD~NEWS") 100000000 0 0 0 [].
Definition issue_news : CTransaction := make [3] ([burn (100 * COIN)] ++ issue NEWS).
Definition inflate : CTransaction := make [0] [send (str "GOLD") (2 ^ 63 - 1); send (str "GOLD") (2 ^ 63 - 1); send (str "GOLD") 12].

Definition coins_of (tx : CTransaction) : list Coin := default [] (spent_coins coins tx.(vin)).


(** A message channel can be issued without its owner.  A transaction that
    creates the channel GOLD~NEWS together with an owner token of that name passes
    [CheckTransaction] and [CheckTxAssets] although it spends no asset at all, and in particular not the
    owner token GOLD!, which [VerifyNewMsgChannelAsset] would ask for: with an owner
    output, the transaction counts as the issue of a root asset. *)
Theorem channel_without_owner :
  checks issue_news = Ok tt /\ is_ok (rules issue_news).1 = true /\
  (exists address, AssetFromScript env (from_end issue_news.(vout) 1).(scriptPubKey) = Some (NEWS, address)) /\
  name_type NEWS.(a_name) = Some MSGCHANNEL /\ GetParentName NEWS.(a_name) = str "GOLD" /\
  assets_in env (coins_of issue_news) = [] /\ VerifyNewMsgChannelAsset env issue_news <> Ok tt.
Proof.
  split; [vm_compute; reflexivity|]. split; [vm_compute; reflexivity|]. split; [eexists; vm_compute; reflexivity|].
  split_and!; vm_compute; try reflexivity. discriminate.
Qed.

(** A reissue of GOLD, by its owner. *)
Definition reissue_gold : CTransaction :=
  make [1; 3] [burn (100 * COIN); send (str "GOLD!") 100000000;
               MkTxOut 0 (ConstructReissue (MkReissue (str "GOLD") 5 (-1) 1 []) (pay_to alice))].

(** Whether a block is valid depends on the memory pool.  The same reissue,
    checked as part of a block against the same chain, is accepted by a node whose
    pool has no reissue of the asset and refused as chaining by a node whose pool
    holds another reissue of it: [CheckTxAssets] looks into [mapReissuedAssets]
    also when it is not asked to look at the pool. *)
Theorem block_rule_reads_mempool :
  checks reissue_gold = Ok tt
  /\ is_ok (CheckTxAssets env known (fun _ => false) ∅ 0 coins false true 0 ∅ reissue_gold).1 = true
  /\ is_ok (CheckTxAssets env known (fun _ => false) {[str "GOLD" := 12345]} 0 coins false true 0 ∅ reissue_gold).1 = false.
Proof. split_and!; vm_compute; reflexivity. Qed.

Lemma empty_cache_ok : cache_ok coins ∅.
Proof. apply map_Forall_empty. Qed.

Definition accepted (tx : CTransaction) : list (bytes * uint256) * list CMessage := match (rules tx).1 with Ok r => r | Err _ => ([], []) end.
Lemma accepted_eq tx : is_ok (rules tx).1 = true -> rules tx = (Ok (accepted tx), (rules tx).2).
Proof. unfold accepted. destruct (rules tx) as [[r|e] c]; done. Qed.

(** The coins a transaction spends, when they are all there. *)
Lemma spent_eq tx ks : bool_decide (is_Some (spent_coins (view coins ∅) tx.(vin))) = true ->
  spent_coins (view coins ∅) tx.(vin) = Some ks -> ks = default [] (spent_coins (view coins ∅) tx.(vin)).
Proof. by intros _ ->. Qed.

Lemma assets_conserved_witness : exists ks, spent_coins (view coins ∅) split_gold.(vin) = Some ks /\
  units (str "GOLD") (assets_in env ks) = units (str "GOLD") (assets_out env split_gold.(vout)).
Proof.
  assert (is_ok (rules split_gold).1 = true) as Hok by (vm_compute; reflexivity).
  destruct (assets_conserved env known (fun _ => false) ∅ 0 coins false true 0 ∅ split_gold (accepted split_gold) (rules split_gold).2
              empty_cache_ok eq_refl (accepted_eq _ Hok)) as (ks & E & Hc).
  exists ks. split; [exact E|]. apply spent_eq in E; [|vm_compute; reflexivity]. subst ks.
  destruct (Hc (str "GOLD")) as (_ & _ & Hx). apply Hx; vm_compute; split; congruence.
Defined.

Definition alice_address : bytes := default [] (EncodeDestination pre (CKeyID alice)).
Lemma bar_issued : AssetFromScript env (scriptPubKey (from_end issue_bar.(vout) 1)) = Some (BAR, alice_address)
  /\ IsScriptNewAsset (scriptPubKey (from_end issue_bar.(vout) 1)) = true
  /\ name_type BAR.(a_name) = Some SUB /\ authority (IsNewAsset env issue_bar) SUB BAR.(a_name) = Some (str "GOLD!").
Proof. split_and!; vm_compute; reflexivity. Qed.

Lemma creation_authorised_witness : exists ks, spent_coins (view coins ∅) issue_bar.(vin) = Some ks /\
  str "GOLD!" ∈ names (assets_in env ks).
Proof.
  assert (is_ok (rules issue_bar).1 = true) as Hok by (vm_compute; reflexivity).
  assert (CheckTransaction env ROOT issue_bar true true true = Ok tt) as Hck by (vm_compute; reflexivity).
  destruct (creation_authorised env known (fun _ => false) ∅ 0 coins ROOT true true true false true 0 ∅ issue_bar
              (accepted issue_bar) (rules issue_bar).2 empty_cache_ok eq_refl Hck (accepted_eq _ Hok)) as (ks & E & Hc).
  exists ks. split; [exact E|]. destruct bar_issued as (Eb & En & Es & Ea).
  destruct (Hc (from_end issue_bar.(vout) 1)) as [Hi _]; [apply (from_end_in issue_bar.(vout) 1); vm_compute; lia|].
  destruct (Hi En) as (a & ad & t & Ea' & Et & _ & _ & _ & Hau). rewrite Eb in Ea'. apply (inj Some) in Ea'.
  assert (BAR = a) as <- by exact (f_equal fst Ea'). rewrite Es in Et. apply (inj Some) in Et. subst t. apply Hau. exact Ea.
Defined.

Lemma restricted_sent : TransferAssetFromScript env (send gold_restricted 5).(scriptPubKey) = Some (MkTransfer gold_restricted 5 [] 0, alice_address)
  /\ name_type gold_restricted = Some RESTRICTED.
Proof. split; vm_compute; reflexivity. Qed.

Lemma restrictions_respected_witness : exists ks, spent_coins (view coins ∅) move_restricted.(vin) = Some ks /\ Forall (not_frozen env known) ks /\
  exists verifier, GetAssetVerifierStringIfExists known gold_restricted true = Some verifier /\ verifier_holds known verifier alice_address.
Proof.
  assert (is_ok (rules move_restricted).1 = true) as Hok by (vm_compute; reflexivity).
  destruct (restrictions_respected env known (fun _ => false) ∅ 0 coins false true 0 ∅ move_restricted
              (accepted move_restricted) (rules move_restricted).2 empty_cache_ok eq_refl (accepted_eq _ Hok)) as (ks & E & Hf & Ht).
  exists ks. split; [exact E|]. split; [exact Hf|]. destruct restricted_sent as [Es En].
  destruct (Ht (send gold_restricted 5) _ _ ltac:(unfold move_restricted, make; apply list_elem_of_here) Es) as (_ & Hr).
  destruct (Hr En) as (_ & v & Ev & Hv). exists v. split; [exact Ev|exact Hv].
Defined.


End Market.
