(* ===== verification/AssetCache.v ===== *)
(** The asset cache ([CAssetsCache] and [CLRUCache], assets/assets.h and
    assets/assettypes.h; assets/assets.cpp) over the asset databases
    (assets/assetdb.cpp, assets/restricteddb.cpp): what a block adds and what a
    disconnected block removes, the questions the asset rules ask, [Flush] into
    the cache of the tip and the dump to the databases.  The theorems show what
    the tip answers after a block is connected, that disconnecting the block
    restores the answers, that a dump keeps them; and where the code fails to. *)

From S2P Require Import Prelude Serialize Sha256 Script Primitives Interpreter Standard AssetNames Base58 AssetTypes Coins TxVerify AssetTx AssetRules.

(** ** The least recently used cache, the most recent entry first *)

Section LRU.
Context {K V : Type} `{EqDecision K}.

Record CLRUCache := MkLRU { maxSize : nat; cacheItems : list (K * V) }.

Fixpoint lru_find (key : K) (l : list (K * V)) : option V :=
  match l with [] => None | (k, v) :: l' => if decide (k = key) then Some v else lru_find key l' end.
Definition lru_remove (key : K) (l : list (K * V)) : list (K * V) := filter (fun p => p.1 <> key) l.

Definition Put (c : CLRUCache) (key : K) (value : V) : CLRUCache :=
  let items := (key, value) :: lru_remove key c.(cacheItems) in
  MkLRU c.(maxSize) (if (c.(maxSize) <? length items)%nat then removelast items else items).
Definition Erase (c : CLRUCache) (key : K) : CLRUCache := MkLRU c.(maxSize) (lru_remove key c.(cacheItems)).
(** The value, and the cache with the entry moved to the front; [None] is the [range_error]. *)
Definition Get (c : CLRUCache) (key : K) : option (V * CLRUCache) :=
  v ← lru_find key c.(cacheItems); Some (v, MkLRU c.(maxSize) ((key, v) :: lru_remove key c.(cacheItems))).
Definition Exists (c : CLRUCache) (key : K) : bool := match lru_find key c.(cacheItems) with Some _ => true | None => false end.

End LRU.
Arguments CLRUCache : clear implicits.

(** ** The dirty sets

    A pair of the sets [setNew...ToAdd] and [setNew...ToRemove], by the key that
    [operator<] compares. *)

Record dirty (K V : Type) `{Countable K} := MkDirty { ToAdd : gmap K V; ToRemove : gmap K V }.
Arguments MkDirty {_ _ _ _} _ _.
Arguments ToAdd {_ _ _ _} _.
Arguments ToRemove {_ _ _ _} _.

Section Dirty.
Context {K V : Type} `{Countable K}.

(** [std::set::insert] keeps an entry that is there. *)
Definition set_insert (k : K) (v : V) (m : gmap K V) : gmap K V := match m !! k with Some _ => m | None => <[k := v]> m end.

(** The two ways the operations write: keeping an entry, or erasing it first. *)
Definition add_keep (k : K) (v : V) (d : dirty K V) : dirty K V := MkDirty (set_insert k v d.(ToAdd)) (delete k d.(ToRemove)).
Definition remove_keep (k : K) (v : V) (d : dirty K V) : dirty K V := MkDirty (delete k d.(ToAdd)) (set_insert k v d.(ToRemove)).
Definition add_over (k : K) (v : V) (d : dirty K V) : dirty K V := MkDirty (<[k := v]> d.(ToAdd)) (delete k d.(ToRemove)).
Definition remove_over (k : K) (v : V) (d : dirty K V) : dirty K V := MkDirty (delete k d.(ToAdd)) (<[k := v]> d.(ToRemove)).

(** The two loops of [Flush] over such a pair. *)
Definition flush_with (add remove : K -> V -> dirty K V -> dirty K V) (c p : dirty K V) : dirty K V :=
  let p := foldl (fun p kv => add kv.1 kv.2 p) p (map_to_list c.(ToAdd)) in
  foldl (fun p kv => remove kv.1 kv.2 p) p (map_to_list c.(ToRemove)).
Definition flush_keep : dirty K V -> dirty K V -> dirty K V := flush_with add_keep remove_keep.
Definition flush_over : dirty K V -> dirty K V -> dirty K V := flush_with add_over remove_over.

(** The probes of the questions, in their order: what is to be removed by this
    cache and by the tip's, then what is to be added. *)
Definition probe {A} (undo : V -> A) (mine tips : V -> A) (fSkipTempCache : bool) (c p : dirty K V) (k : K) : option A :=
  match (if fSkipTempCache then None else c.(ToRemove) !! k) with Some v => Some (undo v) | None =>
  match p.(ToRemove) !! k with Some v => Some (undo v) | None =>
  match (if fSkipTempCache then None else c.(ToAdd) !! k) with Some v => Some (mine v) | None =>
  match p.(ToAdd) !! k with Some v => Some (tips v) | None => None end end end end.

End Dirty.

(** ** State *)

Inductive QualifierType := REMOVE_QUALIFIER | ADD_QUALIFIER.
Inductive RestrictedType := UNFREEZE_ADDRESS | FREEZE_ADDRESS | GLOBAL_UNFREEZE | GLOBAL_FREEZE.

#[export] Instance QualifierType_eq_dec : EqDecision QualifierType.
Proof. solve_decision. Defined.
#[export] Instance RestrictedType_eq_dec : EqDecision RestrictedType.
Proof. solve_decision. Defined.

Record CAssetCacheNewAsset := MkCacheNewAsset { na_asset : CNewAsset; na_address : bytes; na_hash : uint256; na_height : Z }.
Record CAssetCacheReissueAsset := MkCacheReissue { ra_reissue : CReissueAsset; ra_address : bytes; ra_hash : uint256; ra_height : Z }.
(** Asset name, address and amount. *)
Definition CAssetCacheAmount : Type := bytes * bytes * Z.

Abbreviation asset_address := (list Z * list Z)%type.

Record CAssetsCache := MkAssetsCache {
  mapAssetsAddressAmount : gmap asset_address Z;
  mapReissuedAssetData : gmap (list Z) CNewAsset;
  vUndoAssetAmount : list CAssetCacheAmount;
  vSpentAssets : list CAssetCacheAmount;
  setNewAssets : dirty (list Z) CAssetCacheNewAsset;
  setNewReissue : dirty COutPoint CAssetCacheReissueAsset;
  setNewOwnerAssets : dirty (list Z) bytes;
  setNewTransferAssets : dirty COutPoint (CAssetTransfer * bytes);
  setNewQualifierAddress : dirty asset_address QualifierType;
  setNewRestrictedAddress : dirty asset_address RestrictedType;
  setNewRestrictedGlobal : dirty (list Z) RestrictedType;
  (* the verifier and fUndoingRessiue *)
  setNewRestrictedVerifier : dirty (list Z) (bytes * bool);
  mapRootQualifierAddressesAdd : gmap asset_address (gset (list Z));
  mapRootQualifierAddressesRemove : gmap asset_address (gset (list Z));
}.

Definition no_changes {K V} `{Countable K} : dirty K V := MkDirty ∅ ∅.
(** A new cache, and what [ClearDirtyCache] leaves. *)
Definition empty_cache : CAssetsCache :=
  MkAssetsCache ∅ ∅ [] [] no_changes no_changes no_changes no_changes no_changes no_changes no_changes no_changes ∅ ∅.

Definition set_amounts m (c : CAssetsCache) := let '(MkAssetsCache _ b u s n r o t q ra g v x y) := c in MkAssetsCache m b u s n r o t q ra g v x y.
Definition set_reissued m (c : CAssetsCache) := let '(MkAssetsCache a _ u s n r o t q ra g v x y) := c in MkAssetsCache a m u s n r o t q ra g v x y.
Definition set_undo m (c : CAssetsCache) := let '(MkAssetsCache a b _ s n r o t q ra g v x y) := c in MkAssetsCache a b m s n r o t q ra g v x y.
Definition set_spent m (c : CAssetsCache) := let '(MkAssetsCache a b u _ n r o t q ra g v x y) := c in MkAssetsCache a b u m n r o t q ra g v x y.
Definition set_new m (c : CAssetsCache) := let '(MkAssetsCache a b u s _ r o t q ra g v x y) := c in MkAssetsCache a b u s m r o t q ra g v x y.
Definition set_reissue m (c : CAssetsCache) := let '(MkAssetsCache a b u s n _ o t q ra g v x y) := c in MkAssetsCache a b u s n m o t q ra g v x y.
Definition set_owner m (c : CAssetsCache) := let '(MkAssetsCache a b u s n r _ t q ra g v x y) := c in MkAssetsCache a b u s n r m t q ra g v x y.
Definition set_transfer m (c : CAssetsCache) := let '(MkAssetsCache a b u s n r o _ q ra g v x y) := c in MkAssetsCache a b u s n r o m q ra g v x y.
Definition set_qualifier m (c : CAssetsCache) := let '(MkAssetsCache a b u s n r o t _ ra g v x y) := c in MkAssetsCache a b u s n r o t m ra g v x y.
Definition set_restricted m (c : CAssetsCache) := let '(MkAssetsCache a b u s n r o t q _ g v x y) := c in MkAssetsCache a b u s n r o t q m g v x y.
Definition set_global m (c : CAssetsCache) := let '(MkAssetsCache a b u s n r o t q ra _ v x y) := c in MkAssetsCache a b u s n r o t q ra m v x y.
Definition set_verifier m (c : CAssetsCache) := let '(MkAssetsCache a b u s n r o t q ra g _ x y) := c in MkAssetsCache a b u s n r o t q ra g m x y.
Definition set_roots m1 m2 (c : CAssetsCache) := let '(MkAssetsCache a b u s n r o t q ra g v _ _) := c in MkAssetsCache a b u s n r o t q ra g v m1 m2.

(** The databases, [passetsdb] and [prestricteddb], and the caches in front of them. *)
Record asset_store := MkStore {
  passetsCache : CLRUCache (list Z) CDatabasedAssetData;
  passetsVerifierCache : CLRUCache (list Z) bytes;
  passetsQualifierCache : CLRUCache Z Z;
  passetsRestrictionCache : CLRUCache Z Z;
  passetsGlobalRestrictionCache : CLRUCache (list Z) Z;
  AssetData : gmap (list Z) CDatabasedAssetData;
  AssetAddressQuantity : gmap asset_address Z;   (* asset, address *)
  AddressAssetQuantity : gmap asset_address Z;   (* address, asset *)
  Verifier : gmap (list Z) bytes;
  AddressQualifier : gset asset_address;         (* address, tag *)
  QualifierAddress : gset asset_address;         (* tag, address *)
  RestrictedAddress : gset asset_address;        (* address, asset *)
  GlobalRestriction : gset (list Z);
}.

Definition set_assets lru db s := let '(MkStore _ b c d e _ g h i j k l m) := s in MkStore lru b c d e db g h i j k l m.
Definition set_quantities q r s := let '(MkStore a b c d e f _ _ i j k l m) := s in MkStore a b c d e f q r i j k l m.
Definition set_verifiers lru db s := let '(MkStore a _ c d e f g h _ j k l m) := s in MkStore a lru c d e f g h db j k l m.
Definition set_tags lru db db' s := let '(MkStore a b _ d e f g h i _ _ l m) := s in MkStore a b lru d e f g h i db db' l m.
Definition set_freezes lru db s := let '(MkStore a b c _ e f g h i j k _ m) := s in MkStore a b c lru e f g h i j k db m.
Definition set_globals lru db s := let '(MkStore a b c d _ f g h i j k l _) := s in MkStore a b c d lru f g h i j k l db.

Section Questions.
Context `{H : Hash256} (fReindex : bool).
(** The cache that is asked, [passets] and the databases. *)
Implicit Types (c p : CAssetsCache) (s : asset_store).

(** ** Questions

    Each answers and leaves the databases with what it put into a cache. *)

(** [CAssetCacheQualifierAddress::GetHash], [CAssetCacheRestrictedAddress::GetHash] *)
Definition address_key (assetName address : bytes) : uint256 := hash256 (assetName ++ address).

Definition CheckIfAssetExists c p s (name : bytes) (fForceDuplicateCheck : bool) : bool * asset_store :=
  if fReindex then (true, s)
  else if bool_decide (is_Some (c.(setNewAssets).(ToRemove) !! name)) then (false, s)
  else if bool_decide (is_Some (p.(setNewAssets).(ToRemove) !! name)) then (false, s)
  else if bool_decide (is_Some (c.(setNewAssets).(ToAdd) !! name)) && fForceDuplicateCheck then (true, s)
  else if bool_decide (is_Some (p.(setNewAssets).(ToAdd) !! name)) && fForceDuplicateCheck then (true, s)
  else if Exists s.(passetsCache) name then (fForceDuplicateCheck, s)
  else match s.(AssetData) !! name with
       | Some data => (fForceDuplicateCheck, set_assets (Put s.(passetsCache) data.(db_asset).(a_name) data) s.(AssetData) s)
       | None => (false, s)
       end.

(** The asset, and the height and the block when they are written. *)
Definition GetAssetMetaDataIfExists c p s (name : bytes) : option (CNewAsset * option (Z * uint256)) * asset_store :=
  match c.(mapReissuedAssetData) !! name with Some asset => (Some (asset, None), s) | None =>
  match p.(mapReissuedAssetData) !! name with Some asset => (Some (asset, None), s) | None =>
  if bool_decide (is_Some (c.(setNewAssets).(ToRemove) !! name)) then (None, s)
  else if bool_decide (is_Some (p.(setNewAssets).(ToRemove) !! name)) then (None, s)
  else match c.(setNewAssets).(ToAdd) !! name with Some a => (Some (a.(na_asset), Some (a.(na_height), a.(na_hash))), s) | None =>
  match p.(setNewAssets).(ToAdd) !! name with Some a => (Some (a.(na_asset), Some (a.(na_height), a.(na_hash))), s) | None =>
  match Get s.(passetsCache) name with
  | Some (data, lru) => (Some (data.(db_asset), Some (data.(db_height), data.(db_block))), set_assets lru s.(AssetData) s)
  | None =>
  match s.(AssetData) !! name with
  | Some data => (Some (data.(db_asset), Some (data.(db_height), data.(db_block))),
                  set_assets (Put s.(passetsCache) data.(db_asset).(a_name) data) s.(AssetData) s)
  | None => (None, s)
  end end end end end end.

Definition GetAssetVerifierStringIfExists c p s (name : bytes) (fSkipTempCache : bool) : option bytes * asset_store :=
  match probe (fun v : bytes * bool => if v.2 then Some v.1 else None) (fun v => Some v.1) (fun v => Some v.1) fSkipTempCache
          c.(setNewRestrictedVerifier) p.(setNewRestrictedVerifier) name with
  | Some answer => (answer, s)
  | None =>
    match Get s.(passetsVerifierCache) name with
    | Some (verifier, lru) => (Some verifier, set_verifiers lru s.(Verifier) s)
    | None =>
      match s.(Verifier) !! name with
      | Some verifier => (Some verifier, set_verifiers (Put s.(passetsVerifierCache) name verifier) s.(Verifier) s)
      | None => (None, s)
      end
    end
  end.

(** [mapRootQualifierAddressesAdd] has a sub-qualifier of the tag for the address. *)
Definition root_added c (qualifier_name address : bytes) : bool :=
  match c.(mapRootQualifierAddressesAdd) !! (qualifier_name, address) with
  | Some subs => negb (bool_decide (subs = ∅))
  | None => false
  end.

(** [CRestrictedDB::CheckForAddressRootQualifier]: the cursor goes through the
    tags of the address that are not shorter than [qualifier]. *)
Definition CheckForAddressRootQualifier s (address qualifier : bytes) : bool :=
  existsb (fun k => bytes_eq k.1 address && (bytes_eq k.2 qualifier || bytes_eq (take (length qualifier + 1) k.2) (qualifier ++ str "/")))
    (elements s.(AddressQualifier)).

Definition CheckForAddressQualifier c p s (qualifier_name address : bytes) (fSkipTempCache : bool) : bool * asset_store :=
  let adding (t : QualifierType) := bool_decide (t = ADD_QUALIFIER) in
  match probe (fun t : QualifierType => bool_decide (t = REMOVE_QUALIFIER)) adding (fun t => adding t || root_added p qualifier_name address)
          fSkipTempCache c.(setNewQualifierAddress) p.(setNewQualifierAddress) (qualifier_name, address) with
  | Some answer => (answer, s)
  | None =>
    if negb fSkipTempCache && root_added c qualifier_name address then (true, s)
    else if root_added p qualifier_name address then (true, s)
    else if Exists s.(passetsQualifierCache) (address_key qualifier_name address) then (true, s)
    else if bool_decide ((address, qualifier_name) ∈ s.(AddressQualifier)) then
      (true, set_tags (Put s.(passetsQualifierCache) (address_key qualifier_name address) 1) s.(AddressQualifier) s.(QualifierAddress) s)
    else (CheckForAddressRootQualifier s address qualifier_name, s)
  end.

Definition CheckForAddressRestriction c p s (restricted_name address : bytes) (fSkipTempCache : bool) : bool * asset_store :=
  let freezing (t : RestrictedType) := bool_decide (t = FREEZE_ADDRESS) in
  match probe (fun t : RestrictedType => bool_decide (t = UNFREEZE_ADDRESS)) freezing freezing fSkipTempCache
          c.(setNewRestrictedAddress) p.(setNewRestrictedAddress) (restricted_name, address) with
  | Some answer => (answer, s)
  | None =>
    if Exists s.(passetsRestrictionCache) (address_key restricted_name address) then (true, s)
    else if bool_decide ((address, restricted_name) ∈ s.(RestrictedAddress)) then
      (true, set_freezes (Put s.(passetsRestrictionCache) (address_key restricted_name address) 1) s.(RestrictedAddress) s)
    else (false, s)
  end.

Definition CheckForGlobalRestriction c p s (restricted_name : bytes) (fSkipTempCache : bool) : bool * asset_store :=
  let freezing (t : RestrictedType) := bool_decide (t = GLOBAL_FREEZE) in
  match probe (fun t : RestrictedType => bool_decide (t = GLOBAL_UNFREEZE)) freezing freezing fSkipTempCache
          c.(setNewRestrictedGlobal) p.(setNewRestrictedGlobal) restricted_name with
  | Some answer => (answer, s)
  | None =>
    if Exists s.(passetsGlobalRestrictionCache) restricted_name then (true, s)
    else if bool_decide (restricted_name ∈ s.(GlobalRestriction)) then
      (true, set_globals (Put s.(passetsGlobalRestrictionCache) restricted_name 1) s.(GlobalRestriction) s)
    else (false, s)
  end.

(** What the asset rules see. *)
Definition view_of c p s : asset_view := {|
  AssetRules.CheckIfAssetExists name := (CheckIfAssetExists c p s name true).1;
  AssetRules.GetAssetMetaDataIfExists name := fst <$> (GetAssetMetaDataIfExists c p s name).1;
  AssetRules.GetAssetVerifierStringIfExists name fSkip := (GetAssetVerifierStringIfExists c p s name fSkip).1;
  AssetRules.CheckForAddressQualifier name address := (CheckForAddressQualifier c p s name address true).1;
  AssetRules.CheckForAddressRestriction name address := (CheckForAddressRestriction c p s name address true).1;
  AssetRules.CheckForGlobalRestriction name := (CheckForGlobalRestriction c p s name true).1;
|}.

End Questions.

Section Operations.
Context `{H : Hash256} `{SH : ScriptHash} (env : asset_env) (fReindex fAssetIndex : bool).
(** What an [int] holds that nothing was written to; [passets] and the databases. *)
Context (junk : Z) (p : CAssetsCache) (s : asset_store).
Implicit Types c : CAssetsCache.

(** ** Balances, kept when [fAssetIndex] is set *)

(** True when the amount is in the map of the cache, which may have been copied there. *)
Definition GetBestAssetAddressAmount c (assetName address : bytes) : bool * CAssetsCache :=
  let pair := (assetName, address) in
  if negb fAssetIndex then (false, c)
  else match c.(mapAssetsAddressAmount) !! pair with
  | Some _ => (true, c)
  | None =>
    match p.(mapAssetsAddressAmount) !! pair with
    | Some n => (true, set_amounts (<[pair := n]> c.(mapAssetsAddressAmount)) c)
    | None =>
      match s.(AssetAddressQuantity) !! pair with
      | Some n => (true, set_amounts (<[pair := n]> c.(mapAssetsAddressAmount)) c)
      | None => (false, c)
      end
    end
  end.

(** [GetBestAssetAddressAmount], a new entry with 0 where it fails, and the change. *)
Definition amount_at c (pair : asset_address) : Z := default 0 (c.(mapAssetsAddressAmount) !! pair).
Definition set_amount (pair : asset_address) (n : Z) c : CAssetsCache := set_amounts (<[pair := n]> c.(mapAssetsAddressAmount)) c.
Definition change_amount c (assetName address : bytes) (f : Z -> Z) : CAssetsCache :=
  let c := (GetBestAssetAddressAmount c assetName address).2 in
  set_amount (assetName, address) (f (amount_at c (assetName, address))) c.

Definition AddToAssetBalance c (strName address : bytes) (nAmount : Z) : CAssetsCache :=
  if fAssetIndex
  then change_amount c strName address (fun n => if IsAssetNameAnOwner strName then OWNER_ASSET_AMOUNT else wraps 64 (n + nAmount))
  else c.

(** Each operation: its return value and the cache it leaves. *)
Definition AddTransferAsset c (transferAsset : CAssetTransfer) (address : bytes) (o : COutPoint) : bool * CAssetsCache :=
  let c := AddToAssetBalance c transferAsset.(t_name) address transferAsset.(t_amount) in
  (true, set_transfer (add_keep o (transferAsset, address) c.(setNewTransferAssets)) c).

Definition UndoTransfer c (transfer : CAssetTransfer) (address : bytes) : bool * CAssetsCache :=
  if negb fAssetIndex then (true, c)
  else
    let '(found, c) := GetBestAssetAddressAmount c transfer.(t_name) address in
    let pair := (transfer.(t_name), address) in
    if negb found then (false, c)
    else if amount_at c pair <? transfer.(t_amount) then (false, c)
    else (true, set_amount pair (wraps 64 (amount_at c pair - transfer.(t_amount))) c).

Definition RemoveTransfer c (transfer : CAssetTransfer) (address : bytes) (o : COutPoint) : bool * CAssetsCache :=
  let '(ok, c) := UndoTransfer c transfer address in
  if negb ok then (false, c)
  else (true, set_transfer (remove_keep o (transfer, address) c.(setNewTransferAssets)) c).

(** The address, the name and the amount of an asset output; [Err] is the early return. *)
Definition spent_asset (scriptPubKey : CScript) : option (bytes * bytes * Z) :=
  match IsAssetScript3 scriptPubKey with
  | None => None
  | Some (nType, fIsOwner, _) =>
    if (nType =? TX_NEW_ASSET) && negb fIsOwner then
      '(asset, address) ← AssetFromScript env scriptPubKey; Some (address, asset.(a_name), asset.(a_amount))
    else if nType =? TX_TRANSFER_ASSET then
      '(transfer, address) ← TransferAssetFromScript env scriptPubKey; Some (address, transfer.(t_name), transfer.(t_amount))
    else if (nType =? TX_NEW_ASSET) && fIsOwner then
      '(name, address) ← OwnerAssetFromScript env scriptPubKey; Some (address, name, OWNER_ASSET_AMOUNT)
    else if nType =? TX_REISSUE_ASSET then
      '(reissue, address) ← ReissueAssetFromScript env scriptPubKey; Some (address, reissue.(r_name), reissue.(r_amount))
    else None
  end.

Definition TrySpendCoin c (txOut : CTxOut) : bool * CAssetsCache :=
  if negb (IsAssetScript txOut.(scriptPubKey)) then (true, c)
  else match spent_asset txOut.(scriptPubKey) with
  | None => (false, c)
  | Some (address, assetName, nAmount) =>
    if is_nil address || is_nil assetName then (false, c)
    else if fAssetIndex && (0 <? nAmount) then
      let '(found, c) := GetBestAssetAddressAmount c assetName address in
      if negb found then (true, c)
      else
        let pair := (assetName, address) in
        let n := wraps 64 (amount_at c pair - nAmount) in
        let c := set_amount pair (if n <? 0 then 0 else n) c in
        (true, set_spent (c.(vSpentAssets) ++ [(assetName, address, nAmount)]) c)
    else (true, c)
  end.

Definition AddBackSpentAsset c (assetName address : bytes) (nAmount : Z) : bool * CAssetsCache :=
  let c := if fAssetIndex then change_amount c assetName address (fun n => wraps 64 (n + nAmount)) else c in
  (true, set_undo (c.(vUndoAssetAmount) ++ [(assetName, address, nAmount)]) c).

Definition UndoAssetCoin c (coin : Coin) : bool * CAssetsCache :=
  match spent_asset coin.(out).(scriptPubKey) with
  | None => (false, c)
  | Some (strAddress, assetName, nAmount) =>
    if is_nil assetName || is_nil strAddress || (nAmount =? 0) then (false, c)
    else AddBackSpentAsset c assetName strAddress nAmount
  end.

(** ** Issues and reissues *)

Definition ContainsAsset c (assetName : bytes) : bool := (CheckIfAssetExists fReindex c p s assetName true).1.

Definition AddNewAsset c (asset : CNewAsset) (address : bytes) (nHeight : Z) (blockHash : uint256) : bool * CAssetsCache :=
  if ContainsAsset c asset.(a_name) then (false, c)
  else
    let c := set_new (add_keep asset.(a_name) (MkCacheNewAsset asset address blockHash nHeight) c.(setNewAssets)) c in
    (true, if fAssetIndex then set_amount (asset.(a_name), address) asset.(a_amount) c else c).

Definition RemoveNewAsset c (asset : CNewAsset) (address : bytes) : bool * CAssetsCache :=
  if negb (ContainsAsset c asset.(a_name)) then (false, c)
  else
    let c := set_new (remove_keep asset.(a_name) (MkCacheNewAsset asset address 0 0) c.(setNewAssets)) c in
    (true, if fAssetIndex then set_amount (asset.(a_name), address) 0 c else c).

Definition AddOwnerAsset c (assetsName address : bytes) : bool * CAssetsCache :=
  let c := set_owner (add_keep assetsName address c.(setNewOwnerAssets)) c in
  (true, if fAssetIndex then set_amount (assetsName, address) OWNER_ASSET_AMOUNT c else c).

Definition RemoveOwnerAsset c (assetsName address : bytes) : bool * CAssetsCache :=
  let c := set_owner (remove_keep assetsName address c.(setNewOwnerAssets)) c in
  (true, if fAssetIndex then set_amount (assetsName, address) 0 c else c).

(** What a reissue makes of an asset. *)
Definition reissued (reissue : CReissueAsset) (asset : CNewAsset) : CNewAsset :=
  let fIPFS := negb (is_nil reissue.(r_ipfs)) in
  MkNewAsset asset.(a_name) (wraps 64 (asset.(a_amount) + reissue.(r_amount)))
    (if reissue.(r_units) =? -1 then asset.(a_units) else reissue.(r_units)) reissue.(r_reissuable)
    (if fIPFS then 1 else asset.(a_hasipfs)) (if fIPFS then reissue.(r_ipfs) else asset.(a_ipfs)).

(** The height and the hash of the block are those of the issue, when they were found. *)
Definition AddReissueAsset c (reissue : CReissueAsset) (address : bytes) (o : COutPoint) : bool * CAssetsCache :=
  match (GetAssetMetaDataIfExists c p s reissue.(r_name)).1 with
  | None => (false, c)
  | Some (asset, block) =>
    let '(assetHeight, assetBlockHash) := default (junk, 0) block in
    let asset := default asset (c.(mapReissuedAssetData) !! reissue.(r_name)) in
    let c := set_reissued (<[reissue.(r_name) := reissued reissue asset]> c.(mapReissuedAssetData)) c in
    let c := set_reissue (add_keep o (MkCacheReissue reissue address assetBlockHash assetHeight) c.(setNewReissue)) c in
    (true, if fAssetIndex then change_amount c reissue.(r_name) address (fun n => wraps 64 (n + reissue.(r_amount))) else c)
  end.

(** ** Tags, freezes and verifier strings *)

Definition update_root (f : gset (list Z) -> gset (list Z)) (k : asset_address) (m : gmap asset_address (gset (list Z))) :=
  <[k := f (default ∅ (m !! k))]> m.
(** The root's maps, when the sub-qualifier is given to the address or taken from it. *)
Definition root_change (given : bool) (assetName address : bytes) c : CAssetsCache :=
  if IsAssetNameASubQualifier assetName then
    let root := (GetParentName assetName, address) in
    let insert := update_root (fun subs => {[assetName]} ∪ subs) root in
    let erase := update_root (fun subs => subs ∖ {[assetName]}) root in
    if given
    then set_roots (insert c.(mapRootQualifierAddressesAdd)) (erase c.(mapRootQualifierAddressesRemove)) c
    else set_roots (erase c.(mapRootQualifierAddressesAdd)) (insert c.(mapRootQualifierAddressesRemove)) c
  else c.

Definition AddQualifierAddress c (assetName address : bytes) (type : QualifierType) : CAssetsCache :=
  let c := root_change (bool_decide (type = ADD_QUALIFIER)) assetName address c in
  set_qualifier (add_over (assetName, address) type c.(setNewQualifierAddress)) c.
Definition RemoveQualifierAddress c (assetName address : bytes) (type : QualifierType) : CAssetsCache :=
  let c := root_change (negb (bool_decide (type = ADD_QUALIFIER))) assetName address c in
  set_qualifier (remove_over (assetName, address) type c.(setNewQualifierAddress)) c.

Definition AddRestrictedAddress c (assetName address : bytes) (type : RestrictedType) : CAssetsCache :=
  set_restricted (add_over (assetName, address) type c.(setNewRestrictedAddress)) c.
Definition RemoveRestrictedAddress c (assetName address : bytes) (type : RestrictedType) : CAssetsCache :=
  set_restricted (remove_over (assetName, address) type c.(setNewRestrictedAddress)) c.

Definition AddGlobalRestricted c (assetName : bytes) (type : RestrictedType) : CAssetsCache :=
  set_global (add_over assetName type c.(setNewRestrictedGlobal)) c.
Definition RemoveGlobalRestricted c (assetName : bytes) (type : RestrictedType) : CAssetsCache :=
  set_global (remove_over assetName type c.(setNewRestrictedGlobal)) c.

Definition AddRestrictedVerifier c (assetName verifier : bytes) : CAssetsCache :=
  set_verifier (add_keep assetName (verifier, false) c.(setNewRestrictedVerifier)) c.
Definition RemoveRestrictedVerifier c (assetName verifier : bytes) (fUndoingReissue : bool) : CAssetsCache :=
  set_verifier (remove_keep assetName (verifier, fUndoingReissue) c.(setNewRestrictedVerifier)) c.

(** What a block stores of an asset that it reissues (assets/assetdb.h). *)
Record CBlockAssetUndo := MkAssetUndo {
  fChangedIPFS : bool; fChangedUnits : bool; strIPFS : bytes; u_units : Z; fChangedVerifierString : bool; u_verifier : bytes;
}.

(** The first entry of the block for the asset decides. *)
Definition unreissued (undo : option CBlockAssetUndo) (reissue : CReissueAsset) (asset : CNewAsset) : CNewAsset :=
  let amount := wraps 64 (asset.(a_amount) - reissue.(r_amount)) in
  match undo with
  | None => MkNewAsset asset.(a_name) amount asset.(a_units) 1 asset.(a_hasipfs) asset.(a_ipfs)
  | Some u =>
    let ipfs := if u.(fChangedIPFS) then u.(strIPFS) else asset.(a_ipfs) in
    MkNewAsset asset.(a_name) amount (if u.(fChangedUnits) then u.(u_units) else asset.(a_units)) 1
      (if is_nil ipfs then 0 else asset.(a_hasipfs)) ipfs
  end.
Definition find_undo (name : bytes) (vUndoIPFS : list (bytes * CBlockAssetUndo)) : option CBlockAssetUndo :=
  snd <$> List.find (fun u => bytes_eq u.1 name) vUndoIPFS.

Definition RemoveReissueAsset c (reissue : CReissueAsset) (address : bytes) (o : COutPoint)
    (vUndoIPFS : list (bytes * CBlockAssetUndo)) : bool * CAssetsCache :=
  match (GetAssetMetaDataIfExists c p s reissue.(r_name)).1 with
  | None => (false, c)
  | Some (assetData, block) =>
    let '(height, blockHash) := default (junk, 0) block in
    let undo := find_undo reissue.(r_name) vUndoIPFS in
    let c := set_reissued (<[assetData.(a_name) := unreissued undo reissue assetData]> c.(mapReissuedAssetData)) c in
    let c := set_reissue (remove_keep o (MkCacheReissue reissue address blockHash height) c.(setNewReissue)) c in
    let c := match undo with
             | Some u => if u.(fChangedVerifierString) then RemoveRestrictedVerifier c assetData.(a_name) u.(u_verifier) true else c
             | None => c
             end in
    if fAssetIndex then
      let '(found, c) := GetBestAssetAddressAmount c reissue.(r_name) address in
      if negb found && negb (reissue.(r_amount) =? 0) then (false, c)
      else
        let pair := (reissue.(r_name), address) in
        let n := wraps 64 (amount_at c pair - reissue.(r_amount)) in
        (negb (n <? 0), set_amount pair n c)
    else (true, c)
  end.

End Operations.

(** ** Flush *)

(** [passets->mapRootQualifierAddressesAdd[item.first].insert(asset)], for every item. *)
Definition flush_roots (from into : gmap asset_address (gset (list Z))) : gmap asset_address (gset (list Z)) :=
  foldl (fun m kv => if bool_decide (kv.2 = ∅) then m else update_root (fun subs => kv.2 ∪ subs) kv.1 m) into (map_to_list from).

(** What becomes of [passets]; the last loop reads one map and writes the other. *)
Definition Flush (c p : CAssetsCache) : CAssetsCache := {|
  mapAssetsAddressAmount := c.(mapAssetsAddressAmount) ∪ p.(mapAssetsAddressAmount);
  mapReissuedAssetData := c.(mapReissuedAssetData) ∪ p.(mapReissuedAssetData);
  vUndoAssetAmount := p.(vUndoAssetAmount) ++ c.(vUndoAssetAmount);
  vSpentAssets := p.(vSpentAssets) ++ c.(vSpentAssets);
  setNewAssets := flush_keep c.(setNewAssets) p.(setNewAssets);
  setNewReissue := flush_keep c.(setNewReissue) p.(setNewReissue);
  setNewOwnerAssets := flush_keep c.(setNewOwnerAssets) p.(setNewOwnerAssets);
  setNewTransferAssets := flush_keep c.(setNewTransferAssets) p.(setNewTransferAssets);
  setNewQualifierAddress := flush_over c.(setNewQualifierAddress) p.(setNewQualifierAddress);
  setNewRestrictedAddress := flush_over c.(setNewRestrictedAddress) p.(setNewRestrictedAddress);
  setNewRestrictedGlobal := flush_over c.(setNewRestrictedGlobal) p.(setNewRestrictedGlobal);
  setNewRestrictedVerifier := flush_over c.(setNewRestrictedVerifier) p.(setNewRestrictedVerifier);
  mapRootQualifierAddressesAdd :=
    flush_roots c.(mapRootQualifierAddressesRemove)
      (flush_roots c.(mapRootQualifierAddressesAdd) p.(mapRootQualifierAddressesAdd));
  mapRootQualifierAddressesRemove := p.(mapRootQualifierAddressesRemove);
|}.

(** ** The dump to the databases

    Writes succeed; a failing one ends the dump and the node shuts down.  The
    loops go through the sets in the order of their keys in the model's maps. *)

Section Dump.
Context `{H : Hash256} (fAssetIndex : bool) (p : CAssetsCache).
Implicit Types s : asset_store.

Definition each {K V} `{Countable K} (f : K -> V -> asset_store -> asset_store) (m : gmap K V) (s : asset_store) : asset_store :=
  foldl (fun s kv => f kv.1 kv.2 s) s (map_to_list m).

Definition erase_quantity (name address : bytes) s : asset_store :=
  set_quantities (delete (name, address) s.(AssetAddressQuantity)) (delete (address, name) s.(AddressAssetQuantity)) s.
Definition write_quantity (name address : bytes) (n : Z) s : asset_store :=
  set_quantities (<[(name, address) := n]> s.(AssetAddressQuantity)) (<[(address, name) := n]> s.(AddressAssetQuantity)) s.
(** The balance of the cache, when it has one, is written, or erased when it is 0. *)
Definition save_quantity (erase_zero : bool) (name address : bytes) s : asset_store :=
  match p.(mapAssetsAddressAmount) !! (name, address) with
  | None => s
  | Some n => if erase_zero && (n =? 0) then erase_quantity name address s else write_quantity name address n s
  end.
Definition save_positive (name address : bytes) s : asset_store :=
  match p.(mapAssetsAddressAmount) !! (name, address) with
  | Some n => if 0 <? n then write_quantity name address n s else s
  | None => s
  end.
Definition indexed (f : asset_store -> asset_store) s : asset_store := if fAssetIndex then f s else s.

Definition dump_removed (name : bytes) (a : CAssetCacheNewAsset) s : asset_store :=
  let s := set_assets (Erase s.(passetsCache) name) (delete name s.(AssetData)) s in
  let s := set_verifiers s.(passetsVerifierCache) (delete name s.(Verifier)) s in
  indexed (erase_quantity name a.(na_address)) s.
Definition dump_added (name : bytes) (a : CAssetCacheNewAsset) s : asset_store :=
  let data := MkDatabased a.(na_asset) a.(na_height) a.(na_hash) in
  let s := set_assets (Put s.(passetsCache) name data) (<[name := data]> s.(AssetData)) s in
  indexed (write_quantity name a.(na_address) a.(na_asset).(a_amount)) s.

Definition dump_transfers s : asset_store :=
  let s := each (fun name address => erase_quantity name address) p.(setNewOwnerAssets).(ToRemove) s in
  let s := each (fun name address => save_positive name address) p.(setNewOwnerAssets).(ToAdd) s in
  let s := each (fun _ t => save_quantity true t.1.(t_name) t.2) p.(setNewTransferAssets).(ToRemove) s in
  each (fun _ t => save_quantity false t.1.(t_name) t.2) p.(setNewTransferAssets).(ToAdd) s.

Definition dump_reissue (r : CAssetCacheReissueAsset) s : asset_store :=
  let name := r.(ra_reissue).(r_name) in
  match p.(mapReissuedAssetData) !! name with
  | None => s
  | Some asset =>
    let s := set_assets (Erase s.(passetsCache) name)
               (<[asset.(a_name) := MkDatabased asset r.(ra_height) r.(ra_hash)]> s.(AssetData)) s in
    indexed (save_positive name r.(ra_address)) s
  end.
Definition dump_unreissue (r : CAssetCacheReissueAsset) s : asset_store :=
  let name := r.(ra_reissue).(r_name) in
  if bool_decide (is_Some (p.(setNewAssets).(ToRemove) !! name)) then s
  else match p.(mapReissuedAssetData) !! name with
  | None => s
  | Some asset =>
    let s := set_assets (Erase s.(passetsCache) name)
               (<[asset.(a_name) := MkDatabased asset r.(ra_height) r.(ra_hash)]> s.(AssetData)) s in
    indexed (save_quantity true name r.(ra_address)) s
  end.

Definition write_verifier (name verifier : bytes) s : asset_store :=
  set_verifiers (Erase s.(passetsVerifierCache) name) (<[name := verifier]> s.(Verifier)) s.
Definition erase_verifier (name : bytes) s : asset_store :=
  set_verifiers (Erase s.(passetsVerifierCache) name) (delete name s.(Verifier)) s.
Definition dump_verifier (name : bytes) (v : bytes * bool) : asset_store -> asset_store := write_verifier name v.1.
Definition undump_verifier (name : bytes) (v : bytes * bool) : asset_store -> asset_store :=
  if v.2 then write_verifier name v.1 else erase_verifier name.
Definition dump_verifiers s : asset_store :=
  each undump_verifier p.(setNewRestrictedVerifier).(ToRemove) (each dump_verifier p.(setNewRestrictedVerifier).(ToAdd) s).

Definition write_tag (k : asset_address) s : asset_store :=
  set_tags (Put s.(passetsQualifierCache) (address_key k.1 k.2) 1) ({[(k.2, k.1)]} ∪ s.(AddressQualifier))
    (if fAssetIndex then {[k]} ∪ s.(QualifierAddress) else s.(QualifierAddress)) s.
Definition erase_tag (k : asset_address) s : asset_store :=
  set_tags (Erase s.(passetsQualifierCache) (address_key k.1 k.2)) (s.(AddressQualifier) ∖ {[(k.2, k.1)]})
    (if fAssetIndex then s.(QualifierAddress) ∖ {[k]} else s.(QualifierAddress)) s.
Definition dump_tag (k : asset_address) (t : QualifierType) : asset_store -> asset_store :=
  match t with REMOVE_QUALIFIER => erase_tag k | ADD_QUALIFIER => write_tag k end.
Definition undump_tag (k : asset_address) (t : QualifierType) : asset_store -> asset_store :=
  match t with REMOVE_QUALIFIER => write_tag k | ADD_QUALIFIER => erase_tag k end.
Definition dump_tags s : asset_store :=
  each undump_tag p.(setNewQualifierAddress).(ToRemove) (each dump_tag p.(setNewQualifierAddress).(ToAdd) s).

Definition write_freeze (k : asset_address) s : asset_store :=
  set_freezes (Put s.(passetsRestrictionCache) (address_key k.1 k.2) 1) ({[(k.2, k.1)]} ∪ s.(RestrictedAddress)) s.
Definition erase_freeze (k : asset_address) s : asset_store :=
  set_freezes (Erase s.(passetsRestrictionCache) (address_key k.1 k.2)) (s.(RestrictedAddress) ∖ {[(k.2, k.1)]}) s.
Definition dump_freeze (k : asset_address) (t : RestrictedType) : asset_store -> asset_store :=
  match t with UNFREEZE_ADDRESS => erase_freeze k | FREEZE_ADDRESS => write_freeze k | _ => id end.
Definition undump_freeze (k : asset_address) (t : RestrictedType) : asset_store -> asset_store :=
  match t with UNFREEZE_ADDRESS => write_freeze k | FREEZE_ADDRESS => erase_freeze k | _ => id end.
Definition dump_freezes s : asset_store :=
  each undump_freeze p.(setNewRestrictedAddress).(ToRemove) (each dump_freeze p.(setNewRestrictedAddress).(ToAdd) s).

Definition write_global (name : bytes) s : asset_store :=
  set_globals (Put s.(passetsGlobalRestrictionCache) name 1) ({[name]} ∪ s.(GlobalRestriction)) s.
Definition erase_global (name : bytes) s : asset_store :=
  set_globals (Erase s.(passetsGlobalRestrictionCache) name) (s.(GlobalRestriction) ∖ {[name]}) s.
Definition dump_global (name : bytes) (t : RestrictedType) : asset_store -> asset_store :=
  match t with GLOBAL_UNFREEZE => erase_global name | GLOBAL_FREEZE => write_global name | _ => id end.
Definition undump_global (name : bytes) (t : RestrictedType) : asset_store -> asset_store :=
  match t with GLOBAL_UNFREEZE => write_global name | GLOBAL_FREEZE => erase_global name | _ => id end.
Definition dump_globals s : asset_store :=
  each undump_global p.(setNewRestrictedGlobal).(ToRemove) (each dump_global p.(setNewRestrictedGlobal).(ToAdd) s).

Definition dump_spends s : asset_store :=
  let s := foldl (fun s u => save_quantity false u.1.1 u.1.2 s) s p.(vUndoAssetAmount) in
  foldl (fun s u => save_quantity true u.1.1 u.1.2 s) s p.(vSpentAssets).

(** The databases, and the cache after [ClearDirtyCache]. *)
Definition DumpCacheToDatabase s : asset_store * CAssetsCache :=
  let s := each dump_removed p.(setNewAssets).(ToRemove) s in
  let s := each dump_added p.(setNewAssets).(ToAdd) s in
  let s := indexed dump_transfers s in
  let s := each (fun _ => dump_reissue) p.(setNewReissue).(ToAdd) s in
  let s := each (fun _ => dump_unreissue) p.(setNewReissue).(ToRemove) s in
  let s := dump_verifiers s in
  let s := dump_tags s in
  let s := dump_freezes s in
  let s := dump_globals s in
  (indexed dump_spends s, empty_cache).

End Dump.

(** ** Blocks *)

Section Blocks.
Context `{H : Hash256} `{SH : ScriptHash} (env : asset_env) (fReindex fAssetIndex : bool).
(** What variables hold that nothing was written to; [passets] and the databases. *)
Context (junk : Z) (junkType : AssetType) (p : CAssetsCache) (s : asset_store).
Implicit Types (c : CAssetsCache) (tx : CTransaction).

Definition nullAsset : CNewAsset := MkNewAsset [] 0 MAX_UNIT 0 0 [].

(** The first verifier string among the outputs; the inner [None] is one that does not read. *)
Definition found_verifier tx : option (option bytes) :=
  (fun o => verifier_string <$> AssetNullVerifierDataFromScript o.(scriptPubKey))
  <$> List.find (fun o => IsNullAssetVerifierTxDataScript o.(scriptPubKey)) tx.(vout).

Definition add_issue c (issue : option (CNewAsset * bytes)) (nHeight : Z) (blockHash : uint256) : CAssetsCache :=
  let '(asset, strAddress) := default (nullAsset, []) issue in
  (AddNewAsset fReindex fAssetIndex p s c asset strAddress nHeight blockHash).2.

(** The branch of [AddCoins] for a reissue: the cache and [undoAssetData]. *)
Definition add_reissue c tx : CAssetsCache * option (bytes * CBlockAssetUndo) :=
  let '(reissue, strAddress) := default (MkReissue [] 0 0 1 [], []) (ReissueAssetFromTransaction env tx) in
  let asset := default nullAsset (fst <$> (GetAssetMetaDataIfExists c p s reissue.(r_name)).1) in
  let c := (AddReissueAsset fAssetIndex junk p s c reissue strAddress (MkOutPoint (GetHash tx) (Z.of_nat (length tx.(vout)) - 1))).2 in
  let verifier := if type_is (assetType_of junkType asset.(a_name)) RESTRICTED then mjoin (found_verifier tx) else None in
  let strOldVerifier := match verifier with
    | Some _ => default [] (GetAssetVerifierStringIfExists c p s asset.(a_name) false).1
    | None => []
    end in
  let c := match verifier with Some v => AddRestrictedVerifier c asset.(a_name) v | None => c end in
  let fIPFSChanged := negb (is_nil reissue.(r_ipfs)) in
  let fUnitsChanged := negb (reissue.(r_units) =? -1) in
  let fVerifierChanged := bool_decide (is_Some verifier) in
  (c, if fIPFSChanged || fUnitsChanged || fVerifierChanged
      then Some (reissue.(r_name), MkAssetUndo fIPFSChanged fUnitsChanged asset.(a_ipfs) asset.(a_units) fVerifierChanged strOldVerifier)
      else None).

Definition add_kind c tx (nHeight : Z) (blockHash : uint256) : CAssetsCache * option (bytes * CBlockAssetUndo) :=
  if IsNewAsset env tx then
    let '(ownerName, ownerAddress) := default ([], []) (OwnerFromTransaction env tx) in
    let c := add_issue c (AssetFromTransaction env tx) nHeight blockHash in
    ((AddOwnerAsset fAssetIndex c ownerName ownerAddress).2, None)
  else if IsReissueAsset tx then add_reissue c tx
  else if IsNewUniqueAsset env tx then
    (foldl (fun c o => if IsScriptNewUniqueAsset env o.(scriptPubKey)
                       then add_issue c (AssetFromScript env o.(scriptPubKey)) nHeight blockHash else c) c tx.(vout), None)
  else if IsNewMsgChannelAsset env tx then (add_issue c (MsgChannelAssetFromTransaction env tx) nHeight blockHash, None)
  else if IsNewQualifierAsset env tx then (add_issue c (QualifierAssetFromTransaction env tx) nHeight blockHash, None)
  else if IsNewRestrictedAsset env tx then
    let name := (default (nullAsset, []) (RestrictedAssetFromTransaction env tx)).1.(a_name) in
    let c := add_issue c (RestrictedAssetFromTransaction env tx) nHeight blockHash in
    (match found_verifier tx with Some v => AddRestrictedVerifier c name (default [] v) | None => c end, None)
  else (c, None).

Definition qualifier_type (flag : Z) : QualifierType := if flag =? 0 then REMOVE_QUALIFIER else ADD_QUALIFIER.
Definition restricted_type (flag : Z) : RestrictedType := if flag =? 0 then UNFREEZE_ADDRESS else FREEZE_ADDRESS.
Definition global_type (flag : Z) : RestrictedType := if flag =? 0 then GLOBAL_UNFREEZE else GLOBAL_FREEZE.

Definition add_transfer c (txid : uint256) (i : nat) (script : CScript) : CAssetsCache :=
  match GetAssetData env script with
  | Some d =>
    if (d.(o_type) =? TX_TRANSFER_ASSET) && (0 <? d.(o_amount)) then
      let transfer := MkTransfer d.(o_name) d.(o_amount) d.(o_message) (if is_nil d.(o_message) then 0 else d.(o_expire)) in
      (AddTransferAsset fAssetIndex p s c transfer (default [] (EncodeDestination env.(e_prefixes) d.(o_destination)))
        (MkOutPoint txid (Z.of_nat i))).2
    else c
  | None => c
  end.

Definition add_null c (script : CScript) : CAssetsCache :=
  if negb (IsNullAsset script) then c
  else if IsNullAssetTxDataScript script then
    let '(data, address) := default (MkNullData [] (-1), []) (AssetNullDataFromScript env script) in
    let type := assetType_of junkType data.(d_name) in
    if type_is type RESTRICTED then AddRestrictedAddress c data.(d_name) address (restricted_type data.(d_flag))
    else if type_is type QUALIFIER || type_is type SUB_QUALIFIER
    then AddQualifierAddress c data.(d_name) address (qualifier_type data.(d_flag))
    else c
  else if IsNullGlobalRestrictionAssetTxDataScript script then
    let data := default (MkNullData [] (-1)) (GlobalAssetNullDataFromScript script) in
    AddGlobalRestricted c data.(d_name) (global_type data.(d_flag))
  else c.

(** What [AddCoins] does to the asset cache, and what it leaves for the undo data. *)
Definition AddCoins c tx (nHeight : Z) (blockHash : uint256) : CAssetsCache * option (bytes * CBlockAssetUndo) :=
  if negb env.(fAssetsIsActive) then (c, None)
  else
    let '(c, undo) := add_kind c tx nHeight blockHash in
    (foldl (fun c io => add_null (add_transfer c (GetHash tx) io.1 io.2.(scriptPubKey)) io.2.(scriptPubKey)) c (imap pair tx.(vout)), undo).

(** [UpdateCoins], with the outputs that are spent: [None] is the failing assertion. *)
Definition UpdateCoins c tx (spent : list CTxOut) (nHeight : Z) (blockHash : uint256)
  : option (CAssetsCache * option (bytes * CBlockAssetUndo)) :=
  let spend c o := if negb env.(fAssetsIsActive) then Some c
                   else let '(ok, c) := TrySpendCoin env fAssetIndex p s c o in if ok : bool then Some c else None in
  c ← (if IsCoinBase tx then Some c else foldl (fun oc o => c ← oc; spend c o) (Some c) spent);
  Some (AddCoins c tx nHeight blockHash).

(** *** Disconnecting *)

(** [ContainsAsset], then [RemoveNewAsset]; [None] is [DISCONNECT_FAILED]. *)
Definition remove_issue c (issue : option (CNewAsset * bytes)) : option CAssetsCache :=
  '(asset, strAddress) ← issue;
  if ContainsAsset fReindex p s c asset.(a_name) then
    let '(ok, c) := RemoveNewAsset fReindex fAssetIndex p s c asset strAddress in if ok : bool then Some c else None
  else Some c.

(** The last unspendable output that carries a verifier string. *)
Definition last_verifier tx : option CTxOut :=
  last (List.filter (fun o => IsUnspendable GetAssetAmountFromScript o.(scriptPubKey) && IsNullAssetVerifierTxDataScript o.(scriptPubKey)
                              && IsNullAsset o.(scriptPubKey) && env.(fRip5IsActive)) tx.(vout)).

Definition remove_kind c tx (vUndoData : list (bytes * CBlockAssetUndo)) : option CAssetsCache :=
  if IsNewAsset env tx then
    c ← remove_issue c (AssetFromTransaction env tx);
    '(ownerName, ownerAddress) ← OwnerFromTransaction env tx;
    Some (RemoveOwnerAsset fAssetIndex c ownerName ownerAddress).2
  else if IsReissueAsset tx then
    '(reissue, strAddress) ← ReissueAssetFromTransaction env tx;
    if ContainsAsset fReindex p s c reissue.(r_name) then
      let '(ok, c) := RemoveReissueAsset fAssetIndex junk p s c reissue strAddress
                        (MkOutPoint (GetHash tx) (Z.of_nat (length tx.(vout)) - 1)) vUndoData in
      if ok : bool then Some c else None
    else Some c
  else if IsNewUniqueAsset env tx then
    foldl (fun oc o => c ← oc; if IsScriptNewUniqueAsset env o.(scriptPubKey)
                             then remove_issue c (AssetFromScript env o.(scriptPubKey)) else Some c) (Some c) tx.(vout)
  else if IsNewMsgChannelAsset env tx then remove_issue c (MsgChannelAssetFromTransaction env tx)
  else if IsNewQualifierAsset env tx then remove_issue c (QualifierAssetFromTransaction env tx)
  else if IsNewRestrictedAsset env tx then
    '(asset, _) ← RestrictedAssetFromTransaction env tx;
    c ← remove_issue c (RestrictedAssetFromTransaction env tx);
    o ← last_verifier tx;
    verifier ← AssetNullVerifierDataFromScript o.(scriptPubKey);
    Some (RemoveRestrictedVerifier c asset.(a_name) verifier.(verifier_string) false)
  else Some c.

Definition remove_transfer c (txid : uint256) (i : nat) (script : CScript) : option CAssetsCache :=
  if negb (IsUnspendable GetAssetAmountFromScript script) && IsScriptTransferAsset script then
    '(transfer, strAddress) ← TransferAssetFromScript env script;
    let '(ok, c) := RemoveTransfer fAssetIndex p s c transfer strAddress (MkOutPoint txid (Z.of_nat i)) in
    if ok : bool then Some c else None
  else Some c.

Definition remove_null c (script : CScript) : option CAssetsCache :=
  if negb (IsUnspendable GetAssetAmountFromScript script && IsNullAsset script && env.(fRip5IsActive)) || IsNullAssetVerifierTxDataScript script then Some c
  else if IsNullAssetTxDataScript script then
    '(data, address) ← AssetNullDataFromScript env script;
    let type := assetType_of junkType data.(d_name) in
    if type_is type QUALIFIER || type_is type SUB_QUALIFIER
    then Some (RemoveQualifierAddress c data.(d_name) address (qualifier_type data.(d_flag)))
    else if type_is type RESTRICTED then Some (RemoveRestrictedAddress c data.(d_name) address (restricted_type data.(d_flag)))
    else Some c
  else if IsNullGlobalRestrictionAssetTxDataScript script then
    data ← GlobalAssetNullDataFromScript script;
    Some (RemoveGlobalRestricted c data.(d_name) (global_type data.(d_flag)))
  else Some c.

(** What [DisconnectBlock] does to the asset cache for a transaction, without
    restoring its inputs. *)
Definition disconnect_tx c tx (vUndoData : list (bytes * CBlockAssetUndo)) : option CAssetsCache :=
  if negb env.(fAssetsIsActive) then Some c
  else
    c ← remove_kind c tx vUndoData;
    c ← foldl (fun oc io => c ← oc; remove_transfer c (GetHash tx) io.1 io.2.(scriptPubKey)) (Some c) (imap pair tx.(vout));
    foldl (fun oc o => c ← oc; remove_null c o.(scriptPubKey)) (Some c) tx.(vout).

(** Restoring an input: the flag is [fClean]. *)
Definition restore_input c (coin : Coin) : bool * CAssetsCache :=
  if env.(fAssetsIsActive) && IsAssetScript coin.(out).(scriptPubKey) then UndoAssetCoin env fAssetIndex p s c coin else (true, c).

(** The transactions of a block, each with the outputs it spends: the cache and
    the asset undo data that [ConnectBlock] stores. *)
Definition connect_assets c (vtx : list (CTransaction * list CTxOut)) (nHeight : Z) (blockHash : uint256)
  : option (CAssetsCache * list (bytes * CBlockAssetUndo)) :=
  foldl (fun st txs => '(c, vUndo) ← st;
                       '(c, undo) ← UpdateCoins c txs.1 txs.2 nHeight blockHash;
                       Some (c, vUndo ++ match undo with Some u => if is_nil u.1 then [] else [u] | None => [] end))
    (Some (c, [])) vtx.

(** The loop of [DisconnectBlock], last transaction first, each with the coins
    it spent, as far as it changes the asset cache.  The flag is the part of [fClean]
    that the restored inputs decide. *)
Definition disconnect_assets c (vtx : list (CTransaction * list Coin)) (vUndoData : list (bytes * CBlockAssetUndo))
  : option (bool * CAssetsCache) :=
  foldl (fun st txs => '(fClean, c) ← st;
                       c ← disconnect_tx c txs.1 vUndoData;
                       Some (foldl (fun st coin => let '(ok, c) := restore_input st.2 coin in (st.1 && ok, c)) (fClean, c) (reverse txs.2)))
    (Some (true, c)) (reverse vtx).

End Blocks.

(** ** Facts about the dirty sets *)

Section DirtyFacts.
Context {K : Type} `{Countable K}.

(** A loop over a map whose body changes what is seen at its key. *)
Lemma fold_keyed {S A V} (f : K -> V -> S -> S) (obs : S -> K -> A) (g : V -> A -> A) :
  (forall k v s, obs (f k v s) k = g v (obs s k)) -> (forall k v s k', k <> k' -> obs (f k v s) k' = obs s k') ->
  forall (m : gmap K V) s k, obs (foldl (fun s kv => f kv.1 kv.2 s) s (map_to_list m)) k
    = match m !! k with Some v => g v (obs s k) | None => obs s k end.
Proof.
  intros Hin Hout m s k. assert (NoDup (map_to_list m).*1) as Hnd by apply NoDup_fst_map_to_list.
  replace (m !! k) with ((list_to_map (map_to_list m) : gmap K V) !! k) by (by rewrite list_to_map_to_list).
  revert s. induction (map_to_list m) as [|[k0 v0] l IH]; intros s; [done|]. cbn in Hnd. apply NoDup_cons in Hnd as [Hk0 Hnd].
  cbn [foldl list_to_map foldr fst snd]. rewrite IH by done. destruct (decide (k0 = k)) as [->|Hne].
  - rewrite lookup_insert_eq. rewrite (not_elem_of_list_to_map_1 (M := gmap K)) by done. by rewrite Hin.
  - rewrite lookup_insert_ne by done. by rewrite Hout.
Qed.

Context {V : Type}.
Definition entries (d : dirty K V) (k : K) : option V * option V := (d.(ToAdd) !! k, d.(ToRemove) !! k).

Definition over (v : V) (e : option V * option V) : option V * option V := (Some v, None).
Definition unover (v : V) (e : option V * option V) : option V * option V := (None, Some v).

Lemma entries_add k v d k' : entries (add_over k v d) k' = if decide (k = k') then (Some v, None) else entries d k'.
Proof.
  unfold entries, add_over; cbn. case_decide as E; [subst; by rewrite lookup_insert_eq, lookup_delete_eq|].
  by rewrite lookup_insert_ne, lookup_delete_ne.
Qed.
Lemma entries_remove k v d k' : entries (remove_over k v d) k' = if decide (k = k') then (None, Some v) else entries d k'.
Proof.
  unfold entries, remove_over; cbn. case_decide as E; [subst; by rewrite lookup_insert_eq, lookup_delete_eq|].
  by rewrite lookup_insert_ne, lookup_delete_ne.
Qed.

Lemma entries_flush c p k : entries (flush_over c p) k =
  match c.(ToRemove) !! k with
  | Some v => (None, Some v)
  | None => match c.(ToAdd) !! k with Some v => (Some v, None) | None => entries p k end
  end.
Proof.
  unfold flush_over, flush_with.
  rewrite (fold_keyed remove_over entries unover).
  - rewrite (fold_keyed add_over entries over); [done|intros; rewrite entries_add; by rewrite decide_True|].
    intros; rewrite entries_add; by rewrite decide_False.
  - intros; rewrite entries_remove; by rewrite decide_True.
  - intros; rewrite entries_remove; by rewrite decide_False.
Qed.

(** What a pair of sets says of a key: its undoing first. *)
Definition effect {A} (undo redo : V -> A) (d : dirty K V) (k : K) : option A :=
  match entries d k with (_, Some v) => Some (undo v) | (a, None) => redo <$> a end.

Context {A : Type} (undo redo : V -> A).

Lemma probe_tip mine c p k : probe undo mine redo true c p k = effect undo redo p k.
Proof. unfold probe, effect, entries. destruct (_ !! k); [done|]. by destruct (_ !! k). Qed.

(** With the changes of the block itself, of a key the tip does not undo. *)
Lemma probe_block c p k : p.(ToRemove) !! k = None ->
  probe undo redo redo false c p k = effect undo redo (flush_over c p) k.
Proof.
  intros Hp. unfold probe, effect. rewrite entries_flush. unfold entries. rewrite Hp.
  destruct (ToRemove c !! k), (ToAdd c !! k); [done..|]. by destruct (ToAdd p !! k).
Qed.

(** After [Flush] the tip says what the block said, and what it said where the block is silent. *)
Lemma effect_flush c p k : effect undo redo (flush_over c p) k =
  match effect undo redo c k with Some a => Some a | None => effect undo redo p k end.
Proof. unfold effect. rewrite entries_flush. unfold entries. by destruct (ToRemove c !! k), (ToAdd c !! k). Qed.

Definition adds (l : list (K * V)) (d : dirty K V) : dirty K V := foldl (fun d kv => add_over kv.1 kv.2 d) d l.
Definition removes (l : list (K * V)) (d : dirty K V) : dirty K V := foldl (fun d kv => remove_over kv.1 kv.2 d) d l.

Lemma effect_adds l d k : (exists v, (k, v) ∈ l /\ effect undo redo (adds l d) k = Some (redo v))
  \/ (~ (k ∈ l.*1) /\ effect undo redo (adds l d) k = effect undo redo d k).
Proof.
  unfold adds. induction l as [|[k0 v0] l IH] using rev_ind; [right; split; [apply not_elem_of_nil|done]|].
  rewrite foldl_app, fmap_app. cbn [foldl fst snd fmap list_fmap]. unfold effect at 1 2. rewrite entries_add. case_decide as E.
  - subst. left. exists v0. split; [apply elem_of_app; right; apply list_elem_of_here|done].
  - destruct IH as [(v & Hv & IH)|[Hk IH]]; [left; exists v|right]; (split; [|exact IH]).
    + apply elem_of_app; by left.
    + intros [Hi|Hi]%elem_of_app; [done|]. apply list_elem_of_singleton in Hi. by subst.
Qed.

Lemma effect_removes l d k : (exists v, (k, v) ∈ l /\ effect undo redo (removes l d) k = Some (undo v))
  \/ (~ (k ∈ l.*1) /\ effect undo redo (removes l d) k = effect undo redo d k).
Proof.
  unfold removes. induction l as [|[k0 v0] l IH] using rev_ind; [right; split; [apply not_elem_of_nil|done]|].
  rewrite foldl_app, fmap_app. cbn [foldl fst snd fmap list_fmap]. unfold effect at 1 2. rewrite entries_remove. case_decide as E.
  - subst. left. exists v0. split; [apply elem_of_app; right; apply list_elem_of_here|done].
  - destruct IH as [(v & Hv & IH)|[Hk IH]]; [left; exists v|right]; (split; [|exact IH]).
    + apply elem_of_app; by left.
    + intros [Hi|Hi]%elem_of_app; [done|]. apply list_elem_of_singleton in Hi. by subst.
Qed.

(** Connecting changes that differ from what was answered before, and then
    disconnecting them, in any order, restores the answers. *)
Lemma changes_undone p l l' k (base : A) : l' ≡ₚ l ->
  (forall v, (k, v) ∈ l -> undo v = from_option id base (effect undo redo p k)) ->
  from_option id base (effect undo redo (flush_over (removes l' no_changes) (flush_over (adds l no_changes) p)) k)
  = from_option id base (effect undo redo p k).
Proof.
  intros Hl Hold. rewrite effect_flush, effect_flush.
  destruct (effect_removes l' no_changes k) as [(v & Hv & ->)|[Hk ->]].
  - rewrite Hl in Hv. cbn. by apply Hold.
  - rewrite Hl in Hk. destruct (effect_adds l no_changes k) as [(v & Hv & _)|[_ ->]]; [|done].
    destruct Hk. apply list_elem_of_fmap. by exists (k, v).
Qed.

End DirtyFacts.

(** Changes that differ from what was answered before turn the answer over. *)
Lemma changes_published `{Countable K} {V} (undo redo : V -> bool) (p : dirty K V) l k (base : bool) :
  (forall v, (k, v) ∈ l -> undo v = from_option id base (effect undo redo p k) /\ redo v = negb (undo v)) ->
  from_option id base (effect undo redo (flush_over (adds l no_changes) p) k)
  = xorb (from_option id base (effect undo redo p k)) (bool_decide (k ∈ l.*1)).
Proof.
  intros Hl. rewrite effect_flush. destruct (effect_adds undo redo l no_changes k) as [(v & Hv & ->)|[Hk ->]].
  - rewrite bool_decide_eq_true_2 by (apply list_elem_of_fmap; by exists (k, v)). destruct (Hl v Hv) as [<- ->]. cbn. by destruct (undo v).
  - rewrite bool_decide_eq_false_2 by done. cbn. by rewrite xorb_false_r.
Qed.

(** ** What blocks do to tags and freezes *)

Lemma ofold_none {S A} (f : S -> A -> option S) l : foldl (fun os x => s ← os; f s x) None l = None.
Proof. by induction l. Qed.

Lemma tag_type name t : name_type name = Some t ->
  (t = QUALIFIER \/ t = SUB_QUALIFIER -> IsAssetNameAQualifier name false = true)
  /\ (t = RESTRICTED -> IsAssetNameAQualifier name false = false /\ IsAssetNameAnRestricted name = true).
Proof.
  intros E. assert (IsAssetNameValid name = true) as Hv.
  { unfold name_type in E. unfold IsAssetNameValid. by destruct (nc_valid _). }
  unfold IsAssetNameAQualifier, IsAssetNameAnRestricted. rewrite Hv. cbn [andb].
  unfold name_type, CheckAssetName in E. destruct (40 <? length name)%nat; [done|].
  repeat match type of E with context [if Regex.regex_match name ?r then _ else _] => destruct (Regex.regex_match name r); [apply type_checked_type in E as [_ <-]; destruct (IsAssetNameASubQualifier name); split; intros Ht; by destruct_or? Ht|] end.
  apply type_checked_type in E as [_ <-]. destruct (IsAssetNameASubasset name); split; intros Ht; by destruct_or? Ht.
Qed.

(** The change an output makes: the tag or freeze of an address, or the freeze of an asset. *)
Inductive status_change :=
| ChTag (k : asset_address) (t : QualifierType)
| ChFreeze (k : asset_address) (t : RestrictedType)
| ChGlobal (name : bytes) (t : RestrictedType).

(** The parts of a cache that hold tags and freezes. *)
Definition status (c : CAssetsCache) :=
  (c.(setNewQualifierAddress), c.(setNewRestrictedAddress), c.(setNewRestrictedGlobal),
   c.(mapRootQualifierAddressesAdd), c.(mapRootQualifierAddressesRemove)).

Section BlockFacts.
Context `{H : Hash256} `{SH : ScriptHash} (env : asset_env) (fReindex fAssetIndex : bool).
Context (junk : Z) (junkType : AssetType).
Implicit Types (c p : CAssetsCache) (s : asset_store) (tx : CTransaction).

Definition change_of (script : CScript) : option status_change :=
  if negb (IsNullAsset script) then None
  else if IsNullAssetTxDataScript script then
    let '(data, address) := default (MkNullData [] (-1), []) (AssetNullDataFromScript env script) in
    let type := assetType_of junkType data.(d_name) in
    if type_is type RESTRICTED then Some (ChFreeze (data.(d_name), address) (restricted_type data.(d_flag)))
    else if type_is type QUALIFIER || type_is type SUB_QUALIFIER
    then Some (ChTag (data.(d_name), address) (qualifier_type data.(d_flag)))
    else None
  else if IsNullGlobalRestrictionAssetTxDataScript script then
    let data := default (MkNullData [] (-1)) (GlobalAssetNullDataFromScript script) in
    Some (ChGlobal data.(d_name) (global_type data.(d_flag)))
  else None.

Definition add_change c (ch : status_change) : CAssetsCache :=
  match ch with
  | ChTag k t => AddQualifierAddress c k.1 k.2 t
  | ChFreeze k t => AddRestrictedAddress c k.1 k.2 t
  | ChGlobal name t => AddGlobalRestricted c name t
  end.
Definition remove_change c (ch : status_change) : CAssetsCache :=
  match ch with
  | ChTag k t => RemoveQualifierAddress c k.1 k.2 t
  | ChFreeze k t => RemoveRestrictedAddress c k.1 k.2 t
  | ChGlobal name t => RemoveGlobalRestricted c name t
  end.

Lemma add_null_change c script : add_null env junkType c script = from_option (add_change c) c (change_of script).
Proof.
  unfold add_null, change_of. destruct (IsNullAsset script); [|done]. cbn [negb].
  destruct (IsNullAssetTxDataScript script).
  - destruct (default _ _) as [d address]. destruct (type_is _ RESTRICTED); [done|]. by destruct (_ || _).
  - by destruct (IsNullGlobalRestrictionAssetTxDataScript script).
Qed.

Lemma null_unspendable (s : CScript) : IsNullAsset s = true -> IsUnspendable GetAssetAmountFromScript s = true.
Proof.
  unfold IsNullAsset, IsUnspendable, IsNullAssetTxDataScript, IsNullGlobalRestrictionAssetTxDataScript, IsNullAssetVerifierTxDataScript.
  intros Hs. bool_to_prop. lia.
Qed.

Lemma null_verifier (s : CScript) : IsNullAssetVerifierTxDataScript s = true ->
  IsNullAssetTxDataScript s = false /\ IsNullGlobalRestrictionAssetTxDataScript s = false.
Proof.
  unfold IsNullAssetTxDataScript, IsNullGlobalRestrictionAssetTxDataScript, IsNullAssetVerifierTxDataScript.
  intros Hs. bool_to_prop. lia.
Qed.

Lemma remove_null_change c c' script : env.(fRip5IsActive) = true -> remove_null env junkType c script = Some c' ->
  c' = from_option (remove_change c) c (change_of script).
Proof.
  intros H5. unfold remove_null, change_of. rewrite H5, andb_true_r.
  destruct (IsNullAsset script) eqn:EN; [|rewrite andb_false_r; cbn; by intros [= ->]].
  rewrite (null_unspendable _ EN). cbn [andb negb orb].
  destruct (IsNullAssetVerifierTxDataScript script) eqn:EV.
  { destruct (null_verifier _ EV) as [-> ->]. by intros [= ->]. }
  destruct (IsNullAssetTxDataScript script).
  - destruct (AssetNullDataFromScript env script) as [[d address]|]; [|done]. cbn [default from_option mbind option_bind id].
    destruct (type_is _ RESTRICTED) eqn:ER.
    + unfold type_is in *. apply bool_decide_eq_true in ER as ->. cbn. by intros [= <-].
    + destruct (_ || _); by intros [= <-].
  - destruct (IsNullGlobalRestrictionAssetTxDataScript script); [|by intros [= ->]].
    destruct (GlobalAssetNullDataFromScript script) as [d|]; [|done]. by intros [= <-].
Qed.

(** Everything else leaves tags and freezes alone. *)
Definition keeps c c' : Prop := status c' = status c.

Lemma keeps_trans c1 c2 c3 : keeps c1 c2 -> keeps c2 c3 -> keeps c1 c3.
Proof. unfold keeps. congruence. Qed.
Lemma keeps_fold {A} (f : CAssetsCache -> A -> CAssetsCache) l : (forall c x, keeps c (f c x)) -> forall c, keeps c (foldl f c l).
Proof. intros Hf. induction l as [|x l IH]; intros c; [done|]. cbn. eapply keeps_trans; [apply Hf|apply IH]. Qed.

Lemma keeps_if (b : bool) c c1 c2 : keeps c c1 -> keeps c c2 -> keeps c (if b then c1 else c2).
Proof. by destruct b. Qed.

Context (p : CAssetsCache) (s : asset_store).

Lemma keeps_set_amount k n c : keeps c (set_amount k n c).
Proof. by destruct c. Qed.
Lemma keeps_set_spent v c : keeps c (set_spent v c).
Proof. by destruct c. Qed.
Lemma keeps_set_undo v c : keeps c (set_undo v c).
Proof. by destruct c. Qed.
Lemma keeps_set_transfer v c : keeps c (set_transfer v c).
Proof. by destruct c. Qed.
Lemma keeps_set_reissues v w c : keeps c (set_reissue v (set_reissued w c)).
Proof. by destruct c. Qed.
Lemma keeps_set_owner v c : keeps c (set_owner v c).
Proof. by destruct c. Qed.
Lemma keeps_set_verifier v c : keeps c (set_verifier v c).
Proof. by destruct c. Qed.
Lemma keeps_best c n a : keeps c (GetBestAssetAddressAmount fAssetIndex p s c n a).2.
Proof. unfold GetBestAssetAddressAmount. destruct fAssetIndex; [|done]. cbn [negb]. destruct c. repeat (destruct (_ !! _); [done|]). done. Qed.
Lemma keeps_change c n a f : keeps c (change_amount fAssetIndex p s c n a f).
Proof. unfold change_amount. eapply keeps_trans; [apply keeps_best|apply keeps_set_amount]. Qed.

Lemma keeps_spend c o : keeps c (TrySpendCoin env fAssetIndex p s c o).2.
Proof.
  unfold TrySpendCoin. destruct (negb (IsAssetScript _)); [done|]. destruct (spent_asset env _) as [[[a n] m]|]; [|done].
  destruct (_ || _); [done|]. destruct (fAssetIndex && _); [|done]. pose proof (keeps_best c n a) as Hb.
  destruct (GetBestAssetAddressAmount _ _ _ _ _ _) as [[] c1]; [|exact Hb]. cbn [negb snd] in *. eapply keeps_trans; [exact Hb|].
  eapply keeps_trans; [apply keeps_set_amount|apply keeps_set_spent].
Qed.

Lemma keeps_restore c coin : keeps c (restore_input env fAssetIndex p s c coin).2.
Proof.
  unfold restore_input, UndoAssetCoin, AddBackSpentAsset. destruct (_ && _); [|done]. destruct (spent_asset env _) as [[[a n] m]|]; [|done].
  destruct (_ || _); [done|]. cbn [snd]. eapply keeps_trans; [apply keeps_if; [apply keeps_change|done]|apply keeps_set_undo].
Qed.

Lemma keeps_issue c i h b : keeps c (add_issue fReindex fAssetIndex p s c i h b).
Proof.
  unfold add_issue, AddNewAsset. destruct (default _ _) as [a addr]. destruct (ContainsAsset _ _ _ _ _); [done|].
  cbn [snd]. destruct c, fAssetIndex; done.
Qed.

Lemma keeps_unissue c c' i : remove_issue fReindex fAssetIndex p s c i = Some c' -> keeps c c'.
Proof.
  unfold remove_issue, RemoveNewAsset. destruct i as [[a addr]|]; [|done]. cbn [mbind option_bind].
  destruct (ContainsAsset _ _ _ _ _); cbn [negb]; intros [= <-]; [|done]. destruct c, fAssetIndex; done.
Qed.

Lemma keeps_reissue c tx : keeps c (add_reissue env fAssetIndex junk junkType p s c tx).1.
Proof.
  unfold add_reissue, AddReissueAsset. destruct (default _ _) as [r addr]. cbn [fst].
  assert (forall c n v, keeps c (AddRestrictedVerifier c n v)) as Hv by (intros []; done).
  match goal with |- keeps _ (match ?m with Some v => AddRestrictedVerifier ?c1 _ _ | None => ?c1 end) =>
    assert (keeps c c1) as H1; [|by destruct m; [eapply keeps_trans; [exact H1|apply Hv]|]] end.
  destruct (GetAssetMetaDataIfExists c p s (r_name r)) as [[[a b]|] s']; cbn [fst snd]; [|done].
  destruct (default (junk, 0) b) as [ht hs]. cbn [snd].
  match goal with |- keeps _ (if _ then change_amount _ _ _ ?c1 _ _ _ else _) => assert (keeps c c1) as H1 by (by destruct c) end.
  apply keeps_if; [|exact H1]. eapply keeps_trans; [exact H1|apply keeps_change].
Qed.

Lemma keeps_kind c tx h b : keeps c (add_kind env fReindex fAssetIndex junk junkType p s c tx h b).1.
Proof.
  unfold add_kind. destruct (IsNewAsset env tx).
  { destruct (default _ _) as [on oa]. cbn [fst]. eapply keeps_trans; [apply keeps_issue|]. unfold AddOwnerAsset. cbn [snd].
    apply keeps_if; [eapply keeps_trans; [apply keeps_set_owner|apply keeps_set_amount]|apply keeps_set_owner]. }
  destruct (IsReissueAsset tx); [apply keeps_reissue|]. destruct (IsNewUniqueAsset env tx).
  { cbn [fst]. apply keeps_fold. intros c' o. destruct (IsScriptNewUniqueAsset _ _); [apply keeps_issue|done]. }
  destruct (IsNewMsgChannelAsset env tx); [apply keeps_issue|]. destruct (IsNewQualifierAsset env tx); [apply keeps_issue|].
  destruct (IsNewRestrictedAsset env tx); [|done]. cbn [fst]. destruct (found_verifier tx); [|apply keeps_issue].
  eapply keeps_trans; [apply keeps_issue|apply keeps_set_verifier].
Qed.

Lemma keeps_transfer c t i sc : keeps c (add_transfer env fAssetIndex p s c t i sc).
Proof.
  unfold add_transfer, AddTransferAsset, AddToAssetBalance. destruct (GetAssetData env sc); [|done]. destruct (_ && _); [|done].
  cbn [snd]. eapply keeps_trans; [apply keeps_if; [apply keeps_change|done]|apply keeps_set_transfer].
Qed.

Lemma keeps_untransfer c c' t i sc : remove_transfer env fAssetIndex p s c t i sc = Some c' -> keeps c c'.
Proof.
  unfold remove_transfer, RemoveTransfer, UndoTransfer. destruct (_ && _); [|by intros [= <-]].
  destruct (TransferAssetFromScript env sc) as [[tr a]|]; [|done]. cbn [mbind option_bind].
  pose proof (keeps_best c (t_name tr) a) as Hb. destruct (negb fAssetIndex); [intros [= <-]; apply keeps_set_transfer|].
  destruct (GetBestAssetAddressAmount _ _ _ _ _ _) as [[] c1]; [|done]. cbn [negb snd] in *. destruct (_ <? _); [done|]. cbn [negb].
  intros [= <-]. eapply keeps_trans; [exact Hb|]. eapply keeps_trans; [apply keeps_set_amount|apply keeps_set_transfer].
Qed.

Lemma keeps_unreissue c r a o u : keeps c (RemoveReissueAsset fAssetIndex junk p s c r a o u).2.
Proof.
  unfold RemoveReissueAsset. destruct (GetAssetMetaDataIfExists c p s (r_name r)) as [[[d b]|] s']; cbn [fst snd]; [|done].
  destruct (default (junk, 0) b) as [ht hs].
  match goal with |- keeps _ (if fAssetIndex then let '(_, _) := GetBestAssetAddressAmount _ _ _ ?c1 _ _ in _ else _).2 =>
    assert (keeps c c1) as H1 end.
  { destruct (find_undo _ _) as [x|]; [apply keeps_if|]; [|apply keeps_set_reissues..].
    eapply keeps_trans; [apply keeps_set_reissues|apply keeps_set_verifier]. }
  match goal with |- keeps _ (if fAssetIndex then let '(_, _) := GetBestAssetAddressAmount _ _ _ ?c1 ?n1 ?a1 in _ else _).2 =>
    pose proof (keeps_best c1 n1 a1) as Hb; set (cr := c1) in * end.
  destruct (GetBestAssetAddressAmount _ _ _ _ _ _) as [found c2]. cbn [snd] in Hb. pose proof (keeps_trans _ _ _ H1 Hb) as H2.
  destruct fAssetIndex; [|exact H1]. destruct (_ && _); [exact H2|]. cbn [snd]. eapply keeps_trans; [exact H2|apply keeps_set_amount].
Qed.

Lemma keeps_ofold {A} (f : CAssetsCache -> A -> option CAssetsCache) l : (forall c c' x, f c x = Some c' -> keeps c c') ->
  forall c c', foldl (fun oc x => c ← oc; f c x) (Some c) l = Some c' -> keeps c c'.
Proof.
  intros Hf. induction l as [|x l IH]; intros c c'; cbn; [by intros [= <-]|]. destruct (f c x) as [c1|] eqn:E.
  - intros E'. eapply keeps_trans; [by eapply Hf|by apply IH].
  - by rewrite (ofold_none f).
Qed.

Lemma keeps_unkind c c' tx u : remove_kind env fReindex fAssetIndex junk p s c tx u = Some c' -> keeps c c'.
Proof.
  unfold remove_kind. destruct (IsNewAsset env tx).
  { destruct (remove_issue _ _ _ _ _ _) as [c1|] eqn:E; [|done]. apply keeps_unissue in E. cbn [mbind option_bind].
    destruct (OwnerFromTransaction env tx) as [[on oa]|]; [|done]. cbn [mbind option_bind]. intros [= <-].
    eapply keeps_trans; [exact E|]. unfold RemoveOwnerAsset. cbn [snd].
    apply keeps_if; [eapply keeps_trans; [apply keeps_set_owner|apply keeps_set_amount]|apply keeps_set_owner]. }
  destruct (IsReissueAsset tx).
  { destruct (ReissueAssetFromTransaction env tx) as [[r a]|]; [|done]. cbn [mbind option_bind].
    destruct (ContainsAsset _ _ _ _ _); [|by intros [= <-]].
    match goal with |- context [RemoveReissueAsset ?fi ?j p s c r a ?o u] => pose proof (keeps_unreissue c r a o u) as Hk end.
    destruct (RemoveReissueAsset _ _ _ _ _ _ _ _ _) as [[] c1]; [|done]. by intros [= <-]. }
  destruct (IsNewUniqueAsset env tx).
  { apply keeps_ofold. intros c1 c2 o. destruct (IsScriptNewUniqueAsset _ _); [apply keeps_unissue|by intros [= <-]]. }
  destruct (IsNewMsgChannelAsset env tx); [apply keeps_unissue|]. destruct (IsNewQualifierAsset env tx); [apply keeps_unissue|].
  destruct (IsNewRestrictedAsset env tx); [|by intros [= <-]].
  destruct (RestrictedAssetFromTransaction env tx) as [[a addr]|]; [|done]. cbn [mbind option_bind].
  destruct (remove_issue _ _ _ _ _ _) as [c1|] eqn:E; [|done]. apply keeps_unissue in E. cbn [mbind option_bind].
  destruct (last_verifier env tx); [|done]. cbn [mbind option_bind].
  destruct (AssetNullVerifierDataFromScript _); [|done]. intros [= <-]. eapply keeps_trans; [exact E|apply keeps_set_verifier].
Qed.

(** The changes of the outputs of a transaction, in their order. *)
Definition changes (vout : list CTxOut) : list status_change := omap (fun o => change_of o.(scriptPubKey)) vout.

Lemma status_add c c' ch : status c = status c' -> status (add_change c ch) = status (add_change c' ch).
Proof.
  destruct c, c'; cbv [status setNewQualifierAddress setNewRestrictedAddress setNewRestrictedGlobal
    mapRootQualifierAddressesAdd mapRootQualifierAddressesRemove]. intros [= -> -> -> -> ->].
  destruct ch; cbn; try done. unfold AddQualifierAddress, root_change. destruct (IsAssetNameASubQualifier k.1); [|done].
  by destruct (bool_decide _).
Qed.
Lemma status_remove c c' ch : status c = status c' -> status (remove_change c ch) = status (remove_change c' ch).
Proof.
  destruct c, c'; cbv [status setNewQualifierAddress setNewRestrictedAddress setNewRestrictedGlobal
    mapRootQualifierAddressesAdd mapRootQualifierAddressesRemove]. intros [= -> -> -> -> ->].
  destruct ch; cbn; try done. unfold RemoveQualifierAddress, root_change. destruct (IsAssetNameASubQualifier k.1); [|done].
  by destruct (negb (bool_decide _)).
Qed.
Lemma status_fold (f : CAssetsCache -> status_change -> CAssetsCache) l : (forall c c' ch, status c = status c' -> status (f c ch) = status (f c' ch)) ->
  forall c c', status c = status c' -> status (foldl f c l) = status (foldl f c' l).
Proof. intros Hf. induction l as [|ch l IH]; intros c c' E; [done|]. cbn. by apply IH, Hf. Qed.

Lemma AddCoins_status c tx h b : env.(fAssetsIsActive) = true ->
  status (AddCoins env fReindex fAssetIndex junk junkType p s c tx h b).1 = status (foldl add_change c (changes tx.(vout))).
Proof.
  intros Ha. unfold AddCoins. rewrite Ha. cbn [negb]. pose proof (keeps_kind c tx h b) as Hk.
  destruct (add_kind _ _ _ _ _ _ _ _ _ _ _) as [c1 u]. cbn [fst] in *. unfold changes.
  assert (forall (n : nat) (o : CTxOut), (n, o).2 = o) as Hg by done. revert Hg. generalize (@pair nat CTxOut) as g.
  revert c c1 Hk. generalize tx.(vout) as outs.
  induction outs as [|o outs IH]; intros c c1 Hk g Hg; [done|]. cbn [imap omap list_omap foldl].
  rewrite add_null_change, Hg. destruct (change_of (scriptPubKey o)) as [ch|]; cbn [from_option foldl].
  - apply IH; [|intros; apply Hg]. unfold keeps. apply status_add. etransitivity; [apply keeps_transfer|exact Hk].
  - apply IH; [|intros; apply Hg]. eapply keeps_trans; [exact Hk|apply keeps_transfer].
Qed.

Lemma UpdateCoins_status c tx spent h b c' u : env.(fAssetsIsActive) = true ->
  UpdateCoins env fReindex fAssetIndex junk junkType p s c tx spent h b = Some (c', u) ->
  status c' = status (foldl add_change c (changes tx.(vout))).
Proof.
  intros Ha. unfold UpdateCoins. rewrite Ha. cbn [negb].
  match goal with |- (c ← ?m; _) = _ -> _ => assert (forall c1, m = Some c1 -> keeps c c1) as Hm; [|destruct m as [c1|]; [|done]] end.
  { intros c1. destruct (IsCoinBase tx); [by intros [= <-]|]. apply (keeps_ofold (fun c o => _)). intros c2 c3 o.
    pose proof (keeps_spend c2 o) as Hs. destruct (TrySpendCoin _ _ _ _ _ _) as [[] c4]; [|done]. by intros [= <-]. }
  cbn [mbind option_bind]. pose proof (AddCoins_status c1 tx h b Ha) as E. destruct (AddCoins _ _ _ _ _ _ _ _ _ _ _) as [c2 u2].
  intros [= <- <-]. cbn [fst] in E. rewrite E. apply status_fold; [apply status_add|]. by apply Hm.
Qed.

Lemma disconnect_tx_status c tx u c' : env.(fAssetsIsActive) = true -> env.(fRip5IsActive) = true ->
  disconnect_tx env fReindex fAssetIndex junk junkType p s c tx u = Some c' ->
  status c' = status (foldl remove_change c (changes tx.(vout))).
Proof.
  intros Ha H5. unfold disconnect_tx. rewrite Ha. cbn [negb].
  destruct (remove_kind _ _ _ _ _ _ _ _ _) as [c1|] eqn:E1; [|done]. apply keeps_unkind in E1. cbn [mbind option_bind].
  match goal with |- (c ← ?m; _) = _ -> _ => destruct m as [c2|] eqn:E2; [|done] end. cbn [mbind option_bind].
  apply (keeps_ofold (fun c io => _)) in E2; [|intros c3 c4 io; apply keeps_untransfer].
  pose proof (keeps_trans _ _ _ E1 E2) as Hk. clear E1 E2. unfold changes. revert c c2 Hk. generalize tx.(vout) as outs.
  induction outs as [|o outs IH]; intros c c2 Hk; cbn [foldl omap list_omap]; [by intros [= <-]|]. cbn [mbind option_bind].
  destruct (remove_null _ _ _ _) as [c3|] eqn:E3.
  - apply remove_null_change in E3; [|done]. subst c3. destruct (change_of (scriptPubKey o)) as [ch|]; cbn [from_option foldl].
    + apply IH. unfold keeps. by apply status_remove.
    + by apply IH.
  - cbn [mbind option_bind]. by rewrite (ofold_none (fun c o => remove_null env junkType c (scriptPubKey o))).
Qed.

Lemma restores_status l : forall st, status (foldl (fun st coin => let '(ok, c) := restore_input env fAssetIndex p s st.2 coin in
  (st.1 && ok, c)) st l).2 = status st.2.
Proof.
  induction l as [|coin l IH]; intros st; [done|]. cbn [foldl]. rewrite IH. pose proof (keeps_restore st.2 coin) as Hk.
  destruct (restore_input _ _ _ _ _ _) as [ok c]. exact Hk.
Qed.

Definition block_changes {B} (vtx : list (CTransaction * B)) : list status_change := mjoin ((fun txs => changes txs.1.(vout)) <$> vtx).

Lemma connect_status c vtx h b c' u : env.(fAssetsIsActive) = true ->
  connect_assets env fReindex fAssetIndex junk junkType p s c vtx h b = Some (c', u) ->
  status c' = status (foldl add_change c (block_changes vtx)).
Proof.
  intros Ha. unfold connect_assets, block_changes.
  match goal with |- foldl ?g (Some (c, ?us0)) vtx = _ -> _ => set (step := g); generalize us0 as us end. revert c.
  induction vtx as [|txs vtx IH]; intros c us; cbn [foldl fmap list_fmap mjoin list_join]; [by intros [= <- <-]|].
  destruct (step (Some (c, us)) txs) as [[c1 u1]|] eqn:E.
  - intros E1%IH. rewrite E1, foldl_app. apply status_fold; [apply status_add|]. unfold step in E. cbn [mbind option_bind] in E.
    destruct (UpdateCoins _ _ _ _ _ _ _ _ _ _ _ _) as [[c2 u2]|] eqn:EU; [|done]. apply (inj Some) in E. injection E as <- _.
    by eapply UpdateCoins_status.
  - assert (foldl step None vtx = None) as ->; [|done]. clear. by induction vtx.
Qed.

Lemma disconnect_status c vtx u c' ok : env.(fAssetsIsActive) = true -> env.(fRip5IsActive) = true ->
  disconnect_assets env fReindex fAssetIndex junk junkType p s c vtx u = Some (ok, c') ->
  exists l, l ≡ₚ block_changes vtx /\ status c' = status (foldl remove_change c l).
Proof.
  intros Ha H5. unfold disconnect_assets. generalize true as clean. intros clean E. exists (block_changes (reverse vtx)).
  split; [unfold block_changes; by rewrite reverse_Permutation|]. revert c clean E. unfold block_changes.
  induction (reverse vtx) as [|txs l IH]; intros c clean; cbn [foldl fmap list_fmap mjoin list_join]; [by intros [= _ <-]|].
  cbn [mbind option_bind]. destruct (disconnect_tx _ _ _ _ _ _ _ _ _ _) as [c1|] eqn:E.
  - cbn [mbind option_bind]. apply disconnect_tx_status in E; [|done..]. pose proof (restores_status (reverse txs.2) (clean, c1)) as Hr.
    destruct (foldl _ (clean, c1) (reverse txs.2)) as [clean2 c2]. intros E1%IH. rewrite E1, foldl_app.
    apply status_fold; [apply status_remove|]. cbn [snd] in Hr. congruence.
  - cbn [mbind option_bind]. match goal with |- foldl ?g None _ = _ -> _ => assert (foldl g None l = None) as -> end; [|done].
    clear. by induction l.
Qed.

(** The changes of each kind. *)
Definition tags (l : list status_change) := omap (fun ch => match ch with ChTag k t => Some (k, t) | _ => None end) l.
Definition freezes (l : list status_change) := omap (fun ch => match ch with ChFreeze k t => Some (k, t) | _ => None end) l.
Definition globals (l : list status_change) := omap (fun ch => match ch with ChGlobal n t => Some (n, t) | _ => None end) l.

Lemma adds_parts l : forall c,
  let c' := foldl add_change c l in
  c'.(setNewQualifierAddress) = adds (tags l) c.(setNewQualifierAddress)
  /\ c'.(setNewRestrictedAddress) = adds (freezes l) c.(setNewRestrictedAddress)
  /\ c'.(setNewRestrictedGlobal) = adds (globals l) c.(setNewRestrictedGlobal).
Proof.
  induction l as [|ch l IH]; intros c; [done|]. cbn [foldl]. destruct (IH (add_change c ch)) as (E1 & E2 & E3). cbn in *.
  rewrite E1, E2, E3. destruct c, ch as [[k1 k2] t|[k1 k2] t|n t]; [|done..]. cbn. unfold AddQualifierAddress, root_change.
  destruct (IsAssetNameASubQualifier k1); [|done]. by destruct (bool_decide _).
Qed.
Lemma removes_parts l : forall c,
  let c' := foldl remove_change c l in
  c'.(setNewQualifierAddress) = removes (tags l) c.(setNewQualifierAddress)
  /\ c'.(setNewRestrictedAddress) = removes (freezes l) c.(setNewRestrictedAddress)
  /\ c'.(setNewRestrictedGlobal) = removes (globals l) c.(setNewRestrictedGlobal).
Proof.
  induction l as [|ch l IH]; intros c; [done|]. cbn [foldl]. destruct (IH (remove_change c ch)) as (E1 & E2 & E3). cbn in *.
  rewrite E1, E2, E3. destruct c, ch as [[k1 k2] t|[k1 k2] t|n t]; [|done..]. cbn. unfold RemoveQualifierAddress, root_change.
  destruct (IsAssetNameASubQualifier k1); [|done]. by destruct (negb (bool_decide _)).
Qed.

(** Without sub-qualifiers, the maps of the roots stay as they are. *)
Definition no_subs (l : list status_change) : Prop := forall k t, ChTag k t ∈ l -> IsAssetNameASubQualifier k.1 = false.
Lemma roots_kept l : no_subs l -> forall c, (foldl add_change c l).(mapRootQualifierAddressesAdd) = c.(mapRootQualifierAddressesAdd)
  /\ (foldl add_change c l).(mapRootQualifierAddressesRemove) = c.(mapRootQualifierAddressesRemove)
  /\ (foldl remove_change c l).(mapRootQualifierAddressesAdd) = c.(mapRootQualifierAddressesAdd)
  /\ (foldl remove_change c l).(mapRootQualifierAddressesRemove) = c.(mapRootQualifierAddressesRemove).
Proof.
  induction l as [|ch l IH]; intros Hl c; [done|]. cbn [foldl]. assert (no_subs l) as Hl' by (intros k t Hk; apply (Hl k t); by right).
  destruct (IH Hl' (add_change c ch)) as (-> & -> & _). destruct (IH Hl' (remove_change c ch)) as (_ & _ & -> & ->).
  destruct ch as [k t| |]; cbn; [|by destruct c..]. specialize (Hl k t (list_elem_of_here _ _)).
  unfold AddQualifierAddress, RemoveQualifierAddress, root_change. rewrite Hl. by destruct c.
Qed.

End BlockFacts.

Section Answers.
Context `{H : Hash256} `{SH : ScriptHash} (env : asset_env) (fReindex fAssetIndex : bool).
Context (junk : Z) (junkType : AssetType).
Implicit Types (c p : CAssetsCache) (s : asset_store) (tx : CTransaction).

(** *** The answers of the tip, to the rules that skip the cache of the block *)

Definition frozen p s (name address : bytes) : bool := (CheckForAddressRestriction empty_cache p s name address true).1.
Definition globally_frozen p s (name : bytes) : bool := (CheckForGlobalRestriction empty_cache p s name true).1.
Definition tagged p s (name address : bytes) : bool := (CheckForAddressQualifier empty_cache p s name address true).1.

Definition unfreezing (t : RestrictedType) : bool := bool_decide (t = UNFREEZE_ADDRESS).
Definition freezing (t : RestrictedType) : bool := bool_decide (t = FREEZE_ADDRESS).
Definition g_unfreezing (t : RestrictedType) : bool := bool_decide (t = GLOBAL_UNFREEZE).
Definition g_freezing (t : RestrictedType) : bool := bool_decide (t = GLOBAL_FREEZE).
Definition untagging (t : QualifierType) : bool := bool_decide (t = REMOVE_QUALIFIER).
Definition tagging (t : QualifierType) : bool := bool_decide (t = ADD_QUALIFIER).

Definition stored_freeze s (name address : bytes) : bool :=
  Exists s.(passetsRestrictionCache) (address_key name address) || bool_decide ((address, name) ∈ s.(RestrictedAddress)).
Definition stored_global s (name : bytes) : bool :=
  Exists s.(passetsGlobalRestrictionCache) name || bool_decide (name ∈ s.(GlobalRestriction)).
Definition stored_tag s (name address : bytes) : bool :=
  Exists s.(passetsQualifierCache) (address_key name address) || bool_decide ((address, name) ∈ s.(AddressQualifier))
  || CheckForAddressRootQualifier s address name.

Lemma freeze_answer c p s name address : (CheckForAddressRestriction c p s name address true).1 =
  from_option id (stored_freeze s name address) (effect unfreezing freezing p.(setNewRestrictedAddress) (name, address)).
Proof.
  unfold CheckForAddressRestriction, stored_freeze. fold freezing unfreezing. rewrite probe_tip.
  destruct (effect _ _ _ _); [done|]. destruct (Exists _ _); [done|]. by destruct (bool_decide _).
Qed.
Lemma global_answer c p s name : (CheckForGlobalRestriction c p s name true).1 =
  from_option id (stored_global s name) (effect g_unfreezing g_freezing p.(setNewRestrictedGlobal) name).
Proof.
  unfold CheckForGlobalRestriction, stored_global. fold g_freezing g_unfreezing. rewrite probe_tip.
  destruct (effect _ _ _ _); [done|]. destruct (Exists _ _); [done|]. by destruct (bool_decide _).
Qed.
Lemma tag_answer c p s name address : (CheckForAddressQualifier c p s name address true).1 =
  from_option id (root_added p name address || stored_tag s name address)
    (effect untagging (fun t => tagging t || root_added p name address) p.(setNewQualifierAddress) (name, address)).
Proof.
  unfold CheckForAddressQualifier, stored_tag. fold tagging untagging. rewrite probe_tip.
  destruct (effect _ _ _ _); [done|]. cbn [negb andb]. destruct (root_added p name address); [done|]. destruct (Exists _ _); [done|].
  by destruct (bool_decide _).
Qed.

(** The rules accept an output that changes a tag or a freeze, as seen from some cache of the block. *)
Definition change_accepted p s (o : CTxOut) : Prop := exists c,
  (IsNullAssetTxDataScript o.(scriptPubKey) = true -> ContextualCheckNullAssetTxOut env (view_of fReindex c p s) o = Ok tt)
  /\ (IsNullGlobalRestrictionAssetTxDataScript o.(scriptPubKey) = true -> ContextualCheckGlobalAssetTxOut (view_of fReindex c p s) o = Ok tt).

(** Then it is a change: it undoes to what was answered before. *)
Definition is_change p s (ch : status_change) : Prop :=
  match ch with
  | ChTag k t => untagging t = tagged p s k.1 k.2
  | ChFreeze k t => unfreezing t = frozen p s k.1 k.2 /\ freezing t = negb (unfreezing t)
  | ChGlobal n t => g_unfreezing t = globally_frozen p s n /\ g_freezing t = negb (g_unfreezing t)
  end.

Lemma flag_check flag (e : bool) m1 m2 (r : check_result unit) :
  (_ ← r; if negb (flag =? 0) then require (negb e) m1 else require e m2) = Ok tt -> (flag =? 0) = e.
Proof. destruct r as [[]|]; [|done]. cbn. by destruct (flag =? 0), e. Qed.

Lemma accepted_is_change p s o ch : change_accepted p s o -> change_of env junkType o.(scriptPubKey) = Some ch -> is_change p s ch.
Proof.
  intros (c & Hd & Hg). unfold change_of. destruct (IsNullAsset (scriptPubKey o)); [|done]. cbn [negb].
  destruct (IsNullAssetTxDataScript (scriptPubKey o)).
  - specialize (Hd eq_refl). unfold ContextualCheckNullAssetTxOut, get_or in Hd.
    destruct (AssetNullDataFromScript env (scriptPubKey o)) as [[d address]|]; [|done]. cbn [default from_option id] in *.
    cbn -[IsAssetNameAQualifier IsAssetNameAnRestricted] in Hd.
    assert (IsAssetNameValid (d_name d) = true) as Hv.
    { unfold IsAssetNameAQualifier, IsAssetNameAnRestricted in Hd. by destruct (IsAssetNameValid (d_name d)). }
    assert (exists t, name_type (d_name d) = Some t) as [t Et].
    { unfold IsAssetNameValid in Hv. unfold name_type. rewrite Hv. by eexists. }
    rewrite (assetType_of_valid _ _ _ Et). destruct (tag_type _ _ Et) as [Hq Hr]. unfold type_is.
    case_bool_decide as ER; [subst t|].
    + destruct (Hr eq_refl) as [E1 E2]. rewrite E1, E2 in Hd. apply flag_check in Hd. intros [= <-]. cbn [is_change fst snd].
      cbn [AssetRules.CheckForAddressRestriction view_of] in Hd. rewrite freeze_answer in Hd. unfold frozen. rewrite freeze_answer, <- Hd.
      unfold restricted_type. by destruct (d_flag d =? 0).
    + destruct (bool_decide (t = QUALIFIER) || bool_decide (t = SUB_QUALIFIER)) eqn:EQ; [|done].
      rewrite Hq in Hd; [|apply orb_true_iff in EQ as [E%bool_decide_eq_true|E%bool_decide_eq_true]; subst; auto].
      apply flag_check in Hd. intros [= <-]. cbn [is_change fst snd].
      cbn [AssetRules.CheckForAddressQualifier view_of] in Hd. rewrite tag_answer in Hd. unfold tagged. rewrite tag_answer, <- Hd.
      unfold qualifier_type. by destruct (d_flag d =? 0).
  - destruct (IsNullGlobalRestrictionAssetTxDataScript (scriptPubKey o)); [|done]. specialize (Hg eq_refl).
    unfold ContextualCheckGlobalAssetTxOut, get_or in Hg. destruct (GlobalAssetNullDataFromScript (scriptPubKey o)) as [d|]; [|done].
    cbn [default from_option id]. apply flag_check in Hg. intros [= <-]. cbn [is_change].
    cbn [AssetRules.CheckForGlobalRestriction view_of] in Hg. rewrite global_answer in Hg. unfold globally_frozen. rewrite global_answer, <- Hg.
    unfold global_type. by destruct (d_flag d =? 0).
Qed.

Lemma parts c c' : status c' = status c -> c'.(setNewQualifierAddress) = c.(setNewQualifierAddress)
  /\ c'.(setNewRestrictedAddress) = c.(setNewRestrictedAddress) /\ c'.(setNewRestrictedGlobal) = c.(setNewRestrictedGlobal)
  /\ c'.(mapRootQualifierAddressesAdd) = c.(mapRootQualifierAddressesAdd)
  /\ c'.(mapRootQualifierAddressesRemove) = c.(mapRootQualifierAddressesRemove).
Proof. unfold status. by intros [= -> -> -> -> ->]. Qed.

Lemma omap_perm {A B} (f : A -> option B) l l' : l ≡ₚ l' -> omap f l ≡ₚ omap f l'.
Proof. by intros ->. Qed.

(** A block's changes, all accepted, as seen by the tip after [Flush] and after
    the [Flush] of the cache that disconnected them. *)
Lemma changes_answered p s l l' c1 c2 : Forall (is_change p s) l -> l' ≡ₚ l ->
  status c1 = status (foldl add_change empty_cache l) -> status c2 = status (foldl remove_change empty_cache l') ->
  (forall n a, frozen (Flush c1 p) s n a = xorb (frozen p s n a) (bool_decide ((n, a) ∈ (freezes l).*1)))
  /\ (forall n, globally_frozen (Flush c1 p) s n = xorb (globally_frozen p s n) (bool_decide (n ∈ (globals l).*1)))
  /\ (forall n a, frozen (Flush c2 (Flush c1 p)) s n a = frozen p s n a)
  /\ (forall n, globally_frozen (Flush c2 (Flush c1 p)) s n = globally_frozen p s n)
  /\ (no_subs l -> forall n a, tagged (Flush c2 (Flush c1 p)) s n a = tagged p s n a).
Proof.
  intros Hl Hp (Q1 & R1 & G1 & A1 & M1)%parts (Q2 & R2 & G2 & A2 & M2)%parts.
  destruct (adds_parts l empty_cache) as (EQ & ER & EG). destruct (removes_parts l' empty_cache) as (EQ' & ER' & EG').
  rewrite EQ in Q1. rewrite ER in R1. rewrite EG in G1. rewrite EQ' in Q2. rewrite ER' in R2. rewrite EG' in G2.
  rewrite Forall_forall in Hl.
  assert (forall k t, (k, t) ∈ freezes l -> ChFreeze k t ∈ l) as Hf.
  { intros k t Hi. apply list_elem_of_omap in Hi as (ch & Hi & E). destruct ch; try done. by injection E as -> ->. }
  assert (forall k t, (k, t) ∈ globals l -> ChGlobal k t ∈ l) as Hg.
  { intros k t Hi. apply list_elem_of_omap in Hi as (ch & Hi & E). destruct ch; try done. by injection E as -> ->. }
  assert (forall k t, (k, t) ∈ tags l -> ChTag k t ∈ l) as Ht.
  { intros k t Hi. apply list_elem_of_omap in Hi as (ch & Hi & E). destruct ch; try done. by injection E as -> ->. }
  unfold frozen, globally_frozen, tagged in *. split_and!; intros.
  - rewrite !freeze_answer. cbn [setNewRestrictedAddress Flush]. rewrite R1. apply changes_published.
    intros v Hv%Hf%Hl. cbn in Hv. unfold frozen in Hv. by rewrite freeze_answer in Hv.
  - rewrite !global_answer. cbn [setNewRestrictedGlobal Flush]. rewrite G1. apply changes_published.
    intros v Hv%Hg%Hl. cbn in Hv. unfold globally_frozen in Hv. by rewrite global_answer in Hv.
  - rewrite !freeze_answer. cbn [setNewRestrictedAddress Flush]. rewrite R1, R2. apply changes_undone; [by apply omap_perm|].
    intros v Hv%Hf%Hl. cbn in Hv. unfold frozen in Hv. rewrite freeze_answer in Hv; apply Hv.
  - rewrite !global_answer. cbn [setNewRestrictedGlobal Flush]. rewrite G1, G2. apply changes_undone; [by apply omap_perm|].
    intros v Hv%Hg%Hl. cbn in Hv. unfold globally_frozen in Hv. rewrite global_answer in Hv; apply Hv.
  - rewrite !tag_answer. assert (no_subs l') as Hs' by (intros k t Hk; rewrite Hp in Hk; eauto).
    destruct (roots_kept l ltac:(done) empty_cache) as (-> & -> & _) in A1, M1. destruct (roots_kept l' Hs' empty_cache) as (_ & _ & -> & ->) in A2, M2.
    unfold root_added. cbn [setNewQualifierAddress Flush mapRootQualifierAddressesAdd]. rewrite A1, A2, M1, M2, Q1, Q2.
    apply changes_undone; [by apply omap_perm|].
    intros v Hv%Ht%Hl. cbn in Hv. unfold tagged in Hv. by rewrite tag_answer in Hv.
Qed.

Lemma block_changes_fst {A B} (v1 : list (CTransaction * A)) (v2 : list (CTransaction * B)) : v1.*1 = v2.*1 ->
  block_changes env junkType v1 = block_changes env junkType v2.
Proof.
  intros E. unfold block_changes.
  assert (forall C (v : list (CTransaction * C)), (fun txs => changes env junkType txs.1.(vout)) <$> v
          = (fun tx => changes env junkType tx.(vout)) <$> v.*1) as Hm by (intros C v; by rewrite <- list_fmap_compose).
  by rewrite !Hm, E.
Qed.

Lemma block_accepted {A} p s (v : list (CTransaction * A)) : Forall (fun tx => Forall (change_accepted p s) tx.(vout)) v.*1 ->
  Forall (is_change p s) (block_changes env junkType v).
Proof.
  intros Hv. apply Forall_forall. intros ch Hch. unfold block_changes in Hch. apply list_elem_of_join in Hch as (l & Hch & Hl).
  apply list_elem_of_fmap in Hl as ([tx x] & -> & Hi). unfold changes in Hch. apply list_elem_of_omap in Hch as (o & Ho & E).
  rewrite Forall_fmap, Forall_forall in Hv. specialize (Hv _ Hi). cbn in *. rewrite Forall_forall in Hv. eapply accepted_is_change; [by apply Hv|done].
Qed.

(** C18. Connecting a block whose outputs the asset rules accept turns over
    exactly the freezes it names: afterwards the tip answers the opposite for an
    address the block freezes or unfreezes, and for an asset it freezes or
    unfreezes as a whole, and what it answered before for every other.
    Disconnecting the block, with the caches both times flushed into the tip's,
    gives all answers back; for tags too, when the block gives and takes no
    sub-qualifier.  Each time the block starts from an empty cache, assets and
    restricted assets are deployed, the transactions disconnected are those that were
    connected, and neither run fails. *)
Theorem blocks_change_status p s v1 v2 h b c1 undo clean c2 :
  env.(fAssetsIsActive) = true -> env.(fRip5IsActive) = true -> v1.*1 = v2.*1 ->
  Forall (fun tx => Forall (change_accepted p s) tx.(vout)) v1.*1 ->
  connect_assets env fReindex fAssetIndex junk junkType p s empty_cache v1 h b = Some (c1, undo) ->
  disconnect_assets env fReindex fAssetIndex junk junkType (Flush c1 p) s empty_cache v2 undo = Some (clean, c2) ->
  let l := block_changes env junkType v1 in
  (forall n a, frozen (Flush c1 p) s n a = xorb (frozen p s n a) (bool_decide ((n, a) ∈ (freezes l).*1)))
  /\ (forall n, globally_frozen (Flush c1 p) s n = xorb (globally_frozen p s n) (bool_decide (n ∈ (globals l).*1)))
  /\ (forall n a, frozen (Flush c2 (Flush c1 p)) s n a = frozen p s n a)
  /\ (forall n, globally_frozen (Flush c2 (Flush c1 p)) s n = globally_frozen p s n)
  /\ (no_subs l -> forall n a, tagged (Flush c2 (Flush c1 p)) s n a = tagged p s n a).
Proof.
  intros Ha H5 Ev Hacc Ec Ed l. apply connect_status in Ec; [|done].
  apply disconnect_status in Ed as (l' & Hp & Ed); [|done..]. rewrite <- (block_changes_fst _ _ Ev) in Hp.
  apply (changes_answered p s l l'); [by apply block_accepted|done..].
Qed.

End Answers.

(** ** The dump *)

Section LRUFacts.
Context {K V : Type} `{EqDecision K}.
Implicit Types (c : CLRUCache K V) (l : list (K * V)).

Lemma find_remove k k' l : lru_find k' (lru_remove k l) = if decide (k = k') then None else lru_find k' l.
Proof.
  unfold lru_remove. induction l as [|[k0 v0] l IH]; [by case_decide|]. rewrite filter_cons. cbn [fst lru_find].
  repeat case_decide; subst; cbn [lru_find]; rewrite ?decide_True, ?decide_False by done; auto; congruence.
Qed.
Lemma find_removelast k l : lru_find k l = None -> lru_find k (removelast l) = None.
Proof.
  induction l as [|[k0 v0] l IH]; [done|]. cbn [lru_find]. case_decide; [done|]. intros E. destruct l; [done|].
  cbn [removelast lru_find]. rewrite decide_False by done. by apply IH.
Qed.
Lemma exists_put c k v k' : Exists (Put c k v) k' = true -> k = k' \/ Exists c k' = true.
Proof.
  intros Hx. destruct (decide (k = k')) as [|Hk]; [by left|]. right. destruct (lru_find k' c.(cacheItems)) as [w|] eqn:Ef; [unfold Exists; by rewrite Ef|].
  assert (lru_find k' ((k, v) :: lru_remove k c.(cacheItems)) = None) as E.
  { cbn. rewrite decide_False, find_remove, decide_False by done. done. }
  revert Hx. unfold Exists, Put. cbn [cacheItems]. destruct (_ <? _)%nat; [by rewrite (find_removelast _ _ E)|by rewrite E].
Qed.
Lemma exists_erase c k k' : Exists (Erase c k) k' = true -> k <> k' /\ Exists c k' = true.
Proof. unfold Exists, Erase. cbn. rewrite find_remove. by case_decide. Qed.

End LRUFacts.

Section DumpFacts.
Context `{H : Hash256} (fAssetIndex : bool).
Implicit Types (p : CAssetsCache) (s : asset_store).

(** The parts of the databases that hold freezes and verifier strings. *)
Definition freeze_part s := (s.(passetsRestrictionCache), s.(RestrictedAddress)).
Definition global_part s := (s.(passetsGlobalRestrictionCache), s.(GlobalRestriction)).
Definition verifier_part s := (s.(passetsVerifierCache), s.(Verifier)).

Lemma each_keeps {X K V} `{Countable K} (part : asset_store -> X) (f : K -> V -> asset_store -> asset_store) m :
  (forall k v s, part (f k v s) = part s) -> forall s, part (each f m s) = part s.
Proof.
  intros Hf. unfold each. induction (map_to_list m) as [|[k v] l IH]; intros s; [done|]. cbn [foldl fst snd]. by rewrite IH, Hf.
Qed.
Lemma fold_keeps {X A} (part : asset_store -> X) (f : A -> asset_store -> asset_store) l :
  (forall x s, part (f x s) = part s) -> forall s, part (foldl (fun s x => f x s) s l) = part s.
Proof. intros Hf. induction l as [|x l IH]; intros s; [done|]. cbn [foldl]. by rewrite IH, Hf. Qed.

(** A part that neither balances nor asset data belong to. *)
Class Apart {X} (part : asset_store -> X) := {
  apart_quantities q r s : part (set_quantities q r s) = part s;
  apart_assets l d s : part (set_assets l d s) = part s;
}.
#[local] Instance freeze_apart : Apart freeze_part.
Proof. split; by intros ? ? []. Qed.
#[local] Instance global_apart : Apart global_part.
Proof. split; by intros ? ? []. Qed.
#[local] Instance verifier_apart : Apart verifier_part.
Proof. split; by intros ? ? []. Qed.

Context (p : CAssetsCache).

Section Apart.
Context {X} (part : asset_store -> X) `{!Apart part}.

Lemma indexed_keeps f s : (forall s, part (f s) = part s) -> part (indexed fAssetIndex f s) = part s.
Proof. intros Hf. unfold indexed. by destruct fAssetIndex. Qed.
Lemma save_keeps z n a s : part (save_quantity p z n a s) = part s.
Proof. unfold save_quantity. destruct (_ !! _); [|done]. destruct (_ && _); apply apart_quantities. Qed.
Lemma positive_keeps n a s : part (save_positive p n a s) = part s.
Proof. unfold save_positive. destruct (_ !! _); [|done]. destruct (_ <? _); [apply apart_quantities|done]. Qed.

Lemma added_keeps n a s : part (dump_added fAssetIndex n a s) = part s.
Proof. unfold dump_added. rewrite indexed_keeps by (intros; apply apart_quantities). apply apart_assets. Qed.
Lemma transfers_keeps s : part (dump_transfers p s) = part s.
Proof.
  unfold dump_transfers. rewrite !(each_keeps part); [done|..]; intros; [apply apart_quantities|apply positive_keeps|apply save_keeps..].
Qed.
Lemma reissues_keeps r s : part (dump_reissue fAssetIndex p r s) = part s /\ part (dump_unreissue fAssetIndex p r s) = part s.
Proof.
  unfold dump_reissue, dump_unreissue. split.
  - destruct (_ !! _); [|done]. rewrite indexed_keeps by (intros; apply positive_keeps). apply apart_assets.
  - destruct (bool_decide _); [done|]. destruct (_ !! _); [|done]. rewrite indexed_keeps by (intros; apply save_keeps). apply apart_assets.
Qed.
Lemma spends_keeps s : part (dump_spends p s) = part s.
Proof. unfold dump_spends. rewrite !(fold_keeps part (fun u => save_quantity p _ u.1.1 u.1.2)); [done|intros; apply save_keeps..]. Qed.

(** The dump, with the loops that leave the part alone taken away. *)
Lemma dump_part s :
  part (DumpCacheToDatabase fAssetIndex p s).1
  = part (indexed fAssetIndex (dump_spends p) (dump_globals p (dump_freezes p (dump_tags fAssetIndex p (dump_verifiers p
      (each (fun _ => dump_unreissue fAssetIndex p) p.(setNewReissue).(ToRemove)
        (each (fun _ => dump_reissue fAssetIndex p) p.(setNewReissue).(ToAdd) (indexed fAssetIndex (dump_transfers p)
          (each (dump_added fAssetIndex) p.(setNewAssets).(ToAdd) (each (dump_removed fAssetIndex) p.(setNewAssets).(ToRemove) s)))))))))).
Proof. done. Qed.
Lemma before_verifiers s :
  part (each (fun _ => dump_unreissue fAssetIndex p) p.(setNewReissue).(ToRemove)
        (each (fun _ => dump_reissue fAssetIndex p) p.(setNewReissue).(ToAdd) (indexed fAssetIndex (dump_transfers p)
          (each (dump_added fAssetIndex) p.(setNewAssets).(ToAdd) s)))) = part s.
Proof.
  rewrite (each_keeps part) by (intros; apply reissues_keeps). rewrite (each_keeps part) by (intros; apply reissues_keeps).
  rewrite indexed_keeps by (intros; apply transfers_keeps). by rewrite (each_keeps part) by (intros; apply added_keeps).
Qed.

End Apart.

Lemma each_inv {K V} `{Countable K} (P : asset_store -> Prop) (f : K -> V -> asset_store -> asset_store) m :
  (forall k v s, m !! k = Some v -> P s -> P (f k v s)) -> forall s, P s -> P (each f m s).
Proof.
  intros Hf. unfold each. assert (forall k v, (k, v) ∈ map_to_list m -> m !! k = Some v) as Hin by (intros; by apply elem_of_map_to_list).
  revert Hin. induction (map_to_list m) as [|[k v] l IH]; intros Hin s Hs; [done|]. cbn [foldl fst snd].
  apply IH; [intros k' v' Hk; apply Hin; by right|]. apply Hf; [apply Hin; by left|done].
Qed.

(** *** Freezes of addresses *)

(** An entry of the small cache is in the database, and no key of the dump has its hash. *)
Definition freeze_cached s (k : asset_address) : Prop :=
  Exists s.(passetsRestrictionCache) (address_key k.1 k.2) = true -> (k.2, k.1) ∈ s.(RestrictedAddress).
Definition key_alone (m : dirty asset_address RestrictedType) (k : asset_address) : Prop :=
  forall k', (is_Some (m.(ToAdd) !! k') \/ is_Some (m.(ToRemove) !! k')) -> address_key k'.1 k'.2 = address_key k.1 k.2 -> k' = k.

Definition freeze_in s (k : asset_address) : bool := bool_decide ((k.2, k.1) ∈ s.(RestrictedAddress)).

Lemma freeze_steps k s k' : freeze_in (write_freeze k s) k' = (if decide (k = k') then true else freeze_in s k')
  /\ freeze_in (erase_freeze k s) k' = (if decide (k = k') then false else freeze_in s k').
Proof.
  unfold freeze_in, write_freeze, erase_freeze. destruct s, k as [k1 k2], k' as [k1' k2']; cbn. split.
  - case_decide; [apply bool_decide_eq_true_2; set_solver|apply bool_decide_ext; set_solver].
  - case_decide; [apply bool_decide_eq_false_2; set_solver|apply bool_decide_ext; set_solver].
Qed.
Lemma freeze_cached_steps k s k' : (address_key k.1 k.2 = address_key k'.1 k'.2 -> k = k') -> freeze_cached s k' ->
  freeze_cached (write_freeze k s) k' /\ freeze_cached (erase_freeze k s) k'.
Proof.
  intros Hk Hs. unfold freeze_cached, write_freeze, erase_freeze in *. destruct s; cbn in *. split.
  - intros [E|E]%exists_put; [rewrite (Hk E); set_solver|set_solver].
  - intros [Hne E]%exists_erase. apply Hs in E. assert (k <> k') by congruence. destruct k, k'. cbn in *. set_solver.
Qed.

Definition freeze_types (m : dirty asset_address RestrictedType) : Prop := forall k t,
  m.(ToAdd) !! k = Some t \/ m.(ToRemove) !! k = Some t -> t = FREEZE_ADDRESS \/ t = UNFREEZE_ADDRESS.

Lemma dump_freezes_in s k : freeze_types p.(setNewRestrictedAddress) ->
  freeze_in (dump_freezes p s) k = from_option id (freeze_in s k) (effect unfreezing freezing p.(setNewRestrictedAddress) k).
Proof.
  intros Ht. unfold dump_freezes, each.
  rewrite (fold_keyed undump_freeze freeze_in (fun t b => match t with UNFREEZE_ADDRESS => true | FREEZE_ADDRESS => false | _ => b end)),
    (fold_keyed dump_freeze freeze_in (fun t b => match t with UNFREEZE_ADDRESS => false | FREEZE_ADDRESS => true | _ => b end)).
  - unfold effect, entries. destruct (ToRemove _ !! k) as [t|] eqn:Er; [by destruct (Ht k t (or_intror Er)) as [-> | ->]|].
    destruct (ToAdd _ !! k) as [t|] eqn:Ea; [|done]. by destruct (Ht k t (or_introl Ea)) as [-> | ->].
  - intros k0 t s0. destruct (freeze_steps k0 s0 k0) as [Ew Ee]. rewrite decide_True in Ew, Ee by done. by destruct t.
  - intros k0 t s0 k1 Hk. destruct (freeze_steps k0 s0 k1) as [Ew Ee]. rewrite decide_False in Ew, Ee by done. by destruct t.
  - intros k0 t s0. destruct (freeze_steps k0 s0 k0) as [Ew Ee]. rewrite decide_True in Ew, Ee by done. by destruct t.
  - intros k0 t s0 k1 Hk. destruct (freeze_steps k0 s0 k1) as [Ew Ee]. rewrite decide_False in Ew, Ee by done. by destruct t.
Qed.

Lemma dump_freezes_cached s k : key_alone p.(setNewRestrictedAddress) k -> freeze_cached s k -> freeze_cached (dump_freezes p s) k.
Proof.
  intros Hk Hs. unfold dump_freezes. apply each_inv.
  - intros k0 [] s0 E Hs0; try done; (apply freeze_cached_steps; [|done]); intros E'; (apply Hk; [right; by eexists|done]).
  - apply each_inv; [|done]. intros k0 [] s0 E Hs0; try done; (apply freeze_cached_steps; [|done]); intros E'; (apply Hk; [left; by eexists|done]).
Qed.

(** *** Freezes of assets *)

Definition global_cached s (n : bytes) : Prop := Exists s.(passetsGlobalRestrictionCache) n = true -> n ∈ s.(GlobalRestriction).
Definition global_in s (n : bytes) : bool := bool_decide (n ∈ s.(GlobalRestriction)).

Lemma global_steps n s n' : global_in (write_global n s) n' = (if decide (n = n') then true else global_in s n')
  /\ global_in (erase_global n s) n' = (if decide (n = n') then false else global_in s n').
Proof.
  unfold global_in, write_global, erase_global. destruct s; cbn. split.
  - case_decide; [apply bool_decide_eq_true_2; set_solver|apply bool_decide_ext; set_solver].
  - case_decide; [apply bool_decide_eq_false_2; set_solver|apply bool_decide_ext; set_solver].
Qed.
Lemma global_cached_steps n s n' : global_cached s n' -> global_cached (write_global n s) n' /\ global_cached (erase_global n s) n'.
Proof.
  intros Hs. unfold global_cached, write_global, erase_global in *. destruct s; cbn in *. split.
  - intros [E|E]%exists_put; set_solver.
  - intros [Hne E]%exists_erase. set_solver.
Qed.

Definition global_types (m : dirty (list Z) RestrictedType) : Prop := forall k t,
  m.(ToAdd) !! k = Some t \/ m.(ToRemove) !! k = Some t -> t = GLOBAL_FREEZE \/ t = GLOBAL_UNFREEZE.

Lemma dump_globals_in s n : global_types p.(setNewRestrictedGlobal) ->
  global_in (dump_globals p s) n = from_option id (global_in s n) (effect g_unfreezing g_freezing p.(setNewRestrictedGlobal) n).
Proof.
  intros Ht. unfold dump_globals, each.
  rewrite (fold_keyed undump_global global_in (fun t b => match t with GLOBAL_UNFREEZE => true | GLOBAL_FREEZE => false | _ => b end)),
    (fold_keyed dump_global global_in (fun t b => match t with GLOBAL_UNFREEZE => false | GLOBAL_FREEZE => true | _ => b end)).
  - unfold effect, entries. destruct (ToRemove _ !! n) as [t|] eqn:Er; [by destruct (Ht n t (or_intror Er)) as [-> | ->]|].
    destruct (ToAdd _ !! n) as [t|] eqn:Ea; [|done]. by destruct (Ht n t (or_introl Ea)) as [-> | ->].
  - intros k0 t s0. destruct (global_steps k0 s0 k0) as [Ew Ee]. rewrite decide_True in Ew, Ee by done. by destruct t.
  - intros k0 t s0 k1 Hk. destruct (global_steps k0 s0 k1) as [Ew Ee]. rewrite decide_False in Ew, Ee by done. by destruct t.
  - intros k0 t s0. destruct (global_steps k0 s0 k0) as [Ew Ee]. rewrite decide_True in Ew, Ee by done. by destruct t.
  - intros k0 t s0 k1 Hk. destruct (global_steps k0 s0 k1) as [Ew Ee]. rewrite decide_False in Ew, Ee by done. by destruct t.
Qed.

Lemma dump_globals_cached s n : global_cached s n -> global_cached (dump_globals p s) n.
Proof. intros Hs. unfold dump_globals. repeat apply each_inv; [..|done]; intros k0 [] s0 E Hs0; try done; by apply global_cached_steps. Qed.

(** *** Verifier strings *)

Definition verifier_at s (n : bytes) : option bytes * option bytes :=
  (lru_find n s.(passetsVerifierCache).(cacheItems), s.(Verifier) !! n).
Definition undone_verifier (v : bytes * bool) : option bytes := if v.2 then Some v.1 else None.
Definition new_verifier (v : bytes * bool) : option bytes := Some v.1.

Lemma verifier_answer c p' s name : (GetAssetVerifierStringIfExists c p' s name true).1 =
  from_option id (match (verifier_at s name).1 with Some v => Some v | None => (verifier_at s name).2 end)
    (effect undone_verifier new_verifier p'.(setNewRestrictedVerifier) name).
Proof.
  unfold GetAssetVerifierStringIfExists, verifier_at, Get. fold new_verifier undone_verifier. rewrite probe_tip.
  destruct (effect _ _ _ _); [done|]. cbn [from_option fst snd]. destruct (lru_find _ _); [done|]. cbn. by destruct (_ !! _).
Qed.

Lemma verifier_steps n v s n' : verifier_at (write_verifier n v s) n' = (if decide (n = n') then (None, Some v) else verifier_at s n')
  /\ verifier_at (erase_verifier n s) n' = (if decide (n = n') then (None, None) else verifier_at s n').
Proof.
  unfold verifier_at, write_verifier, erase_verifier. destruct s; cbn. rewrite find_remove. split; case_decide; subst.
  - by rewrite lookup_insert_eq.
  - by rewrite lookup_insert_ne.
  - by rewrite lookup_delete_eq.
  - by rewrite lookup_delete_ne.
Qed.

Lemma dump_verifiers_at s n : verifier_at (dump_verifiers p s) n =
  from_option (fun v => (None, v)) (verifier_at s n) (effect undone_verifier new_verifier p.(setNewRestrictedVerifier) n).
Proof.
  unfold dump_verifiers, each.
  rewrite (fold_keyed undump_verifier verifier_at (fun v _ => (None, undone_verifier v))),
    (fold_keyed dump_verifier verifier_at (fun v _ => (None, new_verifier v))).
  - unfold effect, entries. destruct (ToRemove _ !! n); [done|]. by destruct (ToAdd _ !! n).
  - intros k0 v s0. destruct (verifier_steps k0 v.1 s0 k0) as [Ew _]. by rewrite decide_True in Ew.
  - intros k0 v s0 k1 Hk. destruct (verifier_steps k0 v.1 s0 k1) as [Ew _]. by rewrite decide_False in Ew.
  - intros k0 [v []] s0; destruct (verifier_steps k0 v s0 k0) as [Ew Ee]; by rewrite decide_True in Ew, Ee.
  - intros k0 [v []] s0 k1 Hk; destruct (verifier_steps k0 v s0 k1) as [Ew Ee]; by rewrite decide_False in Ew, Ee.
Qed.

Lemma removed_verifier s n : p.(setNewAssets).(ToRemove) !! n = None ->
  verifier_at (each (dump_removed fAssetIndex) p.(setNewAssets).(ToRemove) s) n = verifier_at s n.
Proof.
  intros En. unfold each. rewrite (fold_keyed (dump_removed fAssetIndex) verifier_at (fun _ v => (v.1, None))); [by rewrite En|..].
  - intros k a s0. unfold dump_removed, indexed, verifier_at. destruct s0, fAssetIndex; cbn; by rewrite lookup_delete_eq.
  - intros k a s0 k' Hk. unfold dump_removed, indexed, verifier_at. destruct s0, fAssetIndex; cbn; by rewrite lookup_delete_ne.
Qed.

Lemma removed_keeps {X} (part : asset_store -> X) `{!Apart part} m s : (forall l d s, part (set_verifiers l d s) = part s) ->
  part (each (dump_removed fAssetIndex) m s) = part s.
Proof.
  intros Hv. apply each_keeps. intros k a s0. unfold dump_removed. rewrite (indexed_keeps part) by (intros; apply apart_quantities).
  by rewrite Hv, apart_assets.
Qed.
Lemma verifiers_keep {X} (part : asset_store -> X) s : (forall l d s, part (set_verifiers l d s) = part s) -> part (dump_verifiers p s) = part s.
Proof. intros Hv. unfold dump_verifiers. rewrite !(each_keeps part); [done|..]; intros k [v []] s0; apply Hv. Qed.
Lemma tags_keep {X} (part : asset_store -> X) s : (forall l d e s, part (set_tags l d e s) = part s) ->
  part (dump_tags fAssetIndex p s) = part s.
Proof. intros Hv. unfold dump_tags. rewrite !(each_keeps part); [done|..]; intros k [] s0; apply Hv. Qed.
Lemma freezes_keep {X} (part : asset_store -> X) s : (forall l d s, part (set_freezes l d s) = part s) -> part (dump_freezes p s) = part s.
Proof. intros Hv. unfold dump_freezes. rewrite !(each_keeps part); [done|..]; intros k [] s0; by try apply Hv. Qed.
Lemma globals_keep {X} (part : asset_store -> X) s : (forall l d s, part (set_globals l d s) = part s) -> part (dump_globals p s) = part s.
Proof. intros Hv. unfold dump_globals. rewrite !(each_keeps part); [done|..]; intros k [] s0; by try apply Hv. Qed.

Lemma dump_freeze_part s : exists s', freeze_part (DumpCacheToDatabase fAssetIndex p s).1 = freeze_part (dump_freezes p s')
  /\ freeze_part s' = freeze_part s.
Proof.
  rewrite (dump_part freeze_part). rewrite (indexed_keeps freeze_part) by (intros; apply (spends_keeps freeze_part)). rewrite (globals_keep freeze_part) by (by intros ? ? []).
  eexists. split; [done|]. rewrite (tags_keep freeze_part) by (by intros ? ? ? []). rewrite (verifiers_keep freeze_part) by (by intros ? ? []).
  rewrite (before_verifiers freeze_part). apply (removed_keeps freeze_part); by intros ? ? [].
Qed.
Lemma dump_global_part s : exists s', global_part (DumpCacheToDatabase fAssetIndex p s).1 = global_part (dump_globals p s')
  /\ global_part s' = global_part s.
Proof.
  rewrite (dump_part global_part). rewrite (indexed_keeps global_part) by (intros; apply (spends_keeps global_part)). eexists. split; [done|].
  rewrite (freezes_keep global_part) by (by intros ? ? []). rewrite (tags_keep global_part) by (by intros ? ? ? []). rewrite (verifiers_keep global_part) by (by intros ? ? []).
  rewrite (before_verifiers global_part). apply (removed_keeps global_part); by intros ? ? [].
Qed.
Lemma dump_verifier_part s : exists s', verifier_part (DumpCacheToDatabase fAssetIndex p s).1 = verifier_part (dump_verifiers p s')
  /\ verifier_part s' = verifier_part (each (dump_removed fAssetIndex) p.(setNewAssets).(ToRemove) s).
Proof.
  rewrite (dump_part verifier_part). rewrite (indexed_keeps verifier_part) by (intros; apply (spends_keeps verifier_part)). rewrite (globals_keep verifier_part) by (by intros ? ? []).
  rewrite (freezes_keep verifier_part) by (by intros ? ? []). rewrite (tags_keep verifier_part) by (by intros ? ? ? []). eexists. split; [done|].
  by rewrite (before_verifiers verifier_part).
Qed.

(** Dumping the tip's cache to the databases keeps its answers: with the
    cache cleared, an address is frozen for an asset, an asset is frozen as a
    whole, and an asset has a verifier string, exactly as before.  The entries of
    the small caches in front of the databases are assumed to be in the
    databases, and the hash under which the address is cached not to be that of
    another pair of the dump. *)
Theorem dump_keeps_answers s :
  let '(s', p') := DumpCacheToDatabase fAssetIndex p s in
  (forall n a, freeze_types p.(setNewRestrictedAddress) -> freeze_cached s (n, a) -> key_alone p.(setNewRestrictedAddress) (n, a) ->
     frozen p' s' n a = frozen p s n a)
  /\ (forall n, global_types p.(setNewRestrictedGlobal) -> global_cached s n -> globally_frozen p' s' n = globally_frozen p s n)
  /\ (forall n, p.(setNewAssets).(ToRemove) !! n = None \/ effect undone_verifier new_verifier p.(setNewRestrictedVerifier) n <> None ->
     (GetAssetVerifierStringIfExists p' p' s' n true).1 = (GetAssetVerifierStringIfExists p p s n true).1).
Proof.
  destruct (DumpCacheToDatabase fAssetIndex p s) as [s' p'] eqn:E.
  assert (p' = empty_cache) as -> by (unfold DumpCacheToDatabase in E; by injection E).
  assert (s' = (DumpCacheToDatabase fAssetIndex p s).1) as Es by (by rewrite E). clear E.
  pose proof (dump_freeze_part s) as HF. pose proof (dump_global_part s) as HG. pose proof (dump_verifier_part s) as HV.
  rewrite <- Es in HF, HG, HV. clear Es. split_and!.
  - intros n a Ht Hc Hk. destruct HF as (s1 & E1 & E2). injection E2 as El Ed.
    assert (freeze_cached s1 (n, a)) as Hc1 by (unfold freeze_cached; by rewrite El, Ed).
    pose proof (dump_freezes_in s1 (n, a) Ht) as Hin. pose proof (dump_freezes_cached s1 (n, a) Hk Hc1) as Hc2.
    unfold frozen. rewrite !freeze_answer. unfold stored_freeze. injection E1 as -> ->. cbn [effect from_option].
    unfold freeze_in, freeze_cached in *. cbn [fst snd] in *. rewrite Ed in Hin.
    change (effect _ _ _ _) with (@None bool) at 1. cbn [from_option].
    replace (Exists _ _ || _) with (bool_decide ((a, n) ∈ RestrictedAddress (dump_freezes p s1))).
    2: { destruct (Exists (passetsRestrictionCache (dump_freezes p s1)) _); [|done]. rewrite bool_decide_eq_true_2; [done|by apply Hc2]. }
    rewrite Hin. destruct (effect _ _ _ _); [done|]. cbn [from_option].
    destruct (Exists _ _) eqn:Ex; [|done]. rewrite bool_decide_eq_true_2; [done|]. by apply Hc.
  - intros n Ht Hc. destruct HG as (s1 & E1 & E2). injection E2 as El Ed.
    assert (global_cached s1 n) as Hc1 by (unfold global_cached; by rewrite El, Ed).
    pose proof (dump_globals_in s1 n Ht) as Hin. pose proof (dump_globals_cached s1 n Hc1) as Hc2.
    unfold globally_frozen. rewrite !global_answer. unfold stored_global. injection E1 as -> ->.
    unfold global_in, global_cached in *. rewrite Ed in Hin.
    change (effect _ _ _ _) with (@None bool) at 1. cbn [from_option].
    replace (Exists _ _ || _) with (bool_decide (n ∈ GlobalRestriction (dump_globals p s1))).
    2: { destruct (Exists (passetsGlobalRestrictionCache (dump_globals p s1)) _); [|done]. rewrite bool_decide_eq_true_2; [done|by apply Hc2]. }
    rewrite Hin. destruct (effect _ _ _ _); [done|]. cbn [from_option].
    destruct (Exists _ _) eqn:Ex; [|done]. rewrite bool_decide_eq_true_2; [done|]. by apply Hc.
  - intros n Hn. destruct HV as (s1 & E1 & E2). injection E1 as El Ed. injection E2 as El2 Ed2.
    rewrite !verifier_answer. change (effect _ _ (setNewRestrictedVerifier empty_cache) _) with (@None (option bytes)). cbn [from_option].
    assert (verifier_at s' n = verifier_at (dump_verifiers p s1) n) as ->
      by (unfold verifier_at; by rewrite El, Ed).
    rewrite dump_verifiers_at. destruct (effect _ _ _ _) eqn:Ee; [done|]. cbn [from_option].
    assert (verifier_at s1 n = verifier_at s n) as ->; [|done].
    destruct Hn as [Hn|]; [|done]. rewrite <- (removed_verifier s n Hn). unfold verifier_at. by rewrite El2, Ed2.
Qed.

End DumpFacts.

(** ** Issues *)

Section Issues.
Context `{H : Hash256} (fAssetIndex : bool) (s : asset_store).
Implicit Types (c p : CAssetsCache) (name : bytes).

(** No key is in both sets. *)
Definition apart {K V} `{Countable K} (d : dirty K V) : Prop := forall k, d.(ToAdd) !! k = None \/ d.(ToRemove) !! k = None.

Lemma flush_add_one {K V} `{Countable K} k (v : V) (p : dirty K V) k' : apart p ->
  entries (flush_keep (MkDirty {[k := v]} ∅) p) k' =
  if decide (k = k') then (Some (default v (p.(ToAdd) !! k)), None) else entries p k'.
Proof.
  intros Hp. unfold flush_keep, flush_with. cbn [ToAdd ToRemove]. rewrite map_to_list_singleton, map_to_list_empty. cbn [foldl fst snd].
  unfold entries, add_keep, set_insert; cbn [ToAdd ToRemove]. case_decide; subst.
  - rewrite lookup_delete_eq. destruct (ToAdd p !! k') as [w|] eqn:E; [by rewrite E|]. by rewrite lookup_insert_eq.
  - rewrite lookup_delete_ne by done. destruct (ToAdd p !! k); [done|]. by rewrite lookup_insert_ne.
Qed.
Lemma flush_remove_one {K V} `{Countable K} k (v : V) (p : dirty K V) k' : apart p ->
  entries (flush_keep (MkDirty ∅ {[k := v]}) p) k' =
  if decide (k = k') then (None, Some (default v (p.(ToRemove) !! k))) else entries p k'.
Proof.
  intros Hp. unfold flush_keep, flush_with. cbn [ToAdd ToRemove]. rewrite map_to_list_singleton, map_to_list_empty. cbn [foldl fst snd].
  unfold entries, remove_keep, set_insert; cbn [ToAdd ToRemove]. case_decide; subst.
  - rewrite lookup_delete_eq. destruct (ToRemove p !! k') as [w|] eqn:E; [by rewrite E|]. by rewrite lookup_insert_eq.
  - rewrite lookup_delete_ne by done. destruct (ToRemove p !! k); [done|]. by rewrite lookup_insert_ne.
Qed.

(** What the tip answers, by its entries for the name. *)
Definition tip_has p name : bool := (CheckIfAssetExists false empty_cache p s name true).1.
Definition tip_data p name : option (CNewAsset * option (Z * uint256)) := (GetAssetMetaDataIfExists empty_cache p s name).1.

Definition stored_asset name : option CDatabasedAssetData :=
  match lru_find name s.(passetsCache).(cacheItems) with Some d => Some d | None => s.(AssetData) !! name end.
Lemma tip_has_spec p name : tip_has p name = match entries p.(setNewAssets) name with
  | (_, Some _) => false | (Some _, None) => true | (None, None) => bool_decide (is_Some (stored_asset name)) end.
Proof.
  unfold tip_has, CheckIfAssetExists, entries, stored_asset, Exists. cbn [setNewAssets empty_cache no_changes ToAdd ToRemove]. rewrite !lookup_empty.
  rewrite (bool_decide_eq_false_2 (is_Some None)) by (by intros []). cbn [andb].
  destruct (ToRemove _ !! name); [rewrite bool_decide_eq_true_2 by (by eexists); by destruct (ToAdd _ !! name)|]. rewrite (bool_decide_eq_false_2 (is_Some None)) by (by intros []).
  destruct (ToAdd _ !! name); [by rewrite bool_decide_eq_true_2 by (by eexists)|]. rewrite (bool_decide_eq_false_2 (is_Some None)) by (by intros []). cbn [andb].
  destruct (lru_find _ _); [by rewrite bool_decide_eq_true_2 by (by eexists)|]. by destruct (AssetData s !! name).
Qed.
Lemma tip_data_spec p name : p.(mapReissuedAssetData) !! name = None -> tip_data p name = match entries p.(setNewAssets) name with
  | (_, Some _) => None | (Some a, None) => Some (a.(na_asset), Some (a.(na_height), a.(na_hash)))
  | (None, None) => (fun d => (d.(db_asset), Some (d.(db_height), d.(db_block)))) <$> stored_asset name end.
Proof.
  intros Hr. unfold tip_data, GetAssetMetaDataIfExists, entries, stored_asset, Get. cbn [setNewAssets mapReissuedAssetData empty_cache no_changes ToAdd ToRemove].
  rewrite !lookup_empty, Hr. rewrite (bool_decide_eq_false_2 (is_Some None)) by (by intros []).
  destruct (ToRemove _ !! name); [rewrite bool_decide_eq_true_2 by (by eexists); by destruct (ToAdd _ !! name)|]. rewrite (bool_decide_eq_false_2 (is_Some None)) by (by intros []).
  destruct (ToAdd _ !! name); [done|]. destruct (lru_find _ _); [done|]. cbn. by destruct (AssetData s !! name).
Qed.

Lemma entries_apart {K V} `{Countable K} (d : dirty K V) : apart d <-> forall k, (entries d k).1 = None \/ (entries d k).2 = None.
Proof. done. Qed.

(** An asset that does not exist can be issued, and only such an asset:
    [AddNewAsset] succeeds exactly when the tip does not have the name.  After the
    block is flushed the tip has the asset with its data; after the block that
    undoes the issue is flushed it has not; other names are not affected, and the
    two sets of the tip stay disjoint. *)
Theorem issue_cycle p asset address h b : apart p.(setNewAssets) -> p.(mapReissuedAssetData) !! asset.(a_name) = None ->
  let '(ok1, c1) := AddNewAsset false fAssetIndex p s empty_cache asset address h b in
  let p1 := Flush c1 p in
  let '(ok2, c2) := RemoveNewAsset false fAssetIndex p1 s empty_cache asset address in
  let p2 := Flush c2 p1 in
  ok1 = negb (tip_has p asset.(a_name)) /\ (ok1 = true ->
    tip_has p1 asset.(a_name) = true /\ tip_data p1 asset.(a_name) = Some (asset, Some (h, b)) /\ ok2 = true
    /\ tip_has p2 asset.(a_name) = false /\ tip_data p2 asset.(a_name) = None
    /\ apart p1.(setNewAssets) /\ apart p2.(setNewAssets)
    /\ forall name, name <> asset.(a_name) -> tip_has p1 name = tip_has p name /\ tip_has p2 name = tip_has p name).
Proof.
  intros Hp Hr. unfold AddNewAsset, ContainsAsset. fold (tip_has p (a_name asset)). destruct (tip_has p (a_name asset)) eqn:Et.
  { destruct (RemoveNewAsset _ _ _ _ _ _ _). by split. }
  set (v := MkCacheNewAsset asset address b h).
  match goal with |- context [Flush ?x p] => set (c1 := x) end.
  assert (c1.(setNewAssets) = MkDirty {[a_name asset := v]} ∅) as E1 by (by unfold c1; destruct fAssetIndex).
  assert (c1.(mapReissuedAssetData) = ∅) as M1 by (by unfold c1; destruct fAssetIndex).
  clearbody c1. set (p1 := Flush c1 p).
  assert (p.(setNewAssets).(ToAdd) !! a_name asset = None) as Ha.
  { rewrite tip_has_spec in Et. destruct (Hp (a_name asset)) as [|Hn]; [done|]. unfold entries in Et. rewrite Hn in Et. by destruct (ToAdd _ !! _). }
  assert (forall k, entries p1.(setNewAssets) k = if decide (a_name asset = k) then (Some v, None) else entries p.(setNewAssets) k) as N1.
  { intros k. unfold p1. cbn [setNewAssets Flush]. rewrite E1, flush_add_one by done. by rewrite Ha. }
  assert (mapReissuedAssetData p1 !! a_name asset = None) as R1 by (unfold p1; cbn; by rewrite M1, map_empty_union).
  clearbody p1. assert (apart p1.(setNewAssets)) as Hp1.
  { apply entries_apart. intros k. rewrite N1. case_decide; [by right|]. by apply entries_apart. }
  assert (tip_has p1 (a_name asset) = true) as T1 by (by rewrite tip_has_spec, N1, decide_True).
  unfold RemoveNewAsset, ContainsAsset. fold (tip_has p1 (a_name asset)). rewrite T1. cbn [negb].
  set (w := MkCacheNewAsset asset address 0 0).
  match goal with |- context [Flush ?x p1] => set (c2 := x) end.
  assert (c2.(setNewAssets) = MkDirty ∅ {[a_name asset := w]}) as E2 by (by unfold c2; destruct fAssetIndex).
  assert (c2.(mapReissuedAssetData) = ∅) as M2 by (by unfold c2; destruct fAssetIndex).
  clearbody c2. set (p2 := Flush c2 p1).
  assert (forall k, entries p2.(setNewAssets) k = if decide (a_name asset = k) then (None, Some w) else entries p.(setNewAssets) k) as N2.
  { intros k. unfold p2. cbn [setNewAssets Flush]. rewrite E2, flush_remove_one, N1 by done. case_decide; [|done]. subst.
    pose proof (N1 (a_name asset)) as X. rewrite decide_True in X by done. unfold entries in X. apply (f_equal snd) in X. cbn in X. by rewrite X. }
  assert (mapReissuedAssetData p2 !! a_name asset = None) as R2 by (unfold p2; cbn [mapReissuedAssetData Flush]; by rewrite M2, map_empty_union).
  split; [done|]. intros _. rewrite !tip_data_spec, N1, N2, !decide_True by done. split_and!; try done.
  - by rewrite tip_has_spec, N2, decide_True.
  - apply entries_apart. intros k. rewrite N2. case_decide; [by left|]. by apply entries_apart.
  - intros k Hk. rewrite !tip_has_spec, N1, N2, !decide_False by done. done.
Qed.

End Issues.

(** ** Example blocks *)

Module Registry.
Import AssetRules.Market.

#[local] Existing Instance poly_script_hash.
#[local] Existing Instance Poly.poly_hash.

Definition lru {K V} : CLRUCache K V := MkLRU 100 [].
Definition no_store : asset_store := MkStore lru lru lru lru lru ∅ ∅ ∅ ∅ ∅ ∅ ∅ ∅.

(** An output that tags or freezes Alice's address. *)
Definition mark (name : bytes) (flag : Z) : CTxOut :=
  MkTxOut 0 (ConstructNullData (MkNullData name flag) ([OP_RVN_ASSET; 20] ++ alice)).
Definition block (out : CTxOut) {A} : list (CTransaction * list A) := [(make [1] [out], [])].

Definition connected (p : CAssetsCache) (s : asset_store) (out : CTxOut) : CAssetsCache :=
  match connect_assets env false true 0 ROOT p s empty_cache (block out) 5 9 with Some (c, _) => c | None => empty_cache end.
Definition disconnected (p : CAssetsCache) (s : asset_store) (out : CTxOut) : CAssetsCache :=
  match disconnect_assets env false true 0 ROOT p s empty_cache (block out) [] with Some (_, c) => c | None => empty_cache end.
(** The tip after the block, and after the block was disconnected. *)
Definition tip1 (p : CAssetsCache) (s : asset_store) (out : CTxOut) : CAssetsCache := Flush (connected p s out) p.
Definition tip2 (p : CAssetsCache) (s : asset_store) (out : CTxOut) : CAssetsCache :=
  Flush (disconnected (tip1 p s out) s out) (tip1 p s out).

Definition freeze_gold : CTxOut := mark gold_restricted 1.
Lemma freeze_accepted : change_accepted env false empty_cache no_store freeze_gold.
Proof. exists empty_cache. split; vm_compute; [reflexivity|discriminate]. Qed.
Lemma freeze_blocks : connect_assets env false true 0 ROOT empty_cache no_store empty_cache (block freeze_gold) 5 9
    = Some (connected empty_cache no_store freeze_gold, [])
  /\ disconnect_assets env false true 0 ROOT (tip1 empty_cache no_store freeze_gold) no_store empty_cache (block freeze_gold) []
    = Some (true, disconnected (tip1 empty_cache no_store freeze_gold) no_store freeze_gold)
  /\ bool_decide ((gold_restricted, alice_address) ∈ (freezes (block_changes env ROOT (block (A := CTxOut) freeze_gold))).*1) = true
  /\ frozen empty_cache no_store gold_restricted alice_address = false.
Proof. split_and!; vm_compute; reflexivity. Qed.

Lemma blocks_change_status_witness :
  frozen (tip1 empty_cache no_store freeze_gold) no_store gold_restricted alice_address = true
  /\ frozen (tip2 empty_cache no_store freeze_gold) no_store gold_restricted alice_address = false.
Proof.
  destruct freeze_blocks as (E1 & E2 & Hin & E0).
  destruct (blocks_change_status env false true 0 ROOT empty_cache no_store (block freeze_gold) (block freeze_gold) 5 9 _ _ _ _
              eq_refl eq_refl eq_refl
              ltac:(constructor; [constructor; [exact freeze_accepted|constructor]|constructor]) E1 E2) as (H1 & _ & H2 & _).
  unfold tip2. specialize (H1 gold_restricted alice_address). specialize (H2 gold_restricted alice_address).
  rewrite Hin, E0 in H1. rewrite E0 in H2. split; [exact H1|exact H2].
Defined.

Definition KYC : bytes := str "#KYC".
Definition tag_eu : CTxOut := mark (str "#KYC/#EU") 1.

(** A sub-qualifier survives the block that gave it.  A block gives Alice
    the tag #KYC/#EU, which the rules accept, and is disconnected cleanly; yet the
    tip then answers that she has the tag #KYC, which she had not before, because
    [Flush] adds the sub-qualifiers that were removed to the map of those that were
    added.  After a dump the answer is no again: nodes that dump at different
    times disagree on who may receive a restricted asset. *)
Theorem subtag_survives_undo :
  change_accepted env false empty_cache no_store tag_eu
  /\ fst <$> disconnect_assets env false true 0 ROOT (tip1 empty_cache no_store tag_eu) no_store empty_cache (block tag_eu) [] = Some true
  /\ tagged empty_cache no_store KYC alice_address = false
  /\ tagged (tip2 empty_cache no_store tag_eu) no_store KYC alice_address = true
  /\ (let '(s, p) := DumpCacheToDatabase true (tip2 empty_cache no_store tag_eu) no_store in tagged p s KYC alice_address = false).
Proof.
  split; [exists empty_cache; split; vm_compute; [reflexivity|discriminate]|]. split_and!; vm_compute; reflexivity.
Qed.

(** The tip after the issue of GOLD was connected and disconnected. *)
Definition added (p c : CAssetsCache) (a : CNewAsset) : bool * CAssetsCache := AddNewAsset false true p no_store c a alice_address 5 9.
Definition reorganised : CAssetsCache :=
  let p1 := Flush (added empty_cache empty_cache GOLD).2 empty_cache in
  Flush (RemoveNewAsset false true p1 no_store empty_cache GOLD alice_address).2 p1.

Lemma issue_cycle_witness : tip_has no_store (Flush (added empty_cache empty_cache GOLD).2 empty_cache) (str "GOLD") = true
  /\ tip_has no_store reorganised (str "GOLD") = false.
Proof.
  pose proof (issue_cycle true no_store empty_cache GOLD alice_address 5 9 ltac:(intros k; left; apply lookup_empty) eq_refl) as H.
  unfold reorganised, added. destruct (AddNewAsset _ _ _ _ _ _ _ _ _) as [ok1 c1]. cbv zeta in *. cbn [snd].
  destruct (RemoveNewAsset _ _ _ _ _ _ _) as [ok2 c2]. cbn [snd]. destruct H as [E H].
  assert (ok1 = true) as Hok by (rewrite E; vm_compute; reflexivity).
  destruct (H Hok) as (H1 & _ & _ & H2 & _). split; [exact H1|exact H2].
Defined.

(** After a reorganisation a name can be issued twice in one block.  Where the
    issue of GOLD was disconnected and the cache not dumped since, a block that
    issues GOLD again does not see its own issue: [CheckIfAssetExists] looks at what
    the tip is to remove before what the block adds.  The rules accept the second
    issue; on a node that never saw the first chain they reject it. *)
Theorem issued_twice_after_undo :
  let c := (added reorganised empty_cache GOLD).2 in
  let c' := (added empty_cache empty_cache GOLD).2 in
  (added reorganised empty_cache GOLD).1 = true
  /\ ContextualCheckNewAsset env (view_of false c reorganised no_store) (fun _ => false) GOLD false = Ok tt
  /\ (added reorganised c GOLD).1 = true
  /\ (added empty_cache empty_cache GOLD).1 = true
  /\ ContextualCheckNewAsset env (view_of false c' empty_cache no_store) (fun _ => false) GOLD false <> Ok tt.
Proof. split_and!; vm_compute; try reflexivity. discriminate. Qed.

(** The second of two verifier strings that a block sets is lost. *)
Lemma second_verifier_lost :
  let c := AddRestrictedVerifier (AddRestrictedVerifier empty_cache gold_restricted (str "KYC")) gold_restricted (str "true") in
  (GetAssetVerifierStringIfExists empty_cache (Flush c empty_cache) no_store gold_restricted true).1 = Some (str "KYC").
Proof. vm_compute. reflexivity. Qed.

(** GOLD, stored with 4 units, and a block that reissues it twice: with 8 units,
    and with a hash. *)
Definition gold_data : CDatabasedAssetData := MkDatabased (MkNewAsset (str "GOLD") 1000 4 1 0 []) 3 3.
Definition gold_store : asset_store := set_assets lru {[str "GOLD" := gold_data]} no_store.
Definition reissue (units : Z) (ipfs : bytes) : CTransaction :=
  make [1] [burn 1; burn 1; MkTxOut 0 (ConstructReissue (MkReissue (str "GOLD") 5 units 1 ipfs) (pay_to alice))].
Definition gold_hash : bytes := [IPFS_SHA2_256; IPFS_SHA2_256_LEN] ++ replicate 32 7.
Definition twice {A} : list (CTransaction * list A) := [(reissue 8 [], []); (reissue (-1) gold_hash, [])].

(** The undo data has an entry for each, and both are undone with the first. *)
Lemma second_reissue_kept :
  match connect_assets env false true 0 ROOT empty_cache gold_store empty_cache twice 5 9 with
  | Some (c1, undo) =>
    let p1 := Flush c1 empty_cache in
    match disconnect_assets env false true 0 ROOT p1 gold_store empty_cache twice undo with
    | Some (clean, c2) =>
      clean = true /\ length undo = 2%nat
      /\ fst <$> (GetAssetMetaDataIfExists empty_cache (Flush c2 p1) gold_store (str "GOLD")).1
         = Some (MkNewAsset (str "GOLD") 1000 4 1 1 gold_hash)
    | None => False
    end
  | None => False
  end.
Proof. vm_compute. split_and!; reflexivity. Qed.

End Registry.
