(* ===== verification/ConnectBlock.v ===== *)
(** The loop of ConnectBlock (validation.cpp) over the transactions of a block,
    composed of the checks of consensus/tx_verify.cpp, the script interpreter,
    the coins cache and the limit on the coinbase.  The special transactions run
    before the loop and are modelled in MNManager; the address indexes and the
    files written after it are not modelled.  The asset cache is reached through
    an interface, [asset_rules], which AssetBlock implements.  The lemmas say what
    an accepted block does to the unspent outputs and to their value, and when
    no assertion fails; Node draws the conclusions. *)

From S2P Require Import Prelude Serialize Sha256 Script Primitives Interpreter Standard InterpreterFacts ScriptRules Params Coins Chain MNList ProviderTx Rewards TxVerify.

(** What is settled before the loop: the parameters, the deployments, whether
    the scripts are checked and which transactions the cache of executed scripts
    holds, the script flags and the entry of the block in the index. *)
Record block_env := MkEnv {
  params : Params; fEnforced : bool; fAssetsDeployed : bool; fCSV : bool; nCoinbaseMaturity : Z;
  fScriptChecks : bool; cached : CTransaction -> bool; flags : Z; pindex : CBlockIndex;
}.

(** What a block asks of the asset cache: [Consensus::CheckTxAssets], and what the
    coins ask of it. *)
Record asset_rules (A : Type) := MkRules {
  ops : asset_ops A;
  CheckTxAssets : A -> CCoinsMap -> CTransaction -> result tx_failure unit * CCoinsMap;
}.
Arguments MkRules {A}.
Arguments ops {A}.
Arguments CheckTxAssets {A}.

Section Connect.
Context (GetAssetAmountFromScript : CScript -> option Z) (base : CCoinsView).
Context `{HS : Hash256} `{SH : ScriptHash} `{EC : Ecdsa}.
Context (env : block_env) {A : Type} (rules : asset_rules A).

Let nHeight : Z := env.(pindex).(bi_height).

(** Outputs before the deployment of assets. *)
Fixpoint no_asset_outputs (outs : list CTxOut) : result tx_failure unit :=
  match outs with
  | [] => Ok tt
  | o :: outs' =>
    if IsAssetScript o.(scriptPubKey)
    then Err (Rejects (DoS 100 REJECT_INVALID "bad-txns-assets-not-active"))
    else if IsNullAsset o.(scriptPubKey)
    then Err (Rejects (DoS 100 REJECT_INVALID "bad-txns-null-data-assets-not-active"))
    else no_asset_outputs outs'
  end.

Fixpoint prev_heights (cache : CCoinsMap) (ins : list CTxIn) : list Z * CCoinsMap :=
  match ins with
  | [] => ([], cache)
  | txin :: ins' =>
    let '(c, cache) := AccessCoin base cache txin.(prevout) in
    let '(hs, cache) := prev_heights cache ins' in
    (c.(coin_nHeight) :: hs, cache)
  end.

(** The checks on the inputs of a transaction that is not the coinbase: the new
    total of the fees. *)
Definition connect_inputs (cache : CCoinsMap) (a : A) (tx : CTransaction) (nFees : Z) : result tx_failure (Z * CCoinsMap) :=
  let '(r, cache) := CheckTxInputs base env.(fEnforced) env.(nCoinbaseMaturity) cache tx env.(pindex).(bi_height) in
  txfee ← r;
  let nFees := wraps 64 (nFees + txfee) in
  _ ← require (MoneyRange nFees) (Rejects (DoS 100 REJECT_INVALID "bad-txns-accumulated-fee-outofrange"));
  let '(r, cache) := if env.(fAssetsDeployed) then rules.(CheckTxAssets) a cache tx else (no_asset_outputs tx.(vout), cache) in
  _ ← r;
  let '(prevheights, cache) := prev_heights cache tx.(vin) in
  match SequenceLocks tx (if env.(fCSV) then LOCKTIME_VERIFY_SEQUENCE else 0) prevheights env.(pindex) with
  | None => Err Asserts
  | Some ok => _ ← require ok (Rejects (DoS 100 REJECT_INVALID "bad-txns-nonfinal")); Ok (nFees, cache)
  end.

(** The cost of the signature operations so far, and the scripts. *)
Definition connect_scripts (cache : CCoinsMap) (tx : CTransaction) (nSigOpsCost : Z) : result tx_failure (Z * CCoinsMap) :=
  let '(cost, cache) := GetTransactionSigOpCost base cache tx env.(flags) in
  match cost with
  | None => Err Asserts
  | Some cost =>
    let nSigOpsCost := nSigOpsCost + cost in
    _ ← require (nSigOpsCost <=? MAX_BLOCK_SIGOPS_COST) (Rejects (DoS 100 REJECT_INVALID "bad-blk-sigops"));
    let '(r, cache) := CheckInputs base env.(fScriptChecks) (env.(cached) tx) env.(flags) cache tx in
    _ ← r;
    Ok (nSigOpsCost, cache)
  end.

(** One turn of the loop: the fees and the cost so far, the undo data, the coins,
    the asset cache. *)
Definition connect_tx (cache : CCoinsMap) (a : A) (tx : CTransaction) (nFees nSigOpsCost : Z)
  : result tx_failure (Z * Z * list Coin * CCoinsMap * A) :=
  '(nFees, cache) ← (if IsCoinBase tx then Ok (nFees, cache) else connect_inputs cache a tx nFees);
  '(nSigOpsCost, cache) ← connect_scripts cache tx nSigOpsCost;
  match UpdateCoins GetAssetAmountFromScript base rules.(ops) cache a tx env.(pindex).(bi_height) with
  | None => Err Asserts
  | Some (undo, cache, a) => Ok (nFees, nSigOpsCost, undo, cache, a)
  end.

Fixpoint connect_loop (cache : CCoinsMap) (a : A) (vtx : list CTransaction) (nFees nSigOpsCost : Z)
  : result tx_failure (Z * list (list Coin) * CCoinsMap * A) :=
  match vtx with
  | [] => Ok (nFees, [], cache, a)
  | tx :: vtx' =>
    '(nFees, nSigOpsCost, undo, cache, a) ← connect_tx cache a tx nFees nSigOpsCost;
    '(nFees, undos, cache, a) ← connect_loop cache a vtx' nFees nSigOpsCost;
    Ok (nFees, undo :: undos, cache, a)
  end.

(** The undo data, which has no entry for the coinbase, and the coins and the
    asset cache after the block; [CheckBlock] has made sure that there is a first
    transaction and that it alone is a coinbase. *)
Definition ConnectBlock (cache : CCoinsMap) (a : A) (vtx : list CTransaction)
  : result tx_failure (list (list Coin) * CCoinsMap * A) :=
  '(nFees, undos, cache, a) ← connect_loop cache a vtx 0 0;
  match vtx with
  | [] => Err Asserts
  | coinbase :: _ =>
    match check_block_reward env.(params) env.(fEnforced) env.(pindex).(bi_height) nFees coinbase with
    | Ok _ => Ok (drop 1 undos, cache, a)
    | Err Thrown => Err Throws
    | Err (Rejected r) => Err (Rejects r)
    end
  end.

(** ** What the checks establish *)

(** The asset rules read the coins and change none. *)
Definition reads_coins : Prop := forall a c tx, cache_ok base c -> reads base c (rules.(CheckTxAssets) a c tx).2.
Hypothesis assets_read : reads_coins.
Hypothesis flags_consistent : consistent env.(flags).

Lemma prev_heights_spec ins : forall c, cache_ok base c ->
  reads base c (prev_heights c ins).2 /\ length (prev_heights c ins).1 = length ins
  /\ forall ks, spent_coins (view base c) ins = Some ks -> (prev_heights c ins).1 = coin_nHeight <$> ks.
Proof.
  induction ins as [|i ins IH]; intros c H; [split_and!; [by apply reads_refl|done|by intros ks [= <-]]|].
  cbn [prev_heights]. pose proof (AccessCoin_cases base c (prevout i) H) as Ha.
  destruct (AccessCoin base c (prevout i)) as [k c1]. destruct Ha as [Hr Ha].
  destruct (IH c1 (proj1 Hr)) as (Hr2 & Hl & Hs). destruct (prev_heights c1 ins) as [hs c2]. cbn [fst snd length] in *.
  split_and!; [by eapply reads_trans|by rewrite Hl|]. intros ks Hks. unfold spent_coins in Hks. cbn [mapM] in Hks.
  apply bind_Some in Hks as (k' & Hk & (ks' & Hks & [= <-])%bind_Some). cbn. rewrite (Hs ks').
  - destruct (IsSpent k); [congruence|]. by assert (k = k') as -> by congruence.
  - rewrite (spent_coins_ext _ (view base c)) by apply Hr. done.
Qed.

Lemma connect_inputs_spec c a tx nFees nFees' c' : cache_ok base c -> IsCoinBase tx = false ->
  connect_inputs c a tx nFees = Ok (nFees', c') ->
  reads base c c' /\ exists fee, inputs_pay env.(fEnforced) env.(nCoinbaseMaturity) nHeight (view base c) tx fee
    /\ (MoneyRange nFees = true -> MoneyRange nFees' = true /\ nFees' = nFees + fee).
Proof.
  intros H Hc. unfold connect_inputs.
  destruct (CheckTxInputs_spec base env.(fEnforced) env.(nCoinbaseMaturity) c tx nHeight H Hc) as (Hr & _ & Hi).
  fold nHeight. destruct (CheckTxInputs _ _ _ _ _ _) as [[fee|] c1]; [|done]. cbn [mbind result_bind fst snd] in *.
  destruct (proj1 (Hi fee) eq_refl) as (ks & v & Hpay). set (nf := wraps 64 (nFees + fee)).
  intros (? & Hm%require_Ok & E)%bind_Ok.
  assert (reads base c1 (if fAssetsDeployed env then CheckTxAssets rules a c1 tx else (no_asset_outputs (vout tx), c1)).2) as Hr2
    by (destruct (fAssetsDeployed env); [by apply assets_read, Hr|by apply reads_refl, Hr]).
  destruct (if fAssetsDeployed env then _ else _) as [ra c2]. apply bind_Ok in E as (? & _ & E). cbn [snd] in Hr2.
  destruct (prev_heights_spec (vin tx) c2 (proj1 Hr2)) as (Hr3 & _).
  destruct (prev_heights c2 (vin tx)) as [hs c3]. cbn [snd] in Hr3.
  destruct (SequenceLocks _ _ _ _) as [[]|]; [|done..]. injection E as <- <-.
  split; [exact (reads_trans _ _ _ _ Hr (reads_trans _ _ _ _ Hr2 Hr3))|]. exists fee. split; [by exists ks, v|].
  intros Hf. split; [done|]. destruct Hpay as (_ & _ & Hin & Hle & _ & Hv & ->). apply wraps_id;
    unfold MoneyRange, MAX_MONEY, COIN in *; lia.
Qed.

Lemma connect_scripts_spec c tx n n' c' : cache_ok base c ->
  (IsCoinBase tx = false -> has_coins (view base c) tx.(vin)) -> connect_scripts c tx n = Ok (n', c') ->
  reads base c c' /\ (IsCoinBase tx = false -> env.(fScriptChecks) = true -> env.(cached) tx = false ->
                      scripts_ok env.(flags) (view base c) tx 0 tx.(vin)).
Proof.
  intros H Hh. unfold connect_scripts.
  destruct (sigop_cost_spec base env.(flags) c tx (proj1 flags_consistent) H) as [Hr _].
  destruct (GetTransactionSigOpCost _ _ _ _) as [[cost|] c1]; [|done]. cbn [snd] in Hr.
  intros (? & _ & E)%bind_Ok. unfold CheckInputs in E. destruct (IsCoinBase tx) eqn:Ec; cbn [orb] in E.
  { injection E as <- <-. by split. }
  destruct (fScriptChecks env); cbn [negb orb] in E; [|injection E as <- <-; by split].
  destruct (cached env tx); [injection E as <- <-; by split|].
  destruct (check_scripts_spec base (flags env) tx (vin tx) flags_consistent c1 0 (proj1 Hr)) as (Hr2 & _ & Hs).
  { eapply has_coins_reads, Hh; done. }
  destruct (check_scripts _ _ _ _ _ _) as [[[]|] c2]; [|done]. injection E as <- <-. cbn [fst snd] in *.
  split; [by eapply reads_trans|]. intros _ _ _. pose proof (proj1 Hs eq_refl) as Ho. intros j i k Hj Hk.
  eapply Ho; [done|]. by rewrite (proj2 Hr).
Qed.

(** What [CheckTransaction] has checked of every transaction before. *)
Definition tx_checked (tx : CTransaction) : Prop :=
  NoDup (prevout <$> tx.(vin)) /\ Forall (fun x => 0 <= x.(nValue)) tx.(vout).

(** No output of the transaction is there already. *)
Definition id_new (u : CCoinsView) (tx : CTransaction) : Prop := forall n, u (MkOutPoint (GetHash tx) n) = None.

(** What is known of a transaction of a connected block, and its fee; [u] are
    the unspent outputs before it. *)
Definition tx_accepted (u : CCoinsView) (tx : CTransaction) (fee : Z) : Prop :=
  if IsCoinBase tx then fee = 0
  else inputs_pay env.(fEnforced) env.(nCoinbaseMaturity) nHeight u tx fee
       /\ (env.(fScriptChecks) = true -> env.(cached) tx = false -> scripts_ok env.(flags) u tx 0 tx.(vin)).
Fixpoint txs_accepted (u : CCoinsView) (vtx : list CTransaction) (fees : Z) : Prop :=
  match vtx with
  | [] => fees = 0
  | tx :: vtx' => exists fee, tx_accepted u tx fee
      /\ txs_accepted (apply_tx GetAssetAmountFromScript nHeight u tx) vtx' (fees - fee)
  end.

Lemma inputs_pay_coins b m h u tx fee : inputs_pay b m h u tx fee -> has_coins u tx.(vin).
Proof. intros (ks & _ & Hs & _). apply spent_coins_has. by exists ks. Qed.

Lemma tx_accepted_ext u v tx fee : (forall o, u o = v o) -> tx_accepted u tx fee -> tx_accepted v tx fee.
Proof.
  intros Huv. unfold tx_accepted. destruct (IsCoinBase tx); [done|]. intros [Hp Hs]. split.
  - destruct Hp as (ks & x & Hp). exists ks, x. by rewrite <- (spent_coins_ext u v) by done.
  - intros H1 H2 j i k Hj Hk. eapply Hs; [done..|]. by rewrite Huv.
Qed.

Lemma txs_accepted_ext vtx : forall u v fees, (forall o, u o = v o) -> txs_accepted u vtx fees -> txs_accepted v vtx fees.
Proof.
  induction vtx as [|tx vtx IH]; intros u v fees Huv; [done|]. intros (fee & Ha & Hr). exists fee.
  split; [by eapply tx_accepted_ext|]. eapply IH; [|done]. intros o. unfold apply_tx. by rewrite Huv.
Qed.

Lemma tx_creates_id tx h o : tx_creates GetAssetAmountFromScript h tx o <> None -> Primitives.op_hash o = GetHash tx.
Proof.
  unfold tx_creates. generalize 0. induction (vout tx) as [|x l IH]; intros i; cbn; [done|].
  case_decide; [by subst|apply IH].
Qed.

Lemma tx_ok_new u tx : tx_checked tx -> id_new u tx -> (IsCoinBase tx = false -> has_coins u tx.(vin)) ->
  tx_ok GetAssetAmountFromScript nHeight u tx.
Proof.
  intros [Hnd Hnn] Hnew Hh. split_and!.
  - unfold tx_spends. destruct (IsCoinBase tx); [constructor|done].
  - unfold tx_spends. destruct (IsCoinBase tx); [constructor|]. by apply Forall_fmap, Hh.
  - eapply Forall_impl; [done|]. intros x ?. cbn in *. lia.
  - intros o Ho%tx_creates_id. destruct o as [hash n]. cbn in Ho. subst. apply Hnew.
Qed.

Lemma tx_ok_accepted u tx fee : tx_checked tx -> id_new u tx -> tx_accepted u tx fee ->
  tx_ok GetAssetAmountFromScript nHeight u tx.
Proof.
  intros Hck Hnew Ha. apply tx_ok_new; [done..|]. intros Ec. unfold tx_accepted in Ha. rewrite Ec in Ha.
  by eapply inputs_pay_coins, Ha.
Qed.

(** One turn of the loop is [UpdateCoins] on a transaction that was accepted. *)
Lemma connect_tx_spec c a tx nFees s nFees' s' undo c' a' : cache_ok base c -> tx_checked tx -> id_new (view base c) tx ->
  MoneyRange nFees = true -> connect_tx c a tx nFees s = Ok (nFees', s', undo, c', a') ->
  tx_accepted (view base c) tx (nFees' - nFees) /\ MoneyRange nFees' = true /\ cache_ok base c'
  /\ (forall o, view base c' o = apply_tx GetAssetAmountFromScript nHeight (view base c) tx o)
  /\ Forall2 (fun o k => view base c o = Some k) (tx_spends tx) undo
  /\ exists a1, spend_assets rules.(ops) a (out <$> undo) = Some a1 /\ a' = add_assets rules.(ops) a1 tx.
Proof.
  intros H Hck Hnew Hf. unfold connect_tx. intros ([nf c1] & E1 & ([sc c2] & E2 & E3)%bind_Ok)%bind_Ok.
  assert (reads base c c1 /\ (if IsCoinBase tx then nf = nFees else
    inputs_pay env.(fEnforced) env.(nCoinbaseMaturity) nHeight (view base c) tx (nf - nFees)) /\ MoneyRange nf = true)
    as (Hr1 & Hp & Hm).
  { destruct (IsCoinBase tx) eqn:Ec; [injection E1 as <- <-; split_and!; [by apply reads_refl|done..]|].
    destruct (connect_inputs_spec _ _ _ _ _ _ H Ec E1) as (Hr & fee & Hp & Hm). destruct (Hm Hf) as [? ->].
    split_and!; [done| |done]. by replace (nFees + fee - nFees) with fee by lia. }
  assert (IsCoinBase tx = false -> has_coins (view base c1) (vin tx)) as Hh.
  { intros Ec. rewrite Ec in Hp. eapply has_coins_reads; [done|]. by eapply inputs_pay_coins. }
  destruct (connect_scripts_spec c1 tx s sc c2 (proj1 Hr1) Hh E2) as [Hr2 Hs].
  pose proof (reads_trans _ _ _ _ Hr1 Hr2) as Hr.
  assert (tx_accepted (view base c) tx (nf - nFees)) as Ha.
  { unfold tx_accepted. destruct (IsCoinBase tx); [lia|]. split; [done|]. intros H1 H2 j i k Hj Hk.
    eapply Hs; [done..|]. by rewrite (proj2 Hr1). }
  pose proof (tx_ok_accepted _ _ _ Hck Hnew Ha) as Hok.
  destruct (UpdateCoins_spec GetAssetAmountFromScript base rules.(ops) nHeight c2 tx (proj1 Hr)) as (undo' & c3 & E & Hc3 & Hv3 & Hu).
  { eapply tx_ok_proper; [|reflexivity|exact Hok]. intros o. symmetry. apply Hr. }
  fold nHeight in E3. rewrite E in E3. destruct (spend_assets (ops rules) a (out <$> undo')) as [a1|] eqn:Ea; [|done].
  injection E3 as <- <- <- <- <-. split_and!; [done|done|done| | |by exists a1].
  - intros o. rewrite (Hv3 o). unfold apply_tx. by rewrite (proj2 Hr).
  - eapply Forall2_impl; [exact Hu|]. intros o k. cbn. by rewrite (proj2 Hr).
Qed.

(** The asset rules have accepted a transaction of the block, on the coins before it. *)
Lemma connect_inputs_assets c a tx nFees r : cache_ok base c -> IsCoinBase tx = false ->
  connect_inputs c a tx nFees = Ok r ->
  exists c1, reads base c c1 /\ (env.(fAssetsDeployed) = true -> (rules.(CheckTxAssets) a c1 tx).1 = Ok tt).
Proof.
  intros H Hc E. unfold connect_inputs in E.
  destruct (CheckTxInputs_spec base env.(fEnforced) env.(nCoinbaseMaturity) c tx nHeight H Hc) as (Hr & _).
  fold nHeight in E. destruct (CheckTxInputs _ _ _ _ _ _) as [fee c1]. cbn [snd] in Hr. exists c1. split; [done|]. intros Hd.
  apply bind_Ok in E as (f & _ & E). apply bind_Ok in E as ([] & _ & E). rewrite Hd in E.
  destruct (CheckTxAssets rules a c1 tx) as [[[]|] c3]; [done|]. done.
Qed.

Lemma connect_tx_assets c a tx nFees s r : cache_ok base c -> IsCoinBase tx = false -> env.(fAssetsDeployed) = true ->
  connect_tx c a tx nFees s = Ok r -> exists c1, reads base c c1 /\ (rules.(CheckTxAssets) a c1 tx).1 = Ok tt.
Proof.
  intros H Hc Hd. unfold connect_tx. rewrite Hc. intros (r1 & E & _)%bind_Ok.
  destruct (connect_inputs_assets _ _ _ _ _ H Hc E) as (c1 & Hr & Ha). exists c1. auto.
Qed.

(** The identifiers of the block's transactions are new and distinct. *)
Definition ids_new (u : CCoinsView) (vtx : list CTransaction) : Prop :=
  Forall (id_new u) vtx /\ NoDup (GetHash <$> vtx).

Lemma ids_new_step u tx vtx : ids_new u (tx :: vtx) ->
  id_new u tx /\ ids_new (apply_tx GetAssetAmountFromScript nHeight u tx) vtx.
Proof.
  intros [[Htx Hvtx]%Forall_cons Hnd]. cbn in Hnd. apply NoDup_cons in Hnd as [Hni Hnd]. split; [done|]. split; [|done].
  rewrite Forall_forall in *. intros tx' Hin n. unfold apply_tx.
  destruct (tx_creates _ _ tx _) as [k|] eqn:E; cycle 1.
  { rewrite (Hvtx tx' Hin). by case_decide. }
  destruct Hni. apply list_elem_of_fmap. exists tx'. split; [|done]. symmetry.
  apply (tx_creates_id tx nHeight (MkOutPoint (GetHash tx') n)). by rewrite E.
Qed.

(** The loop applies its transactions, each of which was accepted. *)
Lemma connect_loop_spec vtx : forall c a nFees s nFees' undos c' a', cache_ok base c ->
  Forall tx_checked vtx -> ids_new (view base c) vtx -> MoneyRange nFees = true ->
  connect_loop c a vtx nFees s = Ok (nFees', undos, c', a') ->
  txs_accepted (view base c) vtx (nFees' - nFees) /\ MoneyRange nFees' = true /\ cache_ok base c'
  /\ txs_ok GetAssetAmountFromScript nHeight (view base c) vtx
  /\ (forall o, view base c' o = apply_block GetAssetAmountFromScript nHeight (view base c) vtx o)
  /\ undos_right GetAssetAmountFromScript nHeight (view base c) vtx undos.
Proof.
  induction vtx as [|tx vtx IH]; intros c a nFees s nFees' undos c' a' Hc Hck Hnew Hf.
  { intros [= <- <- <- <-]. split_and!; try done; cbn; lia. }
  cbn [connect_loop]. intros ([[[[nf sc] undo] c1] a1] & E1 & ([[[nf2 undos'] c2] a2] & E2 & [= -> <- -> ->])%bind_Ok)%bind_Ok.
  apply Forall_cons in Hck as [Hck1 Hck]. apply ids_new_step in Hnew as [Hn1 Hnew].
  destruct (connect_tx_spec _ _ _ _ _ _ _ _ _ _ Hc Hck1 Hn1 Hf E1) as (Ha & Hm & Hc1 & Hv1 & Hu & _).
  destruct (IH c1 a1 nf sc nFees' undos' c' a' Hc1) as (HA & HM & Hc' & HO & HV & HU); try done.
  { destruct Hnew as [Hnew ?]. split; [|done]. eapply Forall_impl; [exact Hnew|]. intros t Ht n. by rewrite Hv1. }
  split_and!; [|done|done| | |].
  - exists (nf - nFees). split; [done|]. replace (nFees' - nFees - (nf - nFees)) with (nFees' - nf) by lia.
    eapply txs_accepted_ext; [|done]. apply Hv1.
  - cbn. split; [by eapply tx_ok_accepted|]. eapply txs_ok_proper; [|reflexivity|exact HO]. exact Hv1.
  - intros o. rewrite HV. cbn. exact (apply_block_proper _ _ _ _ Hv1 _ _ eq_refl o).
  - cbn. split; [done|]. eapply undos_right_proper; [exact Hv1|reflexivity..|done].
Qed.

(** What [CheckBlock] has checked, as far as it is used here. *)
Definition block_checked (vtx : list CTransaction) : Prop :=
  Forall tx_checked vtx /\ match vtx with
  | [] => False
  | coinbase :: rest => IsCoinBase coinbase = true /\ Forall (fun tx => IsCoinBase tx = false) rest
  end.

Lemma ConnectBlock_spec c a vtx vtxundo c' a' : cache_ok base c -> block_checked vtx -> ids_new (view base c) vtx ->
  ConnectBlock c a vtx = Ok (vtxundo, c', a') ->
  cache_ok base c' /\ txs_ok GetAssetAmountFromScript nHeight (view base c) vtx
  /\ (forall o, view base c' o = apply_block GetAssetAmountFromScript nHeight (view base c) vtx o)
  /\ undos_right GetAssetAmountFromScript nHeight (view base c) vtx ([] :: vtxundo)
  /\ exists nFees coinbase, head vtx = Some coinbase /\ txs_accepted (view base c) vtx nFees /\ MoneyRange nFees = true
     /\ check_block_reward env.(params) env.(fEnforced) nHeight nFees coinbase = Ok tt.
Proof.
  intros Hc [Hck Hcb] Hnew. unfold ConnectBlock. intros ([[[nFees undos] c1] a1] & E & E2)%bind_Ok.
  destruct (connect_loop_spec vtx c a 0 0 nFees undos c1 a1) as (Ha & Hm & Hc1 & Hok & Hv & Hus); try done.
  destruct vtx as [|coinbase vtx]; [done|]. destruct Hcb as [Hcb _].
  fold nHeight in E2. destruct (check_block_reward _ _ _ _ _) as [[]|[]] eqn:Er; [|done..]. injection E2 as <- <- <-.
  split_and!; [done|done|done| |].
  - destruct undos as [|undo undos]; [done|]. destruct Hus as [Hu Hus].
    assert (undo = []) as -> by (unfold tx_spends in Hu; rewrite Hcb in Hu; by inversion Hu). by split.
  - exists nFees, coinbase. split_and!; try done. by rewrite Z.sub_0_r in Ha.
Qed.

Lemma txs_accepted_lookup vtx : forall u fees j tx, txs_accepted u vtx fees -> vtx !! j = Some tx ->
  exists fee, tx_accepted (apply_block GetAssetAmountFromScript nHeight u (take j vtx)) tx fee.
Proof.
  induction vtx as [|t vtx IH]; intros u fees [|j] tx Ha Hj; try done.
  - destruct Ha as (fee & Ha & _). injection Hj as ->. by exists fee.
  - destruct Ha as (fee & _ & Ha). by eapply IH.
Qed.

(** ** No assertion fails *)

(** What is known of the transactions before: their scripts are bytes, and what
    [CheckTransaction] has established for the asset cache. *)
Definition script_bytes (o : CTxOut) : Prop := all_bytes o.(scriptPubKey) = true.
Context (passed : CTransaction -> Prop) (passed_bytes : forall tx, passed tx -> Forall script_bytes tx.(vout)).
(** The asset rules assert nothing, and what they accept can be spent. *)
Definition no_asset_asserts : Prop := forall a c tx, cache_ok base c -> IsCoinBase tx = false -> passed tx ->
  (rules.(CheckTxAssets) a c tx).1 <> Err Asserts
  /\ forall ks, (env.(fAssetsDeployed) = true -> (rules.(CheckTxAssets) a c tx).1 = Ok tt) ->
     spent_coins (view base c) tx.(vin) = Some ks -> Forall script_bytes (out <$> ks) -> spend_assets rules.(ops) a (out <$> ks) <> None.
Hypothesis assets_assert : no_asset_asserts.
Context (prev : CBlockIndex).
Hypothesis index_chained : chained env.(pindex).
Hypothesis index_prev : env.(pindex).(pprev) = Some prev.
Hypothesis time_nonneg : 0 <= GetMedianTimePast prev.
Hypothesis height_small : nHeight < 2 ^ 31.

(** No coin is newer than the block, and their scripts are bytes. *)
Definition coins_ok (u : CCoinsView) : Prop := forall o k, u o = Some k -> 0 <= k.(coin_nHeight) <= nHeight /\ script_bytes k.(out).

Lemma coins_ok_apply u tx : passed tx -> coins_ok u -> coins_ok (apply_tx GetAssetAmountFromScript nHeight u tx).
Proof.
  intros Hp Hu o k. unfold apply_tx. destruct (tx_creates _ _ _ _) as [k'|] eqn:E; [|case_decide; [done|apply Hu]].
  intros [= <-]. apply tx_creates_unspendable in E as (_ & -> & Hin). pose proof (chained_nonneg _ index_chained).
  split; [unfold nHeight in *; rewrite wrapu_id; lia|]. exact (proj1 (Forall_forall _ _) (passed_bytes tx Hp) _ Hin).
Qed.

Lemma no_asset_outputs_assert outs : no_asset_outputs outs <> Err Asserts.
Proof. induction outs as [|o outs IH]; cbn [no_asset_outputs]; [done|]. by repeat case_match. Qed.

Lemma connect_inputs_no_assert c a tx nFees : cache_ok base c -> IsCoinBase tx = false -> passed tx -> coins_ok (view base c) ->
  connect_inputs c a tx nFees <> Err Asserts.
Proof.
  intros H Hc Hps Hh. unfold connect_inputs.
  destruct (CheckTxInputs_spec base env.(fEnforced) env.(nCoinbaseMaturity) c tx nHeight H Hc) as (Hr & Hn & Hi).
  fold nHeight. destruct (CheckTxInputs _ _ _ _ _ _) as [[fee|e] c1]; cbn [mbind result_bind fst snd] in *; [|congruence].
  destruct (proj1 (Hi fee) eq_refl) as (ks & v & Hs & _). unfold require. destruct (MoneyRange _); [|done]. cbn [mbind result_bind].
  assert (reads base c1 (if fAssetsDeployed env then CheckTxAssets rules a c1 tx else (no_asset_outputs (vout tx), c1)).2
    /\ (if fAssetsDeployed env then CheckTxAssets rules a c1 tx else (no_asset_outputs (vout tx), c1)).1 <> Err Asserts) as [Hr2 Hn2].
  { destruct (fAssetsDeployed env); [split; [by apply assets_read, Hr|by apply assets_assert; [apply Hr|..]]|].
    split; [by apply reads_refl, Hr|apply no_asset_outputs_assert]. }
  destruct (if fAssetsDeployed env then _ else _) as [[[]|e] c2]; cbn [mbind result_bind fst snd] in *; [|congruence].
  destruct (prev_heights_spec (vin tx) c2 (proj1 Hr2)) as (_ & Hl & Hph). destruct (prev_heights c2 (vin tx)) as [hs c3]. cbn [fst snd] in *.
  assert (spent_coins (view base c2) (vin tx) = Some ks) as Hs2.
  { rewrite (spent_coins_ext _ (view base c)); [done|]. intros o. by rewrite (proj2 Hr2), (proj2 Hr). }
  rewrite (SequenceLocks_spec _ _ _ _ prev index_chained index_prev time_nonneg Hl); [by case_match|].
  rewrite (Hph ks Hs2). apply Forall_fmap. unfold spent_coins in Hs. apply mapM_Some_1 in Hs.
  apply Forall_forall. intros k [j Hj]%list_elem_of_lookup. destruct (Forall2_lookup_r _ _ _ _ _ Hs Hj) as (i & _ & Hk). exact (proj1 (Hh _ _ Hk)).
Qed.

Lemma connect_scripts_no_assert c tx n : cache_ok base c -> (IsCoinBase tx = false -> has_coins (view base c) tx.(vin)) ->
  connect_scripts c tx n <> Err Asserts.
Proof.
  intros H Hh. unfold connect_scripts.
  destruct (sigop_cost_spec base env.(flags) c tx (proj1 flags_consistent) H) as [Hr Hn].
  destruct (GetTransactionSigOpCost _ _ _ _) as [[cost|] c1]; cbn [fst snd] in *; cycle 1.
  { destruct Hn; [|done]. destruct (IsCoinBase tx); auto. }
  unfold require. destruct (_ <=? _); [|done]. cbn [mbind result_bind]. unfold CheckInputs.
  destruct (IsCoinBase tx) eqn:Ec; cbn [orb]; [done|]. destruct (negb _ || _); [done|].
  destruct (check_scripts_spec base (flags env) tx (vin tx) flags_consistent c1 0 (proj1 Hr)) as (_ & Ha & _).
  { eapply has_coins_reads, Hh; done. }
  destruct (check_scripts _ _ _ _ _ _) as [[[]|e] c2]; cbn [mbind result_bind fst] in *; congruence.
Qed.

(** The assets of the coins that an accepted transaction spends. *)
Lemma connect_tx_spends c a tx nFees r undo : cache_ok base c -> passed tx -> coins_ok (view base c) ->
  (if IsCoinBase tx then Ok (nFees, c) else connect_inputs c a tx nFees) = Ok r ->
  Forall2 (fun o k => view base c o = Some k) (tx_spends tx) undo -> spend_assets rules.(ops) a (out <$> undo) <> None.
Proof.
  intros H Hp Hk E Hu. unfold tx_spends in Hu. destruct (IsCoinBase tx) eqn:Ec; [by inversion Hu|].
  destruct (connect_inputs_assets _ _ _ _ _ H Ec E) as (c1 & Hr & Ha). apply (assets_assert a c1 tx (proj1 Hr) Ec Hp); [done|..].
  - rewrite (spent_coins_ext _ (view base c)) by apply Hr. unfold spent_coins. apply mapM_Some. by apply Forall2_fmap_l in Hu.
  - apply Forall_fmap, Forall_forall. intros k [j Hj]%list_elem_of_lookup.
    destruct (Forall2_lookup_r _ _ _ _ _ Hu Hj) as (o & _ & Ho). exact (proj2 (Hk _ _ Ho)).
Qed.

Lemma connect_tx_no_assert c a tx nFees s : cache_ok base c -> tx_checked tx -> passed tx -> id_new (view base c) tx ->
  coins_ok (view base c) -> connect_tx c a tx nFees s <> Err Asserts.
Proof.
  intros H Hck Hps Hnew Hh. unfold connect_tx.
  destruct (if IsCoinBase tx then _ else _) as [[nf c1]|e] eqn:E1; cycle 1.
  { destruct (IsCoinBase tx) eqn:Ec; [done|]. intros [= ->]. by eapply connect_inputs_no_assert. }
  cbn [mbind result_bind].
  assert (reads base c c1 /\ exists fee, IsCoinBase tx = false -> inputs_pay env.(fEnforced) env.(nCoinbaseMaturity) nHeight (view base c) tx fee)
    as (Hr1 & fee & Hp).
  { destruct (IsCoinBase tx) eqn:Ec; [injection E1 as <- <-; split; [by apply reads_refl|by exists 0]|].
    destruct (connect_inputs_spec _ _ _ _ _ _ H Ec E1) as (Hr & fee & Hp & _). split; [done|by exists fee]. }
  assert (IsCoinBase tx = false -> has_coins (view base c1) (vin tx)) as Hc1.
  { intros Ec. eapply has_coins_reads; [done|]. by eapply inputs_pay_coins, Hp. }
  pose proof (connect_scripts_no_assert c1 tx s (proj1 Hr1) Hc1) as Hn.
  destruct (connect_scripts c1 tx s) as [[sc c2]|e] eqn:E2; cbn [mbind result_bind]; [|congruence].
  destruct (connect_scripts_spec c1 tx s sc c2 (proj1 Hr1) Hc1 E2) as [Hr2 _]. pose proof (reads_trans _ _ _ _ Hr1 Hr2) as Hr.
  destruct (UpdateCoins_spec GetAssetAmountFromScript base rules.(ops) nHeight c2 tx (proj1 Hr)) as (undo & c3 & E & _ & _ & Hu).
  { eapply tx_ok_proper; [|reflexivity|]; [intros o; symmetry; apply Hr|]. apply tx_ok_new; [done..|].
    intros Ec. by eapply inputs_pay_coins, Hp. }
  fold nHeight. rewrite E. destruct (spend_assets (ops rules) a (out <$> undo)) eqn:Es; [done|]. exfalso.
  eapply connect_tx_spends; [exact H|exact Hps|exact Hh|exact E1| |exact Es].
  eapply Forall2_impl; [exact Hu|]. intros o k. cbn. by rewrite (proj2 Hr).
Qed.

Lemma connect_loop_no_assert vtx : forall c a nFees s, cache_ok base c -> Forall tx_checked vtx -> Forall passed vtx ->
  ids_new (view base c) vtx -> coins_ok (view base c) -> MoneyRange nFees = true -> connect_loop c a vtx nFees s <> Err Asserts.
Proof.
  induction vtx as [|tx vtx IH]; intros c a nFees s Hc Hck Hps Hnew Hh Hf; [done|]. cbn [connect_loop].
  apply Forall_cons in Hck as [Hck1 Hck]. apply Forall_cons in Hps as [Hp1 Hps]. apply ids_new_step in Hnew as [Hn1 Hnew].
  pose proof (connect_tx_no_assert c a tx nFees s Hc Hck1 Hp1 Hn1 Hh) as Hn.
  destruct (connect_tx c a tx nFees s) as [[[[[nf sc] undo] c1] a1]|e] eqn:E; cbn [mbind result_bind]; [|congruence].
  destruct (connect_tx_spec _ _ _ _ _ _ _ _ _ _ Hc Hck1 Hn1 Hf E) as (_ & Hm & Hc1 & Hv1 & _).
  assert (connect_loop c1 a1 vtx nf sc <> Err Asserts) as Hl.
  { apply IH; try done.
    - destruct Hnew as [Hnew ?]. split; [|done]. eapply Forall_impl; [exact Hnew|]. intros t Ht n. by rewrite Hv1.
    - intros o k. rewrite Hv1. by apply coins_ok_apply. }
  destruct (connect_loop c1 a1 vtx nf sc) as [[[[nf2 undos] c2] a2]|e]; cbn [mbind result_bind]; congruence.
Qed.

Lemma ConnectBlock_no_assert c a vtx : cache_ok base c -> block_checked vtx -> Forall passed vtx ->
  ids_new (view base c) vtx -> coins_ok (view base c) -> ConnectBlock c a vtx <> Err Asserts.
Proof.
  intros Hc [Hck Hcb] Hps Hnew Hh. unfold ConnectBlock. pose proof (connect_loop_no_assert vtx c a 0 0 Hc Hck Hps Hnew Hh eq_refl) as Hn.
  destruct (connect_loop _ _ _ _ _) as [[[[nFees undos] c1] a1]|e]; cbn [mbind result_bind]; [|congruence].
  destruct vtx as [|coinbase vtx]; [done|]. by destruct (check_block_reward _ _ _ _ _) as [[]|[]].
Qed.

End Connect.

(** ** The value of the unspent outputs *)

Section Worth.
Context (GetAssetAmountFromScript : CScript -> option Z).
Context `{HS : Hash256}.

(** The sum of what a function says of the coins. *)
Section Weight.
Context (f : Coin -> Z).

Definition weight (m : gmap COutPoint Coin) : Z := map_fold (fun _ k acc => f k + acc) 0 m.
Definition weigh (ks : list Coin) : Z := foldr (fun k acc => f k + acc) 0 ks.

Lemma weight_insert m o k : m !! o = None -> weight (<[o := k]> m) = f k + weight m.
Proof. intros H. unfold weight. rewrite map_fold_insert_L; [done|intros; lia|done]. Qed.

Lemma weight_delete m o k : m !! o = Some k -> weight (delete o m) = weight m - f k.
Proof. intros H. unfold weight. rewrite (map_fold_delete_L _ _ o k m); [lia|intros; lia|done]. Qed.

Lemma weight_spend ks : forall spends m, NoDup spends -> Forall2 (fun o k => m !! o = Some k) spends ks ->
  exists m', (forall o, m' !! o = if decide (o ∈ spends) then None else m !! o) /\ weight m' = weight m - weigh ks.
Proof.
  induction ks as [|k ks IH]; intros spends m Hnd Hks; inversion Hks as [|o ? l ? Ho Hl]; subst.
  { exists m. split; [|cbn; lia]. intros o. by rewrite decide_False by apply not_elem_of_nil. }
  apply NoDup_cons in Hnd as [Hni Hnd]. destruct (IH l (delete o m) Hnd) as (m' & Hm' & Hw).
  { eapply Forall2_impl_in; [exact Hl|]. intros o' k' Hin. cbn. intros Hk'. rewrite lookup_delete_ne; [done|]. by intros ->. }
  exists m'. split; [|rewrite Hw, (weight_delete m o k) by done; cbn; fold (weigh ks); lia].
  intros o'. rewrite Hm'. destruct (decide (o' = o)) as [->|Hne].
  - rewrite (decide_True (P := _ ∈ _ :: _)) by apply list_elem_of_here. rewrite lookup_delete_eq. by case_decide.
  - rewrite lookup_delete_ne by done. destruct (decide (o' ∈ l)).
    + by rewrite decide_True by (by apply list_elem_of_further).
    + by rewrite decide_False by (by intros [?|?]%elem_of_cons).
Qed.

(** The coins that outputs become. *)
Definition coins_made (h : Z) (cb : bool) (outs : list CTxOut) : list Coin :=
  (fun x => new_coin x h cb) <$> List.filter (fun x => negb (IsUnspendable GetAssetAmountFromScript x.(scriptPubKey))) outs.

Lemma weight_create txid h cb outs : forall i m, (forall n, i <= n -> m !! MkOutPoint txid n = None) ->
  exists m', (forall o, m' !! o = match Coins.created GetAssetAmountFromScript txid h cb i outs o with Some k => Some k | None => m !! o end)
    /\ weight m' = weight m + weigh (coins_made h cb outs).
Proof.
  induction outs as [|x outs IH]; intros i m Hnew; [exists m; split; [done|cbn; lia]|].
  unfold coins_made. cbn [Coins.created List.filter]. destruct (IsUnspendable GetAssetAmountFromScript (scriptPubKey x)) eqn:EU; cbn [negb].
  - destruct (IH (i + 1) m) as (m' & Hm' & Hw); [intros n Hn; apply Hnew; lia|]. exists m'. split; [|exact Hw].
    intros o. rewrite Hm'. case_decide as Ho; [|done]. subst. by rewrite created_lt by lia.
  - destruct (IH (i + 1) (<[MkOutPoint txid i := new_coin x h cb]> m)) as (m' & Hm' & Hw).
    { intros n Hn. rewrite lookup_insert_ne by (intros [=]; lia). apply Hnew. lia. }
    exists m'. split; [|rewrite weight_insert in Hw by (apply Hnew; lia); cbn; fold (coins_made h cb outs) (weigh (coins_made h cb outs)); lia].
    intros o. rewrite Hm'. case_decide as Ho.
    + subst. rewrite created_lt by lia. by rewrite lookup_insert_eq.
    + by rewrite lookup_insert_ne by done.
Qed.

End Weight.

Definition worth : gmap COutPoint Coin -> Z := weight (fun k => k.(out).(nValue)).

Lemma coins_made_worth h cb outs : Forall (fun x => 0 <= x.(nValue)) outs ->
  weigh (fun k => k.(out).(nValue)) (coins_made h cb outs) <= sum_out outs.
Proof.
  unfold coins_made. induction 1 as [|x outs Hx _ IH]; [cbn; lia|]. cbn [List.filter sum_out foldr]. fold (sum_out outs).
  destruct (IsUnspendable _ _); cbn [negb fmap list_fmap weigh foldr new_coin out]; unfold weigh in IH; lia.
Qed.

(** A finite map of the unspent outputs. *)
Definition agrees (m : gmap COutPoint Coin) (u : CCoinsView) : Prop := forall o, m !! o = u o.
Definition nonneg (u : CCoinsView) : Prop := forall o k, u o = Some k -> 0 <= k.(out).(nValue).

Lemma apply_tx_nonneg h u tx : tx_checked tx -> nonneg u -> nonneg (apply_tx GetAssetAmountFromScript h u tx).
Proof.
  intros [_ Hnn] Hu o k. unfold apply_tx. destruct (tx_creates _ _ _ _) as [k'|] eqn:E; [|case_decide; [done|apply Hu]].
  intros [= <-]. apply tx_creates_unspendable in E as (_ & _ & Hin). rewrite Forall_forall in Hnn. by apply Hnn.
Qed.

Lemma apply_block_nonneg h vtx : forall u, Forall tx_checked vtx -> nonneg u ->
  nonneg (apply_block GetAssetAmountFromScript h u vtx).
Proof.
  induction vtx as [|tx vtx IH]; intros u Hck Hu; [done|]. apply Forall_cons in Hck as [Htx Hck]. cbn.
  apply IH; [done|]. by apply apply_tx_nonneg.
Qed.

Lemma weight_tx f h u tx m ks : agrees m u -> id_new u tx -> NoDup (tx_spends tx) ->
  Forall2 (fun o k => u o = Some k) (tx_spends tx) ks ->
  exists m', agrees m' (apply_tx GetAssetAmountFromScript h u tx)
    /\ weight f m' = weight f m - weigh f ks + weigh f (coins_made h (IsCoinBase tx) tx.(vout)).
Proof.
  intros Hm Hnew Hnd Hks. destruct (weight_spend f ks (tx_spends tx) m Hnd) as (m1 & Hm1 & Hw1).
  { eapply Forall2_impl; [exact Hks|]. intros o k. cbn. by rewrite (Hm o). }
  destruct (weight_create f (GetHash tx) h (IsCoinBase tx) tx.(vout) 0 m1) as (m2 & Hm2 & Hw2).
  { intros n _. rewrite Hm1, (Hm _), Hnew. by case_decide. }
  exists m2. split; [|lia]. intros o. rewrite Hm2, Hm1, (Hm o). reflexivity.
Qed.

Lemma worth_tx h u tx m ks : agrees m u -> tx_checked tx -> id_new u tx -> NoDup (tx_spends tx) ->
  Forall2 (fun o k => u o = Some k) (tx_spends tx) ks ->
  exists m', agrees m' (apply_tx GetAssetAmountFromScript h u tx) /\ worth m' <= worth m - total_value ks + sum_out tx.(vout).
Proof.
  intros Hm [_ Hnn] Hnew Hnd Hks. destruct (weight_tx (fun k => k.(out).(nValue)) h u tx m ks Hm Hnew Hnd Hks) as (m' & Hm' & Hw).
  exists m'. split; [done|]. pose proof (coins_made_worth h (IsCoinBase tx) tx.(vout) Hnn). unfold worth. rewrite Hw.
  change (total_value ks) with (weigh (fun k => k.(out).(nValue)) ks). lia.
Qed.

Lemma spent_coins_Forall2 u ins ks : spent_coins u ins = Some ks -> Forall2 (fun o k => u o = Some k) (prevout <$> ins) ks.
Proof. unfold spent_coins. intros H%mapM_Some_1. by apply Forall2_fmap_l. Qed.

Context `{SH : ScriptHash} `{EC : Ecdsa}.
Context (env : block_env).
Let nHeight : Z := env.(pindex).(bi_height).

(** [GetValueOut] counts the value of every output: the values are enforced, or
    the asset outputs, which it then leaves out, have none. *)
Definition counted (tx : CTransaction) : Prop :=
  env.(fEnforced) = true \/ Forall (fun o => IsAssetScript o.(scriptPubKey) = true -> o.(nValue) = 0) tx.(vout).

Lemma counted_out tx v : counted tx -> GetValueOut env.(fEnforced) tx = Some v -> v = sum_out tx.(vout).
Proof.
  unfold GetValueOut. replace (sum_out tx.(vout)) with (0 + sum_out tx.(vout)) by lia.
  intros [E|HF]; [rewrite E, value_out_spec by done; case_match; congruence|].
  assert (MoneyRange 0 = true) as H by done. revert H. generalize 0.
  induction HF as [|o outs Ho _ IH]; intros acc Ha; cbn [value_out sum_out foldr]; [intros [= <-]; lia|]. fold (sum_out outs).
  destruct (negb _ && IsAssetScript _) eqn:Eb.
  - apply andb_true_iff in Eb as [_ Eb]. intros ->%IH; [|done]. rewrite (Ho Eb). lia.
  - destruct (MoneyRange (nValue o)) eqn:Eo; [|done]. cbn [negb orb].
    assert (wraps 64 (acc + nValue o) = acc + nValue o) as -> by (apply wraps_id; unfold MoneyRange, MAX_MONEY, COIN in *; lia).
    destruct (MoneyRange (acc + nValue o)) eqn:Es; [|done]. cbn [negb]. intros ->%IH; [lia|done].
Qed.

(** The outputs of a transaction are worth its inputs less the fee. *)
Lemma worth_txs vtx : forall u m fees, agrees m u -> Forall tx_checked vtx -> ids_new u vtx ->
  Forall (fun tx => IsCoinBase tx = false) vtx -> Forall counted vtx -> txs_accepted GetAssetAmountFromScript env u vtx fees ->
  exists m', agrees m' (apply_block GetAssetAmountFromScript nHeight u vtx) /\ worth m' <= worth m - fees.
Proof.
  induction vtx as [|tx vtx IH]; intros u m fees Hm Hck Hnew Hcb Hct Ha.
  { cbn in Ha. subst. exists m. split; [done|lia]. }
  apply Forall_cons in Hct as [Hct1 Hct].
  apply Forall_cons in Hck as [Hck1 Hck]. apply Forall_cons in Hcb as [Hcb1 Hcb].
  destruct (ids_new_step GetAssetAmountFromScript env u tx vtx Hnew) as [Hn1 Hnew'].
  destruct Ha as (fee & Ha & Has). unfold tx_accepted in Ha. rewrite Hcb1 in Ha. destruct Ha as [Hp _].
  destruct Hp as (ks & v & Hs & _ & _ & _ & Hv & _ & ->). apply counted_out in Hv as ->; [|done].
  assert (tx_spends tx = prevout <$> vin tx) as Esp by (unfold tx_spends; by rewrite Hcb1).
  destruct (worth_tx nHeight u tx m ks Hm Hck1 Hn1) as (m1 & Hm1 & Hw1).
  { rewrite Esp. apply Hck1. } { rewrite Esp. by apply spent_coins_Forall2. }
  destruct (IH _ m1 _ Hm1 Hck Hnew' Hcb Hct Has) as (m2 & Hm2 & Hw2). exists m2. split; [done|lia].
Qed.

(** A block is worth at most its subsidy. *)
Lemma worth_block u m coinbase vtx nFees : 0 < env.(params).(nSubsidyHalvingInterval) -> 0 <= nHeight ->
  agrees m u -> block_checked (coinbase :: vtx) -> ids_new u (coinbase :: vtx) -> Forall counted (coinbase :: vtx) ->
  txs_accepted GetAssetAmountFromScript env u (coinbase :: vtx) nFees -> MoneyRange nFees = true ->
  check_block_reward env.(params) env.(fEnforced) nHeight nFees coinbase = Ok tt ->
  exists m', agrees m' (apply_block GetAssetAmountFromScript nHeight u (coinbase :: vtx))
    /\ worth m' <= worth m + GetBlockSubsidy env.(params) nHeight.
Proof.
  intros HI Hh Hm [[Hck1 Hck]%Forall_cons [Hcb Hncb]] Hnew [Hct1 Hct]%Forall_cons Ha Hf Hr.
  destruct (ids_new_step GetAssetAmountFromScript env u coinbase vtx Hnew) as [Hn1 Hnew'].
  destruct Ha as (fee & Ha & Has). unfold tx_accepted in Ha. rewrite Hcb in Ha. subst fee. rewrite Z.sub_0_r in Has.
  destruct (reward_limit _ _ _ _ _ HI Hh Hf Hr) as (v & Hv & Hle). apply counted_out in Hv as ->; [|done].
  assert (tx_spends coinbase = []) as Esp by (unfold tx_spends; by rewrite Hcb).
  destruct (worth_tx nHeight u coinbase m [] Hm Hck1 Hn1) as (m1 & Hm1 & Hw1); [rewrite Esp; constructor..|].
  destruct (worth_txs vtx _ m1 _ Hm1 Hck Hnew' Hncb Hct Has) as (m2 & Hm2 & Hw2). exists m2. split; [done|]. cbn in Hw1. lia.
Qed.

End Worth.

(** ** Two blocks *)

Module Live.

#[local] Existing Instance Spend.accept_all.
#[local] Existing Instance poly_script_hash.
#[local] Existing Instance Poly.poly_hash.
Import Spend.

Definition empty_base : CCoinsView := fun _ => None.
Definition entry1 : CBlockIndex := Chain.extend demo_genesis 2.
Definition entry2 : CBlockIndex := Chain.extend entry1 3.

Definition to_key : CScript := p2pkh key_hash [].
Definition coinbase (nHeight nFees : Z) : CTransaction := coinbase_tx main_params nHeight nFees None to_key true 5.
Definition vtx1 : list CTransaction := [coinbase 1 0].
Definition o1 : COutPoint := MkOutPoint (GetHash (coinbase 1 0)) 0.
Definition k1 : Coin := new_coin (MkTxOut (4850 * COIN) to_key) 1 true.
(** Spends the reward of the first block, with a fee. *)
Definition spender : CTransaction :=
  MkTransaction [MkTxIn o1 (p2pkh_input sig key) SEQUENCE_FINAL []] [MkTxOut (4850 * COIN - 1000) to_key] 2 0 0 [].
Definition vtx2 : list CTransaction := [coinbase 2 1000; spender].

(** Outputs with another transaction's identifier. *)
Definition id_new_b (c : CCoinsMap) (tx : CTransaction) : bool :=
  forallb (fun p => negb (p.1.(Primitives.op_hash) =? GetHash tx)) (map_to_list c).
Lemma id_new_spec c tx : id_new_b c tx = true -> id_new (view empty_base c) tx.
Proof.
  intros H n. unfold view. destruct (c !! _) as [e|] eqn:E; [|done]. unfold id_new_b in H. rewrite forallb_forall in H.
  apply elem_of_map_to_list, list_elem_of_In, H in E. cbn in E. by rewrite Z.eqb_refl in E.
Qed.

Lemma flags_ok : consistent (block_flags true true true true).
Proof. split; vm_compute; auto. Qed.

End Live.
