(* ===== verification/AssetBlock.v ===== *)
(** Blocks with assets: ConnectBlock and DisconnectBlock (validation.cpp) on a
    [CAssetsCache].  The interface [asset_rules] is implemented by the asset rules
    of consensus/tx_verify.cpp, asked on the asset cache as the transactions before
    have left it, and by the asset parts of [SpendCoin], [AddCoins],
    [ApplyTxInUndo] and [DisconnectBlock], and its laws are proved.  The theorems
    show what a block can do to the assets held in the unspent outputs: units
    appear with issues and reissues and are lost in outputs that cannot be spent,
    and nothing else changes, up to the width of the totals. *)

From S2P Require Import Prelude Serialize Sha256 Script Primitives Interpreter Standard InterpreterFacts ScriptRules AssetNames Base58 AssetTypes Params Coins Chain MNList ProviderTx Rewards TxVerify AssetTx AssetRules AssetCache ConnectBlock.

Section AssetBlock.
Context `{HS : Hash256} `{SH : ScriptHash} `{EC : Ecdsa}.
Context (aenv : asset_env) (benv : block_env) (base : CCoinsView).
Context (fReindex fAssetIndex fMessaging : bool) (junk : Z) (junkType : AssetType).
(** The state of the mempool that the rules read, [GetTime()], the block's time
    and hash, and [passets] with the databases. *)
Context (mapAssetToHash : bytes -> bool) (mapReissuedAssets : gmap (list Z) uint256) (currentTime nBlocktime : Z) (blockHash : uint256).
Context (p : CAssetsCache) (s : asset_store).
Implicit Types (tx : CTransaction) (vtx : list CTransaction) (u : CCoinsView) (coins : CCoinsMap) (c : CAssetsCache) (m : gmap COutPoint Coin).

Let nHeight : Z := benv.(pindex).(bi_height).

(** The entry of the block in the index and what is settled before the loop, with
    the deployments of the asset rules. *)
Definition env : block_env :=
  MkEnv benv.(params) aenv.(fEnforcedValuesIsActive) aenv.(fAssetsIsActive) benv.(fCSV) benv.(nCoinbaseMaturity) benv.(fScriptChecks)
    benv.(cached) benv.(flags) benv.(pindex).

(** [Consensus::CheckTxAssets] as ConnectBlock calls it. *)
Definition check_assets c coins tx : result tx_failure unit * CCoinsMap :=
  let '(r, coins) := AssetRules.CheckTxAssets aenv (view_of fReindex c p s) mapAssetToHash mapReissuedAssets currentTime base
                       false fMessaging nBlocktime coins tx in
  (_ ← r; Ok tt, coins).

(** The asset cache and the block's asset undo data, [vUndoAssetData]. *)
Abbreviation asset_state := (CAssetsCache * list (bytes * CBlockAssetUndo))%type.
Definition undo_entry (u : option (bytes * CBlockAssetUndo)) : list (bytes * CBlockAssetUndo) :=
  match u with Some x => if is_nil x.1 then [] else [x] | None => [] end.

Definition cache_ops : asset_ops asset_state := MkAssetOps
  (fun a o => if aenv.(fAssetsIsActive) then let '(ok, c) := TrySpendCoin aenv fAssetIndex p s a.1 o in (ok, (c, a.2)) else (true, a))
  (fun a tx => let '(c, u) := AssetCache.AddCoins aenv fReindex fAssetIndex junk junkType p s a.1 tx benv.(pindex).(bi_height) blockHash in
               (c, a.2 ++ undo_entry u))
  (fun a tx => c ← AssetCache.disconnect_tx aenv fReindex fAssetIndex junk junkType p s a.1 tx a.2; Some (c, a.2))
  (fun a k => let '(ok, c) := restore_input aenv fAssetIndex p s a.1 k in (ok, (c, a.2))).
Definition block_rules : asset_rules asset_state := MkRules cache_ops (fun a => check_assets a.1).

(** [ConnectBlock] with a new asset cache, as [ConnectTip] calls it; and
    [DisconnectBlock], as [DisconnectTip] calls it, with the block's asset undo data. *)
Definition ConnectBlockAssets coins vtx : result tx_failure (list (list Coin) * CCoinsMap * asset_state) :=
  ConnectBlock GetAssetAmountFromScript base env block_rules coins (empty_cache, []) vtx.
Definition DisconnectBlockAssets (maxOutputs : nat) (readable : bool) coins vtx (vtxundo : list (list Coin))
    (vUndoData : list (bytes * CBlockAssetUndo)) : option (DisconnectResult * CCoinsMap * asset_state) :=
  DisconnectBlock GetAssetAmountFromScript base cache_ops maxOutputs readable coins (empty_cache, vUndoData)
    benv.(pindex).(bi_height) vtx vtxundo.

(** ** The asset rules read the coins *)

Lemma asset_inputs_reads cache ins : forall coins st, cache_ok base coins ->
  reads base coins (asset_inputs aenv cache base coins ins st).2.
Proof.
  induction ins as [|i ins IH]; intros coins st Hc; [by apply reads_refl|]. cbn [asset_inputs].
  pose proof (AccessCoin_cases base coins (prevout i) Hc) as Ha. destruct (AccessCoin base coins (prevout i)) as [k c1].
  destruct Ha as [Hr _]. destruct (IsSpent k); [done|]. destruct (asset_input _ _ _ _); [|done].
  eapply reads_trans; [exact Hr|]. apply IH, Hr.
Qed.

Lemma check_assets_reads : reads_coins base block_rules.
Proof.
  intros [c w] coins tx Hc. cbn [block_rules CheckTxAssets fst]. unfold check_assets. set (cache := view_of fReindex c p s). clearbody cache. unfold AssetRules.CheckTxAssets.
  assert (reads base coins (HaveInputs base coins tx).2) as Hr.
  { destruct (IsCoinBase tx) eqn:E; [unfold HaveInputs; rewrite E; by apply reads_refl|]. by apply HaveInputs_spec. }
  destruct (HaveInputs base coins tx) as [[] c1]; [|done]. cbn [negb snd] in *.
  pose proof (asset_inputs_reads cache tx.(vin) c1 (∅, ∅) (proj1 Hr)) as Hr2.
  destruct (asset_inputs _ _ _ _ _ _) as [r c2]. by eapply reads_trans.
Qed.

(** ** What is known of an accepted block *)

(** What [CheckBlock] has checked. *)
Definition tx_passed tx : Prop := exists b, CheckTransaction aenv junkType tx true false b = Ok tt.

Lemma passed_checked tx : tx_passed tx -> tx_checked tx.
Proof.
  clear nHeight. intros [b Hb]. apply CheckTransaction_form in Hb as (_ & _ & _ & HF & _ & Hnd & _). split; [done|].
  eapply Forall_impl; [exact HF|]. intros o Ho. unfold MoneyRange in Ho. cbn. lia.
Qed.

(** A coinbase carries no asset. *)
Lemma passed_coinbase tx : aenv.(fCheckCoinbaseAssetsIsActive) = true -> tx_passed tx -> IsCoinBase tx = true ->
  Forall (fun o => IsAssetScript o.(scriptPubKey) = false) tx.(vout).
Proof.
  intros Ha [b Hb] Hc. unfold CheckTransaction in Hb. passed.
  match goal with Hi : check_inputs_form _ _ _ = Ok _ |- _ => unfold check_inputs_form in Hi; rewrite Hc, Ha in Hi end. passed.
  cbn [andb] in *. destruct (existsb _ _) eqn:Ex; [done|]. apply existsb_false in Ex. eapply Forall_impl; [exact Ex|].
  intros o [Ho _]%orb_false_iff. done.
Qed.

(** The asset cache after some transactions, from the coins they spend. *)
Definition spent_outs u tx : list CTxOut := out <$> omap u (tx_spends tx).
Fixpoint cache_after u c vtx : option CAssetsCache :=
  match vtx with
  | [] => Some c
  | tx :: vtx' =>
    '(c, _) ← AssetCache.UpdateCoins aenv fReindex fAssetIndex junk junkType p s c tx (spent_outs u tx) nHeight blockHash;
    cache_after (apply_tx GetAssetAmountFromScript nHeight u tx) c vtx'
  end.

(** What the rules have established of one transaction. *)
Definition rules_hold u c tx : Prop :=
  let cache := view_of fReindex c p s in
  IsCoinBase tx = false -> exists ks, spent_coins u tx.(vin) = Some ks
    /\ tally (assets_in aenv ks) ∅ = tally (assets_out aenv tx.(vout)) ∅
    /\ Forall (not_frozen aenv cache) ks /\ creation_ok aenv cache tx ks.

Lemma rules_hold_ext u v c tx : (forall o, u o = v o) -> rules_hold u c tx -> rules_hold v c tx.
Proof. intros Huv H Hc. destruct (H Hc) as (ks & Hk & Hx). exists ks. by rewrite <- (spent_coins_ext u v) by done. Qed.

(** Of each transaction, on the coins and the asset cache that the transactions
    before have left; and the cache at the end. *)
Fixpoint assets_accepted u c vtx e : Prop :=
  match vtx with
  | [] => c = e
  | tx :: vtx' =>
    rules_hold u c tx /\ Forall (fun o => is_Some (u o)) (tx_spends tx)
    /\ exists c' undo, AssetCache.UpdateCoins aenv fReindex fAssetIndex junk junkType p s c tx (spent_outs u tx) nHeight blockHash
                        = Some (c', undo)
       /\ assets_accepted (apply_tx GetAssetAmountFromScript nHeight u tx) c' vtx' e
  end.

Lemma spent_outs_ext u v tx : (forall o, u o = v o) -> spent_outs u tx = spent_outs v tx.
Proof. intros Huv. unfold spent_outs. f_equal. induction (tx_spends tx) as [|o l IH]; [done|]. cbn. by rewrite Huv, IH. Qed.

Lemma assets_accepted_ext vtx : forall u v c e, (forall o, u o = v o) -> assets_accepted u c vtx e -> assets_accepted v c vtx e.
Proof.
  induction vtx as [|tx vtx IH]; intros u v c e Huv; [done|]. intros (Ha & Hs & c' & un & Hu & Hr). split_and!.
  - by eapply rules_hold_ext.
  - eapply Forall_impl; [exact Hs|]. intros o. cbn. by rewrite Huv.
  - exists c', un. rewrite <- (spent_outs_ext u v) by done. split; [done|].
    eapply IH; [|done]. intros o. unfold apply_tx. by rewrite Huv.
Qed.

Lemma accepted_cache vtx : forall u c e, assets_accepted u c vtx e -> cache_after u c vtx = Some e.
Proof.
  induction vtx as [|tx vtx IH]; intros u c e; [by intros ->|]. intros (_ & _ & c' & un & Hu & Hr). cbn. rewrite Hu. by apply IH.
Qed.

Lemma accepted_at vtx : forall u c e i tx, assets_accepted u c vtx e -> vtx !! i = Some tx ->
  exists c_i, cache_after u c (take i vtx) = Some c_i
    /\ rules_hold (apply_block GetAssetAmountFromScript nHeight u (take i vtx)) c_i tx.
Proof.
  induction vtx as [|tx0 vtx IH]; intros u c e i tx Ha Hi; [done|]. destruct Ha as (Hr & _ & c' & un & Hu & Ha).
  destruct i as [|i]; [injection Hi as <-; by exists c|]. cbn. rewrite Hu. by eapply IH.
Qed.

Lemma spent_found u tx ks : Forall2 (fun o k => u o = Some k) (tx_spends tx) ks ->
  omap u (tx_spends tx) = ks /\ Forall (fun o => is_Some (u o)) (tx_spends tx).
Proof. induction 1 as [|o k l ks Hk _ [IH1 IH2]]; [done|]. cbn. rewrite Hk, IH1. split; [done|]. constructor; [by eexists|done]. Qed.

(** One transaction that is not the coinbase. *)
Lemma rules_accepted c coins tx : cache_ok base coins -> IsCoinBase tx = false -> tx_passed tx ->
  (check_assets c coins tx).1 = Ok tt -> rules_hold (view base coins) c tx.
Proof.
  intros Hc Hcb [b Hp] E _. set (cache := view_of fReindex c p s). unfold check_assets in E. fold cache in E.
  destruct (AssetRules.CheckTxAssets aenv cache mapAssetToHash mapReissuedAssets currentTime base false fMessaging nBlocktime coins tx)
    as [[r|e] coins'] eqn:Er; [|done].
  destruct (CheckTxAssets_spec aenv cache mapAssetToHash mapReissuedAssets currentTime base false fMessaging nBlocktime coins tx Hc Hcb)
    as (_ & _ & Hs). destruct Hs as (ks & Hk & Ht & Hf & _); [by rewrite Er|].
  destruct (creation_spec aenv cache mapAssetToHash mapReissuedAssets currentTime base junkType true false b false fMessaging nBlocktime
              coins tx r coins' Hc Hcb Hp Er) as (ks' & Hk' & Hcr).
  rewrite Hk in Hk'. injection Hk' as <-. by exists ks.
Qed.

(** ** The assets of the spent coins *)

Lemma asset_address script : prefixes_ok aenv.(e_prefixes) -> all_bytes script = true -> IsAssetScript script = true ->
  script_address aenv script <> [].
Proof.
  intros Hp Hb Ha. unfold IsAssetScript in Ha. destruct (IsAssetScript3 script) as [[[ty ow] n]|] eqn:E; [|done].
  assert ((31 < length script)%nat) as Hl.
  { unfold IsAssetScript3 in E. destruct (31 <? length script)%nat eqn:El; [|done]. by apply Nat.ltb_lt. }
  assert (valid_dest (CKeyID (take 20 (drop 3 script)))) as Hv.
  { split; [rewrite length_take, length_drop; lia|]. apply all_bytes_split, all_bytes_split. done. }
  assert (ExtractDestination script = Some (CKeyID (take 20 (drop 3 script)))) as Ed.
  { unfold ExtractDestination, Solver, IsPayToScriptHash. rewrite E.
    replace (size_is script 23) with false by (symmetry; apply Nat.eqb_neq; lia). cbn [andb found typeRet vSolutionsRet negb hd].
    unfold IsAssetScript3, asset_script_at in E. repeat case_match; simplify_eq; done. }
  unfold script_address. rewrite Ed. destruct (address_roundtrip _ _ Hp Hv) as (a & Ea & Da). cbn [from_option id]. unfold id. rewrite Ea. cbn [from_option id].
  intros ->. by vm_compute in Da.
Qed.

Lemma spent_asset_data script d : GetAssetData aenv script = Some d ->
  spent_asset aenv script = Some (script_address aenv script, d.(o_name), d.(o_amount)).
Proof.
  unfold GetAssetData, spent_asset. destruct (IsAssetScript3 script) as [[[ty ow] n]|]; [|done].
  unfold AssetFromScript, TransferAssetFromScript, OwnerAssetFromScript, ReissueAssetFromScript.
  repeat case_match; intros Hd; try done; destruct (read_from _ _ _); try done; by injection Hd as <-.
Qed.

(** What [TrySpendCoin] needs. *)
Definition spendable_asset (o : CTxOut) : Prop := IsAssetScript o.(scriptPubKey) = true ->
  exists address name n, spent_asset aenv o.(scriptPubKey) = Some (address, name, n) /\ address <> [] /\ name <> [].

Lemma TrySpendCoin_ok c o : spendable_asset o -> (TrySpendCoin aenv fAssetIndex p s c o).1 = true.
Proof.
  unfold spendable_asset, TrySpendCoin. destruct (IsAssetScript _); [|done]. intros H. destruct (H eq_refl) as (ad & name & n & -> & Ha & Hn).
  destruct ad; [done|]. destruct name; [done|]. cbn [is_nil orb negb]. destruct (fAssetIndex && _); [|done].
  by destruct (GetBestAssetAddressAmount _ _ _ _ _ _) as [[] c1].
Qed.

Lemma spend_assets_ok outs : Forall spendable_asset outs -> forall a, spend_assets cache_ops a outs <> None.
Proof.
  induction 1 as [|o outs Ho _ IH]; intros [c w]; cbn [spend_assets]; [done|]. cbn [cache_ops spend_asset fst snd].
  destruct (fAssetsIsActive aenv); [|apply IH]. pose proof (TrySpendCoin_ok c o Ho) as Hs.
  destruct (TrySpendCoin _ _ _ _ _ _) as [ok c1]. cbn in Hs. rewrite Hs. apply IH.
Qed.

Lemma spend_assets_inactive outs a : aenv.(fAssetsIsActive) = false -> spend_assets cache_ops a outs <> None.
Proof. intros Ha. induction outs as [|o outs IH]; [done|]. cbn [spend_assets cache_ops spend_asset]. by rewrite Ha. Qed.

(** The names of the coins that an accepted transaction spends are those of its
    transfers, which are valid. *)
Lemma spent_names tx ks k d : tx_passed tx -> tally (assets_in aenv ks) ∅ = tally (assets_out aenv tx.(vout)) ∅ ->
  k ∈ ks -> IsAssetScript k.(out).(scriptPubKey) = true -> GetAssetData aenv k.(out).(scriptPubKey) = Some d -> d.(o_name) <> [].
Proof.
  intros [b Hp] Ht Hk Ha Hd. assert (d.(o_name) ∈ names (assets_in aenv ks)) as Hin.
  { unfold names, assets_in. apply list_elem_of_fmap. exists (d.(o_name), d.(o_amount)). split; [done|]. apply list_elem_of_join.
    exists (coin_entry aenv k). split; [|apply list_elem_of_fmap; by exists k]. unfold coin_entry. rewrite Ha, Hd. by left. }
  apply (tally_eq _ _ (entries_in_range aenv ks) (entries_out_range aenv tx.(vout)) Ht) in Hin.
  unfold names, assets_out in Hin. apply list_elem_of_fmap in Hin as ([n v] & -> & Hin). apply list_elem_of_join in Hin as (l & Hl & Hin).
  apply list_elem_of_fmap in Hin as (o & -> & Ho). unfold transfer_entry in Hl.
  destruct (TransferAssetFromScript aenv (scriptPubKey o)) as [[t ad]|] eqn:Et; [|by apply not_elem_of_nil in Hl].
  apply list_elem_of_singleton in Hl as [= -> ->]. cbn [fst].
  destruct (proj1 (CheckTransaction_assets _ _ _ _ _ _ _ Hp Ho) _ _ Et) as [ty Hty]. intros En. rewrite En in Hty. by vm_compute in Hty.
Qed.

(** What is known of a transaction before: [CheckTransaction], and its scripts are bytes. *)
Definition tx_fit tx : Prop := tx_passed tx /\ Forall script_bytes tx.(vout).

Lemma rules_assert_nothing : prefixes_ok aenv.(e_prefixes) -> no_asset_asserts base env block_rules tx_fit.
Proof.
  intros Hp [c w] coins tx Hc Hcb [Htx _]. cbn [block_rules CheckTxAssets ops fst]. split.
  - unfold check_assets. set (cache := view_of fReindex c p s).
    destruct (CheckTxAssets_spec aenv cache mapAssetToHash mapReissuedAssets currentTime base false fMessaging nBlocktime coins tx Hc Hcb)
      as (_ & Hr & _). destruct (AssetRules.CheckTxAssets _ _ _ _ _ _ _ _ _ _ _) as [[r|e] coins']; [done|].
    cbn. destruct (Hr e eq_refl) as [x ->]. done.
  - intros ks Ha Hks Hb. destruct (fAssetsIsActive aenv) eqn:Eact; [|by apply spend_assets_inactive].
    cbn [env fAssetsDeployed] in Ha. destruct (rules_accepted c coins tx Hc Hcb Htx (Ha Eact) Hcb) as (ks' & Hks' & Ht & Hf & _).
    rewrite Hks in Hks'. injection Hks' as <-. apply spend_assets_ok, Forall_fmap, Forall_forall. intros k Hk Hka.
    rewrite Forall_fmap in Hb. rewrite Forall_forall in Hf, Hb. destruct (Hf k Hk Hka) as (d & Hd & _).
    eexists _, _, _. split; [by apply spent_asset_data|]. split; [by apply asset_address; [|apply Hb|]|by eapply spent_names].
Qed.

(** ** Disconnecting without assets *)

(** No output and no spent coin carries an asset. *)
Definition assetless (o : CTxOut) : Prop := IsAssetScript o.(scriptPubKey) = false /\ IsNullAsset o.(scriptPubKey) = false.
Definition untouched vtx (undos : list (list Coin)) : Prop :=
  aenv.(fAssetsIsActive) = false \/
  Forall (fun tx => Forall assetless tx.(vout)) vtx /\ Forall (Forall (fun k => IsAssetScript k.(out).(scriptPubKey) = false)) undos.

Lemma assetless_tx c tx w : tx.(vout) <> [] -> Forall assetless tx.(vout) ->
  AssetCache.disconnect_tx aenv fReindex fAssetIndex junk junkType p s c tx w = Some c.
Proof.
  intros Hne Hp. assert (assetless (from_end tx.(vout) 1)) as [Ha _].
  { rewrite Forall_forall in Hp. apply Hp, from_end_in. destruct (vout tx); [done|cbn; lia]. }
  unfold AssetCache.disconnect_tx. destruct (negb _); [done|].
  assert (remove_kind aenv fReindex fAssetIndex junk p s c tx w = Some c) as ->.
  { unfold remove_kind, AssetTx.IsNewAsset, AssetTx.IsReissueAsset, IsNewUniqueAsset, IsNewMsgChannelAsset, IsNewQualifierAsset, IsNewRestrictedAsset,
      last_issues, CheckIssueDataTx, CheckReissueDataTx, IsScriptNewAsset, IsScriptReissueAsset.
    rewrite !not_asset_kind by done. cbn [negb]. by replace (if (length (vout tx) <? 3)%nat then false else false) with false by (by case_match). }
  cbn [mbind option_bind].
  assert (forall (l : list (nat * CTxOut)), Forall (fun io => assetless io.2) l ->
    foldl (fun oc io => c ← oc; remove_transfer aenv fAssetIndex p s c (GetHash tx) io.1 io.2.(scriptPubKey)) (Some c) l = Some c) as Ht.
  { induction 1 as [|io l [Ho _] _ IH]; [done|]. cbn. unfold remove_transfer at 2, IsScriptTransferAsset.
    rewrite not_asset_kind, andb_false_r by done. exact IH. }
  rewrite Ht; cbn [mbind option_bind].
  - clear Ht Ha Hne. induction Hp as [|o l [_ Ho] _ IH]; [done|]. cbn. unfold remove_null at 2. by rewrite Ho, andb_false_r.
  - apply Forall_lookup. intros i io. rewrite list_lookup_imap. intros (o & Ho & ->)%fmap_Some. cbn. rewrite Forall_lookup in Hp. by eapply Hp.
Qed.

Lemma try_assetless outs : (aenv.(fAssetsIsActive) = false \/ Forall assetless outs) ->
  forall t, try_assets GetAssetAmountFromScript cache_ops t outs = (true, t).
Proof.
  intros H. induction outs as [|o outs IH]; intros [c w]; [done|]. cbn [try_assets].
  assert (spend_asset cache_ops (c, w) o = (true, (c, w))) as E.
  { cbn [cache_ops spend_asset]. destruct (fAssetsIsActive aenv) eqn:Ea; [|done]. destruct H as [?|H]; [done|].
    apply Forall_cons in H as [[Ho _] _]. unfold TrySpendCoin. cbn [fst]. by rewrite Ho. }
  rewrite E, IH by (destruct H as [?|[_ ?]%Forall_cons]; auto). by case_match.
Qed.

Lemma restore_assetless ks : (aenv.(fAssetsIsActive) = false \/ Forall (fun k => IsAssetScript k.(out).(scriptPubKey) = false) ks) ->
  forall a, restore_assets cache_ops a ks = (true, a).
Proof.
  intros H. induction ks as [|k ks IH]; intros [c w]; [done|]. cbn [restore_assets cache_ops undo_coin fst snd].
  assert (restore_input aenv fAssetIndex p s c k = (true, c)) as ->.
  { unfold restore_input. destruct (fAssetsIsActive aenv); [|done]. destruct H as [?|[Hk _]%Forall_cons]; [done|]. by rewrite Hk. }
  by rewrite IH by (destruct H as [?|[_ ?]%Forall_cons]; auto).
Qed.

Definition untouched_tx (txu : CTransaction * list Coin) : Prop :=
  aenv.(fAssetsIsActive) = false \/ txu.1.(vout) <> [] /\ Forall assetless txu.1.(vout)
                                    /\ Forall (fun k => IsAssetScript k.(out).(scriptPubKey) = false) txu.2.

Lemma disconnect_untouched l : Forall untouched_tx l -> forall t a, Coins.disconnect_assets GetAssetAmountFromScript cache_ops t a l = Some (true, a).
Proof.
  induction 1 as [|[tx undo] l Hu _ IH]; intros t [c w]; [done|]. cbn [Coins.disconnect_assets].
  rewrite try_assetless by (destruct Hu as [?|(_ & ? & _)]; auto). cbn [cache_ops undo_assets fst snd].
  assert (AssetCache.disconnect_tx aenv fReindex fAssetIndex junk junkType p s c tx w = Some c) as ->.
  { destruct Hu as [Ha|(Hne & Hp & _)]; [unfold AssetCache.disconnect_tx; by rewrite Ha|by apply assetless_tx]. }
  cbn [mbind option_bind]. rewrite restore_assetless by (destruct Hu as [?|(_ & _ & ?)]; [by left|right; by apply Forall_reverse]).
  replace (match l with [] => (true, (c, w)) | _ :: _ => (true, (c, w)) end) with (true, (c, w)) by (by destruct l). by rewrite IH.
Qed.

Lemma untouched_block vtx undos : untouched vtx undos -> Forall (fun tx => tx.(vout) <> []) vtx -> Forall untouched_tx (reverse (zip vtx ([] :: undos))).
Proof.
  intros Hu Hp. apply Forall_reverse, Forall_forall. intros [tx undo] Hin. destruct Hu as [?|[Hv Hk]]; [by left|right].
  apply list_elem_of_lookup in Hin as [i Hi]. apply lookup_zip_with_Some in Hi as (tx' & undo' & [= -> ->] & Ht & Hun).
  rewrite Forall_lookup in Hv, Hp. split_and!; [by eapply Hp|by eapply Hv|].
  destruct i as [|i]; [injection Hun as <-; constructor|]. rewrite Forall_lookup in Hk. by eapply Hk.
Qed.

Context (Hflags : consistent benv.(flags)) (Hdeployed : aenv.(fAssetsIsActive) = true).

Lemma spend_update outs : forall c w, spend_assets cache_ops (c, w) outs
  = (c ← foldl (fun oc o => c ← oc; if negb aenv.(fAssetsIsActive) then Some c
                 else let '(ok, c) := TrySpendCoin aenv fAssetIndex p s c o in if ok : bool then Some c else None) (Some c) outs;
     Some (c, w)).
Proof.
  induction outs as [|o outs IH]; intros c w; [done|]. cbn [spend_assets foldl mbind option_bind cache_ops spend_asset fst snd].
  destruct (fAssetsIsActive aenv) eqn:Ea; cbn [negb] in *; [|apply IH].
  destruct (TrySpendCoin _ _ _ _ _ _) as [[] c1]; [apply IH|]. clear IH. by induction outs.
Qed.

(** The asset cache goes through [UpdateCoins]. *)
Lemma update_assets c w tx outs a1 : (IsCoinBase tx = true -> outs = []) ->
  spend_assets cache_ops (c, w) outs = Some a1 -> exists undo,
  AssetCache.UpdateCoins aenv fReindex fAssetIndex junk junkType p s c tx outs nHeight blockHash = Some ((add_assets cache_ops a1 tx).1, undo)
  /\ (add_assets cache_ops a1 tx).2 = w ++ undo_entry undo.
Proof.
  intros Ho E. rewrite spend_update in E. unfold AssetCache.UpdateCoins. apply bind_Some in E as (c1 & E & [= <-]).
  destruct (IsCoinBase tx); [rewrite (Ho eq_refl) in E; injection E as <-|rewrite E]; cbn; fold nHeight;
    destruct (AssetCache.AddCoins _ _ _ _ _ _ _ _ _ _ _) as [c2 u]; by exists u.
Qed.

Lemma connect_loop_assets vtx : forall coins a nFees n nFees' undos coins' a', cache_ok base coins -> Forall tx_passed vtx ->
  ids_new (view base coins) vtx -> MoneyRange nFees = true ->
  connect_loop GetAssetAmountFromScript base env block_rules coins a vtx nFees n = Ok (nFees', undos, coins', a') ->
  assets_accepted (view base coins) a.1 vtx a'.1.
Proof.
  induction vtx as [|tx vtx IH]; intros coins [c w] nFees n nFees' undos coins' a' Hc Hp Hnew Hf; cbn [connect_loop].
  { intros [= <- <- <- <-]. done. }
  intros ([[[[nf n1] undo] coins1] a1] & E1 & ([[[nf2 undos'] coins2] a2] & E2 & [= <- <- <- <-])%bind_Ok)%bind_Ok.
  apply Forall_cons in Hp as [Hp1 Hp]. pose proof (passed_checked _ Hp1) as Hck.
  apply (ids_new_step GetAssetAmountFromScript env) in Hnew as [Hn1 Hnew].
  destruct (connect_tx_spec GetAssetAmountFromScript base env block_rules check_assets_reads Hflags coins (c, w) tx nFees n nf n1 undo coins1 a1
              Hc Hck Hn1 Hf E1) as (_ & Hm & Hc1 & Hv1 & Hu & a0 & Es & ->).
  specialize (IH coins1 (add_assets cache_ops a0 tx) nf n1 nf2 undos' coins2 a2 Hc1 Hp). destruct (spent_found _ _ _ Hu) as [Eo Hs].
  destruct (update_assets c w tx (out <$> undo) a0) as (un & Eu & _); [|done|].
  { intros Hcb. unfold tx_spends in Hu. rewrite Hcb in Hu. by inversion Hu. }
  cbn [assets_accepted fst]. split_and!; [|done|].
  - intros Hcb. destruct (connect_tx_assets GetAssetAmountFromScript base env block_rules coins (c, w) tx nFees n _ Hc Hcb Hdeployed E1)
      as (coins0 & Hr & E0).
    by apply (rules_hold_ext (view base coins0)); [apply Hr|apply rules_accepted; [apply Hr|..]|].
  - eexists _, un. unfold spent_outs. rewrite Eo. split; [exact Eu|]. eapply assets_accepted_ext; [exact Hv1|]. apply IH; [|done..].
    destruct Hnew as [Hnew ?]. split; [|done]. eapply Forall_impl; [exact Hnew|]. intros t Ht x. by rewrite Hv1.
Qed.

(** ** The supply of an asset *)

Definition held (name : bytes) (k : Coin) : Z := units name (coin_entry aenv k).
(** The units of an asset in the unspent outputs. *)
Definition supply (name : bytes) m : Z := weight (held name) m.

(** What an output holds, what of it is not a transfer, and what is lost. *)
Definition out_entry (o : CTxOut) : list (bytes * Z) := coin_entry aenv (MkCoin o false 0).
Definition new_entry (o : CTxOut) : list (bytes * Z) :=
  match TransferAssetFromScript aenv o.(scriptPubKey) with Some _ => [] | None => out_entry o end.
Definition made (name : bytes) (outs : list CTxOut) : Z := units name (mjoin (new_entry <$> outs)).
Definition lost (name : bytes) (outs : list CTxOut) : Z :=
  units name (mjoin (out_entry <$> List.filter (fun o => IsUnspendable GetAssetAmountFromScript o.(scriptPubKey)) outs)).

Lemma units_app name l l' : units name (l ++ l') = units name l + units name l'.
Proof. unfold units. induction l as [|x l IH]; cbn; [done|]. rewrite IH. lia. Qed.

Lemma units_cons {A} name (f : A -> list (bytes * Z)) x l :
  units name (mjoin (f <$> (x :: l))) = units name (f x) + units name (mjoin (f <$> l)).
Proof. apply units_app. Qed.

Lemma weigh_held name ks : weigh (held name) ks = units name (assets_in aenv ks).
Proof. induction ks as [|k ks IH]; [done|]. unfold assets_in in *. by rewrite units_cons, <- IH. Qed.

Lemma entry_split o : out_entry o = transfer_entry aenv o ++ new_entry o.
Proof.
  unfold transfer_entry, new_entry. destruct (TransferAssetFromScript aenv (scriptPubKey o)) as [[t ad]|] eqn:E; [|done].
  unfold out_entry, coin_entry. cbn [out]. pose proof E as Ek. apply transfer_kind in Ek as (ow & n & Ek).
  unfold IsAssetScript, GetAssetData. rewrite Ek, E. done.
Qed.

Lemma held_made name h cb outs :
  weigh (held name) (coins_made GetAssetAmountFromScript h cb outs) = units name (assets_out aenv outs) + made name outs - lost name outs.
Proof.
  unfold made, lost, assets_out, coins_made. induction outs as [|o outs IH]; [done|]. rewrite !units_cons. cbn [List.filter].
  assert (units name (out_entry o) = units name (transfer_entry aenv o) + units name (new_entry o)) as Eo
    by (by rewrite entry_split, units_app).
  destruct (IsUnspendable _ _); cbn [negb]; rewrite ?units_cons; [lia|].
  match goal with |- weigh _ (?f <$> (o :: ?l)) = _ => change (weigh (held name) (f <$> (o :: l))) with (units name (out_entry o) + weigh (held name) (f <$> l)) end.
  lia.
Qed.

Lemma no_assets name outs : Forall (fun o => IsAssetScript o.(scriptPubKey) = false) outs ->
  units name (assets_out aenv outs) = 0 /\ made name outs = 0 /\ lost name outs = 0.
Proof.
  unfold assets_out, made, lost. induction 1 as [|o outs Ho _ (IH1 & IH2 & IH3)]; [done|].
  rewrite !units_cons. cbn [List.filter]. assert (out_entry o = []) as Eo by (unfold out_entry, coin_entry; cbn [out]; by rewrite Ho).
  pose proof (entry_split o) as Es. rewrite Eo in Es. symmetry in Es. apply app_eq_nil in Es as [Et En]. rewrite Et, En. split_and!; [done..|].
  destruct (IsUnspendable _ _); by rewrite ?units_cons, ?Eo.
Qed.

Lemma wraps_diff a b : wraps 64 a = wraps 64 b -> (a - b) mod 2 ^ 64 = 0.
Proof.
  unfold wraps. intros E. assert ((a + 2 ^ (64 - 1)) mod 2 ^ 64 = (b + 2 ^ (64 - 1)) mod 2 ^ 64) as E' by lia.
  replace (a - b) with ((a + 2 ^ (64 - 1)) - (b + 2 ^ (64 - 1))) by lia. rewrite Zminus_mod, E', Z.sub_diag. done.
Qed.

Lemma mod_sum a b : a mod 2 ^ 64 = 0 -> b mod 2 ^ 64 = 0 -> (a + b) mod 2 ^ 64 = 0.
Proof. intros Ha Hb. by rewrite Zplus_mod, Ha, Hb. Qed.

Context (Hcoinbase : aenv.(fCheckCoinbaseAssetsIsActive) = true).

Lemma spent_list u l : Forall (fun o => is_Some (u o)) l -> exists ks, Forall2 (fun o k => u o = Some k) l ks.
Proof. induction 1 as [|o l [k Hk] _ [ks IH]]; [by exists []|]. exists (k :: ks). by constructor. Qed.

Lemma supply_txs name vtx : forall u c m e, agrees m u -> Forall tx_passed vtx -> ids_new u vtx -> assets_accepted u c vtx e ->
  exists m', agrees m' (apply_block GetAssetAmountFromScript nHeight u vtx)
    /\ let outs := mjoin (vout <$> vtx) in (supply name m' - (supply name m + made name outs - lost name outs)) mod 2 ^ 64 = 0.
Proof.
  assert (forall l l', made name (l ++ l') = made name l + made name l') as Hmade.
  { intros l l'. unfold made. rewrite fmap_app, join_app. apply units_app. }
  assert (forall l l', lost name (l ++ l') = lost name l + lost name l') as Hlost.
  { intros l l'. unfold lost. rewrite List.filter_app, fmap_app, join_app. apply units_app. }
  induction vtx as [|tx vtx IH]; intros u c m e Hm Hp Hnew Ha.
  { exists m. split; [done|]. cbn. by rewrite Z.add_0_r, !Z.sub_0_r, Z.sub_diag. }
  apply Forall_cons in Hp as [Hp1 Hp]. destruct (ids_new_step GetAssetAmountFromScript env u tx vtx Hnew) as [Hn1 Hnew'].
  destruct Ha as (Ha & Hall & c' & un & _ & Hrest). pose proof (passed_checked _ Hp1) as [Hnd _].
  assert (NoDup (tx_spends tx)) as Hnd' by (unfold tx_spends; destruct (IsCoinBase tx); [constructor|done]).
  destruct (spent_list u _ Hall) as (ks & Hks).
  destruct (weight_tx GetAssetAmountFromScript (held name) nHeight u tx m ks Hm Hn1 Hnd' Hks) as (m1 & Hm1 & Hw1).
  destruct (IH _ c' m1 e Hm1 Hp Hnew' Hrest) as (m2 & Hm2 & Hw2). exists m2. split; [done|]. cbv zeta in *.
  change (mjoin (vout <$> (tx :: vtx))) with (tx.(vout) ++ mjoin (vout <$> vtx)).
  rewrite Hmade, Hlost. rewrite weigh_held, held_made in Hw1.
  assert ((units name (assets_in aenv ks) - units name (assets_out aenv tx.(vout))) mod 2 ^ 64 = 0) as Hio.
  { destruct (IsCoinBase tx) eqn:Ecb.
    - destruct (no_assets name _ (passed_coinbase tx Hcoinbase Hp1 Ecb)) as (-> & _). unfold tx_spends in Hks. rewrite Ecb in Hks.
      inversion Hks. done.
    - destruct (Ha Ecb) as (ks' & Hk & Ht & _). assert (ks' = ks) as ->.
      { apply spent_coins_Forall2 in Hk. unfold tx_spends in Hks. rewrite Ecb in Hks. clear - Hk Hks. revert ks Hks.
        induction Hk; intros ks Hks; inversion Hks; subst; [done|]. f_equal; [congruence|auto]. }
      apply wraps_diff. exact (proj2 (tally_eq _ _ (entries_in_range aenv ks) (entries_out_range aenv tx.(vout)) Ht name)). }
  unfold supply in *. rewrite Hw1 in Hw2.
  match type of Hw2 with ?x mod _ = 0 => match type of Hio with ?y mod _ = 0 =>
    match goal with |- ?z mod _ = 0 => replace z with (x + (- y)) by lia end end end.
  apply mod_sum; [done|]. by apply Z_mod_zero_opp_full.
Qed.

(** ** What an accepted block does *)

Context (coins coins' : CCoinsMap) (vtx : list CTransaction) (undos : list (list Coin)) (c' : CAssetsCache) (vUndo : list (bytes * CBlockAssetUndo)).
Context (Hcoins : cache_ok base coins) (Hpassed : Forall tx_passed vtx) (Hnew : ids_new (view base coins) vtx)
        (Haccepted : ConnectBlockAssets coins vtx = Ok (undos, coins', (c', vUndo))).

Lemma connected_assets : assets_accepted (view base coins) empty_cache vtx c'
  /\ (forall o, view base coins' o = apply_block GetAssetAmountFromScript nHeight (view base coins) vtx o).
Proof.
  pose proof Haccepted as E. unfold ConnectBlockAssets, ConnectBlock in E. apply bind_Ok in E as ([[[nf us] cs] a] & E1 & E).
  pose proof (connect_loop_assets vtx coins (empty_cache, []) 0 0 nf us cs a Hcoins Hpassed Hnew eq_refl E1) as Ha.
  destruct (connect_loop_spec GetAssetAmountFromScript base env block_rules check_assets_reads Hflags vtx coins (empty_cache, []) 0 0
              nf us cs a Hcoins) as (_ & _ & _ & _ & Hv & _); try done.
  { eapply Forall_impl; [exact Hpassed|apply passed_checked]. }
  destruct vtx as [|cb rest]; [done|]. destruct (check_block_reward _ _ _ _ _) as [|[|]]; [|done..].
  injection E as <- <- ->. done.
Qed.

(** C6. The supply of every asset is accounted for.  A block that is connected
    changes the units of an asset in the unspent outputs by what its outputs issue
    and reissue, less what they put into outputs that cannot be spent, modulo 2^64;
    where both sides fit in 63 bits they are equal.  The block is one whose transactions
    [CheckTransaction] has passed and have new and distinct identifiers, connected with
    consistent script flags to a sound coins cache of finitely many coins, once assets
    are deployed and a coinbase may no longer carry assets. *)
Theorem asset_supply (m : gmap COutPoint Coin) : agrees m (view base coins) -> forall name,
  exists m', agrees m' (view base coins') /\
    let expected := supply name m + made name (mjoin (vout <$> vtx)) - lost name (mjoin (vout <$> vtx)) in
    (supply name m' - expected) mod 2 ^ 64 = 0
    /\ (0 <= supply name m' < 2 ^ 63 -> 0 <= expected < 2 ^ 63 -> supply name m' = expected).
Proof.
  intros Hm name. destruct connected_assets as [Ha Hv]. destruct (supply_txs name vtx _ _ m _ Hm Hpassed Hnew Ha) as (m' & Hm' & E).
  exists m'. split; [intros o; rewrite Hv; apply Hm'|]. cbv zeta in *. split; [done|]. intros. apply Z.mod_divide in E as [k E]; lia.
Qed.


End AssetBlock.

(** ** A block that issues a subasset *)

Module Issue.
Import AssetRules.Market AssetCache.Registry ConnectBlock.Live.

#[local] Existing Instance Spend.accept_all.
#[local] Existing Instance poly_script_hash.
#[local] Existing Instance Poly.poly_hash.

Definition aenv : asset_env := AssetRules.Market.env.
(** Assets are deployed, and the scripts of the block are assumed valid. *)
Definition benv : block_env :=
  MkEnv main_params true true true 1 false (fun _ => false) (block_flags true true true true) entry1.
Definition vtx : list CTransaction := [coinbase 1 (900 * COIN); issue_bar].
Definition result_of := ConnectBlockAssets aenv benv coins false true true 0 ROOT (fun _ => false) ∅ 0 0 9 empty_cache gold_store ∅ vtx.
Definition undos1 := match result_of with Ok (u, _, _) => u | Err _ => [] end.
Definition coins1 := match result_of with Ok (_, c, _) => c | Err _ => ∅ end.
Definition cache1 := match result_of with Ok (_, _, (c, _)) => c | Err _ => empty_cache end.
Definition vUndo1 := match result_of with Ok (_, _, (_, w)) => w | Err _ => [] end.
Lemma block_ok : ConnectBlockAssets aenv benv coins false true true 0 ROOT (fun _ => false) ∅ 0 0 9 empty_cache gold_store ∅ vtx
  = Ok (undos1, coins1, (cache1, vUndo1)).
Proof.
  assert (match result_of with Ok _ => true | Err _ => false end = true) as H by (vm_compute; reflexivity).
  fold result_of. unfold undos1, coins1, cache1, vUndo1. destruct result_of as [[[u c] [e w]]|]; [reflexivity|discriminate].
Qed.

Lemma issue_passed : Forall (tx_passed aenv ROOT) vtx.
Proof. apply Forall_cons; split; [|apply Forall_singleton]; exists true; vm_compute; reflexivity. Qed.

Lemma coins_new tx : (GetHash tx =? 7) = false -> id_new (view coins ∅) tx.
Proof.
  intros H n. unfold view. rewrite lookup_empty. unfold coins. apply Z.eqb_neq in H.
  repeat (rewrite decide_False by (intros E; apply H; exact (f_equal Primitives.op_hash E))). reflexivity.
Qed.
Lemma new_ids : ids_new (view coins ∅) vtx.
Proof.
  split; [apply Forall_cons; split; [|apply Forall_singleton]; apply coins_new; vm_compute; reflexivity|].
  apply (bool_decide_eq_true_1 (NoDup (GetHash <$> vtx))). vm_compute. reflexivity.
Qed.

Definition unspent : gmap COutPoint Coin :=
  list_to_map ((fun n => (o n, default (MkCoin (burn 0) false 0) (coins (o n)))) <$> [0; 1; 2; 3]).
Lemma unspent_ok : agrees unspent (view coins ∅).
Proof.
  intros x. unfold view. rewrite lookup_empty.
  destruct (decide (x ∈ o <$> [0; 1; 2; 3])) as [Hx|Hx].
  { repeat (apply elem_of_cons in Hx as [->|Hx]; [vm_compute; reflexivity|]). by apply elem_of_nil in Hx. }
  transitivity (@None Coin).
  - apply not_elem_of_list_to_map. contradict Hx. exact Hx.
  - unfold coins. rewrite !decide_False; [reflexivity|..]; intros ->; apply Hx; set_solver.
Qed.

Lemma asset_supply_witness : exists m', agrees m' (view coins coins1)
  /\ (supply aenv (str "GOLD/BAR") m' - 100) mod 2 ^ 64 = 0.
Proof.
  destruct (@asset_supply Poly.poly_hash poly_script_hash Spend.accept_all aenv benv coins false true true 0 ROOT (fun _ => false) ∅ 0 0 9 empty_cache gold_store flags_ok eq_refl eq_refl
              ∅ coins1 vtx undos1 cache1 vUndo1 empty_cache_ok issue_passed new_ids block_ok unspent unspent_ok (str "GOLD/BAR"))
    as (m' & Hm & E & _).
  exists m'. split; [exact Hm|].
  assert (supply aenv (str "GOLD/BAR") unspent + made aenv (str "GOLD/BAR") (mjoin (vout <$> vtx))
          - lost aenv (str "GOLD/BAR") (mjoin (vout <$> vtx)) = 100) as <- by (vm_compute; reflexivity).
  exact E.
Defined.


End Issue.
