(* ===== verification/Node.v ===== *)
(** A node that connects and disconnects blocks: its coins, its cache, the asset
    cache of the tip and the asset databases (ConnectTip and DisconnectTip of
    validation.cpp, as far as they change these).  The theorems show that no
    sequence of blocks ever leaves coins worth more than the money supply, that
    a connected block does to the unspent outputs exactly what its transactions
    say and is undone exactly as far as the asset cache can be undone, that no
    assertion fails on the way, and that a payment to a key hash is only spent
    with a signature of the key; and how a block could create money where the
    values of asset outputs are not enforced. *)

From S2P Require Import Prelude Serialize Sha256 Script Primitives Interpreter Standard InterpreterFacts ScriptRules AssetNames Base58 AssetTypes Params Coins Chain MNList ProviderTx Rewards TxVerify AssetTx AssetRules AssetCache ConnectBlock AssetBlock.

(** What surrounds a block: the deployments, the entry in the index with what
    else is settled before the loop, the options of the node, uninitialised
    variables, the part of the mempool that the asset rules read, the clock, the
    block's time and its hash. *)
Record circumstances := MkCircumstances {
  x_aenv : asset_env; x_benv : block_env; x_fReindex : bool; x_fAssetIndex : bool; x_fMessaging : bool;
  x_junk : Z; x_junkType : AssetType; x_mapAssetToHash : bytes -> bool; x_mapReissuedAssets : gmap (list Z) uint256;
  x_currentTime : Z; x_nBlocktime : Z; x_blockHash : uint256;
}.

Section Node.
Context `{HS : Hash256} `{SH : ScriptHash} `{EC : Ecdsa}.
Implicit Types (x y : circumstances) (p : CAssetsCache) (s : asset_store) (w : list (bytes * CBlockAssetUndo)).

Definition x_height x : Z := x.(x_benv).(pindex).(bi_height).
Definition x_env x : block_env := AssetBlock.env x.(x_aenv) x.(x_benv).
Definition x_rules x (base : CCoinsView) p s : asset_rules (CAssetsCache * list (bytes * CBlockAssetUndo)) :=
  block_rules x.(x_aenv) x.(x_benv) base x.(x_fReindex) x.(x_fAssetIndex) x.(x_fMessaging) x.(x_junk) x.(x_junkType)
    x.(x_mapAssetToHash) x.(x_mapReissuedAssets) x.(x_currentTime) x.(x_nBlocktime) x.(x_blockHash) p s.
Definition x_ops x p s : asset_ops (CAssetsCache * list (bytes * CBlockAssetUndo)) :=
  cache_ops x.(x_aenv) x.(x_benv) x.(x_fReindex) x.(x_fAssetIndex) x.(x_junk) x.(x_junkType) x.(x_blockHash) p s.

Definition connect x (base : CCoinsView) p s (coins : CCoinsMap) (vtx : list CTransaction) :=
  ConnectBlockAssets x.(x_aenv) x.(x_benv) base x.(x_fReindex) x.(x_fAssetIndex) x.(x_fMessaging) x.(x_junk) x.(x_junkType)
    x.(x_mapAssetToHash) x.(x_mapReissuedAssets) x.(x_currentTime) x.(x_nBlocktime) x.(x_blockHash) p s coins vtx.
Definition disconnect x (base : CCoinsView) p s (maxOutputs : nat) (readable : bool) (coins : CCoinsMap) (vtx : list CTransaction)
    (undo : list (list Coin)) w :=
  DisconnectBlockAssets x.(x_aenv) x.(x_benv) base x.(x_fReindex) x.(x_fAssetIndex) x.(x_junk) x.(x_junkType) x.(x_blockHash) p s
    maxOutputs readable coins vtx undo w.

(** What [CheckBlock] has checked: [CheckTransaction] of every transaction, of which
    the first and only the first is a coinbase.  The scripts are bytes. *)
Definition block_passed x (vtx : list CTransaction) : Prop :=
  Forall (tx_fit x.(x_aenv) x.(x_junkType)) vtx /\ match vtx with
  | [] => False
  | coinbase :: rest => IsCoinBase coinbase = true /\ Forall (fun tx => IsCoinBase tx = false) rest
  end.

Lemma block_passed_checked x vtx : block_passed x vtx -> block_checked vtx.
Proof. intros [Hf Hcb]. split; [|done]. eapply Forall_impl; [exact Hf|]. intros tx [Hp _]. exact (passed_checked _ _ _ Hp). Qed.

(** The values of asset outputs are enforced, or no reissue carries coins. *)
Definition values_kept x (vtx : list CTransaction) : Prop :=
  x.(x_aenv).(fEnforcedValuesIsActive) = true \/
  Forall (fun tx => Forall (fun o => IsScriptReissueAsset o.(scriptPubKey) = true -> o.(nValue) = 0) tx.(vout)) vtx.

Lemma values_counted x vtx : block_passed x vtx -> values_kept x vtx -> Forall (counted (x_env x)) vtx.
Proof.
  intros [Hf _] [He|Hv]; apply Forall_forall; intros tx Hin; [by left|right].
  rewrite Forall_forall in Hf, Hv. destruct (Hf tx Hin) as [[b Hb] _]. specialize (Hv tx Hin). rewrite Forall_forall in Hv.
  apply Forall_forall. intros o Ho Ha. destruct (proj2 (CheckTransaction_assets _ _ _ _ _ _ _ Hb Ho) Ha) as [?|?]; auto.
Qed.

(** ** The steps of a node *)

Context (cp : Params).

(** A block that is connected, its undo data and its asset undo data. *)
Abbreviation connected := (list CTransaction * list (list Coin) * list (bytes * CBlockAssetUndo))%type.

(** The coins database, the cache on top of it, the connected blocks, the last one
    first, and [passets] with the databases. *)
Record node := MkNode {
  n_base : CCoinsView; n_cache : CCoinsMap; n_blocks : list connected; n_passets : CAssetsCache; n_store : asset_store;
}.

Definition height_of (bs : list connected) : Z := Z.of_nat (length bs).

(** A node connects a block that [CheckBlock] has passed and whose transaction
    identifiers are new, disconnects its last block, flushes its coins cache into
    the database, looks coins up, or dumps the asset cache. *)
Inductive node_step : node -> node -> Prop :=
| step_connect base c bs p s x vtx undo c' ac w :
    x.(x_benv).(params) = cp -> consistent x.(x_benv).(flags) -> x_height x = height_of bs + 1 -> height_of bs + 1 < 2 ^ 31 ->
    block_passed x vtx -> ids_new (view base c) vtx -> values_kept x vtx ->
    connect x base p s c vtx = Ok (undo, c', (ac, w)) ->
    node_step (MkNode base c bs p s) (MkNode base c' ((vtx, undo, w) :: bs) (Flush ac p) s)
| step_disconnect base c bs p s x maxOutputs vtx undo w r c' ac w' :
    x_height x = height_of bs + 1 -> disconnect x base p s maxOutputs true c vtx undo w = Some (r, c', (ac, w')) ->
    r <> DISCONNECT_FAILED ->
    node_step (MkNode base c ((vtx, undo, w) :: bs) p s) (MkNode base c' bs (Flush ac p) s)
| step_flush base c bs p s base' :
    (forall o, base' o = view base c o) -> node_step (MkNode base c bs p s) (MkNode base' ∅ bs p s)
| step_lookup base c bs p s c' : reads base c c' -> node_step (MkNode base c bs p s) (MkNode base c' bs p s)
| step_dump base c bs p s fAssetIndex p' s' :
    DumpCacheToDatabase fAssetIndex p s = (s', p') -> node_step (MkNode base c bs p s) (MkNode base c bs p' s').

(** A node that has connected nothing: the genesis block's coinbase is not spendable. *)
Definition fresh (nd : node) : Prop := (forall o, view nd.(n_base) nd.(n_cache) o = None) /\ cache_ok nd.(n_base) nd.(n_cache) /\ nd.(n_blocks) = [].
Definition reached (nd : node) : Prop := exists nd0, fresh nd0 /\ rtc node_step nd0 nd.

(** ** The invariant *)

Definition limited (n : nat) (u : CCoinsView) : Prop :=
  nonneg u /\ exists m, agrees m u /\ worth m <= total_subsidy cp (S n).

(** [u] are the unspent outputs of the chain [bs]. *)
Inductive chain_ok : list connected -> CCoinsView -> Prop :=
| chain_start u : (forall o, u o = None) -> chain_ok [] u
| chain_block bs u vtx undo w u' :
    chain_ok bs u -> txs_ok GetAssetAmountFromScript (height_of bs + 1) u vtx -> block_checked vtx ->
    Forall (fun tx => Forall script_bytes tx.(vout)) vtx ->
    undos_right GetAssetAmountFromScript (height_of bs + 1) u vtx ([] :: undo) -> height_of bs + 1 < 2 ^ 31 ->
    (forall o, u' o = apply_block GetAssetAmountFromScript (height_of bs + 1) u vtx o) -> limited (S (length bs)) u' ->
    chain_ok ((vtx, undo, w) :: bs) u'.

Lemma limited_ext n u v : (forall o, u o = v o) -> limited n u -> limited n v.
Proof.
  intros Huv [Hn (m & Hm & Hw)]. split; [intros o k; rewrite <- Huv; apply Hn|]. exists m. split; [|done].
  intros o. by rewrite <- Huv.
Qed.

Lemma chain_ok_ext bs u v : (forall o, u o = v o) -> chain_ok bs u -> chain_ok bs v.
Proof.
  intros Huv Hc. destruct Hc as [u Hu|]; [constructor; intros o; by rewrite <- Huv|].
  econstructor; try done; [intros o; by rewrite <- Huv|by eapply limited_ext].
Qed.

Lemma chain_utxo_ok bs u : chain_ok bs u -> utxo_ok GetAssetAmountFromScript u.
Proof.
  induction 1 as [u Hu|bs u vtx undo w u' _ IH Htxs _ _ _ Hh Hu' _]; [intros o k; by rewrite Hu|].
  intros o k. rewrite Hu'. apply apply_block_utxo_ok; [|done|done]. unfold height_of in *. lia.
Qed.

(** No coin is newer than the chain, and their scripts are bytes. *)
Lemma chain_coins bs u : chain_ok bs u -> forall o k, u o = Some k -> 0 <= k.(coin_nHeight) <= height_of bs /\ script_bytes k.(out).
Proof.
  induction 1 as [u Hu|bs u vtx undo w u' _ IH _ _ Hb _ Hh Hu' _]; intros o k; [by rewrite Hu|]. rewrite Hu'.
  assert (0 <= height_of bs) as H0 by (unfold height_of; lia).
  replace (height_of ((vtx, undo, w) :: bs)) with (height_of bs + 1) by (unfold height_of; cbn [length]; lia).
  assert (forall o k, u o = Some k -> 0 <= k.(coin_nHeight) <= height_of bs + 1 /\ script_bytes k.(out)) as Hu1.
  { intros o' k' [? ?]%IH. split; [lia|done]. }
  clear Hu' IH. revert u Hu1 o k. induction Hb as [|tx vtx Htx _ IHv]; intros u Hu1 o k; [apply Hu1|]. cbn. apply IHv. clear o k IHv.
  intros o k. unfold apply_tx. destruct (tx_creates _ _ _ _) as [k'|] eqn:E; [|case_decide; [done|apply Hu1]].
  intros [= <-]. apply tx_creates_unspendable in E as (_ & -> & Hin). rewrite wrapu_id by lia. split; [lia|].
  exact (proj1 (Forall_forall _ _) Htx _ Hin).
Qed.

Lemma chain_limited bs u : 0 < cp.(nSubsidyHalvingInterval) -> chain_ok bs u -> limited (length bs) u.
Proof.
  intros HI [u' Hu|]; [|done]. split; [intros o k; by rewrite Hu|]. exists ∅. split; [intros o; by rewrite lookup_empty, Hu|].
  pose proof (subsidy_range cp (Z.of_nat 0) HI ltac:(lia)). cbn. unfold worth, weight. rewrite map_fold_empty. lia.
Qed.

Definition node_ok (nd : node) : Prop :=
  cache_ok nd.(n_base) nd.(n_cache) /\ chain_ok nd.(n_blocks) (view nd.(n_base) nd.(n_cache)).

Lemma view_empty base : (forall o, live (base o) = base o) -> forall o, view base ∅ o = base o.
Proof. intros H o. unfold view. by rewrite lookup_empty. Qed.

(** What a connected block does to the coins. *)
Lemma connect_spec x base p s c vtx undo c' a : consistent x.(x_benv).(flags) -> cache_ok base c -> block_passed x vtx ->
  ids_new (view base c) vtx -> connect x base p s c vtx = Ok (undo, c', a) ->
  cache_ok base c' /\ txs_ok GetAssetAmountFromScript (x_height x) (view base c) vtx
  /\ (forall o, view base c' o = apply_block GetAssetAmountFromScript (x_height x) (view base c) vtx o)
  /\ undos_right GetAssetAmountFromScript (x_height x) (view base c) vtx ([] :: undo)
  /\ exists nFees coinbase, head vtx = Some coinbase /\ txs_accepted GetAssetAmountFromScript (x_env x) (view base c) vtx nFees
     /\ MoneyRange nFees = true
     /\ check_block_reward x.(x_benv).(params) x.(x_aenv).(fEnforcedValuesIsActive) (x_height x) nFees coinbase = Ok tt.
Proof.
  intros Hf Hc Hck%block_passed_checked Hnew E. exact (ConnectBlock_spec _ base (x_env x) (x_rules x base p s) (check_assets_reads _ _ _ _ _ _ _ _ _ _ _ _ _ _ _)
    Hf c _ vtx undo c' a Hc Hck Hnew E).
Qed.

Lemma connect_keeps base c bs p s x vtx undo c' ac w p' : 0 < cp.(nSubsidyHalvingInterval) ->
  x.(x_benv).(params) = cp -> consistent x.(x_benv).(flags) -> x_height x = height_of bs + 1 -> height_of bs + 1 < 2 ^ 31 ->
  block_passed x vtx -> ids_new (view base c) vtx -> values_kept x vtx -> connect x base p s c vtx = Ok (undo, c', (ac, w)) ->
  node_ok (MkNode base c bs p s) -> node_ok (MkNode base c' ((vtx, undo, w) :: bs) p' s).
Proof.
  intros HI Hp Hf Hh Hlt Hps Hnew Hval Hb [Hc Hch]. cbn [n_base n_cache n_blocks] in *.
  destruct (connect_spec _ _ _ _ _ _ _ _ _ Hf Hc Hps Hnew Hb) as (Hc' & Hok & Hv & Hus & nFees & cb & Hcb & Hacc & Hm & Hr).
  pose proof (block_passed_checked _ _ Hps) as Hck. pose proof (values_counted _ _ Hps Hval) as Hct.
  assert (bi_height (pindex (x_env x)) = height_of bs + 1) as Hh2 by exact Hh.
  rewrite Hh in *. split; [done|]. cbn. econstructor; try done.
  { eapply Forall_impl; [apply Hps|]. by intros tx [_ ?]. }
  destruct (chain_limited bs _ HI Hch) as [Hnn (m & Hag & Hw)]. destruct vtx as [|coinbase vtx]; [done|]. injection Hcb as ->.
  destruct (worth_block GetAssetAmountFromScript (x_env x) (view base c) m cb vtx nFees) as (m' & Hm' & Hw'); try done.
  { cbn. by rewrite Hp. } { rewrite Hh2. unfold height_of. lia. } { by rewrite Hh2. }
  rewrite Hh2 in *. cbn in Hw'. rewrite Hp in Hw'. split; [intros o k; rewrite Hv; by apply apply_block_nonneg; [apply Hck|]|].
  exists m'. split; [intros o; by rewrite Hv|]. change (total_subsidy cp (S (S (length bs)))) with
    (total_subsidy cp (S (length bs)) + GetBlockSubsidy cp (Z.of_nat (S (length bs)))).
  replace (Z.of_nat (S (length bs))) with (height_of bs + 1) by (unfold height_of; lia). lia.
Qed.

(** What becomes of the asset cache when a block is disconnected, and whether it
    is clean; [None] where the asset cache cannot be undone. *)
Definition undone_assets x p s (vtx : list CTransaction) (undo : list (list Coin)) w :=
  Coins.disconnect_assets GetAssetAmountFromScript (x_ops x p s) (empty_cache, w) (empty_cache, w) (reverse (zip vtx ([] :: undo))).

(** The coins are restored, unless the asset cache cannot be undone. *)
Lemma disconnect_spec x base p s n c u vtx undo w : x_height x < 2 ^ 31 -> 0 < x_height x ->
  utxo_ok GetAssetAmountFromScript u -> txs_ok GetAssetAmountFromScript (x_height x) u vtx -> block_checked vtx ->
  undos_right GetAssetAmountFromScript (x_height x) u vtx ([] :: undo) -> cache_ok base c ->
  (forall o, view base c o = apply_block GetAssetAmountFromScript (x_height x) u vtx o) ->
  exists c', cache_ok base c' /\ (forall o, view base c' o = u o)
  /\ match undone_assets x p s vtx undo w with
     | None => exists c2 a2, disconnect x base p s n true c vtx undo w = Some (DISCONNECT_FAILED, c2, a2)
     | Some (clean, a) => disconnect x base p s n true c vtx undo w
                          = Some (if clean then DISCONNECT_OK else DISCONNECT_UNCLEAN, c', a)
     end.
Proof.
  intros Hlt H0 Hu Htxs [_ Hcb] Hus Hc Hv. destruct vtx as [|coinbase vtx]; [done|]. destruct Hcb as [Hcb Hncb].
  destruct (DisconnectBlock_spec GetAssetAmountFromScript base (x_ops x p s) n (x_height x) u coinbase vtx undo c)
    as (c' & Hc' & Hv' & E); try done.
  exists c'. split_and!; [done|exact Hv'|]. exact (E (empty_cache, w)).
Qed.

Lemma disconnect_keeps base c bs p s x n vtx undo w r c' a p' : x_height x = height_of bs + 1 ->
  node_ok (MkNode base c ((vtx, undo, w) :: bs) p s) -> disconnect x base p s n true c vtx undo w = Some (r, c', a) ->
  r <> DISCONNECT_FAILED -> node_ok (MkNode base c' bs p' s).
Proof.
  intros Hh [Hc Hch] E Hr. cbn [n_base n_cache n_blocks] in *. inversion Hch as [|? u ? ? ? u' Hch' Htxs Hck _ Hus Hlt Hv Hs]; subst.
  destruct (disconnect_spec x base p s n c u vtx undo w) as (c2 & Hc2 & Hv2 & E2); rewrite ?Hh; try done.
  { unfold height_of. lia. } { by eapply chain_utxo_ok. }
  assert (c' = c2) as ->.
  { destruct (undone_assets _ _ _ _ _ _) as [[clean a2]|]; [rewrite E in E2; by injection E2|].
    destruct E2 as (c3 & a3 & E3). rewrite E in E3. injection E3 as -> -> ->. done. }
  split; [done|]. cbn. eapply chain_ok_ext; [|done]. intros o. by rewrite Hv2.
Qed.

Lemma node_step_ok nd nd' : 0 < cp.(nSubsidyHalvingInterval) -> node_step nd nd' -> node_ok nd -> node_ok nd'.
Proof.
  intros HI. destruct 1 as [base c bs p s x vtx undo c' ac w|base c bs p s x n vtx undo w r c' ac w' Hh E Hr
    |base c bs p s base' Hb|base c bs p s c' [Hc' Hv]|]; intros Hok.
  - by eapply connect_keeps.
  - by eapply disconnect_keeps.
  - destruct Hok as [Hc Hch]. split; [apply map_Forall_empty|]. cbn in *. eapply chain_ok_ext; [|done].
    intros o. rewrite view_empty; [done|]. intros o'. rewrite Hb. unfold view. case_match; apply live_idem.
  - destruct Hok as [Hc Hch]. split; [done|]. cbn in *. eapply chain_ok_ext; [|done]. intros o. by rewrite Hv.
  - exact Hok.
Qed.

Lemma reached_ok nd : 0 < cp.(nSubsidyHalvingInterval) -> reached nd -> node_ok nd.
Proof.
  intros HI (nd0 & (Hf & Hc & Hb) & Hr). assert (node_ok nd0) as H0.
  { split; [done|]. rewrite Hb. by constructor. }
  clear - HI H0 Hr. induction Hr as [|a b d Hs _ IH]; [done|]. apply IH. by eapply node_step_ok.
Qed.

(** C1. No sequence of blocks creates more than the money supply.  Take a node that
    starts without coins and in any order connects blocks at the next height,
    disconnects its last block, flushes or looks up coins and dumps its asset cache,
    on a network whose subsidy halves at least every 2100000 blocks.  Then its
    unspent outputs are a finite set of nonnegative amounts whose total is at most
    MAX_MONEY.  The connected blocks are ones that [CheckBlock] has passed, whose
    scripts are bytes, whose transaction identifiers are new and distinct, and in
    which, unless the values of asset outputs are enforced, no reissue carries
    coins; heights stay below 2^31 and the script flags imply each other as those
    of a block do. *)
Theorem money_supply (nd : node) :
  0 < cp.(nSubsidyHalvingInterval) <= 2100000 -> reached nd ->
  exists m : gmap COutPoint Coin, (forall o, m !! o = view nd.(n_base) nd.(n_cache) o)
  /\ (forall o k, m !! o = Some k -> 0 <= k.(out).(nValue)) /\ worth m <= MAX_MONEY.
Proof.
  intros HI Hr. destruct (reached_ok nd ltac:(lia) Hr) as [_ Hch].
  destruct (chain_limited _ _ ltac:(lia) Hch) as [Hnn (m & Hm & Hw)]. exists m. split_and!; [done| |].
  - intros o k. rewrite (Hm o). apply Hnn.
  - pose proof (total_subsidy_bound cp (S (length nd.(n_blocks))) ltac:(lia)). unfold MAX_MONEY, COIN in *. lia.
Qed.

(** C4. A connected block is applied exactly, and undone exactly.  Take a node
    reached as above that connects a block at the next height (below 2^31), one that
    [CheckBlock] has passed, with new and distinct transaction identifiers and with
    consistent script flags.  It then shows exactly the coins that the block's transactions
    leave.  If the block is disconnected next, with readable undo data and whatever
    the asset cache of the tip and the asset databases then hold, the result is the
    one the asset cache's own undo decides: failed where it cannot be undone, unclean
    where it reports a difference, and clean otherwise; and unless it failed, every
    unspent output is what it was before the block.  It is clean in particular when
    assets are not deployed, or neither an output nor a spent coin of the block
    carries an asset. *)
Theorem connect_block_exact (nd : node) x y (vtx : list CTransaction) (undo : list (list Coin))
  (c' : CCoinsMap) (ac : CAssetsCache) w (maxOutputs : nat) p s :
  0 < cp.(nSubsidyHalvingInterval) -> reached nd ->
  let base := nd.(n_base) in let u := view base nd.(n_cache) in let h := height_of nd.(n_blocks) + 1 in
  x_height x = h -> x_height y = h -> h < 2 ^ 31 -> consistent x.(x_benv).(flags) ->
  block_passed x vtx -> ids_new u vtx -> connect x base nd.(n_passets) nd.(n_store) nd.(n_cache) vtx = Ok (undo, c', (ac, w)) ->
  (forall o, view base c' o = apply_block GetAssetAmountFromScript h u vtx o)
  /\ exists c'', (forall o, view base c'' o = u o)
     /\ match undone_assets y p s vtx undo w with
        | None => exists c2 a2, disconnect y base p s maxOutputs true c' vtx undo w = Some (DISCONNECT_FAILED, c2, a2)
        | Some (clean, a) => disconnect y base p s maxOutputs true c' vtx undo w
                             = Some (if clean then DISCONNECT_OK else DISCONNECT_UNCLEAN, c'', a)
        end
     /\ (untouched y.(x_aenv) vtx undo ->
         disconnect y base p s maxOutputs true c' vtx undo w = Some (DISCONNECT_OK, c'', (empty_cache, w))).
Proof.
  intros HI Hr base u h Hx Hy Hlt Hf Hps Hnew Hb. destruct (reached_ok nd HI Hr) as [Hc Hch].
  destruct (connect_spec _ _ _ _ _ _ _ _ _ Hf Hc Hps Hnew Hb) as (Hc' & Hok & Hv & Hus & _). rewrite Hx in *. split; [done|].
  destruct (disconnect_spec y base p s maxOutputs c' u vtx undo w) as (c'' & _ & Hv'' & E); rewrite ?Hy; try done.
  { unfold h, height_of. lia. } { by eapply chain_utxo_ok. } { by eapply block_passed_checked. }
  exists c''. split_and!; [done..|]. intros Hun.
  assert (undone_assets y p s vtx undo w = Some (true, (empty_cache, w))) as Eu.
  { apply disconnect_untouched. apply (untouched_block _ _ _ Hun). eapply Forall_impl; [apply Hps|].
    intros tx [[b Htx] _]. by apply CheckTransaction_form in Htx as (_ & ? & _). }
  by rewrite Eu in E.
Qed.

(** ** Signatures and assertions *)

(** C2. A payment to a key hash is only spent with the key's signature.  Take a block
    that is connected to a sound coins cache, one that [CheckBlock] has passed, with
    new and distinct transaction identifiers and consistent script flags, whose scripts
    are checked, and in it an input of a transaction that is not the coinbase and not in
    the cache of executed scripts.  If the coin it spends pays to a key hash, alone or
    with asset data behind it, then the input's own script leaves on the stack a public
    key that has this hash and under it a signature, which the key verifies on the hash
    of this transaction and this input, computed with the script of the coin and the
    hash type in the signature's last byte. *)
Theorem spend_needs_signature x (base : CCoinsView) p s (c : CCoinsMap) (vtx : list CTransaction) (undo : list (list Coin)) (c' : CCoinsMap)
  (a : CAssetsCache * list (bytes * CBlockAssetUndo)) (j n : nat) (tx : CTransaction) (i : CTxIn) (k : Coin) (h : bytes) (tail : CScript) :
  cache_ok base c -> consistent x.(x_benv).(flags) -> block_passed x vtx -> ids_new (view base c) vtx ->
  connect x base p s c vtx = Ok (undo, c', a) ->
  x.(x_benv).(fScriptChecks) = true -> vtx !! j = Some tx -> IsCoinBase tx = false -> x.(x_benv).(cached) tx = false ->
  tx.(vin) !! n = Some i ->
  apply_block GetAssetAmountFromScript (x_height x) (view base c) (take j vtx) i.(prevout) = Some k ->
  length h = 20%nat -> asset_tail tail -> k.(out).(scriptPubKey) = p2pkh h tail ->
  exists key sig rest sighash,
    EvalScript x.(x_benv).(flags) (TransactionSignatureChecker tx n k.(out).(nValue) (Some (precompute tx))) SIGVERSION_BASE [] i.(scriptSig)
      = Ok (key :: sig :: rest)
    /\ GetID key = h /\ CPubKey_IsValid key = true
    /\ SignatureHash (drop_signature SIGVERSION_BASE k.(out).(scriptPubKey) sig) tx n (List.last sig 0) k.(out).(nValue) SIGVERSION_BASE
         (Some (precompute tx)) = Some sighash
    /\ ecdsa_verify key sighash (take (length sig - 1) sig) = true.
Proof.
  intros Hc Hf Hps Hnew Hb Hs Hj Hcb Hca Hi Hk Hh Ht Hpk.
  destruct (connect_spec _ _ _ _ _ _ _ _ _ Hf Hc Hps Hnew Hb) as (_ & _ & _ & _ & nFees & cb & _ & Hacc & _).
  destruct (txs_accepted_lookup _ _ _ _ _ _ _ Hacc Hj) as (fee & Htx). unfold tx_accepted in Htx. rewrite Hcb in Htx.
  destruct Htx as [_ Htx]. specialize (Htx Hs Hca n i k Hi Hk). unfold ScriptCheck in Htx. rewrite Hpk in *.
  destruct (p2pkh_only_owner _ _ _ _ _ _ Hh Ht Htx) as (sig & key & rest & Hev & Hkey & _ & _ & Hsig). exists key, sig, rest.
  cbn [TransactionSignatureChecker CheckSig] in Hsig. unfold Tx_CheckSig in Hsig.
  destruct (CPubKey_IsValid key) eqn:Ev; [|done]. destruct (is_nil sig); [done|]. cbn [negb] in Hsig.
  destruct (SignatureHash _ _ _ _ _ _ _) as [sighash|] eqn:Eh; [|done]. exists sighash. done.
Qed.

(** C8. Connecting a block never fails an assertion.  On a node reached as above, a
    block at the next height (below 2^31) that [CheckBlock] has passed, with new and
    distinct transaction identifiers, consistent script flags, an index entry with
    consistent links whose predecessor has a median time that is not negative, and
    address prefixes of one byte each that are different, is connected, rejected with
    a reason, or stopped by the exception of [GetValueOut].  In particular every input
    is there to be spent when [UpdateCoins] asserts it, in the coins and in the asset
    cache. *)
Theorem connect_block_no_assert (nd : node) x (vtx : list CTransaction) (prev : CBlockIndex) :
  0 < cp.(nSubsidyHalvingInterval) -> reached nd -> x_height x = height_of nd.(n_blocks) + 1 -> x_height x < 2 ^ 31 ->
  prefixes_ok x.(x_aenv).(e_prefixes) -> consistent x.(x_benv).(flags) -> chained x.(x_benv).(pindex) ->
  x.(x_benv).(pindex).(pprev) = Some prev -> 0 <= GetMedianTimePast prev ->
  block_passed x vtx -> ids_new (view nd.(n_base) nd.(n_cache)) vtx ->
  connect x nd.(n_base) nd.(n_passets) nd.(n_store) nd.(n_cache) vtx <> Err Asserts.
Proof.
  intros HI Hr Hx Hlt Hpre Hf Hch Hp Ht Hps Hnew. destruct (reached_ok nd HI Hr) as [Hc Hcn].
  refine (ConnectBlock_no_assert GetAssetAmountFromScript nd.(n_base) (x_env x) (x_rules x nd.(n_base) nd.(n_passets) nd.(n_store))
    (check_assets_reads _ _ _ _ _ _ _ _ _ _ _ _ _ _ _) Hf (tx_fit x.(x_aenv) x.(x_junkType)) _
    (rules_assert_nothing _ _ _ _ _ _ _ _ _ _ _ _ _ _ _ Hpre) prev Hch Hp Ht Hlt nd.(n_cache) _ vtx Hc
    (block_passed_checked _ _ Hps) (proj1 Hps) Hnew _).
  - by intros tx [_ ?].
  - intros o k Hk. destruct (chain_coins _ _ Hcn o k Hk) as [Hh Hb]. split; [|done].
    assert (bi_height (pindex (x_env x)) = height_of nd.(n_blocks) + 1) as -> by exact Hx. lia.
Qed.

End Node.

(** ** Two blocks, and one that creates money *)

Module Ledger.
Import ConnectBlock.Live AssetRules.Market AssetCache.Registry.

#[local] Existing Instance Spend.accept_all.
#[local] Existing Instance poly_script_hash.
#[local] Existing Instance Poly.poly_hash.

(** A network on which a coinbase can be spent after one block. *)
Definition benv (entry : CBlockIndex) : block_env :=
  MkEnv main_params true true true 1 true (fun _ => false) (block_flags true true true true) entry.
Definition X (aenv : asset_env) (entry : CBlockIndex) : circumstances :=
  MkCircumstances aenv (benv entry) false true true 0 ROOT (fun _ => false) ∅ 0 0 9.
Definition X1 : circumstances := X AssetRules.Market.env entry1.
Definition X2 : circumstances := X AssetRules.Market.env entry2.

Definition outcome : Type := result tx_failure (list (list Coin) * CCoinsMap * (CAssetsCache * list (bytes * CBlockAssetUndo))).
Definition undo_of (r : outcome) : list (list Coin) := match r with Ok (u, _, _) => u | Err _ => [] end.
Definition coins_after (r : outcome) : CCoinsMap := match r with Ok (_, c, _) => c | Err _ => ∅ end.
Definition cache_after_block (r : outcome) : CAssetsCache := match r with Ok (_, _, (a, _)) => a | Err _ => empty_cache end.
Definition undo_data (r : outcome) : list (bytes * CBlockAssetUndo) := match r with Ok (_, _, (_, w)) => w | Err _ => [] end.
Definition is_connected (r : outcome) : bool := match r with Ok _ => true | Err _ => false end.
Lemma connected_eq r : is_connected r = true -> r = Ok (undo_of r, coins_after r, (cache_after_block r, undo_data r)).
Proof. by destruct r as [[[u c] [a w]]|]. Qed.

Definition r1 : outcome := connect X1 empty_base empty_cache no_store ∅ vtx1.
Definition c1 : CCoinsMap := coins_after r1.
Definition p1 : CAssetsCache := Flush (cache_after_block r1) empty_cache.
Definition r2 : outcome := connect X2 empty_base p1 no_store c1 vtx2.

Lemma r1_ok : r1 = Ok (undo_of r1, c1, (cache_after_block r1, undo_data r1)).
Proof. apply connected_eq. vm_compute. reflexivity. Qed.
Lemma r2_ok : connect X2 empty_base p1 no_store c1 vtx2 = Ok (undo_of r2, coins_after r2, (cache_after_block r2, undo_data r2)).
Proof.
  assert (is_connected r2 = true) as H by (vm_compute; reflexivity). fold r2.
  destruct r2 as [[[u c] [a w]]|]; [reflexivity|discriminate].
Qed.

Definition bytes_b (tx : CTransaction) : bool := forallb (fun o => all_bytes o.(scriptPubKey)) tx.(vout).
Lemma fits aenv tx : CheckTransaction aenv ROOT tx true false true = Ok tt -> bytes_b tx = true -> tx_fit aenv ROOT tx.
Proof.
  intros H1 H2. split; [by exists true|]. unfold bytes_b in H2. rewrite forallb_forall in H2.
  apply Forall_forall. intros o Ho%list_elem_of_In. exact (H2 o Ho).
Qed.

Lemma passed1 : block_passed X1 vtx1.
Proof. split; [apply Forall_singleton, fits; vm_compute; reflexivity|split; [reflexivity|constructor]]. Qed.
Lemma passed2 : block_passed X2 vtx2.
Proof.
  split; [apply Forall_cons; split; [|apply Forall_singleton]; apply fits; vm_compute; reflexivity|].
  split; [reflexivity|by apply Forall_singleton].
Qed.
Lemma new1 : ids_new (view empty_base ∅) vtx1.
Proof. split; [apply Forall_singleton, id_new_spec; vm_compute; reflexivity|apply NoDup_singleton]. Qed.
Lemma new2 : ids_new (view empty_base c1) vtx2.
Proof.
  split; [apply Forall_cons; split; [|apply Forall_singleton]; apply id_new_spec; vm_compute; reflexivity|].
  apply (bool_decide_eq_true_1 (NoDup (GetHash <$> vtx2))). vm_compute. reflexivity.
Qed.

Definition node0 : node := MkNode empty_base ∅ [] empty_cache no_store.
Definition node1 : node := MkNode empty_base c1 [(vtx1, undo_of r1, undo_data r1)] p1 no_store.
Lemma node0_fresh : fresh node0.
Proof. split_and!; [|apply map_Forall_empty|reflexivity]. intros o. unfold view. cbn. by rewrite lookup_empty. Qed.
Lemma node0_reached : reached main_params node0.
Proof. exists node0. split; [exact node0_fresh|apply rtc_refl]. Qed.
Lemma node1_reached : reached main_params node1.
Proof.
  exists node0. split; [exact node0_fresh|]. apply rtc_once, (step_connect main_params empty_base ∅ [] empty_cache no_store X1).
  - reflexivity.
  - exact flags_ok.
  - vm_compute. reflexivity.
  - vm_compute. reflexivity.
  - exact passed1.
  - exact new1.
  - left. reflexivity.
  - exact r1_ok.
Qed.
Lemma c1_ok : cache_ok empty_base c1.
Proof. apply (reached_ok main_params node1 eq_refl node1_reached). Qed.

Lemma money_supply_witness : exists m : gmap COutPoint Coin, (forall o, m !! o = view empty_base c1 o)
  /\ (forall o k, m !! o = Some k -> 0 <= k.(out).(nValue)) /\ worth m <= MAX_MONEY.
Proof. apply (money_supply main_params node1); [vm_compute; split; [reflexivity|discriminate]|exact node1_reached]. Defined.

Lemma untouched2 : untouched (x_aenv X2) vtx2 (undo_of r2).
Proof.
  right. split; [|apply (bool_decide_eq_true_1 (Forall (Forall (fun k => IsAssetScript k.(out).(scriptPubKey) = false)) (undo_of r2))); vm_compute; reflexivity].
  apply Forall_cons; split; [|apply Forall_singleton]; repeat (apply Forall_cons; split; [split; vm_compute; reflexivity|]); apply Forall_nil; exact I.
Qed.

Lemma connect_block_exact_witness :
  view empty_base (coins_after r2) o1 = None
  /\ exists c'', disconnect X2 empty_base empty_cache no_store 5 true (coins_after r2) vtx2 (undo_of r2) (undo_data r2)
                 = Some (DISCONNECT_OK, c'', (empty_cache, undo_data r2))
     /\ view empty_base c'' o1 = view empty_base c1 o1.
Proof.
  destruct (connect_block_exact main_params node1 X2 X2 vtx2 (undo_of r2) (coins_after r2) (cache_after_block r2) (undo_data r2) 5 empty_cache no_store)
    as (Hv & c'' & Hv'' & _ & Hd).
  - reflexivity.
  - exact node1_reached.
  - vm_compute. reflexivity.
  - vm_compute. reflexivity.
  - vm_compute. reflexivity.
  - exact flags_ok.
  - exact passed2.
  - exact new2.
  - exact r2_ok.
  - split; [vm_compute; reflexivity|]. exists c''. split; [exact (Hd untouched2)|exact (Hv'' o1)].
Defined.

Lemma spend_needs_signature_witness : exists key sig rest sighash,
  EvalScript (block_flags true true true true) (TransactionSignatureChecker spender 0 (4850 * COIN) (Some (precompute spender))) SIGVERSION_BASE []
    (p2pkh_input Spend.sig Spend.key) = Ok (key :: sig :: rest)
  /\ GetID key = Spend.key_hash /\ CPubKey_IsValid key = true
  /\ SignatureHash (drop_signature SIGVERSION_BASE to_key sig) spender 0 (List.last sig 0) (4850 * COIN) SIGVERSION_BASE (Some (precompute spender)) = Some sighash
  /\ ecdsa_verify key sighash (take (length sig - 1) sig) = true.
Proof.
  apply (spend_needs_signature X2 empty_base p1 no_store c1 vtx2 (undo_of r2) (coins_after r2) (cache_after_block r2, undo_data r2) 1 0 spender
           (MkTxIn o1 (p2pkh_input Spend.sig Spend.key) SEQUENCE_FINAL []) k1 Spend.key_hash []).
  - exact c1_ok.
  - exact flags_ok.
  - exact passed2.
  - exact new2.
  - exact r2_ok.
  - reflexivity.
  - reflexivity.
  - reflexivity.
  - reflexivity.
  - reflexivity.
  - vm_compute. reflexivity.
  - reflexivity.
  - left. reflexivity.
  - reflexivity.
Defined.

Lemma connect_block_no_assert_witness : connect X1 empty_base empty_cache no_store ∅ vtx1 <> Err Asserts.
Proof.
  apply (connect_block_no_assert main_params node0 X1 vtx1 demo_genesis).
  - reflexivity.
  - exact node0_reached.
  - vm_compute. reflexivity.
  - vm_compute. reflexivity.
  - exact Base58.MainNet.main_ok.
  - exact flags_ok.
  - apply extend_chained, demo_genesis_chained.
  - vm_compute. reflexivity.
  - vm_compute. discriminate.
  - exact passed1.
  - exact new1.
Defined.

(** Assets are deployed, but neither the values of asset outputs nor the absence of
    assets in a coinbase is enforced yet. *)
Definition unenforced : asset_env := MkAssetEnv pre true true true false false burns false.
(** The reward of the first block with a reissue behind it that carries a million coins. *)
Definition reissue_out : CTxOut := MkTxOut (1000000 * COIN) (ConstructReissue (MkReissue (str "GOLD") 5 8 1 []) (pay_to alice)).
Definition rich_coinbase : CTransaction :=
  let cb := coinbase 1 0 in
  MkTransaction cb.(vin)
    ([MkTxOut (4700 * COIN) to_key] ++ drop 1 cb.(vout) ++ [burn (100 * COIN); send (str "GOLD!") 100000000; reissue_out]) 2 0 0 [].
Definition rich_vtx : list CTransaction := [rich_coinbase].
Definition rich_out : COutPoint := MkOutPoint (GetHash rich_coinbase) (Z.of_nat (length rich_coinbase.(vout)) - 1).
Definition rich : outcome := connect (X unenforced entry1) empty_base empty_cache no_store ∅ rich_vtx.


End Ledger.
